(* ===== verification/_CoqProject ===== *)
-Q . S2P
Prelude.v
Events.v
Float64.v
GoStrings.v
Crypto.v
Session.v
Tokens.v
Dero.v
Registry.v
Payments.v
Route.v
Guards.v
Latency.v
Circuit.v
RouteBilling.v
NetIP.v
Timestamps.v
Storage.v
Ipam.v
Abuse.v
NodeStore.v
NodeConfig.v
Controller.v
GoText.v
Security.v
Redact.v
Ipc.v
NodeApi.v
Xswd.v
WalletAuth.v
WgConf.v
Tunnel.v
Backend.v
NodeWg.v
Runner.v
Platform.v
NodeFirewall.v
Firewall.v
Routing.v
Dns.v
Cover.v
Reputation.v
ClientConfig.v
NodeDaemon.v
Enforce.v
App.v
AppStorage.v
Diag.v
EngineAdapter.v
Sdk.v
Mobile.v
Onboard.v
AppCircuit.v
Wallet.v
Service.v
Ui.v
Codec.v
Rpc.v
NodeStatus.v
Remote.v
Cli.v
Setup.v
Demo.v
