(* ===== verification/Prelude.v ===== *)
(** * DERO VeilNet: a verification library

    VeilNet is a decentralised VPN written in Go.  Nodes advertise themselves
    in a registry; a client selects nodes and builds a route of one to three
    WireGuard hops; it pays per node from a DERO wallet with prepaid credit,
    node-signed receipts and batched settlements; a node admits a client that
    presents a bearer token, leases it a tunnel address and installs it as a
    WireGuard peer; the client's tunnel engine watches the handshake and a kill
    switch blocks traffic outside the tunnel.  The files below model the parts
    under [src/internal/], the three programs under [src/cmd/] (the client, the
    privileged service and the node) and the libraries under [src/sdk/] and
    [src/mobile/] as executable definitions, and prove them correct.

    ** Conventions

    A Go method [T.M] is the function [T_M] on an explicit state, returning the
    new state and a [result] (the Go pair of a value and an error).  Clocks,
    random bytes, file and wallet answers and the order in which Go walks a map
    are arguments, so a theorem holds for every such choice; a random source
    that fails is [None].  Integers are [Z] with the wrap-around of their width
    written out ([wrap_u64], [wrap_i64], [wrap_u32]); [float64] is IEEE-754
    binary64 ([Float64]).  A method that holds its lock throughout is one step;
    a method that releases it half-way is given as its locked sections too, and
    what overlapping calls can do is a sequence of those sections.  Pointers
    shared between indices are addresses into a heap ([Session]).  SHA-256,
    ed25519, Curve25519, JSON, Unicode case tables, IPv6 text, the wallet, the
    WireGuard device and the operating system's command runner lie outside the
    repository: they are type classes, with their documented behaviour as laws
    where a theorem needs it and a concrete instance behind every witness.

    ** How the parts fit

    The daemon is [Service]: it reads requests from [Ipc], keeps the client
    application of [App] with the wallet of [Wallet], and hands the outside to
    three parts behind interfaces: the engine ([App.Engine], implemented by
    [EngineAdapter] over [Tunnel], whose devices [Backend] opens), the leak
    protection ([App.Enforcer], implemented by [Enforce] over [Firewall] and
    [Dns]) and the database ([App.ClientStore], implemented by [AppStorage] over
    [Storage]).  [Sdk] and [Mobile] are clients of the same application; so is
    the page of [Ui], whose provider is the application itself or, in the client
    program of [Remote] and [Cli], the service at the other end of [Ipc]; the two
    are related by a refinement.  The wallet the client and the payments are
    written against is implemented by [Dero], [Xswd] and, over the wire, [Rpc].
    A node is [NodeApi] over [Controller], whose device [NodeWg] implements;
    [NodeDaemon] starts it from its files and [NodeStatus] asks it.  A theorem about [App] is proved against the
    interfaces and their laws; each implementation discharges the laws, and the
    properties of [Service] are about the composition.

    ** Files

    Shared: this prelude (results, machine integers, sums and stable sorting,
    tactics, hint databases), [Float64], [GoStrings], [GoText], [NetIP],
    [Timestamps] (RFC 3339 texts of civil times) and [Crypto] give the parts of
    Go and its standard library the program uses.

    The core of a session:

    - [Session] ([session/session.go]): the session manager.  A token opens at
      most one session and never one after its revocation
      ([session_single_use]); every branch of opening ([authorize_exact]); a
      sweep evicts exactly the expired ([sweep_exact]); byte counters touch one
      session ([add_bytes_isolated]).
    - [Tokens] ([tokens/]): bearer tokens.  Minting then validating returns the
      token; a wrong secret, a revoked or an expired id never does.  The issuer
      is an instance of the validator interface [Session] is written against.
    - [Dero] ([dero/client.go], [mock.go]): the wallet interface, its laws, and
      the mock and HTTP wallets as instances.  [Xswd] ([dero/xswd.go],
      [xswd_client.go]): the wallet bridge over a websocket; a transfer is asked
      for once.  [WalletAuth] ([dero/auth.go]): Basic and Digest logins; the
      answer is the one RFC 7616 names.  [Rpc] ([dero/client.go], [mock.go]): the
      typed calls over that transport; only submissions spend, each at most once.
    - [Payments] ([payments/payments.go]): approval, funding, token, receipts and
      settlement over any wallet.  Nothing is spent without approval, an approval
      spends exactly the deposit, a session's charges stay within it, settling
      submits each receipt once and a retry repeats the identical submission.
    - [Registry] ([registry/]): validation, signed announcements, the store with
      its pinned operator keys, and the weighted selection: the winner is the
      least in the documented order whatever order the map is walked in.
    - [Reputation] ([reputation/]): evidence that a node settled twice or forged
      a receipt, advisories, scores.  A slash needs a valid proof; a score lies
      in the unit interval.
    - [Route], [Guards], [Latency], [Circuit] ([multihop/]): route construction
      with its separation checks, hop tokens, guarded rotation, latency scoring
      and greedy path selection, circuits and their rotator.  [Latency] is a
      refinement of [Route]: what it selects builds and verifies.
    - [RouteBilling] ([payments/multihop.go]): one approval for a route.
    - [Cover] ([cover/cover.go]): padding and constant-rate shaping with its
      cost counters and cap.
    - [Events] ([events/bus.go]): non-blocking delivery to subscribers.

    The node:

    - [Ipam], [Abuse], [NodeStore], [NodeConfig] ([nodes/]): the address pool,
      rate limits and blocklist, the client table, the node's configuration.
    - [Controller] ([nodes/controller.go]): admission, revocation and the sweep
      over [Session], [Ipam], [Abuse], [NodeStore] and a WireGuard device.  Live
      sessions own distinct leased addresses, also after a restart, and every
      refusal gives back what it took.
    - [NodeApi] ([nodes/api.go]): the loopback management API; nothing reaches
      the controller without the bearer token, and the handlers refine it.
    - [NodeFirewall] ([nodes/firewall.go]): the exit rules of the node.
    - [NodeWg] ([nodes/wireguard.go]): the device.  An admitted client is routed
      to its leased address, a revoked one is cut off.
    - [NodeDaemon] ([cmd/veilnet-node/main.go], [nodes/config.go], [store.go],
      [abuse.go], [heartbeat.go]): the start of the daemon from its files, its
      steps, and the subcommands that change the files.  The complaint that
      reaches the threshold keeps the node from starting.
    - [NodeStatus] ([cmd/veilnet-node/main.go]): the status screen.  It shows the
      controller's numbers, through [NodeApi] and its JSON.

    The tunnel and the protection:

    - [WgConf] ([wireguard/wgconf.go]): the wg-quick and device formats with
      their round trips, validation, key generation.
    - [Tunnel] ([tunnel/engine.go], [monitor.go], [kernel.go]): the engine and
      its watchdog.  UP means a live device and a handshake; one tick is
      described exactly; a dead peer leads to FAILED after the configured number
      of ticks.
    - [Backend] ([tunnel/backend.go]): the wireguard-go and wgctrl backends over
      a machine that counts what is open.  A backend that could not be created,
      and one that was closed, leaves nothing open; creating one refines what
      [Tunnel] says of it.
    - [Runner] ([firewall/killswitch.go]): commands and state files, shared by
      the next three.
    - [Firewall] ([firewall/]): the kill switch.  Its manager is proved against
      the contract [KillSwitchLaws]; the netsh backend implements the contract on
      any runner where the commands do what they document.  A cycle restores
      rules and policy, a failed enable leaves nothing, and a tunnel loss only
      ever runs commands that block.
    - [Routing] ([routing/]), [Dns] ([dns/]): routes and resolvers with their
      snapshots; what was there before is there after.
    - [Enforce] ([app/enforce.go], [cmd/veilnet-service/enforce.go]): the plan
      for a node and the enforcer that applies it; a cycle leaves the machine as
      it was, a failed application rolls back.

    The client:

    - [ClientConfig] ([config/client.go]): defaults, validation, files.
    - [App] ([app/app.go], [select.go]): listing, selecting, connecting and
      disconnecting.  A connected client is protected; a connection that failed
      leaves nothing running; rules come off after the tunnel is down.
    - [AppCircuit] ([app/circuit.go]): circuits chosen and rotated; the recorded
      circuit is well formed.
    - [Storage] ([storage/client.go]): the tables and statements.  Opening
      resumes an interrupted migration; what is saved is read back.
      [AppStorage]: the application over those tables; the history has every
      session with its traffic.
    - [Diag] ([app/diag.go]): the report says what is the case.
    - [Onboard] ([app/onboard.go]): first start, crash marker, error catalogue.
    - [Wallet] ([app/wallet.go]): the wallet of the client; a payment needs an
      approval and nothing else spends.

    The programs around it:

    - [EngineAdapter] ([cmd/veilnet-service/engine_adapter.go],
      [transport/transport.go]): the tunnel engine as the engine of [App], and the
      transports by name.  A connection configures exactly one peer, the node.
    - [Ipc] ([ipc/]): token file, server and call.  Only the token reaches the
      handler, and a call is what the handler does with its request.
    - [Service] ([cmd/veilnet-service/main.go]): start and dispatch.  Whatever
      clients ask, in whatever order, a current node means protection; DERO moves
      only on a wallet-pay with an approval; passwords do not leave.
    - [Sdk] ([sdk/veilnet/]): selection is the cheapest suitable node whatever
      the order of the list; connecting at a price needs the hook.
    - [Mobile] ([mobile/veilnet/]): the calls of a phone; Start asks to connect
      only with a tunnel, or as the demo, and within what the host agreed to pay.
    - [Ui] ([ui/ui.go]): the handlers of the page as programs of calls on a
      provider.  A page spends only by the payment route, once per approval;
      passwords stay where they are.
    - [Codec]: a concrete codec of everything that crosses the channel, the
      witness that the laws of the JSON classes can hold.
    - [Remote] ([cmd/veilnet/main.go]): the provider of the page over the service.
      While the service answers, the page over it is the page over the
      application.
    - [Cli] ([cmd/veilnet/main.go]): what the arguments mean and a run of the
      program; the next run reports how this one ended.
    - [Setup] ([cmd/veilnet/setup.go]): the report of the environment; it counts
      no issue exactly when everything is in place.
    - [Demo] ([app/demo.go]): the engine of the demo with its sleeping
      goroutines, and the demo run; the engine always settles.
    - [Platform] ([platform/], [tunnel/kernel_*.go]): directories, the places of
      the state files of [Firewall], [Dns] and [Routing], the registry of
      backends, the kernel probes.  What one run leaves the next one finds.
    - [Security] ([security/]): access list, rate limiter, token checks, allowed
      commands and metadata, diagnostics.  In every window at most the limit of
      calls of a key passes.  [Redact] ([security/redact.go]): the patterns for
      log lines over a matcher proved to find exactly what matches.

    ** Fuel and bounds

    Loops are structural except for these.  The pool scan of
    [Ipam.IPAM_Allocate] is bounded by the size of the range in the code: the
    fuel is that size, and [Ipam.allocate_exact] shows it finds a free address
    whenever there is one.  The hop search of [AppCircuit.AutoCircuitHops] drops
    a hop on each retry: three units are enough ([AppCircuit.auto_circuit_facts]),
    and [Service.AutoCircuit_total] runs it with them.  The backoff loop runs at
    most failures - 1 times; the calendar of [Timestamps] is correct for the
    years 1 to 9999, which bounds the times that survive the database.  The runes
    of [Security] and the replacements of [Redact] take the length of the text
    (plus one) as fuel, since each step takes a byte.

    ** What the model shows besides

    Small closed examples record behaviour that differs from what the code or
    its comments intend: a session reopened after its token expired leaves its
    address behind, two overlapping settlements pay twice, a rotation half-way
    undoes another, a stop overlapping the watchdog leaves the tunnel UP without
    a device, a Linux without nftables is locked out by a failed enable, an
    apply on the wireguard-go backend adds peers instead of replacing them, the
    kernel backend ignores the configured transport, the daemon starts with an
    empty list of nodes and can connect to none, a NaN price needs no approval,
    and others next to the component they concern.

    ** Not modelled

    Sockets, pipes, HTTP, JSON, TOML and SQL engines below the texts and tables
    the program sees; device drivers; goroutine schedules other than the
    sequences of locked sections (and, for the demo, of sleepers) given; parsing
    flags, printing, signals and opening a browser; the Windows administrator
    token; the prerequisite script of [setup.go], which nothing calls; the
    smart contract ([contracts/veilnet.bas], DVM-BASIC); the reference implementations of the tests ([tests/ref/]). *)

From Stdlib Require Import ZArith Lia.
From stdpp Require Export base tactics option list gmap fin_maps strings sorting pretty.

Open Scope Z_scope.

(** ** Results: a Go [(T, error)] pair *)

Inductive result (E A : Type) : Type :=
| Ok (a : A)
| Err (e : E).
Arguments Ok {E A} a.
Arguments Err {E A} e.

Definition result_bind {E A B} (r : result E A) (k : A → result E B) : result E B :=
  match r with Ok a => k a | Err e => Err e end.

Definition result_map_err {E F A} (f : E → F) (r : result E A) : result F A :=
  match r with Ok a => Ok a | Err e => Err (f e) end.

Definition is_ok {E A} (r : result E A) : bool :=
  match r with Ok _ => true | Err _ => false end.

Declare Scope go_scope.
Delimit Scope go_scope with go.
Notation "'let*' x ':=' m 'in' k" := (result_bind m (fun x => k))
  (at level 10, x pattern, m at level 100, k at level 200) : go_scope.
Open Scope go_scope.

(** ** Machine integers *)

Definition max_int64 : Z := 2 ^ 63 - 1.
Definition min_int64 : Z := - 2 ^ 63.
Definition wrap_u64 (z : Z) : Z := z mod 2 ^ 64.
Definition wrap_u32 (z : Z) : Z := z mod 2 ^ 32.
Definition wrap_i64 (z : Z) : Z := (z + 2 ^ 63) mod 2 ^ 64 - 2 ^ 63.

Definition is_int64 (z : Z) : Prop := min_int64 ≤ z ≤ max_int64.
Definition is_uint64 (z : Z) : Prop := 0 ≤ z < 2 ^ 64.
Definition is_uint32 (z : Z) : Prop := 0 ≤ z < 2 ^ 32.

(** ** Time: nanoseconds since the zero [time.Time] *)

Definition time : Type := Z.
Definition duration : Type := Z.

Definition nanosecond : duration := 1.
Definition second : duration := 1000000000.
Definition minute : duration := 60 * second.
Definition hour : duration := 60 * minute.

Definition Time_IsZero (t : time) : bool := t =? 0.
Definition Time_Before (a b : time) : bool := a <? b.
Definition Time_After (a b : time) : bool := b <? a.
Definition Time_Add (t : time) (d : duration) : time := t + d.
(** [t.Sub(u)] saturates at the ends of int64. *)
Definition Time_Sub (t u : time) : duration := Z.max min_int64 (Z.min max_int64 (t - u)).
Definition Time_Truncate (t : time) (d : duration) : time := t - t mod d.
(** Seconds between the zero [time.Time] and the Unix epoch. *)
Definition unix_epoch : Z := 62135596800.
Definition Time_Unix (t : time) : Z := t / second - unix_epoch.
Definition time_Unix (sec : Z) : time := (sec + unix_epoch) * second.

(** ** Go maps

    A [range] over a Go map visits the entries in an unspecified order.  An
    operation whose result depends on it takes the visited entries as an
    argument, constrained by [range_of]. *)

Definition range_of {A} (m : gmap string A) (it : list (string * A)) : Prop :=
  it ≡ₚ map_to_list m.

(** [m[k]] on a map of counters: the zero value when the key is absent. *)
Definition map_count (m : gmap string Z) (k : string) : Z := default 0 (m !! k).
Definition map_flag (m : gmap string bool) (k : string) : bool := default false (m !! k).

(** ** Pointers: a heap of mutable records *)

Abbreviation ptr := positive.

(** ** Stable sort

    [sort.SliceStable] with a strict weak order [less], as insertion after
    the last element that is not greater. *)

Fixpoint insert_by {A} (less : A → A → bool) (x : A) (l : list A) : list A :=
  match l with
  | [] => [x]
  | y :: l' => if less x y then x :: y :: l' else y :: insert_by less x l'
  end.

Fixpoint insertion_sort {A} (less : A → A → bool) (acc l : list A) : list A :=
  match l with
  | [] => acc
  | x :: l' => insertion_sort less (insert_by less x acc) l'
  end.

Definition sort_stable {A} (less : A → A → bool) (l : list A) : list A :=
  insertion_sort less [] l.

(** A strict weak order given as a boolean test. *)
Class StrictWeak {A} (less : A → A → bool) (P : A → Prop) : Prop := {
  sw_irrefl : ∀ x, P x → less x x = false;
  sw_trans : ∀ x y z, P x → P y → P z → less x y = true → less y z = true → less x z = true;
  sw_incomp : ∀ x y z, P x → P y → P z →
    less x y = false → less y z = false → less x z = false
}.

(** ** Tactics *)

(** Split the first boolean test or match the goal or a hypothesis is stuck on. *)
Ltac split_match :=
  match goal with
  | |- context [if ?b then _ else _] => destruct b eqn:?
  | |- context [match ?x with _ => _ end] => destruct x eqn:?
  end.
Ltac split_match_in H :=
  match type of H with
  | context [if ?b then _ else _] => destruct b eqn:?
  | context [match ?x with _ => _ end] => destruct x eqn:?
  end.
(** Run through every early return of a handler equation [H]. *)
Ltac branches H := repeat (split_match_in H; try discriminate H).

(** Boolean tests on Z to arithmetic. *)
Ltac zbool :=
  repeat match goal with
  | H : andb _ _ = true |- _ => apply andb_true_iff in H; destruct H
  | H : orb _ _ = false |- _ => apply orb_false_iff in H; destruct H
  | H : negb _ = true |- _ => apply negb_true_iff in H
  | H : negb _ = false |- _ => apply negb_false_iff in H
  | H : (_ <? _) = true |- _ => apply Z.ltb_lt in H
  | H : (_ <? _) = false |- _ => apply Z.ltb_ge in H
  | H : (_ <=? _) = true |- _ => apply Z.leb_le in H
  | H : (_ <=? _) = false |- _ => apply Z.leb_gt in H
  | H : (_ =? _) = true |- _ => apply Z.eqb_eq in H
  | H : (_ =? _) = false |- _ => apply Z.eqb_neq in H
  | H : (_ >? _) = true |- _ => rewrite Z.gtb_ltb in H; apply Z.ltb_lt in H
  | H : (_ >? _) = false |- _ => rewrite Z.gtb_ltb in H; apply Z.ltb_ge in H
  end.

Ltac unwidth := unfold wrap_u64, wrap_u32, wrap_i64, is_int64, is_uint64, is_uint32,
  max_int64, min_int64 in *.

Create HintDb go discriminated.

(** ** Integers *)

Lemma wrap_u64_range z : is_uint64 (wrap_u64 z).
Proof. unwidth. apply Z.mod_pos_bound. lia. Qed.

Lemma wrap_u64_id z : is_uint64 z → wrap_u64 z = z.
Proof. unwidth. intros. apply Z.mod_small. lia. Qed.

Lemma wrap_u32_range z : is_uint32 (wrap_u32 z).
Proof. unwidth. apply Z.mod_pos_bound. lia. Qed.

Lemma wrap_u32_id z : is_uint32 z → wrap_u32 z = z.
Proof. unwidth. intros. apply Z.mod_small. lia. Qed.

Lemma wrap_i64_id z : is_int64 z → wrap_i64 z = z.
Proof. unwidth. intros. rewrite Z.mod_small; lia. Qed.

Lemma wrap_i64_range z : is_int64 (wrap_i64 z).
Proof. unwidth. pose proof (Z.mod_pos_bound (z + 2 ^ 63) (2 ^ 64)). lia. Qed.

#[export] Hint Resolve wrap_u64_range wrap_u32_range wrap_i64_range : go.

(** Congruence modulo 2^64: arithmetic under a wrap-around may be done before
    it, by rewriting. *)
Definition eqm64 (a b : Z) : Prop := a mod 2 ^ 64 = b mod 2 ^ 64.

#[export] Instance eqm64_equiv : Equivalence eqm64.
Proof. split; unfold eqm64; [by intros ? | by intros ? ? -> | by intros ? ? ? -> ->]. Qed.

#[export] Instance eqm64_add : Proper (eqm64 ==> eqm64 ==> eqm64) Z.add.
Proof. unfold eqm64. intros a b E c d F. by rewrite Zplus_mod, E, F, <- Zplus_mod. Qed.

#[export] Instance eqm64_sub : Proper (eqm64 ==> eqm64 ==> eqm64) Z.sub.
Proof. unfold eqm64. intros a b E c d F. by rewrite Zminus_mod, E, F, <- Zminus_mod. Qed.

Lemma eqm64_wrap a : eqm64 (wrap_i64 a) a.
Proof.
  unfold eqm64, wrap_i64. rewrite Zminus_mod_idemp_l. f_equal. lia.
Qed.

Lemma wrap_i64_eqm a b : eqm64 a b → wrap_i64 a = wrap_i64 b.
Proof. unfold eqm64, wrap_i64. intros E. by rewrite Zplus_mod, E, <- Zplus_mod. Qed.

(** Equality of two wrapped sums. *)
Ltac wraps := apply wrap_i64_eqm; rewrite ?eqm64_wrap; apply eq_subrelation; [typeclasses eauto | lia].

(** ** Lists *)

Definition sum_by {A} (f : A → Z) (l : list A) : Z := foldr (fun x s => f x + s) 0 l.

Lemma sum_by_cons {A} (f : A → Z) x l : sum_by f (x :: l) = f x + sum_by f l.
Proof. done. Qed.

Lemma sum_by_app {A} (f : A → Z) l k : sum_by f (l ++ k) = sum_by f l + sum_by f k.
Proof. induction l as [|x l IH]; simpl; [done | rewrite IH; lia]. Qed.

Lemma sum_by_nonneg {A} (f : A → Z) l : Forall (fun x => 0 ≤ f x) l → 0 ≤ sum_by f l.
Proof. induction 1; simpl; lia. Qed.

Lemma sum_by_ext {A} (f g : A → Z) l :
  (∀ x, x ∈ l → f x = g x) → sum_by f l = sum_by g l.
Proof.
  induction l as [|x l IH]; simpl; intros E; [done|].
  rewrite (E x) by set_solver. rewrite IH; [done|]. intros y Hy. apply E. set_solver.
Qed.

#[export] Instance sum_by_perm {A} (f : A → Z) : Proper ((≡ₚ) ==> eq) (sum_by f).
Proof. induction 1; simpl; lia. Qed.

Lemma insert_by_perm {A} (less : A → A → bool) x l : insert_by less x l ≡ₚ x :: l.
Proof.
  induction l as [|y l IH]; simpl; [done|]. destruct (less x y); [done|].
  rewrite IH. apply perm_swap.
Qed.

Lemma insertion_sort_perm {A} (less : A → A → bool) l acc :
  insertion_sort less acc l ≡ₚ acc ++ l.
Proof.
  revert acc. induction l as [|x l IH]; intros acc; simpl; [by rewrite app_nil_r|].
  rewrite IH, insert_by_perm. simpl. by rewrite Permutation_middle.
Qed.

Lemma sort_stable_perm {A} (less : A → A → bool) l : sort_stable less l ≡ₚ l.
Proof. apply insertion_sort_perm. Qed.

Section sorted.
Context {A : Type} (less : A → A → bool) (P : A → Prop) `{!StrictWeak less P}.

(** Nothing later in the list is strictly smaller. *)
Definition sorted_by : list A → Prop := StronglySorted (fun x y => less y x = false).

Lemma sw_asym x y : P x → P y → less x y = true → less y x = false.
Proof.
  intros Px Py H. destruct (less y x) eqn:E; [|done].
  pose proof (sw_trans x y x Px Py Px H E) as C. by rewrite (sw_irrefl x Px) in C.
Qed.

Lemma insert_by_sorted x l :
  P x → Forall P l → sorted_by l → sorted_by (insert_by less x l).
Proof.
  intros Px HP HS. induction HS as [|y l HS IH HF]; simpl.
  { by repeat constructor. }
  apply Forall_cons in HP as [Py Pl]. destruct (less x y) eqn:E.
  - constructor; [by constructor|]. constructor; [by apply sw_asym|].
    rewrite Forall_forall in HF, Pl |- *. intros z Hz.
    apply (sw_incomp z y x); auto. by apply sw_asym.
  - constructor; [by apply IH|]. rewrite insert_by_perm. by constructor.
Qed.

Lemma sort_stable_sorted l : Forall P l → sorted_by (sort_stable less l).
Proof.
  unfold sort_stable. assert (sorted_by []) as H0 by constructor. revert H0.
  assert (Forall P []) as HP0 by constructor. revert HP0.
  generalize (@nil A) as acc. induction l as [|x l IH]; intros acc HPa HS HP; simpl; [done|].
  apply Forall_cons in HP as [Px HP].
  apply IH; [| by apply insert_by_sorted | done].
  rewrite insert_by_perm. by constructor.
Qed.

(** The head of the sorted list is a least element. *)
Lemma sort_stable_head l x r :
  Forall P l → sort_stable less l = x :: r → x ∈ l ∧ ∀ y, y ∈ l → less y x = false.
Proof.
  intros HP E. pose proof (sort_stable_perm less l) as Hp. rewrite E in Hp.
  split; [rewrite <- Hp; set_solver|]. intros y Hy. rewrite <- Hp in Hy.
  pose proof (sort_stable_sorted l HP) as HS. rewrite E in HS.
  inversion HS as [|? ? _ HF]; subst. rewrite Forall_forall in HF.
  apply elem_of_cons in Hy as [->|Hy]; [|by apply HF].
  apply sw_irrefl. rewrite Forall_forall in HP. apply HP. rewrite <- Hp. set_solver.
Qed.
End sorted.

(** Two sorted permutations of one another coincide when the order is
    antisymmetric. *)
Lemma sorted_unique {A} (R : A → A → Prop) (l k : list A) :
  (∀ x y, R x y → R y x → x = y) → StronglySorted R l → StronglySorted R k → l ≡ₚ k → l = k.
Proof.
  intros Ha Hl. revert k. induction Hl as [|x l Hl IH HF]; intros k Hk Hp.
  { by apply Permutation_nil_l in Hp. }
  destruct Hk as [|y k Hk HG]; [by apply Permutation_nil_r in Hp|].
  rewrite Forall_forall in HF, HG.
  assert (x = y) as ->.
  { assert (x ∈ y :: k) as Hx by (rewrite <- Hp; set_solver).
    assert (y ∈ x :: l) as Hy by (rewrite Hp; set_solver).
    apply elem_of_cons in Hx as [->|Hx]; [done|].
    apply elem_of_cons in Hy as [->|Hy]; [done|]. apply Ha; auto. }
  f_equal. apply IH; [done|]. by apply Permutation_cons_inv in Hp.
Qed.

(** [sort.Slice]: some sorted permutation. *)
Class SortSlice : Type := {
  sort_Slice : ∀ {A}, (A → A → bool) → list A → list A;
  sort_Slice_perm : ∀ {A} less (l : list A), sort_Slice less l ≡ₚ l;
  sort_Slice_sorted : ∀ {A} less (P : A → Prop) (l : list A), StrictWeak less P → Forall P l →
    sorted_by less (sort_Slice less l)
}.
Definition stable_sort : SortSlice := {|
  sort_Slice A less l := sort_stable less l;
  sort_Slice_perm A less l := sort_stable_perm less l;
  sort_Slice_sorted A less P l HP := sort_stable_sorted less P l
|}.

(** ** Maps *)

Lemma range_of_elem {A} (m : gmap string A) it k x :
  range_of m it → (k, x) ∈ it ↔ m !! k = Some x.
Proof. intros H. rewrite H. apply elem_of_map_to_list. Qed.

Lemma range_of_nodup {A} (m : gmap string A) it : range_of m it → NoDup it.*1.
Proof. intros H. rewrite H. apply NoDup_fst_map_to_list. Qed.

Lemma range_of_self {A} (m : gmap string A) : range_of m (map_to_list m).
Proof. unfold range_of. reflexivity. Qed.
#[export] Hint Resolve range_of_self : go.
