(* ===== verification/Events.v ===== *)
(** * Events: the process-wide event bus (internal/events/bus.go)

    Subscribers are Go channels, which live in a store of their own because
    the bus and its readers share them.  A delivery never waits: it goes to a
    blocked receiver, else into the buffer, else it is dropped.  Channels are
    independent, so the order in which the code ranges over the subscribers of
    a type does not matter; one that was closed makes the send panic, which is
    [None] here. *)

From Stdlib Require Import ZArith Lia.
From S2P Require Import Prelude.

(** The binding names. *)
Definition NODE_DISCOVERED := "NODE_DISCOVERED".
Definition NODE_CONNECTED := "NODE_CONNECTED".
Definition NODE_DISCONNECTED := "NODE_DISCONNECTED".
Definition TUNNEL_STARTED := "TUNNEL_STARTED".
Definition TUNNEL_STOPPED := "TUNNEL_STOPPED".
Definition KILL_SWITCH_ENABLED := "KILL_SWITCH_ENABLED".
Definition DNS_CHANGED := "DNS_CHANGED".
Definition PAYMENT_REQUESTED := "PAYMENT_REQUESTED".
Definition PAYMENT_CONFIRMED := "PAYMENT_CONFIRMED".
Definition SESSION_AUTHORIZED := "SESSION_AUTHORIZED".
Definition SESSION_EXPIRED := "SESSION_EXPIRED".
Definition NODE_HEARTBEAT := "NODE_HEARTBEAT".
Definition CIRCUIT_ROTATED := "CIRCUIT_ROTATED".
Definition DERO_CONNECTED := "DERO_CONNECTED".
Definition DERO_DISCONNECTED := "DERO_DISCONNECTED".
Definition ERROR := "ERROR".

Section bus.
Context {V : Type}.

(** ** Channels of the language

    [receivers] counts the goroutines blocked on a receive, [received] is what
    has been handed to receivers so far, oldest first. *)
Record chan := mkChan { cap : nat; buf : list V; receivers : nat; received : list V; closed : bool }.

(** A channel never holds more than its capacity, and nobody waits for a value
    while there is one. *)
Definition chan_wf (c : chan) : Prop := (length (buf c) ≤ cap c)%nat ∧ (receivers c = 0%nat ∨ buf c = []).

(** [select { case ch <- v: default: }] on an open channel. *)
Definition try_send (v : V) (c : chan) : chan :=
  match receivers c with
  | S r => mkChan (cap c) (buf c) r (received c ++ [v]) (closed c)
  | O => if (length (buf c) <? cap c)%nat then mkChan (cap c) (buf c ++ [v]) 0%nat (received c) (closed c) else c
  end.

(** A receive on an open channel: the oldest value, else the goroutine blocks. *)
Definition receive (c : chan) : chan :=
  match buf c with
  | v :: b => mkChan (cap c) b (receivers c) (received c ++ [v]) (closed c)
  | [] => mkChan (cap c) [] (S (receivers c)) (received c) (closed c)
  end.

(** ** The bus *)

(** The channels that exist, by address. *)
Abbreviation store := (gmap nat chan) (only parsing).
Record Bus := mkBus { subs : gmap string (gset nat) }.
Definition NewBus : Bus := mkBus ∅.

(** The subscribers of a type: none when the map has no entry. *)
Definition subscribers (b : Bus) (t : string) : gset nat := default ∅ (subs b !! t).

Definition Subscribe (b : Bus) (t : string) (ch : nat) : Bus := mkBus (<[t := {[ch]} ∪ subscribers b t]> (subs b)).

Definition Unsubscribe (b : Bus) (t : string) (ch : nat) : Bus :=
  match subs b !! t with
  | Some m => mkBus (<[t := m ∖ {[ch]}]> (subs b))
  | None => b
  end.

(** A subscriber that is closed; a nil channel, which is not in the store, is
    never ready and its deliveries are dropped. *)
Definition some_closed (s : store) (m : gset nat) : bool :=
  existsb (fun i => match s !! i with Some c => closed c | None => false end) (elements m).

Definition Publish (b : Bus) (s : store) (t : string) (v : V) : option store :=
  if some_closed s (subscribers b t) then None
  else Some (map_imap (fun i c => Some (if decide (i ∈ subscribers b t) then try_send v c else c)) s).

(** Events in the order they are published. *)
Fixpoint publish_all (b : Bus) (s : store) (evs : list (string * V)) : option store :=
  match evs with
  | [] => Some s
  | (t, v) :: evs => match Publish b s t v with Some s => publish_all b s evs | None => None end
  end.

(** What a subscriber of these types is to get out of a list of events. *)
Definition events_for (b : Bus) (i : nat) (evs : list (string * V)) : list V :=
  omap (fun e => if decide (i ∈ subscribers b e.1) then Some e.2 else None) evs.

(** ** Lemmas *)

Definition all_open (s : store) : Prop := map_Forall (fun _ c => closed c = false) s.

Lemma open_publish b s t v : all_open s → Publish b s t v
  = Some (map_imap (fun i c => Some (if decide (i ∈ subscribers b t) then try_send v c else c)) s).
Proof.
  intros Ho. unfold Publish. replace (some_closed s (subscribers b t)) with false; [done|].
  symmetry. apply not_true_is_false. unfold some_closed. intros (i & _ & Hi)%existsb_exists.
  destruct (s !! i) as [c|] eqn:E; [|done]. by rewrite (Ho i c E) in Hi.
Qed.

Lemma send_open v c : closed (try_send v c) = closed c.
Proof. unfold try_send. destruct (receivers c); [|done]. by destruct (_ <? _)%nat. Qed.

Lemma publish_open b s s' t v : all_open s → Publish b s t v = Some s' → all_open s'.
Proof.
  intros Ho. rewrite open_publish by done. intros [= <-] i c. rewrite map_lookup_imap.
  destruct (s !! i) as [c'|] eqn:E; [|done]. cbn. intros [= <-]. specialize (Ho i c' E).
  case_decide; [by rewrite send_open | done].
Qed.

(** [n] values sent one after another: the waiting receivers take the first,
    the free places of the buffer the next, the rest is lost. *)
Definition sent (c : chan) (vs : list V) : chan :=
  mkChan (cap c) (buf c ++ take (cap c - length (buf c))%nat (drop (receivers c) vs))
    (receivers c - length vs)%nat (received c ++ take (receivers c) vs) (closed c).

Lemma sent_nil c : sent c [] = c.
Proof.
  destruct c as [n b r g k]. unfold sent. cbn. by rewrite drop_nil, !take_nil, !app_nil_r, Nat.sub_0_r.
Qed.

Lemma send_sent c v vs : chan_wf c → sent (try_send v c) vs = sent c (v :: vs).
Proof.
  intros [Hb Hr]. destruct c as [n b r g k]. unfold try_send, sent.
  cbn [receivers buf cap received closed] in *.
  destruct r as [|r]; [|cbn; by rewrite <- app_assoc].
  destruct (length b <? n)%nat eqn:E; cbn [receivers buf cap received closed].
  - apply Nat.ltb_lt in E. rewrite length_app, !drop_0. cbn [length].
    replace (n - length b)%nat with (S (n - (length b + 1)))%nat by lia. cbn. by rewrite <- app_assoc.
  - apply Nat.ltb_ge in E. replace (n - length b)%nat with 0%nat by lia. by rewrite drop_0.
Qed.

Lemma send_wf v c : chan_wf c → chan_wf (try_send v c).
Proof.
  intros [Hb Hr]. unfold try_send. destruct (receivers c) as [|r] eqn:E.
  - destruct (length (buf c) <? cap c)%nat eqn:F; [|by split; [|left]].
    apply Nat.ltb_lt in F. split; cbn; [rewrite length_app; cbn; lia | by left].
  - destruct Hr as [|Hr]; [done|]. split; cbn; [done | by right].
Qed.

Lemma subscribers_subscribe b t i t' :
  subscribers (Subscribe b t i) t' = if decide (t' = t) then {[i]} ∪ subscribers b t else subscribers b t'.
Proof.
  unfold Subscribe. unfold subscribers at 1. cbn [subs]. case_decide as Ht.
  - subst. by rewrite lookup_insert_eq.
  - by rewrite lookup_insert_ne by done.
Qed.

Lemma subscribers_unsubscribe b t i t' :
  subscribers (Unsubscribe b t i) t' = if decide (t' = t) then subscribers b t ∖ {[i]} else subscribers b t'.
Proof.
  unfold Unsubscribe, subscribers. destruct (subs b !! t) as [m|] eqn:E; cbn [subs].
  - case_decide as Ht; [subst; by rewrite lookup_insert_eq | by rewrite lookup_insert_ne by done].
  - case_decide as Ht; [subst; rewrite E; cbn; apply leibniz_equiv; set_solver | done].
Qed.

(** a channel that is subscribed to some types gets, of any sequence of
    events, exactly those of its types and in the order they were published:
    the receivers that wait take the first ones, the free places of its buffer
    hold the next, and what is beyond is dropped.  The publishers always get
    through, a channel without a subscription is left alone, and one that
    subscribed twice gets each event once. *)
Theorem bus_delivers (b : Bus) (s : store) (evs : list (string * V)) :
  all_open s → map_Forall (fun _ c => chan_wf c) s →
  ∃ s', publish_all b s evs = Some s'
  ∧ (∀ i, s' !! i = (fun c => sent c (events_for b i evs)) <$> s !! i)
  ∧ (∀ t i, subscribers (Subscribe (Subscribe b t i) t i) t = {[i]} ∪ subscribers b t
            ∧ subscribers (Unsubscribe (Subscribe b t i) t i) t = subscribers b t ∖ {[i]}
            ∧ ∀ t', t' ≠ t → subscribers (Subscribe b t i) t' = subscribers b t'
                             ∧ subscribers (Unsubscribe b t i) t' = subscribers b t').
Proof.
  intros Ho Hw.
  assert (∃ s', publish_all b s evs = Some s' ∧ ∀ i, s' !! i = (fun c => sent c (events_for b i evs)) <$> s !! i)
    as (s' & Hp & Hi).
  { revert s Ho Hw. induction evs as [|[t v] evs IH]; intros s Ho Hw; cbn [publish_all].
    - exists s. split; [done|]. intros i. cbn. destruct (s !! i); [|done]. cbn. by rewrite sent_nil.
    - rewrite open_publish by done.
      destruct (IH (map_imap (λ i c, Some (if decide (i ∈ subscribers b t) then try_send v c else c)) s))
        as (s' & Hp & Hi).
      + eapply publish_open; [exact Ho | by apply open_publish].
      + intros i c. rewrite map_lookup_imap. destruct (s !! i) as [c'|] eqn:E; [|done].
        cbn. intros [= <-]. specialize (Hw i c' E). case_decide; [by apply send_wf | done].
      + exists s'. split; [exact Hp|]. intros i. rewrite Hi, map_lookup_imap.
        destruct (s !! i) as [c|] eqn:E; [|done]. cbn. f_equal.
        case_decide; [|done]. apply send_sent. exact (Hw i c E). }
  exists s'. split; [done|]. split; [done|]. intros t i.
  split; [|split].
  - rewrite !subscribers_subscribe, !decide_True by done.
    by rewrite !union_assoc_L, union_idemp_L.
  - rewrite subscribers_unsubscribe, subscribers_subscribe, !decide_True by done.
    by rewrite difference_union_distr_l_L, difference_diag_L, union_empty_l_L.
  - intros t' Ht. by rewrite subscribers_subscribe, subscribers_unsubscribe, !decide_False by done.
Qed.
End bus.

(** Two events for a reader that waits and has room for none. *)
Lemma bus_delivers_witness :
  let b := Subscribe NewBus NODE_CONNECTED 1%nat in
  let s : gmap nat (chan (V := Z)) := {[ 1%nat := mkChan 1%nat [] 1%nat [] false ]} in
  let evs := [(NODE_CONNECTED, 7); (ERROR, 8); (NODE_CONNECTED, 9); (NODE_CONNECTED, 10)] in
  ∃ s', publish_all b s evs = Some s' ∧ s' !! 1%nat = Some (mkChan 1%nat [9] 0%nat [7] false).
Proof.
  intros b s evs. destruct (bus_delivers b s evs) as (s' & Hp & Hi & _).
  - intros i c [<- <-]%lookup_singleton_Some. reflexivity.
  - intros i c [<- <-]%lookup_singleton_Some. split; [cbn; lia | by right].
  - exists s'. split; [exact Hp|]. rewrite (Hi 1%nat). vm_compute. reflexivity.
Defined.

(** A subscriber that closed its channel without unsubscribing takes the
    publisher down. *)
Example closed_subscriber_panics :
  Publish (Subscribe NewBus ERROR 1%nat) {[ 1%nat := mkChan 4%nat [] 0%nat ([] : list Z) true ]} ERROR 0 = None.
Proof. vm_compute. reflexivity. Qed.
