(* ===== verification/Float64.v ===== *)
(** * Float64: Go's [float64] as IEEE-754 binary64

    Values are the standard library's [spec_float] at precision 53 and
    emax 1024: every operation rounds to nearest even exactly as Go does on
    a platform without fused multiply-add.  The file gives Go's operators,
    the conversions to and from 64-bit integers ([math.Round], [int64(x)],
    [float64(n)]), and the order facts the selection and scoring code uses:
    [<] is a strict weak order on the values that are not NaN, and a sum or
    product of finite values is never NaN. *)

From Stdlib Require Import ZArith Lia Floats.SpecFloat.
From S2P Require Import Prelude.

Definition float64 : Type := spec_float.

#[export] Instance spec_float_eq_dec : EqDecision spec_float.
Proof. solve_decision. Defined.
#[export] Instance float64_eq_dec : EqDecision float64 := spec_float_eq_dec.

Definition prec : Z := 53.
Definition emax : Z := 1024.

Definition f_add : float64 → float64 → float64 := SFadd prec emax.
Definition f_sub : float64 → float64 → float64 := SFsub prec emax.
Definition f_mul : float64 → float64 → float64 := SFmul prec emax.
Definition f_div : float64 → float64 → float64 := SFdiv prec emax.
Definition f_lt (x y : float64) : bool := SFltb x y.
Definition f_le (x y : float64) : bool := SFleb x y.
Definition f_eq (x y : float64) : bool := SFeqb x y.
Definition f_gt (x y : float64) : bool := SFltb y x.
Definition f_ge (x y : float64) : bool := SFleb y x.
Definition f_ne (x y : float64) : bool := negb (f_eq x y).

Declare Scope f64_scope.
Delimit Scope f64_scope with f64.
Notation "x + y" := (f_add x y) : f64_scope.
Notation "x - y" := (f_sub x y) : f64_scope.
Notation "x * y" := (f_mul x y) : f64_scope.
Notation "x / y" := (f_div x y) : f64_scope.
Notation "x <? y" := (f_lt x y) : f64_scope.
Notation "x <=? y" := (f_le x y) : f64_scope.
Notation "x >? y" := (f_gt x y) : f64_scope.
Notation "x >=? y" := (f_ge x y) : f64_scope.
Notation "x =? y" := (f_eq x y) : f64_scope.

(** [float64(n)] for an integer [n], and an untyped constant [n / d]. *)
Definition f_of_Z (n : Z) : float64 := binary_normalize prec emax n 0 false.
Definition f_const (n d : Z) : float64 := f_div (f_of_Z n) (f_of_Z d).

Definition f0 : float64 := S754_zero false.
Definition f1 : float64 := f_of_Z 1.
Definition f_half : float64 := f_const 1 2.
Definition f_neg1 : float64 := f_of_Z (-1).
Definition f_inf : float64 := S754_infinity false.

Definition f_isNaN (x : float64) : bool := match x with S754_nan => true | _ => false end.
Definition f_isInf (x : float64) : bool := match x with S754_infinity _ => true | _ => false end.
Definition f_isFinite (x : float64) : bool :=
  match x with S754_zero _ | S754_finite _ _ _ => true | _ => false end.

(** The integer magnitude of [math.Round]: halves round away from zero. *)
Definition round_mag (m : positive) (e : Z) : Z :=
  if 0 <=? e then Z.pos m * 2 ^ e
  else (2 * Z.pos m + 2 ^ (- e)) / 2 ^ (1 - e).

(** [math.Round] of a finite value, as the integer it denotes. *)
Definition f_round (x : float64) : Z :=
  match x with
  | S754_finite s m e => if s then - round_mag m e else round_mag m e
  | _ => 0
  end.

(** The integer magnitude of a truncating conversion. *)
Definition trunc_mag (m : positive) (e : Z) : Z :=
  if 0 <=? e then Z.pos m * 2 ^ e else Z.pos m / 2 ^ (- e).

Definition f_trunc (x : float64) : Z :=
  match x with
  | S754_finite s m e => if s then - trunc_mag m e else trunc_mag m e
  | _ => 0
  end.

(** Go leaves [int64(x)] of an out-of-range [x] to the implementation: the
    architecture supplies some int64 for it. *)
Class GoArch : Type := {
  int64_overflow : float64 → Z;
  int64_overflow_range : ∀ x, is_int64 (int64_overflow x)
}.

Section conversion.
Context `{GoArch}.

(** [int64(math.Round(x))] *)
Definition f_round_int64 (x : float64) : Z :=
  let n := f_round x in
  if f_isFinite x && (min_int64 <=? n) && (n <=? max_int64) then n else int64_overflow x.

(** [int64(x)], also [time.Duration(x)] *)
Definition f_to_int64 (x : float64) : Z :=
  let n := f_trunc x in
  if f_isFinite x && (min_int64 <=? n) && (n <=? max_int64) then n else int64_overflow x.
End conversion.

(** amd64's CVTTSD2SQ yields the most negative int64. *)
Definition amd64 : GoArch.
Proof.
  refine {| int64_overflow := fun _ => min_int64 |}. intros _. unwidth. lia.
Defined.

(** ** Order *)

(** A finite or infinite value as a lexicographic key. *)
Definition order_key (x : float64) : Z * Z * Z :=
  match x with
  | S754_nan => (0, 0, 0)
  | S754_infinity true => (-2, 0, 0)
  | S754_infinity false => (2, 0, 0)
  | S754_zero _ => (0, 0, 0)
  | S754_finite true m e => (-1, - e, - Z.pos m)
  | S754_finite false m e => (1, e, Z.pos m)
  end.

Definition key_lt (a b : Z * Z * Z) : Prop :=
  let '(a1, a2, a3) := a in let '(b1, b2, b3) := b in
  a1 < b1 ∨ (a1 = b1 ∧ (a2 < b2 ∨ (a2 = b2 ∧ a3 < b3))).

Definition not_nan (x : float64) : Prop := f_isNaN x = false.

Lemma f_lt_key x y : not_nan x → not_nan y → f_lt x y = true ↔ key_lt (order_key x) (order_key y).
Proof.
  unfold not_nan, f_lt, SFltb.
  destruct x as [[]|[]| |[] m e], y as [[]|[]| |[] m' e']; simpl;
    intros Hx Hy; try discriminate Hx; try discriminate Hy;
    try (split; [intros; try discriminate; lia | intros; try reflexivity; lia]);
    fold (Pos.compare m m');
    destruct (Z.compare_spec e e'); try (destruct (Pos.compare_spec m m'));
    simpl; split; intros; try discriminate; try reflexivity; lia.
Qed.

Lemma f_le_key x y : not_nan x → not_nan y → f_le x y = true ↔ ¬ key_lt (order_key y) (order_key x).
Proof.
  intros Hx Hy. rewrite <- f_lt_key by done. revert Hx Hy.
  unfold not_nan, f_lt, f_le, SFltb, SFleb.
  destruct x as [[]|[]| |[] m e], y as [[]|[]| |[] m' e']; simpl;
    intros Hx Hy; try discriminate Hx; try discriminate Hy;
    try (split; [intros; congruence | intros; congruence]);
    fold (Pos.compare m m'); fold (Pos.compare m' m);
    rewrite (Z.compare_antisym e e'), (Pos.compare_antisym m m');
    destruct (Z.compare e e'), (Pos.compare m m'); simpl; split; congruence.
Qed.

Lemma f_lt_nan_l x y : f_isNaN x = true → f_lt x y = false.
Proof. destruct x; done. Qed.

Lemma f_lt_nan_r x y : f_isNaN y = true → f_lt x y = false.
Proof. destruct y; try done. by destruct x as [[]|[]| |[]]. Qed.

#[export] Instance f_lt_strict_weak : StrictWeak f_lt not_nan.
Proof.
  split.
  - intros x Hx. apply not_true_iff_false. rewrite f_lt_key by done.
    unfold key_lt. destruct (order_key x) as [[? ?] ?]. lia.
  - intros x y z Hx Hy Hz. rewrite !f_lt_key by done. unfold key_lt.
    destruct (order_key x) as [[? ?] ?], (order_key y) as [[? ?] ?], (order_key z) as [[? ?] ?].
    lia.
  - intros x y z Hx Hy Hz. rewrite <- !not_true_iff_false, !f_lt_key by done. unfold key_lt.
    destruct (order_key x) as [[? ?] ?], (order_key y) as [[? ?] ?], (order_key z) as [[? ?] ?].
    lia.
Qed.

Lemma f_lt_false_le x y : not_nan x → not_nan y → f_lt x y = false → f_le y x = true.
Proof.
  intros Hx Hy H. rewrite f_le_key by done. rewrite <- f_lt_key by done. congruence.
Qed.

Lemma f_le_lt_false x y : not_nan x → not_nan y → f_le y x = true → f_lt x y = false.
Proof.
  intros Hx Hy H. rewrite f_le_key in H by done.
  rewrite <- f_lt_key in H by done. by apply not_true_iff_false.
Qed.

Lemma f_le_refl x : not_nan x → f_le x x = true.
Proof. intros H. apply f_lt_false_le; try done. by apply (sw_irrefl (less:=f_lt)). Qed.

Lemma f_le_trans x y z : not_nan x → not_nan y → not_nan z →
  f_le x y = true → f_le y z = true → f_le x z = true.
Proof.
  intros Hx Hy Hz. rewrite !f_le_key by done. unfold key_lt.
  destruct (order_key x) as [[? ?] ?], (order_key y) as [[? ?] ?], (order_key z) as [[? ?] ?]. lia.
Qed.

Lemma f_lt_le x y : not_nan x → not_nan y → f_lt x y = true → f_le x y = true.
Proof.
  intros Hx Hy H. apply f_lt_false_le; try done.
  apply (sw_asym f_lt not_nan); done.
Qed.

Lemma f_eq_key x y : not_nan x → not_nan y → f_eq x y = true ↔ order_key x = order_key y.
Proof.
  unfold not_nan, f_eq, SFeqb.
  destruct x as [[]|[]| |[] m e], y as [[]|[]| |[] m' e']; simpl;
    intros Hx Hy; try discriminate Hx; try discriminate Hy;
    try (split; congruence); fold (Pos.compare m m');
    destruct (Z.compare_spec e e'); try (destruct (Pos.compare_spec m m'));
    simpl; split; intros E; try discriminate; try congruence; injection E; lia.
Qed.

(** ** Finite values are closed under the operations the code uses *)

Definition finite (x : float64) : Prop := f_isFinite x = true.

Lemma finite_not_nan x : finite x → not_nan x.
Proof. by destruct x. Qed.
#[export] Hint Resolve finite_not_nan : go.

Lemma shr_1_nonneg r : 0 ≤ shr_m r → 0 ≤ shr_m (shr_1 r).
Proof.
  destruct r as [[|p|p] b s]; simpl; [done| |lia]. destruct p; simpl; lia.
Qed.

Lemma iter_shr_nonneg n r : 0 ≤ shr_m r → 0 ≤ shr_m (SpecFloat.iter_pos shr_1 n r).
Proof. revert r. induction n; simpl; auto using shr_1_nonneg. Qed.

Lemma shr_fexp_nonneg m e l : 0 ≤ m → 0 ≤ shr_m (fst (shr_fexp prec emax m e l)).
Proof.
  intros H. unfold shr_fexp, shr.
  assert (0 ≤ shr_m (shr_record_of_loc m l)) as H0 by (by destruct l as [|[]]).
  destruct (_ - e); simpl; [done| |done]. by apply iter_shr_nonneg.
Qed.

Lemma round_even_nonneg m l : 0 ≤ m → 0 ≤ round_nearest_even m l.
Proof. destruct l as [|[]]; simpl; try destruct (Z.even m); lia. Qed.

Lemma round_aux_not_nan s m e l : 0 ≤ m → not_nan (binary_round_aux prec emax s m e l).
Proof.
  intros H. unfold binary_round_aux.
  destruct (shr_fexp prec emax m e l) as [r1 e1] eqn:E1.
  pose proof (shr_fexp_nonneg m e l H) as H1. rewrite E1 in H1. simpl in H1.
  destruct (shr_fexp prec emax _ e1 loc_Exact) as [r2 e2] eqn:E2.
  pose proof (shr_fexp_nonneg _ e1 loc_Exact
    (round_even_nonneg (shr_m r1) (loc_of_shr_record r1) H1)) as H2.
  rewrite E2 in H2. simpl in H2.
  destruct (shr_m r2); [done| |lia]. by destruct (_ <=? _).
Qed.

Lemma binary_round_not_nan s m e : not_nan (binary_round prec emax s m e).
Proof. unfold binary_round. destruct (shl_align _ _ _). by apply round_aux_not_nan. Qed.

Lemma normalize_not_nan m e b : not_nan (binary_normalize prec emax m e b).
Proof. destruct m; simpl; [done | apply binary_round_not_nan..]. Qed.
Lemma f_of_Z_not_nan n : not_nan (f_of_Z n).
Proof. apply normalize_not_nan. Qed.

Lemma f_add_not_nan x y : finite x → not_nan y → not_nan (f_add x y).
Proof.
  unfold finite, not_nan, f_add.
  destruct x as [[]|[]| |[] m e], y as [[]|[]| |[] m' e']; simpl; try done;
    intros; first [apply normalize_not_nan | apply binary_round_not_nan].
Qed.

Lemma f_sub_not_nan x y : finite x → not_nan y → not_nan (f_sub x y).
Proof.
  unfold finite, not_nan, f_sub.
  destruct x as [[]|[]| |[] m e], y as [[]|[]| |[] m' e']; simpl; try done;
    intros; first [apply normalize_not_nan | apply binary_round_not_nan].
Qed.

Lemma f_mul_not_nan x y : finite x → finite y → not_nan (f_mul x y).
Proof.
  unfold finite, not_nan, f_mul.
  destruct x as [[]|[]| |[] m e], y as [[]|[]| |[] m' e']; simpl; try done;
    intros; apply round_aux_not_nan; lia.
Qed.

(** ** Small integers are exact *)

Lemma digits2_lower p : 2 ^ (Z.pos (SpecFloat.digits2_pos p) - 1) ≤ Z.pos p.
Proof.
  induction p as [p IH|p IH|]; cbn [SpecFloat.digits2_pos]; [| |done];
    rewrite Pos2Z.inj_succ; replace (Z.succ _ - 1) with (Z.pos (SpecFloat.digits2_pos p) - 1 + 1) by lia;
    rewrite Z.pow_add_r by lia; lia.
Qed.

Lemma digits2_shift k p :
  SpecFloat.digits2_pos (Pos.iter xO p k) = (SpecFloat.digits2_pos p + k)%positive.
Proof.
  induction k as [|k IH] using Pos.peano_ind; cbn; [lia|].
  rewrite Pos.iter_succ. cbn. rewrite IH. lia.
Qed.

(** A mantissa of full length is rounded to itself. *)
Lemma round_aux_full m e : SpecFloat.digits2_pos m = 53%positive → -1074 ≤ e ≤ 971 →
  binary_round_aux prec emax false (Z.pos m) e loc_Exact = S754_finite false m e.
Proof.
  intros Hd He. unfold binary_round_aux, shr_fexp. cbn [Zdigits2]. rewrite Hd.
  assert (SpecFloat.fexp prec emax (53 + e) - e = 0) as Hf
    by (unfold SpecFloat.fexp, SpecFloat.emin, prec, emax; lia).
  rewrite Hf. cbn. rewrite Hd, Hf. cbn.
  destruct (Z.leb_spec e (emax - prec)); [done|]. unfold emax, prec in *. lia.
Qed.

Lemma iter_xO p k : Z.pos (Pos.iter xO p k) = Z.pos p * 2 ^ Z.pos k.
Proof.
  induction k as [|k IH] using Pos.peano_ind; [cbn; lia|].
  rewrite Pos.iter_succ. change (Z.pos (xO (Pos.iter xO p k))) with (2 * Z.pos (Pos.iter xO p k)).
  rewrite IH, Pos2Z.inj_succ, Z.pow_succ_r by lia. lia.
Qed.

Lemma f_of_Z_shape n : 0 < n < 2 ^ 53 → ∃ m e, f_of_Z n = S754_finite false m e ∧ trunc_mag m e = n.
Proof.
  destruct n as [|p|p]; [lia| |lia]. intros [_ Hn].
  pose proof (digits2_lower p) as Hl.
  assert (Z.pos (SpecFloat.digits2_pos p) ≤ 53) as Hd.
  { destruct (Z.le_gt_cases (Z.pos (SpecFloat.digits2_pos p)) 53) as [|H53]; [done|].
    pose proof (Z.pow_le_mono_r 2 53 (Z.pos (SpecFloat.digits2_pos p) - 1)). lia. }
  unfold f_of_Z, binary_normalize, binary_round, shl_align.
  assert (SpecFloat.fexp prec emax (Z.pos (SpecFloat.digits2_pos p) + 0) - 0
    = Z.pos (SpecFloat.digits2_pos p) - 53) as Hf
    by (unfold SpecFloat.fexp, SpecFloat.emin, prec, emax; lia).
  rewrite Hf. destruct (_ - 53) as [|k|k] eqn:Ek; [| lia |].
  - do 2 eexists. split; [apply round_aux_full; lia|]. cbn. lia.
  - do 2 eexists. split; [apply round_aux_full; [rewrite digits2_shift|]; lia|]. unfold trunc_mag.
    replace (SpecFloat.fexp prec emax (Z.pos (SpecFloat.digits2_pos p) + 0)) with (Z.neg k) by lia.
    rewrite iter_xO. cbn [Z.leb Z.compare Z.opp]. apply Z.div_mul. lia.
Qed.

Lemma f_of_Z_finite n : 0 < n < 2 ^ 53 → ∃ m e, f_of_Z n = S754_finite false m e.
Proof. intros Hn. destruct (f_of_Z_shape n Hn) as (m & e & He & _). by exists m, e. Qed.

(** A small integer comes back from the float it is converted to. *)
Lemma f_to_int64_of_Z `{GoArch} n : 0 ≤ n < 2 ^ 53 → f_to_int64 (f_of_Z n) = n.
Proof.
  intros Hn. unfold f_to_int64. destruct (Z.eq_dec n 0) as [->|Hz]; [done|].
  destruct (f_of_Z_shape n) as (m & e & -> & Ht); [lia|]. cbn [f_isFinite f_trunc andb]. rewrite Ht.
  unfold min_int64, max_int64. destruct (Z.leb_spec (- 2 ^ 63) n), (Z.leb_spec n (2 ^ 63 - 1)); cbn [andb]; lia.
Qed.
