(* ===== verification/GoStrings.v ===== *)
(** * GoStrings: the [strings], [net], [encoding] routines the program calls

    A Go string is a [string] of bytes.  The routines are given on lists of
    bytes ([chars]) and wrapped.  Case mapping outside ASCII is the only part
    left abstract (class [Unicode]): Go consults its Unicode tables there. *)

From Stdlib Require Import ZArith Lia Ascii.
From S2P Require Import Prelude.

Abbreviation chars := String.list_ascii_of_string.
Abbreviation of_chars := String.string_of_list_ascii.

Definition byte_val (c : Ascii.ascii) : Z := Z.of_nat (Ascii.nat_of_ascii c).
Definition byte_of (z : Z) : Ascii.ascii := Ascii.ascii_of_nat (Z.to_nat (z mod 256)).
Definition chr (c d : Ascii.ascii) : bool := Ascii.eqb c d.

Definition len (s : string) : Z := Z.of_nat (String.length s).

(** ** Searching *)

(** Split at the first [sep]: the bytes before it and those after it. *)
Fixpoint cut_first (sep : Ascii.ascii) (l : list Ascii.ascii)
  : option (list Ascii.ascii * list Ascii.ascii) :=
  match l with
  | [] => None
  | c :: l' =>
    if chr c sep then Some ([], l')
    else match cut_first sep l' with
         | Some (a, b) => Some (c :: a, b)
         | None => None
         end
  end.

(** Split at the last [sep]. *)
Definition cut_last (sep : Ascii.ascii) (l : list Ascii.ascii)
  : option (list Ascii.ascii * list Ascii.ascii) :=
  match cut_first sep (reverse l) with
  | Some (a, b) => Some (reverse b, reverse a)
  | None => None
  end.

Definition mem_char (c : Ascii.ascii) (l : list Ascii.ascii) : bool := existsb (chr c) l.

(** [strings.Cut(s, sep)] for a one-byte separator. *)
Definition strings_Cut (s : string) (sep : Ascii.ascii) : option (string * string) :=
  match cut_first sep (chars s) with
  | Some (a, b) => Some (of_chars a, of_chars b)
  | None => None
  end.

(** [strings.ContainsAny(s, cs)] for ASCII [cs]. *)
Definition strings_ContainsAny (s cs : string) : bool :=
  existsb (fun c => mem_char c (chars cs)) (chars s).

Fixpoint strings_Join (l : list string) (sep : string) : string :=
  match l with
  | [] => ""
  | [s] => s
  | s :: l' => s +:+ sep +:+ strings_Join l' sep
  end.

(** ** [strings.TrimSpace] *)

(** The UTF-8 encodings of the code points [unicode.IsSpace] accepts. *)
Definition space_encodings : list (list Z) :=
  [[9]; [10]; [11]; [12]; [13]; [32]; [0xC2; 0x85]; [0xC2; 0xA0]; [0xE1; 0x9A; 0x80]]
  ++ map (fun k => [0xE2; 0x80; 0x80 + k]) [0;1;2;3;4;5;6;7;8;9;10]
  ++ [[0xE2; 0x80; 0xA8]; [0xE2; 0x80; 0xA9]; [0xE2; 0x80; 0xAF]; [0xE2; 0x81; 0x9F];
      [0xE3; 0x80; 0x80]].

Fixpoint strip_prefix (p : list Z) (l : list Ascii.ascii) : option (list Ascii.ascii) :=
  match p, l with
  | [], _ => Some l
  | z :: p', c :: l' => if byte_val c =? z then strip_prefix p' l' else None
  | _ :: _, [] => None
  end.

Fixpoint strip_any (ps : list (list Z)) (l : list Ascii.ascii) : option (list Ascii.ascii) :=
  match ps with
  | [] => None
  | p :: ps' => match strip_prefix p l with Some r => Some r | None => strip_any ps' l end
  end.

(** Strip encodings from the front; the length of the input bounds the steps. *)
Fixpoint trim_front (fuel : nat) (ps : list (list Z)) (l : list Ascii.ascii)
  : list Ascii.ascii :=
  match fuel with
  | O => l
  | S fuel' => match strip_any ps l with Some r => trim_front fuel' ps r | None => l end
  end.

Definition strings_TrimSpace (s : string) : string :=
  let l := trim_front (String.length s) space_encodings (chars s) in
  let r := trim_front (length l) (map reverse space_encodings) (reverse l) in
  of_chars (reverse r).

(** ** Case mapping *)

Class Unicode : Type := {
  unicode_ToLower : string → string;
  unicode_ToUpper : string → string
}.

(** A stand-in that leaves non-ASCII strings alone, for concrete runs. *)
Definition ascii_unicode : Unicode := {| unicode_ToLower := id; unicode_ToUpper := id |}.

Definition is_ascii (s : string) : bool := forallb (fun c => byte_val c <? 128) (chars s).
Definition lower_char (c : Ascii.ascii) : Ascii.ascii :=
  let z := byte_val c in if (65 <=? z) && (z <=? 90) then byte_of (z + 32) else c.
Definition upper_char (c : Ascii.ascii) : Ascii.ascii :=
  let z := byte_val c in if (97 <=? z) && (z <=? 122) then byte_of (z - 32) else c.

Definition strings_ToLower `{Unicode} (s : string) : string :=
  if is_ascii s then of_chars (map lower_char (chars s)) else unicode_ToLower s.
Definition strings_ToUpper `{Unicode} (s : string) : string :=
  if is_ascii s then of_chars (map upper_char (chars s)) else unicode_ToUpper s.

(** ** [net.SplitHostPort] *)

Definition net_SplitHostPort (hp : string) : option (string * string) :=
  let l := chars hp in
  match cut_last ":"%char l with
  | None => None
  | Some (before, port) =>
    match l with
    | "["%char :: rest =>
      match cut_first "]"%char rest with
      | None => None
      | Some (host, after) =>
        match after with
        | ":"%char :: port' =>
          (* the colon after the bracket must be the last one *)
          if mem_char ":"%char port' || mem_char "["%char rest || mem_char "]"%char after
          then None
          else Some (of_chars host, of_chars port')
        | _ => None
        end
      end
    | _ =>
      if mem_char ":"%char before || mem_char "["%char l || mem_char "]"%char l
      then None
      else Some (of_chars before, of_chars port)
    end
  end.

(** ** Decimal, hexadecimal and base64 *)

(** [fmt.Sprintf("%d", n)] *)
Definition fmt_d (n : Z) : string := pretty n.

Definition hex_digit (z : Z) : Ascii.ascii :=
  if z <? 10 then byte_of (48 + z) else byte_of (87 + z).
(** [hex.EncodeToString] *)
Definition hex_EncodeToString (b : list Z) : string :=
  of_chars (flat_map (fun z => [hex_digit (z / 16 mod 16); hex_digit (z mod 16)]) b).

Definition b64_alphabet (c62 c63 : Ascii.ascii) (z : Z) : Ascii.ascii :=
  if z <? 26 then byte_of (65 + z)
  else if z <? 52 then byte_of (71 + z)
  else if z <? 62 then byte_of (z - 4)
  else if z =? 62 then c62 else c63.

(** [base64.RawURLEncoding.EncodeToString] *)
Fixpoint b64url_encode (b : list Z) : list Ascii.ascii :=
  let a := b64_alphabet "-"%char "_"%char in
  match b with
  | [] => []
  | [x] => [a (x / 4); a (x mod 4 * 16)]
  | [x; y] => [a (x / 4); a (x mod 4 * 16 + y / 16); a (y mod 16 * 4)]
  | x :: y :: z :: b' =>
    a (x / 4) :: a (x mod 4 * 16 + y / 16) :: a (y mod 16 * 4 + z / 64) :: a (z mod 64)
    :: b64url_encode b'
  end.
Definition base64_RawURL_EncodeToString (b : list Z) : string := of_chars (b64url_encode b).

Definition b64_value (c62 c63 c : Ascii.ascii) : option Z :=
  let z := byte_val c in
  if (65 <=? z) && (z <=? 90) then Some (z - 65)
  else if (97 <=? z) && (z <=? 122) then Some (z - 71)
  else if (48 <=? z) && (z <=? 57) then Some (z + 4)
  else if chr c c62 then Some 62
  else if chr c c63 then Some 63
  else None.

(** The decoder of [encoding/base64], after the newlines it skips are gone:
    quanta of four symbols; a short last quantum needs '=' padding exactly
    when the encoding is padded. *)
Fixpoint b64_decode (padded : bool) (val : Ascii.ascii → option Z) (l : list Ascii.ascii)
  : option (list Z) :=
  match l with
  | [] => Some []
  | c1 :: c2 :: c3 :: c4 :: l' =>
    match val c1, val c2, val c3, val c4 with
    | Some a, Some b, Some c, Some d =>
      match b64_decode padded val l' with
      | Some r => Some (a * 4 + b / 16 :: b mod 16 * 16 + c / 4 :: c mod 4 * 64 + d :: r)
      | None => None
      end
    | Some a, Some b, Some c, None =>
      if padded && chr c4 "="%char && (length l' =? 0)%nat
      then Some [a * 4 + b / 16; b mod 16 * 16 + c / 4] else None
    | Some a, Some b, None, _ =>
      if padded && chr c3 "="%char && chr c4 "="%char && (length l' =? 0)%nat
      then Some [a * 4 + b / 16] else None
    | _, _, _, _ => None
    end
  | [c1; c2; c3] =>
    match val c1, val c2, val c3 with
    | Some a, Some b, Some c =>
      if padded then None else Some [a * 4 + b / 16; b mod 16 * 16 + c / 4]
    | _, _, _ => None
    end
  | [c1; c2] =>
    match val c1, val c2 with
    | Some a, Some b => if padded then None else Some [a * 4 + b / 16]
    | _, _ => None
    end
  | _ => None
  end.

Definition drop_newlines (s : string) : list Ascii.ascii :=
  List.filter (fun c => negb ((byte_val c =? 10) || (byte_val c =? 13))) (chars s).
Definition base64_Std_DecodeString (s : string) : option (list Z) :=
  b64_decode true (b64_value "+"%char "/"%char) (drop_newlines s).
Definition base64_RawURL_DecodeString (s : string) : option (list Z) :=
  b64_decode false (b64_value "-"%char "_"%char) (drop_newlines s).

(** ** Lemmas *)

Lemma of_chars_chars s : of_chars (chars s) = s.
Proof. apply String.string_of_list_ascii_of_string. Qed.

Lemma chars_of_chars l : chars (of_chars l) = l.
Proof. apply String.list_ascii_of_string_of_list_ascii. Qed.

Lemma chars_app s t : chars (s +:+ t) = chars s ++ chars t.
Proof. induction s as [|c s IH]; simpl; [done | by rewrite IH]. Qed.

Lemma chars_inj s t : chars s = chars t → s = t.
Proof. intros H. rewrite <- (of_chars_chars s), <- (of_chars_chars t). by rewrite H. Qed.

Lemma string_app_assoc (a b c : string) : a +:+ b +:+ c = (a +:+ b) +:+ c.
Proof. apply chars_inj. by rewrite !chars_app, app_assoc. Qed.

Lemma chr_eq c d : chr c d = true ↔ c = d.
Proof. apply Ascii.eqb_eq. Qed.

Lemma mem_char_false c l : mem_char c l = false ↔ c ∉ l.
Proof.
  unfold mem_char. induction l as [|d l IH]; simpl; [set_solver|].
  rewrite orb_false_iff, IH. unfold chr. rewrite Ascii.eqb_neq. set_solver.
Qed.

Lemma cut_first_spec sep l a b :
  cut_first sep l = Some (a, b) ↔ l = a ++ sep :: b ∧ sep ∉ a.
Proof.
  revert a b. induction l as [|c l IH]; intros a b; simpl.
  { split; [done|]. intros [H _]. by destruct a. }
  destruct (chr c sep) eqn:E.
  - apply chr_eq in E as ->. split.
    + intros [= <- <-]. split; [done | set_solver].
    + intros [H Hn]. destruct a as [|x a]; simplify_eq/=; [done | set_solver].
  - assert (c ≠ sep) as Hne by (intros ->; rewrite (proj2 (chr_eq sep sep) eq_refl) in E; done).
    destruct (cut_first sep l) as [[a' b']|] eqn:E'.
    + split.
      * intros [= <- <-]. destruct (proj1 (IH a' b') eq_refl) as [-> Hn]. split; [done|].
        rewrite not_elem_of_cons. done.
      * intros [H Hn]. destruct a as [|x a]; simplify_eq/=.
        apply not_elem_of_cons in Hn as [_ Hn].
        by pose proof (proj2 (IH a b) (conj eq_refl Hn)) as [= -> ->].
    + split; [done|]. intros [H Hn]. destruct a as [|x a]; simplify_eq/=.
      apply not_elem_of_cons in Hn as [_ Hn].
      by pose proof (proj2 (IH a b) (conj eq_refl Hn)).
Qed.

Lemma cut_first_app sep a b : sep ∉ a → cut_first sep (a ++ sep :: b) = Some (a, b).
Proof. intros H. by apply cut_first_spec. Qed.

Lemma strings_Cut_app s t sep : sep ∉ chars s →
  strings_Cut (s +:+ String.String sep "" +:+ t) sep = Some (s, t).
Proof.
  intros H. unfold strings_Cut. rewrite !chars_app. simpl.
  rewrite cut_first_app by done. by rewrite !of_chars_chars.
Qed.

Lemma strings_Cut_inv s sep a b : strings_Cut s sep = Some (a, b) →
  s = a +:+ String.String sep "" +:+ b ∧ sep ∉ chars a.
Proof.
  unfold strings_Cut. destruct (cut_first sep (chars s)) as [[x y]|] eqn:E; [|done].
  intros [= <- <-]. apply cut_first_spec in E as [E Hn]. rewrite chars_of_chars.
  split; [|done]. apply chars_inj. rewrite !chars_app, E, !chars_of_chars. done.
Qed.

(** Every hexadecimal digit is one of [0-9a-f]. *)
Lemma hex_encode_no_dot b : "."%char ∉ chars (hex_EncodeToString b).
Proof.
  unfold hex_EncodeToString. rewrite chars_of_chars.
  assert (∀ z, 0 ≤ z < 16 → "."%char ≠ hex_digit z) as Hd.
  { intros z Hz. assert (∀ k, (k < 16)%nat → "."%char ≠ hex_digit (Z.of_nat k)) as Hk.
    { intros k Hk. do 16 (destruct k as [|k]; [vm_compute; discriminate|]). lia. }
    rewrite <- (Z2Nat.id z) by lia. apply Hk. lia. }
  induction b as [|z b IH]; simpl; [set_solver|].
  rewrite !not_elem_of_cons. repeat split; [| |done]; apply Hd; apply Z.mod_pos_bound; lia.
Qed.

Lemma len_app s t : String.length (s +:+ t) = (String.length s + String.length t)%nat.
Proof. induction s as [|c s IH]; simpl; [done | by rewrite IH]. Qed.

Lemma empty_iff_chars (s : string) : s = "" ↔ chars s = [].
Proof. split; [by intros ->|]. by destruct s. Qed.

Lemma hex_encode_length raw : len (hex_EncodeToString raw) = 2 * Z.of_nat (length raw).
Proof.
  assert (∀ l, String.length (of_chars l) = length l) as Hl by (induction l as [|c l IH]; cbn; [done|by rewrite IH]).
  unfold len, hex_EncodeToString. rewrite Hl. induction raw as [|z raw IH]; [done|]. cbn [flat_map app length]. lia.
Qed.

Lemma hex_encode_empty b : hex_EncodeToString b = "" → b = [].
Proof.
  intros H. apply empty_iff_chars in H. unfold hex_EncodeToString in H.
  rewrite chars_of_chars in H. by destruct b.
Qed.

(** ** Byte-wise string order, as [s < t] in Go *)

Fixpoint bytes_lt (a b : list Ascii.ascii) : bool :=
  match a, b with
  | [], [] => false
  | [], _ :: _ => true
  | _ :: _, [] => false
  | x :: a', y :: b' =>
    if byte_val x <? byte_val y then true
    else if byte_val y <? byte_val x then false
    else bytes_lt a' b'
  end.

Definition str_lt (s t : string) : bool := bytes_lt (chars s) (chars t).

Lemma byte_val_inj x y : byte_val x = byte_val y → x = y.
Proof.
  unfold byte_val. intros H. apply Nat2Z.inj in H.
  rewrite <- (Ascii.ascii_nat_embedding x), <- (Ascii.ascii_nat_embedding y). by rewrite H.
Qed.

Lemma bytes_lt_irrefl a : bytes_lt a a = false.
Proof. induction a as [|x a IH]; simpl; [done|]. by rewrite Z.ltb_irrefl. Qed.

Lemma bytes_lt_trans a b c : bytes_lt a b = true → bytes_lt b c = true → bytes_lt a c = true.
Proof.
  revert b c. induction a as [|x a IH]; intros [|y b] [|z c]; simpl; try done.
  destruct (Z.ltb_spec (byte_val x) (byte_val y)), (Z.ltb_spec (byte_val y) (byte_val x)),
    (Z.ltb_spec (byte_val y) (byte_val z)), (Z.ltb_spec (byte_val z) (byte_val y)),
    (Z.ltb_spec (byte_val x) (byte_val z)), (Z.ltb_spec (byte_val z) (byte_val x));
    try done; try lia; eauto.
Qed.

Lemma bytes_lt_total a b : bytes_lt a b = false → bytes_lt b a = false → a = b.
Proof.
  revert b. induction a as [|x a IH]; intros [|y b]; simpl; try done.
  destruct (Z.ltb_spec (byte_val x) (byte_val y)), (Z.ltb_spec (byte_val y) (byte_val x));
    try done; try lia.
  intros H1 H2. f_equal; [apply byte_val_inj; lia | by apply IH].
Qed.

Lemma str_lt_total s t : str_lt s t = false → str_lt t s = false → s = t.
Proof. intros H1 H2. by apply chars_inj, bytes_lt_total. Qed.

#[export] Instance str_lt_strict : StrictWeak str_lt (fun _ => True).
Proof.
  split.
  - intros x _. apply bytes_lt_irrefl.
  - intros x y z _ _ _. apply bytes_lt_trans.
  - intros x y z _ _ _ H1 H2. destruct (str_lt x z) eqn:E; [|done].
    destruct (str_lt y x) eqn:E1.
    + pose proof (bytes_lt_trans _ _ _ E1 E) as C. unfold str_lt in H2. congruence.
    + by rewrite (str_lt_total _ _ H1 E1), H2 in E.
Qed.

(** [sort.Strings] *)
Definition sort_Strings (l : list string) : list string := sort_stable str_lt l.

Lemma sort_Strings_perm l k : l ≡ₚ k → sort_Strings l = sort_Strings k.
Proof.
  intros Hp. apply (sorted_unique (fun x y => str_lt y x = false)).
  - intros x y H1 H2. by apply str_lt_total.
  - apply (sort_stable_sorted str_lt (fun _ => True)), Forall_true. done.
  - apply (sort_stable_sorted str_lt (fun _ => True)), Forall_true. done.
  - unfold sort_Strings. by rewrite !sort_stable_perm.
Qed.
