(* ===== verification/Crypto.v ===== *)
(** * Crypto: the cryptographic primitives as an interface

    SHA-256 and ed25519 are used as black boxes everywhere in the program;
    the classes give their operations and the documented facts the code
    relies on.  Facts that hold only computationally (collision resistance,
    unforgeability) are never laws here: a theorem that needs one names it
    as a hypothesis on the values at hand. *)

From Stdlib Require Import ZArith Lia Ascii.
From S2P Require Import Prelude GoStrings.

(** [crypto/sha256.Sum256], digest as 32 bytes. *)
Class Sha256 : Type := {
  sha256_Sum256 : string → list Z;
  sha256_length : ∀ s, length (sha256_Sum256 s) = 32%nat
}.

(** [crypto/ed25519]: keys and signatures are byte strings. *)
Class Ed25519 : Type := {
  ed25519_Public : string → string;
  ed25519_Sign : string → string → string;
  ed25519_Verify : string → string → string → bool;
  ed25519_public_size : ∀ k, len (ed25519_Public k) = 32;
  ed25519_sig_size : ∀ k m, len (ed25519_Sign k m) = 64;
  ed25519_correct : ∀ k m, len k = 64 →
    ed25519_Verify (ed25519_Public k) m (ed25519_Sign k m) = true
}.

Definition ed25519_PublicKeySize : Z := 32.
Definition ed25519_PrivateKeySize : Z := 64.
Definition ed25519_SignatureSize : Z := 64.

(** [subtle.ConstantTimeCompare]: 1 when the byte strings are equal. *)
Definition ConstantTimeCompare (x y : string) : Z := if String.eqb x y then 1 else 0.
Definition ConstantTimeCompare_digest (x y : list Z) : Z :=
  if bool_decide (x = y) then 1 else 0.

Lemma ConstantTimeCompare_eq x y : (ConstantTimeCompare x y =? 1) = String.eqb x y.
Proof. unfold ConstantTimeCompare. by destruct (String.eqb x y). Qed.

Lemma digest_compare_eq x y : (ConstantTimeCompare_digest x y =? 1) = bool_decide (x = y).
Proof. unfold ConstantTimeCompare_digest. by destruct (bool_decide (x = y)). Qed.

(** A full scan that keeps the last match finds a key exactly when it is
    present: no early return is needed for correctness. *)
Definition scan_keys {A} (k : string) (it : list (string * A)) : bool :=
  foldl (fun found e => if ConstantTimeCompare (fst e) k =? 1 then true else found) false it.

Lemma scan_keys_acc {A} k (it : list (string * A)) b :
  foldl (fun found e => if ConstantTimeCompare (fst e) k =? 1 then true else found) b it
  = b || existsb (fun e => String.eqb (fst e) k) it.
Proof.
  revert b. induction it as [|e it IH]; intros b; simpl; [by rewrite orb_false_r|].
  rewrite IH, ConstantTimeCompare_eq. destruct (String.eqb (fst e) k), b; simpl; done.
Qed.

Lemma scan_keys_lookup {A} (m : gmap string A) k :
  scan_keys k (map_to_list m) = bool_decide (is_Some (m !! k)).
Proof.
  unfold scan_keys. rewrite scan_keys_acc. simpl.
  case_bool_decide as H.
  - apply existsb_exists. destruct H as [x Hx]. exists (k, x). split.
    + by apply list_elem_of_In, elem_of_map_to_list.
    + apply String.eqb_refl.
  - apply not_true_iff_false. intros He. apply existsb_exists in He as [[k' x] [Hin Hk]].
    apply String.eqb_eq in Hk. simpl in Hk. subst k'. apply H. exists x.
    by apply elem_of_map_to_list, list_elem_of_In.
Qed.
Create Rewrite HintDb go_rw.
#[export] Hint Rewrite @scan_keys_lookup : go_rw.

(** ** Concrete instances

    Small stand-ins that satisfy the laws: they show that the laws can hold
    and let concrete runs evaluate. *)

Definition toy_sha256 : Sha256.
Proof.
  refine {| sha256_Sum256 := fun s => resize 32 0 (map byte_val (chars s)) |}.
  intros s. apply length_resize.
Defined.

Lemma len_of_chars l : len (of_chars l) = Z.of_nat (length l).
Proof. unfold len. f_equal. induction l as [|c l IH]; simpl; [done | by rewrite IH]. Qed.

Definition toy_public (k : string) : string := of_chars (resize 32 "k"%char (chars k)).
Definition toy_tag (pub m : string) : string :=
  of_chars (resize 64 "s"%char (chars pub ++ chars m)).

Definition toy_ed25519 : Ed25519.
Proof.
  refine {| ed25519_Public := toy_public;
            ed25519_Sign := fun k m => toy_tag (toy_public k) m;
            ed25519_Verify := fun pub m sig => String.eqb sig (toy_tag pub m) |}.
  - intros k. unfold toy_public. by rewrite len_of_chars, length_resize.
  - intros k m. unfold toy_tag. by rewrite len_of_chars, length_resize.
  - intros k m _. apply String.eqb_refl.
Defined.
