(* ===== verification/Session.v ===== *)
(** * Session: node-side authorized sessions (internal/session)

    Validators turn a presented bearer string into a [Token]; the [Manager]
    opens a session per token, counts its bytes, and evicts it when it
    expires or is revoked.  Sessions are pointers in Go, shared between the
    two indexes [byToken] and [byIP]: the model keeps them in a heap and the
    indexes hold addresses, so that [cur == s] is pointer equality. *)

From Stdlib Require Import ZArith Lia.
From S2P Require Import Prelude GoStrings Crypto.

Definition ScopeExit : string := "exit".
Definition ScopeRelay : string := "relay".

Record Token := mkToken {
  tok_ID : string;
  tok_NodeID : string;
  tok_SessionID : string;
  tok_ExpiresAt : time;
  tok_Scope : string;
  tok_Raw : string
}.

Inductive error :=
| ErrInvalid
| ErrExpired
| ErrRevoked
| ErrUnknown
| ErrAlreadyActive
| ErrDenied (reason : string).

(** ** Validators *)

(** The [TokenValidator] interface: what a validator answers at a time. *)
Class TokenValidator (V : Type) : Type :=
  Validate : V → time → string → result error Token.

(** What the manager relies on: an accepted token is the presented one and
    is not past its expiry. *)
Class TokenValidatorLaws (V : Type) `{TokenValidator V} : Prop := {
  validate_raw : ∀ v now raw t, Validate v now raw = Ok t → tok_Raw t = raw;
  validate_fresh : ∀ v now raw t, Validate v now raw = Ok t →
    Time_IsZero (tok_ExpiresAt t) = true ∨ now ≤ tok_ExpiresAt t
}.

Record DenyValidator := mkDeny { Reason : string }.

Definition DenyValidator_Validate (d : DenyValidator) (now : time) (raw : string)
  : result error Token :=
  if negb (String.eqb (Reason d) "") then Err (ErrDenied (Reason d))
  else Err (ErrDenied "no token validator configured").

#[export] Instance Deny_validator : TokenValidator DenyValidator := DenyValidator_Validate.

Record StaticValidator := mkStatic { static_tokens : gmap string Token }.

(** The scan of every entry with no early return: the last match wins. *)
Definition static_match (m : gmap string Token) (raw : string) : option Token :=
  foldl (fun found e => if ConstantTimeCompare (fst e) raw =? 1 then Some (snd e) else found)
    None (map_to_list m).

Definition StaticValidator_Validate (s : StaticValidator) (now : time) (raw : string)
  : result error Token :=
  match static_match (static_tokens s) raw with
  | None => Err ErrInvalid
  | Some m =>
    let m := mkToken (tok_ID m) (tok_NodeID m) (tok_SessionID m) (tok_ExpiresAt m)
               (tok_Scope m) raw in
    if negb (Time_IsZero (tok_ExpiresAt m)) && Time_After now (tok_ExpiresAt m)
    then Err ErrExpired else Ok m
  end.

#[export] Instance Static_validator : TokenValidator StaticValidator := StaticValidator_Validate.

(** ** Sessions *)

Record Session := mkSession {
  TokenID : string;
  NodeID : string;
  SessionID : string;
  ClientPubkey : string;
  AssignedIP : string;
  Endpoint : string;
  Scope : string;
  CreatedAt : time;
  ExpiresAt : time;
  Revoked : bool;
  RxBytes : Z;
  TxBytes : Z;
  LastActivity : time
}.

Definition Session_Expired (s : Session) (now : time) : bool :=
  if Revoked s then true
  else if Time_IsZero (ExpiresAt s) then false
  else negb (Time_Before now (ExpiresAt s)).

Record Snapshot := mkSnapshot {
  snap_TokenID : string;
  snap_NodeID : string;
  snap_SessionID : string;
  snap_ClientPubkey : string;
  snap_AssignedIP : string;
  snap_Endpoint : string;
  snap_Scope : string;
  snap_CreatedAt : time;
  snap_ExpiresAt : time;
  snap_Revoked : bool;
  snap_RxBytes : Z;
  snap_TxBytes : Z;
  snap_LastActivity : time
}.

Definition Snapshot_Expired (s : Snapshot) (now : time) : bool :=
  if snap_Revoked s then true
  else if Time_IsZero (snap_ExpiresAt s) then false
  else negb (Time_Before now (snap_ExpiresAt s)).

Definition Session_Snapshot (s : Session) : Snapshot :=
  mkSnapshot (TokenID s) (NodeID s) (SessionID s) (ClientPubkey s) (AssignedIP s)
    (Endpoint s) (Scope s) (CreatedAt s) (ExpiresAt s) (Revoked s) (RxBytes s) (TxBytes s)
    (LastActivity s).

Definition set_Revoked (s : Session) : Session :=
  mkSession (TokenID s) (NodeID s) (SessionID s) (ClientPubkey s) (AssignedIP s)
    (Endpoint s) (Scope s) (CreatedAt s) (ExpiresAt s) true (RxBytes s) (TxBytes s)
    (LastActivity s).

(** [s.RxBytes += rx; s.TxBytes += tx; s.LastActivity = now], at uint64 width. *)
Definition count_bytes (rx tx : Z) (now : time) (s : Session) : Session :=
  mkSession (TokenID s) (NodeID s) (SessionID s) (ClientPubkey s) (AssignedIP s)
    (Endpoint s) (Scope s) (CreatedAt s) (ExpiresAt s) (Revoked s)
    (wrap_u64 (RxBytes s + rx)) (wrap_u64 (TxBytes s + tx)) now.

(** ** The manager *)

Inductive event_name := SESSION_AUTHORIZED | SESSION_EXPIRED.

(** [emitted] is the sequence of calls of the [OnEvent] option. *)
Record Manager := mkManager {
  MaxSessionDuration : duration;
  byToken : gmap string ptr;
  byIP : gmap string ptr;
  revoked : gmap string time;
  authorizedTotal : Z;
  expiredTotal : Z;
  heap : gmap ptr Session;
  next : ptr;
  emitted : list (event_name * Snapshot)
}.

Definition NewManager (maxDuration : duration) : Manager :=
  mkManager maxDuration ∅ ∅ ∅ 0 0 ∅ 1%positive [].

(** The session lifetime: the token's expiry, capped by MaxSessionDuration. *)
Definition session_expiry (maxDuration now expires : time) : time :=
  if 0 <? maxDuration then
    let cap := Time_Add now maxDuration in
    if Time_IsZero expires || Time_Before cap expires then cap else expires
  else expires.

(** Is the session at [p] live at [now]?  A token whose entry is live cannot
    be authorized again. *)
Definition live_at (m : Manager) (id : string) (now : time) : bool :=
  match byToken m !! id ≫= fun p => heap m !! p with
  | Some s => negb (Snapshot_Expired (Session_Snapshot s) now)
  | None => false
  end.

Definition open_session (t : Token) (clientPubkey assignedIP endpoint : string)
  (now expires : time) : Session :=
  mkSession (tok_ID t) (tok_NodeID t) (tok_SessionID t) clientPubkey assignedIP endpoint
    (tok_Scope t) now expires false 0 0 now.

(** [Manager.Authorize], given the validator's answer and the clock. *)
Definition Manager_Authorize (m : Manager) (validated : result error Token)
  (clientPubkey assignedIP endpoint : string) (now : time) : Manager * result error ptr :=
  match validated with
  | Err e => (m, Err e)
  | Ok tok =>
    if negb (Time_IsZero (tok_ExpiresAt tok)) && negb (Time_Before now (tok_ExpiresAt tok))
    then (m, Err ErrExpired)
    else
      let expires := session_expiry (MaxSessionDuration m) now (tok_ExpiresAt tok) in
      if scan_keys (tok_ID tok) (map_to_list (revoked m)) then (m, Err ErrRevoked)
      else if live_at m (tok_ID tok) now then (m, Err ErrAlreadyActive)
      else
        let s := open_session tok clientPubkey assignedIP endpoint now expires in
        let p := next m in
        (mkManager (MaxSessionDuration m)
           (<[tok_ID tok := p]> (byToken m))
           (if String.eqb assignedIP "" then byIP m else <[assignedIP := p]> (byIP m))
           (revoked m)
           (wrap_u64 (authorizedTotal m + 1)) (expiredTotal m)
           (<[p := s]> (heap m)) (Pos.succ p)
           (emitted m ++ [(SESSION_AUTHORIZED, Session_Snapshot s)]),
         Ok p)
  end.

(** Remove [s] from the address index if the index still points at it. *)
Definition drop_ip (ips : gmap string ptr) (ip : string) (p : ptr) : gmap string ptr :=
  if String.eqb ip "" then ips
  else match ips !! ip with
       | Some cur => if bool_decide (cur = p) then delete ip ips else ips
       | None => ips
       end.

Definition Manager_Revoke (m : Manager) (tokenID : string) (now : time)
  : Manager * result error unit :=
  match byToken m !! tokenID ≫= fun p => (fun s => (p, s)) <$> heap m !! p with
  | None => (m, Err ErrUnknown)
  | Some (p, s) =>
    (mkManager (MaxSessionDuration m) (delete tokenID (byToken m))
       (drop_ip (byIP m) (AssignedIP s) p) (<[tokenID := now]> (revoked m))
       (authorizedTotal m) (expiredTotal m) (<[p := set_Revoked s]> (heap m)) (next m)
       (emitted m ++ [(SESSION_EXPIRED, Session_Snapshot (set_Revoked s))]),
     Ok tt)
  end.

Definition Manager_IsRevoked (m : Manager) (tokenID : string) : bool :=
  scan_keys tokenID (map_to_list (revoked m)).

Definition Manager_Get (m : Manager) (tokenID : string) : result error ptr :=
  match byToken m !! tokenID with Some p => Ok p | None => Err ErrUnknown end.

(** [AddBytes] looks the session up under the manager's lock and updates it
    after releasing it: two atomic steps. *)
Definition add_bytes_at (m : Manager) (p : ptr) (rx tx : Z) (now : time) : Manager :=
  mkManager (MaxSessionDuration m) (byToken m) (byIP m) (revoked m) (authorizedTotal m)
    (expiredTotal m) (alter (count_bytes rx tx now) p (heap m)) (next m) (emitted m).

Definition Manager_AddBytes (m : Manager) (tokenID : string) (rx tx : Z) (now : time)
  : Manager * result error unit :=
  match Manager_Get m tokenID with
  | Err e => (m, Err e)
  | Ok p => (add_bytes_at m p rx tx now, Ok tt)
  end.

(** The live entries a [range m.byToken] reaches, with their sessions. *)
Definition entries (m : Manager) (it : list (string * ptr)) : list (string * (ptr * Session)) :=
  omap (fun e => (fun s => (fst e, (snd e, s))) <$> heap m !! snd e) it.

Definition Manager_Active (m : Manager) (it : list (string * ptr)) (now : time)
  : list Snapshot :=
  List.filter (fun snap => negb (Snapshot_Expired snap now))
    (map (fun e => Session_Snapshot (snd (snd e))) (entries m it)).

Definition Manager_ActiveCount (m : Manager) (now : time) : Z :=
  Z.of_nat (length (Manager_Active m (map_to_list (byToken m)) now)).

Definition Manager_Totals (m : Manager) : Z * Z := (authorizedTotal m, expiredTotal m).

(** One visited entry of the sweep's loop. *)
Definition sweep_entry (now : time) (acc : Manager * list Snapshot)
  (e : string * (ptr * Session)) : Manager * list Snapshot :=
  let '(m, done) := acc in
  let '(id, (p, s)) := e in
  if Snapshot_Expired (Session_Snapshot s) now then
    (mkManager (MaxSessionDuration m) (delete id (byToken m))
       (drop_ip (byIP m) (AssignedIP s) p) (<[id := now]> (revoked m))
       (authorizedTotal m) (wrap_u64 (expiredTotal m + 1)) (heap m) (next m) (emitted m),
     done ++ [Session_Snapshot s])
  else acc.

(** [Manager.SweepOnce]: the loop under the lock, then the notifications. *)
Definition Manager_SweepOnce (m : Manager) (it : list (string * ptr)) (now : time)
  : Manager * list Snapshot :=
  let '(m', out) := foldl (sweep_entry now) (m, []) (entries m it) in
  (mkManager (MaxSessionDuration m') (byToken m') (byIP m') (revoked m') (authorizedTotal m')
     (expiredTotal m') (heap m') (next m')
     (emitted m' ++ map (fun snap => (SESSION_EXPIRED, snap)) out), out).

(** ** Executions

    The atomic steps of a manager shared by goroutines.  [AddBytes] updates a
    session it looked up earlier, so its update may hit any session ever
    allocated, evicted ones included. *)

Inductive step : Manager → Manager → Prop :=
| step_authorize m v pub ip ep now :
    step m (Manager_Authorize m v pub ip ep now).1
| step_revoke m id now :
    step m (Manager_Revoke m id now).1
| step_count m p rx tx now :
    is_Some (heap m !! p) → step m (add_bytes_at m p rx tx now)
| step_sweep m it now :
    it ≡ₚ map_to_list (byToken m) → step m (Manager_SweepOnce m it now).1.

Definition reachable (d : duration) (m : Manager) : Prop := rtc step (NewManager d) m.

(** The well-formedness of a manager's indexes. *)
Record wf (m : Manager) : Prop := {
  wf_live : ∀ id p, byToken m !! id = Some p →
    ∃ s, heap m !! p = Some s ∧ TokenID s = id ∧ Revoked s = false;
  wf_revoked : ∀ id, is_Some (revoked m !! id) → byToken m !! id = None;
  wf_flag : ∀ p s, heap m !! p = Some s → Revoked s = true → is_Some (revoked m !! TokenID s);
  wf_fresh : ∀ p, is_Some (heap m !! p) → (p < next m)%positive;
  wf_ip : ∀ ip p, byIP m !! ip = Some p →
    ip ≠ "" ∧ ∃ s, heap m !! p = Some s ∧ AssignedIP s = ip;
  wf_bytes : ∀ p s, heap m !! p = Some s → is_uint64 (RxBytes s) ∧ is_uint64 (TxBytes s);
  wf_totals : is_uint64 (authorizedTotal m) ∧ is_uint64 (expiredTotal m)
}.

(** ** Lemmas *)

Lemma snapshot_expired s now : Snapshot_Expired (Session_Snapshot s) now = Session_Expired s now.
Proof. done. Qed.

Lemma static_match_lookup m raw : static_match m raw = m !! raw.
Proof.
  unfold static_match.
  assert (∀ (it : list (string * Token)) acc, NoDup it.*1 →
    foldl (fun found e => if ConstantTimeCompare (fst e) raw =? 1 then Some (snd e) else found)
      acc it
    = match list_find (fun e => fst e = raw) it with Some (_, e) => Some e.2 | None => acc end)
    as Hf.
  { induction it as [|[k t] it IH]; intros acc Hnd; simpl; [done|].
    apply NoDup_cons in Hnd as [Hni Hnd]. rewrite ConstantTimeCompare_eq, IH by done. simpl.
    destruct (String.eqb_spec k raw) as [->|Hne]; simpl.
    - rewrite decide_True by done.
      destruct (list_find _ it) as [[i e]|] eqn:E; [|done].
      apply list_find_Some in E as (Hl & He & _). simpl in Hni. exfalso. apply Hni.
      rewrite <- He. apply list_elem_of_fmap. exists e. split; [done|].
      by eapply list_elem_of_lookup_2.
    - rewrite decide_False by done. by destruct (list_find _ it) as [[i e]|]. }
  rewrite Hf by apply NoDup_fst_map_to_list.
  destruct (list_find _ _) as [[i [k t]]|] eqn:E.
  - apply list_find_Some in E as (Hl & He & _). simpl in He. subst k. simpl.
    symmetry. apply elem_of_map_to_list. by eapply list_elem_of_lookup_2.
  - apply list_find_None in E. symmetry. apply eq_None_not_Some. intros [t Ht].
    rewrite Forall_forall in E. apply (E (raw, t)); [|done]. by apply elem_of_map_to_list.
Qed.

Lemma drop_ip_lookup ips ip p ip' q :
  drop_ip ips ip p !! ip' = Some q → ips !! ip' = Some q.
Proof.
  unfold drop_ip. repeat case_match; auto. rewrite lookup_delete_Some. tauto.
Qed.

Lemma drop_ip_other ips ip p ip' : ip' ≠ ip → drop_ip ips ip p !! ip' = ips !! ip'.
Proof. intros H. unfold drop_ip. repeat case_match; auto. by rewrite lookup_delete_ne. Qed.

Lemma drop_ip_gone ips ip p : ip ≠ "" → drop_ip ips ip p !! ip ≠ Some p.
Proof.
  intros H. unfold drop_ip. destruct (String.eqb_spec ip ""); [done|].
  destruct (ips !! ip) as [cur|] eqn:E; [|congruence].
  case_bool_decide; [by rewrite lookup_delete_eq | congruence].
Qed.

Lemma wf_new d : wf (NewManager d).
Proof.
  split; simpl; [| | | | | |unwidth; lia];
    intros *; rewrite ?lookup_empty; try done; by intros [? ?].
Qed.

(** Two live tokens never share a session. *)
Lemma wf_inj m id id' p : wf m → byToken m !! id = Some p → byToken m !! id' = Some p → id = id'.
Proof.
  intros W H H'. destruct (wf_live m W _ _ H) as (s & Hs & <- & _).
  destruct (wf_live m W _ _ H') as (s' & Hs' & <- & _). congruence.
Qed.

Lemma wf_authorize m v pub ip ep now : wf m → wf (Manager_Authorize m v pub ip ep now).1.
Proof.
  intros W. unfold Manager_Authorize. destruct v as [tok|e]; [|done].
  destruct (_ && _); [done|]. rewrite scan_keys_lookup.
  case_bool_decide as Hrev; [done|]. destruct (live_at _ _ _); [done|]. simpl.
  assert (heap m !! next m = None) as Hnew.
  { apply eq_None_not_Some. intros Hs. apply (wf_fresh m W) in Hs. lia. }
  assert (∀ p s, heap m !! p = Some s → p ≠ next m) as Hne by (intros p s Hp ->; congruence).
  split; simpl.
  - intros id p. rewrite lookup_insert. case_decide as Hid.
    + intros [= <-]. subst. rewrite lookup_insert_eq. eauto.
    + intros Hp. destruct (wf_live m W _ _ Hp) as (s & Hs & ?). exists s.
      by rewrite lookup_insert_ne by (symmetry; eauto).
  - intros id Hid. rewrite lookup_insert. case_decide; [by subst | by apply (wf_revoked m W)].
  - intros p s. rewrite lookup_insert. case_decide; [by intros [= <-] | apply (wf_flag m W)].
  - intros p. rewrite lookup_insert. case_decide as Hp; [subst; lia|].
    intros Hs%(wf_fresh m W). lia.
  - intros ip' p. destruct (String.eqb_spec ip "") as [->|Hip].
    + intros Hp. destruct (wf_ip m W _ _ Hp) as [? (s & Hs & ?)]. split; [done|]. exists s.
      by rewrite lookup_insert_ne by (symmetry; eauto).
    + rewrite lookup_insert. case_decide as Hi.
      * intros [= <-]. subst. rewrite lookup_insert_eq. eauto.
      * intros Hp. destruct (wf_ip m W _ _ Hp) as [? (s & Hs & ?)]. split; [done|]. exists s.
        by rewrite lookup_insert_ne by (symmetry; eauto).
  - intros p s. rewrite lookup_insert. case_decide; [|apply (wf_bytes m W)].
    intros [= <-]. simpl. unwidth. lia.
  - split; [apply wrap_u64_range | apply (wf_totals m W)].
Qed.

(** Removing one live entry and recording it as consumed keeps the indexes
    well formed, whatever happens to the removed session's record. *)
Lemma wf_evict m id p s s' now at' xt em :
  wf m → byToken m !! id = Some p → heap m !! p = Some s →
  TokenID s' = TokenID s → AssignedIP s' = AssignedIP s →
  RxBytes s' = RxBytes s → TxBytes s' = TxBytes s →
  is_uint64 at' → is_uint64 xt →
  wf (mkManager (MaxSessionDuration m) (delete id (byToken m)) (drop_ip (byIP m) (AssignedIP s) p)
        (<[id := now]> (revoked m)) at' xt (<[p := s']> (heap m)) (next m) em).
Proof.
  intros W Hid Hp Ht Hip Hrx Htx Ha Hx.
  assert (TokenID s = id) as Hs by (destruct (wf_live m W _ _ Hid) as (? & ? & ? & _); congruence).
  split; simpl.
  - intros id' q Hq. apply lookup_delete_Some in Hq as [Hne Hq].
    destruct (wf_live m W _ _ Hq) as (r & Hr & ? & ?). exists r. split; [|done].
    rewrite lookup_insert_ne; [done|]. intros <-. apply Hne. eapply wf_inj; eauto.
  - intros id'. rewrite lookup_insert. case_decide as Hd.
    + subst. by rewrite lookup_delete_eq.
    + intros Hr%(wf_revoked m W). by rewrite lookup_delete_ne.
  - intros q r. rewrite lookup_insert. case_decide as Hq.
    + intros [= <-] _. rewrite Ht, Hs, lookup_insert_eq. eauto.
    + intros Hr Hf. rewrite lookup_insert. case_decide; [eauto|]. by eapply wf_flag.
  - intros q. rewrite lookup_insert. case_decide as Hq; [subst; intros _|].
    + apply (wf_fresh m W); eauto.
    + apply (wf_fresh m W).
  - intros ip q Hq%drop_ip_lookup. destruct (wf_ip m W _ _ Hq) as [Hn (r & Hr & Hri)].
    split; [done|]. rewrite lookup_insert. case_decide; [|eauto].
    exists s'. split; [done|]. congruence.
  - intros q r. rewrite lookup_insert. case_decide; [|apply (wf_bytes m W)].
    intros [= <-]. rewrite Hrx, Htx. by eapply wf_bytes.
  - done.
Qed.

Lemma wf_revoke m id now : wf m → wf (Manager_Revoke m id now).1.
Proof.
  intros W. unfold Manager_Revoke.
  destruct (byToken m !! id) as [p|] eqn:Hid; [|done]. simpl.
  destruct (wf_live m W _ _ Hid) as (s & Hs & _). rewrite Hs. simpl.
  apply wf_evict; try done; apply (wf_totals m W).
Qed.

Lemma wf_count m p rx tx now : wf m → wf (add_bytes_at m p rx tx now).
Proof.
  intros W.
  assert (∀ q s, alter (count_bytes rx tx now) p (heap m) !! q = Some s →
    ∃ s0, heap m !! q = Some s0 ∧ (s = s0 ∨ s = count_bytes rx tx now s0)) as Hinv.
  { intros q s. rewrite lookup_alter. case_decide; [subst|eauto].
    destruct (heap m !! q) as [s0|]; simpl; [|done]. intros [= <-]. eauto. }
  assert (∀ q s0, heap m !! q = Some s0 →
    ∃ s, alter (count_bytes rx tx now) p (heap m) !! q = Some s ∧ TokenID s = TokenID s0
      ∧ Revoked s = Revoked s0 ∧ AssignedIP s = AssignedIP s0) as Hfwd.
  { intros q s0 H. rewrite lookup_alter. case_decide; [subst|]; rewrite H; simpl; eauto 10. }
  split; simpl.
  - intros id q Hq. destruct (wf_live m W _ _ Hq) as (s0 & Hs & ? & ?).
    destruct (Hfwd _ _ Hs) as (s & ? & ? & ? & ?). exists s. intuition congruence.
  - apply (wf_revoked m W).
  - intros q s (s0 & Hs & Heq)%Hinv Hf. destruct Heq as [->| ->]; simpl in *; by eapply wf_flag.
  - intros q [s (s0 & Hs & _)%Hinv]. apply (wf_fresh m W). eauto.
  - intros ip q Hq. destruct (wf_ip m W _ _ Hq) as [? (s0 & Hs & ?)]. split; [done|].
    destruct (Hfwd _ _ Hs) as (s & ? & ? & ? & ?). exists s. intuition congruence.
  - intros q s (s0 & Hs & Heq)%Hinv. destruct Heq as [->| ->]; simpl; [by eapply wf_bytes|].
    split; apply wrap_u64_range.
  - apply (wf_totals m W).
Qed.

(** The entries of the visited list that are due at [now]. *)
Definition due (now : time) (l : list (string * (ptr * Session))) :=
  List.filter (fun e => Snapshot_Expired (Session_Snapshot (snd (snd e))) now) l.

Definition snapshots (l : list (string * (ptr * Session))) : list Snapshot :=
  map (fun e => Session_Snapshot (snd (snd e))) l.

Definition entry_of (m : Manager) (e : string * (ptr * Session)) : Prop :=
  byToken m !! fst e = Some (fst (snd e)) ∧ heap m !! fst (snd e) = Some (snd (snd e)).

Lemma entry_step m now id p s e :
  wf m → id ≠ fst e → entry_of m e →
  entry_of (sweep_entry now (m, []) (id, (p, s))).1 e.
Proof.
  intros W Hne [H1 H2]. unfold sweep_entry, entry_of. destruct (Snapshot_Expired _ _); simpl; [|done].
  by rewrite lookup_delete_ne by done.
Qed.

Lemma sweep_entry_out m d now e :
  sweep_entry now (m, d) e
  = ((sweep_entry now (m, []) e).1, d ++ (sweep_entry now (m, []) e).2).
Proof.
  destruct e as [id [p s]]. simpl. destruct (Snapshot_Expired _ _); simpl; [done|].
  by rewrite app_nil_r.
Qed.

Lemma sweep_fold_out now l m d :
  foldl (sweep_entry now) (m, d) l
  = ((foldl (sweep_entry now) (m, []) l).1, d ++ (foldl (sweep_entry now) (m, []) l).2).
Proof.
  revert m d. induction l as [|e l IH]; intros m d; cbn [foldl]; [by rewrite app_nil_r|].
  rewrite sweep_entry_out. destruct (sweep_entry now (m, []) e) as [m1 o1]. cbn [fst snd].
  rewrite IH, (IH m1 o1). cbn [fst snd]. by rewrite app_assoc.
Qed.

Lemma wf_sweep_entry m now e : wf m → entry_of m e → wf (sweep_entry now (m, []) e).1.
Proof.
  intros W [H1 H2]. destruct e as [id [p s]]. simpl in *.
  destruct (Snapshot_Expired _ _); simpl; [|done].
  pose proof (wf_evict m id p s s now (authorizedTotal m) (wrap_u64 (expiredTotal m + 1))
    (emitted m) W H1 H2) as E.
  rewrite (insert_id (heap m)) in E by done. apply E; try done; [apply (wf_totals m W) | apply wrap_u64_range].
Qed.

(** What one pass of the loop leaves behind. *)
Record swept (now : time) (m m' : Manager) (l : list (string * (ptr * Session))) : Prop := {
  swp_wf : wf m';
  swp_heap : heap m' = heap m;
  swp_static : MaxSessionDuration m' = MaxSessionDuration m ∧ next m' = next m
    ∧ emitted m' = emitted m ∧ authorizedTotal m' = authorizedTotal m;
  swp_live : ∀ id, byToken m' !! id
    = if bool_decide (id ∈ (due now l).*1) then None else byToken m !! id;
  swp_revoked : ∀ id, revoked m' !! id
    = if bool_decide (id ∈ (due now l).*1) then Some now else revoked m !! id;
  swp_total : expiredTotal m' = wrap_u64 (expiredTotal m + Z.of_nat (length (due now l)))
}.

Lemma swept_nil now m : wf m → swept now m m [].
Proof.
  intros W. split; simpl; try done.
  rewrite Z.add_0_r, wrap_u64_id; [done | apply (wf_totals m W)].
Qed.

Lemma swept_cons now m e l m' :
  wf m → entry_of m e → fst e ∉ l.*1 →
  swept now (sweep_entry now (m, []) e).1 m' l → swept now m m' (e :: l).
Proof.
  intros W He Hni S. destruct e as [id [p s]]. destruct S as [Sw Sh Ss Sl Sr St].
  simpl in *. destruct (Snapshot_Expired (Session_Snapshot s) now) eqn:E; simpl in *;
    [|split; simpl; rewrite ?E; simpl; done].
  split; simpl; rewrite ?E; simpl; try done.
  - intros id'. rewrite Sl, lookup_delete. repeat case_bool_decide; repeat case_decide; set_solver.
  - intros id'. rewrite Sr, lookup_insert. repeat case_bool_decide; repeat case_decide; set_solver.
  - rewrite St. unfold wrap_u64. rewrite Zplus_mod_idemp_l. f_equal. lia.
Qed.

Lemma sweep_fold now l m :
  wf m → NoDup l.*1 → Forall (entry_of m) l →
  let r := foldl (sweep_entry now) (m, []) l in
  swept now m r.1 l ∧ r.2 = map (fun e => Session_Snapshot (snd (snd e))) (due now l).
Proof.
  revert m. induction l as [|e l IH]; intros m W Hnd HF; cbn [foldl].
  { split; [by apply swept_nil | done]. }
  apply NoDup_cons in Hnd as [Hni Hnd]. apply Forall_cons in HF as [He HF].
  assert (wf (sweep_entry now (m, []) e).1) as W1 by by apply wf_sweep_entry.
  assert (Forall (entry_of (sweep_entry now (m, []) e).1) l) as HF1.
  { rewrite Forall_forall in HF |- *. intros x Hx. destruct e as [id [p s]].
    apply entry_step; [done | | by apply HF]. simpl in Hni. intros ->. apply Hni.
    apply list_elem_of_fmap. eauto. }
  rewrite (surjective_pairing (sweep_entry now (m, []) e)), sweep_fold_out. cbn [fst snd].
  destruct (IH _ W1 Hnd HF1) as [S Ho]. split; [by apply swept_cons|].
  rewrite Ho. destruct e as [id [p s]]. simpl. by destruct (Snapshot_Expired _ _).
Qed.

Lemma entries_elem m it id p s :
  it ≡ₚ map_to_list (byToken m) →
  (id, (p, s)) ∈ entries m it ↔ byToken m !! id = Some p ∧ heap m !! p = Some s.
Proof.
  intros Hit. unfold entries. rewrite list_elem_of_omap. split.
  - intros ([id' p'] & Hin & He). simpl in He. rewrite Hit in Hin.
    apply elem_of_map_to_list in Hin. destruct (heap m !! p') eqn:E; [|done]. simpl in He.
    by simplify_eq.
  - intros [H1 H2]. exists (id, p). rewrite Hit, elem_of_map_to_list. simpl. by rewrite H2.
Qed.

Lemma entries_ok m it : it ≡ₚ map_to_list (byToken m) → Forall (entry_of m) (entries m it).
Proof.
  intros Hit. apply Forall_forall. intros [id [p s]] H. by apply (entries_elem m it) in H.
Qed.

Lemma entries_keys m it : ((entries m it).*1) `sublist_of` it.*1.
Proof.
  induction it as [|[id p] it IH]; simpl; [done|].
  destruct (heap m !! p); simpl; [by apply sublist_skip | by apply sublist_cons].
Qed.

Lemma entries_nodup m it : it ≡ₚ map_to_list (byToken m) → NoDup (entries m it).*1.
Proof.
  intros Hit. eapply sublist_NoDup; [|apply entries_keys]. rewrite Hit.
  apply NoDup_fst_map_to_list.
Qed.

Lemma due_elem now l id p s :
  (id, (p, s)) ∈ due now l ↔ (id, (p, s)) ∈ l ∧ Session_Expired s now = true.
Proof. unfold due. rewrite !list_elem_of_In, filter_In. simpl. by rewrite snapshot_expired. Qed.

Lemma due_keys now l : (due now l).*1 `sublist_of` l.*1.
Proof.
  induction l as [|e l IH]; simpl; [done|].
  destruct (Snapshot_Expired _ _); simpl; [by apply sublist_skip | by apply sublist_cons].
Qed.

Lemma sweep_swept m it now :
  wf m → it ≡ₚ map_to_list (byToken m) →
  ∃ m0, swept now m m0 (entries m it)
    ∧ Manager_SweepOnce m it now
      = (mkManager (MaxSessionDuration m0) (byToken m0) (byIP m0) (revoked m0)
           (authorizedTotal m0) (expiredTotal m0) (heap m0) (next m0)
           (emitted m0 ++ map (fun snap => (SESSION_EXPIRED, snap))
             (map (fun e => Session_Snapshot (snd (snd e))) (due now (entries m it)))),
         map (fun e => Session_Snapshot (snd (snd e))) (due now (entries m it))).
Proof.
  intros W Hit. unfold Manager_SweepOnce.
  pose proof (sweep_fold now (entries m it) m W (entries_nodup m it Hit) (entries_ok m it Hit))
    as [S Ho].
  destruct (foldl _ _ _) as [m0 out]. simpl in *. subst. eauto.
Qed.

(** The entries a sweep takes, their names and their snapshots. *)
Lemma due_in m it now id p s : it ≡ₚ map_to_list (byToken m) →
  (id, (p, s)) ∈ due now (entries m it) ↔
  byToken m !! id = Some p ∧ heap m !! p = Some s ∧ Session_Expired s now = true.
Proof. intros Hit. rewrite due_elem, (entries_elem m it) by done. tauto. Qed.

Lemma due_names m it now id : it ≡ₚ map_to_list (byToken m) →
  id ∈ (due now (entries m it)).*1 ↔
  ∃ p s, byToken m !! id = Some p ∧ heap m !! p = Some s ∧ Session_Expired s now = true.
Proof.
  intros Hit. rewrite list_elem_of_fmap. split.
  - intros ([id' [p s]] & -> & Hd%due_in); eauto.
  - intros (p & s & Hd). exists (id, (p, s)). by rewrite due_in.
Qed.

Lemma due_snapshots m it now snap : it ≡ₚ map_to_list (byToken m) →
  snap ∈ snapshots (due now (entries m it)) ↔
  ∃ id p s, byToken m !! id = Some p ∧ heap m !! p = Some s
    ∧ Session_Expired s now = true ∧ snap = Session_Snapshot s.
Proof.
  intros Hit. unfold snapshots. rewrite list_elem_of_In, in_map_iff. split.
  - intros ([id [p s]] & <- & Hd%list_elem_of_In). apply due_in in Hd; naive_solver.
  - intros (id & p & s & H1 & H2 & He & ->). exists (id, (p, s)). split; [done|].
    by apply list_elem_of_In, due_in.
Qed.

Lemma snapshots_names m it now : wf m → it ≡ₚ map_to_list (byToken m) →
  map snap_TokenID (snapshots (due now (entries m it))) = (due now (entries m it)).*1.
Proof.
  intros W Hit. unfold snapshots. rewrite map_map.
  assert (∀ e, e ∈ due now (entries m it) → snap_TokenID (Session_Snapshot (snd (snd e))) = fst e) as He.
  { intros [id [p s]] (H1 & H2 & _)%due_in; [|done].
    destruct (wf_live m W _ _ H1) as (? & ? & <- & _). simpl. congruence. }
  revert He. induction (due now (entries m it)) as [|e l IH]; intros He; simpl; [done|].
  f_equal; [apply He; by left | apply IH; intros x Hx; apply He; by right].
Qed.

Lemma wf_emitted m em :
  wf m → wf (mkManager (MaxSessionDuration m) (byToken m) (byIP m) (revoked m)
    (authorizedTotal m) (expiredTotal m) (heap m) (next m) em).
Proof. by intros []. Qed.

Lemma wf_step m m' : wf m → step m m' → wf m'.
Proof.
  intros W Hs. destruct Hs as [m v pub ip ep now|m id now|m p rx tx now Hp|m it now Hit].
  - by apply wf_authorize.
  - by apply wf_revoke.
  - by apply wf_count.
  - destruct (sweep_swept m it now W Hit) as (m1 & S & ->). simpl.
    apply wf_emitted, (swp_wf _ _ _ _ S).
Qed.

Lemma reachable_wf d m : reachable d m → wf m.
Proof.
  unfold reachable. intros H. assert (wf (NewManager d)) as W by apply wf_new.
  induction H; [done | eauto using wf_step].
Qed.
#[export] Hint Resolve reachable_wf wf_step : go.

(** Consumed token ids never leave the revocation map. *)
Lemma revoked_step m m' id :
  wf m → step m m' → is_Some (revoked m !! id) → is_Some (revoked m' !! id).
Proof.
  intros W Hs Hr. destruct Hs as [m v pub ip ep now|m id' now|m p rx tx now|m it now Hit].
  - unfold Manager_Authorize. destruct v; simpl; [|done]. by repeat case_match.
  - unfold Manager_Revoke. destruct (_ ≫= _) as [[p s]|]; simpl; [|done].
    rewrite lookup_insert. case_decide; eauto.
  - done.
  - destruct (sweep_swept m it now W Hit) as (m1 & S & ->). simpl.
    rewrite (swp_revoked _ _ _ _ S). case_bool_decide; eauto.
Qed.

Lemma revoked_steps m m' id :
  wf m → rtc step m m' → is_Some (revoked m !! id) → wf m' ∧ is_Some (revoked m' !! id).
Proof.
  intros W H. induction H; [done|]. intros Hr.
  apply IHrtc; eauto using wf_step, revoked_step.
Qed.

Lemma session_expiry_live maxd now exp :
  Time_IsZero exp = true ∨ now < exp →
  let e := session_expiry maxd now exp in
  (Time_IsZero e = true ∨ now < e) ∧ (0 < maxd → e ≤ now + maxd)
  ∧ (maxd ≤ 0 → e = exp).
Proof.
  unfold session_expiry, Time_IsZero, Time_Before, Time_Add. intros H.
  destruct (Z.ltb_spec 0 maxd); simpl; [|lia].
  destruct (Z.eqb_spec exp 0); simpl; [lia|].
  destruct (Z.ltb_spec (now + maxd) exp); lia.
Qed.

Lemma expired_at s now :
  Revoked s = false → Session_Expired s now = false ↔
  (Time_IsZero (ExpiresAt s) = true ∨ now < ExpiresAt s).
Proof.
  intros Hr. unfold Session_Expired, Time_Before. rewrite Hr.
  destruct (Time_IsZero (ExpiresAt s)); [by intuition|].
  destruct (Z.ltb_spec now (ExpiresAt s)); simpl; intuition (try done; lia).
Qed.

(** ** Properties *)


(** Authorization, exactly.  [Authorize] opens a session if and only if
    the validator accepts a token that is not past its expiry, whose id was
    never consumed and has no unexpired session; the session it opens carries
    the token's identity, is not expired, ends no later than the token and
    MaxSessionDuration allow, and every other token's session is untouched. *)
Theorem authorize_exact d m v pub ip ep now :
  reachable d m →
  let r := Manager_Authorize m v pub ip ep now in
  (is_ok r.2 = true ↔ ∃ tok, v = Ok tok
     ∧ (Time_IsZero (tok_ExpiresAt tok) = true ∨ now < tok_ExpiresAt tok)
     ∧ revoked m !! tok_ID tok = None ∧ live_at m (tok_ID tok) now = false)
  ∧ (∀ e, r.2 = Err e → r.1 = m)
  ∧ (∀ p tok, v = Ok tok → r.2 = Ok p →
       ∃ s, byToken r.1 !! tok_ID tok = Some p ∧ heap r.1 !! p = Some s
         ∧ heap m !! p = None ∧ TokenID s = tok_ID tok ∧ Session_Expired s now = false
         ∧ (0 < MaxSessionDuration m → ExpiresAt s ≤ now + MaxSessionDuration m)
         ∧ (Time_IsZero (tok_ExpiresAt tok) = false → ExpiresAt s ≤ tok_ExpiresAt tok)
         ∧ ∀ id q, id ≠ tok_ID tok → byToken m !! id = Some q →
             byToken r.1 !! id = Some q ∧ heap r.1 !! q = heap m !! q).
Proof.
  intros W%reachable_wf. unfold Manager_Authorize. destruct v as [tok|e]; simpl;
    [|by split; [split; [done | by intros (? & ? & _)]|]].
  destruct (negb _ && negb _) eqn:Eexp.
  { split; [split; [done|]|by split]. intros (? & [= <-] & He & _). unfold Time_Before in Eexp.
    zbool. destruct He; [congruence | lia]. }
  assert (Time_IsZero (tok_ExpiresAt tok) = true ∨ now < tok_ExpiresAt tok) as Hexp.
  { unfold Time_Before in Eexp. destruct (Time_IsZero _); simpl in *; [by left | right; zbool; lia]. }
  rewrite scan_keys_lookup. case_bool_decide as Hrev; simpl.
  { split; [split; [done|]|by split]. intros (? & [= <-] & _ & Hn & _). rewrite Hn in Hrev.
    by destruct Hrev. }
  apply eq_None_not_Some in Hrev.
  destruct (live_at m (tok_ID tok) now) eqn:El; simpl.
  { split; [split; [done|]|by split]. intros (? & [= <-] & _ & _ & Hn). congruence. }
  split; [split; [eauto 10 | done]|]. split; [done|]. intros p ? [= <-] [= <-].
  destruct (session_expiry_live (MaxSessionDuration m) now _ Hexp) as (Hl & Hc & Hn).
  eexists. rewrite !lookup_insert_eq. repeat split; simpl; auto.
  - apply eq_None_not_Some. intros Hs%(wf_fresh m W). lia.
  - by apply expired_at.
  - unfold session_expiry, Time_IsZero, Time_Before in *. intros ->.
    repeat case_match; simpl in *; zbool; lia.
  - by rewrite lookup_insert_ne by done.
  - apply lookup_insert_ne. intros <-.
    destruct (wf_live m W _ _ H0) as (s & Hs & _).
    assert (next m < next m)%positive by (apply (wf_fresh m W); eauto). lia.
Qed.

(** The sweep, exactly.  Whatever order the map is visited in, one sweep
    returns a snapshot of each live session that is expired and of no other,
    consumes their ids, leaves every unexpired session where it was, and
    afterwards no live session is expired at the sweep's time. *)
Theorem sweep_exact d m it now :
  reachable d m → it ≡ₚ map_to_list (byToken m) →
  let r := Manager_SweepOnce m it now in
  (∀ snap, snap ∈ r.2 ↔ ∃ id p s, byToken m !! id = Some p ∧ heap m !! p = Some s
     ∧ Session_Expired s now = true ∧ snap = Session_Snapshot s)
  ∧ NoDup (map snap_TokenID r.2)
  ∧ (∀ snap, snap ∈ r.2 → byToken r.1 !! snap_TokenID snap = None
       ∧ revoked r.1 !! snap_TokenID snap = Some now)
  ∧ (∀ id p s, byToken m !! id = Some p → heap m !! p = Some s →
       Session_Expired s now = false →
       byToken r.1 !! id = Some p ∧ heap r.1 !! p = Some s)
  ∧ (∀ id, live_at r.1 id now = bool_decide (is_Some (byToken r.1 !! id)))
  ∧ expiredTotal r.1 = wrap_u64 (expiredTotal m + Z.of_nat (length r.2)).
Proof.
  intros W%reachable_wf Hit. destruct (sweep_swept m it now W Hit) as (m1 & S & ->). simpl.
  fold (snapshots (due now (entries m it))).
  pose proof (λ id, due_names m it now id Hit) as Hdue.
  pose proof (λ snap, due_snapshots m it now snap Hit) as Hout.
  split; [exact Hout|]. split.
  { rewrite snapshots_names by done. eapply sublist_NoDup; [apply (entries_nodup m it Hit)|].
    apply due_keys. }
  split.
  { intros snap (id & p & s & H1 & H2 & He & ->)%Hout. simpl.
    destruct (wf_live m W _ _ H1) as (s' & Hs' & Hid & _). simplify_eq.
    rewrite (swp_live _ _ _ _ S), (swp_revoked _ _ _ _ S).
    by rewrite !bool_decide_eq_true_2 by (apply Hdue; eauto 10). }
  split.
  { intros id p s H1 H2 He. rewrite (swp_live _ _ _ _ S), (swp_heap _ _ _ _ S).
    rewrite bool_decide_eq_false_2; [done|]. intros (p' & s' & H1' & H2' & He')%Hdue. congruence. }
  split; [|by unfold snapshots; rewrite length_map, (swp_total _ _ _ _ S)].
  intros id. unfold live_at. simpl. rewrite (swp_live _ _ _ _ S), (swp_heap _ _ _ _ S).
  case_bool_decide as Hd; [done|]. destruct (byToken m !! id) as [p|] eqn:Hp; [|done]. simpl.
  destruct (wf_live m W _ _ Hp) as (s & Hs & _). rewrite Hs, snapshot_expired.
  destruct (Session_Expired s now) eqn:He; [|done]. exfalso. apply Hd, Hdue. eauto.
Qed.

(** Accounting isolation.  Counting bytes for one live token adds to that
    token's uint64 counters, modulo 2^64, and leaves every other token's
    session unchanged, although all sessions share one heap. *)
Theorem add_bytes_isolated d m id rx tx now :
  reachable d m → is_Some (byToken m !! id) →
  ∃ p s s', byToken m !! id = Some p ∧ heap m !! p = Some s
    ∧ (Manager_AddBytes m id rx tx now).2 = Ok tt
    ∧ heap (Manager_AddBytes m id rx tx now).1 !! p = Some s'
    ∧ RxBytes s' = (RxBytes s + rx) mod 2 ^ 64 ∧ TxBytes s' = (TxBytes s + tx) mod 2 ^ 64
    ∧ byToken (Manager_AddBytes m id rx tx now).1 = byToken m
    ∧ ∀ id' q, id' ≠ id → byToken m !! id' = Some q →
        heap (Manager_AddBytes m id rx tx now).1 !! q = heap m !! q.
Proof.
  intros W%reachable_wf [p Hp]. destruct (wf_live m W _ _ Hp) as (s & Hs & _).
  exists p, s, (count_bytes rx tx now s). unfold Manager_AddBytes, Manager_Get. rewrite Hp. simpl.
  rewrite lookup_alter_eq, Hs. repeat split; try done.
  intros id' q Hne Hq. apply lookup_alter_ne. intros ->. apply Hne. eapply wf_inj; eauto.
Qed.

(** A token valid for ten hours, presented to a manager that caps sessions at
    one hour. *)
Definition demo_token : Token :=
  mkToken "t1" "node" "s1" (10 * hour) ScopeExit "t1.secret".
Definition demo_session : Manager :=
  (Manager_Authorize (NewManager hour) (Ok demo_token) "pub" "100.64.0.2" "ep" 1).1.

Lemma demo_session_reachable : reachable hour demo_session.
Proof. eapply rtc_l; [|apply rtc_refl]. apply step_authorize. Qed.

Definition demo_reauthorized : Manager :=
  (Manager_Authorize demo_session (Ok demo_token) "pub" "100.64.0.3" "ep" (2 * hour)).1.

(** The address index is not kept in step with the token index.  A token
    that outlives MaxSessionDuration can be authorized again once its session
    expired and before a sweep: the old session leaves [byToken] without
    being revoked, swept or reported, and [byIP] keeps pointing at it for
    good - no later sweep evicts it. *)
Theorem reauthorize_orphans_address :
  ∃ m m' p s, reachable hour m ∧ (Manager_Authorize m (Ok demo_token) "pub" "100.64.0.3" "ep"
      (2 * hour)) = (m', Ok p)
    ∧ byIP m' !! "100.64.0.2" = Some 1%positive ∧ heap m' !! 1%positive = Some s
    ∧ (∀ id, byToken m' !! id ≠ Some 1%positive) ∧ revoked m' = ∅
    ∧ (∀ it now, it ≡ₚ map_to_list (byToken m') →
        byIP (Manager_SweepOnce m' it now).1 !! "100.64.0.2" = Some 1%positive
        ∧ ∀ snap, snap ∈ (Manager_SweepOnce m' it now).2 → snap_AssignedIP snap ≠ "100.64.0.2").
Proof.
  assert (byToken demo_reauthorized = {["t1" := 2%positive]}) as Ht by (vm_compute; reflexivity).
  exists demo_session, demo_reauthorized, 2%positive. eexists.
  split; [apply demo_session_reachable|]. split; [vm_compute; reflexivity|].
  split; [vm_compute; reflexivity|]. split; [vm_compute; reflexivity|]. split.
  { intros id. rewrite Ht, lookup_singleton. by case_decide. }
  split; [vm_compute; reflexivity|]. intros it now Hit.
  rewrite Ht, map_to_list_singleton in Hit. apply Permutation_singleton_r in Hit as ->.
  unfold Manager_SweepOnce, entries.
  change (heap demo_reauthorized) with (heap demo_reauthorized). cbn [omap list_omap].
  replace (heap demo_reauthorized !! 2%positive) with
    (Some (open_session demo_token "pub" "100.64.0.3" "ep" (2 * hour) (3 * hour)))
    by (vm_compute; reflexivity). simpl.
  destruct (Snapshot_Expired _ now); simpl; (split; [vm_compute; reflexivity|]); intros snap.
  - rewrite list_elem_of_singleton. by intros ->.
  - by intros ?%not_elem_of_nil.
Qed.

(** ** Witnesses *)


Lemma authorize_exact_witness :
  is_ok (Manager_Authorize demo_session (Ok (mkToken "t2" "n" "s2" (5 * hour) ScopeExit "r"))
    "k" "100.64.0.9" "e" 5).2 = true.
Proof.
  apply (authorize_exact hour demo_session); [apply demo_session_reachable|].
  eexists. split; [reflexivity|]. split; [right; vm_compute; reflexivity|].
  split; vm_compute; reflexivity.
Defined.

Lemma sweep_exact_witness :
  expiredTotal (Manager_SweepOnce demo_session (map_to_list (byToken demo_session))
    (3 * hour)).1 = 1.
Proof.
  transitivity (wrap_u64 (expiredTotal demo_session + Z.of_nat (length
    (Manager_SweepOnce demo_session (map_to_list (byToken demo_session)) (3 * hour)).2)));
    [|vm_compute; reflexivity].
  apply (sweep_exact hour demo_session); [apply demo_session_reachable | reflexivity].
Defined.

Lemma add_bytes_isolated_witness :
  ∃ p s s', byToken demo_session !! "t1" = Some p ∧ heap demo_session !! p = Some s
    ∧ heap (Manager_AddBytes demo_session "t1" (2 ^ 64 - 1) 7 9).1 !! p = Some s'
    ∧ RxBytes s' = (RxBytes s + (2 ^ 64 - 1)) mod 2 ^ 64.
Proof.
  destruct (add_bytes_isolated hour demo_session "t1" (2 ^ 64 - 1) 7 9)
    as (p & s & s' & H1 & H2 & _ & H3 & H4 & _); [apply demo_session_reachable | eauto |].
  by exists p, s, s'.
Defined.
