(* ===== verification/Tokens.v ===== *)
(** * Tokens: single-use prepaid bearer tokens (internal/tokens)

    The [Issuer] mints "<id>.<secret>" strings, validates presented ones
    against its records, consumes ids and sweeps long-expired records.  The
    random bytes of a mint are arguments ([None] is a failing random source),
    and so is the clock.  [SessionValidator] adapts an issuer to the
    interface the session manager expects. *)

From Stdlib Require Import ZArith Lia Ascii.
From S2P Require Import Prelude GoStrings Crypto.
From S2P Require Session.

Definition ScopeExit : string := "exit".
Definition ScopeRelay : string := "relay".

Definition DefaultTTL : duration := 4 * hour.

Inductive error := ErrInvalid | ErrExpired | ErrRevoked | ErrUnknown | ErrRandom.

Record Token := mkToken {
  Token_ID : string;
  Token_NodeID : string;
  Token_SessionID : string;
  Token_ExpiresAt : time;
  Token_Scope : string;
  Token_Secret : string;
  Token_Raw : string
}.

Record record := mkRecord {
  nodeID : string;
  sessionID : string;
  expiresAt : time;
  scope : string;
  secret : string
}.

Record Issuer := mkIssuer { tokens : gmap string record; revoked : gmap string bool }.

Definition NewIssuer : Issuer := mkIssuer ∅ ∅.

(** [randHex] and [randSecret]: encodings of the random source's answer. *)
Definition randHex (n : nat) (rand : option (list Z)) : result error string :=
  match rand with
  | Some b => Ok (hex_EncodeToString (take n b))
  | None => Err ErrRandom
  end.

Definition randSecret (rand : option (list Z)) : result error string :=
  match rand with
  | Some b => Ok (base64_RawURL_EncodeToString (take 32 b))
  | None => Err ErrRandom
  end.

Definition blank (s : string) : bool := String.eqb (strings_TrimSpace s) "".

Definition Issuer_Mint (iss : Issuer) (node session : string) (ttl : duration) (sc : string)
  (idBytes secretBytes : option (list Z)) (now : time) : Issuer * result error Token :=
  if blank node || blank session then (iss, Err ErrInvalid)
  else
    let ttl := if ttl <=? 0 then DefaultTTL else ttl in
    let sc := if String.eqb sc "" then ScopeExit else sc in
    if negb (String.eqb sc ScopeExit) && negb (String.eqb sc ScopeRelay)
    then (iss, Err ErrInvalid)
    else
      match randHex 16 idBytes with
      | Err e => (iss, Err e)
      | Ok id =>
        match randSecret secretBytes with
        | Err e => (iss, Err e)
        | Ok sec =>
          let exp := Time_Add now ttl in
          (mkIssuer (<[id := mkRecord node session exp sc sec]> (tokens iss)) (revoked iss),
           Ok (mkToken id node session exp sc sec (id +:+ "." +:+ sec)))
        end
      end.

Section validate.
Context `{Sha256}.

Definition Issuer_Validate (iss : Issuer) (now : time) (raw : string) : result error Token :=
  match strings_Cut raw "."%char with
  | None => Err ErrInvalid
  | Some (id, sec) =>
    if String.eqb id "" || String.eqb sec "" then Err ErrInvalid
    else
      let presented := sha256_Sum256 sec in
      match tokens iss !! id with
      | None => Err ErrInvalid
      | Some rec =>
        if map_flag (revoked iss) id then Err ErrRevoked
        else
          let expected := sha256_Sum256 (secret rec) in
          if negb (ConstantTimeCompare_digest presented expected =? 1) then Err ErrInvalid
          else if negb (Time_Before now (expiresAt rec)) then Err ErrExpired
          else Ok (mkToken id (nodeID rec) (sessionID rec) (expiresAt rec) (scope rec) "" raw)
      end
  end.
End validate.

Definition Issuer_Revoke (iss : Issuer) (id : string) : Issuer * result error unit :=
  match tokens iss !! id with
  | None => (iss, Err ErrUnknown)
  | Some _ => (mkIssuer (tokens iss) (<[id := true]> (revoked iss)), Ok tt)
  end.

Definition Issuer_IsRevoked (iss : Issuer) (id : string) : bool :=
  scan_keys id (map_to_list (revoked iss)).

Definition expiredGrace : duration := 24 * hour.

(** Is a record due for collection: expired for longer than the grace and
    not revoked? *)
Definition stale (iss : Issuer) (now : time) (id : string) (rec : record) : bool :=
  (expiredGrace <? Time_Sub now (expiresAt rec)) && negb (map_flag (revoked iss) id).

Definition sweep_entry (now : time) (acc : Issuer * Z) (e : string * record) : Issuer * Z :=
  let '(iss, n) := acc in
  if stale iss now (fst e) (snd e)
  then (mkIssuer (delete (fst e) (tokens iss)) (revoked iss), n + 1)
  else acc.

Definition Issuer_Sweep (iss : Issuer) (it : list (string * record)) (now : time) : Issuer * Z :=
  foldl (sweep_entry now) (iss, 0) it.

(** ** The session adapter *)

(** [SessionValidator] holds a possibly nil issuer. *)
Record SessionValidator := mkSessionValidator { sv_Issuer : option Issuer }.

Definition NewSessionValidator (iss : option Issuer) : SessionValidator :=
  mkSessionValidator iss.

Definition SessionValidator_Validate `{Sha256} (v : SessionValidator) (now : time)
  (raw : string) : result Session.error Session.Token :=
  match sv_Issuer v with
  | None => Err Session.ErrInvalid
  | Some iss =>
    match Issuer_Validate iss now raw with
    | Err ErrExpired => Err Session.ErrExpired
    | Err ErrRevoked => Err Session.ErrRevoked
    | Err _ => Err Session.ErrInvalid
    | Ok tok =>
      Ok (Session.mkToken (Token_ID tok) (Token_NodeID tok) (Token_SessionID tok)
            (Token_ExpiresAt tok) (Token_Scope tok) (Token_Raw tok))
    end
  end.

#[export] Instance issuer_validator `{Sha256} : Session.TokenValidator SessionValidator :=
  SessionValidator_Validate.

(** ** Executions of an issuer *)

Inductive step : Issuer → Issuer → Prop :=
| step_mint iss node session ttl sc rid rsec now :
    step iss (Issuer_Mint iss node session ttl sc rid rsec now).1
| step_revoke iss id : step iss (Issuer_Revoke iss id).1
| step_sweep iss it now :
    range_of (tokens iss) it → step iss (Issuer_Sweep iss it now).1.

Definition reachable (iss : Issuer) : Prop := rtc step NewIssuer iss.

(** ** Lemmas *)

Lemma blank_empty : blank "" = true.
Proof. reflexivity. Qed.

Section issuer.
Context `{Sha256}.

(** The complete branch structure of [Validate]. *)
Lemma validate_iff iss now raw tok :
  Issuer_Validate iss now raw = Ok tok ↔
  ∃ id sec rec, raw = id +:+ "." +:+ sec ∧ "."%char ∉ chars id ∧ id ≠ "" ∧ sec ≠ ""
    ∧ tokens iss !! id = Some rec ∧ map_flag (revoked iss) id = false
    ∧ sha256_Sum256 sec = sha256_Sum256 (secret rec) ∧ now < expiresAt rec
    ∧ tok = mkToken id (nodeID rec) (sessionID rec) (expiresAt rec) (scope rec) "" raw.
Proof.
  unfold Issuer_Validate, Time_Before. split.
  - destruct (strings_Cut raw _) as [[id sec]|] eqn:E; [|done].
    apply strings_Cut_inv in E as [-> Hdot].
    destruct (String.eqb_spec id ""), (String.eqb_spec sec ""); simpl; try done.
    destruct (tokens iss !! id) as [rec|] eqn:Er; [|done].
    destruct (map_flag _ _) eqn:Ef; [done|]. rewrite digest_compare_eq.
    case_bool_decide; simpl; [|done]. destruct (Z.ltb_spec now (expiresAt rec)); simpl; [|done].
    intros [= <-]. exists id, sec, rec. done.
  - intros (id & sec & rec & -> & Hdot & Hid & Hsec & Hr & Hf & Hs & Hn & ->).
    change ("." +:+ sec) with (String.String "."%char "" +:+ sec).
    rewrite strings_Cut_app by done.
    rewrite (proj2 (String.eqb_neq _ _) Hid), (proj2 (String.eqb_neq _ _) Hsec). simpl.
    rewrite Hr, Hf, digest_compare_eq, bool_decide_eq_true_2 by done. simpl.
    by rewrite (proj2 (Z.ltb_lt _ _) Hn).
Qed.
End issuer.

Lemma mint_ok_inv iss node session ttl sc rid rsec now iss' tok :
  Issuer_Mint iss node session ttl sc rid rsec now = (iss', Ok tok) →
  ∃ b s, rid = Some b ∧ rsec = Some s ∧
    let id := hex_EncodeToString (take 16 b) in
    let sec := base64_RawURL_EncodeToString (take 32 s) in
    let sc' := if String.eqb sc "" then ScopeExit else sc in
    let exp := now + (if ttl <=? 0 then DefaultTTL else ttl) in
    blank node = false ∧ blank session = false ∧ (sc' = ScopeExit ∨ sc' = ScopeRelay)
    ∧ iss' = mkIssuer (<[id := mkRecord node session exp sc' sec]> (tokens iss)) (revoked iss)
    ∧ tok = mkToken id node session exp sc' sec (id +:+ "." +:+ sec).
Proof.
  unfold Issuer_Mint, randHex, randSecret, Time_Add.
  destruct (blank node || blank session) eqn:Eb; [done|]. apply orb_false_iff in Eb as [? ?].
  destruct (negb _ && negb _) eqn:Es; [done|].
  destruct rid as [b|]; [|done]. destruct rsec as [s|]; [|done].
  intros [= <- <-]. exists b, s. repeat split; try done.
  apply andb_false_iff in Es as [Es|Es]; apply negb_false_iff, String.eqb_eq in Es; auto.
Qed.

Lemma mint_err_same iss node session ttl sc rid rsec now iss' e :
  Issuer_Mint iss node session ttl sc rid rsec now = (iss', Err e) → iss' = iss.
Proof.
  unfold Issuer_Mint. intros M. repeat (case_match; simplify_eq; try done).
Qed.

Lemma sweep_revoked iss it now : revoked (Issuer_Sweep iss it now).1 = revoked iss.
Proof.
  unfold Issuer_Sweep. generalize 0 as n. revert iss.
  induction it as [|e it IH]; intros iss n; simpl; [done|].
  destruct (stale _ _ _ _); by rewrite IH.
Qed.

(** The sweep deletes exactly the stale records. *)
Lemma sweep_lookup iss it now n :
  NoDup it.*1 → (∀ k r, (k, r) ∈ it → tokens iss !! k = Some r) →
  let r := foldl (sweep_entry now) (iss, n) it in
  (∀ id, tokens r.1 !! id = match tokens iss !! id with
     | Some rec => if bool_decide (id ∈ it.*1) && stale iss now id rec then None else Some rec
     | None => None end)
  ∧ r.2 + Z.of_nat (size (tokens r.1)) = n + Z.of_nat (size (tokens iss)).
Proof.
  revert iss n. induction it as [|[k r] it IH]; intros iss n Hnd Hin; simpl.
  { split; [|lia]. intros id. by destruct (tokens iss !! id). }
  apply NoDup_cons in Hnd as [Hk Hnd].
  assert (tokens iss !! k = Some r) as Hkr by (apply Hin; set_solver).
  destruct (stale iss now k r) eqn:Es; simpl.
  - set (iss1 := mkIssuer (delete k (tokens iss)) (revoked iss)).
    destruct (IH iss1 (n + 1) Hnd) as [IH1 IH2].
    { intros k' r' Hin'. simpl. rewrite lookup_delete_ne; [apply Hin; set_solver|].
      intros <-. apply Hk. apply list_elem_of_fmap. by exists (k, r'). }
    split; [|rewrite IH2; simpl].
    2:{ rewrite map_size_delete_Some by eauto.
        pose proof (map_size_non_empty_iff (tokens iss)) as Hne.
        assert (tokens iss ≠ ∅) as Hm by (intros Hm; by rewrite Hm, lookup_empty in Hkr).
        apply Hne in Hm. lia. }
    intros id. rewrite IH1. simpl. rewrite lookup_delete. case_decide as Hid.
    + subst. rewrite Hkr, Es. by rewrite bool_decide_eq_true_2 by set_solver.
    + destruct (tokens iss !! id); [|done]. unfold stale. simpl.
      repeat case_bool_decide; try done; exfalso; set_solver.
  - destruct (IH iss n Hnd) as [IH1 IH2]; [intros; apply Hin; set_solver|].
    split; [|lia].
    intros id. rewrite IH1. destruct (tokens iss !! id) as [rec|] eqn:Er; [|done].
    destruct (decide (id = k)) as [->|].
    + simplify_eq. rewrite Es, !andb_false_r. done.
    + repeat case_bool_decide; try done; exfalso; set_solver.
Qed.

(** Revocation entries are kept for good, and the record they guard stays. *)
Lemma issuer_revoked_step iss iss' id :
  step iss iss' → map_flag (revoked iss) id = true → is_Some (tokens iss !! id) →
  map_flag (revoked iss') id = true ∧ is_Some (tokens iss' !! id).
Proof.
  intros Hs Hr Ht. destruct Hs as [iss node session ttl sc rid rsec now|iss id'|iss it now Hit].
  - destruct (Issuer_Mint iss node session ttl sc rid rsec now) as [iss' [tok|e]] eqn:E; simpl.
    + apply mint_ok_inv in E as (b & s & _ & _ & _ & _ & _ & -> & _). simpl. split; [done|].
      rewrite lookup_insert. case_decide; eauto.
    + by apply mint_err_same in E as ->.
  - unfold Issuer_Revoke. destruct (tokens iss !! id') eqn:E; simpl; [|done]. split; [|done].
    unfold map_flag in *. rewrite lookup_insert. by case_decide.
  - rewrite sweep_revoked. split; [done|].
    destruct (sweep_lookup iss it now 0 (range_of_nodup _ _ Hit)) as [Hl _].
    { intros k r Hk. by apply (range_of_elem (tokens iss) it). }
    unfold Issuer_Sweep. rewrite Hl. destruct Ht as [rec Hrec]. rewrite Hrec.
    unfold stale. rewrite Hr, !andb_false_r. eauto.
Qed.

Lemma issuer_revoked_steps iss iss' id :
  rtc step iss iss' → map_flag (revoked iss) id = true → is_Some (tokens iss !! id) →
  map_flag (revoked iss') id = true ∧ is_Some (tokens iss' !! id).
Proof.
  induction 1 as [|a b c Hs _ IH]; [done|]. intros Hr Ht.
  destruct (issuer_revoked_step _ _ _ Hs Hr Ht). by apply IH.
Qed.

Lemma hex_encode_nonempty b : b ≠ [] → hex_EncodeToString b ≠ "".
Proof. intros Hb He. by apply hex_encode_empty in He. Qed.

Lemma b64_encode_nonempty b : b ≠ [] → base64_RawURL_EncodeToString b ≠ "".
Proof.
  intros Hb He. apply empty_iff_chars in He. unfold base64_RawURL_EncodeToString in He.
  rewrite chars_of_chars in He. by destruct b as [|x [|y [|z b]]].
Qed.

Lemma take_nonempty {A} n (l : list A) : (0 < n)%nat → l ≠ [] → take n l ≠ [].
Proof. destruct n, l; simpl; try done; lia. Qed.

#[export] Instance issuer_validator_laws `{Sha256} : Session.TokenValidatorLaws SessionValidator.
Proof.
  split; intros v now raw t; unfold Session.Validate, issuer_validator, SessionValidator_Validate;
    destruct (sv_Issuer v) as [iss|]; try done;
    destruct (Issuer_Validate iss now raw) as [tok|[]] eqn:E; try done; intros [= <-];
    apply validate_iff in E as (id & sec & rec & -> & _ & _ & _ & _ & _ & _ & Hn & ->); simpl.
  - done.
  - right. lia.
Qed.

(** ** Properties *)

(** Round trip.  The bearer string of a successful mint validates until
    the token expires, and validation returns the minted identity, scope and
    expiry without the secret. *)
Theorem mint_validate_roundtrip `{Sha256} iss node session ttl sc b s now iss' tok now' :
  b ≠ [] → s ≠ [] →
  map_flag (revoked iss) (hex_EncodeToString (take 16 b)) = false →
  Issuer_Mint iss node session ttl sc (Some b) (Some s) now = (iss', Ok tok) →
  now' < Token_ExpiresAt tok →
  Issuer_Validate iss' now' (Token_Raw tok)
  = Ok (mkToken (Token_ID tok) node session (Token_ExpiresAt tok) (Token_Scope tok) ""
          (Token_Raw tok))
  ∧ (0 < ttl → Token_ExpiresAt tok = now + ttl).
Proof.
  intros Hb Hs Hr (b' & s' & [= <-] & [= <-] & Hnode & Hses & Hsc & -> & ->)%mint_ok_inv Hn.
  simpl in *. split.
  - apply validate_iff. eexists _, _, _. split; [done|]. split; [apply hex_encode_no_dot|].
    split; [apply hex_encode_nonempty, take_nonempty; [lia|done]|].
    split; [apply b64_encode_nonempty, take_nonempty; [lia|done]|].
    simpl. rewrite lookup_insert_eq. done.
  - intros Ht. rewrite (proj2 (Z.leb_gt _ _)) by lia. done.
Qed.


(** A revoked id answers [ErrRevoked] to any secret, so its validity is
    visible to a caller who does not hold the token: the revocation test runs
    before the secret is compared. *)
Theorem revoked_id_observable `{Sha256} iss now id sec :
  "."%char ∉ chars id → id ≠ "" → sec ≠ "" → is_Some (tokens iss !! id) →
  Issuer_Validate (Issuer_Revoke iss id).1 now (id +:+ "." +:+ sec) = Err ErrRevoked.
Proof.
  intros Hdot Hid Hsec [rec Hr]. unfold Issuer_Validate, Issuer_Revoke.
  change ("." +:+ sec) with (String.String "."%char "" +:+ sec). rewrite strings_Cut_app by done.
  rewrite (proj2 (String.eqb_neq _ _) Hid), (proj2 (String.eqb_neq _ _) Hsec), Hr. simpl.
  rewrite Hr. unfold map_flag. by rewrite lookup_insert_eq.
Qed.

(** Single use survives everything.  Once an id is revoked, no sequence of
    mints, revocations and sweeps makes any string carrying it validate
    again, and a session manager that validates through the adapter refuses
    to open a session for it. *)
Theorem revoked_never_validates `{Sha256} iss iss' id raw now m pub ip ep :
  is_Some (tokens iss !! id) → rtc step (Issuer_Revoke iss id).1 iss' →
  fst <$> strings_Cut raw "."%char = Some id →
  is_ok (Issuer_Validate iss' now raw) = false
  ∧ ∃ e, Session.Manager_Authorize m
      (Session.Validate (NewSessionValidator (Some iss')) now raw) pub ip ep now = (m, Err e).
Proof.
  intros [rec Ht] Hs Hraw.
  destruct (issuer_revoked_steps _ iss' id Hs) as [Hr _].
  { unfold Issuer_Revoke. rewrite Ht. simpl. unfold map_flag. by rewrite lookup_insert_eq. }
  { unfold Issuer_Revoke. rewrite Ht. simpl. eauto. }
  assert (is_ok (Issuer_Validate iss' now raw) = false) as Hf.
  { destruct (Issuer_Validate iss' now raw) as [tok|e] eqn:E; [|done].
    apply validate_iff in E as (id' & sec & r & -> & Hdot & _ & _ & _ & Hf & _).
    change ("." +:+ sec) with (String.String "."%char "" +:+ sec) in Hraw.
    rewrite strings_Cut_app in Hraw by done. simpl in Hraw. congruence. }
  split; [done|]. unfold Session.Validate, issuer_validator, SessionValidator_Validate. simpl.
  destruct (Issuer_Validate iss' now raw) as [tok|[]]; simpl; [done|eauto..].
Qed.

(** The sweep, exactly.  It deletes the records that have been expired for
    more than the 24 hour grace and are not revoked, keeps all others (so a
    replay inside the grace still reads as expired, not as forged), keeps
    every revocation, and returns the number of records it deleted. *)
Theorem issuer_sweep_exact iss it now :
  range_of (tokens iss) it →
  let r := Issuer_Sweep iss it now in
  (∀ id rec, tokens r.1 !! id = Some rec ↔
     tokens iss !! id = Some rec
     ∧ (Time_Sub now (expiresAt rec) ≤ 24 * hour ∨ map_flag (revoked iss) id = true))
  ∧ revoked r.1 = revoked iss
  ∧ r.2 = Z.of_nat (size (tokens iss)) - Z.of_nat (size (tokens r.1)).
Proof.
  intros Hit. destruct (sweep_lookup iss it now 0 (range_of_nodup _ _ Hit)) as [Hl Hn].
  { intros k r Hk. by apply (range_of_elem (tokens iss) it). }
  cbv zeta. rewrite sweep_revoked. unfold Issuer_Sweep in *.
  assert (∀ id rec, tokens (foldl (sweep_entry now) (iss, 0) it).1 !! id = Some rec ↔
    tokens iss !! id = Some rec ∧ stale iss now id rec = false) as Hex.
  { intros id rec. rewrite Hl. destruct (tokens iss !! id) as [r|] eqn:E; [|naive_solver].
    rewrite bool_decide_eq_true_2.
    - simpl. destruct (stale iss now id r) eqn:Es; naive_solver congruence.
    - apply list_elem_of_fmap. exists (id, r). split; [done|]. by apply (range_of_elem (tokens iss)). }
  split; [|split; [done|]].
  - intros id rec. rewrite Hex. unfold stale, expiredGrace.
    rewrite andb_false_iff, negb_false_iff, Z.ltb_ge. done.
  - lia.
Qed.

(** ** Witnesses *)

Definition demo_bytes (n : nat) : list Z := map Z.of_nat (seq 1 n).
Definition demo_mint : Issuer * result error Token :=
  Issuer_Mint NewIssuer "node" "session" hour ScopeExit (Some (demo_bytes 16))
    (Some (demo_bytes 32)) 0.
Definition demo_issued : Token :=
  match demo_mint.2 with Ok t => t | Err _ => mkToken "" "" "" 0 "" "" "" end.
Definition demo_id : string := hex_EncodeToString (demo_bytes 16).

Lemma mint_validate_roundtrip_witness :
  is_ok (Issuer_Validate (H := toy_sha256) demo_mint.1 5 (Token_Raw demo_issued)) = true.
Proof.
  rewrite (proj1 (mint_validate_roundtrip (H := toy_sha256) NewIssuer "node" "session" hour
    ScopeExit (demo_bytes 16) (demo_bytes 32) 0 demo_mint.1 demo_issued 5
    ltac:(discriminate) ltac:(discriminate) ltac:(vm_compute; reflexivity)
    ltac:(vm_compute; reflexivity) ltac:(vm_compute; reflexivity))).
  reflexivity.
Defined.


Lemma revoked_id_observable_witness :
  Issuer_Validate (H := toy_sha256) (Issuer_Revoke demo_mint.1 demo_id).1 5
    (demo_id +:+ "." +:+ "guess") = Err ErrRevoked.
Proof.
  apply (revoked_id_observable (H := toy_sha256)); try discriminate; [apply hex_encode_no_dot|].
  vm_compute. eauto.
Defined.

Lemma revoked_never_validates_witness :
  is_ok (Issuer_Validate (H := toy_sha256) (Issuer_Revoke demo_mint.1 demo_id).1 5
    (Token_Raw demo_issued)) = false.
Proof.
  apply (revoked_never_validates (H := toy_sha256) demo_mint.1 _ demo_id _ _
    (Session.NewManager 0) "k" "ip" "ep"); [vm_compute; eauto | apply rtc_refl |].
  vm_compute. reflexivity.
Defined.

Lemma issuer_sweep_exact_witness :
  tokens (Issuer_Sweep demo_mint.1 (map_to_list (tokens demo_mint.1)) (2 * hour)).1 !! demo_id
  = Some (mkRecord "node" "session" hour ScopeExit (Token_Secret demo_issued)).
Proof.
  apply (issuer_sweep_exact demo_mint.1 _ (2 * hour) (range_of_self _)).
  split; [vm_compute; reflexivity|]. left. vm_compute. discriminate.
Defined.
