(* ===== verification/Dero.v ===== *)
(** * Dero: the control-plane wallet (internal/dero)

    Amounts, the wallet interface with its separation between building and
    submitting, the DevMock wallet, the JSON-RPC wallet down to its transport
    (a parameter), and the outage policy. *)

From Stdlib Require Import ZArith Lia.
From S2P Require Import Prelude Float64 GoStrings.

Abbreviation Network := string.
Definition NetworkDevMock : Network := "devmock".
Definition NetworkTestnet : Network := "testnet".
Definition NetworkMainnet : Network := "mainnet".

Record Endpoints := mkEndpoints { Daemon : string; Wallet : string }.

Definition DefaultEndpoints (n : Network) : Endpoints :=
  if String.eqb n NetworkMainnet then
    mkEndpoints "http://127.0.0.1:10102" "http://127.0.0.1:40403"
  else if String.eqb n NetworkTestnet then
    mkEndpoints "http://127.0.0.1:10102" "http://127.0.0.1:40403"
  else mkEndpoints "http://127.0.0.1:19092" "http://127.0.0.1:19093".

(** ** Amounts *)

Definition AtomicPerDero : Z := 100000.

Definition ToAtomic `{GoArch} (dero : float64) : Z :=
  if f_le dero f0 || f_isNaN dero || f_isInf dero then 0
  else f_round_int64 (f_mul dero (f_of_Z AtomicPerDero)).

Definition FromAtomic (a : Z) : float64 := f_div (f_of_Z a) (f_of_Z AtomicPerDero).

(** ** Errors and the outage policy *)

Inductive error :=
| ErrDeroUnavailable
| FreshAuthUnavailable (e : error)  (* wraps [e] with %w *)
| ErrEmptyDestination
| ErrZeroAmount
| ErrSCIDRequired
| ErrRefusedNetwork
| ErrCredentials
| ErrRPC (msg : string).

(** [errors.Is(err, ErrDeroUnavailable)] follows the wrapping. *)
Fixpoint IsUnavailable (e : error) : bool :=
  match e with
  | ErrDeroUnavailable => true
  | FreshAuthUnavailable e' => IsUnavailable e'
  | _ => false
  end.

(** [RequireFreshChain] on a possibly nil error. *)
Definition RequireFreshChain (e : option error) : option error :=
  match e with
  | None => None
  | Some e => if IsUnavailable e then Some (FreshAuthUnavailable e) else Some e
  end.

Definition fresh_chain (e : error) : error := default e (RequireFreshChain (Some e)).

(** ** Payloads *)

Record Balance := mkBalance { bal_Balance : Z; UnlockedBalance : Z }.
Record TransferRequest := mkTransferRequest { tr_Destination : string; tr_AmountAtomic : Z }.
Record UnsignedTransfer := mkUnsignedTransfer {
  ut_Destination : string; ut_AmountAtomic : Z; ut_Network : Network }.

Inductive sc_value := SCString (s : string) | SCUint64 (n : Z).
Record SCArg := mkSCArg { arg_Name : string; arg_DataType : string; arg_Value : sc_value }.
Record UnsignedInvoke := mkUnsignedInvoke {
  ui_SCID : string; ui_Entrypoint : string; ui_Args : list SCArg; ui_Network : Network }.

(** ** The wallet interface

    The operations the payment service uses.  Building is pure: it has no
    access to the wallet state at all.  [ledger] is what the wallet has
    accepted for submission. *)

Inductive submission := Transfer (u : UnsignedTransfer) | Invoke (u : UnsignedInvoke).

Class WalletClient (W : Type) : Type := {
  GetBalance : W → W * result error Balance;
  GetAddress : W → W * result error string;
  BuildTransfer : TransferRequest → Network → result error UnsignedTransfer;
  SubmitTransfer : W → UnsignedTransfer → W * result error string;
  BuildInvoke : string → string → list SCArg → Network → result error UnsignedInvoke;
  SubmitInvoke : W → UnsignedInvoke → W * result error string;
  ledger : W → list submission
}.

(** What a wallet promises: reading spends nothing, a successful submission
    spends exactly the payload it was given, and a failing one spends that
    payload or nothing (a reply can be lost after the wallet accepted). *)
Class WalletLaws (W : Type) `{WalletClient W} : Prop := {
  balance_no_spend : ∀ w, ledger (GetBalance w).1 = ledger w;
  address_no_spend : ∀ w, ledger (GetAddress w).1 = ledger w;
  transfer_at_most : ∀ w u, ledger (SubmitTransfer w u).1 = ledger w
    ∨ ledger (SubmitTransfer w u).1 = ledger w ++ [Transfer u];
  transfer_ok : ∀ w u t, (SubmitTransfer w u).2 = Ok t →
    ledger (SubmitTransfer w u).1 = ledger w ++ [Transfer u];
  invoke_at_most : ∀ w u, ledger (SubmitInvoke w u).1 = ledger w
    ∨ ledger (SubmitInvoke w u).1 = ledger w ++ [Invoke u];
  invoke_ok : ∀ w u t, (SubmitInvoke w u).2 = Ok t →
    ledger (SubmitInvoke w u).1 = ledger w ++ [Invoke u];
  build_transfer_ok : ∀ r n u, BuildTransfer r n = Ok u →
    u = mkUnsignedTransfer (tr_Destination r) (tr_AmountAtomic r) n
    ∧ tr_Destination r ≠ "" ∧ tr_AmountAtomic r ≠ 0;
  build_invoke_ok : ∀ s ep args n u, BuildInvoke s ep args n = Ok u →
    u = mkUnsignedInvoke s ep args n
}.

(** ** Payload construction, common to the mock and the JSON-RPC wallet *)

Definition build_transfer (req : TransferRequest) (net : Network)
  : result error UnsignedTransfer :=
  if String.eqb (tr_Destination req) "" then Err ErrEmptyDestination
  else if tr_AmountAtomic req =? 0 then Err ErrZeroAmount
  else Ok (mkUnsignedTransfer (tr_Destination req) (tr_AmountAtomic req) net).

Definition build_invoke (scid entrypoint : string) (args : list SCArg) (net : Network)
  : result error UnsignedInvoke :=
  if String.eqb scid "" || String.eqb entrypoint "" then Err ErrSCIDRequired
  else Ok (mkUnsignedInvoke scid entrypoint args net).

(** ** The DevMock wallet *)

Record MockWalletClient := mkMock {
  BalanceV : Balance;
  Address : string;
  Fail : bool;
  Submits : list UnsignedTransfer;
  Invokes : list UnsignedInvoke;
  accepted : list submission;  (* the two logs above in submission order *)
  endpoint : string;
  txSeq : Z
}.

Definition NewMockWallet : MockWalletClient :=
  mkMock (mkBalance (100 * AtomicPerDero) (100 * AtomicPerDero))
    "deto1mockwallet0000000000000000000000000000000000" false [] [] []
    (Wallet (DefaultEndpoints NetworkDevMock)) 0.

Definition Mock_GetBalance (m : MockWalletClient) : MockWalletClient * result error Balance :=
  (m, if Fail m then Err ErrDeroUnavailable else Ok (BalanceV m)).

Definition Mock_GetAddress (m : MockWalletClient) : MockWalletClient * result error string :=
  (m, if Fail m then Err ErrDeroUnavailable else Ok (Address m)).

Definition mock_txid (n : Z) : string := "mock-tx-" +:+ fmt_d n.

Definition Mock_SubmitTransfer (m : MockWalletClient) (u : UnsignedTransfer)
  : MockWalletClient * result error string :=
  if Fail m then (m, Err ErrDeroUnavailable)
  else (mkMock (BalanceV m) (Address m) (Fail m) (Submits m ++ [u]) (Invokes m)
          (accepted m ++ [Transfer u]) (endpoint m) (txSeq m + 1),
        Ok (mock_txid (txSeq m + 1))).

Definition Mock_SubmitInvoke (m : MockWalletClient) (u : UnsignedInvoke)
  : MockWalletClient * result error string :=
  if Fail m then (m, Err ErrDeroUnavailable)
  else (mkMock (BalanceV m) (Address m) (Fail m) (Submits m) (Invokes m ++ [u])
          (accepted m ++ [Invoke u]) (endpoint m) (txSeq m + 1),
        Ok (mock_txid (txSeq m + 1))).

#[export] Instance mock_wallet : WalletClient MockWalletClient := {|
  GetBalance := Mock_GetBalance;
  GetAddress := Mock_GetAddress;
  BuildTransfer := build_transfer;
  SubmitTransfer := Mock_SubmitTransfer;
  BuildInvoke := build_invoke;
  SubmitInvoke := Mock_SubmitInvoke;
  ledger := accepted
|}.

(** ** The JSON-RPC wallet

    The transport is a parameter: what the endpoint answers to each call,
    given what it has accepted so far, and what it thereby accepts.  The
    guards before the call are the code's. *)

Inductive rpc_answer := Accepted (txid : string) | Refused (e : error) | ReplyLost (e : error).

Definition rpc_result (a : rpc_answer) : result error string :=
  match a with Accepted txid => Ok txid | Refused e | ReplyLost e => Err e end.
Definition rpc_accepts (a : rpc_answer) (s : submission) : list submission :=
  match a with Refused _ => [] | _ => [s] end.

Record HTTPWalletClient := mkHTTPWallet {
  remote : list submission;
  rpc_balance : result error Balance;
  rpc_address : result error string;
  rpc_transfer : list submission → UnsignedTransfer → rpc_answer;
  rpc_scinvoke : list submission → UnsignedInvoke → rpc_answer
}.

Definition remote_accepts (c : HTTPWalletClient) (l : list submission) : HTTPWalletClient :=
  mkHTTPWallet (remote c ++ l) (rpc_balance c) (rpc_address c) (rpc_transfer c) (rpc_scinvoke c).

Definition spendable_network (n : Network) : bool :=
  String.eqb n NetworkTestnet || String.eqb n NetworkMainnet.

Definition HTTP_SubmitTransfer (c : HTTPWalletClient) (u : UnsignedTransfer)
  : HTTPWalletClient * result error string :=
  if negb (spendable_network (ut_Network u)) then (c, Err ErrRefusedNetwork)
  else (remote_accepts c (rpc_accepts (rpc_transfer c (remote c) u) (Transfer u)),
        rpc_result (rpc_transfer c (remote c) u)).

Definition HTTP_SubmitInvoke (c : HTTPWalletClient) (u : UnsignedInvoke)
  : HTTPWalletClient * result error string :=
  if negb (spendable_network (ui_Network u)) then (c, Err ErrRefusedNetwork)
  else (remote_accepts c (rpc_accepts (rpc_scinvoke c (remote c) u) (Invoke u)),
        rpc_result (rpc_scinvoke c (remote c) u)).

#[export] Instance http_wallet : WalletClient HTTPWalletClient := {|
  GetBalance := fun c => (c, rpc_balance c);
  GetAddress := fun c => (c, rpc_address c);
  BuildTransfer := build_transfer;
  SubmitTransfer := HTTP_SubmitTransfer;
  BuildInvoke := build_invoke;
  SubmitInvoke := HTTP_SubmitInvoke;
  ledger := remote
|}.

(** ** Lemmas *)

Lemma build_transfer_inv r n u : build_transfer r n = Ok u →
  u = mkUnsignedTransfer (tr_Destination r) (tr_AmountAtomic r) n
  ∧ tr_Destination r ≠ "" ∧ tr_AmountAtomic r ≠ 0.
Proof.
  unfold build_transfer. destruct (String.eqb_spec (tr_Destination r) ""); [done|].
  destruct (Z.eqb_spec (tr_AmountAtomic r) 0); [done|]. by intros [= <-].
Qed.

Lemma build_invoke_inv s ep args n u :
  build_invoke s ep args n = Ok u → u = mkUnsignedInvoke s ep args n.
Proof. unfold build_invoke. case_match; [done|]. by intros [= <-]. Qed.

#[export] Instance mock_wallet_laws : WalletLaws MockWalletClient.
Proof.
  split; simpl; eauto using build_transfer_inv, build_invoke_inv;
    intros w; unfold Mock_SubmitTransfer, Mock_SubmitInvoke; destruct (Fail w); simpl; auto;
    discriminate.
Qed.

#[export] Instance http_wallet_laws : WalletLaws HTTPWalletClient.
Proof.
  split; simpl; eauto using build_transfer_inv, build_invoke_inv;
    intros w u; unfold HTTP_SubmitTransfer, HTTP_SubmitInvoke;
    destruct (spendable_network _); simpl; auto; try discriminate;
    [destruct (rpc_transfer w (remote w) u) | destruct (rpc_transfer w (remote w) u)
    | destruct (rpc_scinvoke w (remote w) u) | destruct (rpc_scinvoke w (remote w) u)];
    simpl; rewrite ?app_nil_r; auto; discriminate.
Qed.

Lemma ToAtomic_range `{GoArch} x : is_int64 (ToAtomic x).
Proof.
  unfold ToAtomic. case_match; [unwidth; lia|].
  unfold f_round_int64. destruct (_ && _) eqn:E; [|apply int64_overflow_range].
  zbool. unfold is_int64. lia.
Qed.

Lemma IsUnavailable_fresh e : IsUnavailable (fresh_chain e) = IsUnavailable e.
Proof. unfold fresh_chain. simpl. by destruct (IsUnavailable e) eqn:E. Qed.
