(* ===== verification/Registry.v ===== *)
(** * Registry: node advertisements and node selection (internal/registry)

    [Validate] checks an advertisement, [Verify] authenticates a signed
    announcement, the [Store] keeps nodes and the operator keys pinned to
    them, and [Select] ranks active nodes.  JSON encoding of a node, the file
    system's answers and the smart-contract mirror are parameters. *)

From Stdlib Require Import ZArith Lia Ascii.
From S2P Require Import Prelude Float64 GoStrings Crypto.

Definition StatusActive : string := "active".
Definition StatusDisabled : string := "disabled".

Definition MinBondDERO : float64 := f_of_Z 10.

Record Node := mkNode {
  NodeID : string;
  WGPubKey : string;
  Region : string;
  Country : string;
  City : string;
  Endpoint : string;
  PricePerHourDERO : float64;
  CapacityMaxClients : Z;
  ProtocolVersion : Z;
  BondDERO : float64;
  Status : string;
  Version : string
}.

Inductive error :=
| ErrEmptyNodeID | ErrBadNodeID | ErrKeyNotBase64 | ErrKeySize | ErrEndpoint
| ErrNegativePrice | ErrCapacity | ErrProtocol | ErrBond | ErrStatus
| ErrBadPrivateKey | ErrEncode | ErrOperatorKeySize | ErrSignatureSize | ErrSignature
| ErrPayload | ErrKeyChanged | ErrAlreadyRegistered | ErrUnknownNode
| ErrSave (e : string) | ErrMirror (op e : string) | ErrNoCandidates.

(** The WireGuard key's bytes under either accepted base64 alphabet. *)
Definition decode_key (k : string) : option (list Z) :=
  match base64_Std_DecodeString k with
  | Some b => Some b
  | None => base64_RawURL_DecodeString k
  end.

Definition endpoint_ok (ep : string) : bool :=
  match net_SplitHostPort ep with
  | Some (host, port) => negb (String.eqb host "") && negb (String.eqb port "")
  | None => false
  end.

Definition node_id_forbidden : string :=
  of_chars [" "%char; byte_of 9; byte_of 10; "/"%char].

Definition Validate (n : Node) (minBond : float64) : result error unit :=
  if String.eqb (strings_TrimSpace (NodeID n)) "" then Err ErrEmptyNodeID
  else if strings_ContainsAny (NodeID n) node_id_forbidden then Err ErrBadNodeID
  else match decode_key (WGPubKey n) with
  | None => Err ErrKeyNotBase64
  | Some raw =>
    if negb (length raw =? 32)%nat then Err ErrKeySize
    else if negb (endpoint_ok (Endpoint n)) then Err ErrEndpoint
    else if f_lt (PricePerHourDERO n) f0 then Err ErrNegativePrice
    else if CapacityMaxClients n <=? 0 then Err ErrCapacity
    else if ProtocolVersion n <=? 0 then Err ErrProtocol
    else
      let minBond := if f_le minBond f0 then MinBondDERO else minBond in
      if f_lt (BondDERO n) minBond then Err ErrBond
      else if negb (String.eqb (Status n) StatusActive)
              && negb (String.eqb (Status n) StatusDisabled) then Err ErrStatus
      else Ok tt
  end.

(** ** Announcements *)

(** [encoding/json] on [Node]: the canonical rendering and the decoder. *)
Class NodeJSON : Type := {
  canonicalJSON : Node → option string;
  unmarshalNode : string → option Node
}.

Record Announcement := mkAnnouncement {
  Payload : string; Signature : string; OperatorKey : string }.

Section announcements.
Context `{NodeJSON, Ed25519}.

Definition Sign (n : Node) (priv : string) : result error Announcement :=
  if negb (len priv =? ed25519_PrivateKeySize) then Err ErrBadPrivateKey
  else match canonicalJSON n with
       | None => Err ErrEncode
       | Some payload =>
         Ok (mkAnnouncement payload (ed25519_Sign priv payload) (ed25519_Public priv))
       end.

Definition Verify (a : Announcement) : result error (Node * string) :=
  if negb (len (OperatorKey a) =? ed25519_PublicKeySize) then Err ErrOperatorKeySize
  else if negb (len (Signature a) =? ed25519_SignatureSize) then Err ErrSignatureSize
  else if negb (ed25519_Verify (OperatorKey a) (Payload a) (Signature a)) then Err ErrSignature
  else match unmarshalNode (Payload a) with
       | None => Err ErrPayload
       | Some n => Ok (n, OperatorKey a)
       end.
End announcements.

(** ** The store *)

(** [mirror] is the optional chain mirror (a [Some] answer is its error) and
    [mirrored] the calls made to it; [disk] is the content of the JSON file. *)
Record Store := mkStore {
  nodes : gmap string Node;
  opKeys : gmap string string;
  mirror : option (string → Node → option string);
  path : string;
  minBond : float64;
  disk : option (gmap string Node);
  mirrored : list (string * Node)
}.

Definition NewStore (path : string) (mirror : option (string → Node → option string))
  (bond : float64) (disk : option (gmap string Node)) : Store :=
  mkStore ∅ ∅ mirror path (if f_le bond f0 then MinBondDERO else bond) disk [].

Definition set_nodes (s : Store) (ns : gmap string Node) : Store :=
  mkStore ns (opKeys s) (mirror s) (path s) (minBond s) (disk s) (mirrored s).

Definition checkKeyContinuity (s : Store) (n : Node) (op : string) : result error unit :=
  match opKeys s !! NodeID n with
  | Some pinned => if negb (String.eqb pinned op) then Err ErrKeyChanged else Ok tt
  | None => Ok tt
  end.

Definition put (s : Store) (n : Node) (op : string) : Store :=
  mkStore (<[NodeID n := n]> (nodes s))
    (match opKeys s !! NodeID n with
     | Some _ => opKeys s
     | None => <[NodeID n := op]> (opKeys s)
     end) (mirror s) (path s) (minBond s) (disk s) (mirrored s).

(** [save]: [io] is the error of writing the file, if any.  The file is
    replaced by rename, so a failed save leaves the old content. *)
Definition Store_save (s : Store) (io : option string) : Store * result error unit :=
  if String.eqb (path s) "" then (s, Ok tt)
  else match io with
       | Some e => (s, Err (ErrSave e))
       | None => (mkStore (nodes s) (opKeys s) (mirror s) (path s) (minBond s)
                    (Some (nodes s)) (mirrored s), Ok tt)
       end.

(** The common tail of every write: save, then mirror. *)
Definition commit (s : Store) (op : string) (n : Node) (io : option string)
  : Store * result error unit :=
  match Store_save s io with
  | (s, Err e) => (s, Err e)
  | (s, Ok _) =>
    match mirror s with
    | None => (s, Ok tt)
    | Some call =>
      (mkStore (nodes s) (opKeys s) (mirror s) (path s) (minBond s) (disk s)
         (mirrored s ++ [(op, n)]),
       match call op n with Some e => Err (ErrMirror op e) | None => Ok tt end)
    end
  end.

Section store.
Context `{NodeJSON, Ed25519}.

Definition Store_Register (s : Store) (a : Announcement) (io : option string)
  : Store * result error unit :=
  match Verify a with
  | Err e => (s, Err e)
  | Ok (n, op) =>
    match Validate n (minBond s) with
    | Err e => (s, Err e)
    | Ok _ =>
      match nodes s !! NodeID n with
      | Some _ =>
        (s, match checkKeyContinuity s n op with Err e => Err e | Ok _ => Err ErrAlreadyRegistered end)
      | None => commit (put s n op) "RegisterNode" n io
      end
    end
  end.

Definition Store_Update (s : Store) (a : Announcement) (io : option string)
  : Store * result error unit :=
  match Verify a with
  | Err e => (s, Err e)
  | Ok (n, op) =>
    match Validate n (minBond s) with
    | Err e => (s, Err e)
    | Ok _ =>
      match nodes s !! NodeID n with
      | None => (s, Err ErrUnknownNode)
      | Some _ =>
        match checkKeyContinuity s n op with
        | Err e => (s, Err e)
        | Ok _ => commit (put s n op) "UpdateNode" n io
        end
      end
    end
  end.
End store.

Definition set_Status (n : Node) (st : string) : Node :=
  mkNode (NodeID n) (WGPubKey n) (Region n) (Country n) (City n) (Endpoint n)
    (PricePerHourDERO n) (CapacityMaxClients n) (ProtocolVersion n) (BondDERO n) st (Version n).

Definition set_Price (n : Node) (price : float64) : Node :=
  mkNode (NodeID n) (WGPubKey n) (Region n) (Country n) (City n) (Endpoint n)
    price (CapacityMaxClients n) (ProtocolVersion n) (BondDERO n) (Status n) (Version n).

Definition Store_Disable (s : Store) (nodeID : string) (io : option string)
  : Store * result error unit :=
  match nodes s !! nodeID with
  | None => (s, Err ErrUnknownNode)
  | Some n =>
    let n := set_Status n StatusDisabled in
    commit (set_nodes s (<[nodeID := n]> (nodes s))) "DisableNode" n io
  end.

Definition Store_SetPrice (s : Store) (nodeID : string) (price : float64) (io : option string)
  : Store * result error unit :=
  if f_lt price f0 then (s, Err ErrNegativePrice)
  else match nodes s !! nodeID with
  | None => (s, Err ErrUnknownNode)
  | Some n =>
    let n := set_Price n price in
    commit (set_nodes s (<[nodeID := n]> (nodes s))) "SetPrice" n io
  end.

Definition Store_Get (s : Store) (nodeID : string) : option Node := nodes s !! nodeID.

(** [List] and [Active] over the visited entries. *)
Definition Store_List (it : list (string * Node)) : list Node := map snd it.
Definition Store_Active (it : list (string * Node)) : list Node :=
  List.filter (fun n => String.eqb (Status n) StatusActive) (map snd it).

(** [Load]: a missing file keeps the store; invalid entries are skipped.  The
    pins are not part of the file. *)
Definition Store_Load (s : Store) : Store :=
  if String.eqb (path s) "" then s
  else match disk s with
       | None => s
       | Some snap =>
         set_nodes s (filter (fun e => is_ok (Validate e.2 (minBond s)) = true) snap ∪ nodes s)
       end.

(** ** Selection *)

Definition wPrice : float64 := f_const 30 100.
Definition wLatency : float64 := f_const 30 100.
Definition wLoad : float64 := f_const 15 100.
Definition wUptime : float64 := f_const 15 100.
Definition wHistory : float64 := f_const 10 100.

Record NodeStats := mkStats { LatencyMs : float64; Load : float64; Uptime : float64 }.

(** [History] is the optional scorer. *)
Record Criteria := mkCriteria {
  c_Region : string;
  MaxPricePerHour : float64;
  Stats : gmap string NodeStats;
  History : option (string → float64)
}.

Definition clip01 (v : float64) : float64 :=
  if f_lt v f0 then f0 else if f_gt v f1 then f1 else v.

Definition passes (c : Criteria) (n : Node) : bool :=
  if negb (String.eqb (c_Region c) "") && negb (String.eqb (Region n) (c_Region c)) then false
  else if f_gt (MaxPricePerHour c) f0 && f_gt (PricePerHourDERO n) (MaxPricePerHour c) then false
  else true.

Definition latOf (c : Criteria) (n : Node) : float64 :=
  match Stats c !! NodeID n with
  | Some st => if f_gt (LatencyMs st) f0 then LatencyMs st else f0
  | None => f0
  end.

Definition norm (v lo hi : float64) : float64 :=
  if f_le hi lo then f0 else f_div (f_sub v lo) (f_sub hi lo).

(** One candidate folded into the running minimum and maximum. *)
Definition widen (b : float64 * float64) (v : float64) : float64 * float64 :=
  (if f_lt v b.1 then v else b.1, if f_gt v b.2 then v else b.2).

Definition price_bounds (l : list Node) : float64 * float64 :=
  match l with
  | [] => (f0, f0)
  | n :: _ => foldl (fun b n => widen b (PricePerHourDERO n))
                (PricePerHourDERO n, PricePerHourDERO n) l
  end.

(** The first candidate initialises the latency bounds, the others widen them. *)
Definition latency_bounds (c : Criteria) (l : list Node) : float64 * float64 :=
  match l with
  | [] => (f0, f0)
  | n :: l' => foldl (fun b n => widen b (latOf c n)) (latOf c n, latOf c n) l'
  end.

Definition in_unit (v : float64) : bool := f_ge v f0 && f_le v f1.

Definition score_of (c : Criteria) (pb lb : float64 * float64) (n : Node) : float64 :=
  let '(lat, load, up) :=
    match Stats c !! NodeID n with
    | Some s2 =>
      (if f_gt (LatencyMs s2) f0 then norm (LatencyMs s2) lb.1 lb.2 else f_half,
       if in_unit (Load s2) then Load s2 else f_half,
       if in_unit (Uptime s2) then Uptime s2 else f_half)
    | None => (norm (latOf c n) lb.1 lb.2, f_half, f_half)
    end in
  let hist := match History c with Some h => clip01 (h (NodeID n)) | None => f_half end in
  (wPrice * norm (PricePerHourDERO n) pb.1 pb.2 + wLatency * lat + wLoad * clip01 load
   + wUptime * (f1 - clip01 up) - wHistory * hist)%f64.

(** The comparator: score, then price, then node id. *)
Definition better (x y : Node * float64) : bool :=
  if f_ne x.2 y.2 then f_lt x.2 y.2
  else if f_ne (PricePerHourDERO x.1) (PricePerHourDERO y.1)
       then f_lt (PricePerHourDERO x.1) (PricePerHourDERO y.1)
       else str_lt (NodeID x.1) (NodeID y.1).

Definition candidates (c : Criteria) (it : list (string * Node)) : list Node :=
  List.filter (passes c) (Store_Active it).

Definition scored (c : Criteria) (l : list Node) : list (Node * float64) :=
  map (fun n => (n, score_of c (price_bounds l) (latency_bounds c l) n)) l.

Definition Store_Select (c : Criteria) (it : list (string * Node)) : result error Node :=
  match sort_stable better (scored c (candidates c it)) with
  | [] => Err ErrNoCandidates
  | best :: _ => Ok best.1
  end.

(** [MapHistory]: a nil map and a missing key score neutrally. *)
Definition MapHistory_Score (m : option (gmap string float64)) (nodeID : string) : float64 :=
  match m with
  | None => f_half
  | Some m => match m !! nodeID with Some v => clip01 v | None => f_half end
  end.

(** ** Executions of one process *)

Section executions.
Context `{NodeJSON, Ed25519}.

Inductive step : Store → Store → Prop :=
| step_register s a io : step s (Store_Register s a io).1
| step_update s a io : step s (Store_Update s a io).1
| step_disable s id io : step s (Store_Disable s id io).1
| step_set_price s id p io : step s (Store_SetPrice s id p io).1
| step_load s : step s (Store_Load s).
End executions.

(** ** Lemmas *)

Definition valid_nodes (s : Store) : Prop :=
  ∀ id n, nodes s !! id = Some n → Validate n (minBond s) = Ok tt.

Lemma commit_frame s op n io :
  nodes (commit s op n io).1 = nodes s ∧ opKeys (commit s op n io).1 = opKeys s
  ∧ minBond (commit s op n io).1 = minBond s ∧ path (commit s op n io).1 = path s
  ∧ mirror (commit s op n io).1 = mirror s.
Proof. unfold commit, Store_save. by repeat case_match; simplify_eq/=. Qed.

(** A write that reports success left the file equal to the store and told
    the mirror. *)
Lemma commit_ok s op n io :
  (commit s op n io).2 = Ok tt →
  (path s ≠ "" → disk (commit s op n io).1 = Some (nodes s))
  ∧ (mirror s ≠ None → mirrored (commit s op n io).1 = mirrored s ++ [(op, n)]).
Proof.
  unfold commit, Store_save. destruct (String.eqb_spec (path s) "").
  - destruct (mirror s); simpl; done.
  - destruct io; [done|]. simpl. destruct (mirror s); simpl; done.
Qed.

Lemma commit_save_err s op n e :
  path s ≠ "" → commit s op n (Some e) = (s, Err (ErrSave e)).
Proof.
  intros Hp. unfold commit, Store_save. by rewrite (proj2 (String.eqb_neq _ _) Hp).
Qed.

Lemma validate_set_status n b : Validate n b = Ok tt → Validate (set_Status n StatusDisabled) b = Ok tt.
Proof.
  destruct n. unfold Validate, set_Status. simpl. intros Hv.
  branches Hv; done.
Qed.

Lemma validate_set_price n b p :
  f_lt p f0 = false → Validate n b = Ok tt → Validate (set_Price n p) b = Ok tt.
Proof.
  destruct n. unfold Validate, set_Price. simpl. intros Hp Hv. rewrite Hp.
  branches Hv; done.
Qed.

Lemma put_lookup s n op id :
  nodes (put s n op) !! id = if decide (NodeID n = id) then Some n else nodes s !! id.
Proof. unfold put. simpl. by rewrite lookup_insert. Qed.

Lemma put_pins s n op id k :
  opKeys s !! id = Some k → opKeys (put s n op) !! id = Some k.
Proof.
  intros Hk. unfold put. simpl. destruct (opKeys s !! NodeID n) eqn:E; [done|].
  rewrite lookup_insert_ne; [done | congruence].
Qed.

Section store_lemmas.
Context `{NodeJSON, Ed25519}.

Lemma verify_inv a n op : Verify a = Ok (n, op) →
  op = OperatorKey a ∧ ed25519_Verify op (Payload a) (Signature a) = true
  ∧ unmarshalNode (Payload a) = Some n ∧ len op = 32 ∧ len (Signature a) = 64.
Proof.
  unfold Verify. intros Hv. branches Hv. simplify_eq. zbool. done.
Qed.

(** What a write by announcement does to the two maps. *)
Lemma register_cases s a io :
  (Store_Register s a io).1 = s
  ∨ ∃ n op, Verify a = Ok (n, op) ∧ Validate n (minBond s) = Ok tt ∧ nodes s !! NodeID n = None
      ∧ Store_Register s a io = commit (put s n op) "RegisterNode" n io.
Proof.
  unfold Store_Register. destruct (Verify a) as [[n op]|]; [|by left].
  destruct (Validate n (minBond s)) as [[]|] eqn:Ev; [|by left].
  destruct (nodes s !! NodeID n) eqn:En; [by left|]. right. eauto 10.
Qed.

Lemma update_cases s a io :
  (Store_Update s a io).1 = s
  ∨ ∃ n op, Verify a = Ok (n, op) ∧ Validate n (minBond s) = Ok tt
      ∧ is_Some (nodes s !! NodeID n) ∧ checkKeyContinuity s n op = Ok tt
      ∧ Store_Update s a io = commit (put s n op) "UpdateNode" n io.
Proof.
  unfold Store_Update. destruct (Verify a) as [[n op]|]; [|by left].
  destruct (Validate n (minBond s)) as [[]|] eqn:Ev; [|by left].
  destruct (nodes s !! NodeID n) eqn:En; [|by left].
  destruct (checkKeyContinuity s n op) as [[]|] eqn:Ec; [|by left]. right. eauto 10.
Qed.

Lemma valid_put s n op : Validate n (minBond s) = Ok tt → valid_nodes s → valid_nodes (put s n op).
Proof.
  intros Hv Hs id n'. rewrite put_lookup. case_decide; [by intros [= <-] | apply Hs].
Qed.

Lemma valid_commit s op n io : valid_nodes s → valid_nodes (commit s op n io).1.
Proof.
  intros Hs id n'. destruct (commit_frame s op n io) as (-> & _ & -> & _). apply Hs.
Qed.

Lemma valid_set_nodes s id n :
  Validate n (minBond s) = Ok tt → valid_nodes s → valid_nodes (set_nodes s (<[id := n]> (nodes s))).
Proof.
  intros Hv Hs id' n'. simpl. rewrite lookup_insert. case_decide; [by intros [= <-] | apply Hs].
Qed.

Lemma valid_step s s' : step s s' → valid_nodes s → valid_nodes s'.
Proof.
  intros Hst Hs. destruct Hst as [s a io|s a io|s id io|s id p io|s].
  - destruct (register_cases s a io) as [->|(n & op & _ & Hv & _ & ->)]; [done|].
    by apply valid_commit, valid_put.
  - destruct (update_cases s a io) as [->|(n & op & _ & Hv & _ & _ & ->)]; [done|].
    by apply valid_commit, valid_put.
  - unfold Store_Disable. destruct (nodes s !! id) eqn:E; [|done].
    apply valid_commit, valid_set_nodes; [|done]. eapply validate_set_status, Hs; eauto.
  - unfold Store_SetPrice. destruct (f_lt p f0) eqn:Ep; [done|].
    destruct (nodes s !! id) eqn:E; [|done].
    apply valid_commit, valid_set_nodes; [|done]. eapply validate_set_price, Hs; eauto.
  - unfold Store_Load. destruct (String.eqb _ _); [done|]. destruct (disk s) as [snap|]; [|done].
    intros id n. simpl. intros [Hf|[_ Hn]]%lookup_union_Some_raw; [|by eapply Hs].
    apply map_lookup_filter_Some in Hf as [_ Hf]. simpl in Hf.
    by destruct (Validate n (minBond s)) as [[]|].
Qed.

Lemma pins_step s s' id k : step s s' → opKeys s !! id = Some k → opKeys s' !! id = Some k.
Proof.
  intros Hst Hk. destruct Hst as [s a io|s a io|s id' io|s id' p io|s].
  - destruct (register_cases s a io) as [->|(n & op & _ & _ & _ & ->)]; [done|].
    destruct (commit_frame (put s n op) "RegisterNode" n io) as (_ & -> & _). by apply put_pins.
  - destruct (update_cases s a io) as [->|(n & op & _ & _ & _ & _ & ->)]; [done|].
    destruct (commit_frame (put s n op) "UpdateNode" n io) as (_ & -> & _). by apply put_pins.
  - unfold Store_Disable. destruct (nodes s !! id'); [|done].
    by match goal with |- context [commit ?a ?b ?c ?d] =>
      destruct (commit_frame a b c d) as (_ & -> & _) end.
  - unfold Store_SetPrice. destruct (f_lt p f0); [done|]. destruct (nodes s !! id'); [|done].
    by match goal with |- context [commit ?a ?b ?c ?d] =>
      destruct (commit_frame a b c d) as (_ & -> & _) end.
  - unfold Store_Load. by repeat case_match.
Qed.

Lemma pins_steps s s' id k : rtc step s s' → opKeys s !! id = Some k → opKeys s' !! id = Some k.
Proof. induction 1; eauto using pins_step. Qed.

(** Nodes are never forgotten, and a pinned id is a known node. *)
Definition pins_known (s : Store) : Prop :=
  ∀ id, is_Some (opKeys s !! id) → is_Some (nodes s !! id).

Lemma pins_known_put s n op : pins_known s → pins_known (put s n op).
Proof.
  intros Hs id. rewrite put_lookup. case_decide as Hid; [eauto|]. intros Hk. apply Hs.
  unfold put in Hk. simpl in Hk. destruct (opKeys s !! NodeID n); [done|].
  by rewrite lookup_insert_ne in Hk.
Qed.

Lemma pins_known_commit s op n io : pins_known s → pins_known (commit s op n io).1.
Proof.
  intros Hs id. destruct (commit_frame s op n io) as (-> & -> & _). apply Hs.
Qed.

Lemma pins_known_set s id n : pins_known s → pins_known (set_nodes s (<[id := n]> (nodes s))).
Proof.
  intros Hs id'. simpl. intros Hk. rewrite lookup_insert. case_decide; [eauto | by apply Hs].
Qed.

Lemma pins_known_step s s' : step s s' → pins_known s → pins_known s'.
Proof.
  intros Hst Hs. destruct Hst as [s a io|s a io|s id io|s id p io|s].
  - destruct (register_cases s a io) as [->|(n & op & _ & _ & _ & ->)]; [done|].
    by apply pins_known_commit, pins_known_put.
  - destruct (update_cases s a io) as [->|(n & op & _ & _ & _ & _ & ->)]; [done|].
    by apply pins_known_commit, pins_known_put.
  - unfold Store_Disable. destruct (nodes s !! id); [|done].
    by apply pins_known_commit, pins_known_set.
  - unfold Store_SetPrice. destruct (f_lt p f0); [done|]. destruct (nodes s !! id); [|done].
    by apply pins_known_commit, pins_known_set.
  - unfold Store_Load. destruct (String.eqb _ _); [done|]. destruct (disk s); [|done].
    intros id Hk. apply lookup_union_is_Some. right. by apply Hs.
Qed.

Lemma pins_known_steps s s' : rtc step s s' → pins_known s → pins_known s'.
Proof. induction 1; eauto using pins_known_step. Qed.

Lemma pins_known_new p mr b d : pins_known (NewStore p mr b d).
Proof. intros id. simpl. rewrite lookup_empty. by intros []. Qed.

Lemma valid_nodes_new p mr b d : valid_nodes (NewStore p mr b d).
Proof. intros id n. simpl. by rewrite lookup_empty. Qed.

Lemma valid_steps s s' : rtc step s s' → valid_nodes s → valid_nodes s'.
Proof. induction 1; eauto using valid_step. Qed.
End store_lemmas.

(** The comparator is a strict weak order where scores and prices are numbers. *)
Definition comparable (x : Node * float64) : Prop :=
  not_nan x.2 ∧ not_nan (PricePerHourDERO x.1).

Definition better_key (x : Node * float64) : (Z * Z * Z) * (Z * Z * Z) :=
  (order_key x.2, order_key (PricePerHourDERO x.1)).

Lemma better_iff x y : comparable x → comparable y →
  better x y = true ↔
  key_lt (better_key x).1 (better_key y).1
  ∨ ((better_key x).1 = (better_key y).1
     ∧ (key_lt (better_key x).2 (better_key y).2
        ∨ ((better_key x).2 = (better_key y).2
           ∧ str_lt (NodeID x.1) (NodeID y.1) = true))).
Proof.
  intros [Hx1 Hx2] [Hy1 Hy2]. unfold better, better_key, f_ne. simpl.
  destruct (f_eq x.2 y.2) eqn:E1; simpl.
  - apply f_eq_key in E1; [|done..]. rewrite E1.
    assert (∀ k, ¬ key_lt k k) as Hirr by (intros [[? ?] ?]; unfold key_lt; lia).
    destruct (f_eq (PricePerHourDERO x.1) _) eqn:E2; simpl.
    + apply f_eq_key in E2; [|done..]. rewrite E2. naive_solver.
    + assert (order_key (PricePerHourDERO x.1) ≠ order_key (PricePerHourDERO y.1)) as Hne.
      { intros Hk. apply f_eq_key in Hk; [|done..]. congruence. }
      rewrite f_lt_key by done. naive_solver.
  - assert (order_key x.2 ≠ order_key y.2) as Hne.
    { intros Hk. apply f_eq_key in Hk; [|done..]. congruence. }
    rewrite f_lt_key by done. naive_solver.
Qed.

Lemma better_total x y : comparable x → comparable y →
  better x y = false → better y x = false →
  better_key x = better_key y ∧ NodeID x.1 = NodeID y.1.
Proof.
  intros Hx Hy. rewrite <- !not_true_iff_false, !better_iff by done. unfold key_lt.
  destruct (better_key x) as [[[a1 a2] a3] [[a4 a5] a6]],
    (better_key y) as [[[b1 b2] b3] [[b4 b5] b6]]; simpl. intros H1 H2.
  assert (a1 = b1 ∧ a2 = b2 ∧ a3 = b3) as (-> & -> & ->) by lia.
  assert (¬ (a4 < b4 ∨ a4 = b4 ∧ (a5 < b5 ∨ a5 = b5 ∧ a6 < b6))) by (intros ?; apply H1; auto).
  assert (¬ (b4 < a4 ∨ b4 = a4 ∧ (b5 < a5 ∨ b5 = a5 ∧ b6 < a6))) by (intros ?; apply H2; auto).
  assert (a4 = b4 ∧ a5 = b5 ∧ a6 = b6) as (-> & -> & ->) by lia.
  split; [done|]. apply str_lt_total; apply not_true_iff_false; naive_solver.
Qed.

Lemma better_trans x y z : comparable x → comparable y → comparable z →
  better x y = true → better y z = true → better x z = true.
Proof.
  intros Hx Hy Hz. rewrite !better_iff by done. unfold key_lt.
  destruct (better_key x) as [[[? ?] ?] [[? ?] ?]], (better_key y) as [[[? ?] ?] [[? ?] ?]],
    (better_key z) as [[[? ?] ?] [[? ?] ?]]; simpl.
  intros [H1|[H1 [H1'|[H1' H1'']]]] [H2|[H2 [H2'|[H2' H2'']]]]; simplify_eq; try (left; lia);
    right; (split; [congruence|]); try (left; lia).
  right. split; [done|].
  by apply (sw_trans (less := str_lt) (P := fun _ => True) _ (NodeID y.1)).
Qed.

#[export] Instance better_strict_weak : StrictWeak better comparable.
Proof.
  split.
  - intros x Hx. apply not_true_iff_false. rewrite better_iff by done.
    unfold key_lt. destruct (better_key x) as [[[? ?] ?] [[? ?] ?]]; simpl.
    intros [H|[_ [H|[_ H]]]]; [lia | lia |].
    by rewrite (sw_irrefl (less := str_lt) (P := fun _ => True)) in H.
  - apply better_trans.
  - intros x y z Hx Hy Hz H1 H2. destruct (better x z) eqn:E; [|done].
    destruct (better y x) eqn:E1; [by rewrite (better_trans y x z) in H2|].
    destruct (better_total x y Hx Hy H1 E1) as [Hk Hid].
    rewrite <- not_true_iff_false, better_iff in H2 by done.
    rewrite better_iff, Hk, Hid in E by done. done.
Qed.

Lemma scored_elem c l x : x ∈ scored c l ↔
  x.1 ∈ l ∧ x.2 = score_of c (price_bounds l) (latency_bounds c l) x.1.
Proof.
  unfold scored. rewrite list_elem_of_In, in_map_iff. split.
  - intros (n & <- & Hn). by apply list_elem_of_In in Hn.
  - intros [Hin Hs]. exists x.1. split; [|by apply list_elem_of_In].
    destruct x; simpl in *; congruence.
Qed.

Lemma candidates_elem c it n : n ∈ candidates c it ↔
  passes c n = true ∧ Status n = StatusActive ∧ n ∈ map snd it.
Proof.
  unfold candidates, Store_Active. rewrite !list_elem_of_In, !filter_In, String.eqb_eq. tauto.
Qed.

(** ** Concrete values *)

Definition demo_key : string := "AAAAAAAAAAAAAAAAAAAAAAAAAAAAAAAAAAAAAAAAAAA=".
Definition demo_node (id : string) : Node :=
  mkNode id demo_key "eu" "DE" "Berlin" "198.51.100.7:51820" (f_const 1 2) 10 1 (f_of_Z 50)
    StatusActive "1".
Definition toy_json : NodeJSON := {|
  canonicalJSON := fun n => Some (NodeID n);
  unmarshalNode := fun s => Some (demo_node s)
|}.
Definition demo_priv (c : Ascii.ascii) : string := of_chars (replicate 64 c).
Definition demo_announcement (c : Ascii.ascii) : Announcement :=
  match @Sign toy_json toy_ed25519 (demo_node "n1") (demo_priv c) with
  | Ok a => a
  | Err _ => mkAnnouncement "" "" ""
  end.
Definition demo_store (mirror : option (string → Node → option string)) : Store :=
  NewStore "reg.json" mirror f0 None.
Definition demo_registered : Store :=
  (@Store_Register toy_json toy_ed25519 (demo_store None) (demo_announcement "a"%char) None).1.

(** ** Properties *)

(** C7: Key continuity.  Once an operator key is pinned to a node id, in every
    later state of the process [Register] cannot touch that node, and
    [Update] changes it only for an announcement that carries exactly the
    pinned key and a signature that verifies under it; what is then stored
    is the announced node, which passed validation. *)
Theorem pinned_key_controls_node `{NodeJSON, Ed25519} p mr b d s s' id k a io :
  rtc step (NewStore p mr b d) s → opKeys s !! id = Some k → rtc step s s' →
  nodes (Store_Register s' a io).1 !! id = nodes s' !! id
  ∧ (nodes (Store_Update s' a io).1 !! id ≠ nodes s' !! id →
     OperatorKey a = k ∧ ed25519_Verify k (Payload a) (Signature a) = true
     ∧ ∃ n, unmarshalNode (Payload a) = Some n ∧ NodeID n = id
         ∧ Validate n (minBond s') = Ok tt
         ∧ nodes (Store_Update s' a io).1 !! id = Some n).
Proof.
  intros H0s Hk Hs.
  assert (pins_known s') as Hpk.
  { eapply pins_known_steps; [exact Hs|]. eapply pins_known_steps; [exact H0s|].
    apply pins_known_new. }
  pose proof (pins_steps _ _ _ _ Hs Hk) as Hk'. split.
  - destruct (register_cases s' a io) as [->|(n & op & _ & _ & Hn & ->)]; [done|].
    destruct (commit_frame (put s' n op) "RegisterNode" n io) as (-> & _).
    rewrite put_lookup. case_decide as Hid; [|done]. subst.
    destruct (Hpk (NodeID n)); [eauto | congruence].
  - destruct (update_cases s' a io) as [->|(n & op & Hv & Hval & _ & Hc & ->)]; [done|].
    destruct (commit_frame (put s' n op) "UpdateNode" n io) as (-> & _).
    rewrite put_lookup. case_decide as Hid; [|done]. intros _.
    apply verify_inv in Hv as (-> & Hsig & Hu & _). subst id.
    unfold checkKeyContinuity in Hc. rewrite Hk' in Hc.
    destruct (String.eqb_spec k (OperatorKey a)) as [->|]; [|done]. eauto 10.
Qed.

(** Every node the store ever holds passed validation: registering,
    updating, disabling, repricing and loading the file (corrupt entries
    included) keep the invariant. *)
Theorem stored_nodes_valid `{NodeJSON, Ed25519} p mr b d s :
  rtc step (NewStore p mr b d) s → valid_nodes s.
Proof. intros Hs. eapply valid_steps; [exact Hs | apply valid_nodes_new]. Qed.

(** Round trip.  Signing a node and verifying the announcement gives the
    node and the signer's public key back, whenever the JSON encoding of the
    node decodes. *)
Theorem sign_verify_roundtrip `{NodeJSON, Ed25519} n priv a :
  Sign n priv = Ok a → unmarshalNode (Payload a) = Some n →
  Verify a = Ok (n, ed25519_Public priv).
Proof.
  unfold Sign. destruct (len priv =? ed25519_PrivateKeySize) eqn:Hl; [|done]. simpl.
  destruct (canonicalJSON n) as [payload|]; [|done]. intros [= <-] Hu. simpl in Hu.
  unfold Verify. simpl. rewrite ed25519_public_size, ed25519_sig_size. simpl.
  rewrite ed25519_correct by (by apply Z.eqb_eq). simpl. by rewrite Hu.
Qed.

(** [Register] is not atomic.  When the file cannot be written the call
    reports an error but the node is already registered and pinned in
    memory; the retry is refused as a duplicate, so the node never reaches
    the file through [Register] nor the chain mirror as RegisterNode. *)
Theorem register_not_atomic `{NodeJSON, Ed25519} s a n op e io :
  Verify a = Ok (n, op) → Validate n (minBond s) = Ok tt →
  nodes s !! NodeID n = None → opKeys s !! NodeID n = None → path s ≠ "" →
  let r := Store_Register s a (Some e) in
  r.2 = Err (ErrSave e) ∧ nodes r.1 !! NodeID n = Some n ∧ disk r.1 = disk s
  ∧ mirrored r.1 = mirrored s
  ∧ Store_Register r.1 a io = (r.1, Err ErrAlreadyRegistered).
Proof.
  intros Hv Hval Hn Hk Hp.
  assert (Store_Register s a (Some e) = (put s n op, Err (ErrSave e))) as Hr.
  { unfold Store_Register. rewrite Hv, Hval, Hn. by apply commit_save_err. }
  rewrite Hr. simpl. rewrite lookup_insert_eq. repeat split.
  unfold Store_Register. rewrite Hv. simpl. rewrite Hval, lookup_insert_eq.
  unfold checkKeyContinuity. simpl. rewrite Hk, lookup_insert_eq, String.eqb_refl. done.
Qed.

(** Selection is optimal.  [Select] fails exactly when no active node
    passes the filters; otherwise it returns a candidate that no other
    candidate beats on (score, price, node id), for any order the map is
    visited in, provided the scores and prices are numbers. *)
Theorem select_best c it :
  Forall comparable (scored c (candidates c it)) →
  match Store_Select c it with
  | Err e => e = ErrNoCandidates ∧ candidates c it = []
  | Ok n =>
    n ∈ map snd it ∧ Status n = StatusActive ∧ passes c n = true
    ∧ ∀ n', n' ∈ candidates c it →
        let sc := score_of c (price_bounds (candidates c it)) (latency_bounds c (candidates c it)) in
        better (n', sc n') (n, sc n) = false
  end.
Proof.
  intros HP. unfold Store_Select.
  destruct (sort_stable better (scored c (candidates c it))) as [|best rest] eqn:E.
  - split; [done|]. pose proof (sort_stable_perm better (scored c (candidates c it))) as Hp.
    rewrite E in Hp. apply Permutation_nil_l in Hp. by destruct (candidates c it).
  - destruct (sort_stable_head better comparable _ _ _ HP E) as [Hin Hbest].
    apply scored_elem in Hin as [Hc Hs]. pose proof (proj1 (candidates_elem c it _) Hc) as (? & ? & ?).
    repeat split; try done. intros n' Hn'. cbv zeta.
    rewrite <- Hs, <- (surjective_pairing best). apply Hbest, scored_elem. done.
Qed.

(** A node with a measured 50 ms round trip, and an identical one the client
    has no statistics for. *)
Definition demo_criteria : Criteria :=
  mkCriteria "" f0 {["measured" := mkStats (f_of_Z 50) f_half f_half]} None.
Definition demo_nodes : list (string * Node) :=
  [("measured", demo_node "measured"); ("unknown", demo_node "unknown")].

(** A node without statistics does not score neutrally on latency: it is
    given latency 0, the minimum, so its latency term is the best possible
    one and it beats an otherwise identical measured node. *)
Theorem unknown_latency_scores_best :
  let l := candidates demo_criteria demo_nodes in
  Store_Select demo_criteria demo_nodes = Ok (demo_node "unknown")
  ∧ norm (latOf demo_criteria (demo_node "unknown")) (latency_bounds demo_criteria l).1
      (latency_bounds demo_criteria l).2 = f0
  ∧ f_eq (norm (latOf demo_criteria (demo_node "measured")) (latency_bounds demo_criteria l).1
      (latency_bounds demo_criteria l).2) f1 = true.
Proof. vm_compute. done. Qed.

(** ** Witnesses *)

Lemma pinned_key_controls_node_witness :
  nodes (@Store_Register toy_json toy_ed25519 demo_registered (demo_announcement "b"%char) None).1
    !! "n1" = nodes demo_registered !! "n1".
Proof.
  apply (@pinned_key_controls_node toy_json toy_ed25519 "reg.json" None f0 None
    demo_registered demo_registered "n1" (toy_public (demo_priv "a"%char)));
    [|vm_compute; reflexivity|apply rtc_refl].
  eapply rtc_l; [|apply rtc_refl]. apply step_register.
Defined.

Lemma stored_nodes_valid_witness : Validate (demo_node "n1") (minBond demo_registered) = Ok tt.
Proof.
  apply (@stored_nodes_valid toy_json toy_ed25519 "reg.json" None f0 None demo_registered)
    with (id := "n1"); [|vm_compute; reflexivity].
  eapply rtc_l; [|apply rtc_refl]. apply step_register.
Defined.

Lemma sign_verify_roundtrip_witness :
  @Verify toy_json toy_ed25519 (demo_announcement "a"%char)
  = Ok (demo_node "n1", toy_public (demo_priv "a"%char)).
Proof.
  apply (@sign_verify_roundtrip toy_json toy_ed25519 (demo_node "n1") (demo_priv "a"%char));
    vm_compute; reflexivity.
Defined.

Lemma register_not_atomic_witness :
  (@Store_Register toy_json toy_ed25519 (demo_store None) (demo_announcement "a"%char)
    (Some "disk full")).2 = Err (ErrSave "disk full").
Proof.
  apply (@register_not_atomic toy_json toy_ed25519 (demo_store None) (demo_announcement "a"%char)
    (demo_node "n1") (toy_public (demo_priv "a"%char)) "disk full" None);
    try (vm_compute; reflexivity). discriminate.
Defined.

Lemma select_best_witness :
  match Store_Select demo_criteria demo_nodes with
  | Ok n => Status n = StatusActive
  | Err _ => False
  end.
Proof.
  pose proof (select_best demo_criteria demo_nodes) as Hb.
  rewrite (proj1 unknown_latency_scores_best) in *.
  apply Hb. vm_compute. repeat constructor.
Defined.
