(* ===== verification/Payments.v ===== *)
(** * Payments: prepaid credit, receipts and settlement (internal/payments/payments.go)

    The flow user approval, funding, token, node-signed receipts, aggregate
    settlement.  The wallet is any instance of [Dero.WalletClient]; the
    approver is the user's answer to the dialog; the token issuer and the
    registry are the components modelled in [Tokens] and [Registry].
    [RecordSettlement] takes the service lock twice, around collecting the
    batch and around committing it, so the two halves are separate
    definitions whose interleavings can be written down. *)

From Stdlib Require Import ZArith Lia Ascii.
From S2P Require Import Prelude Float64 GoStrings Crypto.
From S2P Require Dero Tokens Registry.
From S2P Require Import Dero.

(** ** Data *)

Inductive error :=
| ErrUnknownNode | ErrNodeNotActive | ErrOperatorRequired | ErrInsufficient
| ErrApprover (e : string) | ErrRejected
| ErrSessionAndNode | ErrDeposit | ErrNegativePrice
| ErrDero (e : Dero.error) | ErrToken (e : Tokens.error)
| ErrPrivateKeySize | ErrPublicKeySize | ErrSignatureSize | ErrSignature
| ErrReceiptID | ErrNegativeAmount | ErrDuplicate | ErrPendingOverflow | ErrExceedsCredit
| ErrNothingToSettle | ErrTotalOverflow | ErrNegativeTotal.

(** [Decision] is a string type: an approver may return any value. *)
Definition Decision : Type := string.
Definition DecisionAuthorise : string := "AUTHORISE".
Definition DecisionReject : string := "REJECT".

Record ApprovalPayload := mkApproval {
  ap_NodeID : string;
  ap_Endpoint : string;
  ap_OperatorAddr : string;
  ap_DepositDERO : float64;
  ap_PricePerHour : float64;
  ap_EstHours : float64;
  ap_Network : string;
  ap_WalletBalance : float64
}.

Definition Approval_Estimate (price deposit : float64) : float64 :=
  if f_le price f0 then f_neg1 else f_div deposit price.

(** An approver renders the payload and returns the verdict or an error. *)
Definition Approver : Type := ApprovalPayload → result string Decision.
Definition AutoApprover : Approver := fun _ => Ok DecisionAuthorise.
Definition NeverApprover : Approver := fun _ => Ok DecisionReject.

Record Prepaid := mkPrepaid {
  pp_SessionID : string;
  pp_NodeID : string;
  DepositAtomic : Z;
  SpentAtomic : Z;
  pp_PricePerHour : float64;
  FundedAt : time;
  FundingTXID : string
}.

Definition NewPrepaid `{GoArch} (sessionID nodeID : string) (depositDERO price : float64)
  (now : time) : result error Prepaid :=
  if String.eqb sessionID "" || String.eqb nodeID "" then Err ErrSessionAndNode
  else
    let dep := ToAtomic depositDERO in
    if dep <=? 0 then Err ErrDeposit
    else if f_lt price f0 then Err ErrNegativePrice
    else Ok (mkPrepaid sessionID nodeID dep 0 price now "").

Definition Prepaid_QuotaHours (p : Prepaid) : float64 :=
  if f_le (pp_PricePerHour p) f0 then f_neg1
  else f_div (FromAtomic (DepositAtomic p)) (pp_PricePerHour p).

Definition Prepaid_RemainingAtomic (p : Prepaid) : Z :=
  wrap_i64 (DepositAtomic p - SpentAtomic p).

Definition set_txid (p : Prepaid) (tx : string) : Prepaid :=
  mkPrepaid (pp_SessionID p) (pp_NodeID p) (DepositAtomic p) (SpentAtomic p)
    (pp_PricePerHour p) (FundedAt p) tx.
Definition set_spent (p : Prepaid) (z : Z) : Prepaid :=
  mkPrepaid (pp_SessionID p) (pp_NodeID p) (DepositAtomic p) z
    (pp_PricePerHour p) (FundedAt p) (FundingTXID p).

(** [RxBytes], [TxBytes] and [Minutes] are uint64, [Amount] is int64. *)
Record Receipt := mkReceipt {
  rc_ID : string;
  rc_SessionID : string;
  rc_NodeID : string;
  rc_TokenID : string;
  RxBytes : Z;
  TxBytes : Z;
  Minutes : Z;
  Amount : Z;
  Settled : bool;
  NodePub : string;
  Sig : string
}.

Definition zero_receipt : Receipt := mkReceipt "" "" "" "" 0 0 0 0 false "" "".
Definition set_settled (r : Receipt) : Receipt :=
  mkReceipt (rc_ID r) (rc_SessionID r) (rc_NodeID r) (rc_TokenID r) (RxBytes r) (TxBytes r)
    (Minutes r) (Amount r) true (NodePub r) (Sig r).
Definition set_sig (r : Receipt) (pub sig : string) : Receipt :=
  mkReceipt (rc_ID r) (rc_SessionID r) (rc_NodeID r) (rc_TokenID r) (RxBytes r) (TxBytes r)
    (Minutes r) (Amount r) (Settled r) pub sig.

Definition receipt_fields (r : Receipt) : list string :=
  [rc_ID r; rc_SessionID r; rc_NodeID r; rc_TokenID r;
   fmt_d (RxBytes r); fmt_d (TxBytes r); fmt_d (Minutes r); fmt_d (Amount r)].

(** The eight fields with a bar between them. *)
Definition receiptBody (r : Receipt) : string := strings_Join (receipt_fields r) "|".

Definition SignReceipt `{Ed25519} (r : Receipt) (priv : string) : result error Receipt :=
  if negb (len priv =? ed25519_PrivateKeySize) then Err ErrPrivateKeySize
  else
    let r := set_sig r (ed25519_Public priv) (Sig r) in
    Ok (set_sig r (NodePub r) (ed25519_Sign priv (receiptBody r))).

Definition VerifyReceipt `{Ed25519} (r : Receipt) : result error unit :=
  if negb (len (NodePub r) =? ed25519_PublicKeySize) then Err ErrPublicKeySize
  else if negb (len (Sig r) =? ed25519_SignatureSize) then Err ErrSignatureSize
  else if negb (ed25519_Verify (NodePub r) (receiptBody r) (Sig r)) then Err ErrSignature
  else Ok tt.

Record Settlement := mkSettlement {
  st_ID : string;
  st_NodeID : string;
  ReceiptIDs : list string;
  Total : Z;
  TXID : string;
  At : time
}.

(** What the service publishes on the event bus. *)
Inductive event :=
| PAYMENT_REQUESTED (p : ApprovalPayload)
| PAYMENT_CONFIRMED (p : ApprovalPayload)
| SESSION_AUTHORIZED (id : string).

Record Grant := mkGrant {
  gr_Approval : ApprovalPayload; gr_Credit : Prepaid; gr_Token : Tokens.Token }.

(** The random bytes and clock readings of one [Authorize]. *)
Record io := mkIO {
  io_id : option (list Z); io_secret : option (list Z); io_funded : time; io_minted : time }.

Section service.
Context {W : Type} `{WalletClient W} `{GoArch, Sha256, Ed25519}.

(** ** The service *)

Record Service := mkService {
  wallet : option W;
  issuer : Tokens.Issuer;
  reg : option Registry.Store;
  approver : Approver;
  network : Network;
  scid : string;
  prepaid : gmap string Prepaid;
  receipts : gmap string Receipt;
  settled : list Settlement;
  bus : list event
}.

Definition NewService (w : option W) (iss : option Tokens.Issuer) (r : option Registry.Store)
  (app : option Approver) (net : Network) (sc : string) : Service :=
  mkService w (default Tokens.NewIssuer iss) r (default NeverApprover app)
    (if String.eqb net "" then NetworkDevMock else net) sc ∅ ∅ [] [].

Definition set_wallet (s : Service) (w : W) : Service :=
  mkService (Some w) (issuer s) (reg s) (approver s) (network s) (scid s) (prepaid s)
    (receipts s) (settled s) (bus s).
Definition set_issuer (s : Service) (i : Tokens.Issuer) : Service :=
  mkService (wallet s) i (reg s) (approver s) (network s) (scid s) (prepaid s)
    (receipts s) (settled s) (bus s).
Definition set_prepaid (s : Service) (m : gmap string Prepaid) : Service :=
  mkService (wallet s) (issuer s) (reg s) (approver s) (network s) (scid s) m
    (receipts s) (settled s) (bus s).
Definition set_receipts (s : Service) (m : gmap string Receipt) : Service :=
  mkService (wallet s) (issuer s) (reg s) (approver s) (network s) (scid s) (prepaid s)
    m (settled s) (bus s).
Definition set_settlements (s : Service) (l : list Settlement) : Service :=
  mkService (wallet s) (issuer s) (reg s) (approver s) (network s) (scid s) (prepaid s)
    (receipts s) l (bus s).
Definition publish (s : Service) (e : event) : Service :=
  mkService (wallet s) (issuer s) (reg s) (approver s) (network s) (scid s) (prepaid s)
    (receipts s) (settled s) (bus s ++ [e]).

(** Everything the wallet has accepted so far. *)
Definition spent_ledger (s : Service) : list submission :=
  match wallet s with Some w => ledger w | None => [] end.

(** *** Authorize *)

Definition resolve_node (s : Service) (nodeID : string) : result error (float64 * string) :=
  match reg s with
  | None => Ok (f0, "")
  | Some r =>
    match Registry.Store_Get r nodeID with
    | None => Err ErrUnknownNode
    | Some n =>
      if negb (String.eqb (Registry.Status n) Registry.StatusActive) then Err ErrNodeNotActive
      else Ok (Registry.PricePerHourDERO n, Registry.Endpoint n)
    end
  end.

(** The balance shown in the dialog; -1 without a wallet. *)
Definition check_funds (s : Service) (depositDERO : float64) : Service * result error float64 :=
  match wallet s with
  | None => (s, Ok f_neg1)
  | Some w =>
    let '(w, r) := GetBalance w in
    let s := set_wallet s w in
    match r with
    | Err e => (s, Err (ErrDero (fresh_chain e)))
    | Ok bal =>
      let unlocked := wrap_i64 (UnlockedBalance bal) in
      if unlocked <? ToAtomic depositDERO then (s, Err ErrInsufficient)
      else (s, Ok (FromAtomic unlocked))
    end
  end.

(** The funding transfer, built and submitted after the approval. *)
Definition fund (s : Service) (operatorAddr : string) (credit : Prepaid)
  : Service * result error Prepaid :=
  match wallet s with
  | None => (s, Ok (set_txid credit "demo-no-wallet"))
  | Some w =>
    match BuildTransfer (mkTransferRequest operatorAddr (wrap_u64 (DepositAtomic credit)))
            (network s) with
    | Err e => (s, Err (ErrDero e))
    | Ok u =>
      let '(w, r) := SubmitTransfer w u in
      let s := set_wallet s w in
      match r with
      | Err e => (s, Err (ErrDero (fresh_chain e)))
      | Ok txid => (s, Ok (set_txid credit txid))
      end
    end
  end.

Definition token_ttl (estHours : float64) : duration :=
  if f_gt estHours f0 then f_to_int64 (f_mul estHours (f_of_Z hour)) else 4 * hour.

Definition Service_Authorize (s : Service) (nodeID operatorAddr sessionID : string)
  (depositDERO : float64) (i : io) : Service * result error Grant :=
  match resolve_node s nodeID with
  | Err e => (s, Err e)
  | Ok (price, endpoint) =>
    if String.eqb operatorAddr "" then (s, Err ErrOperatorRequired)
    else
      match check_funds s depositDERO with
      | (s, Err e) => (s, Err e)
      | (s, Ok balanceDERO) =>
        let payload := mkApproval nodeID endpoint operatorAddr depositDERO price
                         (Approval_Estimate price depositDERO) (network s) balanceDERO in
        let s := publish s (PAYMENT_REQUESTED payload) in
        match approver s payload with
        | Err e => (s, Err (ErrApprover e))
        | Ok decision =>
          if negb (String.eqb decision DecisionAuthorise) then (s, Err ErrRejected)
          else
            match NewPrepaid sessionID nodeID depositDERO price (io_funded i) with
            | Err e => (s, Err e)
            | Ok credit =>
              match fund s operatorAddr credit with
              | (s, Err e) => (s, Err e)
              | (s, Ok credit) =>
                match Tokens.Issuer_Mint (issuer s) nodeID sessionID
                        (token_ttl (ap_EstHours payload)) Tokens.ScopeExit
                        (io_id i) (io_secret i) (io_minted i) with
                | (iss, Err e) => (set_issuer s iss, Err (ErrToken e))
                | (iss, Ok tok) =>
                  let s := set_issuer s iss in
                  let s := set_prepaid s (<[sessionID := credit]> (prepaid s)) in
                  let s := publish s (PAYMENT_CONFIRMED payload) in
                  let s := publish s (SESSION_AUTHORIZED (Tokens.Token_ID tok)) in
                  (s, Ok (mkGrant payload credit tok))
                end
              end
            end
        end
      end
  end.

(** *** Receipts *)

(** The amounts already pending for a session, [None] on overflow. *)
Fixpoint pending_total (sid : string) (it : list (string * Receipt)) (pending : Z) : option Z :=
  match it with
  | [] => Some pending
  | (_, e) :: it =>
    if String.eqb (rc_SessionID e) sid && negb (Settled e) then
      if pending >? wrap_i64 (max_int64 - Amount e) then None
      else pending_total sid it (wrap_i64 (pending + Amount e))
    else pending_total sid it pending
  end.

Definition Service_RecordReceipt (s : Service) (r : Receipt) (it : list (string * Receipt))
  : Service * result error unit :=
  match VerifyReceipt r with
  | Err e => (s, Err e)
  | Ok _ =>
    if String.eqb (rc_ID r) "" then (s, Err ErrReceiptID)
    else if Amount r <? 0 then (s, Err ErrNegativeAmount)
    else
      match receipts s !! rc_ID r with
      | Some _ => (s, Err ErrDuplicate)
      | None =>
        let store := (set_receipts s (<[rc_ID r := r]> (receipts s)), Ok tt) in
        match prepaid s !! rc_SessionID r with
        | None => store
        | Some p =>
          match pending_total (rc_SessionID r) it 0 with
          | None => (s, Err ErrPendingOverflow)
          | Some pending =>
            let remaining := wrap_i64 (Prepaid_RemainingAtomic p - pending) in
            if remaining <? Amount r then (s, Err ErrExceedsCredit) else store
          end
        end
      end
  end.

Definition unsettled_for (nodeID : string) (r : Receipt) : bool :=
  String.eqb (rc_NodeID r) nodeID && negb (Settled r).

Definition Service_Unsettled (nodeID : string) (it : list (string * Receipt)) : list Receipt :=
  filter (fun r => unsettled_for nodeID r = true) it.*2.

(** *** Settlement *)

Definition batchIDFor (ids : list string) : string :=
  "stl-" +:+ hex_EncodeToString (sha256_Sum256 (strings_Join (sort_Strings ids) ",")).

(** The checked aggregation: total and receipt ids in visiting order. *)
Fixpoint aggregate (batch : list Receipt) (total : Z) (ids : list string)
  : result error (Z * list string) :=
  match batch with
  | [] => if total <? 0 then Err ErrNegativeTotal else Ok (total, ids)
  | r :: batch =>
    if Amount r <? 0 then Err ErrNegativeAmount
    else if total >? wrap_i64 (max_int64 - Amount r) then Err ErrTotalOverflow
    else aggregate batch (wrap_i64 (total + Amount r)) (ids ++ [rc_ID r])
  end.

Definition settle_args (nodeID : string) (total : Z) (count : nat) (batchID : string) : list SCArg :=
  [mkSCArg "node_id" "S" (SCString nodeID);
   mkSCArg "total" "U" (SCUint64 (wrap_u64 total));
   mkSCArg "count" "U" (SCUint64 (Z.of_nat count));
   mkSCArg "batch_id" "S" (SCString batchID)].

Definition submit_settlement (s : Service) (nodeID : string) (total : Z) (count : nat)
  (batchID : string) : Service * result error string :=
  match wallet s with
  | Some w =>
    if String.eqb (scid s) "" then (s, Ok "demo-no-chain")
    else
      match BuildInvoke (scid s) "RecordSettlementIdem"
              (settle_args nodeID total count batchID) (network s) with
      | Err e => (s, Err (ErrDero e))
      | Ok u =>
        let '(w, r) := SubmitInvoke w u in
        (set_wallet s w, result_map_err (fun e => ErrDero (fresh_chain e)) r)
      end
  | None => (s, Ok "demo-no-chain")
  end.

Definition mark_settled (m : gmap string Receipt) (id : string) : gmap string Receipt :=
  <[id := set_settled (default zero_receipt (m !! id))]> m.

Definition charge (p : Prepaid) (amount : Z) : Prepaid :=
  let spent := if (0 <=? amount) && (SpentAtomic p <=? wrap_i64 (max_int64 - amount))
               then wrap_i64 (SpentAtomic p + amount) else max_int64 in
  set_spent p (if DepositAtomic p <? spent then DepositAtomic p else spent).

Definition attribute_spend (m : gmap string Prepaid) (r : Receipt) : gmap string Prepaid :=
  match m !! rc_SessionID r with
  | Some p => <[rc_SessionID r := charge p (Amount r)]> m
  | None => m
  end.

(** First critical section: collect the batch. *)
Definition settle_collect (nodeID : string) (it : list (string * Receipt)) : list Receipt :=
  Service_Unsettled nodeID it.

(** Between the critical sections: aggregate and submit. *)
Definition settle_submit (s : Service) (nodeID : string) (batch : list Receipt) (now : time)
  : Service * result error Settlement :=
  match batch with
  | [] => (s, Err ErrNothingToSettle)
  | _ =>
    match aggregate batch 0 [] with
    | Err e => (s, Err e)
    | Ok (total, ids) =>
      let batchID := batchIDFor ids in
      match submit_settlement s nodeID total (length batch) batchID with
      | (s, Err e) => (s, Err e)
      | (s, Ok txid) => (s, Ok (mkSettlement batchID nodeID ids total txid now))
      end
    end
  end.

(** Second critical section: mark, record, attribute the spend. *)
Definition settle_commit (s : Service) (batch : list Receipt) (st : Settlement) : Service :=
  let s := set_receipts s (foldl mark_settled (receipts s) (ReceiptIDs st)) in
  let s := set_settlements s (settled s ++ [st]) in
  set_prepaid s (foldl attribute_spend (prepaid s) batch).

Definition Service_RecordSettlement (s : Service) (nodeID : string)
  (it : list (string * Receipt)) (now : time) : Service * result error Settlement :=
  let batch := settle_collect nodeID it in
  match settle_submit s nodeID batch now with
  | (s, Err e) => (s, Err e)
  | (s, Ok st) => (settle_commit s batch st, Ok st)
  end.

(** ** Executions *)

(** One operation at a time; [sid] is a session that is not authorised again. *)
Inductive step (sid : string) : Service → Service → Prop :=
| step_authorize s n o sess d i : sess ≠ sid → step sid s (Service_Authorize s n o sess d i).1
| step_receipt s r it : range_of (receipts s) it → is_int64 (Amount r) →
    step sid s (Service_RecordReceipt s r it).1
| step_settle s n it now : range_of (receipts s) it →
    step sid s (Service_RecordSettlement s n it now).1.
End service.
Arguments Service W : clear implicits.
Arguments NewService {W}.

(** The demo wiring. *)
Definition NewDemoService (r : option Registry.Store) : Service MockWalletClient :=
  NewService (Some NewMockWallet) (Some Tokens.NewIssuer) r (Some AutoApprover)
    NetworkDevMock "devmock-veilnet-scid".

(** ** Receipt bodies *)

Lemma chars_bar s t : chars (s +:+ "|" +:+ t) = chars s ++ "|"%char :: chars t.
Proof. by rewrite !chars_app. Qed.

(** Joining fields that contain no separator loses nothing. *)
Lemma join_bar_inj l k :
  length l = length k → Forall (fun s => "|"%char ∉ chars s) l →
  Forall (fun s => "|"%char ∉ chars s) k → strings_Join l "|" = strings_Join k "|" → l = k.
Proof.
  revert k. induction l as [|s l IH]; intros [|t k] Hlen Hl Hk E; try done.
  apply Forall_cons in Hl as [Hs Hl]. apply Forall_cons in Hk as [Ht Hk].
  destruct l as [|s' l], k as [|t' k]; try done; [by simpl in E; subst|].
  assert (cut_first "|"%char (chars (strings_Join (s :: s' :: l) "|"))
          = cut_first "|"%char (chars (strings_Join (t :: t' :: k) "|"))) as Ec by by rewrite E.
  remember (s' :: l) as l' eqn:El. remember (t' :: k) as k' eqn:Ek.
  assert (∀ x r, r ≠ [] → strings_Join (x :: r) "|" = x +:+ "|" +:+ strings_Join r "|") as Hj.
  { by intros x [|? ?]. }
  rewrite !Hj, !chars_bar, !cut_first_app in Ec by (subst; done). injection Ec as Es Et.
  apply chars_inj in Es as ->. f_equal. apply IH; auto; by apply chars_inj.
Qed.

Lemma pretty_N_go_no_bar x s : "|"%char ∉ chars s → "|"%char ∉ chars (pretty.pretty_N_go x s).
Proof.
  revert s. induction (N.lt_wf_0 x) as [x _ IH]; intros s Hs.
  destruct (decide (0 < x)%N) as [Hx|Hx].
  - rewrite pretty.pretty_N_go_step by done. apply IH; [by apply N.div_lt|].
    simpl. intros [E|E]%elem_of_cons; [|done]. unfold pretty.pretty_N_char in E.
    revert E. by repeat case_match.
  - assert (x = 0%N) as -> by lia. by rewrite pretty.pretty_N_go_0.
Qed.

Lemma fmt_d_no_bar z : "|"%char ∉ chars (fmt_d z).
Proof.
  assert (∀ n : N, "|"%char ∉ chars (pretty n)) as HN.
  { intros n. unfold pretty, pretty.pretty_N. case_decide; [by vm_compute; set_solver|].
    apply pretty_N_go_no_bar. simpl. set_solver. }
  unfold fmt_d, pretty, pretty.pretty_Z. destruct z as [|p|p].
  - vm_compute. set_solver.
  - apply HN.
  - simpl. intros [E|E]%elem_of_cons; [done|]. by apply (HN (N.pos p)).
Qed.

Definition plain_ids (r : Receipt) : Prop :=
  Forall (fun s => "|"%char ∉ chars s) [rc_ID r; rc_SessionID r; rc_NodeID r; rc_TokenID r].

Lemma receipt_fields_plain r : plain_ids r → Forall (fun s => "|"%char ∉ chars s) (receipt_fields r).
Proof.
  unfold plain_ids, receipt_fields. rewrite !Forall_cons. intros (?&?&?&?&_).
  repeat (split; [by auto using fmt_d_no_bar|]). constructor.
Qed.

(** ** Pending amounts *)

(** What a receipt contributes to the pending total of a session. *)
Definition pending_of (sid : string) (r : Receipt) : Z :=
  if String.eqb (rc_SessionID r) sid && negb (Settled r) then Amount r else 0.
Definition pending_sum (sid : string) (m : gmap string Receipt) : Z :=
  sum_by (fun e => pending_of sid e.2) (map_to_list m).
Definition session_sum (sid : string) (batch : list Receipt) : Z :=
  sum_by (fun r => if String.eqb (rc_SessionID r) sid then Amount r else 0) batch.

(** Stored receipts are filed under their own id with a non-negative int64 amount. *)
Definition sound_receipts (m : gmap string Receipt) : Prop :=
  ∀ id r, m !! id = Some r → rc_ID r = id ∧ 0 ≤ Amount r ≤ max_int64.

#[global] Arguments session_sum : simpl never.

Lemma session_sum_cons sid r batch : session_sum sid (r :: batch)
  = (if String.eqb (rc_SessionID r) sid then Amount r else 0) + session_sum sid batch.
Proof. done. Qed.

Lemma session_sum_nonneg sid batch :
  Forall (fun r => 0 ≤ Amount r ≤ max_int64) batch → 0 ≤ session_sum sid batch.
Proof.
  intros Hb. apply sum_by_nonneg. eapply Forall_impl; [exact Hb|].
  simpl. intros x Hx. case_match; lia.
Qed.

Lemma pending_of_bounds sid r : 0 ≤ Amount r → 0 ≤ pending_of sid r ≤ Amount r.
Proof. unfold pending_of. case_match; lia. Qed.

Lemma pending_sum_nonneg sid m : sound_receipts m → 0 ≤ pending_sum sid m.
Proof.
  intros Hm. apply sum_by_nonneg, Forall_forall. intros [id r] Hin.
  apply elem_of_map_to_list in Hin. simpl. apply (pending_of_bounds sid r), (Hm id r Hin).
Qed.

Lemma pending_sum_insert sid m id r : m !! id = None →
  pending_sum sid (<[id := r]> m) = pending_of sid r + pending_sum sid m.
Proof. intros Hm. unfold pending_sum. by rewrite map_to_list_insert. Qed.

Lemma pending_sum_replace sid m id r r' : m !! id = Some r →
  pending_sum sid (<[id := r']> m) = pending_sum sid m - pending_of sid r + pending_of sid r'.
Proof.
  intros Hm. rewrite <- (insert_delete_id m id r Hm) at 2.
  rewrite <- insert_delete_eq, !pending_sum_insert by apply lookup_delete_eq. lia.
Qed.

(** The code's running total is the pending sum, or reports overflow exactly
    when that sum does not fit. *)
Lemma pending_total_spec sid it acc :
  Forall (fun e : string * Receipt => 0 ≤ Amount e.2 ≤ max_int64) it → 0 ≤ acc ≤ max_int64 →
  pending_total sid it acc =
  (let t := acc + sum_by (fun e => pending_of sid e.2) it in
   if t <=? max_int64 then Some t else None).
Proof.
  intros Hit. revert acc.
  induction Hit as [|[id r] it Hr Hit IH]; intros acc Hacc.
  { simpl. rewrite Z.add_0_r. by rewrite (proj2 (Z.leb_le _ _)) by lia. }
  assert (0 ≤ sum_by (fun e => pending_of sid e.2) it) as Hn.
  { apply sum_by_nonneg. eapply Forall_impl; [exact Hit|]. intros e He.
    apply (pending_of_bounds sid e.2), He. }
  rewrite sum_by_cons. cbn [pending_total snd] in *.
  assert (pending_of sid r = if String.eqb (rc_SessionID r) sid && negb (Settled r)
                             then Amount r else 0) as -> by done.
  destruct (String.eqb _ _ && negb _).
  - rewrite wrap_i64_id by (unwidth; lia). destruct (Z.gtb_spec acc (max_int64 - Amount r)).
    + by rewrite (proj2 (Z.leb_gt _ _)) by lia.
    + rewrite wrap_i64_id by (unwidth; lia). rewrite IH by lia. by rewrite <- Z.add_assoc.
  - rewrite IH by lia. done.
Qed.

(** ** Batches *)

Lemma batch_elem n m it id r : sound_receipts m → range_of m it → r ∈ settle_collect n it →
  rc_ID r = id → m !! id = Some r ∧ rc_NodeID r = n ∧ Settled r = false.
Proof.
  intros Hm Hit Hr Hid. unfold settle_collect, Service_Unsettled in Hr.
  apply list_elem_of_filter in Hr as [Hu Hr]. apply list_elem_of_fmap in Hr as [[k r'] [-> Hk]].
  rewrite (range_of_elem _ _ _ _ Hit) in Hk. simpl in *. unfold unsettled_for in Hu.
  apply andb_true_iff in Hu as [Hn Hs]. apply String.eqb_eq in Hn. apply negb_true_iff in Hs.
  destruct (Hm _ _ Hk) as [<- _]. by subst.
Qed.

Lemma batch_nodup n m it : sound_receipts m → range_of m it →
  NoDup (map rc_ID (settle_collect n it)).
Proof.
  intros Hm Hit. unfold settle_collect, Service_Unsettled.
  assert (∀ e, e ∈ it → rc_ID e.2 = e.1) as Hk.
  { intros [k r] He. rewrite (range_of_elem _ _ _ _ Hit) in He. by destruct (Hm _ _ He). }
  pose proof (range_of_nodup _ _ Hit) as Hd. clear Hit Hm.
  induction it as [|[k r] it IH]; simpl; [constructor|].
  simpl in Hd. apply NoDup_cons in Hd as [Hn Hd].
  assert (NoDup (map rc_ID (filter (λ r0, unsettled_for n r0 = true) it.*2))) as Hr.
  { apply IH; [|done]. intros e He. apply Hk. set_solver. }
  rewrite filter_cons. case_decide; [|done]. simpl. constructor; [|done].
  intros Hin. apply Hn. apply list_elem_of_fmap in Hin as [r' [E Hr']].
  apply list_elem_of_filter in Hr' as [_ Hr']. apply list_elem_of_fmap in Hr' as [e [-> He]].
  apply list_elem_of_fmap. exists e. split; [|done].
  rewrite <- (Hk e) by set_solver. rewrite <- E. symmetry. apply (Hk (k, r)). set_solver.
Qed.

Lemma aggregate_spec batch t ids :
  Forall (fun r => 0 ≤ Amount r ≤ max_int64) batch → 0 ≤ t ≤ max_int64 →
  aggregate batch t ids =
  (if t + sum_by Amount batch <=? max_int64
   then Ok (t + sum_by Amount batch, ids ++ map rc_ID batch) else Err ErrTotalOverflow).
Proof.
  intros Hb. revert t ids. induction Hb as [|r batch Hr Hb IH]; intros t ids Ht.
  { simpl. rewrite (proj2 (Z.ltb_ge _ _)) by lia. rewrite app_nil_r, Z.add_0_r. by rewrite (proj2 (Z.leb_le _ _)) by lia. }
  assert (0 ≤ sum_by Amount batch) as Hn.
  { apply sum_by_nonneg. eapply Forall_impl; [exact Hb|]. simpl. lia. }
  rewrite sum_by_cons. cbn [aggregate].
  rewrite (proj2 (Z.ltb_ge _ _)) by lia. rewrite wrap_i64_id by (unwidth; lia).
  destruct (Z.gtb_spec t (max_int64 - Amount r)).
  - by rewrite (proj2 (Z.leb_gt _ _)) by lia.
  - rewrite wrap_i64_id by (unwidth; lia). rewrite IH, <- Z.add_assoc by lia.
    cbn [map]. by rewrite <- app_assoc.
Qed.

Lemma aggregate_ok batch t ids t' ids' : aggregate batch t ids = Ok (t', ids') →
  ids' = ids ++ map rc_ID batch ∧ 0 ≤ t'.
Proof.
  revert t ids. induction batch as [|r batch IH]; intros t ids; simpl.
  - case_match; [done|]. intros [= <- <-]. rewrite app_nil_r. zbool. done.
  - case_match; [done|]. case_match; [done|]. intros E. apply IH in E as [-> Ht].
    by rewrite <- app_assoc.
Qed.

(** Marking a batch settles exactly its receipts. *)
Lemma mark_lookup ids m id :
  foldl mark_settled m ids !! id =
  if decide (id ∈ ids) then Some (set_settled (default zero_receipt (m !! id))) else m !! id.
Proof.
  revert m. induction ids as [|i ids IH]; intros m; cbn [foldl].
  { rewrite decide_False by set_solver. done. }
  rewrite IH. unfold mark_settled. destruct (decide (i = id)) as [->|Hne].
  - rewrite lookup_insert_eq, (decide_True (P := id ∈ id :: ids)) by set_solver.
    by case_decide.
  - rewrite lookup_insert_ne by done.
    destruct (decide (id ∈ ids)), (decide (id ∈ i :: ids)); set_solver.
Qed.

Lemma mark_sound ids m : sound_receipts m → (∀ id, id ∈ ids → is_Some (m !! id)) →
  sound_receipts (foldl mark_settled m ids).
Proof.
  intros Hm Hin id r. rewrite mark_lookup. case_decide as Hid; [|apply Hm].
  destruct (Hin id Hid) as [r' Hr']. rewrite Hr'. intros [= <-]. simpl. by apply (Hm id r').
Qed.

Lemma mark_pending sid batch m :
  NoDup (map rc_ID batch) →
  (∀ r, r ∈ batch → m !! rc_ID r = Some r ∧ Settled r = false) →
  pending_sum sid (foldl mark_settled m (map rc_ID batch))
  = pending_sum sid m - session_sum sid batch.
Proof.
  revert m. induction batch as [|r batch IH]; intros m Hd Hm; cbn [map foldl];
    [unfold session_sum; simpl; lia|].
  simpl in Hd. apply NoDup_cons in Hd as [Hr Hd]. destruct (Hm r) as [Hl Hs]; [set_solver|].
  rewrite IH; [|done|].
  - unfold mark_settled. rewrite Hl. simpl. rewrite (pending_sum_replace _ _ _ r) by done.
    rewrite session_sum_cons. unfold pending_of. cbn [set_settled Settled rc_SessionID].
    rewrite Hs, andb_false_r, andb_true_r. lia.
  - intros r' Hr'. unfold mark_settled. rewrite lookup_insert_ne.
    + apply Hm. set_solver.
    + intros E. apply Hr. rewrite E. apply list_elem_of_fmap. eauto.
Qed.

(** Charging a batch adds its share to a credit that covers it. *)
Lemma attribute_lookup sid batch (m : gmap string Prepaid) p :
  m !! sid = Some p → Forall (fun r => 0 ≤ Amount r ≤ max_int64) batch →
  0 ≤ SpentAtomic p → SpentAtomic p + session_sum sid batch ≤ DepositAtomic p ≤ max_int64 →
  foldl attribute_spend m batch !! sid
  = Some (set_spent p (SpentAtomic p + session_sum sid batch)).
Proof.
  intros Hm Hb. revert m p Hm. induction Hb as [|r batch Hr Hb IH]; intros m p Hm H0 Hd; cbn [foldl].
  { unfold session_sum. simpl. rewrite Z.add_0_r. by destruct p. }
  pose proof (session_sum_nonneg sid batch Hb). rewrite session_sum_cons in *.
  unfold attribute_spend at 2.
  destruct (String.eqb_spec (rc_SessionID r) sid) as [->|Hne].
  - rewrite Hm.
    assert (charge p (Amount r) = set_spent p (SpentAtomic p + Amount r)) as ->.
    { unfold charge. rewrite !wrap_i64_id by (unwidth; lia).
      rewrite (proj2 (Z.leb_le _ _)) by lia. rewrite (proj2 (Z.leb_le _ _)) by lia. simpl.
      by rewrite (proj2 (Z.ltb_ge _ _)) by lia. }
    erewrite IH; [|apply lookup_insert_eq|simpl; lia|simpl; lia].
    unfold set_spent. simpl. do 2 f_equal. lia.
  - erewrite IH; [|destruct (m !! rc_SessionID r); [by rewrite lookup_insert_ne|exact Hm]|lia|lia].
    done.
Qed.

(** ** The service's steps *)

Section proofs.
Context {W : Type} `{HW : WalletClient W} `{!WalletLaws W} `{GoArch, Sha256, Ed25519}.
Implicit Types s : Service W.

(** What a wallet interaction may change: the wallet itself. *)
Definition same_but_wallet s s' : Prop :=
  issuer s' = issuer s ∧ reg s' = reg s ∧ approver s' = approver s ∧ network s' = network s
  ∧ scid s' = scid s ∧ prepaid s' = prepaid s ∧ receipts s' = receipts s
  ∧ settled s' = settled s ∧ (is_Some (wallet s') ↔ is_Some (wallet s)).

Lemma same_refl s : same_but_wallet s s.
Proof. by repeat split. Qed.

Lemma same_set_wallet s w : is_Some (wallet s) → same_but_wallet s (set_wallet s w).
Proof. by repeat split. Qed.

Lemma check_funds_frame s d : same_but_wallet s (check_funds s d).1
  ∧ spent_ledger (check_funds s d).1 = spent_ledger s ∧ bus (check_funds s d).1 = bus s.
Proof.
  unfold check_funds, spent_ledger. destruct (wallet s) as [w|] eqn:Ew; simpl.
  2: by rewrite Ew; auto using same_refl.
  pose proof (balance_no_spend w) as Hb. destruct (GetBalance w) as [w' [bal|e]]; simpl in *.
  - case_match; simpl; repeat split; eauto; by rewrite Ew.
  - repeat split; eauto; by rewrite Ew.
Qed.

Lemma check_funds_ok s d b : (check_funds s d).2 = Ok b →
  ∀ w, wallet s = Some w → ∃ bal, (GetBalance w).2 = Ok bal
    ∧ ToAtomic d ≤ wrap_i64 (UnlockedBalance bal) ∧ b = FromAtomic (wrap_i64 (UnlockedBalance bal)).
Proof.
  unfold check_funds. intros E w Ew. rewrite Ew in E.
  destruct (GetBalance w) as [w' [bal|e]]; simpl in *; [|done].
  destruct (Z.ltb_spec (wrap_i64 (UnlockedBalance bal)) (ToAtomic d)); [done|].
  injection E as <-. eauto.
Qed.

Lemma NewPrepaid_ok sid n d price now c : NewPrepaid sid n d price now = Ok c →
  c = mkPrepaid sid n (ToAtomic d) 0 price now "" ∧ 0 < ToAtomic d ∧ sid ≠ "" ∧ n ≠ "".
Proof.
  unfold NewPrepaid. destruct (String.eqb_spec sid ""), (String.eqb_spec n ""); simpl; try done.
  destruct (Z.leb_spec (ToAtomic d) 0); [done|]. case_match; [done|]. by intros [= <-].
Qed.

Lemma fund_frame s o c : same_but_wallet s (fund s o c).1 ∧ bus (fund s o c).1 = bus s.
Proof.
  unfold fund. destruct (wallet s) as [w|] eqn:Ew; [|by auto using same_refl].
  destruct (BuildTransfer _ _) as [u|]; [|by auto using same_refl].
  destruct (SubmitTransfer w u) as [w' [t|e]]; simpl; repeat split; eauto; by rewrite Ew.
Qed.

(** The one transfer an [Authorize] can submit. *)
Definition funding (s : Service W) (operatorAddr : string) (deposit : float64) : submission :=
  Transfer (mkUnsignedTransfer operatorAddr (wrap_u64 (ToAtomic deposit)) (network s)).

Lemma fund_ok s o c c' : (fund s o c).2 = Ok c' →
  (∃ tx, c' = set_txid c tx) ∧
  (is_Some (wallet s) → spent_ledger (fund s o c).1 = spent_ledger s ++
     [Transfer (mkUnsignedTransfer o (wrap_u64 (DepositAtomic c)) (network s))]).
Proof.
  unfold fund, spent_ledger. destruct (wallet s) as [w|] eqn:Ew; simpl.
  2:{ intros [= <-]. split; [eauto|]. by intros []. }
  destruct (BuildTransfer _ _) as [u|] eqn:Eb; [|done].
  apply build_transfer_ok in Eb as (-> & _). simpl.
  pose proof (transfer_ok w (mkUnsignedTransfer o (wrap_u64 (DepositAtomic c)) (network s))) as Ht.
  destruct (SubmitTransfer w _) as [w' [t|e]]; simpl in *; [|done].
  intros [= <-]. split; [eauto|]. intros _. by eapply Ht.
Qed.

Lemma fund_ledger s o c : spent_ledger (fund s o c).1 = spent_ledger s ∨
  spent_ledger (fund s o c).1 = spent_ledger s ++
     [Transfer (mkUnsignedTransfer o (wrap_u64 (DepositAtomic c)) (network s))].
Proof.
  unfold fund, spent_ledger. destruct (wallet s) as [w|] eqn:Ew; simpl; [|left; by rewrite ?Ew].
  destruct (BuildTransfer _ _) as [u|] eqn:Eb; [|left; simpl; by rewrite Ew].
  apply build_transfer_ok in Eb as (-> & _). simpl.
  pose proof (transfer_at_most w (mkUnsignedTransfer o (wrap_u64 (DepositAtomic c)) (network s))) as Ht.
  by destruct (SubmitTransfer w _) as [w' [t|e]].
Qed.
(** The payload a request shows the user. *)
Definition asks s n o d (p : ApprovalPayload) : Prop :=
  ap_NodeID p = n ∧ ap_OperatorAddr p = o ∧ ap_DepositDERO p = d ∧ ap_Network p = network s
  ∧ resolve_node s n = Ok (ap_PricePerHour p, ap_Endpoint p)
  ∧ ap_EstHours p = Approval_Estimate (ap_PricePerHour p) d.

(** The outcome of a request that fails without moving anything. *)
Definition unmoved s s' : Prop :=
  spent_ledger s' = spent_ledger s ∧ issuer s' = issuer s ∧ prepaid s' = prepaid s.

Definition funded_by s s' o d : Prop :=
  spent_ledger s' = spent_ledger s ∨ spent_ledger s' = spent_ledger s ++ [funding s o d].

(** The outcome of a granted request. *)
Definition granted s s' n o sess d (p : ApprovalPayload) (g : Grant) : Prop :=
  gr_Approval g = p
  ∧ DepositAtomic (gr_Credit g) = ToAtomic d ∧ SpentAtomic (gr_Credit g) = 0
  ∧ pp_NodeID (gr_Credit g) = n ∧ pp_PricePerHour (gr_Credit g) = ap_PricePerHour p
  ∧ prepaid s' = <[sess := gr_Credit g]> (prepaid s)
  ∧ Tokens.tokens (issuer s') !! Tokens.Token_ID (gr_Token g)
    = Some (Tokens.mkRecord n sess (Tokens.Token_ExpiresAt (gr_Token g))
              (Tokens.Token_Scope (gr_Token g)) (Tokens.Token_Secret (gr_Token g)))
  ∧ (is_Some (wallet s) → spent_ledger s' = spent_ledger s ++ [funding s o d]).

Lemma authorize_inv s n o sess d i s' r : Service_Authorize s n o sess d i = (s', r) →
  receipts s' = receipts s ∧ settled s' = settled s ∧
  ((unmoved s s' ∧ ∃ e, r = Err e)
   ∨ ∃ p, asks s n o d p ∧ approver s p = Ok DecisionAuthorise ∧ 0 < ToAtomic d
       ∧ funded_by s s' o d
       ∧ ((∃ e, r = Err e ∧ prepaid s' = prepaid s ∧ issuer s' = issuer s)
          ∨ ∃ g, r = Ok g ∧ granted s s' n o sess d p g)).
Proof.
  unfold Service_Authorize.
  destruct (resolve_node s n) as [[price ep]|e] eqn:Er.
  2: { intros [= <- <-]. repeat split. left. repeat split. eauto. }
  case_match. { intros [= <- <-]. repeat split. left. repeat split. eauto. }
  pose proof (check_funds_frame s d) as (Hf & Hl & _).
  destruct (check_funds s d) as [s1 [bal|e]]; simpl in Hf, Hl;
    destruct Hf as (Hi & _ & Ha & Hn & _ & Hp & Hr & Hs & Hw).
  2: { intros [= <- <-]. repeat split; try done. left. repeat split; eauto. }
  rewrite Hn. change (approver (publish s1 ?e)) with (approver s1). rewrite Ha. set (pl := mkApproval n ep o d price _ _ bal).
  assert (∀ s', unmoved s1 s' → unmoved s s') as Hun.
  { intros s0 (E1&E2&E3). repeat split; congruence. }
  destruct (approver s pl) as [dec|e] eqn:Eap.
  2: { intros [= <- <-]. repeat split; try done. left. split; [apply Hun; by repeat split|eauto]. }
  destruct (String.eqb_spec dec DecisionAuthorise) as [->|]; simpl.
  2: { intros [= <- <-]. repeat split; try done. left. split; [apply Hun; by repeat split|eauto]. }
  destruct (NewPrepaid _ _ _ _ _) as [c|e] eqn:Ec.
  2: { intros [= <- <-]. repeat split; try done. left. split; [apply Hun; by repeat split|eauto]. }
  apply NewPrepaid_ok in Ec as (-> & Hd & _ & _).
  set (c := mkPrepaid sess n _ _ _ _ _). set (s2 := publish s1 _).
  pose proof (fund_frame s2 o c) as ((Fi & _ & _ & _ & _ & Fp & Fr & Fs & _) & _).
  pose proof (fund_ledger s2 o c) as Fl. pose proof (fund_ok s2 o c) as Fo.
  assert (network s2 = network s) as Hn2 by done. rewrite Hn2 in Fl, Fo.
  assert (spent_ledger s2 = spent_ledger s) as Hl2 by done. rewrite Hl2 in Fl, Fo.
  assert (asks s n o d pl) as Hask by done.
  destruct (fund s2 o c) as [s3 [c'|e]]; simpl in *.
  2: { intros [= <- <-]. repeat split; [congruence..|]. right. exists pl.
       repeat split; try done. left. exists e. repeat split; congruence. }
  destruct (Fo c' eq_refl) as [[tx ->] Fw].
  destruct (Tokens.Issuer_Mint _ _ _ _ _ _ _ _) as [iss [tok|e]] eqn:Hm;
    intros [= <- <-]; simpl in *; (repeat split; [congruence..|]); right; exists pl;
    repeat split; try done.
  - right. eexists. split; [done|].
    apply Tokens.mint_ok_inv in Hm as (bi & bs & _ & _ & _ & _ & _ & -> & ->).
    repeat split; simpl; [congruence| |by intros ?%Hw; apply Fw]. apply lookup_insert_eq.
  - left. exists (ErrToken e). apply Tokens.mint_err_same in Hm as ->.
    repeat split; simpl; congruence.
Qed.
(** C1: No spend without the user's verdict.  If the approver does not answer
    AUTHORISE to the dialog for this node, operator and deposit, the request
    fails, and the wallet ledger, the issued tokens, the credits, the
    receipts and the settlements are what they were. *)
Theorem no_approval_no_spend s n o sess d i s' r :
  Service_Authorize s n o sess d i = (s', r) →
  (∀ p, asks s n o d p → approver s p ≠ Ok DecisionAuthorise) →
  (∃ e, r = Err e) ∧ spent_ledger s' = spent_ledger s ∧ issuer s' = issuer s
  ∧ prepaid s' = prepaid s ∧ receipts s' = receipts s ∧ settled s' = settled s.
Proof.
  intros (Hr & Hs & [[(?&?&?) ?]|(p & Hask & Hp & _)])%authorize_inv Hno; [done|].
  by destruct (Hno p Hask).
Qed.

(** C2: A request spends at most the approved deposit, once.  Whatever the
    outcome, the wallet accepted either nothing or exactly one transfer, to
    the operator, of the atomic amount of the deposit; a request that reports
    success had the dialog with that deposit authorised, recorded a credit of
    that amount with nothing spent, and issued a token for the node. *)
Theorem authorize_spends_deposit s n o sess d i s' r :
  Service_Authorize s n o sess d i = (s', r) →
  funded_by s s' o d
  ∧ ∀ g, r = Ok g → ∃ p, asks s n o d p ∧ approver s p = Ok DecisionAuthorise
      ∧ 0 < ToAtomic d ∧ granted s s' n o sess d p g.
Proof.
  intros (_ & _ & [[(Hl&_&_) [e ->]]|(p & Hask & Hp & Hd & Hf & [(e & -> & _)|(g & -> & Hg)])])%authorize_inv;
    (split; [by auto; by left|]); intros g' [= <-]. eauto 8.
Qed.

(** *** Receipts *)

(** A credit whose numbers are in range and that is not overdrawn. *)
Definition sound_credit (p : Prepaid) : Prop :=
  0 ≤ SpentAtomic p ≤ DepositAtomic p ∧ DepositAtomic p ≤ max_int64.

Lemma range_amounts m it : sound_receipts m → range_of m it →
  Forall (fun e : string * Receipt => 0 ≤ Amount e.2 ≤ max_int64) it.
Proof.
  intros Hm Hit. apply Forall_forall. intros [id r] Hin.
  apply (range_of_elem _ _ _ _ Hit) in Hin. by apply (Hm id r).
Qed.

(** The decision on a receipt of a session with credit. *)
Lemma credit_decision sid m it p a : sound_receipts m → range_of m it → sound_credit p →
  0 ≤ a ≤ max_int64 →
  (∃ pending, pending_total sid it 0 = Some pending
     ∧ (wrap_i64 (Prepaid_RemainingAtomic p - pending) <? a) = false)
  ↔ SpentAtomic p + pending_sum sid m + a ≤ DepositAtomic p.
Proof.
  intros Hm Hit [Hp Hd] Ha.
  rewrite pending_total_spec; [|by eapply range_amounts|unwidth; lia]. cbv zeta. rewrite Z.add_0_l.
  assert (sum_by (λ e, pending_of sid e.2) it = pending_sum sid m) as ->
    by (unfold pending_sum; by rewrite Hit).
  pose proof (pending_sum_nonneg sid m Hm) as Hn. unfold Prepaid_RemainingAtomic.
  rewrite (wrap_i64_id (_ - _)) by (unwidth; lia).
  destruct (Z.leb_spec (pending_sum sid m) max_int64).
  - split.
    + intros (q & [= <-] & Hq). rewrite wrap_i64_id in Hq by (unwidth; lia). zbool. lia.
    + intros. eexists. split; [done|]. rewrite wrap_i64_id by (unwidth; lia).
      apply Z.ltb_ge. lia.
  - split; [by intros (q & ? & _)|]. lia.
Qed.

(** The exact acceptance condition of a receipt.  On a service whose
    stored receipts and credits are sound, a receipt is stored if and only
    if its signature verifies, its id is non-empty and new, its amount is
    not negative, and the session's credit, when there is one, still covers
    it on top of what is spent and pending; otherwise the service is
    unchanged. *)
Theorem receipt_accepted_exactly s r it s' res :
  sound_receipts (receipts s) → (∀ sid p, prepaid s !! sid = Some p → sound_credit p) →
  range_of (receipts s) it → is_int64 (Amount r) →
  Service_RecordReceipt s r it = (s', res) →
  (res = Ok tt ↔ VerifyReceipt r = Ok tt ∧ rc_ID r ≠ "" ∧ 0 ≤ Amount r
     ∧ receipts s !! rc_ID r = None
     ∧ ∀ p, prepaid s !! rc_SessionID r = Some p →
         SpentAtomic p + pending_sum (rc_SessionID r) (receipts s) + Amount r ≤ DepositAtomic p)
  ∧ s' = (if is_ok res then set_receipts s (<[rc_ID r := r]> (receipts s)) else s).
Proof.
  intros Hm Hp Hit Ha. unfold Service_RecordReceipt.
  destruct (VerifyReceipt r) as [[]|e]; [|intros [= <- <-]; split; naive_solver].
  destruct (String.eqb_spec (rc_ID r) ""); [intros [= <- <-]; split; naive_solver|].
  destruct (Z.ltb_spec (Amount r) 0); [intros [= <- <-]; split; naive_solver lia|].
  destruct (receipts s !! rc_ID r); [intros [= <- <-]; split; naive_solver|].
  destruct (prepaid s !! rc_SessionID r) as [p|] eqn:Ep;
    [|intros [= <- <-]; split; [naive_solver lia|done]].
  pose proof (credit_decision (rc_SessionID r) _ it p (Amount r) Hm Hit (Hp _ _ Ep)) as Hc.
  destruct Hc as [Hc1 Hc2]; [unwidth; lia|].
  destruct (pending_total _ it 0) as [pending|] eqn:Et.
  - destruct (_ <? Amount r) eqn:El; intros [= <- <-]; (split; [|done]); split; try done.
    + intros (_&_&_&_&Hb). destruct (Hc2 (Hb p eq_refl)) as (q & [= <-] & Hq). congruence.
    + intros _. repeat split; try done. intros p' [= <-]. apply Hc1. eauto.
  - intros [= <- <-]. split; [|done]. split; [done|]. intros (_&_&_&_&Hb).
    by destruct (Hc2 (Hb p eq_refl)) as (q & ? & _).
Qed.

(** *** Settlement *)

Lemma submit_settlement_frame s n t k b : same_but_wallet s (submit_settlement s n t k b).1.
Proof.
  unfold submit_settlement. destruct (wallet s) as [w|] eqn:Ew; [|apply same_refl].
  destruct (String.eqb _ _); [apply same_refl|].
  destruct (BuildInvoke _ _ _ _) as [u|]; [|apply same_refl].
  destruct (SubmitInvoke w u) as [w' r]. simpl. apply same_set_wallet. by rewrite Ew.
Qed.

(** The one invocation a settlement can submit. *)
Definition settle_call s n t k b : submission :=
  Invoke (mkUnsignedInvoke (scid s) "RecordSettlementIdem" (settle_args n t k b) (network s)).
Definition on_chain s : Prop := is_Some (wallet s) ∧ scid s ≠ "".

Lemma submit_settlement_ledger s n t k b :
  (spent_ledger (submit_settlement s n t k b).1 = spent_ledger s
   ∨ spent_ledger (submit_settlement s n t k b).1 = spent_ledger s ++ [settle_call s n t k b])
  ∧ (is_ok (submit_settlement s n t k b).2 = true → on_chain s →
     spent_ledger (submit_settlement s n t k b).1 = spent_ledger s ++ [settle_call s n t k b]).
Proof.
  unfold submit_settlement, spent_ledger, on_chain. destruct (wallet s) as [w|] eqn:Ew; simpl.
  2: { rewrite Ew. split; [by left|]. by intros _ [[] _]. }
  destruct (String.eqb_spec (scid s) ""); [simpl; rewrite Ew; split; [by left|by intros _ []]|].
  destruct (BuildInvoke _ _ _ _) as [u|] eqn:Eb; [|simpl; rewrite Ew; split; [by left|done]].
  apply build_invoke_ok in Eb as ->.
  set (u := mkUnsignedInvoke _ _ _ _). pose proof (invoke_at_most w u) as Ha.
  pose proof (invoke_ok w u) as Ho. destruct (SubmitInvoke w u) as [w' [t'|e]]; simpl in *.
  - split; [done|]. intros _ _. by eapply Ho.
  - by split.
Qed.

(** What the batch of a node is: its unsettled receipts, in visiting order. *)
Lemma batch_in_map n m it : sound_receipts m → range_of m it →
  ∀ r, r ∈ settle_collect n it → m !! rc_ID r = Some r ∧ Settled r = false.
Proof. intros Hm Hit r Hr. by destruct (batch_elem n m it _ r Hm Hit Hr eq_refl) as (?&_&?). Qed.

Lemma batch_amounts n m it : sound_receipts m → range_of m it →
  Forall (fun r => 0 ≤ Amount r ≤ max_int64) (settle_collect n it).
Proof.
  intros Hm Hit. apply Forall_forall. intros r Hr.
  destruct (batch_in_map n m it Hm Hit r Hr) as [Hl _]. by destruct (Hm _ _ Hl).
Qed.

Lemma collect_perm n it it' : it ≡ₚ it' → settle_collect n it ≡ₚ settle_collect n it'.
Proof. intros E. unfold settle_collect, Service_Unsettled. by rewrite E. Qed.

(** The submission does not depend on the visiting order. *)
Lemma batch_id_perm l k : l ≡ₚ k → batchIDFor l = batchIDFor k.
Proof. intros E. unfold batchIDFor. by rewrite (sort_Strings_perm l k E). Qed.

Definition batch_call s n (batch : list Receipt) : submission :=
  settle_call s n (sum_by Amount batch) (length batch) (batchIDFor (map rc_ID batch)).

Lemma batch_call_perm s n b b' : b ≡ₚ b' → batch_call s n b = batch_call s n b'.
Proof.
  intros E. unfold batch_call. by rewrite (sum_by_perm Amount _ _ E), (Permutation_length E),
    (batch_id_perm _ _ (Permutation_map rc_ID E)).
Qed.

Lemma settle_submit_inv s n batch now s' res :
  Forall (fun r => 0 ≤ Amount r ≤ max_int64) batch →
  settle_submit s n batch now = (s', res) →
  same_but_wallet s s'
  ∧ (spent_ledger s' = spent_ledger s ∨ spent_ledger s' = spent_ledger s ++ [batch_call s n batch])
  ∧ ∀ st, res = Ok st → batch ≠ [] ∧ sum_by Amount batch ≤ max_int64
      ∧ (∃ tx, st = mkSettlement (batchIDFor (map rc_ID batch)) n (map rc_ID batch)
                      (sum_by Amount batch) tx now)
      ∧ (on_chain s → spent_ledger s' = spent_ledger s ++ [batch_call s n batch]).
Proof.
  intros Hb. unfold settle_submit.
  rewrite aggregate_spec by (done || (unwidth; lia)). rewrite Z.add_0_l. cbn [app].
  assert (batch = [] ∨ batch ≠ []) as [->|Hne] by (destruct batch; auto).
  { intros [= <- <-]. split; [apply same_refl|]. split; [by left|done]. }
  assert (∀ A (a b : A), match batch with [] => a | _ => b end = b) as -> by by destruct batch.
  destruct (Z.leb_spec (sum_by Amount batch) max_int64).
  2: { intros [= <- <-]. split; [apply same_refl|]. split; [by left|done]. }
  pose proof (submit_settlement_frame s n (sum_by Amount batch) (length batch)
                (batchIDFor (map rc_ID batch))) as Hf.
  pose proof (submit_settlement_ledger s n (sum_by Amount batch) (length batch)
                (batchIDFor (map rc_ID batch))) as [Hl Ho].
  destruct (submit_settlement _ _ _ _ _) as [s1 [tx|e]]; simpl in *; intros [= <- <-];
    (split; [done|]; split; [done|]); [|done].
  intros st [= <-]. repeat split; try done; [by eauto|]. by apply Ho.
Qed.

(** Marking the collected batch settles exactly the node's unsettled receipts. *)
Lemma mark_batch n m it : sound_receipts m → range_of m it →
  ∀ id, foldl mark_settled m (map rc_ID (settle_collect n it)) !! id
    = (fun r => if unsettled_for n r then set_settled r else r) <$> m !! id.
Proof.
  intros Hm Hit id. rewrite mark_lookup. case_decide as Hin.
  - apply list_elem_of_fmap in Hin as [r [-> Hin]].
    destruct (batch_elem n _ it _ r Hm Hit Hin eq_refl) as (-> & Hn & Hu). simpl.
    unfold unsettled_for. by rewrite Hn, Hu, String.eqb_refl.
  - destruct (m !! id) as [r|] eqn:El; [|done]. simpl.
    destruct (unsettled_for n r) eqn:Eu; [|done]. destruct Hin.
    apply list_elem_of_fmap. exists r. destruct (Hm _ _ El) as [-> _]. split; [done|].
    apply list_elem_of_filter. split; [done|]. apply list_elem_of_fmap. exists (id, r).
    split; [done|]. by apply (range_of_elem _ _ _ _ Hit).
Qed.

(** C4: Settlement settles exactly once.  A successful settlement of a node
    lists each of its unsettled receipts once, pays their exact sum with no
    wrap-around, submits one invocation carrying that sum when there is a
    wallet and a contract, and turns exactly those receipts to settled; a
    further settlement of the node then finds nothing, submits nothing and
    changes nothing. *)
Theorem settlement_once s n it now s' st :
  sound_receipts (receipts s) → range_of (receipts s) it →
  Service_RecordSettlement s n it now = (s', Ok st) →
  ReceiptIDs st = map rc_ID (settle_collect n it) ∧ NoDup (ReceiptIDs st)
  ∧ Total st = sum_by Amount (settle_collect n it) ∧ 0 ≤ Total st ≤ max_int64
  ∧ settled s' = settled s ++ [st]
  ∧ (∀ id, receipts s' !! id
       = (fun r => if unsettled_for n r then set_settled r else r) <$> receipts s !! id)
  ∧ (on_chain s → spent_ledger s' = spent_ledger s ++
       [settle_call s n (Total st) (length (ReceiptIDs st)) (st_ID st)])
  ∧ ∀ it' now', range_of (receipts s') it' →
      Service_RecordSettlement s' n it' now' = (s', Err ErrNothingToSettle).
Proof.
  intros Hm Hit. unfold Service_RecordSettlement at 1.
  destruct (settle_submit s n (settle_collect n it) now) as [s1 [st1|e]] eqn:Es; [|done].
  intros [= <- <-].
  destruct (settle_submit_inv s n _ now s1 _ (batch_amounts n _ it Hm Hit) Es) as (Hf & _ & Ho).
  destruct (Ho st1 eq_refl) as (_ & Hmax & [tx ->] & Hc). clear Ho Es.
  destruct Hf as (_ & _ & _ & _ & _ & _ & Hr & Hs & _).
  pose proof (batch_nodup n _ it Hm Hit) as Hd.
  pose proof (mark_batch n _ it Hm Hit) as Hmark.
  simpl. split; [done|]. split; [done|]. split; [done|]. split.
  { split; [|done]. apply sum_by_nonneg. eapply Forall_impl; [by eapply batch_amounts|].
    simpl. lia. }
  split; [by rewrite Hs|]. split; [by rewrite Hr|]. split.
  { rewrite length_map. exact Hc. }
  intros it' now' Hit'. unfold Service_RecordSettlement.
  assert (settle_collect n it' = []) as ->; [|done].
  apply elem_of_nil_inv. intros r Hin.
  unfold settle_collect, Service_Unsettled in Hin.
  apply list_elem_of_filter in Hin as [Hu Hin]. apply list_elem_of_fmap in Hin as [[k r'] [-> Hin]].
  apply (range_of_elem _ _ _ _ Hit') in Hin. simpl in *. rewrite Hr, Hmark in Hin.
  destruct (receipts s !! k) as [r|]; [|done]. injection Hin as <-.
  destruct (unsettled_for n r) eqn:Eu; [|congruence].
  unfold unsettled_for in Hu. simpl in Hu. by rewrite andb_false_r in Hu.
Qed.

(** C38: A retried settlement is the same settlement.  When the submission
    fails, receipts, credits and the settlement log are untouched, and the
    wallet has accepted nothing or the one invocation for the batch; a later
    attempt on the same receipts, whatever order it visits them in, submits
    that very invocation, batch id included, so that the contract can
    recognise the replay. *)
Theorem settle_retry_identical s n it now s1 e it1 now1 s2 st :
  sound_receipts (receipts s) → range_of (receipts s) it → on_chain s →
  Service_RecordSettlement s n it now = (s1, Err e) →
  range_of (receipts s1) it1 → Service_RecordSettlement s1 n it1 now1 = (s2, Ok st) →
  receipts s1 = receipts s ∧ prepaid s1 = prepaid s ∧ settled s1 = settled s
  ∧ ∃ call, (spent_ledger s1 = spent_ledger s ∨ spent_ledger s1 = spent_ledger s ++ [call])
      ∧ spent_ledger s2 = spent_ledger s1 ++ [call].
Proof.
  intros Hm Hit [Hw Hsc] E1 Hit1 E2. unfold Service_RecordSettlement in E1.
  destruct (settle_submit s n _ now) as [s1' [?|e']] eqn:Es; [done|]. injection E1 as <- <-.
  destruct (settle_submit_inv _ _ _ _ _ _ (batch_amounts n _ it Hm Hit) Es)
    as ((_ & _ & _ & Hn & Hs & Hp & Hr & Ht & Hw1) & Hl & _).
  repeat (split; [done|]). exists (batch_call s n (settle_collect n it)). split; [done|].
  unfold Service_RecordSettlement in E2.
  destruct (settle_submit s1' n _ now1) as [s2' [st'|?]] eqn:Es2; [|done]. injection E2 as <- <-.
  rewrite Hr in Hit1.
  destruct (settle_submit_inv _ _ _ _ _ _ (batch_amounts n _ it1 Hm Hit1) Es2) as (_ & _ & Ho).
  destruct (Ho st' eq_refl) as (_ & _ & _ & Hc).
  assert (settle_collect n it1 ≡ₚ settle_collect n it) as Hperm
    by (apply collect_perm; by rewrite Hit, Hit1).
  change (spent_ledger (settle_commit s2' _ _)) with (spent_ledger s2').
  rewrite Hc by (split; [by apply Hw1 | by rewrite Hs]).
  rewrite (batch_call_perm s1' n _ _ Hperm). do 2 f_equal.
  unfold batch_call, settle_call. by rewrite Hs, Hn.
Qed.

(** *** The deposit bounds the spend *)

(** The credit of a session is in range, and what is spent plus what is
    pending stays within the deposit [dep]. *)
Definition within_deposit (sid : string) (dep : Z) s : Prop :=
  sound_receipts (receipts s) ∧ dep ≤ max_int64
  ∧ ∃ p, prepaid s !! sid = Some p ∧ DepositAtomic p = dep ∧ 0 ≤ SpentAtomic p
      ∧ SpentAtomic p + pending_sum sid (receipts s) ≤ dep.

Lemma receipt_within sid dep s r it : range_of (receipts s) it → is_int64 (Amount r) →
  within_deposit sid dep s → within_deposit sid dep (Service_RecordReceipt s r it).1.
Proof.
  intros Hit Ha (Hm & Hd & p & Hp & Hdep & Hs & Hb). unfold Service_RecordReceipt.
  assert (within_deposit sid dep s) as Hsame by (split; [done|]; split; [done|]; by exists p).
  destruct (VerifyReceipt r); [|done]. destruct (String.eqb _ _); [done|].
  destruct (Z.ltb_spec (Amount r) 0); [done|].
  destruct (receipts s !! rc_ID r) eqn:El; [done|].
  assert (sound_receipts (<[rc_ID r := r]> (receipts s))) as Hm'.
  { intros id r'. rewrite lookup_insert. case_decide; [|apply Hm]. intros [= <-].
    unwidth. split; [done|lia]. }
  assert (SpentAtomic p + pending_sum sid (receipts s) + pending_of sid r ≤ dep →
    within_deposit sid dep (set_receipts s (<[rc_ID r := r]> (receipts s)))) as Hstore.
  { intros Hle. split; [done|]. split; [done|]. exists p. repeat split; try done. simpl.
    rewrite pending_sum_insert by done. lia. }
  destruct (String.eqb_spec (rc_SessionID r) sid) as [Hsid|Hsid].
  - rewrite Hsid, Hp. destruct (pending_total sid it 0) as [q|] eqn:Et; [|done].
    destruct (_ <? Amount r) eqn:Elt; [done|]. apply Hstore.
    pose proof (pending_sum_nonneg sid _ Hm). pose proof (pending_of_bounds sid r).
    assert (SpentAtomic p + pending_sum sid (receipts s) + Amount r ≤ DepositAtomic p); [|lia].
    eapply credit_decision; [done..| |unwidth; lia|eauto]. split; lia.
  - assert (pending_of sid r = 0) as Hz.
    { unfold pending_of. by rewrite (proj2 (String.eqb_neq _ _) Hsid). }
    repeat case_match; try done; apply Hstore; lia.
Qed.

Lemma settle_within sid dep s n it now : range_of (receipts s) it →
  within_deposit sid dep s → within_deposit sid dep (Service_RecordSettlement s n it now).1.
Proof.
  intros Hit (Hm & Hd & p & Hp & Hdep & Hs & Hb). unfold Service_RecordSettlement.
  destruct (settle_submit s n _ now) as [s1 r1] eqn:Es.
  destruct (settle_submit_inv _ _ _ _ _ _ (batch_amounts n _ it Hm Hit) Es)
    as ((_ & _ & _ & _ & _ & Fp & Fr & _) & _ & Ho).
  destruct r1 as [st|e]; simpl.
  2: { split; [by rewrite Fr|]. split; [done|]. exists p. by rewrite Fp, Fr. }
  destruct (Ho st eq_refl) as (_ & _ & [tx ->] & _). simpl.
  set (batch := settle_collect n it).
  pose proof (mark_pending sid batch (receipts s) (batch_nodup n _ it Hm Hit)
                (batch_in_map n _ it Hm Hit)) as Hmp.
  assert (sound_receipts (foldl mark_settled (receipts s) (map rc_ID batch))) as Hm'.
  { apply mark_sound; [done|]. intros id [r [-> Hr]]%list_elem_of_fmap.
    destruct (batch_in_map n _ it Hm Hit r Hr) as [-> _]. eauto. }
  pose proof (pending_sum_nonneg sid _ Hm') as Hnn.
  pose proof (session_sum_nonneg sid _ (batch_amounts n _ it Hm Hit)) as Hsn. fold batch in Hsn.
  split; [simpl; by rewrite Fr|]. split; [done|].
  exists (set_spent p (SpentAtomic p + session_sum sid batch)). simpl. rewrite Fp, Fr.
  split; [|lia].
  apply attribute_lookup; [done|exact (batch_amounts n (receipts s) it Hm Hit)|done|lia].
Qed.

(** The deposit bounds the spend.  Once a session's credit is within its
    deposit, whatever receipts arrive, settlements run and other sessions
    are authorised, the deposit is never altered, and the amount spent plus
    the amounts pending never exceed it. *)
Theorem spend_within_deposit sid dep s s' :
  within_deposit sid dep s → rtc (step sid) s s' → within_deposit sid dep s'.
Proof.
  intros Hw Hst. induction Hst as [|s s1 s2 Hst _ IH]; [done|]. apply IH. clear IH s2.
  destruct Hst as [s n o sess d i Hne|s r it Hit Ha|s n it now Hit];
    [|by apply receipt_within|by apply settle_within].
  destruct (Service_Authorize s n o sess d i) as [s1 res] eqn:E. simpl.
  destruct (authorize_inv _ _ _ _ _ _ _ _ E) as (Hr & _ & Hc).
  destruct Hw as (Hm & Hd & p & Hp & Hb). rewrite <- Hr in *.
  split; [done|]. split; [done|]. exists p. split; [|done].
  destruct Hc as [[(_&_&->) _]|(pl & _ & _ & _ & _ & [(e&_&->&_)|(g&_&Hg)])]; [done..|].
  destruct Hg as (_ & _ & _ & _ & _ & -> & _). by rewrite lookup_insert_ne.
Qed.
End proofs.

(** ** What a receipt signature covers *)

(** On identifiers without a bar the signed body determines every
    counter and identifier: two receipts with the same body agree on all
    eight signed fields. *)
Theorem receiptBody_injective r r' :
  plain_ids r → plain_ids r' → receiptBody r = receiptBody r' →
  rc_ID r = rc_ID r' ∧ rc_SessionID r = rc_SessionID r' ∧ rc_NodeID r = rc_NodeID r'
  ∧ rc_TokenID r = rc_TokenID r' ∧ RxBytes r = RxBytes r' ∧ TxBytes r = TxBytes r'
  ∧ Minutes r = Minutes r' ∧ Amount r = Amount r'.
Proof.
  intros Hr Hr' E. apply join_bar_inj in E; [|done|by apply receipt_fields_plain..].
  unfold receipt_fields in E. injection E as -> -> -> -> E1 E2 E3 E4.
  by repeat split; apply (inj pretty).
Qed.

(** ** Concrete runs *)

Section demo.
#[local] Existing Instances amd64 toy_sha256 toy_ed25519.

Definition demo_io : io := mkIO (Some (repeat 7 16)) (Some (repeat 9 32)) 0 0.
Definition demo_authorize (sess : string) : Service MockWalletClient * result error Grant :=
  Service_Authorize (NewDemoService None) "node" "operator" sess f1 demo_io.
Definition demo_service : Service MockWalletClient := (demo_authorize "session").1.
Definition demo_key : string := of_chars (repeat "k"%char 64).
Definition demo_receipt (id : string) (amount : Z) : Receipt :=
  let r := mkReceipt id "session" "node" "token" 10 20 30 amount false "" "" in
  match SignReceipt r demo_key with Ok r => r | Err _ => r end.
Definition demo_record (s : Service MockWalletClient) (r : Receipt) : Service MockWalletClient :=
  (Service_RecordReceipt s r (map_to_list (receipts s))).1.
Definition demo_two : Service MockWalletClient :=
  demo_record (demo_record demo_service (demo_receipt "r1" 600)) (demo_receipt "r2" 400).
Definition demo_settle (s : Service MockWalletClient) :=
  Service_RecordSettlement s "node" (map_to_list (receipts s)) 5.
Definition demo_reject : Service MockWalletClient :=
  NewService (Some NewMockWallet) None None (Some NeverApprover) NetworkDevMock "scid".

(** The wallet is charged before the token can fail.  A session id of
    one space passes the check of the credit but not that of the token
    issuer, which runs after the funding transfer: the request fails, the
    transfer was accepted and no credit is recorded. *)
Theorem blank_session_loses_deposit :
  let '(s, r) := demo_authorize " " in
  r = Err (ErrToken Tokens.ErrInvalid)
  ∧ spent_ledger s = [Transfer (mkUnsignedTransfer "operator" 100000 NetworkDevMock)]
  ∧ prepaid s = ∅ ∧ issuer s = Tokens.NewIssuer.
Proof. vm_compute. repeat split. Qed.

(** The two halves of a settlement, as a concurrent caller sees them. *)
Definition overlap_first : list Receipt :=
  settle_collect "node" (map_to_list (receipts (demo_record demo_service (demo_receipt "r1" 600)))).
Definition overlap_second : list Receipt :=
  settle_collect "node" (map_to_list (receipts demo_two)).

(** Settlements that overlap pay a receipt twice.  One caller collects
    the batch with the first receipt, a second receipt arrives, another
    caller collects both; each submits and commits.  Both settlements
    succeed under different batch ids, so the contract cannot recognise a
    replay, and together they invoke for more than the receipts are worth. *)
Theorem overlapping_settlements_pay_twice :
  let '(s1, st1) := settle_submit demo_two "node" overlap_first 5 in
  let '(s2, st2) := settle_submit s1 "node" overlap_second 5 in
  ∃ a b, st1 = Ok a ∧ st2 = Ok b ∧ st_ID a ≠ st_ID b
    ∧ sum_by (fun e => Amount e.2) (map_to_list (receipts demo_two)) = 1000
    ∧ Total a + Total b = 1600
    ∧ length (spent_ledger s2) = 3%nat
    ∧ let s4 := settle_commit (settle_commit s2 overlap_first a) overlap_second b in
      SpentAtomic <$> prepaid s4 !! "session" = Some 1600.
Proof.
  destruct (settle_submit demo_two "node" overlap_first 5) as [s1 st1] eqn:E1.
  destruct (settle_submit s1 "node" overlap_second 5) as [s2 st2] eqn:E2.
  vm_compute in E1. injection E1 as <- <-. vm_compute in E2. injection E2 as <- <-.
  do 2 eexists. split; [done|]. split; [done|]. split; [done|]. vm_compute. done.
Qed.

(** A signature does not fix the identifiers.  With a bar in them two
    receipts for different sessions have one body, so the signature of
    either verifies for the other; likewise a comma in a receipt id makes
    two different sets of receipts one batch id. *)
Theorem receipt_and_batch_ambiguity :
  (let r := mkReceipt "r" "alice|bob" "node" "t" 1 2 3 4 false "" "" in
   let r' := mkReceipt "r|alice" "bob" "node" "t" 1 2 3 4 false "" "" in
   receiptBody r = receiptBody r' ∧ rc_SessionID r ≠ rc_SessionID r')
  ∧ ∀ h : Sha256, @batchIDFor h ["a"; "b"] = @batchIDFor h ["a,b"].
Proof. split; [by vm_compute|]. intros h. reflexivity. Qed.

(** ** Witnesses *)

Lemma no_approval_no_spend_witness :
  let out := Service_Authorize demo_reject "node" "operator" "session" f1 demo_io in
  (∃ e, out.2 = Err e) ∧ spent_ledger out.1 = [].
Proof.
  intros out.
  destruct (no_approval_no_spend demo_reject "node" "operator" "session" f1 demo_io out.1 out.2
              (surjective_pairing _)) as (He & Hl & _); [by intros p _|].
  split; [exact He | by rewrite Hl].
Defined.

Lemma authorize_spends_deposit_witness :
  spent_ledger demo_service = [Transfer (mkUnsignedTransfer "operator" 100000 NetworkDevMock)].
Proof.
  destruct (authorize_spends_deposit (NewDemoService None) "node" "operator" "session" f1 demo_io
              demo_service (demo_authorize "session").2 (surjective_pairing _)) as [_ Hg].
  destruct (Hg _ eq_refl) as (p & _ & _ & _ & (_&_&_&_&_&_&_&->)); [by eexists|done].
Defined.

Lemma demo_sound : sound_receipts (receipts demo_two).
Proof.
  assert (map_Forall (fun id r => rc_ID r = id ∧ 0 ≤ Amount r ≤ max_int64) (receipts demo_two)) as H.
  { apply (bool_decide_unpack _). vm_compute. exact I. }
  exact H.
Defined.

Lemma demo_credits sid p : prepaid demo_service !! sid = Some p → sound_credit p.
Proof.
  assert (map_Forall (fun _ p => (0 ≤ SpentAtomic p ≤ DepositAtomic p) ∧ DepositAtomic p ≤ max_int64)
            (prepaid demo_service)) as H by (apply (bool_decide_unpack _); vm_compute; exact I).
  apply H.
Defined.

Lemma demo_none : sound_receipts (receipts demo_service).
Proof.
  assert (receipts demo_service = ∅) as -> by (vm_compute; reflexivity).
  intros id r. by rewrite lookup_empty.
Defined.

Lemma demo_credit : prepaid demo_service !! "session"
  = Some (mkPrepaid "session" "node" 100000 0 f0 0 "mock-tx-1").
Proof. vm_compute. reflexivity. Defined.

Lemma receipt_accepted_exactly_witness :
  (Service_RecordReceipt demo_service (demo_receipt "r1" 100000) []).2 = Ok tt
  ∧ (Service_RecordReceipt demo_service (demo_receipt "r1" 100001) []).2 ≠ Ok tt.
Proof.
  assert (range_of (receipts demo_service) []) as Hit by (unfold range_of; reflexivity). split.
  - apply (proj1 (receipt_accepted_exactly _ (demo_receipt "r1" 100000) _ _ _ demo_none
      demo_credits Hit ltac:(unwidth; simpl; lia) (surjective_pairing _))).
    split; [by vm_compute|]. split; [done|]. split; [simpl; lia|]. split; [done|].
    intros p E. cbn [demo_receipt] in E. change (rc_SessionID _) with "session" in E.
    rewrite demo_credit in E. injection E as <-. vm_compute. done.
  - intros E. apply (proj1 (receipt_accepted_exactly _ (demo_receipt "r1" 100001) _ _ _ demo_none
      demo_credits Hit ltac:(unwidth; simpl; lia) (surjective_pairing _))) in E as (_&_&_&_&Hb).
    specialize (Hb _ demo_credit). by vm_compute in Hb.
Defined.

(** The settlement of [demo_two]; the wallet refuses in [demo_offline]. *)
Definition demo_settled := demo_settle demo_two.
Definition demo_st : Settlement :=
  match demo_settled.2 with Ok st => st | Err _ => mkSettlement "" "" [] 0 "" 0 end.

Lemma settlement_once_witness :
  demo_settled.2 = Ok demo_st ∧ Total demo_st = 1000 ∧ NoDup (ReceiptIDs demo_st).
Proof.
  assert (demo_settled.2 = Ok demo_st) as E by (vm_compute; reflexivity).
  destruct (settlement_once demo_two "node" (map_to_list (receipts demo_two)) 5 demo_settled.1
    demo_st demo_sound (range_of_self _)) as (_ & Hd & Ht & _).
  { rewrite <- E. apply surjective_pairing. }
  split; [done|]. split; [|done]. rewrite Ht. by vm_compute.
Defined.

(** A wallet that loses the reply to the first invocation it accepts. *)
Definition flaky_wallet : HTTPWalletClient :=
  mkHTTPWallet [] (Ok (mkBalance 0 0)) (Ok "dero1") (fun _ _ => Accepted "tx")
    (fun history _ => match history with [] => ReplyLost ErrDeroUnavailable | _ => Accepted "tx" end).
Definition flaky_service : Service HTTPWalletClient :=
  set_receipts (NewService (Some flaky_wallet) None None None NetworkTestnet "scid")
    (<["r1" := demo_receipt "r1" 600]> ∅).
Definition flaky_settle (s : Service HTTPWalletClient) :=
  Service_RecordSettlement s "node" (map_to_list (receipts s)) 5.
Definition flaky_once := flaky_settle flaky_service.
Definition flaky_twice := flaky_settle flaky_once.1.
Definition flaky_st : Settlement :=
  match flaky_twice.2 with Ok st => st | Err _ => mkSettlement "" "" [] 0 "" 0 end.

Lemma settle_retry_identical_witness :
  ∃ call, spent_ledger flaky_once.1 = [call] ∧ spent_ledger flaky_twice.1 = [call; call].
Proof.
  assert (flaky_twice.2 = Ok flaky_st) as E2 by (vm_compute; reflexivity).
  assert (flaky_once.2 = Err (ErrDero (FreshAuthUnavailable ErrDeroUnavailable))) as E1
    by (vm_compute; reflexivity).
  destruct (settle_retry_identical flaky_service "node" (map_to_list (receipts flaky_service)) 5 flaky_once.1
    (ErrDero (FreshAuthUnavailable ErrDeroUnavailable)) (map_to_list (receipts flaky_once.1)) 5
    flaky_twice.1 flaky_st)
    as (_ & _ & _ & call & Hl1 & Hl2).
  - intros id r. unfold flaky_service. simpl. rewrite lookup_insert_Some, lookup_empty.
    intros [[<- <-]|[_ ?]]; [|done]. split; [done|]. unwidth. simpl. lia.
  - apply range_of_self.
  - split; [by eexists|done].
  - rewrite <- E1. apply surjective_pairing.
  - apply range_of_self.
  - rewrite <- E2. apply surjective_pairing.
  - exists call. assert (length (spent_ledger flaky_once.1) = 1%nat) as Hn
      by (vm_compute; reflexivity).
    assert (spent_ledger flaky_service = []) as E0 by (vm_compute; reflexivity).
    rewrite E0 in Hl1. rewrite Hl2. destruct Hl1 as [Hl1|Hl1]; rewrite Hl1 in *; [discriminate Hn|].
    by split.
Defined.

Lemma spend_within_deposit_witness :
  ∃ p, prepaid demo_two !! "session" = Some p ∧ SpentAtomic p ≤ 100000.
Proof.
  assert (within_deposit "session" 100000 demo_service) as H0.
  { split; [exact demo_none|]. split; [done|].
    eexists. split; [exact demo_credit|]. by vm_compute. }
  destruct (spend_within_deposit "session" 100000 demo_service demo_two H0)
    as (Hm & _ & p & Hp & _ & _ & Hle).
  - eapply rtc_l; [|eapply rtc_l; [|apply rtc_refl]]; (apply step_receipt; [apply range_of_self|]);
      unwidth; simpl; lia.
  - exists p. split; [done|]. pose proof (pending_sum_nonneg "session" _ Hm). lia.
Defined.

Lemma receiptBody_injective_witness :
  receiptBody (demo_receipt "r1" 600) ≠ receiptBody (demo_receipt "r1" 601).
Proof.
  intros E. apply receiptBody_injective in E as (_&_&_&_&_&_&_&E); [by vm_compute in E|..];
    apply (bool_decide_unpack _); vm_compute; exact I.
Defined.
End demo.
