(* ===== verification/Route.v ===== *)
(** * Route: canonical 1-3 hop paths (internal/multihop/route.go, tokens.go)

    Nodes, hops and routes; the separation check every builder shares;
    construction, verification, per-hop tokens and quoting.  The random
    identifier and the clock of a construction are arguments. *)

From Stdlib Require Import ZArith Lia.
From S2P Require Import Prelude Float64 GoStrings.

(** ** Data *)

Record NodeInfo := mkNodeInfo {
  ni_NodeID : string;
  ni_WGPubKey : string;
  ni_Endpoint : string;
  ni_Region : string;
  ni_Country : string;
  ni_City : string;
  ni_PricePerHour : float64;
  ni_CapacityMax : Z;
  ni_Load : float64;
  ni_Latency : float64;
  ni_Uptime : float64;
  ni_History : float64;
  ni_Protocol : Z;
  ni_Bonded : bool
}.

(** [NodeInfo{NodeID: id, WGPubKey: key, Endpoint: ep}]. *)
Definition bare_node (id key ep : string) : NodeInfo :=
  mkNodeInfo id key ep "" "" "" f0 0 f0 f0 f0 f0 0 false.

Inductive error :=
| ErrNodeID | ErrKey (id : string) | ErrEndpoint (id : string)
| ErrHop (i : nat) (e : error)
| ErrNoHops | ErrTooManyHops (n cap : nat)
| ErrLoop (id : string) | ErrSameHost (a b host : string) | ErrSameKey (a b : string)
| ErrBudget (id : string) | ErrSharedCountry (a b country : string)
| ErrRouteID | ErrHopCount (n : nat) | ErrHopID (i : nat) | ErrHopEndpoint (id : string)
| ErrRandom | ErrNoRoute | ErrHours
| ErrNoValidNodes | ErrNoSeparatedPath | ErrNeedsThreeHops | ErrPick (e : string)
| ErrCircuitID | ErrMissingNode | ErrUnsupportedHops (n : Z) | ErrEntryIsExit
| ErrBadEntry (e : error) | ErrBadMiddle (e : error) | ErrBadExit (e : error)
| ErrThreeHopDisabled.

Definition NodeInfo_Validate (n : NodeInfo) : result error unit :=
  if String.eqb (ni_NodeID n) "" then Err ErrNodeID
  else if String.eqb (ni_WGPubKey n) "" then Err (ErrKey (ni_NodeID n))
  else if String.eqb (ni_Endpoint n) "" then Err (ErrEndpoint (ni_NodeID n))
  else Ok tt.

Record Hop := mkHop {
  hop_NodeID : string;
  hop_Country : string;
  hop_Endpoint : string;
  hop_OperatorKey : string;
  hop_PricePerHour : float64
}.

Record Route := mkRoute {
  rt_ID : string;
  Hops : list Hop;
  EntryPinned : bool;
  rt_CreatedAt : time
}.

Definition Tradeoff : Type := string.
Definition TradeoffFast : string := "fast".
Definition TradeoffBalanced : string := "balanced".
Definition TradeoffSafe : string := "safe".
Definition FastLatencyBudgetMs : float64 := f_of_Z 150.
Definition SafeLatencyBudgetMs : float64 := f_of_Z 800.

Record BuildOptions := mkBuildOptions {
  MaxHops : Z;
  opt_Tradeoff : Tradeoff;
  MaxLatencyMs : float64;
  RequireDiverseCountries : bool
}.
Definition default_options : BuildOptions := mkBuildOptions 0 "" f0 false.

Definition BuildOptions_BudgetMs (o : BuildOptions) : float64 :=
  if f_gt (MaxLatencyMs o) f0 then MaxLatencyMs o
  else if String.eqb (opt_Tradeoff o) TradeoffFast then FastLatencyBudgetMs
  else if String.eqb (opt_Tradeoff o) TradeoffSafe then SafeLatencyBudgetMs
  else f0.

(** [newID]: 16 random bytes in hex, or the clock when there are none. *)
Definition newID (rand : option (list Z)) (unixNano : Z) : string :=
  match rand with
  | Some b => "c-" +:+ hex_EncodeToString (take 16 b)
  | None => "c-" +:+ fmt_d unixNano
  end.

(** The random bytes and clock readings of one construction. *)
Record build_io := mkBuildIO { bio_rand : option (list Z); bio_nano : Z; bio_now : time }.
Definition fresh_id (i : build_io) : string := newID (bio_rand i) (bio_nano i).

Section route.
Context `{Unicode}.

(** ** Separation *)

Definition endpointHost (ep : string) : string :=
  match net_SplitHostPort ep with
  | Some (h, _) => strings_ToLower (strings_TrimSpace h)
  | None => strings_ToLower (strings_TrimSpace ep)
  end.

(** The check's loop, with the three maps it fills. *)
Fixpoint check_distinct_from (seenID : gmap string bool) (seenHost seenKey : gmap string string)
  (nodes : list NodeInfo) : result error unit :=
  match nodes with
  | [] => Ok tt
  | n :: nodes =>
    if map_flag seenID (ni_NodeID n) then Err (ErrLoop (ni_NodeID n))
    else
      let seenID := <[ni_NodeID n := true]> seenID in
      let host := endpointHost (ni_Endpoint n) in
      match seenHost !! host with
      | Some prev => Err (ErrSameHost prev (ni_NodeID n) host)
      | None =>
        let seenHost := <[host := ni_NodeID n]> seenHost in
        if String.eqb (ni_WGPubKey n) "" then check_distinct_from seenID seenHost seenKey nodes
        else
          match seenKey !! ni_WGPubKey n with
          | Some prev => Err (ErrSameKey prev (ni_NodeID n))
          | None =>
            check_distinct_from seenID seenHost (<[ni_WGPubKey n := ni_NodeID n]> seenKey) nodes
          end
      end
  end.

Definition checkDistinct (nodes : list NodeInfo) : result error unit :=
  check_distinct_from ∅ ∅ ∅ nodes.

(** ** Construction *)

Fixpoint validate_hops (i : nat) (nodes : list NodeInfo) : result error unit :=
  match nodes with
  | [] => Ok tt
  | n :: nodes =>
    match NodeInfo_Validate n with
    | Err e => Err (ErrHop i e)
    | Ok _ => validate_hops (S i) nodes
    end
  end.

Definition over_budget (budget : float64) (n : NodeInfo) : bool :=
  f_gt (ni_Latency n) f0 && f_gt (ni_Latency n) budget.

Definition check_budget (budget : float64) (nodes : list NodeInfo) : result error unit :=
  match find (over_budget budget) nodes with
  | Some n => Err (ErrBudget (ni_NodeID n))
  | None => Ok tt
  end.

Definition country_key (c : string) : string := strings_ToUpper (strings_TrimSpace c).

Fixpoint check_countries (seen : gmap string string) (nodes : list NodeInfo) : result error unit :=
  match nodes with
  | [] => Ok tt
  | n :: nodes =>
    let c := country_key (ni_Country n) in
    if String.eqb c "" then check_countries seen nodes
    else
      match seen !! c with
      | Some prev => Err (ErrSharedCountry prev (ni_NodeID n) c)
      | None => check_countries (<[c := ni_NodeID n]> seen) nodes
      end
  end.

Definition hop_of (n : NodeInfo) : Hop :=
  mkHop (ni_NodeID n) (ni_Country n) (ni_Endpoint n) (ni_WGPubKey n) (ni_PricePerHour n).

Definition hop_cap (maxHops : Z) : nat :=
  let max := if maxHops <=? 0 then 3 else maxHops in
  Z.to_nat (if max >? 3 then 3 else max).

Definition BuildRoute (nodes : list NodeInfo) (opts : BuildOptions) (i : build_io)
  : result error Route :=
  let cap := hop_cap (MaxHops opts) in
  if (length nodes =? 0)%nat then Err ErrNoHops
  else if (cap <? length nodes)%nat then Err (ErrTooManyHops (length nodes) cap)
  else if (3 <? length nodes)%nat then Err (ErrTooManyHops (length nodes) 3)
  else
    let* _ := validate_hops 1 nodes in
    let* _ := checkDistinct nodes in
    let budget := BuildOptions_BudgetMs opts in
    let* _ := if f_gt budget f0 then check_budget budget nodes else Ok tt in
    let* _ := if RequireDiverseCountries opts && (1 <? length nodes)%nat
              then check_countries ∅ nodes else Ok tt in
    Ok (mkRoute (fresh_id i) (map hop_of nodes) false (bio_now i)).

(** ** Verification *)

Fixpoint check_hops (i : nat) (hops : list Hop) : result error unit :=
  match hops with
  | [] => Ok tt
  | h :: hops =>
    if String.eqb (hop_NodeID h) "" then Err (ErrHopID i)
    else if String.eqb (hop_Endpoint h) "" then Err (ErrHopEndpoint (hop_NodeID h))
    else check_hops (S i) hops
  end.

Definition node_of_hop (h : Hop) : NodeInfo :=
  bare_node (hop_NodeID h) (hop_OperatorKey h) (hop_Endpoint h).

(** The weaker check for stored routes without operator keys. *)
Fixpoint check_distinct_keyless (seenID : gmap string bool) (seenHost : gmap string string)
  (nodes : list NodeInfo) : result error unit :=
  match nodes with
  | [] => Ok tt
  | n :: nodes =>
    if map_flag seenID (ni_NodeID n) then Err (ErrLoop (ni_NodeID n))
    else
      let seenID := <[ni_NodeID n := true]> seenID in
      let host := endpointHost (ni_Endpoint n) in
      if String.eqb host "" then check_distinct_keyless seenID seenHost nodes
      else
        match seenHost !! host with
        | Some prev => Err (ErrSameHost prev (ni_NodeID n) host)
        | None => check_distinct_keyless seenID (<[host := ni_NodeID n]> seenHost) nodes
        end
  end.

Definition Route_Verify (r : Route) : result error unit :=
  if String.eqb (rt_ID r) "" then Err ErrRouteID
  else if (length (Hops r) =? 0)%nat || (3 <? length (Hops r))%nat
  then Err (ErrHopCount (length (Hops r)))
  else
    let* _ := check_hops 1 (Hops r) in
    let nodes := map node_of_hop (Hops r) in
    let full := forallb (fun n => negb (String.eqb (ni_WGPubKey n) "")) nodes in
    if full then checkDistinct nodes else check_distinct_keyless ∅ ∅ nodes.
End route.

Definition Route_Entry (r : Route) : option Hop := head (Hops r).
Definition Route_Exit (r : Route) : option Hop := last (Hops r).
Definition Route_NodeIDs (r : Route) : list string := map hop_NodeID (Hops r).
Definition Route_Countries (r : Route) : list string := map hop_Country (Hops r).
Definition Route_TotalPricePerHour (r : Route) : float64 :=
  foldl (fun total h => f_add total (hop_PricePerHour h)) f0 (Hops r).

(** ** Per-hop tokens *)

Inductive HopRole := RoleEntry | RoleMiddle | RoleExit | RoleSingle.
#[export] Instance HopRole_eq_dec : EqDecision HopRole.
Proof. solve_decision. Defined.

Definition hopRoles (n : nat) : list HopRole :=
  match n with
  | 1 => [RoleSingle]
  | 2 => [RoleEntry; RoleExit]
  | _ => RoleEntry :: repeat RoleMiddle (n - 2) ++ [RoleExit]
  end%nat.

Record SessionToken := mkSessionToken {
  tk_Token : string;
  tk_RouteID : string;
  tk_NodeID : string;
  tk_Role : HopRole;
  tk_IssuedAt : time;
  tk_ExpiresAt : time
}.

Definition SessionToken_Scoped (t : SessionToken) (routeID nodeID : string) (role : HopRole) : bool :=
  String.eqb (tk_RouteID t) routeID && String.eqb (tk_NodeID t) nodeID
  && bool_decide (tk_Role t = role) && negb (String.eqb (tk_Token t) "").

Definition SessionToken_Expired (t : SessionToken) (now : time) : bool :=
  negb (Time_Before now (tk_ExpiresAt t)).

Definition mintToken (rand : option (list Z)) : result error string :=
  match rand with
  | Some b => Ok (hex_EncodeToString (take 16 b))
  | None => Err ErrRandom
  end.

Definition token_life (ttl : duration) : duration := if ttl <=? 0 then 24 * hour else ttl.

(** One random draw per hop. *)
Fixpoint issue_hops (routeID : string) (now : time) (ttl : duration)
  (hops : list (Hop * HopRole)) (rands : list (option (list Z))) : result error (list SessionToken) :=
  match hops with
  | [] => Ok []
  | (h, role) :: hops =>
    let* v := mintToken (match rands with [] => None | x :: _ => x end) in
    let* rest := issue_hops routeID now ttl hops (tail rands) in
    Ok (mkSessionToken v routeID (hop_NodeID h) role now (Time_Add now ttl) :: rest)
  end.

Definition IssueTokens (r : Route) (ttl : duration) (now : time) (rands : list (option (list Z)))
  : result error (list SessionToken) :=
  if (length (Hops r) =? 0)%nat then Err ErrNoRoute
  else issue_hops (rt_ID r) now (token_life ttl)
         (zip (Hops r) (hopRoles (length (Hops r)))) rands.

Definition ReissueExitToken (r : Route) (ttl : duration) (now : time) (rand : option (list Z))
  : result error SessionToken :=
  match Route_Exit r with
  | None => Err ErrNoRoute
  | Some exit =>
    let* v := mintToken rand in
    let role := if (length (Hops r) =? 1)%nat then RoleSingle else RoleExit in
    Ok (mkSessionToken v (rt_ID r) (hop_NodeID exit) role now (Time_Add now (token_life ttl)))
  end.

(** ** Quotes *)

Record HopQuote := mkHopQuote {
  hq_NodeID : string; hq_Role : HopRole; hq_PricePerHour : float64;
  hq_Hours : float64; hq_Amount : float64 }.

Record Quote := mkQuote {
  q_HopQuotes : list HopQuote; q_Total : float64; q_SingleApproval : bool }.

Definition quote_hop (hours : float64) (e : Hop * HopRole) : HopQuote :=
  let '(h, role) := e in
  mkHopQuote (hop_NodeID h) role (hop_PricePerHour h) hours (f_mul (hop_PricePerHour h) hours).

Definition QuoteRoute (r : Route) (hours : float64) : result error Quote :=
  if (length (Hops r) =? 0)%nat then Err ErrNoRoute
  else if f_le hours f0 then Err ErrHours
  else
    let qs := map (quote_hop hours) (zip (Hops r) (hopRoles (length (Hops r)))) in
    Ok (mkQuote qs (foldl (fun total q => f_add total (hq_Amount q)) f0 qs) true).

(** ** What separation means *)

Section proofs.
Context `{Unicode}.

Definition host_of (n : NodeInfo) : string := endpointHost (ni_Endpoint n).

(** Pairwise distinct nodes, machines and (where known) operator keys. *)
Definition separated (nodes : list NodeInfo) : Prop :=
  NoDup (map ni_NodeID nodes) ∧ NoDup (map host_of nodes)
  ∧ NoDup (filter (.≠ "") (map ni_WGPubKey nodes)).

(** A node that none of the three maps has seen. *)
Definition unseen (ids : gmap string bool) (hosts keys : gmap string string) (n : NodeInfo) : Prop :=
  map_flag ids (ni_NodeID n) = false ∧ hosts !! host_of n = None
  ∧ (ni_WGPubKey n ≠ "" → keys !! ni_WGPubKey n = None).

Lemma separated_cons n nodes : separated (n :: nodes) ↔
  separated nodes ∧ Forall (fun m => ni_NodeID m ≠ ni_NodeID n ∧ host_of m ≠ host_of n
    ∧ (ni_WGPubKey n ≠ "" → ni_WGPubKey m ≠ ni_WGPubKey n)) nodes.
Proof.
  unfold separated. simpl. rewrite filter_cons, !NoDup_cons, Forall_forall, !list_elem_of_fmap.
  case_decide as Hk; rewrite ?NoDup_cons, ?list_elem_of_filter, ?list_elem_of_fmap;
    split; intros Hs; naive_solver.
Qed.

Lemma unseen_insert ids hosts keys n m :
  unseen (<[ni_NodeID n := true]> ids) (<[host_of n := ni_NodeID n]> hosts)
    (if String.eqb (ni_WGPubKey n) "" then keys else <[ni_WGPubKey n := ni_NodeID n]> keys) m
  ↔ unseen ids hosts keys m ∧ ni_NodeID m ≠ ni_NodeID n ∧ host_of m ≠ host_of n
    ∧ (ni_WGPubKey n ≠ "" → ni_WGPubKey m ≠ ni_WGPubKey n).
Proof.
  unfold unseen, map_flag. rewrite !lookup_insert.
  destruct (String.eqb_spec (ni_WGPubKey n) "") as [Hk|Hk]; rewrite ?lookup_insert;
    repeat (destruct (decide (_ = _))); simpl;
    (split; [intros (?&?&?)|intros ((?&?&?)&?&?&Hd)]; split_and?; auto; try congruence;
     intros; try congruence; exfalso; naive_solver congruence).
Qed.

Lemma check_distinct_from_ok nodes ids hosts keys :
  check_distinct_from ids hosts keys nodes = Ok tt ↔
  separated nodes ∧ Forall (unseen ids hosts keys) nodes.
Proof.
  revert ids hosts keys. induction nodes as [|n nodes IH]; intros ids hosts keys; simpl.
  { split; [|done]. repeat split; by try constructor. }
  fold (host_of n).
  assert (Forall (unseen (<[ni_NodeID n := true]> ids) (<[host_of n := ni_NodeID n]> hosts)
      (if String.eqb (ni_WGPubKey n) "" then keys else <[ni_WGPubKey n := ni_NodeID n]> keys)) nodes
    ↔ Forall (unseen ids hosts keys) nodes ∧
      Forall (fun m => ni_NodeID m ≠ ni_NodeID n ∧ host_of m ≠ host_of n
        ∧ (ni_WGPubKey n ≠ "" → ni_WGPubKey m ≠ ni_WGPubKey n)) nodes) as Hins.
  { rewrite <- Forall_and. apply Forall_iff. intros m. apply unseen_insert. }
  rewrite separated_cons, Forall_cons. unfold unseen at 1.
  destruct (map_flag ids (ni_NodeID n)); [naive_solver|].
  destruct (hosts !! host_of n); [naive_solver|].
  destruct (String.eqb_spec (ni_WGPubKey n) "") as [Hk|Hk];
    [|destruct (keys !! ni_WGPubKey n); [naive_solver|]]; rewrite IH; naive_solver.
Qed.

Lemma checkDistinct_ok nodes : checkDistinct nodes = Ok tt ↔ separated nodes.
Proof.
  unfold checkDistinct. rewrite check_distinct_from_ok. split; [by intros []|].
  intros Hs. split; [done|]. apply Forall_true. intros n. by repeat split.
Qed.

Lemma separated_singleton n : separated [n].
Proof.
  repeat split; simpl; try apply NoDup_singleton.
  rewrite filter_cons. case_decide; [apply NoDup_singleton|constructor].
Qed.

Lemma validate_ok n : NodeInfo_Validate n = Ok tt ↔
  ni_NodeID n ≠ "" ∧ ni_WGPubKey n ≠ "" ∧ ni_Endpoint n ≠ "".
Proof.
  unfold NodeInfo_Validate.
  destruct (String.eqb_spec (ni_NodeID n) ""), (String.eqb_spec (ni_WGPubKey n) ""),
    (String.eqb_spec (ni_Endpoint n) ""); naive_solver.
Qed.

Definition dialable (n : NodeInfo) : Prop := NodeInfo_Validate n = Ok tt.

Lemma validate_hops_ok i nodes : validate_hops i nodes = Ok tt ↔ Forall dialable nodes.
Proof.
  revert i. induction nodes as [|n nodes IH]; intros i; simpl; [by split|].
  rewrite Forall_cons. unfold dialable at 1.
  destruct (NodeInfo_Validate n) as [[]|e]; [rewrite IH; naive_solver|naive_solver].
Qed.

Lemma check_budget_ok b nodes :
  check_budget b nodes = Ok tt ↔ Forall (fun n => over_budget b n = false) nodes.
Proof.
  unfold check_budget. destruct (find (over_budget b) nodes) as [n|] eqn:E.
  - apply find_some in E as [Hin Ho]. split; [done|]. rewrite Forall_forall. intros Hf.
    apply list_elem_of_In in Hin. by rewrite (Hf n Hin) in Ho.
  - split; [|done]. intros _. apply Forall_forall. intros n Hin%list_elem_of_In.
    by eapply find_none.
Qed.

Definition known_countries (nodes : list NodeInfo) : list string :=
  filter (.≠ "") (map (fun n => country_key (ni_Country n)) nodes).

Lemma check_countries_ok seen nodes : check_countries seen nodes = Ok tt ↔
  NoDup (known_countries nodes) ∧ Forall (fun c => seen !! c = None) (known_countries nodes).
Proof.
  unfold known_countries. revert seen. induction nodes as [|n nodes IH]; intros seen; simpl.
  { by repeat constructor. }
  rewrite filter_cons. destruct (String.eqb_spec (country_key (ni_Country n)) "") as [->|Hc].
  { rewrite decide_False by naive_solver. apply IH. }
  rewrite decide_True, NoDup_cons, Forall_cons by done.
  destruct (seen !! country_key (ni_Country n)); [naive_solver|].
  rewrite IH. rewrite !Forall_forall. split.
  - intros [Hd Hf]. assert (∀ c, c ∈ filter (.≠ "") (map (λ n, country_key (ni_Country n)) nodes) →
      c ≠ country_key (ni_Country n) ∧ seen !! c = None) as Hx.
    { intros c Hin. specialize (Hf c Hin). rewrite lookup_insert in Hf. by case_decide. }
    split; [split; [|done]|]; [intros Hin; by apply Hx in Hin as [? _]|].
    split; [done|]. intros c Hin. by apply Hx.
  - intros [[Hn Hd] [_ Hf]]. split; [done|]. intros c Hin. rewrite lookup_insert_ne by congruence.
    by apply Hf.
Qed.

(** The condition under which a path is a route. *)
Definition routable (nodes : list NodeInfo) (opts : BuildOptions) : Prop :=
  (1 ≤ length nodes ≤ hop_cap (MaxHops opts))%nat
  ∧ Forall dialable nodes ∧ separated nodes
  ∧ (f_gt (BuildOptions_BudgetMs opts) f0 = true →
     Forall (fun n => over_budget (BuildOptions_BudgetMs opts) n = false) nodes)
  ∧ (RequireDiverseCountries opts = true → NoDup (known_countries nodes)).

Lemma hop_cap_le m : (1 ≤ hop_cap m ≤ 3)%nat.
Proof.
  unfold hop_cap. destruct (Z.leb_spec m 0); [vm_compute; lia|].
  rewrite Z.gtb_ltb. destruct (Z.ltb_spec 3 m); lia.
Qed.

Lemma known_countries_short nodes : (length nodes ≤ 1)%nat → NoDup (known_countries nodes).
Proof.
  unfold known_countries. destruct nodes as [|n [|m nodes]]; simpl; [constructor| |lia].
  intros _. rewrite filter_cons. case_decide; [apply NoDup_singleton|constructor].
Qed.

Definition built (nodes : list NodeInfo) (i : build_io) : Route :=
  mkRoute (fresh_id i) (map hop_of nodes) false (bio_now i).

Lemma build_route_ok nodes opts i r :
  BuildRoute nodes opts i = Ok r ↔ routable nodes opts ∧ r = built nodes i.
Proof.
  unfold BuildRoute, routable, built. pose proof (hop_cap_le (MaxHops opts)).
  destruct (Nat.eqb_spec (length nodes) 0); [naive_solver lia|].
  destruct (Nat.ltb_spec (hop_cap (MaxHops opts)) (length nodes)); [naive_solver lia|].
  destruct (Nat.ltb_spec 3 (length nodes)); [lia|].
  pose proof (validate_hops_ok 1 nodes). pose proof (checkDistinct_ok nodes).
  destruct (validate_hops 1 nodes) as [[]|]; simpl; [|naive_solver].
  destruct (checkDistinct nodes) as [[]|]; simpl; [|naive_solver].
  pose proof (check_budget_ok (BuildOptions_BudgetMs opts) nodes).
  assert (NoDup (known_countries nodes) ↔ check_countries ∅ nodes = Ok tt) as Hc.
  { rewrite check_countries_ok. split; [|by intros []]. intros Hd. split; [done|].
    apply Forall_true. intros c. apply lookup_empty. }
  pose proof (known_countries_short nodes).
  assert ((if RequireDiverseCountries opts && (1 <? length nodes)%nat
           then check_countries ∅ nodes else Ok tt) = Ok tt
    ↔ (RequireDiverseCountries opts = true → NoDup (known_countries nodes))) as Hd.
  { destruct (RequireDiverseCountries opts); simpl; [|naive_solver].
    destruct (Nat.ltb_spec 1 (length nodes)); naive_solver lia. }
  destruct (if RequireDiverseCountries opts && _ then _ else _) as [[]|];
    destruct (f_gt (BuildOptions_BudgetMs opts) f0);
    try destruct (check_budget _ nodes) as [[]|]; simpl; naive_solver lia.
Qed.

(** Separation only looks at the id, the endpoint and the key. *)
Lemma separated_fields nodes nodes' :
  map ni_NodeID nodes = map ni_NodeID nodes' → map ni_Endpoint nodes = map ni_Endpoint nodes' →
  map ni_WGPubKey nodes = map ni_WGPubKey nodes' → separated nodes → separated nodes'.
Proof.
  intros E1 E2 E3. unfold separated.
  assert (∀ l, map host_of l = map endpointHost (map ni_Endpoint l)) as Hh
    by (intros l; by rewrite map_map).
  by rewrite !Hh, E1, E2, E3.
Qed.

Lemma separated_hops nodes : separated (map node_of_hop (map hop_of nodes)) ↔ separated nodes.
Proof. split; apply separated_fields; by rewrite !map_map. Qed.

Lemma check_hops_ok i hops : check_hops i hops = Ok tt ↔
  Forall (fun h => hop_NodeID h ≠ "" ∧ hop_Endpoint h ≠ "") hops.
Proof.
  revert i. induction hops as [|h hops IH]; intros i; simpl; [by split|]. rewrite Forall_cons.
  destruct (String.eqb_spec (hop_NodeID h) ""); [naive_solver|].
  destruct (String.eqb_spec (hop_Endpoint h) ""); [naive_solver|]. rewrite IH. naive_solver.
Qed.

Lemma fresh_id_nonempty i : fresh_id i ≠ "".
Proof. unfold fresh_id, newID. by destruct (bio_rand i). Qed.

(** A built route passes its own verification. *)
Lemma built_verifies nodes opts i : routable nodes opts → Route_Verify (built nodes i) = Ok tt.
Proof.
  intros ([Hl1 Hl2] & Hd & Hs & _). unfold Route_Verify, built. simpl. rewrite length_map.
  rewrite (proj2 (String.eqb_neq _ _) (fresh_id_nonempty i)).
  pose proof (hop_cap_le (MaxHops opts)).
  destruct (Nat.eqb_spec (length nodes) 0); [lia|].
  destruct (Nat.ltb_spec 3 (length nodes)); [lia|]. simpl.
  rewrite (proj2 (check_hops_ok 1 (map hop_of nodes))); simpl.
  2: { apply Forall_map. eapply Forall_impl; [exact Hd|]. intros x Hn.
       apply validate_ok in Hn. naive_solver. }
  assert (forallb (fun n => negb (String.eqb (ni_WGPubKey n) ""))
            (map node_of_hop (map hop_of nodes)) = true) as ->.
  { apply forallb_forall. intros m Hm. rewrite map_map in Hm.
    apply in_map_iff in Hm as [x [<- Hn%list_elem_of_In]]. simpl.
    rewrite Forall_forall in Hd. apply Hd, validate_ok in Hn as (_ & Hk & _).
    by rewrite (proj2 (String.eqb_neq _ _) Hk). }
  apply checkDistinct_ok. by apply separated_hops.
Qed.

(** C8: Construction builds exactly the separated paths.  [BuildRoute]
    succeeds if and only if the path has between one hop and the cap, every
    node can be dialled, no two hops share a node id, an endpoint host or an
    operator key, no measured hop is over the latency budget, and, when
    diversity is asked for, no two known countries coincide; the route it
    returns is the path in order and passes [Verify]. *)
Theorem build_route_exact nodes opts i :
  (is_ok (BuildRoute nodes opts i) = true ↔ routable nodes opts)
  ∧ ∀ r, BuildRoute nodes opts i = Ok r →
      Hops r = map hop_of nodes ∧ EntryPinned r = false ∧ Route_Verify r = Ok tt.
Proof.
  split.
  - destruct (BuildRoute nodes opts i) as [r|e] eqn:E.
    + apply build_route_ok in E. naive_solver.
    + split; [done|]. intros Hr. exfalso.
      assert (BuildRoute nodes opts i = Ok (built nodes i)) by (by apply build_route_ok). congruence.
  - intros r [Hr ->]%build_route_ok. eauto using built_verifies.
Qed.

(** A verified route has distinct node ids. *)
Lemma keyless_nodup nodes ids hosts : check_distinct_keyless ids hosts nodes = Ok tt →
  NoDup (map ni_NodeID nodes) ∧ Forall (fun n => map_flag ids (ni_NodeID n) = false) nodes.
Proof.
  revert ids hosts. induction nodes as [|n nodes IH]; intros ids hosts; simpl; [by repeat constructor|].
  destruct (map_flag ids (ni_NodeID n)) eqn:Ef; [done|].
  intros E. assert (NoDup (map ni_NodeID nodes)
    ∧ Forall (fun m => map_flag (<[ni_NodeID n := true]> ids) (ni_NodeID m) = false) nodes)
    as [Hd Hf] by (destruct (String.eqb _ ""); [by eapply IH|]; case_match; [done|by eapply IH]).
  assert (∀ m, m ∈ nodes → ni_NodeID m ≠ ni_NodeID n ∧ map_flag ids (ni_NodeID m) = false) as Hx.
  { intros m Hm. rewrite Forall_forall in Hf. specialize (Hf m Hm). unfold map_flag in *.
    rewrite lookup_insert in Hf. by destruct (decide _). }
  split.
  - apply NoDup_cons. split; [|done]. intros [m [Em Hm]]%list_elem_of_fmap.
    by apply Hx in Hm as [? _].
  - constructor; [done|]. apply Forall_forall. intros m Hm. by apply Hx.
Qed.

Lemma verified_nodup r : Route_Verify r = Ok tt → NoDup (Route_NodeIDs r).
Proof.
  unfold Route_Verify, Route_NodeIDs. case_match; [done|]. case_match; [done|].
  destruct (check_hops 1 (Hops r)) as [[]|]; simpl; [|done].
  assert (map hop_NodeID (Hops r) = map ni_NodeID (map node_of_hop (Hops r))) as ->
    by by rewrite map_map.
  case_match; [by intros [? _]%checkDistinct_ok|by intros [? _]%keyless_nodup].
Qed.
End proofs.

(** ** Tokens are scoped to one hop *)

Lemma hopRoles_length n : n ≠ 0%nat → length (hopRoles n) = n.
Proof.
  destruct n as [|[|[|n]]]; try done. intros _. unfold hopRoles. cbn [length].
  rewrite length_app, repeat_length. simpl. lia.
Qed.

Lemma hex_take_nonempty n b : length b = S n → hex_EncodeToString (take (S n) b) ≠ "".
Proof. destruct b; [done|]. intros _ E. by apply hex_encode_empty in E. Qed.

Lemma issue_hops_lookup rid now ttl hops rands toks :
  issue_hops rid now ttl hops rands = Ok toks →
  length toks = length hops ∧
  ∀ i h role, hops !! i = Some (h, role) → ∃ b, rands !! i = Some (Some b) ∧
    toks !! i = Some (mkSessionToken (hex_EncodeToString (take 16 b)) rid (hop_NodeID h) role now
                        (Time_Add now ttl)).
Proof.
  revert rands toks. induction hops as [|[h role] hops IH]; intros rands toks; simpl.
  { by intros [= <-]. }
  destruct rands as [|[b|] rands]; simpl; [done| |done].
  destruct (issue_hops rid now ttl hops rands) as [rest|] eqn:Er; simpl; [|done].
  intros [= <-]. destruct (IH _ _ Er) as [Hl Hi]. split; [simpl; by rewrite Hl|].
  intros [|i] h' role'; simpl; [|by apply Hi]. intros [= <- <-]. eauto.
Qed.

(** Each token opens its own hop and no other.  On a verified route the
    issued tokens match the hops position by position: each is in scope for
    its route, its node and the role of its position, carries the requested
    lifetime, and is out of scope at every other hop. *)
Theorem tokens_scoped_per_hop `{Unicode} r ttl now rands toks i t :
  Route_Verify r = Ok tt → Forall (fun x => ∀ b, x = Some b → length b = 16%nat) rands →
  IssueTokens r ttl now rands = Ok toks → toks !! i = Some t →
  length toks = length (Hops r)
  ∧ ∃ h role, Hops r !! i = Some h ∧ hopRoles (length (Hops r)) !! i = Some role
    ∧ SessionToken_Scoped t (rt_ID r) (hop_NodeID h) role = true
    ∧ tk_ExpiresAt t = now + token_life ttl
    ∧ ∀ j h' role', j ≠ i → Hops r !! j = Some h' →
        SessionToken_Scoped t (rt_ID r) (hop_NodeID h') role' = false.
Proof.
  intros Hv Hr. unfold IssueTokens. destruct (Nat.eqb_spec (length (Hops r)) 0) as [|Hn]; [done|].
  intros [Hl Hi]%issue_hops_lookup Ht.
  rewrite length_zip_with, hopRoles_length, Nat.min_id in Hl by done.
  assert (i < length (Hops r))%nat as Hlt by (rewrite <- Hl; by eapply lookup_lt_Some).
  destruct (lookup_lt_is_Some_2 (Hops r) i Hlt) as [h Hh].
  destruct (lookup_lt_is_Some_2 (hopRoles (length (Hops r))) i) as [role Hrole];
    [by rewrite hopRoles_length|].
  destruct (Hi i h role) as (b & Hb & Ht').
  { by rewrite lookup_zip_with, Hh, Hrole. }
  rewrite Ht in Ht'. injection Ht' as ->. split; [done|]. exists h, role.
  split; [done|]. split; [done|]. unfold SessionToken_Scoped. simpl.
  rewrite Forall_lookup in Hr. rewrite !String.eqb_refl, bool_decide_eq_true_2 by done.
  split.
  { simpl. apply negb_true_iff, String.eqb_neq, hex_take_nonempty. by eapply Hr. }
  split; [done|]. intros j h' role' Hj Hh'. apply verified_nodup in Hv.
  destruct (String.eqb_spec (hop_NodeID h) (hop_NodeID h')) as [E|]; [|done].
  destruct Hj. apply (NoDup_lookup _ _ _ (hop_NodeID h) Hv); unfold Route_NodeIDs;
    change (map hop_NodeID) with (fmap (M := list) hop_NodeID); rewrite list_lookup_fmap;
    rewrite ?Hh, ?Hh'; simpl; by rewrite ?E.
Qed.

(** ** Concrete routes *)

Section demo.
#[local] Existing Instance ascii_unicode.

Definition demo_io : build_io := mkBuildIO (Some (repeat 7 16)) 0 0.
Definition demo_node (id : string) (price : float64) : NodeInfo :=
  mkNodeInfo id ("key-" +:+ id) (id +:+ ".example:51820") "" ("C" +:+ id) "" price 0
    f0 f0 f0 f0 0 true.
Definition demo_nodes (ids : list string) : list NodeInfo := map (fun x => demo_node x f1) ids.
Definition demo_route (ids : list string) : Route := built (demo_nodes ids) demo_io.

(** Two ports of one machine are one box. *)
Example same_box_rejected : is_ok (BuildRoute
  [bare_node "a" "ka" "10.0.0.1:1"; bare_node "b" "kb" "10.0.0.1:2"] default_options demo_io) = false.
Proof. vm_compute. reflexivity. Qed.

Lemma tokens_scoped_per_hop_witness :
  ∃ t, SessionToken_Scoped t (rt_ID (demo_route ["a"; "b"])) "b" RoleExit = true
    ∧ SessionToken_Scoped t (rt_ID (demo_route ["a"; "b"])) "a" RoleEntry = false.
Proof.
  eexists.
  destruct (tokens_scoped_per_hop (demo_route ["a"; "b"]) hour 0
    [Some (repeat 1 16); Some (repeat 2 16)] _ 1%nat _ ltac:(vm_compute; reflexivity)
    ltac:(repeat constructor; by intros b [= <-]) ltac:(vm_compute; reflexivity) eq_refl)
    as (_ & h & role & Hh & Hr & Hs & _ & Ho).
  injection Hh as <-. injection Hr as <-. split; [exact Hs|].
  by apply (Ho 0%nat (hop_of (demo_node "a" f1))).
Defined.
End demo.
