(* ===== verification/Guards.v ===== *)
(** * Guards: sticky entries and rotation (internal/multihop/guards.go)

    The guard record, the rotations of a route, and one guard-aware rotation
    step over a candidate pool.  The selection function is an argument, a
    sequence of answers that may fail, one per call. *)

From Stdlib Require Import ZArith Lia.
From S2P Require Import Prelude Float64 GoStrings Route.

Definition DefaultGuardRotationInterval : duration := 30 * 24 * hour.

Record GuardSet := mkGuardSet {
  EntryID : string; PinnedAt : time; Interval : duration; Pinned : bool }.

Definition PinGuard (entry : NodeInfo) (now : time) : GuardSet :=
  mkGuardSet (ni_NodeID entry) now DefaultGuardRotationInterval
    (negb (String.eqb (ni_NodeID entry) "")).

Definition GuardSet_Reset (g : GuardSet) : GuardSet := mkGuardSet "" 0 0 false.

Definition GuardSet_ShouldRotate (g : option GuardSet) (now : time) : bool :=
  match g with
  | None => false
  | Some g =>
    if negb (Pinned g) || String.eqb (EntryID g) "" then false
    else
      let iv := if Interval g <=? 0 then DefaultGuardRotationInterval else Interval g in
      if Time_IsZero (PinnedAt g) then true
      else negb (Time_Before now (Time_Add (PinnedAt g) iv))
  end.

Definition GuardSet_Guards (g : option GuardSet) (r : Route) : bool :=
  match g with
  | None => false
  | Some g =>
    match Hops r with
    | [] => false
    | h :: _ => Pinned g && String.eqb (EntryID g) (hop_NodeID h)
    end
  end.

Definition set_pinned (r : Route) (b : bool) : Route :=
  mkRoute (rt_ID r) (Hops r) b (rt_CreatedAt r).

Section rotation.
Context `{Unicode}.

Definition Route_RotateExit (r : Route) (newExit : NodeInfo) (i : build_io)
  : result error Route :=
  match Hops r with
  | [] => Err ErrNoRoute
  | _ =>
    match NodeInfo_Validate newExit with
    | Err e => Err (ErrBadExit e)
    | Ok _ =>
      if (length (Hops r) =? 1)%nat then BuildRoute [newExit] default_options i
      else
        let kept := map node_of_hop (removelast (Hops r)) in
        let* next := BuildRoute (kept ++ [newExit]) default_options i in
        Ok (set_pinned next true)
    end
  end.

Definition Route_RotateDownstream (r : Route) (newMiddle newExit : NodeInfo) (i : build_io)
  : result error Route :=
  match Hops r with
  | [entry; _; _] =>
    match NodeInfo_Validate newMiddle with
    | Err e => Err (ErrBadMiddle e)
    | Ok _ =>
      match NodeInfo_Validate newExit with
      | Err e => Err (ErrBadExit e)
      | Ok _ =>
        let* next := BuildRoute [node_of_hop entry; newMiddle; newExit] default_options i in
        Ok (set_pinned next true)
      end
    end
  | _ => Err ErrNeedsThreeHops
  end.

Definition Route_RotateAll (r : Route) (newNodes : list NodeInfo) (i : build_io)
  : result error Route :=
  let* next := BuildRoute newNodes default_options i in
  match Hops r, Hops next with
  | h :: _, h' :: _ =>
    if String.eqb (hop_NodeID h') (hop_NodeID h) then Ok (set_pinned next (EntryPinned r))
    else Ok next
  | _, _ => Ok next
  end.

(** [excludeNodes]: the ids to skip as a map of flags. *)
Definition excludeNodes (pool : list NodeInfo) (skip : gmap string bool) : list NodeInfo :=
  filter (fun n => map_flag skip (ni_NodeID n) = false) pool.

Definition flag_all (ids : list string) : gmap string bool :=
  foldl (fun m id => <[id := true]> m) ∅ ids.

(** The selection function: what its k-th call answers on a pool. *)
Definition picker : Type := nat → list NodeInfo → result string NodeInfo.

(** One pick per hop, each from the pool without the nodes already taken. *)
Fixpoint pick_all (pick : picker) (k hops : nat) (fresh : list NodeInfo)
  (taken : gmap string bool) (picked : list NodeInfo) : result error (list NodeInfo) :=
  match hops with
  | O => Ok picked
  | S hops =>
    match pick k (excludeNodes fresh taken) with
    | Err e => Err (ErrPick e)
    | Ok n => pick_all pick (S k) hops fresh (<[ni_NodeID n := true]> taken) (picked ++ [n])
    end
  end.

Definition RotateGuarded (cur : Route) (pool : list NodeInfo) (g : option GuardSet)
  (pick : picker) (i : build_io) : result error Route :=
  if (length (Hops cur) =? 0)%nat then Err ErrNoRoute
  else
    let eligible := filter (fun n => is_ok (NodeInfo_Validate n) = true) pool in
    if (length eligible =? 0)%nat then Err ErrNoValidNodes
    else
      let kept := flag_all (Route_NodeIDs cur) in
      if GuardSet_Guards g cur then
        if (length (Hops cur) <=? 2)%nat then
          match pick 0%nat (excludeNodes eligible kept) with
          | Err e => Err (ErrPick e)
          | Ok next => Route_RotateExit cur next i
          end
        else
          match pick 0%nat (excludeNodes eligible kept) with
          | Err e => Err (ErrPick e)
          | Ok mid =>
            match pick 1%nat (excludeNodes eligible (<[ni_NodeID mid := true]> kept)) with
            | Err e => Err (ErrPick e)
            | Ok exit => Route_RotateDownstream cur mid exit i
            end
          end
      else
        let* picked := pick_all pick 0 (length (Hops cur)) eligible ∅ [] in
        Route_RotateAll cur picked i.
End rotation.

(** ** Lemmas *)

Section proofs.
Context `{Unicode}.

(** What identifies a hop to an observer: node, endpoint and key. *)
Definition same_hop (h h' : Hop) : Prop :=
  hop_NodeID h = hop_NodeID h' ∧ hop_Endpoint h = hop_Endpoint h'
  ∧ hop_OperatorKey h = hop_OperatorKey h'.

Lemma same_hop_node h : same_hop h (hop_of (node_of_hop h)).
Proof. done. Qed.

Lemma rotate_exit_inv r n i next : Route_RotateExit r n i = Ok next → (2 ≤ length (Hops r))%nat →
  routable (map node_of_hop (removelast (Hops r)) ++ [n]) default_options
  ∧ next = set_pinned (built (map node_of_hop (removelast (Hops r)) ++ [n]) i) true.
Proof.
  unfold Route_RotateExit. intros E Hl.
  destruct (Hops r) as [|h [|h' l]]; [simpl in Hl; lia..|].
  destruct (NodeInfo_Validate n) as [[]|]; [|done].
  cbn [length Nat.eqb] in E.
  destruct (BuildRoute _ default_options i) as [nx|] eqn:Eb; simpl in E; [|done].
  apply build_route_ok in Eb as [Hr ->]. by injection E as <-.
Qed.

Lemma rotate_downstream_inv r m n i next : Route_RotateDownstream r m n i = Ok next →
  ∃ e m' n', Hops r = [e; m'; n'] ∧ routable [node_of_hop e; m; n] default_options
  ∧ next = set_pinned (built [node_of_hop e; m; n] i) true.
Proof.
  unfold Route_RotateDownstream. destruct (Hops r) as [|e [|m' [|n' [|? ?]]]]; try done.
  destruct (NodeInfo_Validate m) as [[]|]; [|done]. destruct (NodeInfo_Validate n) as [[]|]; [|done].
  destruct (BuildRoute _ default_options i) as [nx|] eqn:Eb; simpl; [|done].
  apply build_route_ok in Eb as [Hr ->]. intros [= <-]. by exists e, m', n'.
Qed.

Lemma set_pinned_verify r b : Route_Verify (set_pinned r b) = Route_Verify r.
Proof. done. Qed.

Lemma rotate_guarded_pinned cur pool g pick i next :
  RotateGuarded cur pool g pick i = Ok next → GuardSet_Guards g cur = true →
  (length (Hops cur) ≤ 2)%nat ∧ (∃ n, Route_RotateExit cur n i = Ok next)
  ∨ ∃ m n, Route_RotateDownstream cur m n i = Ok next.
Proof.
  unfold RotateGuarded. intros E Hg. rewrite Hg in E.
  destruct (length (Hops cur) =? 0)%nat; [done|]. case_match; [done|].
  destruct (Nat.leb_spec (length (Hops cur)) 2).
  - left. destruct (pick 0%nat _) as [n|]; [|done]. eauto.
  - right. destruct (pick 0%nat _) as [m|]; [|done]. destruct (pick 1%nat _) as [n|]; [|done]. eauto.
Qed.

(** Rotation never exposes the client to a new entry.  A guarded rotation
    of a route with at least two hops, whatever the pool and whatever the
    selection function answers, yields a verified, separated route of the
    same length behind the same entry, node, endpoint and key, still marked
    pinned; on three hops the middle may change, on two only the exit. *)
Theorem rotation_keeps_guard cur pool g pick i next :
  GuardSet_Guards g cur = true → (2 ≤ length (Hops cur))%nat →
  RotateGuarded cur pool g pick i = Ok next →
  Route_Verify next = Ok tt ∧ length (Hops next) = length (Hops cur) ∧ EntryPinned next = true
  ∧ ∃ h h', head (Hops cur) = Some h ∧ head (Hops next) = Some h' ∧ same_hop h h'.
Proof.
  intros Hg Hl E. destruct (rotate_guarded_pinned _ _ _ _ _ _ E Hg) as [[Hl2 [n Hr]]|(m & n & Hr)].
  - apply rotate_exit_inv in Hr as [Hr ->]; [|done].
    split; [by apply (built_verifies _ default_options)|].
    destruct (Hops cur) as [|h [|h' [|? ?]]]; simpl in Hl, Hl2; try lia.
    split; [done|]. split; [done|]. by exists h, (hop_of (node_of_hop h)).
  - apply rotate_downstream_inv in Hr as (e & m' & n' & Eh & Hr & ->).
    split; [by apply (built_verifies _ default_options)|]. rewrite Eh.
    split; [done|]. split; [done|]. by exists e, (hop_of (node_of_hop e)).
Qed.

(** Rotation forgets the price of the hops it keeps.  The kept hops are
    rebuilt from their id, key and endpoint alone, so after an exit rotation
    of a longer route every hop but the last carries price zero and no
    country, whatever it carried before. *)
Theorem rotation_drops_price r n i next :
  (2 ≤ length (Hops r))%nat → Route_RotateExit r n i = Ok next →
  ∀ k h, Hops next !! k = Some h → (k < length (Hops r) - 1)%nat →
    hop_PricePerHour h = f0 ∧ hop_Country h = "".
Proof.
  intros Hl [_ ->]%rotate_exit_inv k h; [|done]. simpl.
  change (map hop_of) with (fmap (M := list) hop_of).
  change (map node_of_hop) with (fmap (M := list) node_of_hop).
  assert (length (removelast (Hops r)) = length (Hops r) - 1)%nat as Hrl.
  { destruct (Hops r) as [|h0 l]; [simpl in Hl; lia|]. rewrite removelast_firstn_len, length_firstn.
    simpl. lia. }
  intros Hk Hlt. rewrite fmap_app, lookup_app_l in Hk by (rewrite !length_fmap, Hrl; done).
  rewrite !list_lookup_fmap in Hk. destruct (removelast (Hops r) !! k); [|done].
  by injection Hk as <-.
Qed.
End proofs.

(** ** Concrete rotations *)

Section demo.
#[local] Existing Instance ascii_unicode.

Definition first_of : picker := fun _ pool =>
  match pool with n :: _ => Ok n | [] => Err "empty pool" end.
Definition demo_guard : option GuardSet := Some (PinGuard (demo_node "a" f1) 5).
Definition demo_rotation : result error Route :=
  RotateGuarded (demo_route ["a"; "b"; "c"]) (demo_nodes ["d"; "e"; "a"; "b"]) demo_guard
    first_of demo_io.
Definition demo_rotated : Route :=
  match demo_rotation with Ok r => r | Err _ => demo_route [] end.

Example demo_rotation_path : Route_NodeIDs demo_rotated = ["a"; "d"; "e"].
Proof. vm_compute. reflexivity. Qed.

Lemma rotation_keeps_guard_witness :
  Route_Verify demo_rotated = Ok tt ∧ length (Hops demo_rotated) = 3%nat.
Proof.
  destruct (rotation_keeps_guard (demo_route ["a"; "b"; "c"]) (demo_nodes ["d"; "e"; "a"; "b"])
    demo_guard first_of demo_io demo_rotated) as (Hv & Hl & _).
  - vm_compute. reflexivity.
  - vm_compute. lia.
  - vm_compute. reflexivity.
  - split; [exact Hv|exact Hl].
Defined.

Definition demo_exit_rotated : Route :=
  match Route_RotateExit (demo_route ["a"; "b"]) (demo_node "z" f1) demo_io with
  | Ok r => r | Err _ => demo_route [] end.

Lemma rotation_drops_price_witness :
  hop_PricePerHour <$> head (Hops (demo_route ["a"; "b"])) = Some f1
  ∧ hop_PricePerHour <$> head (Hops demo_exit_rotated) = Some f0.
Proof.
  split; [vm_compute; reflexivity|].
  assert (∃ h, Hops demo_exit_rotated !! 0%nat = Some h) as [h Hh]
    by (vm_compute; eexists; reflexivity).
  destruct (rotation_drops_price (demo_route ["a"; "b"]) (demo_node "z" f1) demo_io
    demo_exit_rotated ltac:(vm_compute; lia) ltac:(vm_compute; reflexivity) 0%nat h Hh
    ltac:(vm_compute; lia)) as [Hp _].
  change (head (Hops demo_exit_rotated)) with (Hops demo_exit_rotated !! 0%nat).
  rewrite Hh. simpl. by rewrite Hp.
Defined.
End demo.
