(* ===== verification/Latency.v ===== *)
(** * Latency: scoring and path selection (internal/multihop/latency.go)

    The aggregator's smoothed round-trip times, the blended score, the stable
    ranking and the greedy selection of a separated path. *)

From Stdlib Require Import ZArith Lia.
From S2P Require Import Prelude Float64 GoStrings Route.

(** [alpha] and [1-alpha] are exact constants before their conversion. *)
Definition alpha : float64 := f_const 3 10.
Definition one_minus_alpha : float64 := f_const 7 10.

Record Aggregator := mkAggregator {
  ewma : gmap string float64;
  samples : gmap string Z;
  last_at : gmap string time;
  static : gmap string NodeInfo
}.

Definition NewAggregator : Aggregator := mkAggregator ∅ ∅ ∅ ∅.

Definition set_latency (n : NodeInfo) (l : float64) : NodeInfo :=
  mkNodeInfo (ni_NodeID n) (ni_WGPubKey n) (ni_Endpoint n) (ni_Region n) (ni_Country n)
    (ni_City n) (ni_PricePerHour n) (ni_CapacityMax n) (ni_Load n) l (ni_Uptime n)
    (ni_History n) (ni_Protocol n) (ni_Bonded n).

Definition Aggregator_Observe (a : Aggregator) (node : NodeInfo) (rttMs : float64) (now : time)
  : Aggregator :=
  if f_lt rttMs f0 then a
  else
    let id := ni_NodeID node in
    let smoothed :=
      if map_count (samples a) id =? 0 then rttMs
      else f_add (f_mul alpha rttMs) (f_mul one_minus_alpha (default f0 (ewma a !! id))) in
    mkAggregator (<[id := smoothed]> (ewma a))
      (<[id := map_count (samples a) id + 1]> (samples a))
      (<[id := now]> (last_at a))
      (<[id := set_latency node smoothed]> (static a)).

Definition Aggregator_Latency (a : Aggregator) (nodeID : string) : option float64 :=
  ewma a !! nodeID.

(** [smoothed] is [None] for a node without samples. *)
Definition Score (n : NodeInfo) (smoothed : option float64) : float64 :=
  let lat := default (f_of_Z 500) smoothed in
  let s := (lat + f_of_Z 200 * ni_Load n + f_of_Z 10 * ni_PricePerHour n
            + f_of_Z 100 * (f1 - ni_Uptime n) + f_of_Z 50 * (f1 - ni_History n))%f64 in
  if f_lt s f0 then f0 else s.

Definition rank_less (a : Aggregator) (x y : NodeInfo) : bool :=
  f_lt (Score x (ewma a !! ni_NodeID x)) (Score y (ewma a !! ni_NodeID y)).

Definition Aggregator_Rank (a : Aggregator) (cands : list NodeInfo) : list NodeInfo :=
  sort_stable (rank_less a) cands.

Definition valid_nodes (l : list NodeInfo) : list NodeInfo :=
  filter (fun n => is_ok (NodeInfo_Validate n) = true) l.

Definition Aggregator_PickPair (a : Aggregator) (cands : list NodeInfo)
  : option (NodeInfo * NodeInfo) :=
  match valid_nodes (Aggregator_Rank a cands) with
  | entry :: exit :: _ => Some (entry, exit)
  | _ => None
  end.

Definition FilterByBudget (cands : list NodeInfo) (budgetMs : float64) : list NodeInfo :=
  if f_le budgetMs f0 then cands
  else filter (fun n => over_budget budgetMs n = false) cands.

(** The latency a fast selection ranks by. *)
Definition fast_latency (a : Aggregator) (n : NodeInfo) : float64 :=
  match ewma a !! ni_NodeID n with
  | Some v => v
  | None => if f_le (ni_Latency n) f0 then f_of_Z 500 else ni_Latency n
  end.
Definition fast_less (a : Aggregator) (x y : NodeInfo) : bool :=
  f_lt (fast_latency a x) (fast_latency a y).

Definition containsNode (path : list NodeInfo) (id : string) : bool :=
  existsb (fun n => String.eqb (ni_NodeID n) id) path.

Definition tradeoff_budget (t : Tradeoff) : float64 :=
  if String.eqb t TradeoffFast then FastLatencyBudgetMs
  else if String.eqb t TradeoffSafe then SafeLatencyBudgetMs else f0.

Section select.
Context `{Unicode}.

(** One pass of the greedy loop over the ranked nodes. *)
Fixpoint greedy_pass (safe_first : bool) (maxHops : nat) (ranked path : list NodeInfo)
  (usedCountries : gmap string bool) : list NodeInfo * gmap string bool :=
  match ranked with
  | [] => (path, usedCountries)
  | n :: ranked =>
    if (maxHops <=? length path)%nat then (path, usedCountries)
    else if containsNode path (ni_NodeID n) then greedy_pass safe_first maxHops ranked path usedCountries
    else
      let c := country_key (ni_Country n) in
      if safe_first && negb (String.eqb c "") && map_flag usedCountries c
      then greedy_pass safe_first maxHops ranked path usedCountries
      else
        match checkDistinct (path ++ [n]) with
        | Err _ => greedy_pass safe_first maxHops ranked path usedCountries
        | Ok _ =>
          greedy_pass safe_first maxHops ranked (path ++ [n])
            (if String.eqb c "" then usedCountries else <[c := true]> usedCountries)
        end
  end.

Definition greedy_path (tradeoff : Tradeoff) (maxHops : nat) (ranked : list NodeInfo)
  : list NodeInfo :=
  let safe := String.eqb tradeoff TradeoffSafe in
  let '(path, used) := greedy_pass safe maxHops ranked [] ∅ in
  if (length path <? maxHops)%nat then (greedy_pass false maxHops ranked path used).1 else path.

Definition Aggregator_SelectRoute (a : Aggregator) (cands : list NodeInfo) (maxHops : Z)
  (tradeoff : Tradeoff) : result error (list NodeInfo) :=
  let maxHops := hop_cap maxHops in
  let valid := valid_nodes cands in
  if (length valid =? 0)%nat then Err ErrNoValidNodes
  else
    let filtered := FilterByBudget valid (tradeoff_budget tradeoff) in
    let valid := if (0 <? length filtered)%nat then filtered else valid in
    let ranked := if String.eqb tradeoff TradeoffFast then sort_stable (fast_less a) valid
                  else Aggregator_Rank a valid in
    let path := greedy_path tradeoff maxHops ranked in
    if (length path =? 0)%nat then Err ErrNoSeparatedPath else Ok path.
End select.

(** ** Lemmas *)

Section proofs.
Context `{Unicode}.

(** What every pass maintains: the path is separated, within the cap, and
    drawn from the candidates. *)
Definition good_path (cap : nat) (pool path : list NodeInfo) : Prop :=
  separated path ∧ (length path ≤ cap)%nat ∧ path ⊆ pool.

Lemma greedy_pass_good safe cap pool ranked path used : ranked ⊆ pool →
  good_path cap pool path → good_path cap pool (greedy_pass safe cap ranked path used).1.
Proof.
  revert path used. induction ranked as [|n ranked IH]; intros path used Hr Hp; [done|]. simpl.
  assert (ranked ⊆ pool) as Hr' by set_solver.
  destruct (Nat.leb_spec cap (length path)); [done|]. case_match; [by apply IH|].
  case_match; [by apply IH|]. destruct (checkDistinct (path ++ [n])) as [[]|] eqn:E; [|by apply IH].
  apply IH; [done|]. split; [by apply checkDistinct_ok|]. rewrite length_app. simpl.
  split; [lia|]. destruct Hp as (_ & _ & Hsub). set_solver.
Qed.

(** A pass never shortens the path, and an empty path takes the first node. *)
Lemma greedy_pass_grows safe cap ranked path used :
  (length path ≤ length (greedy_pass safe cap ranked path used).1)%nat.
Proof.
  revert path used. induction ranked as [|n ranked IH]; intros path used; simpl; [done|].
  case_match; [done|]. do 2 (case_match; [apply IH|]).
  destruct (checkDistinct _); [|apply IH]. etrans; [|apply IH]. rewrite length_app. simpl. lia.
Qed.

Lemma greedy_pass_starts safe cap n ranked : (1 ≤ cap)%nat →
  (1 ≤ length (greedy_pass safe cap (n :: ranked) [] ∅).1)%nat.
Proof.
  intros Hc. simpl. destruct (Nat.leb_spec cap 0); [lia|].
  unfold map_flag. rewrite lookup_empty, andb_false_r.
  rewrite (proj2 (checkDistinct_ok [n])) by apply separated_singleton.
  etrans; [|apply greedy_pass_grows]. done.
Qed.

Lemma greedy_path_good t cap ranked : good_path cap ranked (greedy_path t cap ranked).
Proof.
  unfold greedy_path.
  assert (good_path cap ranked []) as H0
    by (split; [repeat split; constructor|]; split; [simpl; lia|set_solver]).
  pose proof (greedy_pass_good (String.eqb t TradeoffSafe) cap ranked ranked [] ∅
                ltac:(done) H0) as H1.
  destruct (greedy_pass _ cap ranked [] ∅) as [path used]. simpl in H1.
  case_match; [by apply greedy_pass_good|done].
Qed.

Lemma greedy_path_nonempty t cap ranked : (1 ≤ cap)%nat → ranked ≠ [] →
  (1 ≤ length (greedy_path t cap ranked))%nat.
Proof.
  intros Hc Hr. destruct ranked as [|n ranked]; [done|]. unfold greedy_path.
  pose proof (greedy_pass_starts (String.eqb t TradeoffSafe) cap n ranked Hc) as H1.
  destruct (greedy_pass _ cap (n :: ranked) [] ∅) as [path used]. simpl in H1.
  case_match; [|done]. pose proof (greedy_pass_grows false cap (n :: ranked) path used). lia.
Qed.

Lemma valid_nodes_dialable l : Forall dialable (valid_nodes l).
Proof.
  apply Forall_forall. intros n [Hn _]%list_elem_of_filter. unfold dialable.
  by destruct (NodeInfo_Validate n) as [[]|].
Qed.

Lemma FilterByBudget_sub l b : FilterByBudget l b ⊆ l.
Proof. unfold FilterByBudget. case_match; [done|]. intros x [_ ?]%list_elem_of_filter. done. Qed.

(** The ranked pool of a selection: valid candidates, none when there are none. *)
Lemma ranked_pool a cands t : let valid := valid_nodes cands in
  let filtered := FilterByBudget valid (tradeoff_budget t) in
  let pool := if (0 <? length filtered)%nat then filtered else valid in
  let ranked := if String.eqb t TradeoffFast then sort_stable (fast_less a) pool
                else Aggregator_Rank a pool in
  ranked ⊆ valid ∧ (valid ≠ [] → ranked ≠ []).
Proof.
  intros valid filtered pool ranked.
  assert (ranked ≡ₚ pool) as Hp
    by (unfold ranked, Aggregator_Rank; case_match; apply sort_stable_perm).
  assert (pool ⊆ valid) as Hs
    by (unfold pool; case_match; [apply FilterByBudget_sub|done]).
  split; [intros x; rewrite Hp; apply Hs|]. intros Hv Hr. rewrite Hr in Hp.
  apply Permutation_nil_l in Hp. unfold pool in Hp.
  destruct (Nat.ltb_spec 0 (length filtered)) as [Hl|Hl]; [rewrite <- Hp in Hl; simpl in Hl; lia|done].
Qed.

(** A selected path can always be built.  Whatever the measurements, the
    candidates, the cap and the trade-off, selection fails exactly when no
    candidate can be dialled; otherwise it returns between one and the cap
    (at most three) candidates that [BuildRoute] accepts as a route. *)
Theorem select_route_builds a cands maxHops t i :
  (is_ok (Aggregator_SelectRoute a cands maxHops t) = false ↔ valid_nodes cands = [])
  ∧ ∀ path, Aggregator_SelectRoute a cands maxHops t = Ok path →
      (1 ≤ length path ≤ hop_cap maxHops)%nat ∧ path ⊆ cands
      ∧ is_ok (BuildRoute path default_options i) = true.
Proof.
  unfold Aggregator_SelectRoute.
  pose proof (hop_cap_le maxHops) as Hcap. destruct (ranked_pool a cands t) as [Hsub Hne].
  destruct (Nat.eqb_spec (length (valid_nodes cands)) 0) as [Hv|Hv].
  { apply nil_length_inv in Hv. by split. }
  assert (valid_nodes cands ≠ []) as Hv' by (intros E; by rewrite E in Hv).
  specialize (Hne Hv').
  match goal with |- context [greedy_path t ?c ?r] =>
    pose proof (greedy_path_nonempty t c r ltac:(lia) Hne) as Hl;
    pose proof (greedy_path_good t c r) as (Hs & Hlen & Hin);
    set (p := greedy_path t c r) in * end.
  destruct (Nat.eqb_spec (length p) 0); [lia|].
  split; [done|]. intros path [= <-]. split; [lia|].
  split. { intros x Hx. apply Hin, Hsub in Hx. by apply list_elem_of_filter in Hx as [_ ?]. }
  assert (BuildRoute p default_options i = Ok (built p i)) as ->; [|done].
  apply build_route_ok. split; [|done]. split; [change (hop_cap _) with 3%nat; lia|].
  split; [|split; [exact Hs|by split]]. apply Forall_forall. intros x Hx. apply Hin, Hsub in Hx.
  by eapply Forall_forall in Hx; [|apply valid_nodes_dialable].
Qed.
End proofs.

Section demo.
#[local] Existing Instance ascii_unicode.

Definition boxed (id key host : string) : NodeInfo := bare_node id key (host +:+ ":51820").

(** The greedy path need not be the longest.  A best-ranked node that
    shares a machine with one candidate and an operator key with another
    shuts both out, although those two form a route. *)
Theorem select_route_not_longest :
  let a := boxed "a" "k2" "h1" in let b := boxed "b" "k1" "h1" in let c := boxed "c" "k2" "h2" in
  Aggregator_SelectRoute NewAggregator [a; b; c] 2 TradeoffBalanced = Ok [a]
  ∧ is_ok (BuildRoute [b; c] default_options demo_io) = true.
Proof. vm_compute. split; reflexivity. Qed.
End demo.
