(* ===== verification/Circuit.v ===== *)
(** * Circuit: segmented circuits and their rotation (internal/multihop/circuit.go,
    rotator.go, threehop.go, observability.go)

    Builders, verification and the per-hop WireGuard segments of a circuit;
    the rotator that swaps hops of the active circuit; what each position can
    see.  [RotateDownstream] releases the rotator's lock between reading the
    circuit and committing the new one, so its two halves are separate
    definitions. *)

From Stdlib Require Import ZArith Lia.
From S2P Require Import Prelude Float64 GoStrings Route.

Record HopPeer := mkHopPeer {
  hp_PublicKey : string; hp_Endpoint : string; hp_AllowedIPs : list string; hp_Keepalive : Z }.

Record HopConfig := mkHopConfig {
  hc_Role : string;
  hc_NodeID : string;
  hc_LocalPrivateKey : string;
  hc_Addresses : list string;
  hc_DNS : list string;
  hc_Peer : HopPeer
}.

Definition zero_peer : HopPeer := mkHopPeer "" "" [] 0.
Definition zero_config : HopConfig := mkHopConfig "" "" "" [] [] zero_peer.
Definition zero_node : NodeInfo := bare_node "" "" "".

Record Circuit := mkCircuit {
  c_ID : string;
  c_Hops : Z;
  Entry : NodeInfo;
  Middle : NodeInfo;
  Exit : NodeInfo;
  c_CreatedAt : time
}.

Section circuit.
Context `{Unicode}.

(** ** Builders *)

Definition BuildSingleHop (node : NodeInfo) (i : build_io) : result error Circuit :=
  let* _ := NodeInfo_Validate node in
  Ok (mkCircuit (fresh_id i) 1 node zero_node node (bio_now i)).

Definition BuildTwoHop (entry exit : NodeInfo) (i : build_io) : result error Circuit :=
  let* _ := result_map_err ErrBadEntry (NodeInfo_Validate entry) in
  let* _ := result_map_err ErrBadExit (NodeInfo_Validate exit) in
  let* _ := checkDistinct [entry; exit] in
  Ok (mkCircuit (fresh_id i) 2 entry zero_node exit (bio_now i)).

Definition BuildThreeHopCircuit (entry middle exit : NodeInfo) (i : build_io)
  : result error Circuit :=
  let* _ := result_map_err ErrBadEntry (NodeInfo_Validate entry) in
  let* _ := result_map_err ErrBadMiddle (NodeInfo_Validate middle) in
  let* _ := result_map_err ErrBadExit (NodeInfo_Validate exit) in
  let* _ := checkDistinct [entry; middle; exit] in
  Ok (mkCircuit (fresh_id i) 3 entry middle exit (bio_now i)).

(** The legacy builder behind the flag. *)
Definition BuildThreeHop (threeHopEnabled : bool) (entry middle exit : NodeInfo) (i : build_io)
  : result error Circuit :=
  if negb threeHopEnabled then Err ErrThreeHopDisabled
  else
    let* _ := NodeInfo_Validate entry in
    let* _ := NodeInfo_Validate middle in
    let* _ := NodeInfo_Validate exit in
    let* _ := checkDistinct [entry; middle; exit] in
    Ok (mkCircuit (fresh_id i) 3 entry middle exit (bio_now i)).

(** ** Reading and verifying *)

Definition Circuit_Nodes (c : Circuit) : list NodeInfo :=
  if c_Hops c =? 3 then [Entry c; Middle c; Exit c]
  else if c_Hops c =? 1 then [Exit c]
  else [Entry c; Exit c].

Definition Circuit_Countries (c : Circuit) : list string := map ni_Country (Circuit_Nodes c).

Definition Circuit_ToRoute (c : Circuit) (i : build_io) : result error Route :=
  BuildRoute (Circuit_Nodes c) default_options i.

Definition Circuit_Verify (c : Circuit) : result error unit :=
  if String.eqb (c_ID c) "" then Err ErrCircuitID
  else if c_Hops c =? 1 then
    if String.eqb (ni_NodeID (Entry c)) "" || String.eqb (ni_NodeID (Exit c)) ""
    then Err ErrMissingNode
    else result_map_err ErrBadExit (NodeInfo_Validate (Exit c))
  else if c_Hops c =? 2 then
    let* _ := result_map_err ErrBadEntry (NodeInfo_Validate (Entry c)) in
    let* _ := result_map_err ErrBadExit (NodeInfo_Validate (Exit c)) in
    checkDistinct [Entry c; Exit c]
  else if c_Hops c =? 3 then
    let* _ := result_map_err ErrBadEntry (NodeInfo_Validate (Entry c)) in
    let* _ := result_map_err ErrBadMiddle (NodeInfo_Validate (Middle c)) in
    let* _ := result_map_err ErrBadExit (NodeInfo_Validate (Exit c)) in
    checkDistinct [Entry c; Middle c; Exit c]
  else Err (ErrUnsupportedHops (c_Hops c)).
End circuit.

(** ** Segments *)

Definition full_tunnel : list string := ["0.0.0.0/0"; "::/0"].
Definition peer_of (n : NodeInfo) : HopPeer :=
  mkHopPeer (ni_WGPubKey n) (ni_Endpoint n) full_tunnel 25.

Definition Circuit_EntryConfig (c : Circuit) (dns : list string) : HopConfig :=
  let peer := if c_Hops c =? 1 then Exit c else Entry c in
  let role := if c_Hops c =? 1 then "single" else "entry" in
  mkHopConfig role (ni_NodeID peer) "" ["10.200.0.2/32"] dns (peer_of peer).

Definition Circuit_ExitDescriptor (c : Circuit) : HopConfig :=
  mkHopConfig "exit" (ni_NodeID (Exit c)) "" [] [] (peer_of (Exit c)).

Definition Circuit_MiddleConfig (c : Circuit) : HopConfig :=
  if negb (c_Hops c =? 3) then zero_config
  else mkHopConfig "middle" (ni_NodeID (Middle c)) "" [] [] (peer_of (Middle c)).

Definition Circuit_Chain (c : Circuit) : list HopConfig :=
  [Circuit_EntryConfig c []]
  ++ (if c_Hops c =? 3 then [Circuit_MiddleConfig c] else [])
  ++ [Circuit_ExitDescriptor c].

(** ** Exposure *)

Record Exposure := mkExposure {
  Position : string; SeesClientIP : bool; SeesDestination : bool; SeesPayloadPlain : bool;
  Summary : string }.

Definition EntryExposure : Exposure := mkExposure "entry" true false false
  "entry knows WHO is connected (client IP) but not WHERE they go (destination hidden by inner layer to exit)".
Definition ExitExposure : Exposure := mkExposure "exit" false true false
  "exit knows WHERE traffic goes (destination) but not WHO sent it (client IP hidden behind entry); sees only whatever plaintext the app protocol itself exposes".
Definition SingleHopExposure : Exposure := mkExposure "single" true true false
  "single-hop fallback: the lone node sees both client IP and destination (no separation); UI must badge this distinctly".
Definition MiddleExposure : Exposure := mkExposure "middle" false false false
  "middle knows NEITHER end: peers are entry and exit only, cells are doubly encrypted; timing + volume only".
Definition Exposures (hops : Z) : list Exposure :=
  if hops =? 1 then [SingleHopExposure]
  else if hops =? 3 then [EntryExposure; MiddleExposure; ExitExposure]
  else [EntryExposure; ExitExposure].

(** ** The rotator *)

Record RotationRecord := mkRotationRecord {
  rr_At : time; OldEntry : string; NewEntry : string; ExitKept : string; Reason : string }.

(** [notified] is what the callback received; there may be no callback. *)
Record Rotator := mkRotator {
  current : Circuit;
  history : list RotationRecord;
  onRotated : bool;
  notified : list (Circuit * Circuit)
}.

Section rotator.
Context `{Unicode}.

Definition NewRotator (initial : option Circuit) (cb : bool) : result error Rotator :=
  match initial with
  | None => Err ErrMissingNode
  | Some c => let* _ := Circuit_Verify c in Ok (mkRotator c [] cb [])
  end.

(** The locked tail of every rotation: commit, log, notify. *)
Definition commit_rotation (r : Rotator) (old next : Circuit) (exitKept reason : string)
  (now : time) : Rotator :=
  mkRotator next
    (history r ++ [mkRotationRecord now (ni_NodeID (Entry old)) (ni_NodeID (Entry next)) exitKept reason])
    (onRotated r) (if onRotated r then notified r ++ [(old, next)] else notified r).

Definition Rotator_RotateEntry (r : Rotator) (newEntry : NodeInfo) (reason : string) (i : build_io)
  (now : time) : Rotator * result error Circuit :=
  match NodeInfo_Validate newEntry with
  | Err e => (r, Err e)
  | Ok _ =>
    let old := current r in
    let next :=
      if c_Hops old =? 1 then BuildSingleHop newEntry i
      else if c_Hops old =? 3 then BuildThreeHopCircuit newEntry (Middle old) (Exit old) i
      else if String.eqb (ni_NodeID newEntry) (ni_NodeID (Exit old)) then Err ErrEntryIsExit
      else BuildTwoHop newEntry (Exit old) i in
    match (let* next := next in let* _ := Circuit_Verify next in Ok next) with
    | Err e => (r, Err e)
    | Ok next => (commit_rotation r old next (ni_NodeID (Exit next)) reason now, Ok next)
    end
  end.

Definition Rotator_RotateExit (r : Rotator) (newExit : NodeInfo) (reason : string) (i : build_io)
  (now : time) : Rotator * result error Circuit :=
  match NodeInfo_Validate newExit with
  | Err e => (r, Err e)
  | Ok _ =>
    let old := current r in
    let next :=
      if c_Hops old =? 1 then BuildSingleHop newExit i
      else if c_Hops old =? 3 then BuildThreeHopCircuit (Entry old) (Middle old) newExit i
      else BuildTwoHop (Entry old) newExit i in
    match (let* next := next in let* _ := Circuit_Verify next in Ok next) with
    | Err e => (r, Err e)
    | Ok next => (commit_rotation r old next "" reason now, Ok next)
    end
  end.

(** The first locked section, and the build that follows it. *)
Definition downstream_prepare (r : Rotator) (newMiddle newExit : NodeInfo) (i : build_io)
  : result error (Circuit * Circuit) :=
  let old := current r in
  if negb (c_Hops old =? 3) then Err ErrNeedsThreeHops
  else
    let* next := BuildThreeHopCircuit (Entry old) newMiddle newExit i in
    let* _ := Circuit_Verify next in
    Ok (old, next).

Definition Rotator_RotateDownstream (r : Rotator) (newMiddle newExit : NodeInfo) (reason : string)
  (i : build_io) (now : time) : Rotator * result error Circuit :=
  match downstream_prepare r newMiddle newExit i with
  | Err e => (r, Err e)
  | Ok (old, next) => (commit_rotation r old next "" reason now, Ok next)
  end.

Inductive step : Rotator → Rotator → Prop :=
| step_entry r n reason i now : step r (Rotator_RotateEntry r n reason i now).1
| step_exit r n reason i now : step r (Rotator_RotateExit r n reason i now).1
| step_downstream r m n reason i now : step r (Rotator_RotateDownstream r m n reason i now).1.

(** ** Lemmas *)

(** A verified circuit: right shape, dialable and separated nodes. *)
Lemma single_inv n i c : BuildSingleHop n i = Ok c →
  dialable n ∧ c = mkCircuit (fresh_id i) 1 n zero_node n (bio_now i).
Proof.
  unfold BuildSingleHop, dialable. destruct (NodeInfo_Validate n) as [[]|]; simpl; [|done].
  by intros [= <-].
Qed.

Lemma two_inv e x i c : BuildTwoHop e x i = Ok c →
  dialable e ∧ dialable x ∧ separated [e; x]
  ∧ c = mkCircuit (fresh_id i) 2 e zero_node x (bio_now i).
Proof.
  unfold BuildTwoHop, dialable. destruct (NodeInfo_Validate e) as [[]|]; simpl; [|done].
  destruct (NodeInfo_Validate x) as [[]|]; simpl; [|done].
  destruct (checkDistinct _) as [[]|] eqn:E; simpl; [|done].
  apply checkDistinct_ok in E. by intros [= <-].
Qed.

Lemma three_inv e m x i c : BuildThreeHopCircuit e m x i = Ok c →
  dialable e ∧ dialable m ∧ dialable x ∧ separated [e; m; x]
  ∧ c = mkCircuit (fresh_id i) 3 e m x (bio_now i).
Proof.
  unfold BuildThreeHopCircuit, dialable. destruct (NodeInfo_Validate e) as [[]|]; simpl; [|done].
  destruct (NodeInfo_Validate m) as [[]|]; simpl; [|done].
  destruct (NodeInfo_Validate x) as [[]|]; simpl; [|done].
  destruct (checkDistinct _) as [[]|] eqn:E; simpl; [|done].
  apply checkDistinct_ok in E. by intros [= <-].
Qed.

(** The condition [Verify] checks. *)
Definition verified (c : Circuit) : Prop :=
  c_ID c ≠ "" ∧ Forall dialable (Circuit_Nodes c) ∧ separated (Circuit_Nodes c)
  ∧ (c_Hops c = 1 ∧ ni_NodeID (Entry c) ≠ "" ∨ c_Hops c = 2 ∨ c_Hops c = 3).

Lemma verify_ok c : Circuit_Verify c = Ok tt ↔ verified c.
Proof.
  unfold Circuit_Verify, verified, Circuit_Nodes.
  destruct (String.eqb_spec (c_ID c) ""); [naive_solver|].
  destruct (Z.eqb_spec (c_Hops c) 1) as [->|]; simpl.
  { destruct (String.eqb_spec (ni_NodeID (Entry c)) ""); simpl; [naive_solver|].
    rewrite Forall_singleton. unfold dialable. pose proof (separated_singleton (Exit c)).
    destruct (String.eqb_spec (ni_NodeID (Exit c)) "") as [E|].
    - split; [done|]. intros (_ & Hd & _). apply validate_ok in Hd as [? _]. done.
    - destruct (NodeInfo_Validate (Exit c)) as [[]|]; naive_solver. }
  destruct (Z.eqb_spec (c_Hops c) 2) as [->|]; simpl.
  { rewrite !Forall_cons, <- checkDistinct_ok. unfold dialable.
    destruct (NodeInfo_Validate (Entry c)) as [[]|]; simpl; [|naive_solver].
    destruct (NodeInfo_Validate (Exit c)) as [[]|]; naive_solver. }
  destruct (Z.eqb_spec (c_Hops c) 3) as [->|]; simpl; [|naive_solver].
  rewrite !Forall_cons, <- checkDistinct_ok. unfold dialable.
  destruct (NodeInfo_Validate (Entry c)) as [[]|]; simpl; [|naive_solver].
  destruct (NodeInfo_Validate (Middle c)) as [[]|]; simpl; [|naive_solver].
  destruct (NodeInfo_Validate (Exit c)) as [[]|]; naive_solver.
Qed.

Lemma rotate_attempt_inv next c :
  (let* n := next in let* _ := Circuit_Verify n in Ok n) = Ok c →
  next = Ok c ∧ verified c.
Proof.
  destruct next as [n|]; simpl; [|done]. destruct (Circuit_Verify n) as [[]|] eqn:E; simpl; [|done].
  intros [= <-]. by apply verify_ok in E.
Qed.

(** What one rotation may change. *)
Definition one_end (c c' : Circuit) : Prop :=
  c_Hops c ≠ 1 → Entry c' = Entry c
    ∨ Exit c' = Exit c ∧ (c_Hops c = 3 → Middle c' = Middle c).

Definition sound_next (c c' : Circuit) : Prop :=
  verified c' ∧ c_Hops c' = c_Hops c ∧ one_end c c'.

Lemma sound_self c : verified c → sound_next c c.
Proof. intros Hv. split; [done|]. split; [done|]. intros _. by left. Qed.

Lemma verified_hops c : verified c → c_Hops c = 1 ∨ c_Hops c = 2 ∨ c_Hops c = 3.
Proof. unfold verified. naive_solver. Qed.

Lemma rotate_entry_sound r n reason i now : verified (current r) →
  sound_next (current r) (current (Rotator_RotateEntry r n reason i now).1).
Proof.
  intros Hv. unfold Rotator_RotateEntry. destruct (NodeInfo_Validate n); [|by apply sound_self].
  destruct (let* next := _ in _) as [c|] eqn:E; [|by apply sound_self].
  apply rotate_attempt_inv in E as [E Hc]. split; [done|]. unfold one_end. simpl.
  destruct (verified_hops _ Hv) as [Hh|[Hh|Hh]]; rewrite Hh in *; simpl in E.
  - by apply single_inv in E as [_ ->].
  - destruct (String.eqb _ _); [done|]. apply two_inv in E as (_&_&_&->).
    split; [done|]. intros _. by right.
  - apply three_inv in E as (_&_&_&_&->). split; [done|]. intros _. by right.
Qed.

Lemma rotate_exit_sound r n reason i now : verified (current r) →
  sound_next (current r) (current (Rotator_RotateExit r n reason i now).1).
Proof.
  intros Hv. unfold Rotator_RotateExit. destruct (NodeInfo_Validate n); [|by apply sound_self].
  destruct (let* next := _ in _) as [c|] eqn:E; [|by apply sound_self].
  apply rotate_attempt_inv in E as [E Hc]. split; [done|]. unfold one_end. simpl.
  destruct (verified_hops _ Hv) as [Hh|[Hh|Hh]]; rewrite Hh in *; simpl in E.
  - by apply single_inv in E as [_ ->].
  - apply two_inv in E as (_&_&_&->). split; [done|]. intros _. by left.
  - apply three_inv in E as (_&_&_&_&->). split; [done|]. intros _. by left.
Qed.

Lemma downstream_prepare_inv r m n i old next : downstream_prepare r m n i = Ok (old, next) →
  old = current r ∧ c_Hops old = 3 ∧ verified next
  ∧ next = mkCircuit (fresh_id i) 3 (Entry old) m n (bio_now i).
Proof.
  unfold downstream_prepare. destruct (Z.eqb_spec (c_Hops (current r)) 3); simpl; [|done].
  destruct (BuildThreeHopCircuit _ m n i) as [c|] eqn:E; simpl; [|done].
  destruct (Circuit_Verify c) as [[]|] eqn:Ev; simpl; [|done]. intros [= <- <-].
  apply verify_ok in Ev. by apply three_inv in E as (_&_&_&_&->).
Qed.

Lemma rotate_downstream_sound r m n reason i now : verified (current r) →
  sound_next (current r) (current (Rotator_RotateDownstream r m n reason i now).1).
Proof.
  intros Hv. unfold Rotator_RotateDownstream.
  destruct (downstream_prepare r m n i) as [[old next]|] eqn:E; [|by apply sound_self].
  apply downstream_prepare_inv in E as (-> & Hh & Hc & ->). simpl.
  split; [done|]. split; [done|]. intros _. by left.
Qed.

Lemma step_sound r r' : step r r' → verified (current r) → sound_next (current r) (current r').
Proof.
  intros [] Hv; [by apply rotate_entry_sound|by apply rotate_exit_sound|
    by apply rotate_downstream_sound].
Qed.

Lemma NewRotator_ok initial cb r : NewRotator initial cb = Ok r →
  ∃ c, initial = Some c ∧ verified c ∧ r = mkRotator c [] cb [].
Proof.
  unfold NewRotator. destruct initial as [c|]; [|done].
  destruct (Circuit_Verify c) as [[]|] eqn:E; simpl; [|done]. apply verify_ok in E.
  intros [= <-]. eauto.
Qed.

(** C9: The rotator always holds a verified circuit, and a rotation changes
    one end at most.  From any circuit the rotator accepts, after any
    sequence of rotations, the active circuit passes [Verify] and has the
    hop count it started with; and each further rotation of a circuit with
    more than one hop keeps the entry, or keeps everything downstream of it. *)
Theorem rotator_invariant initial cb r0 r r' :
  NewRotator initial cb = Ok r0 → rtc step r0 r → step r r' →
  Circuit_Verify (current r') = Ok tt
  ∧ Some (c_Hops (current r')) = c_Hops <$> initial
  ∧ one_end (current r) (current r').
Proof.
  intros (c & -> & Hc & ->)%NewRotator_ok Hst Hst'.
  assert (verified (current r) ∧ c_Hops (current r) = c_Hops c) as [Hv Hh].
  { remember (mkRotator c [] cb []) as r0 eqn:E0.
    assert (verified (current r0) ∧ c_Hops (current r0) = c_Hops c) as H0 by by subst.
    clear E0 Hst' r'. induction Hst as [|r1 r2 r3 Hst _ IH]; [done|]. apply IH.
    destruct H0 as [H1 H2]. destruct (step_sound _ _ Hst H1) as (Hv & Hh & _). by rewrite Hh. }
  destruct (step_sound _ _ Hst' Hv) as (Hv' & Hh' & He).
  split; [by apply verify_ok|]. split; [simpl; congruence|done].
Qed.
End rotator.

(** ** Concrete runs *)

Section demo.
#[local] Existing Instance ascii_unicode.

Definition demo_circuit : Circuit :=
  mkCircuit "c-1" 3 (demo_node "a" f1) (demo_node "b" f1) (demo_node "c" f1) 0.
Definition demo_rotator : Rotator := mkRotator demo_circuit [] true [].

Lemma rotator_invariant_witness :
  let r := (Rotator_RotateEntry demo_rotator (demo_node "d" f1) "due" demo_io 1).1 in
  let r' := (Rotator_RotateExit r (demo_node "e" f1) "churn" demo_io 2).1 in
  Circuit_Verify (current r') = Ok tt
  ∧ map ni_NodeID (Circuit_Nodes (current r')) = ["d"; "b"; "e"].
Proof.
  intros r r'. split; [|vm_compute; reflexivity].
  destruct (rotator_invariant (Some demo_circuit) true demo_rotator r r') as (Hv & _ & _);
    [vm_compute; reflexivity| |apply step_exit|exact Hv].
  eapply rtc_once, step_entry.
Defined.

(** A downstream rotation can undo an entry rotation.  Its first half
    reads the entry, an entry rotation commits, and its second half commits
    the circuit built from the stale entry: the replaced entry is back. *)
Theorem downstream_race_restores_entry :
  ∃ old next, downstream_prepare demo_rotator (demo_node "m" f1) (demo_node "x" f1) demo_io
      = Ok (old, next)
    ∧ let r := (Rotator_RotateEntry demo_rotator (demo_node "d" f1) "compromised" demo_io 1).1 in
      ni_NodeID (Entry (current r)) = "d"
      ∧ ni_NodeID (Entry (current (commit_rotation r old next "" "churn" 2))) = "a".
Proof. do 2 eexists. split; [vm_compute; reflexivity|]. vm_compute. split; reflexivity. Qed.
End demo.
