(* ===== verification/RouteBilling.v ===== *)
(** * RouteBilling: one approval for a whole route (internal/payments/multihop.go)

    The single dialog of a multi-hop route and its settlement hop by hop
    through the payment service.  The visiting order of the receipt map is
    chosen anew at each hop. *)

From Stdlib Require Import ZArith Lia.
From S2P Require Import Prelude Float64 GoStrings Crypto.
From S2P Require Route.
From S2P Require Import Dero Payments.

Inductive error :=
| ErrEmptyRoute | ErrQuote (e : Route.error) | ErrDepositBelowCost | ErrService
| ErrSettle (e : Payments.error).

Record MultiHopApproval := mkMultiHopApproval {
  mh_Payload : ApprovalPayload;
  mh_HopQuotes : list Route.HopQuote;
  mh_Total : float64;
  mh_SingleApproval : bool
}.

Definition path_label (hops : list Route.Hop) : string :=
  foldl (fun path e => (if (0 <? fst e)%nat then path +:+ "->" else path) +:+ Route.hop_NodeID (snd e))
    "" (imap pair hops).

Definition ApprovalForRoute (r : option Route.Route) (hours depositDERO : float64)
  (operatorAddr network : string) (balanceDERO : float64) : result error MultiHopApproval :=
  match r with
  | None => Err ErrEmptyRoute
  | Some r =>
    match Route.Route_Exit r with
    | None => Err ErrEmptyRoute
    | Some exit =>
      let* q := result_map_err ErrQuote (Route.QuoteRoute r hours) in
      if f_lt depositDERO (Route.q_Total q) then Err ErrDepositBelowCost
      else
        Ok (mkMultiHopApproval
              (mkApproval (path_label (Route.Hops r)) (Route.hop_Endpoint exit) operatorAddr
                 depositDERO (Route.Route_TotalPricePerHour r) hours network balanceDERO)
              (Route.q_HopQuotes q) (Route.q_Total q) true)
    end
  end.

Section settle.
Context {W : Type} `{WalletClient W} `{Sha256}.

(** The visiting order Go picks for the receipt map. *)
Definition visiting : Type := gmap string Receipt → list (string * Receipt).

Fixpoint settle_hops (s : Service W) (ord : visiting) (now : time) (hops : list Route.Hop)
  (out : list Settlement) : Service W * (list Settlement * option error) :=
  match hops with
  | [] => (s, (out, None))
  | h :: hops =>
    match Service_RecordSettlement s (Route.hop_NodeID h) (ord (receipts s)) now with
    | (s, Err e) => (s, (out, Some (ErrSettle e)))
    | (s, Ok st) =>
      settle_hops s ord now hops
        (if (0 <? length (ReceiptIDs st))%nat then out ++ [st] else out)
    end
  end.

(** [nil] service and route are [None]. *)
Definition SettleRoute (s : Service W) (r : option Route.Route) (ord : visiting) (now : time)
  : Service W * (list Settlement * option error) :=
  match r with
  | None => (s, ([], Some ErrEmptyRoute))
  | Some r =>
    if (length (Route.Hops r) =? 0)%nat then (s, ([], Some ErrEmptyRoute))
    else settle_hops s ord now (Route.Hops r) []
  end.

(** A hop without receipts stops the settlement of its route.  A node
    with nothing to settle is an error of the service, so the hops after it
    are not visited: when the entry is idle nothing at all is settled, no
    matter what the later hops are owed. *)
Theorem idle_hop_stops_settlement s r ord now h :
  head (Route.Hops r) = Some h → range_of (receipts s) (ord (receipts s)) →
  (∀ id rc, receipts s !! id = Some rc → unsettled_for (Route.hop_NodeID h) rc = false) →
  SettleRoute s (Some r) ord now = (s, ([], Some (ErrSettle ErrNothingToSettle))).
Proof.
  intros Hh Hit Hidle. unfold SettleRoute. destruct (Route.Hops r) as [|h0 hops]; [done|].
  injection Hh as ->. simpl. unfold Service_RecordSettlement.
  assert (settle_collect (Route.hop_NodeID h) (ord (receipts s)) = []) as ->; [|done].
  apply elem_of_nil_inv. intros rc Hin. unfold settle_collect, Service_Unsettled in Hin.
  apply list_elem_of_filter in Hin as [Hu Hin].
  apply list_elem_of_fmap in Hin as [[k rc'] [-> Hin]].
  apply (range_of_elem _ _ _ _ Hit) in Hin. simpl in Hu. by rewrite (Hidle _ _ Hin) in Hu.
Qed.
End settle.

(** ** Concrete run: the exit is owed, the entry is idle *)

Section demo.
#[local] Existing Instances ascii_unicode toy_sha256 toy_ed25519.

Definition owed_route : Route.Route := Route.demo_route ["idle"; "node"].

Lemma idle_hop_stops_settlement_witness :
  (SettleRoute demo_two (Some owed_route) map_to_list 9).2
    = ([], Some (ErrSettle ErrNothingToSettle))
  ∧ length (Service_Unsettled "node" (map_to_list (receipts demo_two))) = 2%nat.
Proof.
  split; [|vm_compute; reflexivity].
  rewrite (idle_hop_stops_settlement demo_two owed_route map_to_list 9
    (Route.hop_of (Route.demo_node "idle" f1)) eq_refl (range_of_self _)); [reflexivity|].
  assert (map_Forall (fun _ rc => unsettled_for "idle" rc = false) (receipts demo_two)) as Hf
    by (apply (bool_decide_unpack _); vm_compute; exact I).
  exact Hf.
Defined.
End demo.
