(* ===== verification/NetIP.v ===== *)
(** * NetIP: the address functions of package net the node uses

    [ParseIP], [IP.String] and [ParseCIDR] on dotted IPv4 text, as Go defines
    them: four decimal fields without leading zeros.  Text with a colon is
    IPv6 and goes through the class [IPv6]; the program only compares and
    prints such addresses. *)

From Stdlib Require Import ZArith Lia Ascii.
From S2P Require Import Prelude GoStrings.

(** An address: IPv4 (also when written as an IPv4-mapped IPv6) or IPv6. *)
Inductive IP := V4 (a : Z) | V6 (b : list Z).

Class IPv6 : Type := {
  parse_IPv6 : string → option IP;
  string_IPv6 : list Z → string;
  cidr_IPv6 : string → bool  (* does [ParseCIDR] accept this IPv6 text? *)
}.

(** ** IPv4 text *)

Definition octets (a : Z) : list Z :=
  [a / 2 ^ 24 mod 256; a / 2 ^ 16 mod 256; a / 2 ^ 8 mod 256; a mod 256].

Definition of_octets (o : list Z) : Z := foldl (fun a b => a * 256 + b) 0 o.

Definition ipv4_String (a : Z) : string := strings_Join (map fmt_d (octets a)) ".".

Definition digit (c : Ascii.ascii) : option Z :=
  let z := byte_val c - 48 in if (0 <=? z) && (z <=? 9) then Some z else None.

Fixpoint digits (l : list Ascii.ascii) (acc : Z) : option Z :=
  match l with
  | [] => Some acc
  | c :: l => match digit c with Some d => digits l (acc * 10 + d) | None => None end
  end.

Definition is_Some_b {A} (o : option A) : bool := match o with Some _ => true | None => false end.

Definition parse_octet (l : list Ascii.ascii) : option Z :=
  match l with
  | [] => None
  | "0"%char :: _ :: _ => None
  | _ =>
    match digits l 0 with
    | Some n => if n <=? 255 then Some n else None
    | None => None
    end
  end.

Fixpoint split_dots (l : list Ascii.ascii) : list (list Ascii.ascii) :=
  match l with
  | [] => [[]]
  | c :: l =>
    let r := split_dots l in
    if chr "."%char c then [] :: r
    else match r with f :: r => (c :: f) :: r | [] => [[c]] end
  end.

Definition parse_ipv4 (s : string) : option Z :=
  match map parse_octet (split_dots (chars s)) with
  | [Some a; Some b; Some c; Some d] => Some (of_octets [a; b; c; d])
  | _ => None
  end.

Definition net_ParseIP `{IPv6} (s : string) : option IP :=
  if mem_char ":"%char (chars s) then parse_IPv6 s else V4 <$> parse_ipv4 s.

Definition IP_String `{IPv6} (ip : IP) : string :=
  match ip with V4 a => ipv4_String a | V6 b => string_IPv6 b end.

(** [net.ParseIP(s).To4()] *)
Definition parse_To4 `{IPv6} (s : string) : option Z :=
  match net_ParseIP s with Some (V4 a) => Some a | _ => None end.

(** [net.ParseCIDR] on IPv4 text: the address and the prefix length. *)
Definition parse_cidr4 (s : string) : option (Z * Z) :=
  match strings_Cut s "/"%char with
  | None => None
  | Some (addr, mask) =>
    match parse_ipv4 addr, chars mask with
    | Some a, c :: l =>
      match digits (c :: l) 0 with
      | Some n => if n <=? 32 then Some (a, n) else None
      | None => None
      end
    | _, _ => None
    end
  end.

Definition net_ParseCIDR_ok `{IPv6} (s : string) : bool :=
  if mem_char ":"%char (chars s) then cidr_IPv6 s
  else match parse_cidr4 s with Some _ => true | None => false end.

(** [IP.IsLoopback]: 127.0.0.0/8, or ::1. *)
Definition IP_IsLoopback (ip : IP) : bool :=
  match ip with
  | V4 a => a / 2 ^ 24 =? 127
  | V6 b => bool_decide (b = repeat 0 15 ++ [1])
  end.

(** ** Round trip *)

Lemma octet_text n : 0 ≤ n < 256 →
  parse_octet (chars (fmt_d n)) = Some n ∧ mem_char "."%char (chars (fmt_d n)) = false
  ∧ forallb (fun c => is_Some_b (digit c)) (chars (fmt_d n)) = true.
Proof.
  intros Hn.
  assert (forallb (fun k => let z := Z.of_nat k in
    match parse_octet (chars (fmt_d z)) with Some m => m =? z | None => false end
    && negb (mem_char "."%char (chars (fmt_d z)))
    && forallb (fun c => is_Some_b (digit c)) (chars (fmt_d z)))
    (seq 0 256) = true) as Hall by (vm_compute; reflexivity).
  rewrite forallb_forall in Hall. specialize (Hall (Z.to_nat n)).
  rewrite Z2Nat.id in Hall by lia. cbv zeta in Hall.
  assert (In (Z.to_nat n) (seq 0 256)) as Hin by (apply in_seq; lia). specialize (Hall Hin).
  apply andb_true_iff in Hall as [Hall H3]. apply andb_true_iff in Hall as [H1 H2].
  apply negb_true_iff in H2. destruct (parse_octet _) as [m|]; [|done].
  apply Z.eqb_eq in H1 as ->. done.
Qed.

Lemma split_dots_plain l : mem_char "."%char l = false → split_dots l = [l].
Proof.
  unfold mem_char. induction l as [|c l IH]; [done|]. cbn [existsb split_dots app].
  rewrite orb_false_iff. intros [Hc Hl]. rewrite IH, Hc by done. done.
Qed.

Lemma split_dots_app l r : mem_char "."%char l = false →
  split_dots (l ++ "."%char :: r) = l :: split_dots r.
Proof.
  unfold mem_char. induction l as [|c l IH]; [done|]. cbn [existsb split_dots app].
  rewrite orb_false_iff. intros [Hc Hl]. rewrite IH, Hc by done. done.
Qed.

Lemma octets_range a : Forall (fun b => 0 ≤ b < 256) (octets a).
Proof. repeat constructor; apply Z.mod_pos_bound; lia. Qed.

Lemma of_octets_octets a : 0 ≤ a < 2 ^ 32 → of_octets (octets a) = a.
Proof.
  intros Ha. unfold octets, of_octets. cbn [foldl].
  replace (a / 2 ^ 24) with (a / 256 / 256 / 256) by (rewrite !Z.div_div by lia; done).
  replace (a / 2 ^ 16) with (a / 256 / 256) by (rewrite !Z.div_div by lia; done).
  change (a / 2 ^ 8) with (a / 256).
  pose proof (Z.div_mod a 256 ltac:(lia)). pose proof (Z.div_mod (a / 256) 256 ltac:(lia)).
  pose proof (Z.div_mod (a / 256 / 256) 256 ltac:(lia)).
  assert (0 ≤ a / 256 / 256 / 256 < 256) as Hs.
  { rewrite !Z.div_div by lia. split; [apply Z.div_pos; lia|]. apply Z.div_lt_upper_bound; lia. }
  rewrite (Z.mod_small (a / 256 / 256 / 256)) by lia. lia.
Qed.

Lemma chars_dot s t : chars (s +:+ "." +:+ t) = chars s ++ "."%char :: chars t.
Proof. by rewrite !chars_app. Qed.

Lemma parse_ipv4_String a : 0 ≤ a < 2 ^ 32 → parse_ipv4 (ipv4_String a) = Some a.
Proof.
  intros Ha. rewrite <- (of_octets_octets a) at 2 by done.
  pose proof (octets_range a) as Hr. unfold parse_ipv4, ipv4_String, octets in *.
  rewrite !Forall_cons in Hr. destruct Hr as (H1 & H2 & H3 & H4 & _).
  apply octet_text in H1 as (E1 & D1 & _), H2 as (E2 & D2 & _), H3 as (E3 & D3 & _),
    H4 as (E4 & D4 & _).
  cbn [map strings_Join]. rewrite !chars_dot.
  rewrite split_dots_app, split_dots_app, split_dots_app, split_dots_plain by done.
  cbn [map]. by rewrite E1, E2, E3, E4.
Qed.

(** The text of an address holds digits and dots only. *)
Lemma ipv4_String_no c a : digit c = None → c ≠ "."%char →
  mem_char c (chars (ipv4_String a)) = false.
Proof.
  intros Hd Hc.
  assert (∀ l, forallb (fun c => is_Some_b (digit c)) l = true → mem_char c l = false) as Hn.
  { intros l Hl. apply not_true_iff_false. intros Hm. apply existsb_exists in Hm as [x [Hx Ex]].
    apply chr_eq in Ex as <-. rewrite forallb_forall in Hl. specialize (Hl _ Hx).
    by rewrite Hd in Hl. }
  assert (∀ s t, mem_char c (chars s) = false → mem_char c (chars t) = false →
    mem_char c (chars (s +:+ "." +:+ t)) = false) as Hj.
  { intros s t Hs Ht. rewrite chars_dot. unfold mem_char in *. rewrite existsb_app. cbn [existsb].
    rewrite Hs, Ht. destruct (chr c "."%char) eqn:E; [|done]. by apply chr_eq in E. }
  pose proof (octets_range a) as Hr. unfold ipv4_String, octets in *.
  rewrite !Forall_cons in Hr. destruct Hr as (H1 & H2 & H3 & H4 & _).
  apply octet_text in H1 as (_ & _ & D1), H2 as (_ & _ & D2), H3 as (_ & _ & D3),
    H4 as (_ & _ & D4).
  cbn [map strings_Join]. auto 8.
Qed.

Lemma ipv4_String_colon a : mem_char ":"%char (chars (ipv4_String a)) = false.
Proof. by apply ipv4_String_no. Qed.

Lemma parse_To4_String `{IPv6} a : 0 ≤ a < 2 ^ 32 → parse_To4 (ipv4_String a) = Some a.
Proof.
  intros Ha. unfold parse_To4, net_ParseIP. rewrite ipv4_String_colon.
  by rewrite parse_ipv4_String.
Qed.

(** A stand-in that parses no IPv6, for concrete runs. *)
Definition no_ipv6 : IPv6 := {| parse_IPv6 := fun _ => None; string_IPv6 := fun _ => "";
  cidr_IPv6 := fun _ => false |}.
