(* ===== verification/Timestamps.v ===== *)
(** * Timestamps: dates as text (package time's Format and Parse, SQLite's strftime)

    The text forms the client database keeps its times in: RFC 3339 with the
    trailing zeros of the fraction dropped, RFC 3339 with milliseconds, and
    SQLite's own form with a space.  Times are UTC, in nanoseconds since the
    zero [time.Time], the first instant of year 1. *)

From Stdlib Require Import ZArith Lia Ascii.
From S2P Require Import Prelude GoStrings NetIP.

(** ** The calendar *)

Definition day : duration := 24 * hour.

Definition days_before_year (y : Z) : Z :=
  let q := y - 1 in 365 * q + q / 4 - q / 100 + q / 400.
Definition is_leap (y : Z) : bool := (y mod 4 =? 0) && (negb (y mod 100 =? 0) || (y mod 400 =? 0)).
Definition month_days (y : Z) : list Z :=
  [31; if is_leap y then 29 else 28; 31; 30; 31; 30; 31; 31; 30; 31; 30; 31].

(** The year of a day: the average length of a year is at most one off. *)
Definition year_of (d : Z) : Z :=
  let y := 400 * d / 146097 + 1 in
  if d <? days_before_year y then y - 1 else if days_before_year (y + 1) <=? d then y + 1 else y.

Fixpoint month_of (ms : list Z) (m d : Z) : Z * Z :=
  match ms with
  | [] => (m, d + 1)
  | x :: ms => if d <? x then (m, d + 1) else month_of ms (m + 1) (d - x)
  end.

(** Year, month and day of a day number, and back. *)
Definition civil (d : Z) : Z * Z * Z :=
  let y := year_of d in
  let '(m, dd) := month_of (month_days y) 1 (d - days_before_year y) in (y, m, dd).
Definition day_number (y m d : Z) : Z :=
  days_before_year y + sum_by id (take (Z.to_nat (m - 1)) (month_days y)) + d - 1.

(** ** Writing *)

Definition digit_char (d : Z) : Ascii.ascii := byte_of (48 + d mod 10).

(** [n] in [w] digits. *)
Fixpoint pad (w : nat) (n : Z) : list Ascii.ascii :=
  match w with O => [] | S w => pad w (n / 10) ++ [digit_char n] end.

Definition date_text (t : time) : list Ascii.ascii :=
  let '(y, m, d) := civil (t / day) in pad 4 y ++ "-"%char :: pad 2 m ++ "-"%char :: pad 2 d.
Definition clock_text (t : time) : list Ascii.ascii :=
  let s := t mod day / second in
  pad 2 (s / 3600) ++ ":"%char :: pad 2 (s / 60 mod 60) ++ ":"%char :: pad 2 (s mod 60).

(** A fraction without its trailing zeros. *)
Fixpoint strip_zeros (l : list Ascii.ascii) : list Ascii.ascii :=
  match l with
  | [] => []
  | c :: l => match strip_zeros l with
              | [] => if chr c "0"%char then [] else [c]
              | r => c :: r
              end
  end.
Definition frac_text (ns : Z) : list Ascii.ascii :=
  match strip_zeros (pad 9 ns) with [] => [] | l => "."%char :: l end.

(** [t.UTC().Format(time.RFC3339Nano)], for the years 0 to 9999. *)
Definition format_RFC3339Nano (t : time) : string :=
  of_chars (date_text t ++ "T"%char :: clock_text t ++ frac_text (t mod second) ++ ["Z"%char]).

(** [strftime('%Y-%m-%dT%H:%M:%fZ', 'now')]: milliseconds, always three digits. *)
Definition strftime_ms (t : time) : string :=
  of_chars (date_text t ++ "T"%char :: clock_text t ++ "."%char :: pad 3 (t mod second / 1000000) ++ ["Z"%char]).

(** [datetime('now')]. *)
Definition sqlite_datetime (t : time) : string := of_chars (date_text t ++ " "%char :: clock_text t).

(** ** Reading *)

Definition take_digits (n : nat) (l : list Ascii.ascii) : option (Z * list Ascii.ascii) :=
  if (length (take n l) =? n)%nat
  then match digits (take n l) 0 with Some z => Some (z, drop n l) | None => None end else None.
Definition expect (c : Ascii.ascii) (l : list Ascii.ascii) : option (list Ascii.ascii) :=
  match l with x :: l => if chr x c then Some l else None | [] => None end.

(** The hour of the layout "15" may have one digit. *)
Definition take_hour (l : list Ascii.ascii) : option (Z * list Ascii.ascii) :=
  match take_digits 2 l with Some r => Some r | None => take_digits 1 l end.

Definition is_digit (c : Ascii.ascii) : bool := is_Some_b (digit c).
Fixpoint span_digits (l : list Ascii.ascii) : list Ascii.ascii * list Ascii.ascii :=
  match l with
  | c :: l' => if is_digit c then let '(a, b) := span_digits l' in (c :: a, b) else ([], l)
  | [] => ([], [])
  end.

(** Any number of digits, of which nine count. *)
Definition take_fraction (l : list Ascii.ascii) : Z * list Ascii.ascii :=
  match l with
  | c :: l' =>
    if chr c "."%char || chr c ","%char then
      match span_digits l' with
      | ([], _) => (0, l)
      | (ds, r) => let ds := take 9 ds in (default 0 (digits ds 0) * 10 ^ (9 - Z.of_nat (length ds)), r)
      end
    else (0, l)
  | [] => (0, [])
  end.

(** [Z] or an offset, in seconds. *)
Definition take_zone (l : list Ascii.ascii) : option (Z * list Ascii.ascii) :=
  match l with
  | c :: l =>
    if chr c "Z"%char then Some (0, l)
    else if chr c "+"%char || chr c "-"%char then
      '(h, l) ← take_digits 2 l; l ← expect ":" l; '(m, l) ← take_digits 2 l;
      if (h <=? 24) && (m <=? 60)
      then Some ((if chr c "-"%char then -1 else 1) * (h * 3600 + m * 60), l) else None
    else None
  | [] => None
  end.

(** [time.Parse] with the layouts "2006-01-02T15:04:05.999...Z07:00" (the
    number of nines does not matter) and "2006-01-02 15:04:05". *)
Definition parse_with (sep : Ascii.ascii) (zoned : bool) (s : string) : option time :=
  '(y, l) ← take_digits 4 (chars s); l ← expect "-" l;
  '(m, l) ← take_digits 2 l; l ← expect "-" l; '(d, l) ← take_digits 2 l; l ← expect sep l;
  '(hh, l) ← take_hour l; l ← expect ":" l; '(mm, l) ← take_digits 2 l; l ← expect ":" l;
  '(ss, l) ← take_digits 2 l;
  let '(ns, l) := take_fraction l in
  '(off, l) ← if zoned then take_zone l else Some (0, l);
  match l with
  | _ :: _ => None
  | [] =>
    if (1 <=? m) && (m <=? 12) && (1 <=? d) && (d <=? default 0 (month_days y !! Z.to_nat (m - 1)))
       && (hh <? 24) && (mm <? 60) && (ss <? 60)
    then Some (day_number y m d * day + (hh * 3600 + mm * 60 + ss - off) * second + ns) else None
  end.
Definition parse_RFC3339Nano (s : string) : option time := parse_with "T" true s.
Definition parse_sqlite (s : string) : option time := parse_with " " false s.

(** ** The calendar is exact *)

Lemma year_of_spec d : 0 ≤ d → days_before_year (year_of d) ≤ d < days_before_year (year_of d + 1).
Proof.
  intros Hd. unfold year_of. set (y := 400 * d / 146097 + 1).
  assert (days_before_year (y - 1) ≤ d < days_before_year (y + 2)) as [H1 H2].
  { unfold days_before_year, y. split; Z.to_euclidean_division_equations; lia. }
  destruct (d <? days_before_year y) eqn:E1; zbool.
  - replace (y - 1 + 1) with y by lia. lia.
  - destruct (days_before_year (y + 1) <=? d) eqn:E2; zbool; [|lia].
    replace (y + 1 + 1) with (y + 2) by lia. lia.
Qed.

Lemma days_before_mono y z : y ≤ z → days_before_year y ≤ days_before_year z.
Proof. unfold days_before_year. intros H. Z.to_euclidean_division_equations; lia. Qed.

Lemma year_length y : days_before_year (y + 1) = days_before_year y + sum_by id (month_days y).
Proof.
  assert (sum_by id (month_days y) = if is_leap y then 366 else 365) as ->
    by (unfold month_days; destruct (is_leap y); reflexivity).
  unfold days_before_year, is_leap. replace (y + 1 - 1) with y by lia.
  destruct (y mod 4 =? 0) eqn:E4, (y mod 100 =? 0) eqn:E1, (y mod 400 =? 0) eqn:E3; cbn; zbool;
    Z.to_euclidean_division_equations; lia.
Qed.

Lemma month_of_spec ms m0 d : 0 ≤ d < sum_by id ms → let '(m, dd) := month_of ms m0 d in
  m0 ≤ m < m0 + Z.of_nat (length ms) ∧ 1 ≤ dd
  ∧ (∃ x, ms !! Z.to_nat (m - m0) = Some x ∧ dd ≤ x)
  ∧ d = sum_by id (take (Z.to_nat (m - m0)) ms) + dd - 1.
Proof.
  revert m0 d. induction ms as [|x ms IH]; intros m0 d; cbn [sum_by foldr month_of length]; [unfold sum_by; cbn; lia|].
  change (foldr _ 0 ms) with (sum_by id ms). unfold id at 1. intros Hd.
  destruct (d <? x) eqn:E; zbool.
  - split; [lia|]. split; [lia|]. rewrite Z.sub_diag. split; [exists x; split; [done|lia]|]. change (take (Z.to_nat 0) (x :: ms)) with (@nil Z).
    unfold sum_by. cbn. lia.
  - specialize (IH (m0 + 1) (d - x)). destruct (month_of ms (m0 + 1) (d - x)) as [m dd].
    destruct IH as (Hm & H1 & (z & Hz & Hle) & Hs); [lia|].
    replace (Z.to_nat (m - m0)) with (S (Z.to_nat (m - (m0 + 1)))) by lia.
    split; [lia|]. split; [lia|]. split; [by exists z|]. rewrite firstn_cons, sum_by_cons. unfold id at 1. lia.
Qed.

Lemma civil_spec d : 0 ≤ d → let '(y, m, dd) := civil d in
  1 ≤ y ∧ 1 ≤ m ≤ 12 ∧ 1 ≤ dd ≤ default 0 (month_days y !! Z.to_nat (m - 1)) ∧ day_number y m dd = d.
Proof.
  intros Hd. unfold civil, day_number. pose proof (year_of_spec d Hd) as Hy.
  pose proof (year_length (year_of d)) as Hl.
  pose proof (month_of_spec (month_days (year_of d)) 1 (d - days_before_year (year_of d))) as Hm.
  destruct (month_of _ 1 _) as [m dd]. destruct Hm as (H1 & H2 & (x & Hx & H3) & H4); [lia|].
  split; [|split; [|split]].
  - assert (¬ year_of d ≤ 0); [|lia]. intros Hc.
    pose proof (days_before_mono (year_of d + 1) 1 ltac:(lia)) as Hn.
    change (days_before_year 1) with 0 in Hn.
    lia.
  - change (Z.of_nat (length (month_days (year_of d)))) with 12 in H1. lia.
  - rewrite Hx. cbn. lia.
  - lia.
Qed.

Lemma month_bound y i : default 0 (month_days y !! i) ≤ 31.
Proof.
  assert (Forall (fun x => x ≤ 31) (month_days y)) as Hf
    by (unfold month_days; destruct (is_leap y); repeat constructor; lia).
  destruct (month_days y !! i) as [x|] eqn:E; [exact (Forall_lookup_1 _ _ _ _ Hf E) | cbn; lia].
Qed.

(** The last day of the year 9999 is the last with a year of four digits. *)
Definition max_text_time : time := days_before_year 10000 * day.

Lemma civil_year_bound d : 0 ≤ d < days_before_year 10000 → let '(y, _, _) := civil d in y < 10000.
Proof.
  intros Hd. pose proof (year_of_spec d ltac:(lia)) as Hy. unfold civil. destruct (month_of _ _ _) as [m dd].
  assert (¬ 10000 ≤ year_of d); [|lia]. intros Hc.
  pose proof (days_before_mono 10000 (year_of d) Hc). lia.
Qed.

(** ** What is written can be read *)

Lemma digit_digit_char d : digit (digit_char d) = Some (d mod 10).
Proof.
  pose proof (Z.mod_pos_bound d 10 ltac:(lia)) as Hb. unfold digit_char, digit.
  assert (byte_val (byte_of (48 + d mod 10)) = 48 + d mod 10) as ->.
  { unfold byte_val, byte_of. rewrite Z.mod_small by lia.
    rewrite Ascii.nat_ascii_embedding by lia. lia. }
  cbn zeta. replace (48 + d mod 10 - 48) with (d mod 10) by lia.
  by rewrite (proj2 (Z.leb_le _ _)), (proj2 (Z.leb_le _ _)) by lia.
Qed.

Lemma digits_app l1 l2 acc : digits (l1 ++ l2) acc = match digits l1 acc with Some a => digits l2 a | None => None end.
Proof. revert acc. induction l1 as [|c l1 IH]; intros acc; [done|]. cbn. destruct (digit c); [apply IH|done]. Qed.

Lemma pad_length w n : length (pad w n) = w.
Proof. revert n. induction w as [|w IH]; intros n; [done|]. cbn. rewrite length_app, IH. cbn. lia. Qed.

Lemma digits_pad w n acc : 0 ≤ n < 10 ^ Z.of_nat w → digits (pad w n) acc = Some (acc * 10 ^ Z.of_nat w + n).
Proof.
  revert n. induction w as [|w IH]; intros n Hn; cbn [pad].
  { change (10 ^ Z.of_nat 0) with 1 in *. cbn. f_equal. lia. }
  rewrite Nat2Z.inj_succ, Z.pow_succ_r in * by lia.
  rewrite digits_app, IH by (Z.to_euclidean_division_equations; lia). cbn [digits].
  rewrite digit_digit_char. f_equal. Z.to_euclidean_division_equations; lia.
Qed.

Lemma take_digits_pad w n r : 0 ≤ n < 10 ^ Z.of_nat w → take_digits w (pad w n ++ r) = Some (n, r).
Proof.
  intros Hn. unfold take_digits. rewrite firstn_app, pad_length, Nat.sub_diag.
  rewrite firstn_all2 by (by rewrite pad_length). cbn [firstn take]. rewrite app_nil_r.
  rewrite pad_length, Nat.eqb_refl, digits_pad by done.
  rewrite skipn_app, pad_length, Nat.sub_diag, skipn_all2 by (by rewrite pad_length). done.
Qed.

Lemma take_hour_pad n r : 0 ≤ n < 100 → take_hour (pad 2 n ++ r) = Some (n, r).
Proof. intros Hn. unfold take_hour. by rewrite take_digits_pad. Qed.

Lemma expect_cons c r : expect c (c :: r) = Some r.
Proof. cbn. by rewrite (proj2 (chr_eq c c)). Qed.

Lemma pad_digits w n : forallb is_digit (pad w n) = true.
Proof.
  revert n. induction w as [|w IH]; intros n; [done|]. cbn [pad]. rewrite forallb_app, IH. cbn.
  unfold is_digit. by rewrite digit_digit_char.
Qed.

Lemma strip_zeros_split l : ∃ k, l = strip_zeros l ++ repeat "0"%char k.
Proof.
  induction l as [|c l [k IH]]; [by exists 0%nat|]. cbn [strip_zeros].
  destruct (strip_zeros l) as [|x r] eqn:E.
  - destruct (chr c "0"%char) eqn:Ec.
    + apply chr_eq in Ec as ->. exists (S k). cbn. by rewrite IH at 1.
    + exists k. by rewrite IH at 1.
  - exists k. by rewrite IH at 1.
Qed.

Lemma digits_zeros k a : digits (repeat "0"%char k) a = Some (a * 10 ^ Z.of_nat k).
Proof.
  revert a. induction k as [|k IH]; intros a; cbn [repeat digits].
  - change (10 ^ Z.of_nat 0) with 1. f_equal. lia.
  - change (digit "0"%char) with (Some 0). cbv iota beta. rewrite IH, Nat2Z.inj_succ, Z.pow_succ_r by lia. f_equal. lia.
Qed.

Lemma span_digits_app l r : forallb is_digit l = true → (∀ c r', r = c :: r' → is_digit c = false) →
  span_digits (l ++ r) = (l, r).
Proof.
  intros Hl Hr. induction l as [|c l IH]; cbn in *.
  - destruct r as [|c r]; [done|]. cbn. by rewrite (Hr c r).
  - apply andb_true_iff in Hl as [Hc Hl]. by rewrite Hc, IH.
Qed.

(** A written fraction is read back, whatever follows it. *)
Lemma take_fraction_text ns r : 0 ≤ ns < 1000000000 → take_fraction (frac_text ns ++ "Z"%char :: r) = (ns, "Z"%char :: r).
Proof.
  intros Hn. pose proof (digits_pad 9 ns 0 Hn) as Hd. pose proof (pad_digits 9 ns) as Hf.
  pose proof (pad_length 9 ns) as Hl. unfold frac_text.
  destruct (strip_zeros_split (pad 9 ns)) as [k Hk]. set (s := strip_zeros (pad 9 ns)) in *.
  rewrite Hk in Hd, Hf, Hl. rewrite digits_app in Hd. rewrite forallb_app in Hf.
  apply andb_true_iff in Hf as [Hf _]. rewrite length_app, repeat_length in Hl.
  destruct s as [|c s'] eqn:Es.
  - change (digits [] 0) with (Some 0) in Hd. cbv iota beta in Hd. rewrite digits_zeros in Hd. injection Hd as Hd. cbn. f_equal. lia.
  - destruct (digits (c :: s') 0) as [m|] eqn:Em; [|done]. rewrite digits_zeros in Hd. injection Hd as Hd.
    cbn [app take_fraction]. change (chr "." ".") with true. cbn [orb].
    change (c :: s' ++ "Z"%char :: r) with ((c :: s') ++ "Z"%char :: r).
    rewrite span_digits_app by (try done; intros c' r'; by intros [= <- <-]).
    rewrite firstn_all2 by lia. rewrite Em. cbn [default].
    f_equal. replace (9 - Z.of_nat (length (c :: s'))) with (Z.of_nat k) by lia. cbn [from_option id]. lia.
Qed.

Lemma day_split t : t = t / day * day + t mod day / second * second + t mod second.
Proof. unfold day, hour, minute, second. Z.to_euclidean_division_equations; lia. Qed.

Lemma seconds_bound t : 0 ≤ t mod day / second < 86400.
Proof. unfold day, hour, minute, second. Z.to_euclidean_division_equations; lia. Qed.

(** Any of the texts, with a fraction the parser reads as [ns]. *)
Lemma parse_text sep (zoned : bool) t tail ns l : 0 ≤ t < max_text_time →
  take_fraction tail = (ns, l) → (if zoned then take_zone l else Some (0, l)) = Some (0, []) →
  parse_with sep zoned (of_chars (date_text t ++ sep :: clock_text t ++ tail)) = Some (t - t mod second + ns).
Proof.
  intros Ht Hf Hz. unfold parse_with. rewrite chars_of_chars. unfold date_text, clock_text.
  assert (0 ≤ t / day < days_before_year 10000) as Hd.
  { unfold max_text_time in Ht. assert (0 < day) by done. split; [apply Z.div_pos; lia|].
    apply Z.div_lt_upper_bound; lia. }
  pose proof (civil_spec (t / day) ltac:(lia)) as Hc. pose proof (civil_year_bound (t / day) Hd) as Hy.
  destruct (civil (t / day)) as [[y m] d]. destruct Hc as (H1 & H2 & H3 & H4).
  pose proof (month_bound y (Z.to_nat (m - 1))) as H31.
  pose proof (seconds_bound t) as Hs. set (s := t mod day / second) in *.
  rewrite <- !app_assoc. rewrite take_digits_pad by (change (10 ^ Z.of_nat 4) with 10000; lia).
  cbn [mbind option_bind]. rewrite <- app_comm_cons, expect_cons. cbn [mbind option_bind].
  rewrite <- app_assoc, take_digits_pad by (change (10 ^ Z.of_nat 2) with 100; lia).
  cbn [mbind option_bind]. rewrite <- app_comm_cons, expect_cons. cbn [mbind option_bind].
  rewrite take_digits_pad by (change (10 ^ Z.of_nat 2) with 100; lia).
  cbn [mbind option_bind]. rewrite expect_cons. cbn [mbind option_bind].
  rewrite <- ?app_assoc, take_hour_pad by (Z.to_euclidean_division_equations; lia).
  cbn [mbind option_bind]. rewrite <- app_comm_cons, expect_cons. cbn [mbind option_bind].
  rewrite <- ?app_assoc, take_digits_pad by (change (10 ^ Z.of_nat 2) with 100; Z.to_euclidean_division_equations; lia).
  cbn [mbind option_bind]. rewrite <- app_comm_cons, expect_cons. cbn [mbind option_bind].
  rewrite take_digits_pad by (change (10 ^ Z.of_nat 2) with 100; Z.to_euclidean_division_equations; lia).
  cbn [mbind option_bind]. rewrite Hf, Hz. cbn [mbind option_bind].
  rewrite H4, !(proj2 (Z.leb_le _ _)), !(proj2 (Z.ltb_lt _ _)) by (Z.to_euclidean_division_equations; lia).
  cbn [andb]. f_equal. pose proof (day_split t) as Hsp. fold s in Hsp.
  replace (s / 3600 * 3600 + s / 60 mod 60 * 60 + s mod 60 - 0) with s by (Z.to_euclidean_division_equations; lia).
  lia.
Qed.

(** A time of the years 1 to 9999 is what its RFC 3339 text says. *)
Lemma RFC3339Nano_text t : 0 ≤ t < max_text_time → parse_RFC3339Nano (format_RFC3339Nano t) = Some t.
Proof.
  intros Ht. unfold parse_RFC3339Nano, format_RFC3339Nano.
  rewrite (parse_text _ _ t _ (t mod second) ["Z"%char]); [f_equal; lia | done | | done].
  apply take_fraction_text. apply (Z.mod_pos_bound t second). done.
Qed.

(** SQLite's text keeps the milliseconds. *)
Lemma strftime_ms_text t : 0 ≤ t < max_text_time → parse_RFC3339Nano (strftime_ms t) = Some (t - t mod 1000000).
Proof.
  intros Ht. unfold parse_RFC3339Nano, strftime_ms.
  pose proof (Z.mod_pos_bound t second ltac:(done)) as Hb. unfold second in Hb.
  set (ms := t mod second / 1000000).
  assert (0 ≤ ms < 10 ^ Z.of_nat 3) as Hm
    by (unfold ms, second; change (10 ^ Z.of_nat 3) with 1000; Z.to_euclidean_division_equations; lia).
  rewrite (parse_text _ _ t _ (ms * 1000000) ["Z"%char]); [| done | | done].
  - f_equal. unfold ms, second. Z.to_euclidean_division_equations; lia.
  - cbn [take_fraction]. change (chr "." ".") with true. cbn [orb].
    rewrite span_digits_app by (try apply pad_digits; intros c r; by intros [= <- <-]).
    pose proof (pad_length 3 ms) as Hl. pose proof (digits_pad 3 ms 0 Hm) as Hd.
    destruct (pad 3 ms) as [|c r]; [discriminate Hl|].
    rewrite firstn_all2 by lia. rewrite Hd, Hl. cbn [default from_option id].
    change (10 ^ (9 - Z.of_nat 3)) with 1000000. f_equal; lia.
Qed.

(** The layouts of Go and of SQLite, and the order of the texts: one that ends
    in whole seconds comes after the later ones of the same second. *)
Example texts :
  let t := day_number 2026 2 28 * day + (23 * 3600 + 59 * 60 + 58) * second + 500000000 in
  format_RFC3339Nano t = "2026-02-28T23:59:58.5Z" ∧ strftime_ms t = "2026-02-28T23:59:58.500Z"
  ∧ sqlite_datetime t = "2026-02-28 23:59:58"
  ∧ format_RFC3339Nano (t + 2 * second) = "2026-03-01T00:00:00.5Z"
  ∧ parse_sqlite (sqlite_datetime t) = Some (t - 500000000)
  ∧ str_lt (format_RFC3339Nano t) (format_RFC3339Nano (t - 500000000)) = true.
Proof. vm_compute. split_and!; reflexivity. Qed.
