(* ===== verification/Storage.v ===== *)
(** * Storage: the client database (internal/storage/client.go)

    The SQL statements of the source as operations on tables, with the
    outcome of each statement ([Some] error: it changed nothing) and the clock
    it reads as arguments.  Times are kept as the texts of [Timestamps]; the
    order of rows an ORDER BY leaves open is [SortSlice]'s. *)

From Stdlib Require Import ZArith Lia Ascii.
From S2P Require Import Prelude Float64 GoStrings NetIP.
From S2P Require Import Timestamps.

(** ** Tables *)

(** A node, its last sighting as a time or as the text of the column. *)
Record Node (T : Type) := mkNode {
  NodeID : string; WGPubkey : string; Region : string; Country : string; City : string;
  Endpoint : string; PricePerHourDero : float64; CapacityMaxClients : Z; ProtocolVersion : Z;
  BondDero : float64; Status : string; Version : string; LastSeen : T; FailCount : Z }.
Arguments mkNode {T}. Arguments NodeID {T}. Arguments WGPubkey {T}. Arguments Region {T}.
Arguments Country {T}. Arguments City {T}. Arguments Endpoint {T}. Arguments PricePerHourDero {T}.
Arguments CapacityMaxClients {T}. Arguments ProtocolVersion {T}. Arguments BondDero {T}.
Arguments Status {T}. Arguments Version {T}. Arguments LastSeen {T}. Arguments FailCount {T}.

Record sample := mkSample { sm_node : string; sm_ms : Z; sm_at : string }.
Record trust := mkTrust { tr_score : float64; tr_samples : Z; tr_updated : string }.
Record conn := mkConn {
  cn_id : Z; cn_node : string; cn_started : string; cn_ended : option string; cn_rx : Z; cn_tx : Z }.
Record Connection := mkConnection {
  ID : Z; c_NodeID : string; StartedAt : time; EndedAt : option time; RxBytes : Z; TxBytes : Z }.
Record Receipt (T : Type) := mkReceipt {
  r_ID : string; r_NodeID : string; r_SessionID : string; AmountDero : float64; TxID : string; At : T }.
Arguments mkReceipt {T}. Arguments r_ID {T}. Arguments r_NodeID {T}. Arguments r_SessionID {T}.
Arguments AmountDero {T}. Arguments TxID {T}. Arguments At {T}.

(** A database file: the tables and indices that exist, the row of
    schema_version, and the rows.  [conn_seq] is the last AUTOINCREMENT id. *)
Record Store := mkStore {
  created : gset string;
  version : option Z;
  saved_nodes : gmap string (Node string);
  latency_history : list sample;
  local_trust : gmap string trust;
  settings : gmap string string;
  session_state : gmap string string;
  connection_history : list conn;
  conn_seq : Z;
  receipts : gmap string (Receipt string)
}.

(** [:memory:], or a file just created. *)
Definition empty_db : Store := mkStore ∅ None ∅ [] ∅ ∅ ∅ [] 0 ∅.

Definition set_schema (s : Store) (c : gset string) (v : option Z) : Store :=
  mkStore c v (saved_nodes s) (latency_history s) (local_trust s) (settings s) (session_state s)
    (connection_history s) (conn_seq s) (receipts s).
Definition set_nodes (s : Store) (m : gmap string (Node string)) : Store :=
  mkStore (created s) (version s) m (latency_history s) (local_trust s) (settings s) (session_state s)
    (connection_history s) (conn_seq s) (receipts s).
Definition set_latency (s : Store) (l : list sample) : Store :=
  mkStore (created s) (version s) (saved_nodes s) l (local_trust s) (settings s) (session_state s)
    (connection_history s) (conn_seq s) (receipts s).
Definition set_trust (s : Store) (m : gmap string trust) : Store :=
  mkStore (created s) (version s) (saved_nodes s) (latency_history s) m (settings s) (session_state s)
    (connection_history s) (conn_seq s) (receipts s).
Definition set_settings (s : Store) (m : gmap string string) : Store :=
  mkStore (created s) (version s) (saved_nodes s) (latency_history s) (local_trust s) m (session_state s)
    (connection_history s) (conn_seq s) (receipts s).
Definition set_session (s : Store) (m : gmap string string) : Store :=
  mkStore (created s) (version s) (saved_nodes s) (latency_history s) (local_trust s) (settings s) m
    (connection_history s) (conn_seq s) (receipts s).
Definition set_connections (s : Store) (l : list conn) (seq : Z) : Store :=
  mkStore (created s) (version s) (saved_nodes s) (latency_history s) (local_trust s) (settings s)
    (session_state s) l seq (receipts s).
Definition set_receipts (s : Store) (m : gmap string (Receipt string)) : Store :=
  mkStore (created s) (version s) (saved_nodes s) (latency_history s) (local_trust s) (settings s)
    (session_state s) (connection_history s) (conn_seq s) m.

(** ** Migrations *)

Definition SchemaVersion : Z := 3.

(** The statements of each migration: the table or index created, IF NOT
    EXISTS, and for an index the table it is on. *)
Inductive statement := CreateTable (name : string) | CreateIndex (name on : string).
Definition migrations : list (list statement) :=
  [[CreateTable "schema_version"; CreateTable "saved_nodes"; CreateTable "latency_history";
    CreateIndex "idx_latency_node" "latency_history"; CreateTable "local_trust"; CreateTable "settings";
    CreateTable "session_state"];
   [CreateTable "connection_history"; CreateIndex "idx_conn_node" "connection_history"];
   [CreateTable "receipts"]].

Definition no_table (t : string) : string := "no such table: " +:+ t.

(** The outcomes of the statements to come; no failures once they run out. *)
Abbreviation outcomes := (list (option string)).
Definition next (io : outcomes) : option string * outcomes :=
  match io with [] => (None, []) | x :: io => (x, io) end.

(** One script: the statements up to the first that fails. *)
Fixpoint exec_script (s : Store) (l : list statement) (io : outcomes) : Store * outcomes * option string :=
  match l with
  | [] => (s, io, None)
  | st :: l =>
    match next io with
    | (Some e, io) => (s, io, Some e)
    | (None, io) =>
      match st with
      | CreateTable t => exec_script (set_schema s ({[t]} ∪ created s) (version s)) l io
      | CreateIndex i t =>
        if decide (t ∈ created s) then exec_script (set_schema s ({[i]} ∪ created s) (version s)) l io
        else (s, io, Some (no_table t))
      end
    end
  end.

Inductive open_error := InitVersion (e : string) | ReadVersion (e : string) | Migration (n : Z) (e : string)
| UpdateVersion (e : string) | PanicIndex.

(** The loop over the migrations that are left, [v] of them done. *)
Fixpoint apply_migrations (s : Store) (v : Z) (ms : list (list statement)) (io : outcomes)
  : Store * result open_error unit :=
  match ms with
  | [] => (s, Ok tt)
  | m :: ms =>
    match exec_script s m io with
    | (s, _, Some e) => (s, Err (Migration (v + 1) e))
    | (s, io, None) =>
      match next io with
      | (Some e, _) => (s, Err (UpdateVersion e))
      | (None, io) => apply_migrations (set_schema s (created s) (Some (v + 1))) (v + 1) ms io
      end
    end
  end.

(** A negative version would index the list of migrations before its start. *)
Definition run_from (s : Store) (v : Z) (io : outcomes) : Store * result open_error unit :=
  if v <? 0 then (s, Err PanicIndex) else apply_migrations s v (drop (Z.to_nat v) migrations) io.

Definition migrate (s : Store) (io : outcomes) : Store * result open_error unit :=
  match exec_script s [CreateTable "schema_version"] io with
  | (s, _, Some e) => (s, Err (InitVersion e))
  | (s, io, None) =>
    match next io with
    | (Some e, _) => (s, Err (ReadVersion e))
    | (None, io) =>
      match version s with
      | Some v => run_from s v io
      | None =>
        match next io with
        | (Some e, _) => (s, Err (InitVersion e))
        | (None, io) => run_from (set_schema s (created s) (Some 0)) 0 io
        end
      end
    end
  end.

(** Opening a file whose tables are [s]; the directory and the driver are
    input/output. *)
Definition Open (s : Store) (io : outcomes) : Store * result open_error unit := migrate s io.

(** ** Statements on rows *)

(** What a statement on a table answers before it touches a row. *)
Definition statement_error (s : Store) (table : string) (io : option string) : option string :=
  match io with
  | Some e => Some e
  | None => if decide (table ∈ created s) then None else Some (no_table table)
  end.

(** A float bound to a column: not a number becomes NULL, and the sign of zero
    is lost. *)
Definition real (x : float64) : option float64 :=
  if f_isNaN x then None else match x with SpecFloat.S754_zero _ => Some f0 | _ => Some x end.
Definition not_null (column : string) : string := "NOT NULL constraint failed: " +:+ column.

Definition limited {A} (limit : Z) (l : list A) : list A := if limit <? 0 then l else take (Z.to_nat limit) l.

Definition read_time (s : string) : time := default 0 (parse_RFC3339Nano s).

(** *** Nodes *)

Definition node_row (n : Node time) (price bond : float64) : Node string :=
  mkNode (NodeID n) (WGPubkey n) (Region n) (Country n) (City n) (Endpoint n) price (CapacityMaxClients n)
    (ProtocolVersion n) bond (Status n) (Version n) (format_RFC3339Nano (LastSeen n)) (FailCount n).
Definition read_node (r : Node string) : Node time :=
  mkNode (NodeID r) (WGPubkey r) (Region r) (Country r) (City r) (Endpoint r) (PricePerHourDero r)
    (CapacityMaxClients r) (ProtocolVersion r) (BondDero r) (Status r) (Version r)
    (read_time (LastSeen r)) (FailCount r).

Definition SaveNode (s : Store) (n : Node time) (io : option string) : Store * result string unit :=
  match statement_error s "saved_nodes" io with
  | Some e => (s, Err e)
  | None =>
    match real (PricePerHourDero n), real (BondDero n) with
    | Some price, Some bond => (set_nodes s (<[NodeID n := node_row n price bond]> (saved_nodes s)), Ok tt)
    | None, _ => (s, Err (not_null "saved_nodes.price_per_hour_dero"))
    | _, None => (s, Err (not_null "saved_nodes.bond_dero"))
    end
  end.

Definition no_rows : string := "sql: no rows in result set".

Definition GetNode (s : Store) (id : string) (io : option string) : result string (Node time) :=
  match statement_error s "saved_nodes" io with
  | Some e => Err e
  | None => match saved_nodes s !! id with Some r => Ok (read_node r) | None => Err no_rows end
  end.

(** The key is unique, so the order is the one of the ids. *)
Definition ListNodes (s : Store) (io : option string) : result string (list (Node time)) :=
  match statement_error s "saved_nodes" io with
  | Some e => Err e
  | None => Ok (map (fun e => read_node e.2) (sort_stable (fun a b => str_lt a.1 b.1) (map_to_list (saved_nodes s))))
  end.

(** *** Latency *)

(** [now] is the clock of the insertion, [later] the one of the deletion. *)
Definition prune (l : list sample) (later : time) : list sample :=
  List.filter (fun r => negb (str_lt (sm_at r) (sqlite_datetime (later - 7 * day)))) l.
Definition RecordLatency (s : Store) (nodeID : string) (d : duration) (now later : time) (io io' : option string)
  : Store * result string unit :=
  match statement_error s "latency_history" io with
  | Some e => (s, Err e)
  | None =>
    let l := latency_history s ++ [mkSample nodeID (Z.quot d 1000000) (strftime_ms now)] in
    match io' with
    | Some e => (set_latency s l, Err e)
    | None => (set_latency s (prune l later), Ok tt)
    end
  end.

Definition sample_time (at_ : string) : time :=
  let t := read_time at_ in if Time_IsZero t then default 0 (parse_sqlite at_) else t.

Section ordered.
Context `{SortSlice}.

(** The samples of a node, newest first. *)
Definition newest_samples (s : Store) (nodeID : string) (limit : Z) : list sample :=
  limited limit (sort_Slice (fun a b => str_lt (sm_at b) (sm_at a))
    (List.filter (fun r => String.eqb (sm_node r) nodeID) (latency_history s))).

Definition LatencyHistory (s : Store) (nodeID : string) (limit : Z) (io : option string)
  : result string (list duration * list time) :=
  match statement_error s "latency_history" io with
  | Some e => Err e
  | None => let l := newest_samples s nodeID limit in
            Ok (map (fun r => wrap_i64 (sm_ms r * 1000000)) l, map (fun r => sample_time (sm_at r)) l)
  end.

(** The mean is a float, cut to whole milliseconds. *)
Definition AvgLatency `{GoArch} (s : Store) (nodeID : string) (limit : Z) (io : option string)
  : result string (duration * Z) :=
  match statement_error s "latency_history" io with
  | Some e => Err e
  | None =>
    match newest_samples s nodeID limit with
    | [] => Ok (0, 0)
    | l => let n := Z.of_nat (length l) in
           Ok (wrap_i64 (f_to_int64 (f_div (f_of_Z (sum_by sm_ms l)) (f_of_Z n)) * 1000000), n)
    end
  end.

(** *** Receipts *)

Definition read_receipt (r : Receipt string) : Receipt time :=
  mkReceipt (r_ID r) (r_NodeID r) (r_SessionID r) (AmountDero r) (TxID r) (read_time (At r)).

(** OR REPLACE puts the default of a NOT NULL column for a NULL. *)
Definition SaveReceipt (s : Store) (r : Receipt time) (io : option string) : Store * result string unit :=
  match statement_error s "receipts" io with
  | Some e => (s, Err e)
  | None =>
    let row := mkReceipt (r_ID r) (r_NodeID r) (r_SessionID r) (default f0 (real (AmountDero r))) (TxID r)
                 (format_RFC3339Nano (At r)) in
    (set_receipts s (<[r_ID r := row]> (receipts s)), Ok tt)
  end.

Definition ListReceipts (s : Store) (limit : Z) (io : option string) : result string (list (Receipt time)) :=
  match statement_error s "receipts" io with
  | Some e => Err e
  | None => Ok (map read_receipt (limited limit (sort_Slice (fun a b => str_lt (At b) (At a))
                 (map snd (map_to_list (receipts s))))))
  end.
End ordered.

(** *** Trust *)

Definition clamp01 (x : float64) : float64 :=
  let x := if f_lt x f0 then f0 else x in if f_gt x f1 then f1 else x.

Definition SetTrust (s : Store) (nodeID : string) (score : float64) (samples : Z) (now : time) (io : option string)
  : Store * result string unit :=
  match statement_error s "local_trust" io with
  | Some e => (s, Err e)
  | None =>
    match real (clamp01 score) with
    | None => (s, Err (not_null "local_trust.score"))
    | Some x => (set_trust s (<[nodeID := mkTrust x samples (strftime_ms now)]> (local_trust s)), Ok tt)
    end
  end.

Definition GetTrust (s : Store) (nodeID : string) (io : option string) : result string (float64 * Z) :=
  match statement_error s "local_trust" io with
  | Some e => Err e
  | None => match local_trust s !! nodeID with
            | Some t => Ok (tr_score t, tr_samples t)
            | None => Ok (f_half, 0)
            end
  end.

(** *** Connections *)

Definition AddConnection (s : Store) (nodeID : string) (now : time) (io : option string) : Store * result string Z :=
  match statement_error s "connection_history" io with
  | Some e => (s, Err e)
  | None => let id := conn_seq s + 1 in
            (set_connections s (connection_history s ++ [mkConn id nodeID (strftime_ms now) None 0 0]) id, Ok id)
  end.

Definition end_row (id rx tx : Z) (ended : string) (r : conn) : conn :=
  if cn_id r =? id then mkConn (cn_id r) (cn_node r) (cn_started r) (Some ended) rx tx else r.
Definition EndConnection (s : Store) (id rx tx : Z) (now : time) (io : option string) : Store * result string unit :=
  match statement_error s "connection_history" io with
  | Some e => (s, Err e)
  | None => (set_connections s (map (end_row id rx tx (strftime_ms now)) (connection_history s)) (conn_seq s), Ok tt)
  end.

Definition read_conn (r : conn) : Connection :=
  mkConnection (cn_id r) (cn_node r) (read_time (cn_started r)) (cn_ended r ≫= parse_RFC3339Nano) (cn_rx r) (cn_tx r).
Definition ListConnections (s : Store) (limit : Z) (io : option string) : result string (list Connection) :=
  match statement_error s "connection_history" io with
  | Some e => Err e
  | None => Ok (map read_conn (limited limit (sort_stable (fun a b => cn_id b <? cn_id a) (connection_history s))))
  end.

(** *** Settings and session state *)

Definition SetSetting (s : Store) (key value : string) (io : option string) : Store * result string unit :=
  match statement_error s "settings" io with
  | Some e => (s, Err e)
  | None => (set_settings s (<[key := value]> (settings s)), Ok tt)
  end.
Definition GetSetting (s : Store) (key : string) (io : option string) : result string string :=
  match statement_error s "settings" io with
  | Some e => Err e
  | None => Ok (default "" (settings s !! key))
  end.
Definition SetSession (s : Store) (key value : string) (io : option string) : Store * result string unit :=
  match statement_error s "session_state" io with
  | Some e => (s, Err e)
  | None => (set_session s (<[key := value]> (session_state s)), Ok tt)
  end.
Definition GetSession (s : Store) (key : string) (io : option string) : result string string :=
  match statement_error s "session_state" io with
  | Some e => Err e
  | None => Ok (default "" (session_state s !! key))
  end.
Definition ClearSession (s : Store) (io : option string) : Store * result string unit :=
  match statement_error s "session_state" io with
  | Some e => (s, Err e)
  | None => (set_session s ∅, Ok tt)
  end.

(** ** Lemmas *)

Definition statement_name (st : statement) : string :=
  match st with CreateTable t => t | CreateIndex i _ => i end.
Definition names (l : list statement) : gset string := list_to_set (map statement_name l).

(** Every index of a script is on a table that exists by then. *)
Fixpoint script_ok (c : gset string) (l : list statement) : Prop :=
  match l with
  | [] => True
  | CreateTable t :: l => script_ok ({[t]} ∪ c) l
  | CreateIndex i t :: l => t ∈ c ∧ script_ok ({[i]} ∪ c) l
  end.

Lemma script_ok_mono l c c' : c ⊆ c' → script_ok c l → script_ok c' l.
Proof.
  revert c c'. induction l as [|[t|i t] l IH]; intros c c' Hc; cbn; [done| |].
  - apply IH. by apply union_mono_l.
  - intros [Ht Hl]. split; [by apply Hc|]. eapply IH; [|exact Hl]. by apply union_mono_l.
Qed.

Lemma migrations_ok : Forall (script_ok ∅) migrations.
Proof. repeat constructor; set_solver. Qed.

(** The same rows under another schema. *)
Definition same_rows (s s' : Store) : Prop := s' = set_schema s (created s') (version s').

Lemma same_rows_trans s1 s2 s3 : same_rows s1 s2 → same_rows s2 s3 → same_rows s1 s3.
Proof. unfold same_rows. intros H1 H2. rewrite H2, H1. done. Qed.

Definition quiet (io : outcomes) : Prop := Forall (fun x => x = None) io.

Lemma quiet_next io : quiet io → ∃ io', next io = (None, io') ∧ quiet io'.
Proof. destruct 1 as [|x io -> Hq]; cbn; [exists []; split; [done|constructor] | by exists io]. Qed.

Lemma quiet_tail io x io' : next io = (x, io') → quiet io → x = None ∧ quiet io'.
Proof. intros En Hq. destruct (quiet_next io Hq) as (? & E & ?). rewrite En in E. by injection E as -> ->. Qed.

Lemma exec_script_spec l : ∀ s io s' io' r, exec_script s l io = (s', io', r) →
  same_rows s s' ∧ version s' = version s ∧ created s ⊆ created s'
  ∧ (r = None → names l ⊆ created s')
  ∧ (script_ok (created s) l → quiet io → r = None ∧ quiet io').
Proof.
  induction l as [|st l IH]; intros s io s' io' r; cbn [exec_script].
  { intros [= <- <- <-]. split; [by destruct s|]. split; [done|]. split; [done|]. split; [|done].
    intros _. apply empty_subseteq. }
  destruct (next io) as [[e|] io1] eqn:En.
  { intros [= <- <- <-]. split; [by destruct s|]. split; [done|]. split; [done|]. split; [done|].
    intros _ Hq. by destruct (quiet_tail _ _ _ En Hq). }
  assert (∀ s1, created s1 = {[statement_name st]} ∪ created s → exec_script s1 l io1 = (s', io', r) →
      same_rows s s1 → version s1 = version s → (script_ok (created s) (st :: l) → script_ok (created s1) l) →
      same_rows s s' ∧ version s' = version s ∧ created s ⊆ created s'
      ∧ (r = None → names (st :: l) ⊆ created s')
      ∧ (script_ok (created s) (st :: l) → quiet io → r = None ∧ quiet io')) as Hstep.
  { intros s1 Hc (H1 & H2 & H3 & H4 & H5)%IH R1 V1 Hok. rewrite Hc in H3.
    apply union_subseteq in H3 as [H3 H3'].
    split; [by eapply same_rows_trans|]. split; [by rewrite H2|]. split; [done|]. split.
    - intros Hr. apply union_subseteq. split; [done | by apply H4].
    - intros Ho Hq. apply H5; [by apply Hok | by destruct (quiet_tail _ _ _ En Hq)]. }
  destruct st as [t|i t].
  - intros H. eapply Hstep; [|exact H|by destruct s|done|]; [done|]. intros Hk. exact Hk.
  - destruct (decide (t ∈ created s)) as [Ht|Ht].
    + intros H. eapply Hstep; [|exact H|by destruct s|done|]; [done|]. intros Hk. exact (proj2 Hk).
    + intros [= <- <- <-]. split; [by destruct s|]. split; [done|]. split; [done|]. split; [done|].
      by intros [Hok _].
Qed.

(** What the first [v] migrations create. *)
Definition up_to (v : Z) : gset string := ⋃ (map names (take (Z.to_nat v) migrations)).

(** A database this program left behind, at whatever point it stopped. *)
Definition schema_wf (s : Store) : Prop :=
  match version s with
  | Some v => 0 ≤ v ≤ SchemaVersion ∧ {["schema_version"]} ∪ up_to v ⊆ created s
  | None => True
  end.

Lemma up_to_next v m : migrations !! Z.to_nat v = Some m → 0 ≤ v → up_to (v + 1) = up_to v ∪ names m.
Proof.
  intros Hm Hv. unfold up_to. replace (Z.to_nat (v + 1)) with (S (Z.to_nat v)) by lia.
  rewrite (take_S_r _ _ m) by done. rewrite map_app, union_list_app_L. cbn. by rewrite union_empty_r_L.
Qed.

Lemma apply_migrations_spec ms : ∀ s v io s' r,
  0 ≤ v → ms = drop (Z.to_nat v) migrations → version s = Some v → schema_wf s →
  apply_migrations s v ms io = (s', r) →
  same_rows s s' ∧ schema_wf s' ∧ created s ⊆ created s'
  ∧ (r = Ok tt → version s' = Some SchemaVersion) ∧ (quiet io → r = Ok tt)
  ∧ (v = SchemaVersion → s' = s).
Proof.
  induction ms as [|m ms IH]; intros s v io s' r Hv Hms Hs Hwf; cbn [apply_migrations].
  { intros [= <- <-]. split; [by destruct s|]. split_and!; try done. intros _. rewrite Hs. f_equal.
    symmetry in Hms. apply skipn_all_iff in Hms. change (length migrations) with 3%nat in Hms.
    unfold schema_wf in Hwf. rewrite Hs in Hwf. unfold SchemaVersion in *. lia. }
  assert (migrations !! Z.to_nat v = Some m) as Hm.
  { rewrite <- (Nat.add_0_r (Z.to_nat v)), <- lookup_drop, <- Hms. done. }
  assert (ms = drop (Z.to_nat (v + 1)) migrations) as Hms'.
  { replace (Z.to_nat (v + 1)) with (Z.to_nat v + 1)%nat by lia. by rewrite <- drop_drop, <- Hms. }
  assert (v < SchemaVersion) as Hlt.
  { apply lookup_lt_Some in Hm. change (length migrations) with 3%nat in Hm. unfold SchemaVersion. lia. }
  destruct (exec_script s m io) as [[s1 io1] x] eqn:E. apply exec_script_spec in E as (R1 & V1 & C1 & N1 & Q1).
  unfold schema_wf in Hwf. rewrite Hs in Hwf. destruct Hwf as [_ Hwf].
  assert (script_ok (created s) m) as Hok.
  { eapply script_ok_mono; [apply empty_subseteq|]. exact (Forall_lookup_1 _ _ _ _ migrations_ok Hm). }
  assert (schema_wf s1) as W1.
  { unfold schema_wf. rewrite V1, Hs. unfold SchemaVersion in *. split; [lia|]. by etrans. }
  destruct x as [e|].
  { intros [= <- <-]. split; [done|]. split; [done|]. split; [done|]. split; [done|]. split; [|lia].
    intros Hq. by destruct (Q1 Hok Hq). }
  destruct (next io1) as [[e|] io2] eqn:En.
  { intros [= <- <-]. split; [done|]. split; [done|]. split; [done|]. split; [done|]. split; [|lia].
    intros Hq. destruct (Q1 Hok Hq) as [_ Hq1]. by destruct (quiet_tail _ _ _ En Hq1). }
  intros HH. apply IH in HH; [|lia|done|done|].
  - destruct HH as (R2 & W2 & C2 & D2 & Q2 & _). split.
    { eapply same_rows_trans; [exact R1|]. eapply same_rows_trans; [|exact R2]. by destruct s1. }
    split; [done|]. split; [by etrans|]. split; [done|]. split; [|lia].
    intros Hq. apply Q2. destruct (Q1 Hok Hq) as [_ Hq1]. by destruct (quiet_tail _ _ _ En Hq1).
  - unfold schema_wf. cbn. rewrite (up_to_next v m) by done. unfold SchemaVersion in *. split; [lia|].
    apply union_subseteq in Hwf as [Hw1 Hw2].
    repeat apply union_least; [by etrans | by etrans | by apply N1].
Qed.

Lemma exec_version_table s io s' io' x :
  exec_script s [CreateTable "schema_version"] io = (s', io', x) → schema_wf s → schema_wf s'.
Proof.
  intros (R & V & C & _)%exec_script_spec. unfold schema_wf. rewrite V. destruct (version s); [|done].
  intros [? ?]. split; [done|]. by etrans.
Qed.

Lemma run_from_spec s v io s' r : version s = Some v → schema_wf s → run_from s v io = (s', r) →
  same_rows s s' ∧ schema_wf s' ∧ created s ⊆ created s'
  ∧ (r = Ok tt → version s' = Some SchemaVersion) ∧ (quiet io → r = Ok tt).
Proof.
  intros Hs Hwf. assert (0 ≤ v) as Hv.
  { unfold schema_wf in Hwf. rewrite Hs in Hwf. lia. }
  unfold run_from. rewrite (proj2 (Z.ltb_ge v 0)) by done. intros H.
  by apply apply_migrations_spec in H as (? & ? & ? & ? & ? & _).
Qed.

(** Opening, whatever fails: rows stay, the schema stays consistent and only
    grows, and without failures it is brought to the last version. *)
Lemma open_spec s io s' r : schema_wf s → Open s io = (s', r) →
  same_rows s s' ∧ schema_wf s' ∧ created s ⊆ created s'
  ∧ (r = Ok tt → version s' = Some SchemaVersion) ∧ (quiet io → r = Ok tt).
Proof.
  intros Hwf. unfold Open, migrate. destruct (exec_script s _ io) as [[s1 io1] x] eqn:E.
  pose proof (exec_version_table _ _ _ _ _ E Hwf) as W1.
  apply exec_script_spec in E as (R1 & V1 & C1 & N1 & Q1). cbn [script_ok] in Q1.
  destruct x as [e|]; [intros [= <- <-]; split_and!; try done; intros Hq; by destruct (Q1 I Hq)|].
  assert (quiet io → quiet io1) as Hq1 by (intros Hq; by destruct (Q1 I Hq)).
  destruct (next io1) as [[e|] io2] eqn:En.
  { intros [= <- <-]. split_and!; try done. intros Hq. by destruct (quiet_tail _ _ _ En (Hq1 Hq)). }
  assert (quiet io → quiet io2) as Hq2 by (intros Hq; by destruct (quiet_tail _ _ _ En (Hq1 Hq))).
  destruct (version s1) as [v|] eqn:Ev.
  { intros (R2 & W2 & C2 & D2 & Q2)%run_from_spec; [|done|done].
    split; [by eapply same_rows_trans|]. split; [done|]. split; [by etrans|]. split; [done|]. auto. }
  destruct (next io2) as [[e|] io3] eqn:En2.
  { intros [= <- <-]. split_and!; try done. intros Hq. by destruct (quiet_tail _ _ _ En2 (Hq2 Hq)). }
  intros H. apply run_from_spec in H as (R2 & W2 & C2 & D2 & Q2); [|done|].
  - cbn in C2. split; [eapply same_rows_trans; [exact R1|]; eapply same_rows_trans; [|exact R2]; by destruct s1|].
    split; [done|]. split; [by etrans|]. split; [done|]. intros Hq. apply Q2.
    by destruct (quiet_tail _ _ _ En2 (Hq2 Hq)).
  - unfold schema_wf. cbn. split; [unfold SchemaVersion; lia|]. specialize (N1 eq_refl).
    apply union_least; [|apply empty_subseteq]. etrans; [|exact N1]. cbn. apply union_subseteq_l.
Qed.

(** A complete database is opened as it is. *)
Lemma open_complete s : schema_wf s → version s = Some SchemaVersion → Open s [] = (s, Ok tt).
Proof.
  intros Hwf Hv. unfold Open, migrate. cbn [exec_script next]. unfold schema_wf in Hwf. rewrite Hv in Hwf.
  assert ({["schema_version"]} ∪ created s = created s) as E.
  { apply subseteq_union_1_L. etrans; [apply union_subseteq_l | apply Hwf]. }
  rewrite E. replace (set_schema s (created s) (version s)) with s by by destruct s.
  rewrite Hv. done.
Qed.

(** Every table the operations name. *)
Definition usable (s : Store) : Prop :=
  Forall (fun t => t ∈ created s)
    ["saved_nodes"; "latency_history"; "local_trust"; "settings"; "session_state"; "connection_history"; "receipts"].

Lemma complete_usable s : schema_wf s → version s = Some SchemaVersion → usable s.
Proof.
  unfold schema_wf, usable. intros Hwf Hv. rewrite Hv in Hwf. destruct Hwf as [_ Hc].
  apply union_subseteq in Hc as [_ Hc].
  assert (Forall (fun t => t ∈ up_to SchemaVersion)
    ["saved_nodes"; "latency_history"; "local_trust"; "settings"; "session_state"; "connection_history"; "receipts"])
    as Hu by (repeat constructor; apply bool_decide_unpack; vm_compute; exact I).
  eapply Forall_impl; [exact Hu|]. intros t Ht. by apply Hc.
Qed.

(** Whatever this program does to a file. *)
Inductive db_step : Store → Store → Prop :=
| step_open s io : db_step s (Open s io).1
| step_node s n io : db_step s (SaveNode s n io).1
| step_latency s id d now later io io' : db_step s (RecordLatency s id d now later io io').1
| step_trust s id x k now io : db_step s (SetTrust s id x k now io).1
| step_connect s id now io : db_step s (AddConnection s id now io).1
| step_end s id rx tx now io : db_step s (EndConnection s id rx tx now io).1
| step_receipt s r io : db_step s (SaveReceipt s r io).1
| step_setting s k v io : db_step s (SetSetting s k v io).1
| step_session s k v io : db_step s (SetSession s k v io).1
| step_clear s io : db_step s (ClearSession s io).1.

Lemma db_step_wf s s' : db_step s s' → schema_wf s → schema_wf s'.
Proof.
  intros Hst Hwf. destruct Hst;
    [ destruct (Open s io) as [s1 r] eqn:E; by apply (open_spec s io s1 r Hwf) in E as (_ & ? & _) | .. ].
  all: unfold SaveNode, RecordLatency, SetTrust, AddConnection, EndConnection, SaveReceipt, SetSetting,
    SetSession, ClearSession; repeat case_match; done.
Qed.

Lemma db_steps_wf s : rtc db_step empty_db s → schema_wf s.
Proof.
  intros Hs. remember empty_db as z eqn:Ez. assert (schema_wf z) as Hz by by subst z.
  clear Ez. induction Hs as [|s1 s2 s3 Hs _ IH]; [done|]. by apply IH, (db_step_wf s1).
Qed.

(** Connection ids are given out once, from 1. *)
Definition ids_wf (s : Store) : Prop :=
  0 ≤ conn_seq s ∧ Forall (fun r => 0 < cn_id r ≤ conn_seq s) (connection_history s).

Lemma end_row_id id rx tx t r : cn_id (end_row id rx tx t r) = cn_id r.
Proof. unfold end_row. by destruct (cn_id r =? id). Qed.

Lemma db_step_ids s s' : schema_wf s → db_step s s' → ids_wf s → ids_wf s'.
Proof.
  intros Hwf Hst [H0 Hids]. destruct Hst;
    [ destruct (Open s io) as [s1 r] eqn:E; apply (open_spec s io s1 r Hwf) in E as (R & _); cbn [fst];
      by rewrite R | .. ].
  all: unfold SaveNode, RecordLatency, SetTrust, AddConnection, EndConnection, SaveReceipt, SetSetting,
    SetSession, ClearSession; repeat case_match; try done; unfold ids_wf; cbn.
  - split; [lia|]. apply Forall_app. split; [|by repeat constructor; cbn; lia].
    eapply Forall_impl; [exact Hids|]. cbn. lia.
  - split; [done|]. apply Forall_map. eapply Forall_impl; [exact Hids|]. cbn. intros c. by rewrite end_row_id.
Qed.

Lemma db_steps_ids s : rtc db_step empty_db s → ids_wf s.
Proof.
  intros Hs. remember empty_db as z eqn:Ez.
  assert (schema_wf z ∧ ids_wf z) as [Hz Hi] by (subst z; by repeat constructor).
  clear Ez. induction Hs as [|s1 s2 s3 Hs _ IH]; [done|].
  apply IH; [by apply (db_step_wf s1) | by apply (db_step_ids s1)].
Qed.

(** ** Properties *)

(** an interrupted start can always be finished.  Take any file this
    program left behind: from an empty one, after any opens and statements,
    any of which failed at any point.  Opening it never loses a row, never
    drops a table and keeps the recorded version true to the tables there are;
    without further failures it succeeds, and then all tables exist, the
    version is the last one, and opening once more changes nothing. *)
Theorem open_resumes (s : Store) (io : outcomes) :
  rtc db_step empty_db s →
  let s' := (Open s io).1 in
  s' = set_schema s (created s') (version s') ∧ created s ⊆ created s'
  ∧ (quiet io → (Open s io).2 = Ok tt)
  ∧ ((Open s io).2 = Ok tt → version s' = Some SchemaVersion ∧ usable s' ∧ Open s' [] = (s', Ok tt)).
Proof.
  intros Hs%db_steps_wf. destruct (Open s io) as [s1 r] eqn:E. cbn [fst snd].
  apply (open_spec s io s1 r Hs) in E as (R & W & C & D & Q). split; [done|]. split; [done|]. split; [done|].
  intros Hr. specialize (D Hr). split; [done|]. split; [by apply complete_usable | by apply open_complete].
Qed.

Lemma bytes_lt_asym a b : bytes_lt a b = true → bytes_lt b a = false.
Proof.
  intros Hab. apply not_true_is_false. intros Hba. pose proof (bytes_lt_trans _ _ _ Hab Hba) as Hc.
  by rewrite bytes_lt_irrefl in Hc.
Qed.

(** what is saved about a node is what is read.  When a node whose price
    and bond are numbers (and not negative zero) and whose last sighting lies
    in the years 1 to 9999 has been saved, reading its id gives back exactly
    that record, the list of nodes holds it, every other node, and every other
    table, is as before; a failing statement changes nothing. *)
Theorem saved_node_roundtrip (s s' : Store) (n : Node time) (io : option string) r :
  real (PricePerHourDero n) = Some (PricePerHourDero n) → real (BondDero n) = Some (BondDero n) →
  0 ≤ LastSeen n < max_text_time → SaveNode s n io = (s', r) →
  match r with
  | Ok _ => GetNode s' (NodeID n) None = Ok n
      ∧ (∀ l, ListNodes s' None = Ok l → n ∈ l)
      ∧ (∀ id, id ≠ NodeID n → GetNode s' id None = GetNode s id None)
      ∧ s' = set_nodes s (saved_nodes s')
  | Err _ => s' = s
  end.
Proof.
  intros Hp Hb Ht. unfold SaveNode. destruct (statement_error s "saved_nodes" io) as [e|] eqn:Ee; [by intros [= <- <-]|].
  rewrite Hp, Hb. intros [= <- <-].
  assert (statement_error s "saved_nodes" None = None) as Eo.
  { unfold statement_error in *. destruct io; [done|]. by case_decide. }
  assert (∀ m, statement_error (set_nodes s m) "saved_nodes" None = None) as Es by (intros m; exact Eo).
  assert (read_node (node_row n (PricePerHourDero n) (BondDero n)) = n) as Hrow.
  { unfold read_node, node_row. cbn. unfold read_time. rewrite RFC3339Nano_text by done. by destruct n. }
  split; [|split; [|split]].
  - unfold GetNode. rewrite Es. cbn [saved_nodes set_nodes]. by rewrite lookup_insert_eq, Hrow.
  - intros l. unfold ListNodes. rewrite Es. intros [= <-]. rewrite <- Hrow at 1.
    apply (list_elem_of_fmap_2 (λ e : string * Node string, read_node e.2) _ (NodeID n, node_row n (PricePerHourDero n) (BondDero n))).
    rewrite sort_stable_perm. apply elem_of_map_to_list. cbn. by rewrite lookup_insert_eq.
  - intros id Hid. unfold GetNode. rewrite Es, Eo. cbn [saved_nodes set_nodes]. by rewrite lookup_insert_ne by done.
  - done.
Qed.

(** ** Witnesses and examples *)

Definition demo_node (seen : time) : Node time :=
  mkNode "n1" "key" "eu" "DE" "" "203.0.113.7:51820" f_half 10 1 f1 "active" "1" seen 0.
Definition noon : time := day_number 2026 3 1 * day + 12 * hour.
Definition demo_db : Store := (Open empty_db []).1.

(** Power fails inside the first migration; the next start completes it. *)
Lemma open_resumes_witness :
  let s := (Open empty_db [None; None; None; None; None; Some "disk full"]).1 in
  version s = Some 0 ∧ bool_decide ("latency_history" ∈ created s) = false ∧ (Open s []).2 = Ok tt
  ∧ usable (Open s []).1.
Proof.
  intros s. assert (rtc db_step empty_db s) as Hs by (apply rtc_once; exact (step_open empty_db _)).
  destruct (open_resumes s [] Hs) as (_ & _ & Hq & Hr).
  assert (quiet []) as Hn by constructor. specialize (Hq Hn). destruct (Hr Hq) as (_ & Hu & _).
  split; [vm_compute; reflexivity|]. split; [vm_compute; reflexivity|]. split; [exact Hq | exact Hu].
Defined.

Lemma saved_node_roundtrip_witness :
  GetNode (SaveNode demo_db (demo_node noon) None).1 "n1" None = Ok (demo_node noon).
Proof.
  assert (SaveNode demo_db (demo_node noon) None = ((SaveNode demo_db (demo_node noon) None).1, Ok tt)) as E
    by (vm_compute; reflexivity).
  assert (real f_half = Some f_half) as E1 by (vm_compute; reflexivity).
  assert (real f1 = Some f1) as E2 by (vm_compute; reflexivity).
  assert (0 ≤ noon < max_text_time) as E3 by (split; vm_compute; [discriminate | reflexivity]).
  exact (proj1 (saved_node_roundtrip demo_db _ (demo_node noon) None (Ok tt) E1 E2 E3 E)).
Defined.

Definition demo_receipt (id : string) (at_ : time) : Receipt time := mkReceipt id "n1" "s" f_half ("tx-" +:+ id) at_.

(** The receipts are sorted as text: one of the whole second 12:00:00 counts as
    newer than the one half a second later. *)
Example newest_receipt_is_older :
  let s := (SaveReceipt demo_db (demo_receipt "a" noon) None).1 in
  let s := (SaveReceipt s (demo_receipt "b" (noon + 500000000)) None).1 in
  match ListReceipts (H := stable_sort) s 100 None with
  | Ok (r :: _) => r_ID r = "a"
  | _ => False
  end.
Proof. vm_compute. reflexivity. Qed.

(** A sample is meant to live seven days; compared as text with SQLite's form,
    which has a space where the column has a T, it lives to the end of the day. *)
Example sample_outlives_a_week :
  let s := (RecordLatency demo_db "n1" 5000000 noon noon None None).1 in
  let later := noon + 7 * day + 11 * hour in
  length (latency_history (RecordLatency s "n1" 7000000 later later None None).1) = 2%nat
  ∧ length (latency_history (RecordLatency s "n1" 7000000 (later + hour) (later + hour) None None).1) = 1%nat.
Proof. vm_compute. split; reflexivity. Qed.

(** Fractions of a millisecond are lost: one sample of 0 and one of 1 average 0. *)
Example average_is_truncated :
  let s := (RecordLatency demo_db "n1" 900000 noon noon None None).1 in
  let s := (RecordLatency s "n1" 1900000 noon noon None None).1 in
  AvgLatency (H := stable_sort) (H0 := amd64) s "n1" 5 None = Ok (0, 2).
Proof. vm_compute. reflexivity. Qed.

(** An amount that is not a number is recorded as nothing, without an error. *)
Example nan_receipt_is_zero :
  let s := (SaveReceipt demo_db (mkReceipt "a" "n1" "s" SpecFloat.S754_nan "tx" noon) None) in
  s.2 = Ok tt ∧ AmountDero <$> receipts s.1 !! "a" = Some f0
  ∧ (SetTrust demo_db "n1" SpecFloat.S754_nan 1 noon None).2 = Err (not_null "local_trust.score").
Proof. vm_compute. split_and!; reflexivity. Qed.

(** A file of a newer program is taken for a complete one. *)
Example newer_schema_is_accepted :
  let s := set_schema empty_db {["schema_version"]} (Some 7) in
  (Open s []).2 = Ok tt
  ∧ (SetSetting (Open s []).1 "k" "v" None).2 = Err (no_table "settings").
Proof. vm_compute. split; reflexivity. Qed.
