(* ===== verification/Ipam.v ===== *)
(** * Ipam: client address allocation (internal/nodes/ipam.go)

    Offsets into the CGNAT range are uint32 with their wrap-around written
    out.  [used] is a map of flags that are only ever set to true and
    deleted, so it is the set of its keys. *)

From Stdlib Require Import ZArith Lia.
From S2P Require Import Prelude GoStrings NetIP.

Inductive error := ErrBadCIDR | ErrTooSmall | ErrExhausted.

Record IPAM := mkIPAM {
  base : Z;
  size : Z;
  next : Z;
  used : gset Z;
  serverIP : string
}.

(** The network mask of a prefix length, as [binary.BigEndian.Uint32] reads it. *)
Definition mask32 (n : Z) : Z := wrap_u32 (- 2 ^ (32 - n)).

Definition NewIPAM (cidr : string) : result error IPAM :=
  match parse_cidr4 cidr with
  | None => Err ErrBadCIDR
  | Some (ip4, n) =>
    let mask := mask32 n in
    let base := Z.land ip4 mask in
    let size := wrap_u32 (Z.lxor mask (2 ^ 32 - 1) + 1) in
    if size <? 8 then Err ErrTooSmall
    else Ok (mkIPAM base size 2 ∅ (ipv4_String (wrap_u32 (base + 1))))
  end.

(** The loop of [Allocate]: [fuel] is the number of iterations left. *)
Fixpoint alloc_loop (a : IPAM) (fuel : nat) : IPAM * option Z :=
  match fuel with
  | O => (a, None)
  | S fuel =>
    let off := next a in
    let n := wrap_u32 (next a + 1) in
    let n := if wrap_u32 (size a - 1) <=? n then 2 else n in
    let a := mkIPAM (base a) (size a) n (used a) (serverIP a) in
    if bool_decide (off ∈ used a) then alloc_loop a fuel
    else if off =? wrap_u32 (size a - 1) then alloc_loop a fuel
    else (mkIPAM (base a) (size a) n ({[off]} ∪ used a) (serverIP a), Some off)
  end.

Definition IPAM_Allocate (a : IPAM) : IPAM * result error string :=
  match alloc_loop a (Z.to_nat (wrap_u32 (size a - 2))) with
  | (a, None) => (a, Err ErrExhausted)
  | (a, Some off) => (a, Ok (ipv4_String (wrap_u32 (base a + off))))
  end.

Definition set_used (a : IPAM) (u : gset Z) : IPAM :=
  mkIPAM (base a) (size a) (next a) u (serverIP a).

Section text.
Context `{IPv6}.

Definition IPAM_Release (a : IPAM) (ipStr : string) : IPAM :=
  match parse_To4 ipStr with
  | None => a
  | Some ip => set_used a (used a ∖ {[wrap_u32 (ip - base a)]})
  end.

Definition IPAM_Reserve (a : IPAM) (ipStr : string) : IPAM :=
  match parse_To4 ipStr with
  | None => a
  | Some ip =>
    let off := wrap_u32 (ip - base a) in
    if (off <? 2) || (wrap_u32 (size a - 1) <=? off) then a
    else set_used a ({[off]} ∪ used a)
  end.
End text.

Definition IPAM_Used (a : IPAM) : Z := Z.of_nat (Datatypes.length (elements (used a))).

(** ** The allocator's invariant *)

(** Offsets a client may be given: not the network, the server or the broadcast. *)
Definition usable (a : IPAM) (off : Z) : Prop := 2 ≤ off ≤ size a - 2.

Record wf (a : IPAM) : Prop := {
  wf_size : 8 ≤ size a < 2 ^ 32;
  wf_base : 0 ≤ base a ∧ base a + size a ≤ 2 ^ 32;
  wf_next : usable a (next a);
  wf_used : ∀ off, off ∈ used a → usable a off
}.

(** The address at an offset. *)
Definition address (a : IPAM) (off : Z) : string := ipv4_String (base a + off).

Lemma mask32_facts n : 0 ≤ n ≤ 32 →
  mask32 n = 2 ^ 32 - 2 ^ (32 - n) ∨ (n = 0 ∧ mask32 n = 0).
Proof.
  intros Hn. unfold mask32. unwidth. destruct (Z.eq_dec n 0) as [->|Hne]; [by right|]. left.
  assert (0 < 2 ^ (32 - n) < 2 ^ 32) as Hp
    by (split; [apply Z.pow_pos_nonneg; lia|apply Z.pow_lt_mono_r; lia]).
  rewrite Z.mod_opp_l_nz by (rewrite ?Z.mod_small; lia). rewrite Z.mod_small by lia. done.
Qed.

Lemma digits_nonneg l acc n : 0 ≤ acc → digits l acc = Some n → 0 ≤ n.
Proof.
  revert acc. induction l as [|c l IH]; intros acc Ha; simpl; [by intros [= <-]|].
  unfold digit. destruct (_ && _) eqn:E; [|done]. intros En. zbool. eapply IH; [|exact En]. lia.
Qed.

Lemma parse_octet_range l n : parse_octet l = Some n → 0 ≤ n < 256.
Proof.
  intros E. assert (∃ m, digits l 0 = Some m ∧ (m <=? 255) = true ∧ n = m) as (m & Hd & Hm & ->).
  { unfold parse_octet in E. branches E; injection E as <-; eauto. }
  apply Z.leb_le in Hm. apply digits_nonneg in Hd; lia.
Qed.

Lemma parse_ipv4_range s a : parse_ipv4 s = Some a → 0 ≤ a < 2 ^ 32.
Proof.
  unfold parse_ipv4. destruct (split_dots (chars s)) as [|w [|x [|y [|z [|? ?]]]]]; simpl;
    try (by repeat case_match); intros E.
  destruct (parse_octet w) as [w'|] eqn:Ew, (parse_octet x) as [x'|] eqn:Ex,
    (parse_octet y) as [y'|] eqn:Ey, (parse_octet z) as [z'|] eqn:Ez; try done.
  apply parse_octet_range in Ew, Ex, Ey, Ez. injection E as <-. unfold of_octets. simpl. lia.
Qed.

Lemma cidr_range s ip n : parse_cidr4 s = Some (ip, n) → 0 ≤ ip < 2 ^ 32 ∧ 0 ≤ n ≤ 32.
Proof.
  unfold parse_cidr4. destruct (strings_Cut s _) as [[addr mask]|]; [|done].
  destruct (parse_ipv4 addr) as [a|] eqn:Ea; [|done]. destruct (chars mask) as [|c l]; [done|].
  destruct (digits (c :: l) 0) as [k|] eqn:Ed; [|done]. case_match eqn:Ek; [|done].
  intros [= <- <-]. apply parse_ipv4_range in Ea. apply digits_nonneg in Ed; [|lia].
  apply Z.leb_le in Ek. lia.
Qed.

(** The range of a prefix length of at most 29 bits. *)
Lemma prefix_size n : 0 ≤ n ≤ 32 → 8 ≤ wrap_u32 (Z.lxor (mask32 n) (2 ^ 32 - 1) + 1) →
  0 ≤ mask32 n ∧ mask32 n + wrap_u32 (Z.lxor (mask32 n) (2 ^ 32 - 1) + 1) = 2 ^ 32
  ∧ wrap_u32 (Z.lxor (mask32 n) (2 ^ 32 - 1) + 1) < 2 ^ 32.
Proof.
  intros Hn.
  assert (forallb (fun k => let n := Z.of_nat k in
    let s := wrap_u32 (Z.lxor (mask32 n) (2 ^ 32 - 1) + 1) in
    (s <? 8) || ((0 <=? mask32 n) && (mask32 n + s =? 2 ^ 32) && (s <? 2 ^ 32))) (seq 0 33) = true)
    as Hall by (vm_compute; reflexivity).
  rewrite forallb_forall in Hall. specialize (Hall (Z.to_nat n)).
  rewrite Z2Nat.id in Hall by lia. intros Hs.
  assert (In (Z.to_nat n) (seq 0 33)) as Hin by (apply in_seq; lia).
  specialize (Hall Hin). cbv zeta in Hall. apply orb_true_iff in Hall as [Hall|Hall]; zbool; lia.
Qed.

Lemma land_le_r a m : 0 ≤ m → 0 ≤ Z.land a m ≤ m.
Proof.
  intros Hm. split; [apply Z.land_nonneg; by right|].
  assert (Z.ldiff (Z.land a m) m = 0) as Hd.
  { apply Z.bits_inj'. intros i Hi. rewrite Z.ldiff_spec, Z.land_spec, Z.bits_0.
    by destruct (Z.testbit a i), (Z.testbit m i). }
  pose proof (Z.sub_nocarry_ldiff m (Z.land a m) Hd) as Hs.
  assert (0 ≤ Z.ldiff m (Z.land a m)) by (apply Z.ldiff_nonneg; by left). lia.
Qed.

Lemma NewIPAM_ok cidr a : NewIPAM cidr = Ok a → wf a ∧ used a = ∅ ∧ next a = 2.
Proof.
  unfold NewIPAM. destruct (parse_cidr4 cidr) as [[ip n]|] eqn:E; [|done].
  apply cidr_range in E as [Hip Hn].
  destruct (Z.ltb_spec (wrap_u32 (Z.lxor (mask32 n) (2 ^ 32 - 1) + 1)) 8) as [|Hs]; [done|].
  intros [= <-]. destruct (prefix_size n Hn Hs) as (Hm & Hsum & Hlt).
  destruct (land_le_r ip (mask32 n) Hm) as [Hb1 Hb2].
  split; [|done]. split; simpl; unfold usable; simpl; [lia|lia|lia|set_solver].
Qed.

(** ** The circular scan *)

Definition slots (a : IPAM) : Z := size a - 3.
Definition ring (a : IPAM) (j : Z) : Z := 2 + (next a - 2 + j) mod slots a.

Definition same_range (a a' : IPAM) : Prop :=
  base a' = base a ∧ size a' = size a ∧ serverIP a' = serverIP a.

Definition advance (a : IPAM) : IPAM :=
  let n := wrap_u32 (next a + 1) in
  mkIPAM (base a) (size a) (if wrap_u32 (size a - 1) <=? n then 2 else n) (used a) (serverIP a).

Lemma advance_next a : wf a →
  next (advance a) = 2 + (next a - 2 + 1) mod slots a ∧ wf (advance a).
Proof.
  intros [Hs Hb Hn Hu]. unfold usable, slots, advance in *. cbv zeta.
  rewrite (wrap_u32_id (next a + 1)), (wrap_u32_id (size a - 1)) by (unwidth; lia).
  destruct (Z.leb_spec (size a - 1) (next a + 1)).
  - replace (next a - 2 + 1) with (size a - 3) by lia. rewrite Z.mod_same by lia.
    split; [done|]. split; simpl; unfold usable; simpl; (done || lia).
  - rewrite Z.mod_small by lia. split; [simpl; lia|].
    split; simpl; unfold usable; simpl; (done || lia).
Qed.

Lemma advance_ring a j : wf a → 0 ≤ j → ring (advance a) j = ring a (j + 1).
Proof.
  intros Hw Hj. destruct (advance_next a Hw) as [Hn _]. unfold ring.
  change (slots (advance a)) with (slots a). rewrite Hn.
  assert (0 < slots a) by (destruct Hw; unfold slots; lia).
  replace (2 + (next a - 2 + 1) mod slots a - 2 + j)
    with ((next a - 2 + 1) mod slots a + j) by lia.
  rewrite Z.add_mod_idemp_l by lia. do 2 f_equal. lia.
Qed.

Lemma ring_zero a : wf a → ring a 0 = next a.
Proof.
  intros [Hs _ Hn _]. unfold ring, slots, usable in *. rewrite Z.mod_small; lia.
Qed.

Lemma alloc_loop_S fuel a : alloc_loop a (S fuel) =
  if bool_decide (next a ∈ used a) then alloc_loop (advance a) fuel
  else if next a =? wrap_u32 (size a - 1) then alloc_loop (advance a) fuel
  else (set_used (advance a) ({[next a]} ∪ used a), Some (next a)).
Proof. reflexivity. Qed.

Lemma alloc_loop_spec fuel a : wf a →
  let '(a', res) := alloc_loop a fuel in
  same_range a a' ∧ wf a' ∧
  match res with
  | Some off => off ∉ used a ∧ usable a off ∧ used a' = {[off]} ∪ used a
  | None => used a' = used a ∧ ∀ j, 0 ≤ j < Z.of_nat fuel → ring a j ∈ used a
  end.
Proof.
  revert a. induction fuel as [|fuel IH]; intros a Hw.
  { simpl. split; [done|]. split; [done|]. split; [done|]. lia. }
  rewrite alloc_loop_S. destruct (advance_next a Hw) as [_ Hw'].
  assert (off_ok : usable a (next a)) by apply Hw.
  destruct (bool_decide_reflect (next a ∈ used a)) as [Hin|Hin].
  - specialize (IH (advance a) Hw'). destruct (alloc_loop (advance a) fuel) as [a' [off|]].
    + exact IH.
    + destruct IH as (Hr & Hwa & Hu & Hj). split; [exact Hr|]. split; [exact Hwa|].
      split; [exact Hu|]. intros j Hlt. destruct (Z.eq_dec j 0) as [->|Hne].
      * by rewrite ring_zero.
      * replace j with (j - 1 + 1) by lia. rewrite <- advance_ring by (done || lia).
        apply (Hj (j - 1)). lia.
  - destruct Hw as [Hs Hb Hn Hu]. unfold usable in *.
    rewrite (wrap_u32_id (size a - 1)) by (unwidth; lia).
    destruct (Z.eqb_spec (next a) (size a - 1)); [lia|].
    split; [done|]. split; [|split; [exact Hin|split; [lia|done]]].
    destruct Hw' as [Hs' Hb' Hn' _].
    split; [exact Hs'|exact Hb'|exact Hn'|]. intros off. simpl. unfold usable. simpl.
    rewrite elem_of_union, elem_of_singleton. intros [->|Ho]; [lia|by apply Hu].
Qed.

(** The scan reaches every usable offset. *)
Lemma ring_covers a off : wf a → usable a off → ∃ j, 0 ≤ j < size a - 2 ∧ ring a j = off.
Proof.
  intros [Hs _ Hn _] Ho. unfold usable, ring, slots in *.
  exists ((off - next a) mod (size a - 3)).
  pose proof (Z.mod_pos_bound (off - next a) (size a - 3) ltac:(lia)). split; [lia|].
  rewrite Z.add_mod_idemp_r by lia. replace (next a - 2 + (off - next a)) with (off - 2) by lia.
  rewrite Z.mod_small; lia.
Qed.

Lemma allocate_ok a a' text : wf a → IPAM_Allocate a = (a', Ok text) →
  wf a' ∧ same_range a a' ∧ ∃ off, text = address a off ∧ usable a off ∧ off ∉ used a
    ∧ used a' = {[off]} ∪ used a.
Proof.
  intros Hw. unfold IPAM_Allocate.
  pose proof (alloc_loop_spec (Z.to_nat (wrap_u32 (size a - 2))) a Hw) as Hl.
  destruct (alloc_loop a _) as [a1 [off|]]; [|done]. destruct Hl as (Hr & Hw' & Hf & Ho & Hu).
  intros [= <- <-]. split; [done|]. split; [done|]. exists off. destruct Hr as (-> & _ & _).
  split; [|done]. unfold address, usable in *. destruct Hw as [Hs Hb _ _].
  by rewrite wrap_u32_id by (unwidth; lia).
Qed.

Lemma allocate_err a a' e : wf a → IPAM_Allocate a = (a', Err e) →
  wf a' ∧ same_range a a' ∧ e = ErrExhausted ∧ used a' = used a
  ∧ ∀ off, usable a off → off ∈ used a.
Proof.
  intros Hw. unfold IPAM_Allocate.
  pose proof (alloc_loop_spec (Z.to_nat (wrap_u32 (size a - 2))) a Hw) as Hl.
  destruct (alloc_loop a _) as [a1 [off|]]; [done|]. destruct Hl as (Hr & Hw' & Hu & Hj).
  intros [= <- <-]. split; [done|]. split; [done|]. split; [done|]. split; [done|].
  intros off Ho. destruct (ring_covers a off Hw Ho) as (j & Hlt & <-). apply Hj.
  destruct Hw as [Hs _ _ _]. rewrite wrap_u32_id by (unwidth; lia). lia.
Qed.

(** Allocation hands out a free client address whenever there is one.  On
    a well-formed allocator it fails exactly when every usable offset is
    leased; otherwise it returns the address of an offset that was free, is
    neither the network, the server nor the broadcast address, and is now
    leased, and nothing else changes. *)
Theorem allocate_exact a : wf a →
  let '(a', res) := IPAM_Allocate a in
  wf a' ∧ same_range a a' ∧
  match res with
  | Ok text => ∃ off, text = address a off ∧ usable a off ∧ off ∉ used a
                 ∧ used a' = {[off]} ∪ used a
  | Err e => e = ErrExhausted ∧ used a' = used a ∧ ∀ off, usable a off → off ∈ used a
  end.
Proof.
  intros Hw. destruct (IPAM_Allocate a) as [a' [text|e]] eqn:E;
    [by apply allocate_ok | by apply allocate_err].
Qed.

Section text.
Context `{IPv6}.

Lemma release_wf a s : wf a → wf (IPAM_Release a s).
Proof.
  intros [Hs Hb Hn Hu]. unfold IPAM_Release. destruct (parse_To4 s); [|done].
  split; [exact Hs|exact Hb|exact Hn|]. intros o [Ho _]%elem_of_difference. by apply Hu.
Qed.

Lemma reserve_wf a s : wf a → wf (IPAM_Reserve a s).
Proof.
  intros Hw. destruct Hw as [Hs Hb Hn Hu] eqn:E. clear E. unfold IPAM_Reserve.
  destruct (parse_To4 s) as [ip|]; [|done].
  rewrite (wrap_u32_id (size a - 1)) by (unwidth; lia).
  destruct (_ || _) eqn:Ec; [done|]. zbool.
  split; [exact Hs|exact Hb|exact Hn|]. intros o [Ho|Ho]%elem_of_union; [|by apply Hu].
  apply elem_of_singleton in Ho as ->. unfold usable. simpl. lia.
Qed.

Lemma release_used a off : wf a → usable a off →
  used (IPAM_Release a (address a off)) = used a ∖ {[off]}.
Proof.
  intros [Hs Hb _ _] Ho. unfold usable in Ho. unfold IPAM_Release, address.
  rewrite parse_To4_String by lia. replace (base a + off - base a) with off by lia.
  by rewrite wrap_u32_id by (unwidth; lia).
Qed.

Lemma reserve_used a off : wf a → usable a off →
  used (IPAM_Reserve a (address a off)) = {[off]} ∪ used a.
Proof.
  intros [Hs Hb _ _] Ho. unfold usable in Ho. unfold IPAM_Reserve, address.
  rewrite parse_To4_String by lia. replace (base a + off - base a) with off by lia.
  rewrite !wrap_u32_id by (unwidth; lia).
  by rewrite (proj2 (Z.ltb_ge _ _)), (proj2 (Z.leb_gt _ _)) by lia.
Qed.

Lemma release_range a s : same_range a (IPAM_Release a s).
Proof. unfold IPAM_Release. by destruct (parse_To4 s). Qed.

(** A lease round-trips.  Releasing the text of an allocated address frees
    exactly that lease, and reserving it, as after a restart, leases exactly
    that offset again. *)
Theorem lease_roundtrip a off : wf a → usable a off →
  used (IPAM_Release a (address a off)) = used a ∖ {[off]}
  ∧ used (IPAM_Reserve a (address a off)) = {[off]} ∪ used a
  ∧ wf (IPAM_Release a (address a off)) ∧ wf (IPAM_Reserve a (address a off)).
Proof. auto 6 using release_used, reserve_used, release_wf, reserve_wf. Qed.
End text.

(** ** Concrete runs *)

Definition demo_ipam : IPAM := mkIPAM (100 * 2 ^ 24 + 64 * 2 ^ 16) 8 2 ∅ "100.64.0.1".

Example demo_new : NewIPAM "100.64.0.0/29" = Ok demo_ipam.
Proof. vm_compute. reflexivity. Qed.

Lemma demo_ipam_wf : wf demo_ipam.
Proof. by apply (NewIPAM_ok "100.64.0.0/29"). Defined.

Lemma allocate_exact_witness :
  (IPAM_Allocate demo_ipam).2 = Ok "100.64.0.2" ∧ wf (IPAM_Allocate demo_ipam).1.
Proof.
  pose proof (allocate_exact demo_ipam demo_ipam_wf) as Ha.
  split; [vm_compute; reflexivity|].
  destruct (IPAM_Allocate demo_ipam) as [a' res]. exact (proj1 Ha).
Defined.

Lemma lease_roundtrip_witness :
  used (IPAM_Release (H := no_ipv6) (IPAM_Allocate demo_ipam).1 "100.64.0.2") = ∅.
Proof.
  set (a := (IPAM_Allocate demo_ipam).1).
  assert (wf a) as Hw by apply allocate_exact_witness.
  assert (usable a 2) as Hu by (vm_compute; split; discriminate).
  change "100.64.0.2" with (address a 2).
  rewrite (proj1 (lease_roundtrip (H := no_ipv6) a 2 Hw Hu)). vm_compute. reflexivity.
Defined.
