(* ===== verification/Abuse.v ===== *)
(** * Abuse: rate limits, blocklist, complaints (internal/nodes/ratelimit.go, abuse.go)

    Token buckets per normalised peer address, the operator's blocklist and
    its file, the complaint log, and the guard that combines them.  The clock
    and the outcome of each file write are arguments. *)

From Stdlib Require Import ZArith Lia Ascii.
From S2P Require Import Prelude Float64 GoStrings Crypto NetIP.

(** ** Rate limits *)

Record RateLimitConfig := mkRateLimitConfig {
  AuthorizeBurst : Z;
  AuthorizeWindow : duration;
  MgmtBurst : Z;
  MgmtWindow : duration
}.

Definition DefaultRateLimitConfig : RateLimitConfig := mkRateLimitConfig 8 minute 60 minute.

Definition or_default (v d : Z) : Z := if v <=? 0 then d else v.

Definition RateLimitConfig_normalize (c : RateLimitConfig) : RateLimitConfig :=
  let d := DefaultRateLimitConfig in
  mkRateLimitConfig (or_default (AuthorizeBurst c) (AuthorizeBurst d))
    (or_default (AuthorizeWindow c) (AuthorizeWindow d))
    (or_default (MgmtBurst c) (MgmtBurst d)) (or_default (MgmtWindow c) (MgmtWindow d)).

Record bucket := mkBucket { b_tokens : float64; b_last : time }.

Record RateLimiter := mkRateLimiter {
  rl_cfg : RateLimitConfig;
  rl_auth : gmap string bucket;
  rl_mgmt : gmap string bucket
}.

Definition NewRateLimiter (cfg : RateLimitConfig) : RateLimiter :=
  mkRateLimiter (RateLimitConfig_normalize cfg) ∅ ∅.

Section limits.
Context `{IPv6}.

Definition normalizeIP (ip : string) : string :=
  if String.eqb ip "" then "unknown"
  else
    let ip := match net_SplitHostPort ip with Some (host, _) => host | None => ip end in
    match net_ParseIP ip with
    | Some parsed => IP_String parsed
    | None => "invalid:" +:+ ip
    end.

(** Refill for the elapsed time, capped at the burst. *)
Definition refill (b : bucket) (now : time) (burst : Z) (window : duration) : bucket :=
  let elapsed := Time_Sub now (b_last b) in
  if 0 <? elapsed then
    let t := f_add (b_tokens b) (f_div (f_of_Z elapsed) (f_of_Z window)) in
    mkBucket (if f_gt t (f_of_Z burst) then f_of_Z burst else t) now
  else b.

Definition allow (m : gmap string bucket) (ip : string) (burst : Z) (window : duration)
  (now : time) : gmap string bucket * bool :=
  let key := normalizeIP ip in
  let b := default (mkBucket (f_of_Z burst) now) (m !! key) in
  let b := refill b now burst window in
  if f_lt (b_tokens b) f1 then (<[key := b]> m, false)
  else (<[key := mkBucket (f_sub (b_tokens b) f1) (b_last b)]> m, true).

Definition RateLimiter_AllowAuthorize (l : RateLimiter) (ip : string) (now : time)
  : RateLimiter * bool :=
  let '(m, ok) := allow (rl_auth l) ip (AuthorizeBurst (rl_cfg l)) (AuthorizeWindow (rl_cfg l)) now in
  (mkRateLimiter (rl_cfg l) m (rl_mgmt l), ok).

Definition RateLimiter_AllowMgmt (l : RateLimiter) (ip : string) (now : time)
  : RateLimiter * bool :=
  let '(m, ok) := allow (rl_mgmt l) ip (MgmtBurst (rl_cfg l)) (MgmtWindow (rl_cfg l)) now in
  (mkRateLimiter (rl_cfg l) (rl_auth l) m, ok).
End limits.

(** ** Errors *)

Inductive error :=
| ErrBlocked | ErrRateLimited | ErrEmptyIP | ErrEmptyPubkey | ErrIO (e : string)
| ErrReporter | ErrNoGuard.

(** ** Blocklist *)

(** [bl_file] is the content of blocklist.json: its two lists. *)
Record Blocklist := mkBlocklist {
  bl_ips : gmap string bool;
  bl_pubkeys : gmap string bool;
  bl_file : option (list string * list string)
}.

Section blocklist.
Context `{IPv6}.

Definition add_flag (m : gmap string bool) (k : string) : gmap string bool := <[k := true]> m.

(** [NewBlocklist]: a missing file starts empty. *)
Definition NewBlocklist (file : option (list string * list string)) : Blocklist :=
  match file with
  | None => mkBlocklist ∅ ∅ None
  | Some (ips, keys) =>
    mkBlocklist (foldl (fun m ip => add_flag m (normalizeIP ip)) ∅ ips)
      (foldl add_flag ∅ keys) file
  end.

(** [saveLocked]: the sets in the visiting order of the two maps. *)
Definition Blocklist_save (b : Blocklist) (io : option string) : Blocklist * result error unit :=
  match io with
  | Some e => (b, Err (ErrIO e))
  | None => (mkBlocklist (bl_ips b) (bl_pubkeys b)
               (Some ((map_to_list (bl_ips b)).*1, (map_to_list (bl_pubkeys b)).*1)), Ok tt)
  end.

Definition Blocklist_BlockIP (b : Blocklist) (ip : string) (io : option string)
  : Blocklist * result error unit :=
  if String.eqb ip "" then (b, Err ErrEmptyIP)
  else Blocklist_save (mkBlocklist (add_flag (bl_ips b) (normalizeIP ip)) (bl_pubkeys b) (bl_file b)) io.

Definition Blocklist_UnblockIP (b : Blocklist) (ip : string) (io : option string)
  : Blocklist * result error unit :=
  Blocklist_save (mkBlocklist (delete (normalizeIP ip) (bl_ips b)) (bl_pubkeys b) (bl_file b)) io.

Definition Blocklist_BlockPubkey (b : Blocklist) (k : string) (io : option string)
  : Blocklist * result error unit :=
  if String.eqb k "" then (b, Err ErrEmptyPubkey)
  else Blocklist_save (mkBlocklist (bl_ips b) (add_flag (bl_pubkeys b) k) (bl_file b)) io.

Definition Blocklist_UnblockPubkey (b : Blocklist) (k : string) (io : option string)
  : Blocklist * result error unit :=
  Blocklist_save (mkBlocklist (bl_ips b) (delete k (bl_pubkeys b)) (bl_file b)) io.

Definition Blocklist_IsBlockedIP (b : Blocklist) (ip : string) : bool :=
  map_flag (bl_ips b) (normalizeIP ip).

(** The scan stops at the first match. *)
Definition Blocklist_IsBlockedPubkey (b : Blocklist) (k : string) : bool :=
  existsb (fun e => ConstantTimeCompare (fst e) k =? 1) (map_to_list (bl_pubkeys b)).
End blocklist.

(** ** Complaints *)

Record Complaint := mkComplaint {
  co_Reporter : string; co_At : time; co_Reason : string; co_Action : string;
  co_SubjectIP : string }.

(** The JSONL file, one complaint per line. *)
Record ComplaintLog := mkComplaintLog { cl_lines : list Complaint }.

Section complaints.
Context `{IPv6}.

Definition ComplaintLog_Report (l : ComplaintLog) (reporter reason action subjectIP : string)
  (now : time) (io : option string) : ComplaintLog * result error Complaint :=
  if String.eqb reporter "" || String.eqb reason "" then (l, Err ErrReporter)
  else
    let c := mkComplaint reporter now reason action
               (if String.eqb subjectIP "" then "" else normalizeIP subjectIP) in
    match io with
    | Some e => (l, Err (ErrIO e))
    | None => (mkComplaintLog (cl_lines l ++ [c]), Ok c)
    end.

Definition ComplaintLog_Count (l : ComplaintLog) (io : option string) : result error Z :=
  match io with
  | Some e => Err (ErrIO e)
  | None => Ok (Z.of_nat (length (cl_lines l)))
  end.

(** ** The guard *)

Record AbusePolicy := mkAbusePolicy { AutoDisable : bool; ComplaintThreshold : Z }.
Definition DefaultComplaintThreshold : Z := 5.
Definition AbusePolicy_normalize (p : AbusePolicy) : AbusePolicy :=
  mkAbusePolicy (AutoDisable p) (or_default (ComplaintThreshold p) DefaultComplaintThreshold).

(** [g_wired]: has a controller installed its trigger? *)
Record AbuseGuard := mkAbuseGuard {
  g_limiter : RateLimiter;
  g_blocklist : Blocklist;
  g_complaints : ComplaintLog;
  g_policy : AbusePolicy;
  g_wired : bool
}.

Definition NewAbuseGuard (policy : AbusePolicy) (limiter : option RateLimiter)
  (blocklist : option Blocklist) (complaints : option ComplaintLog)
  (default_file : option (list string * list string)) : AbuseGuard :=
  mkAbuseGuard (default (NewRateLimiter DefaultRateLimitConfig) limiter)
    (default (NewBlocklist default_file) blocklist)
    (default (mkComplaintLog []) complaints) (AbusePolicy_normalize policy) false.

Definition set_limiter (g : AbuseGuard) (l : RateLimiter) : AbuseGuard :=
  mkAbuseGuard l (g_blocklist g) (g_complaints g) (g_policy g) (g_wired g).
Definition set_complaints (g : AbuseGuard) (l : ComplaintLog) : AbuseGuard :=
  mkAbuseGuard (g_limiter g) (g_blocklist g) l (g_policy g) (g_wired g).
Definition set_wired (g : AbuseGuard) : AbuseGuard :=
  mkAbuseGuard (g_limiter g) (g_blocklist g) (g_complaints g) (g_policy g) true.

(** A [nil] guard enforces nothing. *)
Definition AbuseGuard_PreAuthorize (g : option AbuseGuard) (clientIP clientPubkey : string)
  (now : time) : option AbuseGuard * result error unit :=
  match g with
  | None => (None, Ok tt)
  | Some g =>
    if Blocklist_IsBlockedIP (g_blocklist g) clientIP
       || Blocklist_IsBlockedPubkey (g_blocklist g) clientPubkey
    then (Some g, Err ErrBlocked)
    else
      let '(l, ok) := RateLimiter_AllowAuthorize (g_limiter g) clientIP now in
      (Some (set_limiter g l), if ok then Ok tt else Err ErrRateLimited)
  end.

Definition AbuseGuard_AllowMgmt (g : option AbuseGuard) (clientIP : string) (now : time)
  : option AbuseGuard * bool :=
  match g with
  | None => (None, true)
  | Some g => let '(l, ok) := RateLimiter_AllowMgmt (g_limiter g) clientIP now in
              (Some (set_limiter g l), ok)
  end.

(** The last component is the argument of the trigger, when it fires. *)
Definition AbuseGuard_ReportComplaint (g : option AbuseGuard)
  (reporter reason action subjectIP : string) (now : time) (io countIo : option string)
  : option AbuseGuard * result error Complaint * option Z :=
  match g with
  | None => (None, Err ErrNoGuard, None)
  | Some g =>
    match ComplaintLog_Report (g_complaints g) reporter reason action subjectIP now io with
    | (l, Err e) => (Some (set_complaints g l), Err e, None)
    | (l, Ok c) =>
      let g := set_complaints g l in
      if negb (AutoDisable (g_policy g)) then (Some g, Ok c, None)
      else
        match ComplaintLog_Count (g_complaints g) countIo with
        | Err _ => (Some g, Ok c, None)
        | Ok n =>
          (Some g, Ok c,
           if (ComplaintThreshold (g_policy g) <=? n) && g_wired g then Some n else None)
        end
    end
  end.

Definition AbuseGuard_SetPolicy (g : option AbuseGuard) (p : AbusePolicy) : option AbuseGuard :=
  match g with
  | None => None
  | Some g => Some (mkAbuseGuard (g_limiter g) (g_blocklist g) (g_complaints g)
                      (AbusePolicy_normalize p) (g_wired g))
  end.
End complaints.

(** ** Lemmas *)

Section proofs.
Context `{IPv6}.

Lemma blocked_pubkey_lookup b k :
  Blocklist_IsBlockedPubkey b k = bool_decide (is_Some (bl_pubkeys b !! k)).
Proof.
  unfold Blocklist_IsBlockedPubkey. rewrite <- (scan_keys_lookup (bl_pubkeys b)).
  unfold scan_keys. rewrite scan_keys_acc. simpl.
  induction (map_to_list (bl_pubkeys b)) as [|e l IH]; simpl; [done|].
  by rewrite ConstantTimeCompare_eq, IH.
Qed.

Lemma flags_lookup l (m : gmap string bool) k :
  foldl add_flag m l !! k = if decide (k ∈ l) then Some true else m !! k.
Proof.
  revert m. induction l as [|x l IH]; intros m; cbn [foldl].
  { destruct (decide (k ∈ [])); [set_solver|done]. }
  rewrite IH. unfold add_flag. destruct (decide (x = k)) as [->|Hne].
  - rewrite lookup_insert_eq. destruct (decide (k ∈ l)), (decide (k ∈ k :: l)); set_solver.
  - rewrite lookup_insert_ne by done.
    destruct (decide (k ∈ l)), (decide (k ∈ x :: l)); set_solver.
Qed.

(** Text of an IPv4 address with a port normalises to the address. *)
Lemma normalizeIP_v4 a : 0 ≤ a < 2 ^ 32 → normalizeIP (ipv4_String a) = ipv4_String a.
Proof.
  intros Ha. unfold normalizeIP.
  destruct (String.eqb_spec (ipv4_String a) "") as [E|_].
  { pose proof (parse_ipv4_String a Ha) as Hp. by rewrite E in Hp. }
  assert (net_SplitHostPort (ipv4_String a) = None) as ->.
  { unfold net_SplitHostPort. pose proof (ipv4_String_colon a) as Hc.
    destruct (cut_last ":"%char (chars (ipv4_String a))) as [[before port]|] eqn:E; [|done].
    unfold cut_last in E. destruct (cut_first ":"%char (reverse (chars (ipv4_String a))))
      as [[x y]|] eqn:Ec; [|done].
    apply cut_first_spec in Ec as [Ec _]. exfalso.
    apply mem_char_false in Hc. apply Hc. rewrite <- elem_of_reverse, Ec. set_solver. }
  unfold net_ParseIP. rewrite ipv4_String_colon, parse_ipv4_String by done. done.
Qed.

(** What [SplitHostPort] reads in a colon-free host and port. *)
Lemma split_host_port h p : mem_char ":"%char h = false → mem_char "["%char h = false →
  mem_char "]"%char h = false → mem_char ":"%char p = false → mem_char "["%char p = false →
  mem_char "]"%char p = false →
  net_SplitHostPort (of_chars (h ++ ":"%char :: p)) = Some (of_chars h, of_chars p).
Proof.
  intros H1 H2 H3 H4 H5 H6. unfold net_SplitHostPort. rewrite chars_of_chars.
  assert (cut_last ":"%char (h ++ ":"%char :: p) = Some (h, p)) as ->.
  { unfold cut_last. rewrite reverse_app, reverse_cons. rewrite <- app_assoc. cbn [app].
    rewrite cut_first_app.
    - by rewrite !reverse_involutive.
    - rewrite elem_of_reverse. by apply mem_char_false. }
  assert (∀ c, mem_char c (h ++ ":"%char :: p)
    = mem_char c h || (chr c ":"%char || mem_char c p)) as Hm
    by (intros c; unfold mem_char; by rewrite existsb_app).
  rewrite !Hm, H1, H2, H3, H5, H6. cbn [orb].
  change (chr "["%char ":"%char) with false. change (chr "]"%char ":"%char) with false. cbn [orb].
  destruct h as [|c h]; [done|]. cbn [app].
  destruct (Ascii.eqb_spec c "["%char) as [->|Hc]; [done|].
  destruct c as [[] [] [] [] [] [] [] []]; done.
Qed.

Lemma normalizeIP_v4_port a port : 0 ≤ a < 2 ^ 32 →
  mem_char ":"%char (chars port) = false → mem_char "["%char (chars port) = false →
  mem_char "]"%char (chars port) = false →
  normalizeIP (ipv4_String a +:+ ":" +:+ port) = ipv4_String a.
Proof.
  intros Ha H1 H2 H3. unfold normalizeIP.
  assert (net_SplitHostPort (ipv4_String a +:+ ":" +:+ port) = Some (ipv4_String a, port)) as ->.
  { rewrite <- (of_chars_chars (ipv4_String a +:+ ":" +:+ port)), !chars_app.
    change (chars ":" ++ chars port) with (":"%char :: chars port).
    rewrite split_host_port by (done || by apply ipv4_String_no). by rewrite !of_chars_chars. }
  destruct (String.eqb_spec (ipv4_String a +:+ ":" +:+ port) "") as [E|_].
  { assert (length (chars (ipv4_String a +:+ ":" +:+ port)) = 0%nat) as El by by rewrite E.
    rewrite !chars_app, !length_app in El. simpl in El. lia. }
  unfold net_ParseIP. by rewrite ipv4_String_colon, parse_ipv4_String.
Qed.

(** A saved set is read back as it was. *)
Lemma saved_ips b b' : Blocklist_save b None = (b', Ok tt) → ∀ k,
  bl_ips (NewBlocklist (bl_file b')) !! k
  = if decide (k ∈ map normalizeIP ((map_to_list (bl_ips b)).*1)) then Some true else None.
Proof.
  intros [= <-] k. simpl. rewrite <- (lookup_empty (M := gmap string) k).
  rewrite <- flags_lookup. f_equal.
  generalize (∅ : gmap string bool). induction ((map_to_list (bl_ips b)).*1) as [|x l IH];
    intros m; simpl; [done|]. apply IH.
Qed.

(** A blocked address stays blocked, under any port and across a restart.
    Once the operator's block of an IPv4 address is saved, every text of
    that address, with or without a port, is refused by [PreAuthorize] with
    [ErrBlocked] and costs no rate token, both now and on a guard whose
    blocklist was loaded anew from the file. *)
Theorem block_ip_enforced b a b' lim comp pol w text key now g :
  0 ≤ a < 2 ^ 32 → Blocklist_BlockIP b (ipv4_String a) None = (b', Ok tt) →
  text = ipv4_String a ∨ (∃ port, text = ipv4_String a +:+ ":" +:+ port
     ∧ mem_char ":"%char (chars port) = false ∧ mem_char "["%char (chars port) = false
     ∧ mem_char "]"%char (chars port) = false) →
  g = mkAbuseGuard lim b' comp pol w ∨ g = mkAbuseGuard lim (NewBlocklist (bl_file b')) comp pol w →
  AbuseGuard_PreAuthorize (Some g) text key now = (Some g, Err ErrBlocked).
Proof.
  intros Ha Hb Ht Hg.
  assert (normalizeIP text = ipv4_String a) as Hn.
  { destruct Ht as [->|(port & -> & H1 & H2 & H3)];
      [by apply normalizeIP_v4|by apply normalizeIP_v4_port]. }
  unfold Blocklist_BlockIP in Hb. destruct (String.eqb _ ""); [done|].
  set (b1 := mkBlocklist (add_flag (bl_ips b) (normalizeIP (ipv4_String a))) (bl_pubkeys b) (bl_file b))
    in Hb.
  assert (bl_ips b1 !! ipv4_String a = Some true) as Hin.
  { simpl. rewrite normalizeIP_v4 by done. apply lookup_insert_eq. }
  assert (Blocklist_IsBlockedIP (g_blocklist g) text = true) as Hblk.
  { unfold Blocklist_IsBlockedIP, map_flag. rewrite Hn. destruct Hg as [->| ->]; simpl.
    - injection Hb as <-. change (bl_ips _) with (bl_ips b1). by rewrite Hin.
    - pose proof (saved_ips b1 b' Hb (ipv4_String a)) as Hs. simpl in Hs. rewrite Hs.
      rewrite decide_True; [done|]. apply list_elem_of_fmap. exists (ipv4_String a).
      split; [by rewrite normalizeIP_v4|]. apply list_elem_of_fmap. exists (ipv4_String a, true).
      split; [done|]. by apply elem_of_map_to_list. }
  unfold AbuseGuard_PreAuthorize. by rewrite Hblk.
Qed.

(** ** Counting down a bucket *)

(** A bucket of a whole number of tokens loses exactly one per request. *)
Lemma whole_tokens n : 1 ≤ n ≤ 1000 →
  f_sub (f_of_Z n) f1 = f_of_Z (n - 1) ∧ f_lt (f_of_Z n) f1 = false.
Proof.
  intros Hn.
  assert (forallb (fun k => let n := Z.of_nat k in
    bool_decide (f_sub (f_of_Z n) f1 = f_of_Z (n - 1)) && negb (f_lt (f_of_Z n) f1)) (seq 1 1000)
    = true) as Hall by (vm_compute; reflexivity).
  rewrite forallb_forall in Hall. specialize (Hall (Z.to_nat n)).
  rewrite Z2Nat.id in Hall by lia.
  assert (In (Z.to_nat n) (seq 1 1000)) as Hin by (apply in_seq; lia). specialize (Hall Hin).
  cbv zeta in Hall. apply andb_true_iff in Hall as [H1 H2].
  apply bool_decide_eq_true_1 in H1. apply negb_true_iff in H2. done.
Qed.

(** Requests at one instant, from texts of one peer or of several. *)
Definition flood_step (burst : Z) (window : duration) (now : time)
  (acc : gmap string bucket * list bool) (ip : string) : gmap string bucket * list bool :=
  let '(m, ok) := allow acc.1 ip burst window now in (m, acc.2 ++ [ok]).

Definition flood (m : gmap string bucket) (ips : list string) (burst : Z) (window : duration)
  (now : time) : gmap string bucket * list bool :=
  foldl (flood_step burst window now) (m, []) ips.

Lemma allow_other m ip burst window now k : k ≠ normalizeIP ip →
  (allow m ip burst window now).1 !! k = m !! k.
Proof. intros Hk. unfold allow. case_match; simpl; by rewrite lookup_insert_ne. Qed.

Lemma refill_same t now burst window : refill (mkBucket t now) now burst window = mkBucket t now.
Proof. unfold refill, Time_Sub. cbn [b_last]. by rewrite Z.sub_diag. Qed.

Lemma allow_whole m ip burst window now n : 0 ≤ n ≤ 1000 →
  default (mkBucket (f_of_Z burst) now) (m !! normalizeIP ip) = mkBucket (f_of_Z n) now →
  (allow m ip burst window now).2 = (0 <? n)
  ∧ (allow m ip burst window now).1 !! normalizeIP ip
    = Some (mkBucket (f_of_Z (Z.max 0 (n - 1))) now).
Proof.
  intros Hn Hb. unfold allow. rewrite Hb, refill_same. cbn [b_tokens b_last].
  destruct (Z.eq_dec n 0) as [->|Hne].
  - simpl. by rewrite lookup_insert_eq.
  - destruct (whole_tokens n ltac:(lia)) as [E1 E2]. rewrite E1, E2. cbn [fst snd].
    rewrite lookup_insert_eq, Z.max_r by lia. split; [symmetry; apply Z.ltb_lt; lia|done].
Qed.

Lemma flood_whole ips key burst window now : ∀ m n out, 0 ≤ n ≤ 1000 →
  Forall (fun ip => normalizeIP ip = key) ips →
  default (mkBucket (f_of_Z burst) now) (m !! key) = mkBucket (f_of_Z n) now →
  (foldl (flood_step burst window now) (m, out) ips).2
  = out ++ map (fun i => Z.of_nat i <? n) (seq 0 (length ips)).
Proof.
  induction ips as [|ip ips IH]; intros m n out Hn Hk Hb; [by rewrite app_nil_r|].
  apply Forall_cons in Hk as [<- Hk]. cbn [foldl length]. unfold flood_step at 2. cbn [fst snd].
  destruct (allow_whole m ip burst window now n Hn Hb) as [H2 H1].
  destruct (allow m ip burst window now) as [m' ok]. simpl in H1, H2. subst ok.
  rewrite (IH m' (Z.max 0 (n - 1))); [|lia|done|by rewrite H1].
  rewrite <- app_assoc. f_equal. simpl. f_equal. rewrite <- seq_shift, map_map.
  apply map_ext. intros i. destruct (Z.ltb_spec (Z.of_nat i) (Z.max 0 (n - 1))),
    (Z.ltb_spec (Z.of_nat (S i)) n); lia || done.
Qed.

(** A flood gets the burst and no more.  Among any number of requests at
    one instant whose addresses normalise to one peer seen for the first
    time, exactly the first [burst] are allowed, whatever ports they come
    from and whatever other peers do; the buckets of other peers are not
    touched. *)
Theorem flood_gets_burst m ips key burst window now :
  0 ≤ burst ≤ 1000 → m !! key = None → Forall (fun ip => normalizeIP ip = key) ips →
  (flood m ips burst window now).2 = map (fun i => Z.of_nat i <? burst) (seq 0 (length ips))
  ∧ ∀ k, k ≠ key → (flood m ips burst window now).1 !! k = m !! k.
Proof.
  intros Hb Hm Hk. split.
  - unfold flood. rewrite (flood_whole ips key burst window now m burst []); [done|done|done|].
    by rewrite Hm.
  - intros k Hne. unfold flood.
    assert (∀ out m, (foldl (flood_step burst window now) (m, out) ips).1 !! k = m !! k) as Ho;
      [|by apply Ho].
    clear Hm m. induction Hk as [|ip ips Hip Hk IH]; intros out m; cbn [foldl]; [done|].
    unfold flood_step at 2. cbn [fst snd].
    pose proof (allow_other m ip burst window now k ltac:(congruence)) as Ho.
    destruct (allow m ip burst window now) as [m' ok]. by rewrite IH.
Qed.
End proofs.

(** ** Concrete runs *)

Section demo.
#[local] Existing Instance no_ipv6.

Definition demo_limits : RateLimiter := NewRateLimiter DefaultRateLimitConfig.
Definition demo_addr : Z := of_octets [10; 0; 0; 7].
Definition demo_ips : list string := ["10.0.0.7:1"; "10.0.0.7"; "10.0.0.7:3"].

Lemma flood_gets_burst_witness :
  (flood ∅ demo_ips 2 minute 0).2 = [true; true; false].
Proof.
  rewrite (proj1 (flood_gets_burst ∅ demo_ips "10.0.0.7" 2 minute 0 ltac:(lia)
    (lookup_empty _) ltac:(repeat constructor))). reflexivity.
Defined.

Definition demo_blocked := Blocklist_BlockIP (NewBlocklist None) "10.0.0.7" None.
Definition demo_guard : AbuseGuard :=
  mkAbuseGuard demo_limits (NewBlocklist (bl_file demo_blocked.1)) (mkComplaintLog [])
    (mkAbusePolicy false 5) false.

Lemma block_ip_enforced_witness :
  (AbuseGuard_PreAuthorize (Some demo_guard) "10.0.0.7:443" "key" 0).2 = Err ErrBlocked.
Proof.
  rewrite (block_ip_enforced (NewBlocklist None) demo_addr demo_blocked.1 demo_limits
    (mkComplaintLog []) (mkAbusePolicy false 5) false "10.0.0.7:443" "key" 0 demo_guard).
  - reflexivity.
  - by vm_compute.
  - vm_compute. reflexivity.
  - right. exists "443". by vm_compute.
  - by right.
Defined.

(** A host name is stored under the prefix for unparsable input, and that
    text, which now holds a colon, is normalised once more when the file is
    read: the block is lost at the first restart. *)
Theorem hostname_block_lost_on_restart :
  let b := (Blocklist_BlockIP (NewBlocklist None) "evil.example" None).1 in
  Blocklist_IsBlockedIP b "evil.example" = true
  ∧ Blocklist_IsBlockedIP (NewBlocklist (bl_file b)) "evil.example" = false.
Proof. vm_compute. split; reflexivity. Qed.
End demo.
