(* ===== verification/NodeStore.v ===== *)
(** * NodeStore: the node's client table (internal/nodes/store.go)

    The SQLite statements as operations on a table keyed by token id and a
    table of counters.  Times are stored as whole Unix seconds.  A failing
    statement ([Some] error) changes nothing; the controller ignores it. *)

From Stdlib Require Import ZArith Lia.
From S2P Require Import Prelude GoStrings Crypto.

(** [expires_at] and [created_at] are Unix seconds, as the table holds them. *)
Record row := mkRow {
  r_NodeID : string; r_SessionID : string; r_ClientKey : string; r_AssignedIP : string;
  r_Endpoint : string; r_Scope : string; r_expires : Z; r_created : Z; r_revoked : bool;
  r_rx : Z; r_tx : Z
}.

Record ClientRow := mkClientRow {
  TokenID : string; NodeID : string; SessionID : string; ClientKey : string;
  AssignedIP : string; Endpoint : string; Scope : string; ExpiresAt : time;
  CreatedAt : time; Revoked : bool; RxBytes : Z; TxBytes : Z
}.

Record Store := mkStore { clients : gmap string row; counters : gmap string Z }.

Definition empty_store : Store := mkStore ∅ ∅.

(** INSERT ... ON CONFLICT: the creation time and the byte counters of an
    existing row are kept. *)
Definition upsert_row (old : option row) (r : ClientRow) : row :=
  match old with
  | None => mkRow (NodeID r) (SessionID r) (ClientKey r) (AssignedIP r) (Endpoint r) (Scope r)
              (Time_Unix (ExpiresAt r)) (Time_Unix (CreatedAt r)) (Revoked r) (RxBytes r) (TxBytes r)
  | Some o => mkRow (NodeID r) (SessionID r) (ClientKey r) (AssignedIP r) (Endpoint r) (Scope r)
                (Time_Unix (ExpiresAt r)) (r_created o) (Revoked r) (r_rx o) (r_tx o)
  end.

Definition Store_UpsertClient (s : Store) (r : ClientRow) (io : option string) : Store :=
  match io with
  | Some _ => s
  | None => mkStore (<[TokenID r := upsert_row (clients s !! TokenID r) r]> (clients s)) (counters s)
  end.

Definition revoke_row (r : row) : row :=
  mkRow (r_NodeID r) (r_SessionID r) (r_ClientKey r) (r_AssignedIP r) (r_Endpoint r) (r_Scope r)
    (r_expires r) (r_created r) true (r_rx r) (r_tx r).

Definition Store_RevokeClient (s : Store) (tokenID : string) (io : option string) : Store :=
  match io with
  | Some _ => s
  | None => mkStore (alter revoke_row tokenID (clients s)) (counters s)
  end.

Definition count_row (rx tx : Z) (r : row) : row :=
  mkRow (r_NodeID r) (r_SessionID r) (r_ClientKey r) (r_AssignedIP r) (r_Endpoint r) (r_Scope r)
    (r_expires r) (r_created r) (r_revoked r) (r_rx r + rx) (r_tx r + tx).

Definition Store_AddBytes (s : Store) (tokenID : string) (rx tx : Z) (io : option string) : Store :=
  match io with
  | Some _ => s
  | None => mkStore (alter (count_row rx tx) tokenID (clients s)) (counters s)
  end.

Definition counts_active (now : time) (r : row) : bool :=
  negb (r_revoked r) && ((r_expires r =? 0) || (Time_Unix now <? r_expires r)).

Definition Store_CountActive (s : Store) (now : time) : Z :=
  Z.of_nat (length (filter (fun e => counts_active now e.2 = true) (map_to_list (clients s)))).

Definition client_row (e : string * row) : ClientRow :=
  let '(id, r) := e in
  mkClientRow id (r_NodeID r) (r_SessionID r) (r_ClientKey r) (r_AssignedIP r) (r_Endpoint r)
    (r_Scope r) (time_Unix (r_expires r)) (time_Unix (r_created r)) (r_revoked r)
    (wrap_u64 (r_rx r)) (wrap_u64 (r_tx r)).

(** The rows that are not revoked, oldest first. *)
Definition Store_ListActive (s : Store) : list ClientRow :=
  map client_row (sort_stable (fun a b => r_created a.2 <? r_created b.2)
    (filter (fun e => r_revoked e.2 = false) (map_to_list (clients s)))).

Definition Store_Totals (s : Store) : Z * Z :=
  (wrap_u64 (sum_by (fun e => r_rx e.2) (map_to_list (clients s))),
   wrap_u64 (sum_by (fun e => r_tx e.2) (map_to_list (clients s)))).

Definition Store_BumpSessionsToday (s : Store) (day : string) (io : option string) : Store :=
  match io with
  | Some _ => s
  | None => mkStore (clients s)
              (<[("sessions:" +:+ day) := map_count (counters s) ("sessions:" +:+ day) + 1]> (counters s))
  end.

Definition Store_SessionsToday (s : Store) (day : string) : Z :=
  map_count (counters s) ("sessions:" +:+ day).

(** [CheckBearer]: the comparison of the management token. *)
Definition CheckBearer (expected presented : string) : bool :=
  if String.eqb expected "" || String.eqb presented "" then false
  else if negb (len expected =? len presented) then false
  else ConstantTimeCompare expected presented =? 1.

(** ** Lemmas *)

Lemma list_active_elem s r : r ∈ Store_ListActive s ↔
  ∃ x, clients s !! TokenID r = Some x ∧ r_revoked x = false ∧ r = client_row (TokenID r, x).
Proof.
  unfold Store_ListActive. split.
  - intros [[id x] [-> Hin]]%list_elem_of_fmap. rewrite sort_stable_perm in Hin.
    apply list_elem_of_filter in Hin as [Hr Hin]. apply elem_of_map_to_list in Hin.
    simpl. eauto.
  - intros (x & Hx & Hr & ->). apply list_elem_of_fmap. eexists. split; [done|].
    rewrite sort_stable_perm. apply list_elem_of_filter. split; [done|].
    by apply elem_of_map_to_list.
Qed.

Lemma CheckBearer_eq expected presented :
  CheckBearer expected presented = true ↔ expected = presented ∧ expected ≠ "".
Proof.
  unfold CheckBearer. rewrite ConstantTimeCompare_eq.
  destruct (String.eqb_spec expected ""), (String.eqb_spec presented ""); simpl; try naive_solver.
  destruct (Z.eqb_spec (len expected) (len presented)) as [|Hl]; simpl.
  - rewrite String.eqb_eq. naive_solver.
  - split; [done|]. intros [-> _]. done.
Qed.

(** The count takes a row without an expiry for an expired one: the zero time
    is stored as the seconds before the epoch, not as 0. *)
Theorem unlimited_row_not_counted :
  let r := mkClientRow "t" "n" "s" "k" "100.64.0.2" "" "exit" 0 0 false 0 0 in
  let s := Store_UpsertClient empty_store r None in
  Store_CountActive s (time_Unix 0) = 0 ∧ length (Store_ListActive s) = 1%nat.
Proof. vm_compute. split; reflexivity. Qed.
