(* ===== verification/NodeConfig.v ===== *)
(** * NodeConfig: the operator's configuration (internal/nodes/config.go)

    The fields the daemon acts on and their validation.  Reading and writing
    the TOML file is left to the library that does it. *)

From Stdlib Require Import ZArith Lia.
From S2P Require Import Prelude Float64 GoStrings NetIP.

Definition NodeTypeExit : string := "EXIT".
Definition NodeTypeRelay : string := "RELAY".

Record Config := mkConfig {
  cfg_NodeID : string;
  NodeType : string;
  Region : string;
  Country : string;
  City : string;
  MaxClients : Z;
  BandwidthDownMbps : Z;
  BandwidthUpMbps : Z;
  PricePerHourDero : float64;
  AcceptNew : bool;
  PublicEndpoint : string;
  DeroAddress : string;
  BondDero : float64;
  HeartbeatIntervalSec : Z;
  MgmtBind : string;
  AllowRemote : bool;
  WGInterface : string;
  WGListenPort : Z;
  WGAddress : string;
  WGPrivateKey : string;
  CGNAT : string;
  AbuseContact : string;
  Jurisdiction : string;
  AllowedPorts : list Z;
  DeniedPorts : list Z;
  DefaultAllow : bool;
  RateLimitKbps : Z;
  RateBurstKB : Z;
  MaxSessionMinutes : Z;
  EmergencyDisable : bool;
  DevAllowAny : bool
}.

Definition DefaultConfig : Config := {|
  cfg_NodeID := ""; NodeType := NodeTypeExit; Region := "local"; Country := "dev";
  City := "localhost"; MaxClients := 50; BandwidthDownMbps := 100; BandwidthUpMbps := 100;
  PricePerHourDero := f_const 1 100; AcceptNew := true; PublicEndpoint := ""; DeroAddress := "";
  BondDero := f0; HeartbeatIntervalSec := 60; MgmtBind := "127.0.0.1:18081"; AllowRemote := false;
  WGInterface := "veilnet0"; WGListenPort := 51820; WGAddress := "100.64.0.1"; WGPrivateKey := "";
  CGNAT := "100.64.0.0/10"; AbuseContact := ""; Jurisdiction := ""; AllowedPorts := [];
  DeniedPorts := [25]; DefaultAllow := true; RateLimitKbps := 0; RateBurstKB := 0;
  MaxSessionMinutes := 480; EmergencyDisable := false; DevAllowAny := false |}.

Definition set_disable (c : Config) (b : bool) : Config :=
  mkConfig (cfg_NodeID c) (NodeType c) (Region c) (Country c) (City c) (MaxClients c)
    (BandwidthDownMbps c) (BandwidthUpMbps c) (PricePerHourDero c) (AcceptNew c)
    (PublicEndpoint c) (DeroAddress c) (BondDero c) (HeartbeatIntervalSec c) (MgmtBind c)
    (AllowRemote c) (WGInterface c) (WGListenPort c) (WGAddress c) (WGPrivateKey c) (CGNAT c)
    (AbuseContact c) (Jurisdiction c) (AllowedPorts c) (DeniedPorts c) (DefaultAllow c)
    (RateLimitKbps c) (RateBurstKB c) (MaxSessionMinutes c) b (DevAllowAny c).

Definition set_bind (c : Config) (bind : string) : Config :=
  mkConfig (cfg_NodeID c) (NodeType c) (Region c) (Country c) (City c) (MaxClients c)
    (BandwidthDownMbps c) (BandwidthUpMbps c) (PricePerHourDero c) (AcceptNew c)
    (PublicEndpoint c) (DeroAddress c) (BondDero c) (HeartbeatIntervalSec c) bind
    (AllowRemote c) (WGInterface c) (WGListenPort c) (WGAddress c) (WGPrivateKey c) (CGNAT c)
    (AbuseContact c) (Jurisdiction c) (AllowedPorts c) (DeniedPorts c) (DefaultAllow c)
    (RateLimitKbps c) (RateBurstKB c) (MaxSessionMinutes c) (EmergencyDisable c) (DevAllowAny c).

Inductive error :=
| ErrNodeType | ErrMaxClients | ErrCGNAT | ErrWGAddress | ErrMgmtBindEmpty | ErrMgmtBind
| ErrNotLoopback | ErrMaxSession | ErrRates.

Section validate.
Context `{IPv6}.

Definition isLoopbackBind (addr : string) : bool :=
  match net_SplitHostPort addr with
  | None => false
  | Some (host, _) =>
    if String.eqb host "" || String.eqb host "localhost" then true
    else match net_ParseIP host with Some ip => IP_IsLoopback ip | None => false end
  end.

Definition Config_Validate (c : Config) : result error unit :=
  if negb (String.eqb (NodeType c) NodeTypeExit) && negb (String.eqb (NodeType c) NodeTypeRelay)
  then Err ErrNodeType
  else if (MaxClients c <=? 0) || (10000 <? MaxClients c) then Err ErrMaxClients
  else if negb (net_ParseCIDR_ok (CGNAT c)) then Err ErrCGNAT
  else match net_ParseIP (WGAddress c) with
  | None => Err ErrWGAddress
  | Some _ =>
    if String.eqb (MgmtBind c) "" then Err ErrMgmtBindEmpty
    else match net_SplitHostPort (MgmtBind c) with
    | None => Err ErrMgmtBind
    | Some _ =>
      if negb (AllowRemote c) && negb (isLoopbackBind (MgmtBind c)) then Err ErrNotLoopback
      else if MaxSessionMinutes c <? 0 then Err ErrMaxSession
      else if (RateLimitKbps c <? 0) || (RateBurstKB c <? 0) then Err ErrRates
      else Ok tt
    end
  end.

Lemma validate_clients c : Config_Validate c = Ok tt → 1 ≤ MaxClients c ≤ 10000.
Proof.
  unfold Config_Validate. case_match; [done|].
  destruct ((MaxClients c <=? 0) || (10000 <? MaxClients c)) eqn:E; [done|]. intros _. zbool. lia.
Qed.
End validate.

Section demo.
#[local] Existing Instance no_ipv6.

Example default_config_valid : Config_Validate DefaultConfig = Ok tt.
Proof. vm_compute. reflexivity. Qed.

(** The loopback check lets a bind address without a host pass, which listens
    on every interface, although remote access was not allowed. *)
Theorem empty_host_passes_as_loopback :
  Config_Validate (set_bind DefaultConfig ":18081") = Ok tt
  ∧ AllowRemote (set_bind DefaultConfig ":18081") = false.
Proof. vm_compute. split; reflexivity. Qed.
End demo.
