(* ===== verification/Controller.v ===== *)
(** * Controller: the exit or relay node (internal/nodes/controller.go)

    Sessions, address leases, WireGuard peers, the client table and the abuse
    guard behind [Authorize], [Revoke] and the sweep.  The WireGuard device is
    an interface with the laws the controller relies on; the in-memory manager
    is its instance.  Statements on the table may fail and their errors are
    ignored, as in the code; the validator's answer and the clock are
    arguments. *)

From Stdlib Require Import ZArith Lia.
From S2P Require Import Prelude Float64 GoStrings Crypto NetIP.
From S2P Require Session NodeStore Ipam Abuse.
From S2P Require Import NodeConfig.

(** ** The WireGuard device *)

(** [peer_of] is the address routed to the peer with a public key; [Some]
    answers are errors; [is_fake] tells the in-memory manager apart. *)
Class WGManager (G : Type) : Type := {
  AddPeer : G → string → string → string → Z → G * option string;
  RemovePeer : G → string → G * option string;
  peer_of : G → string → option string;
  is_fake : G → bool
}.

Class WGManagerLaws (G : Type) `{WGManager G} : Prop := {
  add_peer_ok : ∀ g k v ep ka, 0 ≤ v < 2 ^ 32 → (AddPeer g k (ipv4_String v) ep ka).2 = None →
    peer_of (AddPeer g k (ipv4_String v) ep ka).1 k = Some (ipv4_String v);
  add_peer_err : ∀ g k ip ep ka, (AddPeer g k ip ep ka).2 ≠ None →
    ∀ k', peer_of (AddPeer g k ip ep ka).1 k' = peer_of g k';
  remove_peer_ok : ∀ g k, (RemovePeer g k).2 = None → peer_of (RemovePeer g k).1 k = None;
  remove_peer_err : ∀ g k, (RemovePeer g k).2 ≠ None → ∀ k', peer_of (RemovePeer g k).1 k' = peer_of g k';
  add_peer_fake : ∀ g k ip ep ka, is_fake (AddPeer g k ip ep ka).1 = is_fake g;
  remove_peer_fake : ∀ g k, is_fake (RemovePeer g k).1 = is_fake g
}.

(** Key parsing is the WireGuard library's. *)
Class WGKeys : Type := { ParseWGKey : string → bool }.

Record FakeWGManager := mkFake { fake_peers : gmap string (string * string) }.

Definition FakeWG_AddPeer `{WGKeys} (f : FakeWGManager) (k ip ep : string) (keepalive : Z)
  : FakeWGManager * option string :=
  if negb (ParseWGKey k) && String.eqb k "" then (f, Some "nodes: empty peer pubkey")
  else (mkFake (<[k := (ip, ep)]> (fake_peers f)), None).

Definition FakeWG_RemovePeer (f : FakeWGManager) (k : string) : FakeWGManager * option string :=
  (mkFake (delete k (fake_peers f)), None).

#[export] Instance fake_wg `{WGKeys} : WGManager FakeWGManager := {|
  AddPeer := FakeWG_AddPeer;
  RemovePeer := FakeWG_RemovePeer;
  peer_of f k := fst <$> fake_peers f !! k;
  is_fake _ := true
|}.

#[export] Instance fake_wg_laws `{WGKeys} : WGManagerLaws FakeWGManager.
Proof.
  split; simpl; intros f k; unfold FakeWG_AddPeer; try intros ip ep ka;
    try (case_match; simpl; try done); intros; by rewrite ?lookup_insert_eq, ?lookup_delete_eq.
Qed.

(** ** The controller *)

Inductive error :=
| ErrCapacity | ErrNotAccepting | ErrDisabled | ErrRelayScope | ErrBadPubkey
| ErrInstallPeer (e : string) | ErrIPAM (e : Ipam.error) | ErrSession (e : Session.error)
| ErrAbuse (e : Abuse.error) | ErrConfig (e : NodeConfig.error).

Inductive event :=
| NODE_CONNECTED (clients : Z) | NODE_DISCONNECTED (clients : Z)
| EMERGENCY (disabled : bool) | ABUSE_AUTODISABLE (complaints : Z).

Section controller.
Context {G : Type} `{WGManager G} `{WGKeys, IPv6}.

Record Controller := mkController {
  cfg : Config;
  wg : G;
  ip : Ipam.IPAM;
  ses : Session.Manager;
  db : option NodeStore.Store;
  publish : bool;
  published : list event;
  abuse : option Abuse.AbuseGuard;
  startTime : time;
  deroEarnedMicro : Z;
  rxTotal : Z;
  txTotal : Z
}.

Definition set_cfg (c : Controller) (x : Config) : Controller :=
  mkController x (wg c) (ip c) (ses c) (db c) (publish c) (published c) (abuse c) (startTime c)
    (deroEarnedMicro c) (rxTotal c) (txTotal c).
Definition set_wg (c : Controller) (x : G) : Controller :=
  mkController (cfg c) x (ip c) (ses c) (db c) (publish c) (published c) (abuse c) (startTime c)
    (deroEarnedMicro c) (rxTotal c) (txTotal c).
Definition set_ip (c : Controller) (x : Ipam.IPAM) : Controller :=
  mkController (cfg c) (wg c) x (ses c) (db c) (publish c) (published c) (abuse c) (startTime c)
    (deroEarnedMicro c) (rxTotal c) (txTotal c).
Definition set_ses (c : Controller) (x : Session.Manager) : Controller :=
  mkController (cfg c) (wg c) (ip c) x (db c) (publish c) (published c) (abuse c) (startTime c)
    (deroEarnedMicro c) (rxTotal c) (txTotal c).
Definition set_db (c : Controller) (x : option NodeStore.Store) : Controller :=
  mkController (cfg c) (wg c) (ip c) (ses c) x (publish c) (published c) (abuse c) (startTime c)
    (deroEarnedMicro c) (rxTotal c) (txTotal c).
Definition set_abuse (c : Controller) (x : option Abuse.AbuseGuard) : Controller :=
  mkController (cfg c) (wg c) (ip c) (ses c) (db c) (publish c) (published c) x (startTime c)
    (deroEarnedMicro c) (rxTotal c) (txTotal c).
Definition emit (c : Controller) (e : event) : Controller :=
  mkController (cfg c) (wg c) (ip c) (ses c) (db c) (publish c)
    (if publish c then published c ++ [e] else published c) (abuse c) (startTime c)
    (deroEarnedMicro c) (rxTotal c) (txTotal c).
Definition count_totals (c : Controller) (rx tx : Z) : Controller :=
  mkController (cfg c) (wg c) (ip c) (ses c) (db c) (publish c) (published c) (abuse c)
    (startTime c) (deroEarnedMicro c) (wrap_u64 (rxTotal c + rx)) (wrap_u64 (txTotal c + tx)).
Definition Controller_AddDeroEarned (c : Controller) (micro : Z) : Controller :=
  mkController (cfg c) (wg c) (ip c) (ses c) (db c) (publish c) (published c) (abuse c)
    (startTime c) (wrap_i64 (deroEarnedMicro c + micro)) (rxTotal c) (txTotal c).
Definition Controller_DeroEarned (c : Controller) : float64 :=
  f_div (f_of_Z (deroEarnedMicro c)) (f_of_Z 1000000).

(** Restoring the leases of the table's active rows at startup. *)
Definition restore_lease (now : time) (a : Ipam.IPAM) (r : NodeStore.ClientRow) : Ipam.IPAM :=
  if negb (Time_IsZero (NodeStore.ExpiresAt r)) && negb (Time_Before now (NodeStore.ExpiresAt r))
  then a else Ipam.IPAM_Reserve a (NodeStore.AssignedIP r).

(** The device [g] is the caller's, or what the auto-selection settled on. *)
Definition NewController (c : Config) (g : G) (d : option NodeStore.Store) (pub : bool)
  (now : time) : result error Controller :=
  match Config_Validate c with
  | Err e => Err (ErrConfig e)
  | Ok _ =>
    match Ipam.NewIPAM (CGNAT c) with
    | Err e => Err (ErrIPAM e)
    | Ok a =>
      let maxDur := wrap_i64 (MaxSessionMinutes c * minute) in
      let a := match d with
               | None => a
               | Some d => foldl (restore_lease now) a (NodeStore.Store_ListActive d)
               end in
      Ok (mkController c g a (Session.NewManager maxDur) d pub [] None now 0 0 0)
    end
  end.

Definition active_count (c : Controller) (now : time) : Z :=
  Session.Manager_ActiveCount (ses c) now.

Definition Controller_Load (c : Controller) (now : time) : float64 :=
  if MaxClients (cfg c) <=? 0 then f0
  else f_div (f_of_Z (active_count c now)) (f_of_Z (MaxClients (cfg c))).

Definition Controller_SetEmergencyDisable (c : Controller) (disabled : bool) : Controller :=
  emit (set_cfg c (set_disable (cfg c) disabled)) (EMERGENCY disabled).

Definition Controller_Capacity (c : Controller) (now : time) : Z * Z * bool :=
  (active_count c now, MaxClients (cfg c), AcceptNew (cfg c) && negb (EmergencyDisable (cfg c))).

Definition Controller_abusePrecheck (c : Controller) (endpoint pubkey : string) (now : time)
  : Controller * result error unit :=
  match abuse c with
  | None => (c, Ok tt)
  | Some g =>
    let '(g, r) := Abuse.AbuseGuard_PreAuthorize (Some g) endpoint pubkey now in
    (set_abuse c g, result_map_err ErrAbuse r)
  end.

(** The row and the counter a new session writes; errors are dropped. *)
Definition record_client (c : Controller) (s : Session.Session) (pubkey assigned endpoint : string)
  (day : string) (io1 io2 : option string) : Controller :=
  match db c with
  | None => c
  | Some d =>
    let r := NodeStore.mkClientRow (Session.TokenID s) (Session.NodeID s) (Session.SessionID s)
               pubkey assigned endpoint (Session.Scope s) (Session.ExpiresAt s)
               (Session.CreatedAt s) false 0 0 in
    set_db c (Some (NodeStore.Store_BumpSessionsToday (NodeStore.Store_UpsertClient d r io1) day io2))
  end.

(** Undo of a session that could not be completed. *)
Definition roll_back (c : Controller) (tokenID assigned : string) (now : time) : Controller :=
  let c := set_ses c (Session.Manager_Revoke (ses c) tokenID now).1 in
  set_ip c (Ipam.IPAM_Release (ip c) assigned).

Definition Controller_Authorize (c : Controller) (validated : result Session.error Session.Token)
  (clientPubkey endpoint : string) (now : time) (day : string) (io1 io2 : option string)
  : Controller * result error Session.Session :=
  let '(disabled, acceptNew, max, nodeType) :=
    (EmergencyDisable (cfg c), AcceptNew (cfg c), MaxClients (cfg c), NodeType (cfg c)) in
  if disabled then (c, Err ErrDisabled)
  else
    match Controller_abusePrecheck c endpoint clientPubkey now with
    | (c, Err e) => (c, Err e)
    | (c, Ok _) =>
      if negb acceptNew then (c, Err ErrNotAccepting)
      else if max <=? active_count c now then (c, Err ErrCapacity)
      else if negb (ParseWGKey clientPubkey) && negb (is_fake (wg c)) then (c, Err ErrBadPubkey)
      else
        match Ipam.IPAM_Allocate (ip c) with
        | (a, Err e) => (set_ip c a, Err (ErrIPAM e))
        | (a, Ok assigned) =>
          let c := set_ip c a in
          match Session.Manager_Authorize (ses c) validated clientPubkey assigned endpoint now with
          | (m, Err e) =>
            let c := set_ses c m in
            (set_ip c (Ipam.IPAM_Release (ip c) assigned), Err (ErrSession e))
          | (m, Ok p) =>
            let c := set_ses c m in
            match Session.heap m !! p with
            | None => (c, Err (ErrSession Session.ErrUnknown))  (* never: p was just opened *)
            | Some s =>
              if String.eqb nodeType NodeTypeRelay && String.eqb (Session.Scope s) Session.ScopeExit
              then (roll_back c (Session.TokenID s) assigned now, Err ErrRelayScope)
              else
                match AddPeer (wg c) clientPubkey assigned endpoint 25 with
                | (g, Some e) =>
                  (roll_back (set_wg c g) (Session.TokenID s) assigned now, Err (ErrInstallPeer e))
                | (g, None) =>
                  let c := record_client (set_wg c g) s clientPubkey assigned endpoint day io1 io2 in
                  (emit c (NODE_CONNECTED (active_count c now)), Ok s)
                end
            end
          end
        end
    end.

(** Peer, lease and row of a session that ended. *)
Definition drop_client (c : Controller) (tokenID pubkey assigned : string) (now : time)
  (io : option string) : Controller :=
  let c := set_wg c (RemovePeer (wg c) pubkey).1 in
  let c := set_ip c (Ipam.IPAM_Release (ip c) assigned) in
  let c := set_db c ((fun d => NodeStore.Store_RevokeClient d tokenID io) <$> db c) in
  emit c (NODE_DISCONNECTED (active_count c now)).

Definition Controller_Revoke (c : Controller) (tokenID : string) (now : time) (io : option string)
  : Controller * result error unit :=
  match Session.Manager_Get (ses c) tokenID with
  | Err e => (c, Err (ErrSession e))
  | Ok p =>
    match Session.heap (ses c) !! p with
    | None => (c, Err (ErrSession Session.ErrUnknown))
    | Some s =>
      match Session.Manager_Revoke (ses c) tokenID now with
      | (m, Err e) => (set_ses c m, Err (ErrSession e))
      | (m, Ok _) =>
        (drop_client (set_ses c m) tokenID (Session.ClientPubkey s) (Session.AssignedIP s) now io,
         Ok tt)
      end
    end
  end.

Definition Controller_AddBytes (c : Controller) (tokenID : string) (rx tx : Z) (now : time)
  (io : option string) : Controller * result error unit :=
  match Session.Manager_AddBytes (ses c) tokenID rx tx now with
  | (m, Err e) => (set_ses c m, Err (ErrSession e))
  | (m, Ok _) =>
    let c := count_totals (set_ses c m) rx tx in
    (set_db c ((fun d => NodeStore.Store_AddBytes d tokenID rx tx io) <$> db c), Ok tt)
  end.

(** [Duration.Seconds]: whole seconds plus the rest over 1e9. *)
Definition Seconds (d : duration) : float64 :=
  f_add (f_of_Z (Z.quot d second)) (f_div (f_of_Z (Z.rem d second)) (f_of_Z 1000000000)).

Definition maxf (a b : float64) : float64 := if f_gt a b then a else b.

Definition Controller_CheckRate (c : Controller) (tokenID : string) (now : time) : bool :=
  let kbps := RateLimitKbps (cfg c) in
  let burst := RateBurstKB (cfg c) in
  if kbps <=? 0 then true
  else
    match Session.byToken (ses c) !! tokenID ≫= fun p => Session.heap (ses c) !! p with
    | None => false
    | Some s =>
      let snap := Session.Session_Snapshot s in
      let elapsed := Seconds (Time_Sub now (Session.snap_CreatedAt snap)) in
      let elapsed := if f_lt elapsed f1 then f1 else elapsed in
      let bytes := f_of_Z (wrap_u64 (Session.snap_RxBytes snap + Session.snap_TxBytes snap)) in
      let avgKbps := (bytes * f_of_Z 8 / f_of_Z 1000 / elapsed)%f64 in
      let allowed := (f_of_Z kbps + f_of_Z burst * f_of_Z 8 / maxf elapsed f1)%f64 in
      f_le avgKbps allowed
    end.

(** [OnExpire] for each evicted snapshot, in order. *)
Definition expire_client (now : time) (io : string → option string) (c : Controller)
  (s : Session.Snapshot) : Controller :=
  drop_client c (Session.snap_TokenID s) (Session.snap_ClientPubkey s) (Session.snap_AssignedIP s)
    now (io (Session.snap_TokenID s)).

Definition Controller_SweepOnce (c : Controller) (it : list (string * ptr)) (now : time)
  (io : string → option string) : Controller * Z :=
  let '(m, out) := Session.Manager_SweepOnce (ses c) it now in
  (foldl (expire_client now io) (set_ses c m) out, Z.of_nat (length out)).

Record Stats := mkStats {
  st_Clients : Z; st_MaxClients : Z; st_RxBytes : Z; st_TxBytes : Z; st_SessionsToday : Z;
  st_UptimeSec : Z; st_DeroEarned : float64; st_Load : float64; st_NodeType : string;
  st_Region : string }.

Definition Controller_Stats `{GoArch} (c : Controller) (now : time) (day : string) : Stats :=
  mkStats (active_count c now) (MaxClients (cfg c)) (rxTotal c) (txTotal c)
    (match db c with Some d => NodeStore.Store_SessionsToday d day | None => 0 end)
    (f_to_int64 (Seconds (Time_Sub now (startTime c))))
    (Controller_DeroEarned c) (Controller_Load c now)
    (NodeType (cfg c)) (Region (cfg c)).

Record Heartbeat := mkHeartbeat {
  hb_NodeID : string; hb_ProtocolVersion : Z; hb_Load : float64; hb_Clients : Z;
  hb_MaxClients : Z; hb_UptimeSec : Z; hb_Region : string; hb_NodeType : string }.

Definition Controller_BuildHeartbeat `{GoArch} (c : Controller) (now : time) : Heartbeat :=
  mkHeartbeat (cfg_NodeID (cfg c)) 1 (Controller_Load c now) (active_count c now)
    (MaxClients (cfg c)) (f_to_int64 (Seconds (Time_Sub now (startTime c)))) (Region (cfg c))
    (NodeType (cfg c)).

(** *** Abuse hooks *)

Definition Controller_SetAbuseGuard (c : Controller) (g : option Abuse.AbuseGuard) : Controller :=
  set_abuse c (Abuse.set_wired <$> g).

Definition Controller_AllowMgmtRequest (c : Controller) (peerIP : string) (now : time)
  : Controller * bool :=
  match abuse c with
  | None => (c, true)
  | Some g => let '(g, ok) := Abuse.AbuseGuard_AllowMgmt (Some g) peerIP now in (set_abuse c g, ok)
  end.

Definition Controller_ReportAbuse (c : Controller) (reporter reason action subjectIP : string)
  (now : time) (io countIo : option string) : Controller * result error Abuse.Complaint :=
  let '(g, r, fired) :=
    Abuse.AbuseGuard_ReportComplaint (abuse c) reporter reason action subjectIP now io countIo in
  let c := set_abuse c g in
  (match fired with
   | None => c
   | Some n => emit (set_cfg c (set_disable (cfg c) true)) (ABUSE_AUTODISABLE n)
   end, result_map_err ErrAbuse r).

(** ** Executions *)

Inductive step : Controller → Controller → Prop :=
| step_authorize c v pub ep now day io1 io2 :
    step c (Controller_Authorize c v pub ep now day io1 io2).1
| step_revoke c id now io : step c (Controller_Revoke c id now io).1
| step_bytes c id rx tx now io : step c (Controller_AddBytes c id rx tx now io).1
| step_sweep c it now io : it ≡ₚ map_to_list (Session.byToken (ses c)) →
    step c (Controller_SweepOnce c it now io).1
| step_disable c b : step c (Controller_SetEmergencyDisable c b)
| step_guard c g : step c (Controller_SetAbuseGuard c g)
| step_report c a b d e now io io' : step c (Controller_ReportAbuse c a b d e now io io').1
| step_mgmt c ip now : step c (Controller_AllowMgmtRequest c ip now).1
| step_earned c micro : step c (Controller_AddDeroEarned c micro).
End controller.
Arguments Controller G : clear implicits.

(** ** Lemmas *)

(** Addresses of distinct offsets differ. *)
Lemma address_inj `{IPv6} a o1 o2 : Ipam.wf a → Ipam.usable a o1 → Ipam.usable a o2 →
  Ipam.address a o1 = Ipam.address a o2 → o1 = o2.
Proof.
  intros [Hs Hb _ _] H1 H2 E. unfold Ipam.usable, Ipam.address in *.
  assert (parse_ipv4 (ipv4_String (Ipam.base a + o1)) = parse_ipv4 (ipv4_String (Ipam.base a + o2)))
    as Ep by by rewrite E.
  rewrite !parse_ipv4_String in Ep by lia. injection Ep. lia.
Qed.

Section proofs.
Context {G : Type} `{HG : WGManager G} `{!WGManagerLaws G} `{WGKeys, HV : IPv6}.
Implicit Types c : Controller G.

(** The session a token is bound to. *)
Definition session_of (m : Session.Manager) (id : string) : option Session.Session :=
  Session.byToken m !! id ≫= fun p => Session.heap m !! p.

(** A session's address is a lease. *)
Definition leased (a : Ipam.IPAM) (s : Session.Session) : Prop :=
  ∃ off, Session.AssignedIP s = Ipam.address a off ∧ Ipam.usable a off ∧ off ∈ Ipam.used a.

(** Sessions and leases agree: every session's address is leased, and no two
    sessions share one. *)
Record sound (m : Session.Manager) (a : Ipam.IPAM) : Prop := {
  snd_ses : Session.wf m;
  snd_ip : Ipam.wf a;
  snd_leased : ∀ id s, session_of m id = Some s → leased a s;
  snd_distinct : ∀ id id' s s', session_of m id = Some s → session_of m id' = Some s' →
    Session.AssignedIP s = Session.AssignedIP s' → id = id'
}.

Lemma session_authorize m v pub addr ep now m' p :
  Session.wf m → Session.Manager_Authorize m v pub addr ep now = (m', Ok p) →
  Session.wf m' ∧ ∃ s, Session.heap m' !! p = Some s ∧ Session.AssignedIP s = addr
    ∧ Session.live_at m (Session.TokenID s) now = false
    ∧ Session.Session_Expired s now = false
    ∧ ∀ id, session_of m' id = if decide (id = Session.TokenID s) then Some s else session_of m id.
Proof.
  intros Hw E. split.
  { pose proof (Session.wf_step m m' Hw) as Hs. apply Hs.
    replace m' with (Session.Manager_Authorize m v pub addr ep now).1 by (by rewrite E).
    constructor. }
  unfold Session.Manager_Authorize in E. destruct v as [tok|]; [|done].
  destruct (negb (Time_IsZero _) && _) eqn:Eexp; [done|].
  destruct (scan_keys _ _); [done|]. destruct (Session.live_at m _ now) eqn:El; [done|].
  injection E as <- <-. cbn [Session.heap]. eexists. split; [apply lookup_insert_eq|].
  split; [done|]. split; [done|]. split.
  { apply Session.expired_at; [done|]. cbn [Session.ExpiresAt Session.open_session].
    apply Session.session_expiry_live. apply andb_false_iff in Eexp as [Ez|Eb].
    - left. by apply negb_false_iff in Ez.
    - right. apply negb_false_iff in Eb. unfold Time_Before in Eb. by apply Z.ltb_lt. }
  intros id. unfold session_of. cbn [Session.byToken Session.heap Session.TokenID Session.open_session].
  rewrite lookup_insert. destruct (decide (Session.tok_ID tok = id)) as [<-|Hne].
  - rewrite decide_True by done. cbn. apply lookup_insert_eq.
  - rewrite decide_False by done. destruct (Session.byToken m !! id) as [q|] eqn:Eq; [|done]. cbn.
    destruct (Session.wf_live m Hw _ _ Eq) as (s & Hs & _).
    rewrite lookup_insert_ne; [done|]. intros <-.
    assert (is_Some (Session.heap m !! Session.next m)) as Hf by eauto.
    apply (Session.wf_fresh m Hw) in Hf. lia.
Qed.

Lemma session_authorize_err m v pub addr ep now m' e :
  Session.Manager_Authorize m v pub addr ep now = (m', Err e) → m' = m.
Proof. unfold Session.Manager_Authorize. intros E. repeat (case_match; simplify_eq; try done). Qed.

Lemma session_revoke m id now : Session.wf m →
  Session.wf (Session.Manager_Revoke m id now).1
  ∧ ∀ id', session_of (Session.Manager_Revoke m id now).1 id'
      = if decide (id' = id) then None else session_of m id'.
Proof.
  intros Hw. split; [apply (Session.wf_step m); [done|constructor]|].
  intros id'. unfold Session.Manager_Revoke, session_of.
  destruct (Session.byToken m !! id) as [p|] eqn:Ep; cbn.
  2: { destruct (decide (id' = id)) as [->|]; [by rewrite Ep|done]. }
  destruct (Session.wf_live m Hw _ _ Ep) as (s & Hs & Ht & _). rewrite Hs. cbn.
  rewrite lookup_delete. destruct (decide (id = id')) as [<-|Hne];
    [by rewrite decide_True|rewrite decide_False by done].
  destruct (Session.byToken m !! id') as [q|] eqn:Eq; [|done]. cbn.
  rewrite lookup_insert_ne; [done|]. intros <-.
  destruct (Session.wf_live m Hw _ _ Eq) as (s' & Hs' & Ht' & _). congruence.
Qed.

Lemma session_sweep m it now : Session.wf m → it ≡ₚ map_to_list (Session.byToken m) →
  let '(m', out) := Session.Manager_SweepOnce m it now in
  Session.wf m'
  ∧ (∀ id, session_of m' id = match session_of m id with
       | Some s => if Session.Session_Expired s now then None else Some s | None => None end)
  ∧ NoDup (map Session.snap_TokenID out)
  ∧ ∀ x, x ∈ out → ∃ s, session_of m (Session.snap_TokenID x) = Some s
      ∧ x = Session.Session_Snapshot s ∧ Session.Session_Expired s now = true.
Proof.
  intros Hw Hit.
  assert (Session.wf (Session.Manager_SweepOnce m it now).1) as Hw'
    by (apply (Session.wf_step m); [done|by constructor]).
  destruct (Session.sweep_swept m it now Hw Hit) as (m0 & Hs & E). rewrite E in *.
  cbn [fst] in Hw'. split; [exact Hw'|].
  set (es := Session.entries m it) in *.
  assert (∀ id p s, (id, (p, s)) ∈ Session.due now es ↔
    Session.byToken m !! id = Some p ∧ Session.heap m !! p = Some s
    ∧ Session.Session_Expired s now = true) as Hdue.
  { intros id p s. rewrite Session.due_elem. unfold es.
    rewrite (Session.entries_elem m it id p s Hit). naive_solver. }
  split; [|split].
  - intros id. unfold session_of. cbn [Session.byToken Session.heap].
    rewrite (Session.swp_live _ _ _ _ Hs), (Session.swp_heap _ _ _ _ Hs).
    destruct (Session.byToken m !! id) as [p|] eqn:Ep; cbn.
    2: { by case_bool_decide. }
    destruct (Session.wf_live m Hw _ _ Ep) as (s & Hps & _). rewrite Hps.
    case_bool_decide as Hin.
    + apply list_elem_of_fmap in Hin as [[id' [p' s']] [-> Hin]]. apply Hdue in Hin as (H1 & H2 & H3).
      simpl in *. rewrite H1 in Ep. injection Ep as ->. rewrite Hps in H2. injection H2 as ->.
      by rewrite H3.
    + cbn. rewrite Hps. destruct (Session.Session_Expired s now) eqn:Ex; [|done]. destruct Hin.
      apply list_elem_of_fmap. exists (id, (p, s)). split; [done|]. by apply Hdue.
  - assert (map Session.snap_TokenID (map (λ e : string * (ptr * Session.Session),
      Session.Session_Snapshot e.2.2) (Session.due now es)) = (Session.due now es).*1) as ->.
    { rewrite map_map. apply map_ext_in. intros [id [p s]] Hin%list_elem_of_In.
      apply Hdue in Hin as (H1 & H2 & _). simpl.
      destruct (Session.wf_live m Hw _ _ H1) as (s' & Hs' & Ht & _). congruence. }
    eapply sublist_NoDup; [|apply Session.due_keys]. by apply Session.entries_nodup.
  - intros x [[id [p s]] [-> Hin]]%list_elem_of_fmap. apply Hdue in Hin as (H1 & H2 & H3).
    exists s. simpl. destruct (Session.wf_live m Hw _ _ H1) as (s' & Hs' & Ht & _).
    assert (s' = s) as -> by congruence. unfold session_of. rewrite Ht, H1. cbn. done.
Qed.

(** *** Soundness under each operation *)

Lemma sound_shrink m m' a : sound m a → Session.wf m' →
  (∀ id s, session_of m' id = Some s → session_of m id = Some s) → sound m' a.
Proof.
  intros [Hs Hi Hl Hd] Hw Hsub. split; [done|done| |].
  - intros id s Hid. by eapply Hl, Hsub.
  - intros id id' s s' H1 H2. by eapply Hd; apply Hsub.
Qed.

Lemma leased_range a a' s : Ipam.same_range a a' → Ipam.used a ⊆ Ipam.used a' →
  leased a s → leased a' s.
Proof.
  intros (Hb & Hs & _) Hsub (off & E & Hu & Hin). exists off.
  unfold Ipam.address, Ipam.usable in *. rewrite Hb, Hs. auto.
Qed.

Lemma leased_release a s s' : Ipam.wf a → leased a s → leased a s' →
  Session.AssignedIP s' ≠ Session.AssignedIP s →
  leased (Ipam.IPAM_Release a (Session.AssignedIP s)) s'.
Proof.
  intros Hw (off & E & Hu & _) (off' & E' & Hu' & Hin') Hne. exists off'.
  destruct (Ipam.release_range a (Session.AssignedIP s)) as (Hb & Hs & _).
  unfold Ipam.address, Ipam.usable in *. rewrite Hb, Hs. split; [done|]. split; [done|].
  rewrite E, (Ipam.release_used a off Hw Hu). apply elem_of_difference. split; [done|].
  intros ->%elem_of_singleton. congruence.
Qed.

Lemma sound_release m a s : sound m a → leased a s →
  (∀ id s', session_of m id = Some s' → Session.AssignedIP s' ≠ Session.AssignedIP s) →
  sound m (Ipam.IPAM_Release a (Session.AssignedIP s)).
Proof.
  intros [Hs Hi Hl Hd] Hle Hfree. split; [done|by apply Ipam.release_wf| |done].
  intros id s' Hid. apply leased_release; eauto.
Qed.

Lemma sound_allocate m a a' text : sound m a → Ipam.IPAM_Allocate a = (a', Ok text) →
  sound m a' ∧ (∀ s, Session.AssignedIP s = text → leased a' s)
  ∧ ∀ id s, session_of m id = Some s → Session.AssignedIP s ≠ text.
Proof.
  intros [Hs Hi Hl Hd] E. destruct (Ipam.allocate_ok a a' text Hi E)
    as (Hi' & Hr & off & -> & Hu & Hf & Hus).
  assert (Ipam.used a ⊆ Ipam.used a') as Hsub by (rewrite Hus; set_solver).
  split; [|split].
  - split; [done|done| |done]. intros id s Hid. eapply leased_range; eauto.
  - intros s Hip. exists off. destruct Hr as (Hb & Hsz & _).
    unfold Ipam.address, Ipam.usable in *. rewrite Hb, Hsz, Hus. split; [done|]. set_solver.
  - intros id s Hid Hip. destruct (Hl id s Hid) as (off' & E' & Hu' & Hin').
    assert (off' = off) as -> by (eapply (address_inj a); eauto; congruence). done.
Qed.

Lemma sound_open m a v pub text ep now m' p : sound m a →
  (∀ s, Session.AssignedIP s = text → leased a s) →
  (∀ id s, session_of m id = Some s → Session.AssignedIP s ≠ text) →
  Session.Manager_Authorize m v pub text ep now = (m', Ok p) → sound m' a.
Proof.
  intros [Hs Hi Hl Hd] Hle Hfree E.
  destruct (session_authorize m v pub text ep now m' p Hs E) as (Hw & s & _ & Hip & _ & _ & Hso).
  split; [done|done| |].
  - intros id s'. rewrite Hso. case_decide; [|by apply Hl]. intros [= <-]. by apply Hle.
  - intros id id' s1 s2. rewrite !Hso. case_decide as H1; case_decide as H2; [congruence|..|by apply Hd].
    + intros [= <-] H3 E'. exfalso. apply (Hfree _ _ H3). congruence.
    + intros H3 [= <-] E'. exfalso. apply (Hfree _ _ H3). congruence.
Qed.

Definition csound c : Prop := sound (ses c) (ip c).

Lemma sound_roll_back c id s now : csound c → session_of (ses c) id = Some s →
  csound (roll_back c id (Session.AssignedIP s) now).
Proof.
  intros Hc Hid. unfold csound, roll_back. cbn [ses ip set_ip set_ses].
  pose proof Hc as [Hs Hi Hl Hd]. destruct (session_revoke (ses c) id now Hs) as [Hw Hso].
  apply sound_release; [|by eapply Hl|].
  - apply (sound_shrink (ses c)); [done|done|]. intros id' s'. rewrite Hso. by case_decide.
  - intros id' s'. rewrite Hso. case_decide as Hne; [done|]. intros H1 E. apply Hne. by eapply Hd.
Qed.

Lemma drop_client_sound c id pub s now io : csound c → leased (ip c) s →
  (∀ id s', session_of (ses c) id = Some s' → Session.AssignedIP s' ≠ Session.AssignedIP s) →
  csound (drop_client c id pub (Session.AssignedIP s) now io).
Proof. intros Hc Hle Hfree. by apply sound_release. Qed.

Lemma precheck_frame c ep pub now :
  ses (Controller_abusePrecheck c ep pub now).1 = ses c
  ∧ ip (Controller_abusePrecheck c ep pub now).1 = ip c
  ∧ cfg (Controller_abusePrecheck c ep pub now).1 = cfg c.
Proof.
  unfold Controller_abusePrecheck. destruct (abuse c); [|done].
  by destruct (Abuse.AbuseGuard_PreAuthorize _ _ _ _).
Qed.

Lemma record_client_frame c s pub a ep day io1 io2 :
  ses (record_client c s pub a ep day io1 io2) = ses c
  ∧ ip (record_client c s pub a ep day io1 io2) = ip c.
Proof. unfold record_client. by destruct (db c). Qed.

Lemma authorize_sound c v pub ep now day io1 io2 : csound c →
  csound (Controller_Authorize c v pub ep now day io1 io2).1.
Proof.
  intros Hc. unfold Controller_Authorize. destruct (EmergencyDisable (cfg c)); [done|].
  destruct (precheck_frame c ep pub now) as (Es & Ei & _).
  destruct (Controller_abusePrecheck c ep pub now) as [c1 [[]|e]]; simpl in Es, Ei;
    assert (csound c1) as Hc1 by (unfold csound; by rewrite Es, Ei); [|done].
  case_match; [done|]. case_match; [done|]. case_match; [done|]. clear Es Ei Hc.
  destruct (Ipam.IPAM_Allocate (ip c1)) as [a [text|e]] eqn:Ea.
  2: { destruct Hc1 as [Hs Hi Hl Hd]. destruct (Ipam.allocate_err _ _ _ Hi Ea) as (Hw & Hr & _ & Hu & _).
       split; [done|done| |done]. intros id s Hid. apply (leased_range (ip c1)); [done|by rewrite <- Hu|eauto]. }
  destruct (sound_allocate _ _ _ _ Hc1 Ea) as (Hsa & Hle & Hfree).
  cbn [ses set_ip]. destruct (Session.Manager_Authorize (ses c1) v pub text ep now) as [m [p|e]] eqn:Em.
  2: { apply session_authorize_err in Em as ->. unfold csound. cbn [ses ip set_ip set_ses fst].
       set (s0 := Session.open_session (Session.mkToken "" "" "" 0 "" "") "" text "" 0 0).
       change text with (Session.AssignedIP s0). apply sound_release; [done|by apply Hle|done]. }
  pose proof (sound_open _ _ _ _ _ _ _ _ _ Hsa Hle Hfree Em) as Hm.
  destruct (session_authorize (ses c1) v pub text ep now m p (snd_ses _ _ Hc1) Em)
    as (_ & s & Hp & Hip & _ & _ & Hso).
  rewrite Hp. assert (session_of m (Session.TokenID s) = Some s) as Hid
    by (by rewrite Hso, decide_True).
  assert (∀ g, csound (roll_back (set_wg (set_ses (set_ip c1 a) m) g) (Session.TokenID s) text now)) as Hrb.
  { intros g. rewrite <- Hip. by apply sound_roll_back. }
  case_match; [exact (Hrb (wg c1))|].
  destruct (AddPeer _ _ _ _ _) as [g [e|]]; [exact (Hrb g)|]. cbn [fst].
  unfold csound. destruct (record_client_frame (set_wg (set_ses (set_ip c1 a) m) g) s pub text ep day io1 io2)
    as [E1 E2]. cbn [emit ses ip]. by rewrite E1, E2.
Qed.

Lemma revoke_sound c id now io : csound c → csound (Controller_Revoke c id now io).1.
Proof.
  intros Hc. unfold Controller_Revoke, Session.Manager_Get.
  destruct (Session.byToken (ses c) !! id) as [p|] eqn:Ep; [|done].
  destruct (Session.heap (ses c) !! p) as [s|] eqn:Es; [|done].
  pose proof Hc as [Hs Hi Hl Hd]. destruct (session_revoke (ses c) id now Hs) as [Hw Hso].
  assert (session_of (ses c) id = Some s) as Hid by (unfold session_of; rewrite Ep; exact Es).
  assert (csound (set_ses c (Session.Manager_Revoke (ses c) id now).1)) as Hc'.
  { apply (sound_shrink (ses c)); [done|done|]. intros id' s'. rewrite Hso. by case_decide. }
  destruct (Session.Manager_Revoke (ses c) id now) as [m [[]|e]]; [|exact Hc'].
  apply drop_client_sound; [exact Hc'|by eapply Hl|].
  intros id' s' Hid'. cbn [ses set_ses fst] in *. rewrite Hso in Hid'.
  case_decide as Hne; [done|]. intros E. apply Hne. by eapply Hd.
Qed.

Lemma bytes_sound c id rx tx now io : csound c → csound (Controller_AddBytes c id rx tx now io).1.
Proof.
  intros [Hs Hi Hl Hd]. unfold Controller_AddBytes, Session.Manager_AddBytes, Session.Manager_Get.
  destruct (Session.byToken (ses c) !! id) as [p|] eqn:Ep; [|by split].
  assert (Session.wf (Session.add_bytes_at (ses c) p rx tx now)) as Hw.
  { apply (Session.wf_step (ses c)); [done|]. constructor.
    destruct (Session.wf_live (ses c) Hs _ _ Ep) as (s & Hps & _). eauto. }
  assert (∀ id s', session_of (Session.add_bytes_at (ses c) p rx tx now) id = Some s' →
    ∃ s, session_of (ses c) id = Some s ∧ Session.AssignedIP s' = Session.AssignedIP s) as Hso.
  { intros id' s'. unfold session_of. cbn [Session.byToken Session.heap Session.add_bytes_at].
    destruct (Session.byToken (ses c) !! id') as [q|]; [|done]. cbn. rewrite lookup_alter.
    case_decide as Hq; [subst q|eauto]. destruct (Session.heap (ses c) !! p) as [s|]; cbn; [|done].
    intros [= <-]. eauto. }
  split; cbn [fst ses ip set_db set_ses count_totals]; [done|done| |].
  - intros id' s' (s & H1 & H2)%Hso. destruct (Hl _ _ H1) as (off & E & Ho). exists off.
    split; [congruence|done].
  - intros i1 i2 s1 s2 (x1 & H1 & E1)%Hso (x2 & H2 & E2)%Hso E. eapply Hd; eauto. congruence.
Qed.

Lemma expire_all_sound now io out : ∀ c, csound c →
  Forall (fun x => ∃ s, x = Session.Session_Snapshot s ∧ leased (ip c) s
    ∧ ∀ id s', session_of (ses c) id = Some s' → Session.AssignedIP s' ≠ Session.AssignedIP s) out →
  NoDup (map Session.snap_AssignedIP out) → csound (foldl (expire_client now io) c out).
Proof.
  induction out as [|x out IH]; intros c Hc Hf Hnd; cbn [foldl]; [done|].
  apply Forall_cons in Hf as [(s & -> & Hle & Hfree) Hf].
  cbn [map] in Hnd. apply NoDup_cons in Hnd as [Hni Hnd].
  apply IH; [by apply (drop_client_sound c)| |done].
  rewrite Forall_forall in Hf |- *. intros y Hy. destruct (Hf y Hy) as (s' & -> & Hle' & Hfree').
  exists s'. split; [done|]. split; [|done]. cbn.
  apply leased_release; [apply Hc|done|done|]. intros E. apply Hni.
  apply list_elem_of_fmap. exists (Session.Session_Snapshot s'). split; [symmetry; exact E|exact Hy].
Qed.

Lemma sweep_sound c it now io : csound c → it ≡ₚ map_to_list (Session.byToken (ses c)) →
  csound (Controller_SweepOnce c it now io).1.
Proof.
  intros Hc Hit. pose proof Hc as [Hs Hi Hl Hd]. unfold Controller_SweepOnce.
  pose proof (session_sweep (ses c) it now Hs Hit) as Hsw.
  destruct (Session.Manager_SweepOnce (ses c) it now) as [m out].
  destruct Hsw as (Hw & Hso & Hnd & Hout). cbn [fst].
  assert (∀ id s, session_of m id = Some s → session_of (ses c) id = Some s
    ∧ Session.Session_Expired s now = false) as Hsub.
  { intros id s. rewrite Hso. destruct (session_of (ses c) id) as [s'|]; [|done].
    destruct (Session.Session_Expired s' now) eqn:E; [done|]. by intros [= <-]. }
  apply expire_all_sound.
  - apply (sound_shrink (ses c)); [done|done|]. intros id s Hid. by apply Hsub.
  - apply Forall_forall. intros x (s & H1 & -> & Hx)%Hout. exists s. split; [done|].
    split; [by eapply Hl|]. intros id s' [H2 H3]%Hsub E.
    assert (id = Session.snap_TokenID (Session.Session_Snapshot s)) as -> by (exact (Hd _ _ _ _ H2 H1 E)).
    rewrite H1 in H2. congruence.
  - clear -Hnd Hout Hd. induction out as [|x out IH]; cbn [map]; [constructor|].
    cbn [map] in Hnd. apply NoDup_cons in Hnd as [Hni Hnd]. apply NoDup_cons. split.
    + intros [y [E Hy]]%list_elem_of_fmap. apply Hni. apply list_elem_of_fmap. exists y.
      split; [|done]. destruct (Hout x) as (s & H1 & -> & _); [set_solver|].
      destruct (Hout y) as (s' & H2 & -> & _); [set_solver|]. by eapply Hd.
    + apply IH; [done|]. intros y Hy. apply Hout. set_solver.
Qed.

Lemma step_csound c c' : step c c' → csound c → csound c'.
Proof.
  intros Hst Hc. destruct Hst as [c v pub ep now day io1 io2|c id now io|c id rx tx now io
    |c it now io Hit|c b|c g|c a b d e now io io'|c addr now|c micro].
  - by apply authorize_sound.
  - by apply revoke_sound.
  - by apply bytes_sound.
  - by apply sweep_sound.
  - done.
  - done.
  - unfold Controller_ReportAbuse. destruct (Abuse.AbuseGuard_ReportComplaint _ _ _ _ _ _ _ _)
      as [[g r] [n|]]; exact Hc.
  - unfold Controller_AllowMgmtRequest. destruct (abuse c); [|exact Hc].
    by destruct (Abuse.AbuseGuard_AllowMgmt _ _ _).
  - done.
Qed.

Lemma restore_wf now rows a : Ipam.wf a → Ipam.wf (foldl (restore_lease now) a rows).
Proof.
  revert a. induction rows as [|r rows IH]; intros a Ha; cbn [foldl]; [done|].
  apply IH. unfold restore_lease. case_match; [done|]. by apply Ipam.reserve_wf.
Qed.

Lemma NewController_inv cf g d pub now c : NewController cf g d pub now = Ok c →
  ∃ a, Ipam.NewIPAM (CGNAT cf) = Ok a ∧ cfg c = cf ∧ ses c = Session.NewManager (wrap_i64 (MaxSessionMinutes cf * minute))
    ∧ ip c = match d with None => a
             | Some d => foldl (restore_lease now) a (NodeStore.Store_ListActive d) end.
Proof.
  unfold NewController. destruct (Config_Validate cf); [|done].
  destruct (Ipam.NewIPAM (CGNAT cf)) as [x|]; [|done]. intros [= <-]. eauto.
Qed.

Lemma new_sound cf g d pub now c : NewController cf g d pub now = Ok c → csound c.
Proof.
  intros (a & Ha & _ & Es & Ei)%NewController_inv. destruct (Ipam.NewIPAM_ok _ _ Ha) as (Hw & _).
  unfold csound. rewrite Es, Ei. split.
  - apply Session.wf_new.
  - destruct d; [by apply restore_wf|done].
  - intros id s. unfold session_of. cbn. by rewrite lookup_empty.
  - intros id id' s s'. unfold session_of. cbn. by rewrite lookup_empty.
Qed.

(** C5: Every session has an address of its own.  From a fresh controller,
    after any sequence of authorizations, revocations, sweeps, byte counts
    and operator actions, each session's address is a client address of the
    range that is marked leased, and two sessions never share one. *)
Theorem sessions_own_addresses cf g d pub now c c' :
  NewController cf g d pub now = Ok c → rtc step c c' →
  (∀ id s, session_of (ses c') id = Some s → leased (ip c') s)
  ∧ (∀ id id' s s', session_of (ses c') id = Some s → session_of (ses c') id' = Some s' →
       Session.AssignedIP s = Session.AssignedIP s' → id = id').
Proof.
  intros Hn Hst. apply new_sound in Hn. assert (csound c') as [_ _ Hl Hd]; [|done].
  induction Hst; eauto using step_csound.
Qed.

(** *** Capacity *)

Definition alive (m : Session.Manager) (now : time) (e : string * ptr) : Z :=
  match Session.heap m !! e.2 with
  | Some s => if Session.Session_Expired s now then 0 else 1
  | None => 0
  end.

Lemma active_count_sum m now :
  Session.Manager_ActiveCount m now = sum_by (alive m now) (map_to_list (Session.byToken m)).
Proof.
  unfold Session.Manager_ActiveCount, Session.Manager_Active, Session.entries.
  induction (map_to_list (Session.byToken m)) as [|[id p] l IH]; [done|].
  rewrite sum_by_cons, <- IH. unfold alive. cbn.
  destruct (Session.heap m !! p) as [s|]; cbn; [|done].
  rewrite Session.snapshot_expired. destruct (Session.Session_Expired s now); cbn; lia.
Qed.

Lemma alive_fresh m m' now p s l : Session.heap m' = <[p := s]> (Session.heap m) →
  (∀ e, e ∈ l → e.2 ≠ p) → sum_by (alive m' now) l = sum_by (alive m now) l.
Proof.
  intros Hh Hl. apply sum_by_ext. intros e He. unfold alive.
  rewrite Hh, lookup_insert_ne; [done|]. intros E. by apply (Hl e He).
Qed.

Lemma authorize_adds_one m v pub addr ep now m' p : Session.wf m →
  Session.Manager_Authorize m v pub addr ep now = (m', Ok p) →
  Session.Manager_ActiveCount m' now = Session.Manager_ActiveCount m now + 1.
Proof.
  intros Hw E. destruct (session_authorize m v pub addr ep now m' p Hw E)
    as (_ & s & Hp & _ & Hlive & Hexp & _).
  assert (∃ t, Session.TokenID s = t ∧ Session.byToken m' = <[t := p]> (Session.byToken m)
    ∧ Session.heap m' = <[p := s]> (Session.heap m) ∧ p = Session.next m) as (t & Ht & Hb & Hh & Hpn).
  { unfold Session.Manager_Authorize in E. destruct v as [tok|]; [|done]. case_match; [done|].
    case_match; [done|]. case_match; [done|]. injection E as <- <-. cbn in Hp.
    rewrite lookup_insert_eq in Hp. injection Hp as <-. cbn. eauto 6. }
  assert (∀ e, e ∈ map_to_list (Session.byToken m) → e.2 ≠ p) as Hfresh.
  { intros [id q] Hin. apply elem_of_map_to_list in Hin. cbn. intros ->.
    destruct (Session.wf_live m Hw _ _ Hin) as (s' & Hs' & _).
    assert (is_Some (Session.heap m !! p)) as Hf by eauto.
    apply (Session.wf_fresh m Hw) in Hf. subst. lia. }
  assert (alive m' now (t, p) = 1) as H1 by (unfold alive; cbn; by rewrite Hp, Hexp).
  rewrite !active_count_sum, Hb. destruct (Session.byToken m !! t) as [q|] eqn:Eq.
  - assert (alive m now (t, q) = 0) as H0.
    { unfold Session.live_at in Hlive. rewrite Ht, Eq in Hlive. cbn in Hlive. unfold alive. cbn.
      destruct (Session.heap m !! q); [|done]. rewrite Session.snapshot_expired in Hlive.
      apply negb_false_iff in Hlive. by rewrite Hlive. }
    rewrite <- (insert_delete_id (Session.byToken m) t q Eq) at 2.
    rewrite <- insert_delete_eq, !map_to_list_insert by apply lookup_delete_eq.
    rewrite !sum_by_cons, H1, H0, (alive_fresh m m' now p s); [lia|done|].
    intros e Hin. apply Hfresh. destruct e as [id q']. apply elem_of_map_to_list in Hin.
    apply lookup_delete_Some in Hin as [_ Hin]. by apply elem_of_map_to_list.
  - rewrite map_to_list_insert by done. rewrite sum_by_cons, H1, (alive_fresh m m' now p s); [lia|done..].
Qed.

Lemma authorize_ok_inv c v pub ep now day io1 io2 c' s :
  Controller_Authorize c v pub ep now day io1 io2 = (c', Ok s) →
  EmergencyDisable (cfg c) = false ∧ AcceptNew (cfg c) = true
  ∧ active_count c now < MaxClients (cfg c)
  ∧ (NodeType (cfg c) = NodeTypeRelay → Session.Scope s ≠ Session.ScopeExit)
  ∧ (Controller_abusePrecheck c ep pub now).2 = Ok tt
  ∧ ∃ a text m p g, Ipam.IPAM_Allocate (ip c) = (a, Ok text)
      ∧ Session.Manager_Authorize (ses c) v pub text ep now = (m, Ok p)
      ∧ Session.heap m !! p = Some s ∧ ses c' = m ∧ ip c' = a
      ∧ AddPeer (wg c) pub text ep 25 = (g, None) ∧ wg c' = g.
Proof.
  unfold Controller_Authorize. destruct (EmergencyDisable (cfg c)); [done|].
  destruct (precheck_frame c ep pub now) as (Es & Ei & Ec).
  assert (wg (Controller_abusePrecheck c ep pub now).1 = wg c) as Eg.
  { unfold Controller_abusePrecheck. destruct (abuse c); [|done].
    by destruct (Abuse.AbuseGuard_PreAuthorize _ _ _ _). }
  destruct (Controller_abusePrecheck c ep pub now) as [c1 [[]|e]]; simpl in Es, Ei, Ec, Eg; [|done].
  destruct (AcceptNew (cfg c)) eqn:Eacc; cbn [negb]; [|done].
  assert (active_count c1 now = active_count c now) as -> by (unfold active_count; by rewrite Es).
  destruct (Z.leb_spec (MaxClients (cfg c)) (active_count c now)); [done|].
  case_match; [done|]. rewrite Ei.
  destruct (Ipam.IPAM_Allocate (ip c)) as [a [text|e]]; [|done].
  cbn [ses set_ip]. rewrite Es.
  destruct (Session.Manager_Authorize (ses c) v pub text ep now) as [m [p|e]] eqn:Em; [|done].
  destruct (Session.heap m !! p) as [s1|] eqn:Ep; [|done].
  destruct (String.eqb (NodeType (cfg c)) NodeTypeRelay && String.eqb (Session.Scope s1) Session.ScopeExit)
    eqn:Erel; [done|].
  cbn [wg set_ses set_ip]. rewrite Eg.
  destruct (AddPeer (wg c) pub text ep 25) as [g [e|]] eqn:Eadd; [done|]. intros [= <- <-].
  destruct (record_client_frame (set_wg (set_ses (set_ip c1 a) m) g) s1 pub text ep day io1 io2) as [E1 E2].
  repeat (split; [done|]). split.
  { intros E. rewrite E, String.eqb_refl in Erel. simpl in Erel. by apply String.eqb_neq. }
  split; [done|]. exists a, text, m, p, g. cbn [emit ses ip wg]. rewrite E1, E2.
  repeat split; try done. unfold record_client. by destruct (db _).
Qed.

(** What a granted session means.  On a sound controller a successful
    [Authorize] implies that the node is enabled and accepting, that the
    abuse guard let the peer through, and that there was room: the number of
    live sessions grew by one and is still within [max_clients]; a relay
    never serves an exit-scoped token; and the device now routes the
    session's own address to the presented key. *)
Theorem authorize_granted c v pub ep now day io1 io2 c' s :
  csound c → Controller_Authorize c v pub ep now day io1 io2 = (c', Ok s) →
  EmergencyDisable (cfg c) = false ∧ AcceptNew (cfg c) = true
  ∧ (Controller_abusePrecheck c ep pub now).2 = Ok tt
  ∧ active_count c' now = active_count c now + 1 ∧ active_count c' now ≤ MaxClients (cfg c)
  ∧ (NodeType (cfg c) = NodeTypeRelay → Session.Scope s ≠ Session.ScopeExit)
  ∧ session_of (ses c') (Session.TokenID s) = Some s ∧ leased (ip c') s
  ∧ peer_of (wg c') pub = Some (Session.AssignedIP s).
Proof.
  intros Hc E. pose proof Hc as [Hs _ _ _].
  destruct (authorize_ok_inv _ _ _ _ _ _ _ _ _ _ E) as
    (H1 & H2 & H3 & H4 & H5 & a & text & m & p & g & Ea & Em & Ep & Es & Ei & Eg & Ew).
  pose proof (authorize_adds_one _ _ _ _ _ _ _ _ Hs Em) as Hone.
  destruct (session_authorize _ _ _ _ _ _ _ _ Hs Em) as (_ & s' & Hp & Hip & _ & _ & Hso).
  assert (s' = s) as -> by congruence.
  assert (active_count c' now = active_count c now + 1) as Hn
    by (unfold active_count; by rewrite Es).
  destruct (sound_allocate _ _ _ _ Hc Ea) as (_ & Hle & _).
  repeat (split; [done|]). split; [lia|]. split; [done|].
  split; [by rewrite Es, Hso, decide_True|]. split; [rewrite Ei; by apply Hle|].
  destruct (Ipam.allocate_ok _ _ _ (snd_ip _ _ Hc) Ea) as (_ & _ & off & -> & Hu & _).
  destruct (snd_ip _ _ Hc) as [Hw1 Hw2 _ _]. unfold Ipam.address, Ipam.usable in *.
  pose proof (add_peer_ok (wg c) pub (Ipam.base (ip c) + off) ep 25 ltac:(lia)) as Hadd. rewrite Eg in Hadd.
  cbn [fst snd] in Hadd. by rewrite Ew, (Hadd eq_refl), Hip.
Qed.

(** *** Restart *)

Lemma reserve_range a t : Ipam.same_range a (Ipam.IPAM_Reserve a t)
  ∧ Ipam.used a ⊆ Ipam.used (Ipam.IPAM_Reserve a t).
Proof.
  unfold Ipam.IPAM_Reserve. destruct (parse_To4 t); [|done]. case_match; [done|].
  split; [done|]. cbn. set_solver.
Qed.

Lemma restore_grows now rows a : Ipam.same_range a (foldl (restore_lease now) a rows)
  ∧ Ipam.used a ⊆ Ipam.used (foldl (restore_lease now) a rows).
Proof.
  revert a. induction rows as [|r rows IH]; intros a; cbn [foldl]; [done|].
  assert (Ipam.same_range a (restore_lease now a r) ∧ Ipam.used a ⊆ Ipam.used (restore_lease now a r))
    as [(E1 & E2 & E3) Hs] by (unfold restore_lease; case_match; [done|apply reserve_range]).
  destruct (IH (restore_lease now a r)) as [(F1 & F2 & F3) Hs'].
  split; [repeat split; congruence|]. by etrans.
Qed.

Lemma restore_reserves now rows a r off : Ipam.wf a → r ∈ rows →
  Time_IsZero (NodeStore.ExpiresAt r) = true ∨ now < NodeStore.ExpiresAt r →
  NodeStore.AssignedIP r = Ipam.address a off → Ipam.usable a off →
  off ∈ Ipam.used (foldl (restore_lease now) a rows).
Proof.
  revert a. induction rows as [|x rows IH]; intros a Hw Hin Hx Hip Hu; [set_solver|].
  cbn [foldl]. apply elem_of_cons in Hin as [<-|Hin].
  - apply (proj2 (restore_grows now rows (restore_lease now a r))). unfold restore_lease.
    assert (negb (Time_IsZero (NodeStore.ExpiresAt r)) && negb (Time_Before now (NodeStore.ExpiresAt r))
      = false) as ->.
    { apply andb_false_iff. unfold Time_Before. destruct Hx as [->|Hx]; [by left|right].
      apply negb_false_iff. by apply Z.ltb_lt. }
    rewrite Hip, Ipam.reserve_used by done. set_solver.
  - assert (Ipam.same_range a (restore_lease now a x)) as (E1 & E2 & _)
      by (unfold restore_lease; case_match; [done|apply reserve_range]).
    apply IH; [unfold restore_lease; case_match; [done|by apply Ipam.reserve_wf]|done|done|..];
      unfold Ipam.address, Ipam.usable in *; rewrite ?E1, ?E2; done.
Qed.

(** A restart does not give a client's address away.  A controller built
    over the table of an earlier run holds the addresses of all its active,
    unexpired rows as leased, so the first session it opens gets another. *)
Theorem restart_keeps_leases cf g d pub now c r off v key ep now' day io1 io2 c' s :
  NewController cf g (Some d) pub now = Ok c → r ∈ NodeStore.Store_ListActive d →
  Time_IsZero (NodeStore.ExpiresAt r) = true ∨ now < NodeStore.ExpiresAt r →
  NodeStore.AssignedIP r = Ipam.address (ip c) off → Ipam.usable (ip c) off →
  Controller_Authorize c v key ep now' day io1 io2 = (c', Ok s) →
  off ∈ Ipam.used (ip c) ∧ Session.AssignedIP s ≠ NodeStore.AssignedIP r.
Proof.
  intros Hn Hr Hx Hip Hu E. pose proof (new_sound _ _ _ _ _ _ Hn) as Hc.
  destruct (NewController_inv _ _ _ _ _ _ Hn) as (a & Ha & _ & _ & Ei).
  destruct (Ipam.NewIPAM_ok _ _ Ha) as (Hw & _).
  destruct (restore_grows now (NodeStore.Store_ListActive d) a) as [(E1 & E2 & _) _].
  rewrite <- Ei in E1, E2.
  assert (off ∈ Ipam.used (ip c)) as Hin.
  { rewrite Ei. eapply restore_reserves; eauto; unfold Ipam.address, Ipam.usable in *;
      rewrite <- ?E1, <- ?E2; done. }
  split; [done|].
  destruct (authorize_ok_inv _ _ _ _ _ _ _ _ _ _ E) as
    (_ & _ & _ & _ & _ & a' & text & m & p & g' & Ea & Em & Ep & _).
  destruct (session_authorize _ _ _ _ _ _ _ _ (snd_ses _ _ Hc) Em) as (_ & s' & Hp & Hs & _).
  assert (s' = s) as -> by congruence.
  destruct (Ipam.allocate_ok _ _ _ (snd_ip _ _ Hc) Ea) as (_ & _ & off' & -> & Hu' & Hf & _).
  rewrite Hs, Hip. intros Eq. apply Hf.
  by rewrite (address_inj (ip c) off' off (snd_ip _ _ Hc) Hu' Hu Eq).
Qed.
End proofs.

(** ** Concrete runs *)

Section demo.
#[local] Existing Instances no_ipv6 amd64.
#[local] Instance demo_keys : WGKeys := {| ParseWGKey _ := true |}.

(** A node with a six-address range and one-minute sessions. *)
Definition demo_config : Config :=
  mkConfig "node" NodeTypeExit "" "" "" 2 0 0 f0 true "" "" f0 60 "127.0.0.1:1" false "wg0" 51820
    "100.64.0.1" "" "100.64.0.0/29" "" "" [] [] true 0 0 1 false false.
Definition demo_controller : Controller FakeWGManager :=
  match NewController demo_config (mkFake ∅) None true 0 with
  | Ok c => c
  | Err _ => mkController demo_config (mkFake ∅) (Ipam.mkIPAM 0 0 0 ∅ "") (Session.NewManager 0)
               None true [] None 0 0 0 0
  end.
Definition demo_token (id : string) : result Session.error Session.Token :=
  Ok (Session.mkToken id "node" ("s" +:+ id) (2 * hour) "exit" id).
Definition open_at (c : Controller FakeWGManager) (id key : string) (now : time) :=
  Controller_Authorize c (demo_token id) key "" now "day" None None.
Definition demo_one := open_at demo_controller "t1" "key1" 0.
Definition demo_both := open_at demo_one.1 "t2" "key2" 0.

Example third_client_refused : (open_at demo_both.1 "t3" "key3" 0).2 = Err ErrCapacity.
Proof. vm_compute. reflexivity. Qed.

Lemma demo_created : NewController demo_config (mkFake ∅) None true 0 = Ok demo_controller.
Proof. vm_compute. reflexivity. Defined.

Definition session_one : Session.Session :=
  match demo_one.2 with
  | Ok s => s
  | Err _ => Session.open_session (Session.mkToken "" "" "" 0 "" "") "" "" "" 0 0
  end.

Lemma demo_one_ok : open_at demo_controller "t1" "key1" 0 = (demo_one.1, Ok session_one).
Proof. vm_compute. reflexivity. Defined.

Lemma sessions_own_addresses_witness :
  leased (ip demo_one.1) session_one ∧ Session.AssignedIP session_one = "100.64.0.2".
Proof.
  destruct (sessions_own_addresses demo_config (mkFake ∅) None true 0 demo_controller demo_one.1
    demo_created) as [Hl _].
  { apply rtc_once. exact (step_authorize demo_controller (demo_token "t1") "key1" "" 0 "day" None None). }
  split; [|vm_compute; reflexivity]. apply (Hl "t1"). vm_compute. reflexivity.
Defined.

Lemma authorize_granted_witness :
  active_count demo_one.1 0 = 1 ∧ peer_of (wg demo_one.1) "key1" = Some "100.64.0.2".
Proof.
  destruct (authorize_granted demo_controller (demo_token "t1") "key1" "" 0 "day" None None
    demo_one.1 session_one (new_sound _ _ _ _ _ _ demo_created) demo_one_ok)
    as (_ & _ & _ & Hn & _ & _ & _ & _ & Hp).
  split; [rewrite Hn; vm_compute; reflexivity|]. rewrite Hp. vm_compute. reflexivity.
Defined.

Definition demo_table : NodeStore.Store :=
  NodeStore.Store_UpsertClient NodeStore.empty_store
    (NodeStore.mkClientRow "old" "node" "s" "key0" "100.64.0.2" "" "exit" (time_Unix 100) 0 false 0 0)
    None.
Definition demo_restarted : Controller FakeWGManager :=
  match NewController demo_config (mkFake ∅) (Some demo_table) true 0 with
  | Ok c => c | Err _ => demo_controller end.
Definition after_restart := open_at demo_restarted "t1" "key1" 0.
Definition session_after : Session.Session :=
  match after_restart.2 with Ok s => s | Err _ => session_one end.

Lemma restart_keeps_leases_witness :
  Session.AssignedIP session_after = "100.64.0.3"
  ∧ ∃ r, r ∈ NodeStore.Store_ListActive demo_table
      ∧ Session.AssignedIP session_after ≠ NodeStore.AssignedIP r.
Proof.
  split; [vm_compute; reflexivity|].
  set (r := NodeStore.client_row ("old", NodeStore.upsert_row None
    (NodeStore.mkClientRow "old" "node" "s" "key0" "100.64.0.2" "" "exit" (time_Unix 100) 0 false 0 0))).
  assert (r ∈ NodeStore.Store_ListActive demo_table) as Hr.
  { apply NodeStore.list_active_elem. eexists. split; [|split; [|reflexivity]]; vm_compute; reflexivity. }
  exists r. split; [exact Hr|].
  refine (proj2 (restart_keeps_leases demo_config (mkFake ∅) demo_table true 0 demo_restarted r 2
    (demo_token "t1") "key1" "" 0 "day" None None after_restart.1 session_after _ Hr _ _ _ _));
    try (vm_compute; reflexivity).
  - right. by vm_compute.
  - by vm_compute.
Defined.

(** An expired session that was not swept yet may be authorized again: the
    new session gets a second address, and the first one is never released,
    not even once both are gone. *)
Theorem reauthorize_leaks_lease :
  let c1 := demo_one.1 in
  let c2 := (open_at c1 "t1" "key1" (2 * minute)).1 in
  let c3 := (Controller_SweepOnce c2 (map_to_list (Session.byToken (ses c2))) hour (fun _ => None)).1 in
  active_count c3 hour = 0 ∧ Session.byToken (ses c3) = ∅ ∧ Ipam.used (ip c3) = {[2]}.
Proof. vm_compute. repeat split. Qed.

(** Peers are keyed by the client's key alone: revoking one of two sessions
    that share a key removes the peer of the other, which stays counted. *)
Theorem shared_key_revocation_cuts_peer :
  let c2 := (open_at demo_one.1 "t2" "key1" 0).1 in
  let c3 := (Controller_Revoke c2 "t1" 0 None).1 in
  active_count c3 0 = 1 ∧ peer_of (wg c3) "key1" = None.
Proof. vm_compute. split; reflexivity. Qed.
End demo.
