(* ===== verification/GoText.v ===== *)
(** * GoText: line formats, numbers and padded base64

    The text routines behind the WireGuard formats: [strings.Split],
    [strconv.Atoi] and its kin, [netip.ParsePrefix], padded base64 encoding,
    and the lemmas that make rendered lines readable again - which texts
    [TrimSpace] leaves alone, and what splitting gives back. *)

From Stdlib Require Import ZArith Lia Ascii.
From S2P Require Import Prelude GoStrings NetIP.

Definition nl : Ascii.ascii := byte_of 10.

(** ** Splitting *)

Fixpoint split_on (sep : Ascii.ascii) (l : list Ascii.ascii) : list (list Ascii.ascii) :=
  match l with
  | [] => [[]]
  | c :: l' =>
    if chr c sep then [] :: split_on sep l'
    else match split_on sep l' with
         | f :: r => (c :: f) :: r
         | [] => [[c]]
         end
  end.

(** [strings.Split] for a one-byte separator. *)
Definition strings_Split (s : string) (sep : Ascii.ascii) : list string :=
  map of_chars (split_on sep (chars s)).

Definition dquote : Ascii.ascii := byte_of 34.
Definition quote : string := String.String dquote "".
Definition quoted (s : string) : string := quote +:+ s +:+ quote.

Definition strings_HasPrefix (s p : string) : bool := String.prefix p s.
Definition strings_Contains (s sub : string) : bool :=
  match String.index 0 sub s with Some _ => true | None => false end.
Definition strings_HasSuffix (s p : string) : bool :=
  String.prefix (of_chars (reverse (chars p))) (of_chars (reverse (chars s))).

(** [strings.Fields]; the length of the text bounds the steps. *)
Fixpoint fields_from (fuel : nat) (cur l : list Ascii.ascii) : list (list Ascii.ascii) :=
  let flush := match cur with [] => [] | _ => [reverse cur] end in
  match fuel, l with
  | O, _ | _, [] => flush
  | S fuel, c :: l' =>
    match strip_any space_encodings l with
    | Some r => flush ++ fields_from fuel [] r
    | None => fields_from fuel (c :: cur) l'
    end
  end.
Definition strings_Fields (s : string) : list string :=
  map of_chars (fields_from (String.length s) [] (chars s)).

(** [strings.FieldsFunc] for a test on bytes. *)
Fixpoint fields_func (sep : Ascii.ascii → bool) (cur l : list Ascii.ascii)
  : list (list Ascii.ascii) :=
  let flush := match cur with [] => [] | _ => [reverse cur] end in
  match l with
  | [] => flush
  | c :: l' => if sep c then flush ++ fields_func sep [] l' else fields_func sep (c :: cur) l'
  end.
Definition strings_FieldsFunc (sep : Ascii.ascii → bool) (s : string) : list string :=
  map of_chars (fields_func sep [] (chars s)).

Definition strings_TrimSuffix (s suf : string) : string :=
  if strings_HasSuffix s suf then of_chars (take (String.length s - String.length suf) (chars s)) else s.

(** ** Numbers *)

Definition in_int64 (z : Z) : bool := (min_int64 <=? z) && (z <=? max_int64).

(** [strconv.ParseInt(s, 10, 64)], and [Atoi] where int has 64 bits. *)
Definition strconv_Atoi (s : string) : option Z :=
  let '(neg, l) :=
    match chars s with
    | "-"%char :: l => (true, l)
    | "+"%char :: l => (false, l)
    | l => (false, l)
    end in
  match l with
  | [] => None
  | _ :: _ =>
    match digits l 0 with
    | Some n => let z := if neg : bool then - n else n in if in_int64 z then Some z else None
    | None => None
    end
  end.

Definition strconv_ParseUint (s : string) : option Z :=
  match chars s with
  | [] => None
  | l => match digits l 0 with
         | Some n => if n <? 2 ^ 64 then Some n else None
         | None => None
         end
  end.

(** ** URLs and quoting *)

(** [net/url]: the parts of a parsed URL the program reads, and its text. *)
Record url := mkURL { Scheme : string; Host : string; Path : string; RawQuery : string }.
Class URL : Type := { url_Parse : string → option url; URL_String : url → string }.

(** The [%q] verb: printable text without quotes or backslashes is itself
    between quotes. *)
Definition quotable (c : Ascii.ascii) : bool :=
  (32 <=? byte_val c) && (byte_val c <? 127) && negb (byte_val c =? 34) && negb (byte_val c =? 92).
Class StrconvQuote : Type := {
  strconv_Quote : string → string;
  strconv_Quote_plain s : forallb quotable (chars s) = true → strconv_Quote s = quoted s
}.

(** ** Prefixes *)

(** IPv6 text is left to the class, as in [NetIP]. *)
Class Netip : Type := { prefix_IPv6 : string → bool }.

(** Does [netip.ParsePrefix] accept the text? *)
Definition netip_ParsePrefix_ok `{Netip} (s : string) : bool :=
  if mem_char ":"%char (chars s) then prefix_IPv6 s
  else match cut_last "/"%char (chars s) with
       | None => false
       | Some (addr, bits) =>
         match parse_ipv4 (of_chars addr), bits with
         | Some _, ("0"%char | "+"%char | "-"%char) :: _ :: _ => false
         | Some _, b => match strconv_Atoi (of_chars b) with
                        | Some n => (0 <=? n) && (n <=? 32)
                        | None => false
                        end
         | None, _ => false
         end
       end.

(** ** Padded base64 *)

Fixpoint b64std_encode (b : list Z) : list Ascii.ascii :=
  let a := b64_alphabet "+"%char "/"%char in
  match b with
  | [] => []
  | [x] => [a (x / 4); a (x mod 4 * 16); "="%char; "="%char]
  | [x; y] => [a (x / 4); a (x mod 4 * 16 + y / 16); a (y mod 16 * 4); "="%char]
  | x :: y :: z :: b' =>
    a (x / 4) :: a (x mod 4 * 16 + y / 16) :: a (y mod 16 * 4 + z / 64) :: a (z mod 64)
    :: b64std_encode b'
  end.
Definition base64_Std_EncodeToString (b : list Z) : string := of_chars (b64std_encode b).

(** ** Lines *)

(** The text a writer produces that ends each line with a newline. *)
Definition write_lines (l : list string) : string :=
  of_chars (concat (map (fun s => chars s ++ [nl]) l)).

Lemma split_on_plain sep l : sep ∉ l → split_on sep l = [l].
Proof.
  induction l as [|c l IH]; intros Hn; cbn [split_on]; [done|].
  apply not_elem_of_cons in Hn as [Hc Hn]. rewrite (IH Hn).
  destruct (chr c sep) eqn:E; [|done]. apply chr_eq in E. congruence.
Qed.

Lemma split_on_app sep l r : sep ∉ l → split_on sep (l ++ sep :: r) = l :: split_on sep r.
Proof.
  induction l as [|c l IH]; intros Hn; cbn [split_on app].
  - by rewrite (proj2 (chr_eq sep sep) eq_refl).
  - apply not_elem_of_cons in Hn as [Hc Hn]. rewrite (IH Hn).
    destruct (chr c sep) eqn:E; [|done]. apply chr_eq in E. congruence.
Qed.

(** Splitting written lines gives the lines back, and an empty last field. *)
Lemma split_write_lines l : Forall (fun s => nl ∉ chars s) l →
  strings_Split (write_lines l) nl = l ++ [""].
Proof.
  unfold strings_Split, write_lines. rewrite chars_of_chars.
  induction 1 as [|s l Hs Hl IH]; [done|]. cbn [map concat].
  rewrite <- app_assoc. cbn [app]. rewrite split_on_app by done. cbn [map].
  by rewrite IH, of_chars_chars.
Qed.

(** ** Base64 round trip *)

Definition is_byte (z : Z) : Prop := 0 ≤ z < 256.

(** A check over the naturals below a bound is a check over the integers. *)
Lemma check_below (f : Z → bool) n : forallb (fun k => f (Z.of_nat k)) (seq 0 n) = true →
  ∀ z, 0 ≤ z < Z.of_nat n → f z = true.
Proof.
  rewrite forallb_forall. intros H z Hz. rewrite <- (Z2Nat.id z) by lia.
  apply H, in_seq. lia.
Qed.

Abbreviation b64_sym := (b64_alphabet "+"%char "/"%char).

Lemma b64_value_alphabet z : 0 ≤ z < 64 → b64_value "+"%char "/"%char (b64_sym z) = Some z.
Proof.
  intros Hz. pose proof (check_below
    (fun z => bool_decide (b64_value "+"%char "/"%char (b64_sym z) = Some z)) 64) as H.
  eapply bool_decide_eq_true_1, H; [vm_compute; reflexivity | lia].
Qed.

Definition plain_char (c : Ascii.ascii) : bool := (33 <=? byte_val c) && (byte_val c <? 127).

Lemma b64_alphabet_plain z : 0 ≤ z < 64 → plain_char (b64_sym z) = true.
Proof.
  intros Hz. apply (check_below (fun z => plain_char (b64_sym z)) 64); [|lia].
  vm_compute. reflexivity.
Qed.

Lemma b64std_plain b : Forall is_byte b → forallb plain_char (b64std_encode b) = true.
Proof.
  revert b. fix IH 1. intros [|x [|y [|z b]]] Hb; cbn [b64std_encode forallb]; [done| | |];
    rewrite ?Forall_cons in Hb; unfold is_byte in Hb;
    rewrite !b64_alphabet_plain by (Z.to_euclidean_division_equations; lia); cbn [andb]; try reflexivity.
  apply IH, Hb.
Qed.

Lemma b64std_roundtrip b : Forall is_byte b →
  b64_decode true (b64_value "+"%char "/"%char) (b64std_encode b) = Some b.
Proof.
  revert b. fix IH 1. intros [|x [|y [|z b]]] Hb; cbn [b64std_encode];
    rewrite ?Forall_cons in Hb; unfold is_byte in Hb; cbn [b64_decode];
    rewrite ?b64_value_alphabet by (Z.to_euclidean_division_equations; lia).
  - done.
  - cbn. repeat f_equal; Z.to_euclidean_division_equations; lia.
  - cbn. repeat f_equal; Z.to_euclidean_division_equations; lia.
  - rewrite IH by apply Hb. repeat f_equal; Z.to_euclidean_division_equations; lia.
Qed.

Lemma plain_no_newline l : forallb plain_char l = true →
  List.filter (fun c => negb ((byte_val c =? 10) || (byte_val c =? 13))) l = l.
Proof.
  induction l as [|c l IH]; cbn [forallb List.filter]; [done|].
  intros [Hc Hl]%andb_true_iff. unfold plain_char in Hc. zbool.
  rewrite (proj2 (Z.eqb_neq _ _)), (proj2 (Z.eqb_neq _ _)) by lia. cbn [orb negb]. by rewrite IH.
Qed.

(** Decoding gives back the bytes that were encoded. *)
Lemma base64_Std_roundtrip b : Forall is_byte b →
  base64_Std_DecodeString (base64_Std_EncodeToString b) = Some b.
Proof.
  intros Hb. unfold base64_Std_DecodeString, base64_Std_EncodeToString, drop_newlines.
  rewrite chars_of_chars, plain_no_newline by by apply b64std_plain.
  by apply b64std_roundtrip.
Qed.

(** ** What [TrimSpace] leaves alone *)

Abbreviation fronts := space_encodings.
Abbreviation backs := (map reverse space_encodings).

Definition trimmed (s : string) : Prop := strings_TrimSpace s = s.

Lemma strip_any_len ps l r : forallb (fun p => 1 <=? Z.of_nat (length p)) ps = true →
  strip_any ps l = Some r → (length r < length l)%nat.
Proof.
  assert (∀ p l r, strip_prefix p l = Some r → length l = (length p + length r)%nat) as Hp.
  { induction p as [|z p IH]; intros [|c l'] r'; cbn [strip_prefix length]; try done.
    - by intros [= <-].
    - by intros [= <-].
    - destruct (_ =? _); [|done]. intros H%IH. lia. }
  induction ps as [|p ps IH]; cbn [forallb strip_any]; [done|]. intros [H1 H2]%andb_true_iff.
  zbool. destruct (strip_prefix p l) eqn:E; [|by apply IH]. intros [= <-]. apply Hp in E. lia.
Qed.

Lemma encodings_nonempty :
  forallb (fun p => 1 <=? Z.of_nat (length p)) fronts = true
  ∧ forallb (fun p => 1 <=? Z.of_nat (length p)) backs = true.
Proof. by vm_compute. Qed.

Lemma trim_front_len ps n l : forallb (fun p => 1 <=? Z.of_nat (length p)) ps = true →
  (length (trim_front n ps l) ≤ length l)%nat.
Proof.
  intros Hps. revert l. induction n as [|n IH]; intros l; cbn [trim_front]; [lia|].
  destruct (strip_any ps l) as [r|] eqn:E; [|lia].
  pose proof (strip_any_len _ _ _ Hps E). pose proof (IH r). lia.
Qed.

Lemma trim_front_stuck ps n l : forallb (fun p => 1 <=? Z.of_nat (length p)) ps = true →
  length (trim_front (S n) ps l) = length l → strip_any ps l = None.
Proof.
  intros Hps Hl. cbn [trim_front] in Hl. destruct (strip_any ps l) as [r|] eqn:E; [|done].
  pose proof (strip_any_len _ _ _ Hps E). pose proof (trim_front_len ps n r Hps). lia.
Qed.

Lemma trim_front_id ps n l : strip_any ps l = None → trim_front n ps l = l.
Proof. intros H. destruct n; cbn [trim_front]; [done|]. by rewrite H. Qed.

Lemma trimmed_intro l : strip_any fronts l = None → strip_any backs (reverse l) = None →
  strings_TrimSpace (of_chars l) = of_chars l.
Proof.
  intros H1 H2. unfold strings_TrimSpace. rewrite chars_of_chars.
  rewrite (trim_front_id _ _ _ H1), (trim_front_id _ _ _ H2). by rewrite reverse_involutive.
Qed.

Lemma trimmed_inv s : trimmed s → s ≠ "" →
  strip_any fronts (chars s) = None ∧ strip_any backs (reverse (chars s)) = None.
Proof.
  intros Ht Hne. destruct encodings_nonempty as [Hf Hb].
  unfold trimmed, strings_TrimSpace in Ht. apply (f_equal chars) in Ht.
  rewrite chars_of_chars in Ht.
  set (a := trim_front (String.length s) fronts (chars s)) in *.
  set (b := trim_front (length a) backs (reverse a)) in *.
  assert (length b = length (chars s)) as Lb by (by rewrite <- Ht, length_reverse).
  pose proof (trim_front_len backs (length a) (reverse a) Hb) as L1.
  pose proof (trim_front_len fronts (String.length s) (chars s) Hf) as L2.
  rewrite length_reverse in L1. fold a in L2. fold b in L1.
  assert (String.length s = length (chars s)) as Ls by (clear; induction s as [|x s IH]; simpl; [done | by rewrite IH]).
  destruct s as [|c s]; [done|]. cbn [String.length] in *.
  assert (strip_any fronts (chars (String.String c s)) = None) as H1.
  { apply (trim_front_stuck _ (String.length s)); [done|]. fold a. lia. }
  split; [done|].
  assert (a = chars (String.String c s)) as Ea by (apply trim_front_id, H1).
  rewrite <- Ea in Lb, Ls |- *. apply (trim_front_stuck _ (String.length s)); [done|].
  rewrite Ls. fold b. by rewrite length_reverse.
Qed.

(** A byte that occurs in no encoding of a space after its first byte. *)
Definition safe_sep (d : Ascii.ascii) : bool :=
  forallb (fun p => forallb (fun z => negb (byte_val d =? z)) (tl p)) (fronts ++ backs).

Lemma strip_prefix_app p l d r : forallb (fun z => negb (byte_val d =? z)) p = true →
  strip_prefix p l = None → strip_prefix p (l ++ d :: r) = None.
Proof.
  revert l. induction p as [|z p IH]; intros l; cbn [forallb strip_prefix]; [done|].
  intros [Hd Hp]%andb_true_iff. destruct l as [|c l]; cbn [app].
  - apply negb_true_iff in Hd. by rewrite Hd.
  - destruct (byte_val c =? z); [|done]. by apply IH.
Qed.

Lemma strip_any_app ps l d r :
  forallb (fun p => forallb (fun z => negb (byte_val d =? z)) (tl p)) ps = true →
  l ≠ [] → strip_any ps l = None → strip_any ps (l ++ d :: r) = None.
Proof.
  intros Hps Hl. destruct l as [|c l]; [done|]. clear Hl.
  induction ps as [|p ps IH]; cbn [forallb strip_any] in *; [done|].
  apply andb_true_iff in Hps as [Hp Hps].
  destruct (strip_prefix p (c :: l)) eqn:E; [done|]. intros H.
  assert (strip_prefix p ((c :: l) ++ d :: r) = None) as ->; [|by apply IH].
  destruct p as [|z p]; cbn [strip_prefix app tl] in *; [done|].
  destruct (byte_val c =? z); [|done]. by apply strip_prefix_app.
Qed.

Lemma safe_sep_both d l r : safe_sep d = true → l ≠ [] →
  (strip_any fronts l = None → strip_any fronts (l ++ d :: r) = None)
  ∧ (strip_any backs l = None → strip_any backs (l ++ d :: r) = None).
Proof.
  unfold safe_sep. rewrite forallb_app. intros [H1 H2]%andb_true_iff Hl.
  split; intros H; by apply strip_any_app.
Qed.

Lemma strip_plain c l : plain_char c = true →
  strip_any fronts (c :: l) = None ∧ strip_any backs (c :: l) = None.
Proof.
  assert (∀ ps, forallb (fun p => match p with z :: _ => (z <=? 32) || (127 <=? z) | [] => false end) ps
    = true → plain_char c = true → strip_any ps (c :: l) = None) as H.
  { intros ps Hps Hc. unfold plain_char in Hc. zbool.
    induction ps as [|[|z p] ps IH]; cbn [forallb strip_any strip_prefix] in *; try done.
    apply andb_true_iff in Hps as [Hz Hps].
    rewrite (proj2 (Z.eqb_neq _ _)); [by apply IH|]. apply orb_true_iff in Hz.
    rewrite !Z.leb_le in Hz. lia. }
  intros Hc. split; apply H; try done; vm_compute; reflexivity.
Qed.

(** [key<sep>value] is trimmed when its value is. *)
Lemma trimmed_field c k d v : plain_char c = true → safe_sep d = true → trimmed v → v ≠ "" →
  trimmed (String.String c k +:+ String.String d v).
Proof.
  intros Hc Hd Hv Hne. destruct (trimmed_inv v Hv Hne) as [_ Hb].
  unfold trimmed. rewrite <- (of_chars_chars (_ +:+ _)). apply trimmed_intro; rewrite chars_app.
  - exact (proj1 (strip_plain _ _ Hc)).
  - rewrite reverse_app. cbn [String.list_ascii_of_string]. rewrite reverse_cons, <- app_assoc.
    refine (proj2 (safe_sep_both _ _ _ Hd _) Hb).
    intros E%(f_equal length). rewrite length_reverse in E. by destruct v.
Qed.

(** A leading blank before a trimmed text is all there is to trim. *)
Lemma trim_lead v : trimmed v → strings_TrimSpace (String.String " " v) = v.
Proof.
  intros Hv. destruct (decide (v = "")) as [->|Hne]; [vm_compute; reflexivity|].
  destruct (trimmed_inv v Hv Hne) as [Hf Hb]. unfold strings_TrimSpace.
  cbn [String.length String.list_ascii_of_string trim_front].
  assert (strip_any fronts (" "%char :: chars v) = Some (chars v)) as -> by reflexivity.
  rewrite (trim_front_id _ _ _ Hf), (trim_front_id _ _ _ Hb), reverse_involutive.
  apply of_chars_chars.
Qed.

(** ** Comma-separated lists *)

(** A text that survives as an element of a comma-separated list in a line. *)
Record item_ok (s : string) : Prop := {
  io_nonempty : s ≠ "";
  io_trimmed : trimmed s;
  io_no_comma : ","%char ∉ chars s;
  io_no_nl : nl ∉ chars s
}.

Lemma join_cons x y l sep : strings_Join (x :: y :: l) sep = x +:+ sep +:+ strings_Join (y :: l) sep.
Proof. done. Qed.

Lemma chars_nil (s : string) : s ≠ "" → chars s ≠ [].
Proof. intros H E. apply H. by apply empty_iff_chars. Qed.

Lemma join_facts x l : item_ok x → Forall item_ok l →
  trimmed (strings_Join (x :: l) ", ") ∧ strings_Join (x :: l) ", " ≠ ""
  ∧ nl ∉ chars (strings_Join (x :: l) ", ").
Proof.
  intros Hx Hl. revert x Hx. induction Hl as [|y l Hy Hl IH]; intros x Hx.
  { destruct Hx as [H1 H2 _ H3]. done. }
  destruct (IH y Hy) as (IHt & IHn & IHl). rewrite join_cons. destruct Hx as [Hne Ht Hc Hnl].
  destruct (trimmed_inv x Ht Hne) as [Hf _]. destruct (trimmed_inv _ IHt IHn) as [_ Hb].
  set (t := strings_Join (y :: l) ", ") in *.
  assert (chars (x +:+ ", " +:+ t) = chars x ++ ","%char :: " "%char :: chars t) as Ec
    by (by rewrite !chars_app).
  split_and!.
  - unfold trimmed. rewrite <- (of_chars_chars (x +:+ _)). apply trimmed_intro; rewrite Ec.
    + exact (proj1 (safe_sep_both ","%char (chars x) _ eq_refl (chars_nil _ Hne)) Hf).
    + rewrite reverse_app, !reverse_cons, <- !app_assoc. cbn [app].
      refine (proj2 (safe_sep_both " "%char _ _ eq_refl _) Hb).
      intros E%(f_equal length). rewrite length_reverse in E. by destruct t.
  - intros E. apply (f_equal chars) in E. rewrite Ec in E. by destruct (chars x).
  - rewrite Ec. rewrite elem_of_app, !elem_of_cons. intros [H|[H|[H|H]]]; done.
Qed.

Lemma split_join x l : item_ok x → Forall item_ok l →
  strings_Split (strings_Join (x :: l) ", ") ","%char = x :: map (String.String " ") l.
Proof.
  intros Hx Hl. revert x Hx. induction Hl as [|y l Hy Hl IH]; intros x Hx; unfold strings_Split.
  { cbn [strings_Join map]. rewrite split_on_plain by apply Hx. cbn. by rewrite of_chars_chars. }
  specialize (IH y Hy). unfold strings_Split in IH.
  rewrite join_cons, !chars_app. cbn [app].
  assert (∀ k, chars ", " ++ k = ","%char :: " "%char :: k) as -> by reflexivity.
  rewrite split_on_app by apply Hx. cbn [map split_on].
  replace (chr " "%char ","%char) with false by reflexivity.
  destruct (split_on ","%char (chars (strings_Join (y :: l) ", "))) as [|f r]; [done|].
  cbn [map] in *. injection IH as Ef Er. rewrite of_chars_chars, Er. cbn. by rewrite Ef.
Qed.

(** ** Decimal round trip *)

Lemma digit_pretty d : (d < 10)%N → digit (pretty_N_char d) = Some (Z.of_N d).
Proof.
  intros Hd. pose proof (check_below
    (fun z => bool_decide (digit (pretty_N_char (Z.to_N z)) = Some z)) 10) as H.
  rewrite <- (N2Z.id d) at 1. eapply bool_decide_eq_true_1, H; [vm_compute; reflexivity | lia].
Qed.

Lemma digits_pretty_go x s : digits (chars (pretty_N_go x s)) 0 = digits (chars s) (Z.of_N x).
Proof.
  revert s. induction (N.lt_wf_0 x) as [x _ IH]; intros s.
  destruct (decide (x = 0)%N) as [->|Hx]; [by rewrite pretty_N_go_0|].
  rewrite pretty_N_go_step by lia. rewrite IH by (apply N.div_lt; lia).
  cbn [String.list_ascii_of_string digits].
  rewrite digit_pretty by (apply N.mod_lt; lia).
  f_equal. rewrite N2Z.inj_div, N2Z.inj_mod. pose proof (Z.div_mod (Z.of_N x) 10). lia.
Qed.

Lemma pretty_go_head x s : (0 < x)%N →
  ∃ c r, chars (pretty_N_go x s) = c :: r ∧ digit c ≠ None.
Proof.
  revert s. induction (N.lt_wf_0 x) as [x _ IH]; intros s Hx.
  rewrite pretty_N_go_step by lia. destruct (decide (x < 10)%N) as [Hs|Hs].
  - rewrite N.div_small, pretty_N_go_0 by done. eexists _, _. split; [reflexivity|].
    by rewrite digit_pretty by (apply N.mod_lt; lia).
  - apply IH; [apply N.div_lt; lia|]. apply N.div_str_pos. lia.
Qed.

(** Printed numbers read back. *)
Lemma Atoi_fmt_d n : 0 ≤ n → is_int64 n → strconv_Atoi (fmt_d n) = Some n.
Proof.
  intros Hn Hr. destruct (decide (n = 0)) as [->|Hz]; [vm_compute; reflexivity|].
  assert (fmt_d n = pretty_N_go (Z.to_N n) "") as ->.
  { unfold fmt_d. destruct n as [|p|p]; [done| |lia]. done. }
  destruct (pretty_go_head (Z.to_N n) "") as (c & r & E & Hc); [lia|].
  pose proof (digits_pretty_go (Z.to_N n) "") as Hd. cbn [String.list_ascii_of_string digits] in Hd.
  unfold strconv_Atoi. rewrite E in Hd |- *.
  assert (match c :: r with
          | "-"%char :: l => (true, l) | "+"%char :: l => (false, l) | l => (false, l) end
          = (false, c :: r)) as ->.
  { destruct c as [[] [] [] [] [] [] [] []]; try reflexivity; exfalso; by apply Hc. }
  rewrite Hd, Z2N.id by lia. unfold in_int64. unwidth.
  rewrite (proj2 (Z.leb_le _ _)), (proj2 (Z.leb_le _ _)) by lia. done.
Qed.

(** ** Texts of plain characters *)

Lemma trimmed_plain s : forallb plain_char (chars s) = true → trimmed s.
Proof.
  intros H. destruct (decide (s = "")) as [->|Hne]; [vm_compute; reflexivity|].
  unfold trimmed. rewrite <- (of_chars_chars s). apply trimmed_intro.
  - destruct (chars s) as [|c l]; [done|]. cbn [forallb] in H.
    apply andb_true_iff in H as [Hc _]. exact (proj1 (strip_plain _ _ Hc)).
  - assert (∀ c, c ∈ reverse (chars s) → plain_char c = true) as Hc.
    { intros c Hc. rewrite elem_of_reverse in Hc. rewrite forallb_forall in H.
      by apply H, list_elem_of_In. }
    destruct (reverse (chars s)) as [|c l]; [done|].
    exact (proj2 (strip_plain c l (Hc c ltac:(set_solver)))).
Qed.

Lemma plain_no_nl l : forallb plain_char l = true → nl ∉ l.
Proof. rewrite forallb_forall. intros H Hn%list_elem_of_In%H. by vm_compute in Hn. Qed.

Lemma digits_plain l acc n : digits l acc = Some n → forallb plain_char l = true.
Proof.
  revert acc. induction l as [|c l IH]; intros acc; cbn [digits forallb]; [done|].
  unfold digit. destruct ((0 <=? byte_val c - 48) && (byte_val c - 48 <=? 9)) eqn:E; [|done].
  intros H%IH. rewrite H, andb_true_r. zbool. unfold plain_char.
  rewrite (proj2 (Z.leb_le _ _)), (proj2 (Z.ltb_lt _ _)) by lia. done.
Qed.

Lemma fmt_d_plain n : 0 ≤ n → forallb plain_char (chars (fmt_d n)) = true ∧ fmt_d n ≠ "".
Proof.
  intros Hn. destruct (decide (n = 0)) as [->|Hz]; [by vm_compute|].
  assert (fmt_d n = pretty_N_go (Z.to_N n) "") as ->.
  { unfold fmt_d. destruct n as [|p|p]; [done| |lia]. done. }
  destruct (pretty_go_head (Z.to_N n) "") as (c & r & E & Hc); [lia|].
  pose proof (digits_pretty_go (Z.to_N n) "") as Hd.
  split; [exact (digits_plain _ _ _ Hd)|]. intros E'. by rewrite E' in E.
Qed.

Lemma hex_plain b : forallb plain_char (chars (hex_EncodeToString b)) = true.
Proof.
  unfold hex_EncodeToString. rewrite chars_of_chars.
  assert (∀ z, 0 ≤ z < 16 → plain_char (hex_digit z) = true) as Hd.
  { apply (check_below (fun z => plain_char (hex_digit z)) 16). vm_compute. reflexivity. }
  induction b as [|z b IH]; cbn [flat_map app forallb]; [done|].
  rewrite !Hd by (apply Z.mod_pos_bound; lia). done.
Qed.

(** ** Fields *)

Lemma fields_func_word sep w cur r : forallb (fun c => negb (sep c)) w = true →
  fields_func sep cur (w ++ r) = fields_func sep (reverse w ++ cur) r.
Proof.
  revert cur. induction w as [|c w IH]; intros cur; cbn [forallb app fields_func]; [done|].
  intros [Hc%negb_true_iff Hw]%andb_true_iff. rewrite Hc, IH by done.
  by rewrite reverse_cons, <- app_assoc.
Qed.

(** Words without separators, each followed by one, are the fields. *)
Lemma fields_func_lines sep d l : sep d = true →
  Forall (fun w => w ≠ [] ∧ forallb (fun c => negb (sep c)) w = true) l →
  fields_func sep [] (concat (map (fun w => w ++ [d]) l)) = l.
Proof.
  intros Hd. induction 1 as [|w l [Hne Hw] Hl IH]; cbn [map concat]; [done|].
  rewrite <- app_assoc, fields_func_word by done. cbn [fields_func app]. rewrite Hd, app_nil_r.
  destruct (reverse w) as [|c r] eqn:E.
  { apply (f_equal reverse) in E. by rewrite reverse_involutive in E. }
  rewrite <- E, reverse_involutive, IH. done.
Qed.

Lemma fields_from_word n w cur r : forallb plain_char w = true →
  fields_from (length w + n) cur (w ++ r) = fields_from n (reverse w ++ cur) r.
Proof.
  revert cur. induction w as [|c w IH]; intros cur; cbn [forallb app length plus]; [done|].
  intros [Hc Hw]%andb_true_iff. cbn [fields_from].
  rewrite (proj1 (strip_plain c (w ++ r) Hc)), IH by done.
  by rewrite reverse_cons, <- app_assoc.
Qed.

(** Two plain words with a blank between them. *)
Lemma fields_two a b : forallb plain_char (chars a) = true → forallb plain_char (chars b) = true →
  a ≠ "" → b ≠ "" → strings_Fields (a +:+ " " +:+ b) = [a; b].
Proof.
  intros Ha Hb Hna Hnb. unfold strings_Fields.
  assert (String.length (a +:+ " " +:+ b) = (length (chars a) + S (length (chars b) + 0))%nat) as ->.
  { assert (∀ s, String.length s = length (chars s)) as Hl
      by (clear; induction s as [|x s IH]; simpl; [done | by rewrite IH]).
    rewrite Hl, !chars_app, !length_app. cbn. lia. }
  rewrite !chars_app, fields_from_word, app_nil_r by done.
  cbn [String.list_ascii_of_string app fields_from].
  replace (strip_any space_encodings (" "%char :: chars b)) with (Some (chars b)) by reflexivity.
  pose proof (fields_from_word 0 (chars b) [] [] Hb) as Ew. rewrite !app_nil_r in Ew. rewrite Ew.
  cbn [fields_from]. assert (∀ s, s ≠ "" → match reverse (chars s) with [] => [] | _ :: _ => [reverse (reverse (chars s))] end
    = [chars s]) as E.
  { intros s Hs. rewrite reverse_involutive. destruct (reverse (chars s)) as [|x l] eqn:Er; [|done].
    apply (f_equal reverse) in Er. rewrite reverse_involutive in Er. by apply chars_nil in Hs. }
  pose proof (E a Hna) as Ea. pose proof (E b Hnb) as Eb.
  destruct (reverse (chars a)) eqn:E1, (reverse (chars b)) eqn:E2; try discriminate.
  cbn in *. injection Ea as ->. injection Eb as ->. by rewrite !of_chars_chars.
Qed.

(** ** Prefixes of texts *)

Lemma prefix_chars p s : String.prefix p s = true → ∃ r, chars s = chars p ++ r.
Proof.
  revert s. induction p as [|a p IH]; intros s; [by exists (chars s)|].
  destruct s as [|b s]; [done|]. simpl String.prefix.
  destruct (Ascii.ascii_dec a b) as [->|]; [|done].
  intros [r Hr]%IH. exists r. cbn. by rewrite Hr.
Qed.

Lemma prefix_app p s r : String.prefix p s = true → String.prefix p (s +:+ r) = true.
Proof.
  revert s. induction p as [|a p IH]; intros [|b s]; [by destruct r|done|done|].
  cbn -[String.prefix]. simpl String.prefix.
  destruct (Ascii.ascii_dec a b); [apply IH|done].
Qed.
