(* ===== verification/Security.v ===== *)
(** * Security: the guards of the management plane (internal/security)

    The access list, the sliding-window rate limiter, the token checks, the
    allowlist of commands, the allowlist of metadata and the diagnostics.  The
    redaction of log lines is [Redact]'s. *)

From Stdlib Require Import ZArith Lia Ascii.
From S2P Require Import Prelude GoStrings NetIP GoText.

(** ** Access list (acl.go) *)

(** An IPv4 network with its prefix length, or an IPv6 one. *)
Inductive IPNet := Net4 (a n : Z) | Net6 (b : list Z) (n : Z).
(** [net.ParseCIDR] of IPv6 text. *)
Class CIDR6 : Type := { parse_cidr6 : string → option IPNet }.

Definition net_ParseCIDR `{CIDR6} (s : string) : option IPNet :=
  if mem_char ":"%char (chars s) then parse_cidr6 s
  else match parse_cidr4 s with Some (a, n) => Some (Net4 a n) | None => None end.

(** The mask of a prefix of [n] bits on bytes, and whether two addresses agree
    under it. *)
Fixpoint mask_bytes (n : Z) (k : nat) : list Z :=
  match k with
  | O => []
  | S k => (if 8 <=? n then 255 else if n <=? 0 then 0 else 256 - 2 ^ (8 - n)) :: mask_bytes (n - 8) k
  end.
Fixpoint agree (m a b : list Z) : bool :=
  match m, a, b with
  | x :: m, y :: a, z :: b => (Z.land y x =? Z.land z x) && agree m a b
  | _, _, _ => true
  end.
Definition IPNet_Contains (n : IPNet) (ip : IP) : bool :=
  match n, ip with
  | Net4 a k, V4 b => agree (mask_bytes k 4) (octets a) (octets b)
  | Net6 a k, V6 b => (length a =? length b)%nat && agree (mask_bytes k (length a)) a b
  | _, _ => false
  end.

Record ACL := mkACL { nets : list IPNet }.
Definition NewLoopbackACL : ACL := mkACL [Net4 (127 * 2 ^ 24) 8; Net6 (repeat 0 15 ++ [1]) 128].
Fixpoint parse_all `{CIDR6} (cidrs : list string) : option (list IPNet) :=
  match cidrs with
  | [] => Some []
  | c :: cidrs => match net_ParseCIDR c with
                  | None => None
                  | Some n => cons n <$> parse_all cidrs
                  end
  end.
Definition NewACL `{CIDR6} (cidrs : list string) : option ACL := mkACL <$> parse_all cidrs.
Definition ACL_Allow (a : ACL) (ip : option IP) : bool :=
  match ip with None => false | Some ip => existsb (fun n => IPNet_Contains n ip) (nets a) end.
Definition ACL_AllowString `{IPv6} (a : ACL) (s : string) : bool := ACL_Allow a (net_ParseIP s).

(** ** Rate limiter (acl.go) *)

Record RateLimiter := mkLimiter { hits : gmap string (list time); max : Z; window : duration }.
Definition errLimits : string := "security: invalid rate limit parameters".
Definition NewRateLimiter (max : Z) (window : duration) : result string RateLimiter :=
  if (max <=? 0) || (window <=? 0) then Err errLimits else Ok (mkLimiter ∅ max window).

Definition hits_of (l : RateLimiter) (key : string) : list time := default [] (hits l !! key).
Definition RateLimiter_Allow (l : RateLimiter) (key : string) (now : time) : RateLimiter * bool :=
  let cut := Time_Add now (- window l) in
  let kept := List.filter (fun t => Time_After t cut) (hits_of l key) in
  let set_hits h := mkLimiter (<[key := h]> (hits l)) (max l) (window l) in
  if Z.of_nat (length kept) >=? max l then (set_hits kept, false)
  else (set_hits (kept ++ [now]), true).

(** A sequence of calls: the limiter and the calls that were let through. *)
Fixpoint limiter_run (l : RateLimiter) (calls : list (string * time)) : RateLimiter * list (string * time) :=
  match calls with
  | [] => (l, [])
  | (key, now) :: calls =>
    let '(l, ok) := RateLimiter_Allow l key now in
    let '(l, passed) := limiter_run l calls in
    (l, if ok then (key, now) :: passed else passed)
  end.

(** ** Tokens (auth.go) *)

Record Token := mkToken { t_ID : string; t_NodeID : string; t_SessionID : string; ExpiresAt : time; Scope : string }.
Definition ConstantTimeCompare (a b : string) : bool := String.eqb a b.
Inductive token_error := ErrEmptyID | ErrDenied | ErrExpired | ErrScope | ErrScopeDenied.

Definition CheckToken (presented expected : Token) (presentedSecret expectedSecret : string) (now : time)
  : result token_error unit :=
  if String.eqb (t_ID presented) "" || String.eqb (t_ID expected) "" then Err ErrEmptyID
  else if negb (ConstantTimeCompare presentedSecret expectedSecret) then Err ErrDenied
  else if negb (ConstantTimeCompare (t_ID presented) (t_ID expected)) then Err ErrDenied
  else if Time_After now (ExpiresAt expected) then Err ErrExpired
  else if negb (String.eqb (Scope presented) (Scope expected)) then Err ErrScope
  else Ok tt.

Definition CheckScope (tok : Token) (want : string) (now : time) : result token_error unit :=
  if negb (String.eqb (Scope tok) want) then Err ErrScopeDenied
  else if Time_After now (ExpiresAt tok) then Err ErrExpired
  else Ok tt.

(** ** Commands (commands.go) *)

Definition allowedCommands : list string := ["wg"; "ip"; "iptables"; "ip6tables"; "netsh"; "resolvectl"].
Definition metacharacters : list ascii :=
  chars ";|&$`\" ++ [dquote; byte_of 10; byte_of 13; byte_of 0] ++ chars "()<>{}".
Inductive command_error := ErrCommand (name : string) | ErrEmptyArg | ErrMeta (a : string) | ErrTraversal (a : string).

Definition check_arg (a : string) : result command_error unit :=
  if String.eqb a "" then Err ErrEmptyArg
  else if strings_ContainsAny a (of_chars metacharacters) then Err (ErrMeta a)
  else if strings_Contains a ".." then Err (ErrTraversal a)
  else Ok tt.
Fixpoint check_args (args : list string) : result command_error unit :=
  match args with
  | [] => Ok tt
  | a :: args => match check_arg a with Err e => Err e | Ok _ => check_args args end
  end.
Definition ValidateCommand (name : string) (args : list string) : result command_error unit :=
  if negb (existsb (String.eqb name) allowedCommands) then Err (ErrCommand name) else check_args args.

(** ** Metadata (sanitize.go) *)

Definition allowedMetadata : list string :=
  ["node_id"; "wg_pubkey"; "region"; "country"; "city"; "endpoint"; "price_per_hour_dero"; "capacity_max_clients";
   "protocol_version"; "bond_dero"; "status"; "version"].

(** [[]rune(s)]: the bytes of each code point; a byte that is not part of a
    valid encoding is the replacement character. *)
Definition replacement : list ascii := map byte_of [239; 191; 189].
Definition cont (lo hi : Z) (c : ascii) : bool := (lo <=? byte_val c) && (byte_val c <=? hi).
Definition next_rune (l : list ascii) : option (list ascii * list ascii) :=
  match l with
  | [] => None
  | a :: r =>
    let x := byte_val a in
    let bad := Some (replacement, r) in
    if x <? 128 then Some ([a], r)
    else if (194 <=? x) && (x <=? 223) then
      match r with b :: r => if cont 128 191 b then Some ([a; b], r) else bad | _ => bad end
    else if (224 <=? x) && (x <=? 239) then
      match r with
      | b :: c :: r => if cont (if x =? 224 then 160 else 128) (if x =? 237 then 159 else 191) b && cont 128 191 c
                       then Some ([a; b; c], r) else bad
      | _ => bad
      end
    else if (240 <=? x) && (x <=? 244) then
      match r with
      | b :: c :: d :: r =>
        if cont (if x =? 240 then 144 else 128) (if x =? 244 then 143 else 191) b && cont 128 191 c && cont 128 191 d
        then Some ([a; b; c; d], r) else bad
      | _ => bad
      end
    else bad
  end.
Fixpoint runes_of (fuel : nat) (l : list ascii) : list (list ascii) :=
  match fuel with
  | O => []
  | S fuel => match next_rune l with None => [] | Some (c, r) => c :: runes_of fuel r end
  end.
(** A code point takes at least one byte. *)
Definition runes (s : string) : list (list ascii) := runes_of (length (chars s)) (chars s).

Definition clip (v : string) : string :=
  let v := strings_TrimSpace v in
  if (256 <? length (runes v))%nat then of_chars (concat (take 256 (runes v))) else v.
Definition allowed_key `{Unicode} (k : string) : bool := existsb (String.eqb (strings_ToLower k)) allowedMetadata.
Definition SanitizeMetadata `{Unicode} (m : gmap string string) : gmap string string :=
  map_imap (fun k v => if allowed_key k then Some (clip v) else None) m.

(** ** Diagnostics (diagnostics.go) *)

Inductive State := OK | WARNING | FAIL | UNKNOWN.
Record Check := mkCheck { Component : string; c_State : State; Detail : string }.
Record Inputs := mkInputs {
  TunnelUp : bool; TunnelState : string; ExitIP : string; ExpectedExitIP : string; DNSRouted : bool; DNSMode : string;
  IPv6Blocked : bool; IPv6Present : bool; KillSwitch : string; NodeBonded : bool; HopCount : Z; ThreeHopClaimed : bool }.

Definition checkTunnel (i : Inputs) : Check :=
  if TunnelUp i then mkCheck "tunnel" OK ("tunnel is UP (" +:+ TunnelState i +:+ ")")
  else mkCheck "tunnel" FAIL ("tunnel is not up (" +:+ TunnelState i +:+ "); traffic is not routed through VeilNet").
Definition checkExitIP (i : Inputs) : Check :=
  if String.eqb (ExitIP i) "" then mkCheck "exit IP" UNKNOWN "exit IP not yet observed; re-check after handshake"
  else if negb (String.eqb (ExpectedExitIP i) "") && negb (String.eqb (ExitIP i) (ExpectedExitIP i)) then
    mkCheck "exit IP" FAIL ("observed exit " +:+ ExitIP i +:+ " differs from expected " +:+ ExpectedExitIP i)
  else mkCheck "exit IP" OK ("traffic exits via " +:+ ExitIP i).
Definition checkDNS `{Unicode} (i : Inputs) : Check :=
  if DNSRouted i then mkCheck "dns route" OK ("DNS resolves via the tunnel (" +:+ DNSMode i +:+ ")")
  else if String.eqb (strings_ToUpper (DNSMode i)) "SYSTEM" then
    mkCheck "dns route" WARNING "DNS uses the system resolver with your explicit consent; sites you resolve may be visible to the local network"
  else mkCheck "dns route" FAIL "DNS is not routed through the tunnel; fix before relying on exit IP".
Definition checkIPv6 (i : Inputs) : Check :=
  if IPv6Blocked i then mkCheck "ipv6" OK "IPv6 is routed through the tunnel or blocked; no bypass path"
  else if IPv6Present i then
    mkCheck "ipv6" FAIL "an unblocked IPv6 path exists outside the tunnel; traffic may bypass the exit"
  else mkCheck "ipv6" WARNING "IPv6 state unverified on this network; treated as untrusted until re-check".
Definition dash : string := of_chars (map byte_of [226; 128; 148]).
Definition checkKillSwitch `{Unicode} (i : Inputs) : Check :=
  let k := strings_ToUpper (KillSwitch i) in
  if String.eqb k "ALWAYS_ON" then
    mkCheck "killswitch" OK "kill switch ALWAYS_ON: traffic is blocked unless the tunnel is up"
  else if String.eqb k "ON_WHILE_CONNECTED" || String.eqb k "ON" then
    mkCheck "killswitch" WARNING "kill switch guards only while connected; disconnects outside a session are not blocked"
  else mkCheck "killswitch" WARNING ("kill switch is OFF; leaks are possible if the tunnel drops " +:+ dash
                                     +:+ " enable ALWAYS_ON for full blocking").
Definition checkNode (i : Inputs) : Check :=
  if NodeBonded i then mkCheck "node" OK "exit node presents the expected bond/identity"
  else mkCheck "node" WARNING "exit node bond not verified; connection works but node identity is unconfirmed".
Definition checkMultihop (i : Inputs) : Check :=
  if ThreeHopClaimed i then
    mkCheck "multihop" WARNING "3-hop display requested but 3-hop is disabled in this build; showing standard 2-hop state"
  else if HopCount i =? 2 then
    mkCheck "multihop" OK "2-hop circuit: entry knows your IP, exit knows the destination (see observability notes)"
  else if HopCount i =? 1 then
    mkCheck "multihop" WARNING "single-hop fallback: the lone node sees both your IP and destination; rotate to 2-hop when nodes are available"
  else mkCheck "multihop" UNKNOWN "no circuit established yet".
Definition RunDiagnostics `{Unicode} (i : Inputs) : list Check :=
  [checkTunnel i; checkExitIP i; checkDNS i; checkIPv6 i; checkKillSwitch i; checkNode i; checkMultihop i].

(** ** Lemmas *)

(** *** Lists of times *)

Lemma filter_weaker (c d : Z) l : c ≤ d →
  List.filter (fun t => Time_After t d) (List.filter (fun t => Time_After t c) l) = List.filter (fun t => Time_After t d) l.
Proof.
  intros Hcd. induction l as [|t l IH]; [done|]. cbn. unfold Time_After in *. destruct (Z.ltb_spec c t), (Z.ltb_spec d t); cbn; try lia.
  - destruct (Z.ltb_spec d t); [by rewrite IH|lia].
  - destruct (Z.ltb_spec d t); [lia|done].
  - done.
Qed.
Lemma filter_length_impl {A} (p q : A → bool) l : (∀ x, x ∈ l → p x = true → q x = true) →
  (length (List.filter p l) ≤ length (List.filter q l))%nat.
Proof.
  induction l as [|x l IH]; intros Hpq; [done|]. cbn. assert (length (List.filter p l) ≤ length (List.filter q l))%nat as Hl
    by (apply IH; intros y Hy; apply Hpq; by right).
  pose proof (Hpq x ltac:(by left)) as Hx. destruct (p x); [rewrite (Hx eq_refl); cbn; lia|]. destruct (q x); cbn; lia.
Qed.

(** The times of one key, and those of a window. *)
Definition times (key : string) (log : list (string * time)) : list time :=
  map snd (List.filter (fun e => String.eqb e.1 key) log).
Definition within (a w : Z) (l : list time) : list time := List.filter (fun t => (a <=? t) && (t <? a + w)) l.

Lemma times_app key l k : times key (l ++ k) = times key l ++ times key k.
Proof. unfold times. by rewrite List.filter_app, map_app. Qed.
Lemma times_snoc key log k t : times key (log ++ [(k, t)]) = times key log ++ (if String.eqb k key then [t] else []).
Proof. rewrite times_app. unfold times at 2. cbn. by destruct (String.eqb k key). Qed.

(** *** The limiter

    What it has let through so far is [log], its last call was at [last]. *)
Record limited (l : RateLimiter) (log : list (string * time)) (last : time) : Prop := {
  li_window : 0 < window l;
  li_old : Forall (fun e => e.2 ≤ last) log;
  li_hits key : ∃ c, c ≤ last - window l ∧ hits_of l key = List.filter (fun t => Time_After t c) (times key log);
  li_max key a : Z.of_nat (length (within a (window l) (times key log))) ≤ max l
}.

(** The verdict in terms of the log. *)
Definition recent (l : RateLimiter) (log : list (string * time)) (key : string) (now : time) : Z :=
  Z.of_nat (length (List.filter (fun t => Time_After t (now - window l)) (times key log))).

Lemma kept_hits l log last key now : limited l log last → last ≤ now →
  List.filter (fun t => Time_After t (Time_Add now (- window l))) (hits_of l key)
  = List.filter (fun t => Time_After t (now - window l)) (times key log).
Proof.
  intros Hl Hn. destruct (li_hits _ _ _ Hl key) as (c & Hc & ->). unfold Time_Add. rewrite Z.add_opp_r.
  apply filter_weaker. lia.
Qed.

Lemma hits_insert m k h mx w key : hits_of (mkLimiter (<[k := h]> m) mx w) key = if String.eqb k key then h else default [] (m !! key).
Proof.
  unfold hits_of. cbn. destruct (String.eqb_spec k key) as [->|Hk]; [by rewrite lookup_insert_eq|by rewrite lookup_insert_ne].
Qed.

Lemma allow_limited l log last key now : limited l log last → last ≤ now →
  (RateLimiter_Allow l key now).2 = (recent l log key now <? max l)
  ∧ max (RateLimiter_Allow l key now).1 = max l ∧ window (RateLimiter_Allow l key now).1 = window l
  ∧ limited (RateLimiter_Allow l key now).1 (log ++ if (RateLimiter_Allow l key now).2 then [(key, now)] else []) now.
Proof.
  intros Hl Hn. pose proof (kept_hits l log last key now Hl Hn) as Hk. destruct Hl as [Hw Ho Hh Hm].
  assert (Forall (fun e => e.2 ≤ now) log) as Ho' by (eapply Forall_impl; [exact Ho|]; cbn; intros e He; lia).
  unfold RateLimiter_Allow, recent. rewrite Hk. set (kept := List.filter _ (times key log)).
  destruct (Z.geb_spec (Z.of_nat (length kept)) (max l)) as [Hfull|Hroom]; cbn [fst snd].
  - rewrite app_nil_r. split; [symmetry; by apply Z.ltb_ge|]. split; [done|]. split; [done|]. split; cbn [window max]; [done|done| |exact Hm].
    intros k. rewrite hits_insert. destruct (String.eqb_spec key k) as [<-|_].
    + exists (now - window l). split; [lia|done].
    + destruct (Hh k) as (c & Hc & Hx). exists c. split; [lia|exact Hx].
  - split; [symmetry; by apply Z.ltb_lt|]. split; [done|]. split; [done|]. split; cbn [window max].
    + done.
    + apply Forall_app. split; [done|]. by repeat constructor.
    + intros k. rewrite hits_insert, times_snoc. destruct (String.eqb_spec key k) as [<-|_].
      * exists (now - window l). split; [lia|]. rewrite List.filter_app. cbn. unfold Time_After at 2.
        by rewrite (proj2 (Z.ltb_lt _ _)) by lia.
      * destruct (Hh k) as (c & Hc & Hx). exists c. split; [lia|]. rewrite app_nil_r. exact Hx.
    + intros k a. rewrite times_snoc. destruct (String.eqb_spec key k) as [<-|_]; [|rewrite app_nil_r; apply Hm].
      unfold within. rewrite List.filter_app, length_app. cbn [List.filter].
      specialize (Hm key a). set (w := List.filter _ (times key log)). change (Z.of_nat (length w) ≤ max l) in Hm.
      destruct (_ && _) eqn:Ew; cbn [length]; [|lia].
      apply andb_true_iff in Ew as [Ea%Z.leb_le Eb%Z.ltb_lt].
      assert (length w ≤ length kept)%nat; [|lia].
      apply filter_length_impl. intros t _ Ht. apply andb_true_iff in Ht as [Ht%Z.leb_le _]. apply Z.ltb_lt. lia.
Qed.

(** Calls in the order of the clock. *)
Fixpoint ordered (last : time) (calls : list (string * time)) : Prop :=
  match calls with [] => True | (_, now) :: calls => last ≤ now ∧ ordered now calls end.

Lemma run_limited calls : ∀ l log last, limited l log last → ordered last calls →
  ∃ last', limited (limiter_run l calls).1 (log ++ (limiter_run l calls).2) last'
  ∧ max (limiter_run l calls).1 = max l ∧ window (limiter_run l calls).1 = window l
  ∧ (∀ now, (∀ e, e ∈ calls → e.2 ≤ now) → last ≤ now → last' ≤ now).
Proof.
  induction calls as [|[key now] calls IH]; intros l log last Hl Hord.
  { exists last. cbn. rewrite app_nil_r. by split_and!. }
  destruct Hord as [Hn Hord]. destruct (allow_limited l log last key now Hl Hn) as (_ & Hm & Hw & Hl').
  cbn. destruct (RateLimiter_Allow l key now) as [l1 ok] eqn:Ea. cbn [fst snd] in *.
  destruct (IH l1 _ now Hl' Hord) as (last' & H1 & H2 & H3 & H4).
  destruct (limiter_run l1 calls) as [l2 passed] eqn:Er. cbn [fst snd] in *. exists last'.
  rewrite <- Hm, <- Hw, <- H2, <- H3. split_and!; [|done|done|].
  - rewrite <- app_assoc in H1. by destruct ok.
  - intros x Hx _. apply H4; [intros e He; apply Hx; by right|]. apply (Hx (key, now)). by left.
Qed.

(** *** Loopback *)

Lemma agree_full a b : Forall is_byte a → Forall is_byte b → length a = length b →
  agree (repeat 255 (length a)) a b = true ↔ a = b.
Proof.
  revert b. induction a as [|x a IH]; intros [|y b] Ha Hb Hl; try done. cbn.
  apply Forall_cons in Ha as [Hx Ha]. apply Forall_cons in Hb as [Hy Hb]. injection Hl as Hl.
  change 255 with (Z.ones 8). rewrite !Z.land_ones by lia. unfold is_byte in *. rewrite !Z.mod_small by lia.
  rewrite andb_true_iff, Z.eqb_eq, (IH b) by done. split; [by intros [-> ->]|by intros [= -> ->]].
Qed.

(** Sixteen bytes. *)
Definition ip_wf (ip : IP) : Prop := match ip with V4 a => 0 ≤ a < 2 ^ 32 | V6 b => length b = 16%nat ∧ Forall is_byte b end.

Lemma loopback_allows ip : ip_wf ip → ACL_Allow NewLoopbackACL (Some ip) = IP_IsLoopback ip.
Proof.
  destruct ip as [a|b]; intros Hw; cbn [ACL_Allow existsb nets NewLoopbackACL IPNet_Contains IP_IsLoopback].
  - rewrite orb_false_r. unfold octets. cbn [mask_bytes agree]. cbn - [Z.land Z.div Z.modulo Z.pow].
    rewrite !Z.land_0_r, !Z.eqb_refl, !andb_true_r. change (127 * 2 ^ 24) with 2130706432. cbn in Hw.
    change 255 with (Z.ones 8). rewrite !Z.land_ones by lia. rewrite Z.mod_mod by lia.
    rewrite Z.mod_mod by lia. rewrite (Z.mod_small (a / 2 ^ 24)).
    2: { split; [apply Z.div_pos; lia|]. apply Z.div_lt_upper_bound; lia. }
    change (2130706432 / 2 ^ 24 mod 2 ^ 8) with 127. apply Z.eqb_sym.
  - destruct Hw as [Hl Hb]. rewrite orb_false_r. cbn [orb]. apply eq_true_iff_eq. rewrite bool_decide_eq_true.
    change (mask_bytes 128 (length (repeat 0 15 ++ [1]))) with (repeat 255 (length (repeat 0 15 ++ [1]))).
    rewrite Hl. cbn [length repeat app Nat.eqb andb].
    pose proof (agree_full (repeat 0 15 ++ [1]) b) as Hx. cbn [length repeat app] in Hx. rewrite Hx; [by split|..|done|by rewrite Hl].
    repeat constructor; unfold is_byte; lia.
Qed.

(** *** Commands *)

Definition safe_arg (a : string) : Prop :=
  a ≠ "" ∧ (∀ c, c ∈ chars a → c ∉ metacharacters) ∧ strings_Contains a ".." = false.
Lemma contains_any_false s cs : strings_ContainsAny s (of_chars cs) = false ↔ ∀ c, c ∈ chars s → c ∉ cs.
Proof.
  unfold strings_ContainsAny. rewrite chars_of_chars. split.
  - intros Hf c Hc. apply mem_char_false. destruct (mem_char c cs) eqn:Em; [|done]. rewrite <- Hf. symmetry. apply existsb_exists.
    exists c. split; [by apply list_elem_of_In|done].
  - intros Hc. apply not_true_iff_false. intros (c & Hin & Hm)%existsb_exists. apply list_elem_of_In in Hin.
    specialize (Hc c Hin). apply mem_char_false in Hc. congruence.
Qed.
Lemma check_arg_ok a : check_arg a = Ok tt ↔ safe_arg a.
Proof.
  unfold check_arg, safe_arg. rewrite <- contains_any_false. destruct (String.eqb_spec a "") as [->|Hne]; [naive_solver|].
  destruct (strings_ContainsAny _ _), (strings_Contains a ".."); naive_solver.
Qed.
Lemma check_args_ok l : check_args l = Ok tt ↔ Forall safe_arg l.
Proof.
  induction l as [|a l IH]; [by split; [constructor|]|]. cbn. rewrite Forall_cons, <- check_arg_ok, <- IH.
  destruct (check_arg a) as [[]|e]; naive_solver.
Qed.

(** *** Code points *)

Lemma cont_in lo hi c : cont lo hi c = true → lo ≤ byte_val c ≤ hi.
Proof. unfold cont. rewrite andb_true_iff, !Z.leb_le. done. Qed.

(** The bytes of a code point are read again as that code point, whatever
    follows them. *)
Lemma next_rune_again l c r : next_rune l = Some (c, r) →
  (∀ k, next_rune (c ++ k) = Some (c, k)) ∧ c ≠ [] ∧ (length r < length l)%nat.
Proof.
  assert (∀ k, next_rune (replacement ++ k) = Some (replacement, k)) as Hrep by done.
  destruct l as [|a l]; [done|]. unfold next_rune. cbv zeta.
  assert (Hbad : ∀ (c r : list ascii), Some (replacement, l) = Some (c, r) →
    (∀ k, next_rune (c ++ k) = Some (c, k)) ∧ c ≠ [] ∧ (length r < length (a :: l))%nat) by (intros ? ? [= <- <-]; split_and!; [exact Hrep|done|cbn; lia]).
  destruct (byte_val a <? 128) eqn:E1.
  { intros [= <- <-]. split_and!; [|done|cbn; lia]. intros k. cbn. by rewrite E1. }
  destruct ((194 <=? byte_val a) && (byte_val a <=? 223)) eqn:E2.
  { destruct l as [|b l]; [apply Hbad|]. destruct (cont 128 191 b) eqn:Eb; [|apply Hbad].
    intros [= <- <-]. split_and!; [|done|cbn; lia]. intros k. cbn. by rewrite E1, E2, Eb. }
  destruct ((224 <=? byte_val a) && (byte_val a <=? 239)) eqn:E3.
  { destruct l as [|b [|d l]]; [apply Hbad..|]. destruct (cont _ _ b && cont 128 191 d) eqn:Eb; [|apply Hbad].
    intros [= <- <-]. split_and!; [|done|cbn; lia]. intros k. cbn. by rewrite E1, E2, E3, Eb. }
  destruct ((240 <=? byte_val a) && (byte_val a <=? 244)) eqn:E4; [|apply Hbad].
  destruct l as [|b [|d [|e l]]]; [apply Hbad..|]. destruct (cont _ _ b && cont 128 191 d && cont 128 191 e) eqn:Eb; [|apply Hbad].
  intros [= <- <-]. split_and!; [|done|cbn; lia]. intros k. cbn. by rewrite E1, E2, E3, E4, Eb.
Qed.
Definition stable_rune (c : list ascii) : Prop := (∀ k, next_rune (c ++ k) = Some (c, k)) ∧ c ≠ [].

Lemma runes_stable fuel l : Forall stable_rune (runes_of fuel l).
Proof.
  revert l. induction fuel as [|fuel IH]; intros l; cbn; [constructor|].
  destruct (next_rune l) as [[c r]|] eqn:En; [|constructor]. constructor; [|apply IH].
  destruct (next_rune_again _ _ _ En) as (? & ? & _). by split.
Qed.
Lemma runes_concat cs fuel : Forall stable_rune cs → (length cs ≤ fuel)%nat → runes_of fuel (concat cs) = cs.
Proof.
  intros Hs. revert fuel. induction Hs as [|c cs [Hc _] _ IH]; intros fuel Hf; [by destruct fuel|].
  destruct fuel as [|fuel]; [cbn in Hf; lia|]. cbn. rewrite Hc. f_equal. apply IH. cbn in Hf. lia.
Qed.
Lemma runes_len_concat cs : Forall stable_rune cs → (length cs ≤ length (concat cs))%nat.
Proof.
  induction 1 as [|c cs [_ Hc] _ IH]; [done|]. cbn. rewrite length_app. destruct c; [done|]. cbn. lia.
Qed.

Lemma clip_bound v : (length (runes (clip v)) ≤ 256)%nat.
Proof.
  unfold clip. destruct (Nat.ltb_spec 256 (length (runes (strings_TrimSpace v)))) as [Hl|Hl]; [|done].
  set (cs := take 256 (runes (strings_TrimSpace v))).
  assert (Forall stable_rune cs) as Hs by apply Forall_take, runes_stable.
  unfold runes. rewrite chars_of_chars, runes_concat by (done || by apply runes_len_concat).
  subst cs. rewrite length_take. lia.
Qed.

(** ** Properties *)

(** C39: a window holds no more than the limit.  From a new limiter and calls
    in the order of the clock, for any keys: in every span of one window at most
    [max] calls of a key were let through, wherever the span begins; and the
    next call of a key is let through exactly when fewer than [max] of its calls
    were let through in the window that ends with it, so other keys, and calls
    that were refused, do not count. *)
Theorem rate_limit_holds mx w l0 calls t0 : NewRateLimiter mx w = Ok l0 → ordered t0 calls →
  let log := (limiter_run l0 calls).2 in
  (∀ key a, Z.of_nat (length (within a w (times key log))) ≤ mx)
  ∧ ∀ key now, t0 ≤ now → (∀ e, e ∈ calls → e.2 ≤ now) →
    (RateLimiter_Allow (limiter_run l0 calls).1 key now).2
    = (Z.of_nat (length (List.filter (fun t => Time_After t (now - w)) (times key log))) <? mx).
Proof.
  unfold NewRateLimiter. destruct (Z.leb_spec mx 0), (Z.leb_spec w 0); cbn [orb]; [discriminate..|].
  intros [= <-] Hord. set (log := (limiter_run _ calls).2).
  assert (limited (mkLimiter ∅ mx w) [] t0) as Hl.
  { split; cbn; [lia|constructor| |lia]. intros key. exists (t0 - w). split; [lia|done]. }
  destruct (run_limited calls _ _ _ Hl Hord) as (last' & Hr & Hm & Hw & Hlast). cbn [app] in Hr. fold log in Hr.
  cbn [max window] in Hm, Hw. split.
  - intros key a. pose proof (li_max _ _ _ Hr key a) as Hx. by rewrite Hm, Hw in Hx.
  - intros key now Ht Hc. destruct (allow_limited _ _ _ key now Hr (Hlast now Hc Ht)) as (-> & _). unfold recent. by rewrite Hm, Hw.
Qed.

(** the default access list is the loopback test: a text is let through exactly
    when it is the address of the own machine, and a text that is no address is
    refused. *)
Theorem loopback_only `{IPv6} s : (∀ ip, net_ParseIP s = Some ip → ip_wf ip) →
  ACL_AllowString NewLoopbackACL s = match net_ParseIP s with Some ip => IP_IsLoopback ip | None => false end.
Proof.
  intros Hw. unfold ACL_AllowString. destruct (net_ParseIP s) as [ip|]; [|done]. by apply loopback_allows, Hw.
Qed.

(** a token passes exactly when secret, id and scope agree and it has not
    expired; the node and the session it names are not compared. *)
Theorem check_token_exact p e ps es now : CheckToken p e ps es now = Ok tt ↔
  t_ID p = t_ID e ∧ t_ID p ≠ "" ∧ ps = es ∧ now ≤ ExpiresAt e ∧ Scope p = Scope e.
Proof.
  unfold CheckToken, ConstantTimeCompare, Time_After.
  destruct (String.eqb_spec (t_ID p) "") as [|Hp]; [naive_solver|]. destruct (String.eqb_spec (t_ID e) "") as [|He]; cbn [orb]; [naive_solver congruence|].
  destruct (String.eqb_spec ps es); cbn [negb]; [|naive_solver]. destruct (String.eqb_spec (t_ID p) (t_ID e)); cbn [negb]; [|naive_solver].
  destruct (Z.ltb_spec (ExpiresAt e) now); [split; [done|]; intros (_ & _ & _ & ? & _); lia|].
  destruct (String.eqb_spec (Scope p) (Scope e)); cbn [negb]; naive_solver.
Qed.

(** a command passes exactly when its name is on the list and no argument is
    empty, has one of the listed characters or two dots in a row. *)
Theorem validate_command_exact name args :
  ValidateCommand name args = Ok tt ↔ name ∈ allowedCommands ∧ Forall safe_arg args.
Proof.
  unfold ValidateCommand. rewrite <- check_args_ok. destruct (existsb (String.eqb name) allowedCommands) eqn:Ee; cbn [negb].
  - apply existsb_exists in Ee as (x & Hx & ->%String.eqb_eq). apply list_elem_of_In in Hx. by split; [|intros [_ ?]].
  - split; [done|]. intros [Hn _]. exfalso.
    assert (existsb (String.eqb name) allowedCommands = true); [|congruence].
    apply existsb_exists. exists name. split; [by apply list_elem_of_In|apply String.eqb_refl].
Qed.

(** what is left of metadata: the listed keys, whatever their case, each with
    its value trimmed, cut after 256 code points. *)
Theorem metadata_sanitized `{Unicode} m k :
  SanitizeMetadata m !! k = (if allowed_key k then clip <$> m !! k else None)
  ∧ ∀ v, SanitizeMetadata m !! k = Some v → (length (runes v) ≤ 256)%nat.
Proof.
  assert (SanitizeMetadata m !! k = (if allowed_key k then clip <$> m !! k else None)) as E.
  { unfold SanitizeMetadata. rewrite map_lookup_imap. destruct (m !! k); cbn - [allowed_key]; by destruct (allowed_key k). }
  split; [exact E|]. intros v. rewrite E. destruct (allowed_key k); [|done]. destruct (m !! k); [|done]. intros [= <-]. apply clip_bound.
Qed.

(** the report is all OK exactly in the one state in which nothing is open. *)
Theorem diagnostics_all_ok `{Unicode} i : Forall (fun c => c_State c = OK) (RunDiagnostics i) ↔
  TunnelUp i = true ∧ ExitIP i ≠ "" ∧ (ExpectedExitIP i = "" ∨ ExitIP i = ExpectedExitIP i) ∧ DNSRouted i = true
  ∧ IPv6Blocked i = true ∧ strings_ToUpper (KillSwitch i) = "ALWAYS_ON" ∧ NodeBonded i = true
  ∧ ThreeHopClaimed i = false ∧ HopCount i = 2.
Proof.
  unfold RunDiagnostics. rewrite !Forall_cons, Forall_nil.
  assert (c_State (checkTunnel i) = OK ↔ TunnelUp i = true) as -> by (unfold checkTunnel; by destruct (TunnelUp i)).
  assert (c_State (checkExitIP i) = OK ↔ ExitIP i ≠ "" ∧ (ExpectedExitIP i = "" ∨ ExitIP i = ExpectedExitIP i)) as ->.
  { unfold checkExitIP. destruct (String.eqb_spec (ExitIP i) ""), (String.eqb_spec (ExpectedExitIP i) ""),
      (String.eqb_spec (ExitIP i) (ExpectedExitIP i)); cbn; naive_solver. }
  assert (c_State (checkDNS i) = OK ↔ DNSRouted i = true) as ->
    by (unfold checkDNS; destruct (DNSRouted i); [done|]; by destruct (String.eqb _ _)).
  assert (c_State (checkIPv6 i) = OK ↔ IPv6Blocked i = true) as ->
    by (unfold checkIPv6; destruct (IPv6Blocked i); [done|]; by destruct (IPv6Present i)).
  assert (c_State (checkKillSwitch i) = OK ↔ strings_ToUpper (KillSwitch i) = "ALWAYS_ON") as ->.
  { unfold checkKillSwitch. destruct (String.eqb_spec (strings_ToUpper (KillSwitch i)) "ALWAYS_ON"); [by split|].
    destruct (_ || _); by split. }
  assert (c_State (checkNode i) = OK ↔ NodeBonded i = true) as -> by (unfold checkNode; by destruct (NodeBonded i)).
  assert (c_State (checkMultihop i) = OK ↔ ThreeHopClaimed i = false ∧ HopCount i = 2) as ->.
  { unfold checkMultihop. destruct (ThreeHopClaimed i); [by split; [|intros []]|].
    destruct (Z.eqb_spec (HopCount i) 2); [by split|]. destruct (_ =? 1); cbn; naive_solver. }
  naive_solver.
Qed.

(** ** Witnesses and examples *)

#[local] Existing Instances ascii_unicode no_ipv6.

Definition two_a_second : RateLimiter := mkLimiter ∅ 2 second.
Definition burst : list (string * time) := [("k", 0); ("k", 10); ("k", 20); ("other", 20); ("k", second); ("k", second + 5)].

Lemma rate_limit_holds_witness :
  (limiter_run two_a_second burst).2 = [("k", 0); ("k", 10); ("other", 20); ("k", second)]
  ∧ Z.of_nat (length (within 5 second (times "k" (limiter_run two_a_second burst).2))) ≤ 2
  ∧ (RateLimiter_Allow (limiter_run two_a_second burst).1 "k" (second + 10)).2 = true.
Proof.
  assert (ordered 0 burst) as Ho by (vm_compute; repeat split; discriminate).
  destruct (rate_limit_holds 2 second two_a_second burst 0 eq_refl Ho) as [Hb Hv].
  split; [vm_compute; reflexivity|]. split; [apply Hb|]. rewrite Hv; [vm_compute; reflexivity|discriminate|].
  intros e He. repeat (apply elem_of_cons in He as [->|He]; [discriminate|]). by apply elem_of_nil in He.
Defined.

Lemma loopback_only_witness : ACL_AllowString NewLoopbackACL "127.9.0.1" = true ∧ ACL_AllowString NewLoopbackACL "128.0.0.1" = false.
Proof.
  split; rewrite loopback_only by (intros ip [= <-]; vm_compute; (split; [discriminate|reflexivity])); vm_compute; reflexivity.
Defined.

(** The secret of one session opens another, of another node. *)
Example other_session_passes :
  CheckToken (mkToken "t" "n2" "s2" 0 "session:use") (mkToken "t" "n1" "s1" 9 "session:use") "x" "x" 5 = Ok tt.
Proof. reflexivity. Qed.

(** A single quote, a wildcard, a tilde and a blank are not among the
    characters that are refused. *)
Example shell_characters_pass : ValidateCommand "ip" ["'"; "*"; "~"; "a b"; "!x"; "#"] = Ok tt
  ∧ ValidateCommand "sh" [] = Err (ErrCommand "sh") ∧ ValidateCommand "wg" ["a;b"] = Err (ErrMeta "a;b").
Proof. vm_compute. split_and!; reflexivity. Qed.

(** Two spellings of a key both stay. *)
Example both_spellings_stay :
  let m : gmap string string := <["City" := " Bonn "]> (<["city" := "Köln"]> (<["note" := "call me"]> ∅)) in
  SanitizeMetadata m = <["City" := "Bonn"]> (<["city" := "Köln"]> ∅).
Proof. vm_compute. reflexivity. Qed.

(** A byte that is no text counts as one code point and is replaced. *)
Example bad_byte_replaced : map (map byte_val) (runes (of_chars (map byte_of [65; 195; 65; 195; 182]))) = [[65]; [239; 191; 189]; [65]; [195; 182]].
Proof. vm_compute. reflexivity. Qed.
