(* ===== verification/Redact.v ===== *)
(** * Redact: secrets in log lines (internal/security/redact.go)

    The three patterns of the package and the replacements made with them.  A
    pattern is a term of [re]; [run] is the matcher of Go's regexp package on the
    constructs they use (leftmost, first alternative, greedy), and [matches] says
    what a match is.  Text is matched byte by byte: every class is ASCII but
    [\S], which holds of each byte of a longer rune. *)

From Stdlib Require Import ZArith Lia Ascii.
From S2P Require Import Prelude GoStrings GoText.

(** ** Regular expressions *)

(** [\b], one rune in any of its spellings, a greedy run of a class, sequence,
    alternative and the capturing group. *)
Inductive re :=
| Bound
| Lit (spellings : list (list ascii))
| Rep (c : ascii → bool) (lo : nat) (hi : option nat)
| Cat (x y : re)
| Alt (x y : re)
| Group (x : re).

Definition between (lo hi : Z) (c : ascii) : bool := (lo <=? byte_val c) && (byte_val c <=? hi).
Definition one_of (s : string) (c : ascii) : bool := existsb (Ascii.eqb c) (chars s).
Definition alnum (c : ascii) : bool := between 48 57 c || between 65 90 c || between 97 122 c.
Definition word (c : ascii) : bool := alnum c || one_of "_" c.
Definition hex_digit (c : ascii) : bool := between 48 57 c || between 65 70 c || between 97 102 c.
Definition space (c : ascii) : bool := between 9 10 c || between 12 13 c || one_of " " c.

(** Whether the text on one side of a place, nearest first, begins with a
    character of a word. *)
Definition word_at (l : list ascii) : bool := match l with c :: _ => word c | [] => false end.

(** The length of the longest run of a class, up to a limit. *)
Fixpoint run_length (c : ascii → bool) (l : list ascii) : nat :=
  match l with x :: l => if c x then S (run_length c l) else 0%nat | [] => 0%nat end.
Definition limited (n : nat) (hi : option nat) : nat := match hi with Some h => Nat.min n h | None => n end.

Fixpoint begins (t a : list ascii) : bool :=
  match t, a with
  | [], _ => true
  | x :: t, y :: a => Ascii.eqb x y && begins t a
  | _ :: _, [] => false
  end.

Section matcher.
Context {X : Type}.

(** The first of the counts [n], [n - 1], ... not under [lo] that succeeds. *)
Fixpoint downto (lo n : nat) (k : nat → option X) : option X :=
  if (n <? lo)%nat then None
  else match k n with
       | Some x => Some x
       | None => match n with O => None | S n => downto lo n k end
       end.

(** [b] is what stands before the place, nearest first, [a] what stands after it
    and [g] the group captured last. *)
Fixpoint run (r : re) (b a g : list ascii) (k : list ascii → list ascii → list ascii → option X) : option X :=
  match r with
  | Bound => if xorb (word_at b) (word_at a) then k b a g else None
  | Lit spellings =>
    (fix first (l : list (list ascii)) : option X :=
       match l with
       | [] => None
       | t :: l => match (if begins t a then k (rev t ++ b) (drop (length t) a) g else None) with
                   | Some x => Some x | None => first l end
       end) spellings
  | Rep c lo hi =>
    downto lo (limited (run_length c a) hi) (fun n => k (rev (take n a) ++ b) (drop n a) g)
  | Cat x y => run x b a g (fun b a g => run y b a g k)
  | Alt x y => match run x b a g k with Some v => Some v | None => run y b a g k end
  | Group x => run x b a g (fun b' a' _ => k b' a' (rev (take (length b' - length b) b')))
  end.
End matcher.

(** The match at a place: its text, its group and the rest. *)
Definition match_at (r : re) (b a : list ascii) : option (list ascii * list ascii * list ascii) :=
  run r b a [] (fun b' a' g => Some (rev (take (length b' - length b) b'), g, a')).

(** [ReplaceAll...]: from left to right, going on behind each match.  The
    patterns below match no empty text. *)
Fixpoint replace_from (fuel : nat) (r : re) (f : list ascii → list ascii → list ascii) (b a : list ascii) : list ascii :=
  match fuel with
  | O => a
  | S fuel =>
    match match_at r b a with
    | Some (m, g, a') => f m g ++ replace_from fuel r f (rev m ++ b) a'
    | None => match a with [] => [] | c :: a => c :: replace_from fuel r f (c :: b) a end
    end
  end.
Definition ReplaceAll (r : re) (f : list ascii → list ascii → list ascii) (s : list ascii) : list ascii :=
  replace_from (S (length s)) r f [] s.

(** ** The patterns *)

Definition redacted : list ascii := chars "[REDACTED]".

(** A letter under (?i), with the two runes outside ASCII that fold to one: the
    Kelvin sign and the long s. *)
Definition fold_letter (c : ascii) : re :=
  Lit ([[c]; [upper_char c]]
       ++ (if Ascii.eqb c "k"%char then [map byte_of [226; 132; 170]] else [])
       ++ (if Ascii.eqb c "s"%char then [map byte_of [197; 191]] else [])).
Fixpoint fold_word (l : list ascii) (r : re) : re :=
  match l with [] => r | c :: l => Cat (fold_letter c) (fold_word l r) end.
Definition empty_re : re := Rep (fun _ => false) 0 (Some 0%nat).
Definition keyword (s : string) : re := fold_word (chars s) empty_re.

Definition b64blob : re :=
  Cat Bound (Cat (Rep (fun c => alnum c || one_of "_-" c) 40 None) (Cat (Rep (one_of "=") 0 (Some 2%nat)) Bound)).
Definition hex64 : re := Cat Bound (Cat (Rep hex_digit 64 (Some 64%nat)) Bound).
Definition keyValue : re :=
  Cat Bound
    (Cat (Group (Alt (fold_word (chars "private") (Cat (Rep (one_of "_-") 0 (Some 1%nat)) (keyword "key")))
            (Alt (keyword "secret") (Alt (keyword "token") (Alt (keyword "auth") (Alt (keyword "password")
            (Alt (keyword "psk") (keyword "presharedkey"))))))))
    (Cat (Rep space 0 None) (Cat (Rep (one_of ":=") 1 (Some 1%nat)) (Cat (Rep space 0 None)
         (Rep (fun c => negb (space c)) 1 None))))).

Definition count_char (c : ascii) (l : list ascii) : nat := length (List.filter (Ascii.eqb c) l).
Definition hide_blob (m _ : list ascii) : list ascii :=
  if (2 <=? count_char "."%char m)%nat || (8 <? count_char "-"%char m)%nat then m else redacted.

Definition Redact (s : string) : string :=
  let l := ReplaceAll keyValue (fun _ g => g ++ "="%char :: redacted) (chars s) in
  let l := ReplaceAll b64blob hide_blob l in
  of_chars (ReplaceAll hex64 (fun _ _ => redacted) l).

(** What it is to match: [r] matches [m] standing behind [b] and before [a]. *)
Fixpoint matches (r : re) (b m a : list ascii) : Prop :=
  match r with
  | Bound => m = [] ∧ word_at b ≠ word_at a
  | Lit spellings => m ∈ spellings
  | Rep c lo hi => Forall (fun x => c x = true) m ∧ (lo ≤ length m)%nat ∧ ∀ h, hi = Some h → (length m ≤ h)%nat
  | Cat x y => ∃ m1 m2, m = m1 ++ m2 ∧ matches x b m1 (m2 ++ a) ∧ matches y (rev m1 ++ b) m2 a
  | Alt x y => matches x b m a ∨ matches y b m a
  | Group x => matches x b m a
  end.

(** A word of 64 hexadecimal digits. *)
Definition secret64 (b m a : list ascii) : Prop :=
  Forall (fun c => hex_digit c = true) m ∧ length m = 64%nat ∧ word_at b = false ∧ word_at a = false.

(** ** Lemmas *)

Lemma begins_spec t a : begins t a = true ↔ ∃ a', a = t ++ a'.
Proof.
  revert a. induction t as [|x t IH]; intros [|y a]; cbn; [naive_solver..| |].
  - split; [done|by intros [? ?]].
  - rewrite andb_true_iff, IH. destruct (Ascii.eqb_spec x y) as [->|Hn].
    + split; [intros [_ [a' ->]]; by exists a'|intros [a' [= ->]]; split; [done|by exists a']].
    + split; [by intros []|by intros [a' [= <- _]]].
Qed.

Lemma run_length_le c l : (run_length c l ≤ length l)%nat.
Proof. induction l as [|x l IH]; cbn; [lia|destruct (c x); lia]. Qed.

Lemma run_length_spec c m a : Forall (fun x => c x = true) m → (length m ≤ run_length c (m ++ a))%nat.
Proof. induction 1 as [|x m Hx _ IH]; cbn; [lia|rewrite Hx; lia]. Qed.

Lemma run_length_take c n l : (n ≤ run_length c l)%nat → Forall (fun x => c x = true) (take n l).
Proof.
  revert n. induction l as [|x l IH]; intros [|n]; cbn; intros H; try apply Forall_nil_2.
  destruct (c x) eqn:E; [|lia]. constructor; [done|]. apply IH. lia.
Qed.

Lemma downto_spec {X} lo n (k : nat → option X) :
  match downto lo n k with
  | Some v => ∃ i, (lo ≤ i ≤ n)%nat ∧ k i = Some v
  | None => ∀ i, (lo ≤ i ≤ n)%nat → k i = None
  end.
Proof.
  induction n as [|n IH]; cbn [downto].
  - destruct (Nat.ltb_spec 0 lo); [intros i ?; lia|]. destruct (k 0%nat) eqn:E; [by exists 0%nat|].
    intros i ?. by replace i with 0%nat by lia.
  - destruct (Nat.ltb_spec (S n) lo); [intros i ?; lia|]. destruct (k (S n)) eqn:E; [exists (S n); split; [lia|done]|].
    destruct (downto lo n k) as [v|]; [destruct IH as (i & ? & ?); exists i; split; [lia|done]|].
    intros i ?. destruct (decide (i = S n)) as [->|]; [done|apply IH; lia].
Qed.

(** The matcher tries exactly the matches: what it finds is one that the rest
    accepts, and when it finds none the rest accepts none. *)
Lemma run_spec {X} r : ∀ b a g (k : list ascii → list ascii → list ascii → option X),
  match run r b a g k with
  | Some v => ∃ m a' g', a = m ++ a' ∧ matches r b m a' ∧ k (rev m ++ b) a' g' = Some v
  | None => ∀ m a', a = m ++ a' → matches r b m a' → ∃ g', k (rev m ++ b) a' g' = None
  end.
Proof.
  induction r as [|ts|c lo hi|x IHx y IHy|x IHx y IHy|x IHx]; intros b a g k; cbn [run matches].
  - destruct (word_at b) eqn:Eb, (word_at a) eqn:Ea; cbn [xorb];
      try (intros m a' -> [-> Hn]; cbn in Ea; congruence).
    all: destruct (k b a g) as [v|] eqn:Ek; [exists [], a, g; rewrite Ea; auto|].
    all: intros m a' -> [-> _]; by exists g.
  - induction ts as [|t ts IH]; [by intros m a' _ ?%elem_of_nil|]. cbn beta iota.
    destruct (begins t a) eqn:Et.
    + pose proof Et as [a1 ->]%begins_spec. rewrite drop_app_length.
      destruct (k (rev t ++ b) a1 g) as [v|] eqn:Ek; [exists t, a1, g; split; [done|]; split; [by left|done]|].
      match goal with |- match ?e with _ => _ end => destruct e as [v|] end.
      * destruct IH as (m & a' & g' & E & Hm & Hk). exists m, a', g'. split; [done|]. split; [by right|done].
      * intros m a' E [->|Hm]%elem_of_cons; [|by apply IH]. apply app_inv_head in E. subst. by exists g.
    + match goal with |- match ?e with _ => _ end => destruct e as [v|] end.
      * destruct IH as (m & a' & g' & E & Hm & Hk). exists m, a', g'. split; [done|]. split; [by right|done].
      * intros m a' E [->|Hm]%elem_of_cons; [|by apply IH].
        assert (begins t a = true) by (apply begins_spec; eauto). congruence.
  - pose proof (downto_spec lo (limited (run_length c a) hi) (fun n => k (rev (take n a) ++ b) (drop n a) g)) as Hd.
    pose proof (run_length_le c a). assert (limited (run_length c a) hi ≤ run_length c a)%nat by (destruct hi; cbn; lia).
    destruct (downto _ _ _) as [v|].
    + destruct Hd as (i & Hi & Hk). exists (take i a), (drop i a), g. rewrite take_drop. split; [done|]. split; [|done].
      rewrite length_take. split; [apply run_length_take; lia|]. split; [lia|]. intros h ->. cbn in *. lia.
    + intros m a' -> (Hc & Hlo & Hhi). exists g. specialize (Hd (length m)). rewrite take_app_length, drop_app_length in Hd.
      apply Hd. split; [done|]. pose proof (run_length_spec c m a' Hc). destruct hi as [h|]; cbn; [specialize (Hhi h eq_refl)|]; lia.
  - specialize (IHx b a g (fun b a g => run y b a g k)). destruct (run x _ _ _ _) as [v|].
    + destruct IHx as (m1 & a1 & g1 & -> & H1 & Hk). specialize (IHy (rev m1 ++ b) a1 g1 k). rewrite Hk in IHy.
      destruct IHy as (m2 & a2 & g2 & -> & H2 & Hk2). exists (m1 ++ m2), a2, g2. rewrite rev_app_distr, <- !app_assoc. eauto 8.
    + intros m a' -> (m1 & m2 & -> & H1 & H2). rewrite <- app_assoc in *. destruct (IHx m1 _ eq_refl H1) as [g1 Hk].
      specialize (IHy (rev m1 ++ b) (m2 ++ a') g1 k). rewrite Hk in IHy. rewrite rev_app_distr, <- app_assoc. by apply IHy.
  - specialize (IHx b a g k). specialize (IHy b a g k). destruct (run x b a g k) as [v|].
    + destruct IHx as (m & a' & g' & ? & ? & ?). eauto 8.
    + destruct (run y b a g k) as [v|]; [destruct IHy as (m & a' & g' & ? & ? & ?); eauto 8|]. intros m a' E [Hm|Hm]; eauto.
  - match goal with |- match run x b a g ?f with _ => _ end => specialize (IHx b a g f) end. destruct (run x _ _ _ _) as [v|].
    + destruct IHx as (m & a' & g' & ? & ? & ?). eauto 8.
    + intros m a' E Hm. destruct (IHx m a' E Hm) as [g' ?]. eauto.
Qed.

Lemma match_at_some r b a m g a' : match_at r b a = Some (m, g, a') → a = m ++ a' ∧ matches r b m a'.
Proof.
  unfold match_at. intros E. match type of E with run _ _ _ _ ?k = _ => pose proof (run_spec r b a [] k) as Hr end.
  rewrite E in Hr. destruct Hr as (m' & a1 & g' & -> & Hm & [= <- _ <-]).
  rewrite length_app, length_rev, Nat.add_sub, take_app_length', rev_involutive by (symmetry; apply length_rev). done.
Qed.

Lemma match_at_none r b a m a' : match_at r b a = None → a = m ++ a' → ¬ matches r b m a'.
Proof.
  unfold match_at. intros E Ha Hm. match type of E with run _ _ _ _ ?k = _ => pose proof (run_spec r b a [] k) as Hr end.
  rewrite E in Hr. by destruct (Hr m a' Ha Hm).
Qed.

Lemma hex_word c : hex_digit c = true → word c = true.
Proof.
  unfold hex_digit, word, alnum, between. destruct (Z.leb_spec 48 (byte_val c)), (Z.leb_spec (byte_val c) 57), (Z.leb_spec 65 (byte_val c)),
    (Z.leb_spec (byte_val c) 70), (Z.leb_spec 97 (byte_val c)), (Z.leb_spec (byte_val c) 102), (Z.leb_spec (byte_val c) 90),
    (Z.leb_spec (byte_val c) 122); cbn; try done; lia.
Qed.

Lemma word_at_hex m l : Forall (fun c => hex_digit c = true) m → m ≠ [] → word_at (m ++ l) = true.
Proof. intros Hm Hn. destruct m as [|c m]; [done|]. apply Forall_cons in Hm as [Hc _]. by apply hex_word. Qed.

Lemma matches_hex64 b m a : matches hex64 b m a ↔ secret64 b m a.
Proof.
  unfold hex64, secret64. cbn [matches]. split.
  - intros (m1 & m2 & -> & [-> Hb] & m3 & m4 & -> & (Hc & Hlo & Hhi) & -> & Hw). cbn [app] in *. rewrite app_nil_r in *.
    specialize (Hhi _ eq_refl). assert (m3 ≠ []) as Hn by (intros ->; cbn in *; lia).
    split_and!; [done|lia|..].
    + rewrite (word_at_hex m3) in Hb by done. by destruct (word_at b).
    + rewrite (word_at_hex (rev m3)) in Hw; [by destruct (word_at a)|by apply Forall_rev|].
      intros E. apply Hn. by rewrite <- (rev_involutive m3), E.
  - intros (Hc & Hl & Hb & Ha). assert (m ≠ []) as Hn by (intros ->; cbn in *; lia).
    exists [], m. split; [done|]. split; [split; [done|]; by rewrite word_at_hex, Hb|].
    exists m, []. rewrite app_nil_r. split; [done|]. split; [split_and!; [done|lia|intros h [= <-]; lia]|]. split; [done|].
    cbn [rev app]. rewrite word_at_hex, Ha; [done|by apply Forall_rev|]. intros E. apply Hn. by rewrite <- (rev_involutive m), E.
Qed.

(** A text is a word, which may be empty, and what follows it, in one way. *)
Definition is_word (w : list ascii) : Prop := Forall (fun c => word c = true) w.

Lemma split_word a : ∃ w z, a = w ++ z ∧ is_word w ∧ word_at z = false.
Proof.
  induction a as [|c a (w & z & -> & Hw & Hz)]; [exists [], []; split_and!; [done|constructor|done]|].
  destruct (word c) eqn:E; [exists (c :: w), z; split_and!; [done|by constructor|done]|].
  exists [], (c :: w ++ z). split_and!; [done|constructor|done].
Qed.

Lemma split_word_unique w z v y : is_word w → is_word v → word_at z = false → word_at y = false → w ++ z = v ++ y → w = v.
Proof.
  intros Hw. revert v. induction Hw as [|c w Hc _ IH]; intros v Hv Hz Hy E.
  - destruct Hv as [|d v Hd _]; [done|]. cbn in E. subst z. cbn in Hz. congruence.
  - destruct Hv as [|d v Hd Hv]; [cbn in E; subst y; cbn in Hy; congruence|]. injection E as -> E. by rewrite (IH v).
Qed.

Section hex.
Abbreviation rest n b a := (replace_from n hex64 (fun _ _ => redacted) b a).

(** No match begins within a word, nor where no word begins. *)
Lemma no_hex_match b a : word_at b = true ∨ word_at a = false → match_at hex64 b a = None.
Proof.
  intros Ho. destruct (match_at hex64 b a) as [[[m g] a']|] eqn:E; [exfalso|done].
  apply match_at_some in E as [-> (Hc & Hl & Hb & _)%matches_hex64]. destruct Ho as [Ho|Ho]; [congruence|].
  rewrite word_at_hex in Ho; [done..|]. by intros ->.
Qed.

Lemma word_copied w : is_word w → ∀ n b a, word_at b = true → (length (w ++ a) < n)%nat →
  rest n b (w ++ a) = w ++ rest (n - length w) (rev w ++ b) a.
Proof.
  induction 1 as [|c w Hc _ IH]; intros n b a Hb Hn; cbn [app length rev]; [by rewrite Nat.sub_0_r|].
  destruct n as [|n]; [cbn in Hn; lia|]. cbn [replace_from]. rewrite no_hex_match by by left.
  rewrite IH by (done || (cbn in Hn; lia)). by rewrite <- app_assoc.
Qed.

Lemma gap_stays n b a : word_at a = false → word_at (rest n b a) = false.
Proof.
  intros Ha. destruct n as [|n]; [done|]. cbn [replace_from]. rewrite no_hex_match by by right. by destruct a.
Qed.

(** No secret begins in the mark. *)
Lemma mark_safe p m q l bo : (length p < 10)%nat → p ++ m ++ q = redacted ++ l → ¬ secret64 (rev p ++ bo) m q.
Proof.
  intros Hp E (Hc & Hl & Hb & _). destruct m as [|c m]; [done|]. apply Forall_cons in Hc as [Hc _].
  let r := eval vm_compute in redacted in change redacted with r in E. cbn [app] in E.
  do 10 (destruct p as [|? p]; [injection E as -> E; first [by vm_compute in Hc|by vm_compute in Hb]|injection E as -> E]).
  cbn in Hp. lia.
Qed.

(** A secret at the head of the output is one at the head of the input. *)
Lemma head_secret n b c a m q : (length a < n)%nat → word c = true →
  m ++ q = c :: rest n (c :: b) a → Forall (fun c => hex_digit c = true) m → m ≠ [] → word_at q = false →
  ∃ z, c :: a = m ++ z ∧ word_at z = false.
Proof.
  intros Hn Hc E Hm Hne Hq. destruct m as [|d m]; [done|]. injection E as -> E.
  destruct (split_word a) as (w & z & -> & Hw & Hz). rewrite word_copied in E by done.
  apply Forall_cons in Hm as [_ Hm]. assert (m = w) as ->.
  { eapply (split_word_unique m q w _ (Forall_impl _ _ _ Hm hex_word) Hw Hq); [|exact E]. by apply gap_stays. }
  by exists z.
Qed.

Lemma no_secret_left n : ∀ b bo a, (length a < n)%nat → word_at b = word_at bo ∨ word_at a = false →
  ∀ p m q, rest n b a = p ++ m ++ q → ¬ secret64 (rev p ++ bo) m q.
Proof.
  induction n as [|n IH]; [lia|]. intros b bo a Hn Hw p m q. cbn [replace_from].
  destruct (match_at hex64 b a) as [[[m0 g] a']|] eqn:E.
  - apply match_at_some in E as [-> (Hc & Hl & Hb & Ha)%matches_hex64]. intros Eo. symmetry in Eo.
    destruct (Nat.lt_ge_cases (length p) 10) as [Hp|Hp]; [by apply (mark_safe p m q _ bo Hp Eo)|].
    assert (∃ p', p = redacted ++ p') as [p' ->].
    { exists (drop 10 p). rewrite <- (take_drop 10 p) at 1. f_equal. apply (f_equal (take 10)) in Eo.
      rewrite take_app_le in Eo by done. by rewrite Eo. }
    rewrite <- app_assoc in Eo. apply app_inv_head in Eo. rewrite rev_app_distr, <- app_assoc.
    apply (IH (rev m0 ++ b) (rev redacted ++ bo) a'); [rewrite length_app in Hn; lia|by right|done].
  - destruct a as [|c a].
    + intros Eo. destruct p, m; try discriminate Eo. by intros (_ & ? & _).
    + cbn in Hn. intros Eo. destruct p as [|x p].
      * intros (Hm & Hl & Hb & Hq). cbn [rev app] in *. assert (m ≠ []) as Hne by (intros ->; cbn in *; lia).
        assert (word c = true) as Hc by (pose proof (word_at_hex m q Hm Hne) as Hx; by rewrite <- Eo in Hx).
        symmetry in Eo. destruct (head_secret n b c a m q) as (z & Ez & Hz); [lia|done..|].
        apply (match_at_none _ _ _ m z E Ez), matches_hex64. split_and!; [done..| |done].
        destruct Hw as [->|Hw]; [done|]. cbn in Hw. congruence.
      * injection Eo as <- Eo. cbn [rev]. rewrite <- app_assoc. apply (IH (c :: b) (c :: bo) a); [lia|by left|done].
Qed.
End hex.

Lemma replace_none r f n : ∀ b a, (∀ p m q, a = p ++ m ++ q → ¬ matches r (rev p ++ b) m q) → replace_from n r f b a = a.
Proof.
  induction n as [|n IH]; [done|]. intros b a Hno. cbn [replace_from].
  destruct (match_at r b a) as [[[m g] a']|] eqn:E.
  { apply match_at_some in E as [-> Hm]. by destruct (Hno [] m a' eq_refl). }
  destruct a as [|c a]; [done|]. rewrite IH; [done|]. intros p m q ->. specialize (Hno (c :: p) m q eq_refl).
  cbn [rev] in Hno. by rewrite <- app_assoc in Hno.
Qed.

(** ** Properties *)

(** what the matcher finds is what a match is: at any place of a text, it finds
    one exactly when some text beginning there matches, and what it finds does. *)
Theorem matcher_exact r b a :
  (is_Some (match_at r b a) ↔ ∃ m a', a = m ++ a' ∧ matches r b m a')
  ∧ ∀ m g a', match_at r b a = Some (m, g, a') → a = m ++ a' ∧ matches r b m a'.
Proof.
  split; [|by intros; eapply match_at_some]. split.
  - intros [[[m g] a'] E]. apply match_at_some in E. eauto.
  - intros (m & a' & Ha & Hm). destruct (match_at r b a) eqn:E; [done|]. by apply (match_at_none _ _ _ m a') in E.
Qed.

(** no word of 64 hexadecimal digits is left: wherever one might stand in the
    redacted line, its neighbours or its digits say that none does. *)
Theorem hex_secrets_hidden s p m q : chars (Redact s) = p ++ m ++ q → ¬ secret64 (rev p) m q.
Proof.
  unfold Redact, ReplaceAll. rewrite chars_of_chars. intros E Hs.
  eapply (no_secret_left _ [] []); [|by left|exact E|by rewrite app_nil_r]. lia.
Qed.

(** a line in which no pattern matches is left as it is. *)
Theorem harmless_line_kept s :
  (∀ r p m q, r ∈ [keyValue; b64blob; hex64] → chars s = p ++ m ++ q → ¬ matches r (rev p) m q) → Redact s = s.
Proof.
  intros Hno. assert (∀ r f n, r ∈ [keyValue; b64blob; hex64] → replace_from n r f [] (chars s) = chars s) as Hr.
  { intros r f n Hr. apply replace_none. intros p m q E. rewrite app_nil_r. by apply Hno. }
  unfold Redact, ReplaceAll. rewrite !Hr by set_solver. apply of_chars_chars.
Qed.

(** a blob holds no dot, so the exemption of dotted quads never applies. *)
Theorem blob_without_dots b m a : matches b64blob b m a → count_char "."%char m = 0%nat.
Proof.
  intros (m1 & m2 & -> & [-> _] & m3 & m4 & -> & (H3 & _) & m5 & m6 & -> & (H5 & _) & [-> _]). cbn [app]. rewrite app_nil_r.
  assert (∀ c l, c "."%char = false → Forall (fun x => c x = true) l → count_char "."%char l = 0%nat) as Hz.
  { intros c l Hc Hl. induction Hl as [|x l Hx _ IH]; [done|]. unfold count_char in *. cbn [List.filter].
    destruct (Ascii.eqb_spec "."%char x) as [<-|]; [cbn in Hx; congruence|done]. }
  unfold count_char in *. rewrite List.filter_app, length_app.
  by rewrite (Hz (fun c => alnum c || one_of "_-" c) m3), (Hz (one_of "=") m5).
Qed.

(** ** Examples *)

(** A WireGuard key with a plus in it is not seen, nor are the words of a value
    behind its first, nor the value of a header whose name only begins with a
    keyword. *)
Example secrets_stay :
  map Redact ["key yAnz5TF+lXXJte14tji3zlMNq+hd2rYUIgJBgB3fBmk="; "Auth : Bearer xyz"; "Authorization: Bearer xyz"]
  = ["key yAnz5TF+lXXJte14tji3zlMNq+hd2rYUIgJBgB3fBmk="; "Auth=[REDACTED] xyz"; "Authorization: Bearer xyz"].
Proof. vm_compute. reflexivity. Qed.

(** A key that a tail of hyphens exempts is left when the hexadecimal step has
    cut the tail off; redacting again would hide it. *)
Definition long_tail : string :=
  "0123456789012345678901234567890123456789-a-b-c-d-e-f-g-h-0123456789abcdef0123456789abcdef0123456789abcdef0123456789abcdef".
Example redacting_twice_differs :
  Redact long_tail = "0123456789012345678901234567890123456789-a-b-c-d-e-f-g-h-[REDACTED]"
  ∧ Redact (Redact long_tail) = "[REDACTED]-[REDACTED]".
Proof. vm_compute. auto. Qed.

Example harmless_line : Redact "node demo-eu-01 up at 10.66.0.1:51820 token ok" = "node demo-eu-01 up at 10.66.0.1:51820 token ok".
Proof. vm_compute. reflexivity. Qed.
