(* ===== verification/Ipc.v ===== *)
(** * Ipc: the channel to the privileged service (internal/ipc/ipc.go, server.go)

    The token file, one framed request per connection, the server that checks
    the token before the handler sees anything, and the client's call.  The
    JSON of frames and values is an interface; dialling, reading and writing
    are answers. *)

From Stdlib Require Import ZArith Lia Ascii.
From S2P Require Import Prelude GoStrings NetIP GoText Crypto.

Definition PipeName : string := "\\.\pipe\veilnet-service".
Definition DefaultTCPAddr : string := "127.0.0.1:18441".

Definition OpStatus : string := "status".
Definition OpConnect : string := "connect".
Definition OpDisconnect : string := "disconnect".
Definition OpListNodes : string := "list-nodes".
Definition OpDiagnostics : string := "diagnostics".
Definition OpGetConfig : string := "get-config".
Definition OpSetConfig : string := "set-config".
Definition OpPayment : string := "payment".
Definition OpCircuit : string := "circuit".
Definition OpRotate : string := "rotate".
Definition OpApprovePayment : string := "approve-payment".
Definition OpConfirmPayment : string := "confirm-payment".
Definition OpWalletStatus : string := "wallet-status".
Definition OpWalletConnect : string := "wallet-connect".
Definition OpWalletDisconnect : string := "wallet-disconnect".
Definition OpWalletPay : string := "wallet-pay".

(** A payload is its JSON text; [""]: none. *)
Record Request := mkRequest { Token : string; Op : string; Payload : string }.
Record Response := mkResponse { OK : bool; Error : string; rs_Payload : string }.

(** Writing a frame can fail on a payload that is no JSON.  [frame_text] and
    [frame_json] are the texts and payloads that come back as they were. *)
Class Frames : Type := {
  encode_request : Request → option string;
  decode_request : string → option Request;
  encode_response : Response → option string;
  decode_response : string → option Response
}.
Class FramesLaws `{Frames} : Type := {
  frame_text : string → Prop;
  frame_json : string → Prop;
  request_law r : frame_text (Token r) → frame_text (Op r) → (Payload r = "" ∨ frame_json (Payload r)) →
    ∃ s, encode_request r = Some s ∧ decode_request s = Some r;
  response_law r : frame_text (Error r) → (rs_Payload r = "" ∨ frame_json (rs_Payload r)) →
    ∃ s, encode_response r = Some s ∧ decode_response s = Some r
}.

(** ** The token file *)

Inductive token_file := NoFile | Unreadable (e : string) | Content (s : string).

Inductive token_error :=
| ErrHome (e : string) | ErrRead (e : string) | ErrRandom (e : string) | ErrMkdir (e : string) | ErrWrite (e : string)
| ErrBadFile.

(** What creating the file meets: the random bytes, the directory, and the
    write, which leaves some file behind when it fails. *)
Record create_io := mkCreateIO {
  ci_rand : result string (list Z); ci_mkdir : option string; ci_write : option (string * token_file) }.

Definition create_token (f : token_file) (i : create_io) : token_file * result token_error string :=
  match ci_rand i with
  | Err e => (f, Err (ErrRandom e))
  | Ok raw =>
    let tok := hex_EncodeToString raw in
    match ci_mkdir i with
    | Some e => (f, Err (ErrMkdir e))
    | None => match ci_write i with
              | Some (e, f) => (f, Err (ErrWrite e))
              | None => (Content tok, Ok tok)
              end
    end
  end.

(** [f] is the file at [path], or in the home directory. *)
Definition LoadOrCreateToken (home : result string string) (path : string) (f : token_file) (i : create_io)
  : token_file * result token_error string :=
  match (if String.eqb path "" then home else Ok path) with
  | Err e => (f, Err (ErrHome e))
  | Ok _ =>
    match f with
    | Content tok => if len tok =? 64 then (f, Ok tok) else create_token f i
    | NoFile => create_token f i
    | Unreadable e => (f, Err (ErrRead e))
    end
  end.

Definition LoadToken (home : result string string) (path : string) (f : token_file) : result token_error string :=
  match (if String.eqb path "" then home else Ok path) with
  | Err e => Err (ErrHome e)
  | Ok _ =>
    match f with
    | Content data => if negb (len data =? 64) then Err ErrBadFile else Ok data
    | NoFile => Err (ErrRead "no such file")
    | Unreadable e => Err (ErrRead e)
    end
  end.

(** ** Server *)

(** Listeners are numbers; [done] is the closed channel. *)
Record Server := mkServer { s_token : string; lns : list nat; done : bool }.
Definition NewServer (token : string) : Server := mkServer token [] false.
Definition Serve_begin (s : Server) (ln : nat) : Server := mkServer (s_token s) (lns s ++ [ln]) (done s).
(** Whether the accept loop ends after an error. *)
Definition Serve_ends (s : Server) : bool := done s.
(** The server, and the listeners closed. *)
Definition Close (s : Server) : Server * list nat := (mkServer (s_token s) [] true, lns s).

Section serving.
Context {X O : Type} `{Frames}.
(** The values a handler answers with, as JSON. *)
Context (json_Marshal : O → result string string).
(** A handler changes the state behind it. *)
Abbreviation Handler := (X → string → string → X * result string (option O)).

(** The response to a request that was read; [None]: it was not. *)
Definition respond (token : string) (handler : Handler) (x : X) (req : option Request) : X * Response :=
  match req with
  | None => (x, mkResponse false "bad request" "")
  | Some req =>
    if negb (ConstantTimeCompare (Token req) token =? 1) then (x, mkResponse false "unauthorized" "")
    else match handler x (Op req) (Payload req) with
    | (x, Err e) => (x, mkResponse false e "")
    | (x, Ok None) => (x, mkResponse true "" "")
    | (x, Ok (Some out)) =>
      match json_Marshal out with
      | Err e => (x, mkResponse false e "")
      | Ok raw => (x, mkResponse true "" raw)
      end
    end
  end.

(** One connection: the frame read, if any, and the text written back, if the
    response can be encoded. *)
Definition serveConn (s : Server) (handler : Handler) (x : X) (input : option string) : X * option string :=
  let '(x, r) := respond (s_token s) handler x (input ≫= decode_request) in (x, encode_response r).
End serving.

(** ** Client *)

Inductive call_error :=
| ErrDial (e : string) | ErrMarshal (e : string) | ErrSend | ErrReceive | ErrService (op e : string)
| ErrUnmarshal (e : string).

Section calling.
Context {P A : Type} `{Frames}.
Context (json_Marshal : P → result string string) (json_Unmarshal : string → result string A).

Definition or_unknown (e : string) : string := if String.eqb e "" then "unknown service error" else e.

(** The caller's value [zero] is what it gets when there is no payload. *)
Definition decode_answer (op : string) (zero : A) (resp : Response) : result call_error A :=
  if negb (OK resp) then Err (ErrService op (or_unknown (Error resp)))
  else if String.eqb (rs_Payload resp) "" then Ok zero
  else result_map_err ErrUnmarshal (json_Unmarshal (rs_Payload resp)).

(** [exchange] is the service behind a connection: a text sent, a text read. *)
Definition Call {X} (token : string) (dial : option string) (exchange : X → option string → X * option string)
  (x : X) (op : string) (payload : option P) (zero : A) : X * result call_error A :=
  match dial with
  | Some e => (x, Err (ErrDial e))
  | None =>
    match match payload with None => Ok "" | Some p => json_Marshal p end with
    | Err e => (x, Err (ErrMarshal e))
    | Ok raw =>
      match encode_request (mkRequest token op raw) with
      | None => (x, Err ErrSend)
      | Some text =>
        let '(x, reply) := exchange x (Some text) in
        match reply ≫= decode_response with
        | None => (x, Err ErrReceive)
        | Some resp => (x, decode_answer op zero resp)
        end
      end
    end
  end.
End calling.

(** ** Lemmas *)

Lemma created_token f i f' tok : (∀ raw, ci_rand i = Ok raw → length raw = 32%nat) →
  create_token f i = (f', Ok tok) → len tok = 64 ∧ f' = Content tok
  ∧ ∃ raw, ci_rand i = Ok raw ∧ tok = hex_EncodeToString raw.
Proof.
  intros Hr. unfold create_token. destruct (ci_rand i) as [raw|]; [|done].
  destruct (ci_mkdir i); [done|]. destruct (ci_write i) as [[e g]|]; [done|]. intros [= <- <-].
  split; [|split; [done|by exists raw]]. rewrite hex_encode_length, (Hr raw eq_refl). done.
Qed.

(** A request that can be written is answered by what the server responds to it,
    as it was meant on both sides. *)
Lemma request_answered {X O} `{FramesLaws} (marshal : O → result string string) s
  (handler : X → string → string → X * result string (option O)) x req :
  frame_text (Token req) → frame_text (Op req) → (Payload req = "" ∨ frame_json (Payload req)) →
  frame_text "" → frame_text "unauthorized" →
  (∀ y e, handler x (Op req) (Payload req) = (y, Err e) → frame_text e) →
  (∀ o t, marshal o = Ok t → frame_json t) → (∀ o e, marshal o = Err e → frame_text e) →
  ∃ text, encode_request req = Some text
  ∧ ∃ t, serveConn marshal s handler x (Some text) = ((respond marshal (s_token s) handler x (Some req)).1, Some t)
  ∧ decode_response t = Some (respond marshal (s_token s) handler x (Some req)).2.
Proof.
  intros Ht Ho Hj Hemp Hu He Hmj Hme. destruct (request_law req Ht Ho Hj) as (text & -> & Hd).
  exists text. split; [done|]. unfold serveConn. cbn [mbind option_bind]. rewrite Hd.
  assert (frame_text (Error (respond marshal (s_token s) handler x (Some req)).2)
    ∧ (rs_Payload (respond marshal (s_token s) handler x (Some req)).2 = ""
       ∨ frame_json (rs_Payload (respond marshal (s_token s) handler x (Some req)).2))) as [Hte Hpj].
  { unfold respond. destruct (negb _); [by split; [|left]|].
    destruct (handler x (Op req) (Payload req)) as [y [[o|]|e]] eqn:Eh; [|by split; [|left]|split; [by eapply He|by left]].
    destruct (marshal o) as [t|e] eqn:Em; split; cbn; eauto. }
  destruct (respond marshal (s_token s) handler x (Some req)) as [y resp]. cbn in *.
  destruct (response_law resp Hte Hpj) as (t & -> & Hdt). by exists t.
Qed.

(** ** Properties *)

(** the token file round-trips.  When the service has loaded or made
    its token, with 32 random bytes: the token is 64 bytes long; it is the
    file's, untouched, if the file held one, and otherwise the random bytes in
    hexadecimal; a client that reads the file left behind gets this token, and
    so does every later start of the service, whatever random bytes it would
    be given, with the file unchanged. *)
Theorem token_roundtrip home path f i f' tok :
  (∀ raw, ci_rand i = Ok raw → length raw = 32%nat) →
  LoadOrCreateToken home path f i = (f', Ok tok) →
  len tok = 64
  ∧ (f' = f ∧ f = Content tok
     ∨ f' = Content tok ∧ (∀ s, f = Content s → len s ≠ 64)
       ∧ ∃ raw, ci_rand i = Ok raw ∧ tok = hex_EncodeToString raw)
  ∧ LoadToken home path f' = Ok tok
  ∧ ∀ i', LoadOrCreateToken home path f' i' = (f', Ok tok).
Proof.
  intros Hr. unfold LoadOrCreateToken, LoadToken. destruct (if String.eqb path "" then home else Ok path); [|done].
  assert (∀ s, f' = Content s → len s = 64 → (if negb (len s =? 64) then Err ErrBadFile else Ok s) = Ok (E := token_error) s
    ∧ ∀ i', (if len s =? 64 then (f', Ok s) else create_token f' i') = (f', Ok (E := token_error) s)) as Hs.
  { intros s _ Hs. by rewrite Hs. }
  destruct f as [|e|s]; [|done|].
  - intros (Hl & -> & raw & Hraw & Ht)%created_token; [|done]. destruct (Hs tok eq_refl Hl).
    split_and!; [done| |done|done]. right. split_and!; [done|done|by exists raw].
  - destruct (Z.eqb_spec (len s) 64) as [Hl|Hl].
    + intros [= <- <-]. destruct (Hs s eq_refl Hl). split_and!; [done|by left|done|done].
    + intros (Hl' & -> & raw & Hraw & Ht)%created_token; [|done]. destruct (Hs tok eq_refl Hl').
      split_and!; [done| |done|done]. right. split_and!; [done|by intros s' [= <-]|by exists raw].
Qed.

(** only the token reaches the handler.  Whatever bytes a connection
    sends: either the state behind the handler is untouched and the answer is
    a refusal, or the bytes are a request that carries the server's token and
    the state is the one its handler leaves for that operation and payload. *)
Theorem only_token_reaches_handler {X O} `{Frames} (marshal : O → result string string) s
  (handler : X → string → string → X * result string (option O)) (x x' : X) input out :
  serveConn marshal s handler x input = (x', out) →
  match input ≫= decode_request with
  | Some req =>
    if String.eqb (Token req) (s_token s)
    then x' = (handler x (Op req) (Payload req)).1
    else x' = x ∧ out = encode_response (mkResponse false "unauthorized" "")
  | None => x' = x ∧ out = encode_response (mkResponse false "bad request" "")
  end.
Proof.
  unfold serveConn, respond. destruct (input ≫= decode_request) as [req|]; [|by intros [= <- <-]].
  rewrite ConstantTimeCompare_eq. destruct (String.eqb (Token req) (s_token s)); cbn [negb]; [|by intros [= <- <-]].
  destruct (handler x (Op req) (Payload req)) as [y [[o|]|e]]; cbn; [|by intros [= <- _]..].
  destruct (marshal o); by intros [= <- _].
Qed.

(** a call is the handler's answer.  Over a codec that brings frames
    back as they were, with texts and payloads it can carry: a call with the
    server's token leaves the state the handler leaves, and answers the
    handler's value read back, its error under the operation's name, or, when
    the value has no JSON, that error; a call with another token changes
    nothing and is refused. *)
Theorem call_reaches_handler {X O P A} `{FramesLaws} (marshal : O → result string string)
  (in_ : P → result string string) (un : string → result string A) s
  (handler : X → string → string → X * result string (option O)) (x x' : X) token op payload raw (zero : A) r :
  frame_text token → frame_text op →
  (match payload with None => Ok "" | Some p => in_ p end) = Ok raw → (raw = "" ∨ frame_json raw) →
  frame_text "" → frame_text "unauthorized" →
  (∀ y e, handler x op raw = (y, Err e) → frame_text e) →
  (∀ o t, marshal o = Ok t → frame_json t) → (∀ o e, marshal o = Err e → frame_text e) →
  handler x op raw = (x', r) →
  Call in_ un token None (serveConn marshal s handler) x op payload zero
  = if String.eqb token (s_token s) then
      (x', match r with
           | Err e => Err (ErrService op (or_unknown e))
           | Ok None => Ok zero
           | Ok (Some o) =>
             match marshal o with
             | Err e => Err (ErrService op (or_unknown e))
             | Ok t => if String.eqb t "" then Ok zero else result_map_err ErrUnmarshal (un t)
             end
           end)
    else (x, Err (ErrService op "unauthorized")).
Proof.
  intros Ht Ho Hraw Hj Hemp Hu He Hmj Hme Hh. unfold Call. rewrite Hraw.
  destruct (request_answered marshal s handler x (mkRequest token op raw)) as (text & -> & t & -> & Hd);
    [done|done|done|done|done| |done|done|]; [intros y e; apply He|]. cbn [mbind option_bind]. rewrite Hd.
  unfold respond. cbn [Token Op Payload].
  rewrite ConstantTimeCompare_eq. destruct (String.eqb token (s_token s)); cbn [negb]; [|done].
  rewrite Hh. destruct r as [[o|]|e]; [destruct (marshal o)|..]; done.
Qed.

(** ** Witnesses *)

(** A codec of fields separated by a byte that no text holds. *)
Definition sep : ascii := "|"%char.
Definition field_ok (s : string) : Prop := sep ∉ chars s.
Definition join3 (a b c : string) : string := of_chars (chars a ++ sep :: chars b ++ sep :: chars c).
Definition split3 (s : string) : option (string * string * string) :=
  match map of_chars (split_on sep (chars s)) with [a; b; c] => Some (a, b, c) | _ => None end.

Lemma split_join3 a b c : field_ok a → field_ok b → field_ok c → split3 (join3 a b c) = Some (a, b, c).
Proof.
  intros Ha Hb Hc. unfold split3, join3. rewrite chars_of_chars, !split_on_app, split_on_plain by done.
  cbn. by rewrite !of_chars_chars.
Qed.

#[local] Instance bar_frames : Frames := {
  encode_request r := Some (join3 (Token r) (Op r) (Payload r));
  decode_request s := (fun '(a, b, c) => mkRequest a b c) <$> split3 s;
  encode_response r := Some (join3 (if OK r then "1" else "0") (Error r) (rs_Payload r));
  decode_response s := (fun '(a, b, c) => mkResponse (String.eqb a "1") b c) <$> split3 s
}.
#[local] Instance bar_laws : FramesLaws.
Proof.
  assert (field_ok "") as Hz by (intros Hin; by apply elem_of_nil in Hin).
  refine {| frame_text := field_ok; frame_json := field_ok |}.
  - intros [a b c] Ha Hb Hc. eexists. split; [done|]. cbn [decode_request bar_frames]. rewrite split_join3; [done|done|done|].
    by destruct Hc as [Hc|Hc]; [cbn in Hc; rewrite Hc|].
  - intros [ok e p] He Hp. eexists. split; [done|]. cbn [decode_response bar_frames]. rewrite split_join3.
    + by destruct ok.
    + destruct ok; intros Hin%list_elem_of_singleton; discriminate Hin.
    + done.
    + by destruct Hp as [Hp|Hp]; [cbn in Hp; rewrite Hp|].
Defined.

(** A handler that counts and echoes, or fails. *)
Definition counter (x : Z) (op payload : string) : Z * result string (option string) :=
  if String.eqb op "fail" then (x, Err "") else (x + 1, Ok (Some payload)).
Definition demo_server : Server := NewServer "secret".
Definition guarded (o : string) : result string string :=
  if mem_char sep (chars o) then Err "unsupported value" else Ok o.
Definition demo_exchange : Z → option string → Z * option string := serveConn guarded demo_server counter.

Definition fresh_token : create_io := mkCreateIO (Ok (repeat 171 32)) None None.
Lemma token_roundtrip_witness : ∃ tok,
  LoadOrCreateToken (Ok "/home/u") "" (Content "short") fresh_token = (Content tok, Ok tok)
  ∧ LoadToken (Ok "/home/u") "" (Content tok) = Ok tok ∧ len tok = 64.
Proof.
  assert (∀ raw, ci_rand fresh_token = Ok raw → length raw = 32%nat) as Hr by (intros raw [= <-]; reflexivity).
  destruct (token_roundtrip (Ok "/home/u") "" (Content "short") fresh_token
    (Content (hex_EncodeToString (repeat 171 32))) (hex_EncodeToString (repeat 171 32)) Hr
    ltac:(vm_compute; reflexivity)) as (Hl & _ & Hload & _).
  exists (hex_EncodeToString (repeat 171 32)). split; [vm_compute; reflexivity|]. split; [exact Hload|exact Hl].
Defined.

Lemma only_token_reaches_handler_witness :
  (demo_exchange 5 (Some "guess|count|p")).1 = 5 ∧ (demo_exchange 5 (Some "secret|count|p")).1 = 6
  ∧ (demo_exchange 5 (Some "secret")).1 = 5.
Proof.
  pose proof (only_token_reaches_handler guarded demo_server counter 5 _ (Some "guess|count|p") _ eq_refl) as H1.
  pose proof (only_token_reaches_handler guarded demo_server counter 5 _ (Some "secret|count|p") _ eq_refl) as H2.
  pose proof (only_token_reaches_handler guarded demo_server counter 5 _ (Some "secret") _ eq_refl) as H3.
  split; [exact (proj1 H1)|]. split; [exact H2|exact (proj1 H3)].
Defined.

Lemma call_reaches_handler_witness :
  Call Ok Ok "secret" None demo_exchange 5 "count" (Some "p") "" = (6, Ok "p")
  ∧ Call Ok Ok "secret" None demo_exchange 5 "fail" (Some "p") "" = (5, Err (ErrService "fail" "unknown service error"))
  ∧ Call Ok Ok "guess" None demo_exchange 5 "count" (Some "p") "" = (5, Err (ErrService "count" "unauthorized")).
Proof.
  assert (∀ s, mem_char sep (chars s) = false → field_ok s) as Hf by (intros s Hs; by apply mem_char_false).
  assert (∀ o t, guarded o = Ok t → field_ok t) as Hg.
  { intros o t. unfold guarded. destruct (mem_char sep (chars o)) eqn:Eo; [discriminate|]. intros [= <-]. by apply Hf. }
  assert (∀ o x, guarded o = Err x → field_ok x) as Hx.
  { intros o t. unfold guarded. destruct (mem_char sep (chars o)); [intros [= <-]; by apply Hf|discriminate]. }
  assert (∀ op y x, counter 5 op "p" = (y, Err x) → field_ok x) as Hn.
  { intros op y x. unfold counter. destruct (String.eqb op "fail"); [intros [= _ <-]; by apply Hf|discriminate]. }
  pose proof (fun token op y r Ht Ho => call_reaches_handler guarded Ok Ok demo_server counter 5 y token op (Some "p") "p" ""
    r (Hf token Ht) (Hf op Ho) eq_refl (or_intror (Hf "p" eq_refl)) (Hf "" eq_refl) (Hf "unauthorized" eq_refl)
    (Hn op) Hg Hx) as Hc.
  split; [exact (Hc "secret" "count" 6 (Ok (Some "p")) eq_refl eq_refl eq_refl)|].
  split; [exact (Hc "secret" "fail" 5 (Err "") eq_refl eq_refl eq_refl)|].
  exact (Hc "guess" "count" 6 (Ok (Some "p")) eq_refl eq_refl eq_refl).
Defined.
