(* ===== verification/NodeApi.v ===== *)
(** * NodeApi: the node's management API (internal/nodes/api.go)

    The gate in front of every route, and the handlers over the controller.
    Paths are the cleaned ones; JSON and the text of a key parser's error are
    classes, the token validator and the clock are arguments. *)

From Stdlib Require Import ZArith Lia.
From S2P Require Import Prelude Float64 GoStrings NetIP GoText.
From S2P Require Import Session.
From S2P Require Import Ipam.
From S2P Require Import Abuse.
From S2P Require Import NodeStore.
From S2P Require Import NodeConfig.
From S2P Require Import Controller.

Record http_request := mkRequest {
  RemoteAddr : string; Authorization : string; Method : string; URLPath : string; Body : string }.

Inductive payload :=
| Health (node_id : string) (st : Stats) (accept : bool)
| Capacity (clients max : Z) (accept : bool)
| StatsOf (st : Stats)
| Authorized (token_id assigned_ip : string) (expires_at : time) (scope : string)
| Revoked (id : string).
Inductive reply := HTTPError (status : Z) (msg : string) | JSON (p : payload).
Definition status_of (r : reply) : Z := match r with HTTPError s _ => s | JSON _ => 200 end.

Definition StatusBadRequest : Z := 400.
Definition StatusUnauthorized : Z := 401.
Definition StatusForbidden : Z := 403.
Definition StatusNotFound : Z := 404.
Definition StatusMethodNotAllowed : Z := 405.
Definition StatusTooManyRequests : Z := 429.
Definition StatusServiceUnavailable : Z := 503.

Record authorizeRequest := mkAuthorizeRequest {
  req_Token : string; ClientKey : string; ClientPub : string; Endpoint : string }.
Record revokeRequest := mkRevokeRequest { rev_TokenID : string; rev_Token : string }.

Class ApiJSON : Type := {
  decode_authorize : string → option authorizeRequest;
  decode_revoke : string → option revokeRequest
}.

(** What the key parser says of a bad key. *)
Class KeyError : Type := { key_error : string }.

(** [Error] of the errors the controller returns. *)
Definition session_text (e : Session.error) : string :=
  match e with
  | Session.ErrInvalid => "session: invalid token"
  | Session.ErrExpired => "session: token expired"
  | Session.ErrRevoked => "session: token revoked"
  | Session.ErrUnknown => "session: unknown session"
  | Session.ErrAlreadyActive => "session: token already active"
  | Session.ErrDenied reason => "session: " +:+ reason
  end.
Definition error_text `{KeyError} (e : Controller.error) : string :=
  match e with
  | ErrCapacity => "nodes: at capacity"
  | ErrNotAccepting => "nodes: not accepting new clients"
  | ErrDisabled => "nodes: node disabled by operator"
  | ErrRelayScope => "nodes: relay node cannot serve exit scope"
  | ErrBadPubkey => "nodes: bad client pubkey: " +:+ key_error
  | ErrInstallPeer e => "nodes: install peer: " +:+ e
  | ErrIPAM _ => "nodes: address pool exhausted"
  | ErrSession e => session_text e
  | ErrAbuse Abuse.ErrBlocked => "nodes: peer is blocklisted"
  | ErrAbuse _ => "nodes: rate limit exceeded, retry later"
  | ErrConfig _ => "nodes: nil config"
  end.

Definition isAuthFailure `{KeyError} (e : Controller.error) : bool :=
  let msg := error_text e in
  strings_Contains msg "expired" || strings_Contains msg "invalid token"
  || strings_Contains msg "revoked" || strings_Contains msg "no token validator".

Definition authorize_status `{KeyError} (e : Controller.error) : Z :=
  match e with
  | ErrCapacity | ErrAbuse Abuse.ErrBlocked | ErrAbuse Abuse.ErrRateLimited => StatusTooManyRequests
  | ErrDisabled | ErrNotAccepting => StatusServiceUnavailable
  | _ => if isAuthFailure e then StatusUnauthorized else StatusBadRequest
  end.

Definition bearerTokenOf `{Unicode} (r : http_request) : string :=
  let h := Authorization r in
  if strings_HasPrefix (strings_ToLower h) "bearer "
  then strings_TrimSpace (of_chars (drop 7 (chars h))) else "".

(** The answers one request gets from outside: the validator of tokens, the
    clock and its day, and the outcomes of the database writes. *)
Record api_io := mkApiIO {
  validate : string → result Session.error Session.Token;
  now : time;
  day : string;
  io_row : option string;
  io_counter : option string
}.

Record Server (G : Type) := mkServer { ctrl : Controller G; token : string }.
Arguments mkServer {_}. Arguments ctrl {_}. Arguments token {_}.

Section api.
Context {G : Type} `{WGManager G, WGKeys, IPv6, GoArch, Unicode, ApiJSON, KeyError}.
Abbreviation Controller := (Controller G).
Implicit Types c : Controller.

Definition NewServer c (bearerToken : string) : Server G := mkServer c bearerToken.

Definition handleHealth c (i : api_io) : Controller * reply :=
  (c, JSON (Health (cfg_NodeID (cfg c)) (Controller_Stats c (now i) (day i)) (AcceptNew (cfg c)))).
Definition handleCapacity c (i : api_io) : Controller * reply :=
  let '(active, max, accept) := Controller_Capacity c (now i) in (c, JSON (Capacity active max accept)).
Definition handleStats c (i : api_io) : Controller * reply :=
  (c, JSON (StatsOf (Controller_Stats c (now i) (day i)))).

Definition handleAuthorize c (r : http_request) (i : api_io) : Controller * reply :=
  if negb (String.eqb (Method r) "POST") then (c, HTTPError StatusMethodNotAllowed "method not allowed")
  else match decode_authorize (Body r) with
  | None => (c, HTTPError StatusBadRequest "bad request")
  | Some req =>
    let pubkey := if String.eqb (ClientKey req) "" then ClientPub req else ClientKey req in
    match Controller_Authorize c (validate i (req_Token req)) pubkey (Endpoint req) (now i) (day i)
            (io_row i) (io_counter i) with
    | (c, Err e) => (c, HTTPError (authorize_status e) (error_text e))
    | (c, Ok s) => (c, JSON (Authorized (Session.TokenID s) (Session.AssignedIP s) (Session.ExpiresAt s)
                              (Session.Scope s)))
    end
  end.

Definition handleRevoke c (r : http_request) (i : api_io) : Controller * reply :=
  if negb (String.eqb (Method r) "POST") then (c, HTTPError StatusMethodNotAllowed "method not allowed")
  else match decode_revoke (Body r) with
  | None => (c, HTTPError StatusBadRequest "bad request")
  | Some req =>
    let id := if String.eqb (rev_TokenID req) "" then rev_Token req else rev_TokenID req in
    if String.eqb id "" then (c, HTTPError StatusBadRequest "token_id required")
    else match Controller_Revoke c id (now i) (io_row i) with
    | (c, Err e) => (c, HTTPError StatusNotFound (error_text e))
    | (c, Ok _) => (c, JSON (Revoked id))
    end
  end.

(** The routes of [NewServer]. *)
Definition mux c (r : http_request) (i : api_io) : Controller * reply :=
  if String.eqb (URLPath r) "/health" then handleHealth c i
  else if String.eqb (URLPath r) "/capacity" then handleCapacity c i
  else if String.eqb (URLPath r) "/stats" then handleStats c i
  else if String.eqb (URLPath r) "/session/authorize" then handleAuthorize c r i
  else if String.eqb (URLPath r) "/session/revoke" then handleRevoke c r i
  else (c, HTTPError StatusNotFound "404 page not found").

(** An address that does not split passes the first two checks. *)
Definition authLoopback (token : string) c (r : http_request) (i : api_io) : Controller * reply :=
  let '(c, allowed, local) :=
    match net_SplitHostPort (RemoteAddr r) with
    | None => (c, true, true)
    | Some (host, _) =>
      let '(c, ok) := Controller_AllowMgmtRequest c host (now i) in
      (c, ok, match net_ParseIP host with Some ip => IP_IsLoopback ip | None => false end)
    end in
  if negb allowed then (c, HTTPError StatusTooManyRequests "rate limit exceeded")
  else if negb local && negb (AllowRemote (cfg c)) then (c, HTTPError StatusForbidden "forbidden: non-loopback")
  else if negb (CheckBearer token (bearerTokenOf r)) then (c, HTTPError StatusUnauthorized "unauthorized")
  else mux c r i.

Definition Server_handle (s : Server G) (r : http_request) (i : api_io) : Server G * reply :=
  let '(c, rep) := authLoopback (token s) (ctrl s) r i in (mkServer c (token s), rep).

(** [listen] answers whether the address can be bound. *)
Definition Serve (addr : string) (allowRemote : bool) (listen : string → option string) : option string :=
  if negb allowRemote && negb (isLoopbackBind addr)
  then Some "nodes: refusing non-loopback mgmt bind without allow_remote=true"
  else listen addr.

Fixpoint serve_all (s : Server G) (l : list (http_request * api_io)) : Server G * list reply :=
  match l with
  | [] => (s, [])
  | (r, i) :: l => let '(s, rep) := Server_handle s r i in
                   let '(s, reps) := serve_all s l in (s, rep :: reps)
  end.
End api.

(** ** Lemmas *)

Section api_proofs.
Context {G : Type} `{WGManager G, WGKeys, IPv6, GoArch, Unicode, ApiJSON, KeyError}.
Abbreviation Controller := (Controller G).
Implicit Types c : Controller.

Lemma allow_frame c host now : ∃ g, (Controller_AllowMgmtRequest c host now).1 = set_abuse c g.
Proof.
  unfold Controller_AllowMgmtRequest. destruct (abuse c) as [g|] eqn:Eg.
  - unfold AbuseGuard_AllowMgmt. destruct (RateLimiter_AllowMgmt _ _ _) as [l ok]. by eexists.
  - exists None. destruct c; cbn in *. by subst.
Qed.

Lemma mux_steps c r i : rtc Controller.step c (mux c r i).1.
Proof.
  unfold mux. repeat (destruct (String.eqb _ _); [try apply rtc_refl|]); try apply rtc_refl.
  - unfold handleAuthorize. destruct (negb _); [apply rtc_refl|].
    destruct (decode_authorize _) as [req|]; [|apply rtc_refl]. set (pub := if String.eqb (ClientKey req) "" then _ else _).
    pose proof (step_authorize c (validate i (req_Token req)) pub (Endpoint req) (now i) (day i) (io_row i)
      (io_counter i)) as Hs.
    destruct (Controller_Authorize _ _ _ _ _ _ _ _) as [c' [s|e]]; by apply rtc_once.
  - unfold handleRevoke. destruct (negb _); [apply rtc_refl|].
    destruct (decode_revoke _) as [req|]; [|apply rtc_refl]. set (id := if String.eqb (rev_TokenID req) "" then _ else _).
    destruct (String.eqb id ""); [apply rtc_refl|].
    pose proof (step_revoke c id (now i) (io_row i)) as Hs.
    destruct (Controller_Revoke _ _ _ _) as [c' [s|e]]; by apply rtc_once.
Qed.

(** May the request reach a route? *)
Definition admitted (tok : string) c (r : http_request) : bool :=
  match net_SplitHostPort (RemoteAddr r) with
  | Some (host, _) =>
    match net_ParseIP host with Some ip => IP_IsLoopback ip | None => false end || AllowRemote (cfg c)
  | None => true
  end && CheckBearer tok (bearerTokenOf r).

(** What happens at the gate: the guard's bucket is all that changes there. *)
Lemma gate_cases tok c r i : ∃ c1, (c1 = c ∨ ∃ host, c1 = (Controller_AllowMgmtRequest c host (now i)).1)
  ∧ (authLoopback tok c r i = mux c1 r i ∧ admitted tok c r = true
     ∨ (authLoopback tok c r i).1 = c1
       ∧ status_of (authLoopback tok c r i).2 ∈ [StatusTooManyRequests; StatusForbidden; StatusUnauthorized]).
Proof.
  unfold authLoopback, admitted. destruct (net_SplitHostPort (RemoteAddr r)) as [[host port]|].
  - pose proof (allow_frame c host (now i)) as [g Hg].
    destruct (Controller_AllowMgmtRequest c host (now i)) as [c1 ok] eqn:Ea. cbn in Hg.
    exists c1. split; [right; exists host; by rewrite Ea|].
    assert (cfg c1 = cfg c) as -> by by rewrite Hg.
    destruct ok; cbn [negb]; [|right; split; [done|by left]].
    destruct (match net_ParseIP host with Some _ => _ | None => _ end); cbn [negb andb orb].
    + destruct (CheckBearer _ _); [by left|]. right. split; [done|]. right. right. by left.
    + destruct (AllowRemote (cfg c)); cbn [negb andb]; [|right; split; [done|right; by left]].
      destruct (CheckBearer _ _); [by left|]. right. split; [done|]. right. right. by left.
  - exists c. split; [by left|]. cbn [negb andb]. destruct (CheckBearer _ _); [by left|].
    right. split; [done|]. right. right. by left.
Qed.

Lemma handle_steps (s : Server G) r i : rtc Controller.step (ctrl s) (ctrl (Server_handle s r i).1)
  ∧ token (Server_handle s r i).1 = token s.
Proof.
  unfold Server_handle. destruct (gate_cases (token s) (ctrl s) r i) as (c1 & Hc & Hg).
  destruct (authLoopback _ _ r i) as [c' rep]. cbn in *. split; [|done].
  assert (rtc Controller.step (ctrl s) c1) as Hs.
  { destruct Hc as [-> |[host ->]]; [apply rtc_refl|apply rtc_once, step_mgmt]. }
  destruct Hg as [[Hm _]|[-> _]]; [|done]. etrans; [exact Hs|].
  pose proof (mux_steps c1 r i) as Hx. by rewrite <- Hm in Hx.
Qed.
End api_proofs.

(** ** Witness data *)

Section demo.
#[local] Existing Instances no_ipv6 amd64 ascii_unicode.
#[local] Instance api_keys : WGKeys := {| ParseWGKey _ := true |}.
#[local] Instance api_key_error : KeyError := {| key_error := "bad key" |}.
#[local] Instance api_json : ApiJSON := {
  decode_authorize s := if String.eqb s "{}" then None else Some (mkAuthorizeRequest s "key1" "" "");
  decode_revoke s := if String.eqb s "{}" then None else Some (mkRevokeRequest s "")
}.
Definition demo_config : Config :=
  mkConfig "node" NodeTypeExit "" "" "" 2 0 0 f0 true "" "" f0 60 "127.0.0.1:1" false "wg0" 51820
    "100.64.0.1" "" "100.64.0.0/29" "" "" [] [] true 0 0 1 false false.
Definition demo_node : result Controller.error (Controller.Controller FakeWGManager) :=
  NewController demo_config (mkFake ∅) None true 0.
Definition demo_api : Server FakeWGManager :=
  match demo_node with
  | Ok c => NewServer c "mgmt-token"
  | Err _ => NewServer (mkController demo_config (mkFake ∅) (Ipam.mkIPAM 0 0 0 ∅ "") (Session.NewManager 0)
                          None true [] None 0 0 0 0) ""
  end.
Definition demo_api_io : api_io :=
  mkApiIO (fun raw => Ok (Session.mkToken raw "node" "s1" (2 * hour) "exit" raw)) 0 "day" None None.
Definition demo_request (from bearer path body : string) : http_request :=
  mkRequest from bearer "POST" path body.
Definition demo_reply (from bearer path body : string) : reply :=
  (Server_handle demo_api (demo_request from bearer path body) demo_api_io).2.

Example granted_over_the_api :
  demo_reply "127.0.0.1:5000" "Bearer mgmt-token" "/session/authorize" "t1"
  = JSON (Authorized "t1" "100.64.0.2" minute "exit").
Proof. vm_compute. reflexivity. Qed.

(** A failure to install the peer is reported as a failed login when its
    message mentions an expiry. *)
Example install_error_reads_as_unauthorized :
  authorize_status (ErrInstallPeer "netlink: request expired") = StatusUnauthorized.
Proof. vm_compute. reflexivity. Qed.
End demo.

(** ** Properties *)

(** the management API admits only its operator.  A request without the
    configured bearer token, or with an empty one configured, or from a host
    that is not the loopback while remote access is off, is answered 401, 403
    or 429, and nothing but the rate limiter's buckets changes. *)
Theorem api_gate {G} `{WGManager G, WGKeys, IPv6, GoArch, Unicode, ApiJSON, KeyError}
  tok (c : Controller.Controller G) r i :
  bearerTokenOf r ≠ tok ∨ tok = ""
  ∨ (∃ host port, net_SplitHostPort (RemoteAddr r) = Some (host, port)
       ∧ (∀ ip, net_ParseIP host = Some ip → IP_IsLoopback ip = false) ∧ AllowRemote (cfg c) = false) →
  status_of (authLoopback tok c r i).2 ∈ [StatusTooManyRequests; StatusForbidden; StatusUnauthorized]
  ∧ ∃ g, (authLoopback tok c r i).1 = set_abuse c g.
Proof.
  intros Hb. destruct (gate_cases tok c r i) as (c1 & Hc & Hg).
  assert (∃ g, c1 = set_abuse c g) as [g ->].
  { destruct Hc as [-> |[host ->]]; [|apply allow_frame]. exists (abuse c). by destruct c. }
  destruct Hg as [[_ Ha]|[Hc1 Hst]]; [|split; [done|by exists g]]. exfalso.
  unfold admitted in Ha. apply andb_true_iff in Ha as [Ha Hk]. apply CheckBearer_eq in Hk as [Hk Hne].
  destruct Hb as [Hb|[Hb|(host & port & Es & Hip & Hr)]]; [by apply Hb|done|].
  rewrite Es in Ha. rewrite Hr, orb_false_r in Ha. destruct (net_ParseIP host) as [ip|]; [|done].
  by rewrite (Hip ip eq_refl) in Ha.
Qed.


(** ** Witnesses *)

Section witness.
#[local] Existing Instances no_ipv6 amd64 ascii_unicode api_keys api_key_error api_json.

Lemma api_gate_witness :
  status_of (authLoopback "mgmt-token" (ctrl demo_api)
    (demo_request "203.0.113.9:4444" "Bearer mgmt-token" "/session/revoke" "t1") demo_api_io).2 = StatusForbidden
  ∧ ∃ g, (authLoopback "mgmt-token" (ctrl demo_api)
    (demo_request "203.0.113.9:4444" "Bearer mgmt-token" "/session/revoke" "t1") demo_api_io).1
    = set_abuse (ctrl demo_api) g.
Proof.
  split; [vm_compute; reflexivity|].
  apply (api_gate "mgmt-token" (ctrl demo_api)
    (demo_request "203.0.113.9:4444" "Bearer mgmt-token" "/session/revoke" "t1") demo_api_io).
  right. right. exists "203.0.113.9", "4444". split; [vm_compute; reflexivity|].
  split; [|vm_compute; reflexivity]. intros ip Hip.
  assert (net_ParseIP "203.0.113.9" = Some (V4 3405803785)) as Hv by (vm_compute; reflexivity).
  rewrite Hv in Hip. injection Hip as <-. vm_compute. reflexivity.
Defined.
End witness.
