(* ===== verification/Xswd.v ===== *)
(** * Xswd: the wallet bridge (internal/dero/xswd.go, xswd_client.go)

    The socket client that asks the user's wallet for a transfer, its
    handshake, the verdicts it reads, and the mock bridge.  The websocket, the
    JSON decoding of a result and URL parsing lie outside the repository. *)

From Stdlib Require Import ZArith Lia.
From S2P Require Import Prelude GoStrings Crypto GoText.
From S2P Require Import Dero.

Record XSWDConfig := mkXSWDConfig { AppID : string; AppName : string; cfg_Endpoint : string }.

Inductive error :=
| ErrEndpoint | ErrAppID | ErrUnavailable (what : string) | ErrDenied (msg : string)
| ErrHandshake (msg : string) | ErrNotConnected | ErrCall (method msg : string)
| ErrDecode (method : string) | ErrDestination | ErrAmount | ErrContext | ErrClose (e : string).

Definition is_denied (e : error) : bool := match e with ErrDenied _ => true | _ => false end.
Definition is_unavailable (e : error) : bool := match e with ErrUnavailable _ => true | _ => false end.

(** The interface the payment code asks through. *)
Class XSWDConnector (X : Type) : Type := {
  x_Connect : X → XSWDConfig → X * result error unit;
  x_Connected : X → bool;
  x_RequestTransfer : X → string → Z → X * result error string;
  x_Close : X → X * result error unit
}.

(** ** The mock bridge (xswd.go) *)

Record MockXSWDRequest := mkRequest { Destination : string; AmountAtomic : Z }.
Record MockXSWD := mkMockXSWD {
  AutoApprove : bool; Requests : list MockXSWDRequest; connected : bool; txSeq : Z }.
Definition NewMockXSWD : MockXSWD := mkMockXSWD false [] false 0.

Definition MockXSWD_Connect (m : MockXSWD) (c : XSWDConfig) : MockXSWD * result error unit :=
  if String.eqb (AppID c) "" then (m, Err ErrAppID)
  else (mkMockXSWD (AutoApprove m) (Requests m) true (txSeq m), Ok tt).
Definition MockXSWD_RequestTransfer (m : MockXSWD) (dest : string) (amount : Z)
  : MockXSWD * result error string :=
  if negb (connected m) then (m, Err ErrNotConnected)
  else
    let reqs := Requests m ++ [mkRequest dest amount] in
    if negb (AutoApprove m) then (mkMockXSWD (AutoApprove m) reqs true (txSeq m), Err (ErrDenied ""))
    else let n := wrap_i64 (txSeq m + 1) in
         (mkMockXSWD (AutoApprove m) reqs true n, Ok ("mock-xswd-tx-" +:+ fmt_d n)).
Definition MockXSWD_Close (m : MockXSWD) : MockXSWD * result error unit :=
  (mkMockXSWD (AutoApprove m) (Requests m) false (txSeq m), Ok tt).

#[export] Instance mock_bridge : XSWDConnector MockXSWD := {
  x_Connect := MockXSWD_Connect; x_Connected := connected;
  x_RequestTransfer := MockXSWD_RequestTransfer; x_Close := MockXSWD_Close }.

(** ** Frames *)

Record applicationData := mkApplicationData {
  app_ID : string; app_Name : string; Description : string }.
Inductive call_params :=
| NoParams | TransferParams (destination : string) (amount : Z) (ringsize : Z).
Inductive frame :=
| Application (d : applicationData)
| Request (id : Z) (method : string) (params : call_params).

Record xswdReply := mkReply {
  Accepted : option bool;
  Message : string;
  rep_ID : option Z;
  Result : string;  (* raw JSON, empty when absent *)
  rep_Error : option (Z * string)
}.

(** The websocket.  [ws_Receive] answers [None] on a read error or deadline. *)
Class Socket (K : Type) : Type := {
  ws_Send : K → frame → K * bool;
  ws_Receive : K → K * option xswdReply;
  ws_Close : K → result string unit
}.

(** [json.Unmarshal] of a result into the struct of the method. *)
Class ResultJSON : Type := {
  decode_address : string → option string;
  decode_balance : string → option Balance;
  decode_txid : string → option string
}.

Definition DefaultEndpoint : string := "ws://127.0.0.1:44326/xswd".
Definition appIDFor `{Sha256} (appName : string) : string :=
  hex_EncodeToString (sha256_Sum256 ("veilnet-xswd:" +:+ appName)).
Definition NewXSWDConfig `{Sha256} (endpoint appName : string) : XSWDConfig :=
  let endpoint := if String.eqb endpoint "" then DefaultEndpoint else endpoint in
  let appName := if String.eqb appName "" then "VeilNet" else appName in
  mkXSWDConfig (appIDFor appName) appName endpoint.

Definition isDenialMessage `{Unicode} (msg : string) : bool :=
  let low := strings_ToLower msg in
  existsb (strings_Contains low) ["denied"; "rejected"; "refused"; "not allowed"; "permission"].

(** ** The client *)

Record XSWDClient (K : Type) := mkClient { conn : option K; xcfg : XSWDConfig; seq : Z }.
Arguments mkClient {_}. Arguments conn {_}. Arguments xcfg {_}. Arguments seq {_}.
Definition NewXSWDClient {K} : XSWDClient K := mkClient None (mkXSWDConfig "" "" "") 0.

(** How waiting for a reply ends: with what the socket gives, or because the
    caller's context is done, in which case the reader left behind may still
    have taken a frame. *)
Inductive wait := Waits | Cancelled (consumed : bool).

Definition or_else (s d : string) : string := if String.eqb s "" then d else s.

Section client.
Context {K : Type} `{Socket K, Sha256, ResultJSON, URL, Unicode}.
Abbreviation Client := (XSWDClient K).
Implicit Types c : Client.

Definition with_conn c (k : option K) : Client := mkClient k (xcfg c) (seq c).

Definition Close c : Client * result error unit :=
  match conn c with
  | None => (c, Ok tt)
  | Some k => (with_conn c None, result_map_err ErrClose (ws_Close k))
  end.

Definition writeJSON c (f : frame) : Client * result error unit :=
  match conn c with
  | None => (c, Err ErrNotConnected)
  | Some k => let '(k, ok) := ws_Send k f in
              (with_conn c (Some k), if ok then Ok tt else Err (ErrUnavailable "XSWD write"))
  end.

Definition readReply c (w : wait) : Client * result error xswdReply :=
  match conn c with
  | None => (c, Err ErrNotConnected)
  | Some k =>
    match w with
    | Cancelled consumed =>
      (with_conn c (Some (if consumed then (ws_Receive k).1 else k)), Err ErrContext)
    | Waits =>
      let '(k, r) := ws_Receive k in
      (with_conn c (Some k), match r with Some r => Ok r | None => Err (ErrUnavailable "XSWD read") end)
    end
  end.

(** The verdict of a reply to the handshake. *)
Definition handshake_verdict (r : xswdReply) : option error :=
  match Accepted r, rep_Error r with
  | Some false, _ => Some (ErrDenied (or_else (Message r) "wallet refused the application"))
  | _, Some (_, msg) => Some (ErrHandshake msg)
  | _, None => None
  end.

Definition handshake (cfg : XSWDConfig) : frame :=
  Application (mkApplicationData (AppID cfg) (AppName cfg)
    "VeilNet privacy VPN: explicit, user-approved session payments only.").

(** [dial] is what opening the socket of an endpoint with an origin gives. *)
Definition Connect c (cfg : XSWDConfig) (dial : string → string → option K) (w : wait)
  : Client * result error unit :=
  if String.eqb (cfg_Endpoint cfg) "" then (c, Err ErrEndpoint)
  else
    let cfg := if String.eqb (AppID cfg) ""
               then mkXSWDConfig (appIDFor (AppName cfg)) (AppName cfg) (cfg_Endpoint cfg) else cfg in
    if negb (len (AppID cfg) =? 64) then (c, Err ErrAppID)
    else match url_Parse (cfg_Endpoint cfg) with
    | None => (c, Err (ErrUnavailable "bad XSWD endpoint"))
    | Some u =>
      if negb (String.eqb (Scheme u) "ws") && negb (String.eqb (Scheme u) "wss")
      then (c, Err (ErrUnavailable "XSWD endpoint must be ws:// or wss://"))
      else match dial (cfg_Endpoint cfg) ("http://" +:+ Host u) with
      | None => (c, Err (ErrUnavailable "XSWD dial failed"))
      | Some k =>
        match writeJSON (mkClient (Some k) cfg 0) (handshake cfg) with
        | (c, Err e) => ((Close c).1, Err e)
        | (c, Ok _) =>
          match readReply c w with
          | (c, Err e) => ((Close c).1, Err e)
          | (c, Ok r) =>
            match handshake_verdict r with
            | Some e => ((Close c).1, Err e)
            | None => (c, Ok tt)
            end
          end
        end
      end
    end.

Definition Connected c : bool := match conn c with Some _ => true | None => false end.
Definition Endpoint c : string := cfg_Endpoint (xcfg c).

(** The verdict of a reply to a call. *)
Definition call_verdict (method : string) (r : xswdReply) : option error :=
  match Accepted r, rep_Error r with
  | Some false, _ => Some (ErrDenied (or_else (Message r) ("wallet refused " +:+ method)))
  | _, Some (_, msg) => Some (if isDenialMessage msg then ErrDenied msg else ErrCall method msg)
  | _, None => None
  end.

(** [decode] reads the result, which stays [zero] when there is none. *)
Definition Call {A} c (method : string) (params : call_params) (zero : A) (decode : string → option A)
  (w : wait) : Client * result error A :=
  match conn c with
  | None => (c, Err ErrNotConnected)
  | Some k =>
    let id := wrap_i64 (seq c + 1) in
    match writeJSON (mkClient (Some k) (xcfg c) id) (Request id method params) with
    | (c, Err e) => (c, Err e)
    | (c, Ok _) =>
      match readReply c w with
      | (c, Err e) => (c, Err e)
      | (c, Ok r) =>
        (c, match call_verdict method r with
            | Some e => Err e
            | None => if String.eqb (Result r) "" then Ok zero
                      else match decode (Result r) with Some v => Ok v | None => Err (ErrDecode method) end
            end)
      end
    end
  end.

Definition GetAddress c (w : wait) : Client * result error string :=
  Call c "GetAddress" NoParams "" decode_address w.
Definition GetBalance c (w : wait) : Client * result error Balance :=
  Call c "GetBalance" NoParams (mkBalance 0 0) decode_balance w.
Definition RequestTransfer c (dest : string) (amountAtomic : Z) (w : wait) : Client * result error string :=
  if String.eqb dest "" then (c, Err ErrDestination)
  else if amountAtomic =? 0 then (c, Err ErrAmount)
  else Call c "transfer" (TransferParams dest amountAtomic 32) "" decode_txid w.

(** Any use of one client; a dial opens sockets that are [fresh]. *)
Inductive step (fresh : K → Prop) : Client → Client → Prop :=
| step_connect c cfg dial w : (∀ e o k, dial e o = Some k → fresh k) → step fresh c (Connect c cfg dial w).1
| step_close c : step fresh c (Close c).1
| step_address c w : step fresh c (GetAddress c w).1
| step_balance c w : step fresh c (GetBalance c w).1
| step_transfer c dest amount w : step fresh c (RequestTransfer c dest amount w).1.
End client.

(** ** What the socket promises

    [ws_sent] and [ws_read] are what went over it, in order. *)

Class SocketLaws (K : Type) `{Socket K} : Type := {
  ws_sent : K → list frame;
  ws_read : K → list xswdReply;
  send_law k f : (ws_sent (ws_Send k f).1 = ws_sent k ++ [f]
                  ∨ (ws_Send k f).2 = false ∧ ws_sent (ws_Send k f).1 = ws_sent k)
    ∧ ws_read (ws_Send k f).1 = ws_read k;
  receive_law k : ws_sent (ws_Receive k).1 = ws_sent k
    ∧ ws_read (ws_Receive k).1 = ws_read k ++ match (ws_Receive k).2 with Some r => [r] | None => [] end
}.

(** A reply that neither refuses nor reports an error. *)
Definition agreed (r : xswdReply) : Prop := Accepted r ≠ Some false ∧ rep_Error r = None.
Definition is_request (f : frame) : Prop := match f with Request _ _ _ => True | _ => False end.

Section client_proofs.
Context {K : Type} `{HK : Socket K} `{!SocketLaws K, Sha256, ResultJSON, URL, Unicode}.
Abbreviation Client := (XSWDClient K).
Implicit Types c : Client.

Lemma verdict_agreed method r :
  (handshake_verdict r = None → agreed r) ∧ (call_verdict method r = None → agreed r).
Proof.
  unfold handshake_verdict, call_verdict, agreed.
  destruct (Accepted r) as [[]|], (rep_Error r) as [[]|]; split; done.
Qed.

(** What one call does to the wire and what its success means. *)
Record called {A} c (k k' : K) (method : string) (params : call_params) (zero : A)
  (decode : string → option A) (r : result error A) : Prop := {
  cd_sent : ws_sent k' = ws_sent k ++ [Request (wrap_i64 (seq c + 1)) method params]
    ∨ ws_sent k' = ws_sent k ∧ ws_read k' = ws_read k;
  cd_read : ∃ reps, ws_read k' = ws_read k ++ reps ∧ (length reps ≤ 1)%nat;
  cd_ok v : r = Ok v → ∃ rep, ws_read k' = ws_read k ++ [rep] ∧ agreed rep
    ∧ ws_sent k' = ws_sent k ++ [Request (wrap_i64 (seq c + 1)) method params]
    ∧ (Result rep = "" ∧ v = zero ∨ decode (Result rep) = Some v)
}.

Lemma call_called {A} c k method params (zero : A) decode w c' r :
  conn c = Some k → Call c method params zero decode w = (c', r) →
  ∃ k', conn c' = Some k' ∧ xcfg c' = xcfg c ∧ called c k k' method params zero decode r.
Proof.
  intros Hk. unfold Call. rewrite Hk. unfold writeJSON. cbn [conn].
  set (f := Request _ _ _). pose proof (send_law k f) as [Hs Hr].
  destruct (ws_Send k f) as [k1 ok]. cbn [fst snd] in *. destruct ok.
  - destruct Hs as [Hs|[? _]]; [|done]. unfold readReply. cbn [conn with_conn].
    destruct w as [|consumed].
    + pose proof (receive_law k1) as [Rs Rr]. destruct (ws_Receive k1) as [k2 [rep|]]; cbn [fst snd] in *.
      * intros [= <- <-]. exists k2. split_and!; [done|done|]. split.
        -- left. by rewrite Rs, Hs.
        -- exists [rep]. split; [by rewrite Rr, Hr|cbn; lia].
        -- intros v Hv. exists rep. split; [by rewrite Rr, Hr|].
           destruct (call_verdict method rep) eqn:Ev; [done|]. split; [exact (proj2 (verdict_agreed method rep) Ev)|].
           split; [by rewrite Rs, Hs|].
           destruct (String.eqb_spec (Result rep) "") as [He|He]; [left; by injection Hv|].
           right. destruct (decode _); [by injection Hv as ->|done].
      * intros [= <- <-]. exists k2. split_and!; [done|done|]. split; [left; by rewrite Rs, Hs| |done].
        exists []. rewrite Rr, Hr. split; [done|cbn; lia].
    + intros [= <- <-]. pose proof (receive_law k1) as [Rs Rr].
      exists (if consumed then (ws_Receive k1).1 else k1). split_and!; [done|done|].
      destruct consumed; split; try done; [left; by rewrite Rs, Hs| |left; by rewrite Hs|].
      * exists (match (ws_Receive k1).2 with Some r => [r] | None => [] end). rewrite Rr, Hr.
        split; [done|]. destruct (ws_Receive k1).2; cbn; lia.
      * exists []. rewrite app_nil_r. split; [done|cbn; lia].
  - intros [= <- <-]. exists k1. split_and!; [done|done|]. split; [| |done].
    + destruct Hs as [Hs|[_ Hs]]; [by left|by right].
    + exists []. rewrite app_nil_r. split; [done|cbn; lia].
Qed.

(** Nothing is on the wire of an open bridge before the handshake and the
    wallet's acceptance of it. *)
Record live c (k : K) : Prop := {
  lv_id : len (AppID (xcfg c)) = 64;
  lv_sent : ∃ reqs, ws_sent k = handshake (xcfg c) :: reqs ∧ Forall is_request reqs;
  lv_read : ∃ r reps, ws_read k = r :: reps ∧ agreed r
}.
Definition sound c : Prop := match conn c with Some k => live c k | None => True end.

Lemma call_sound {A} c method params (zero : A) decode w :
  sound c → sound (Call c method params zero decode w).1.
Proof.
  intros Hs. destruct (conn c) as [k|] eqn:Hk.
  2: { unfold Call. rewrite Hk. done. }
  destruct (Call c method params zero decode w) as [c' r] eqn:Ec.
  destruct (call_called _ _ _ _ _ _ _ _ _ Hk Ec) as (k' & Hk' & Hc & [Cs (reps & Cr & _) _]).
  unfold sound in *. cbn. rewrite Hk in Hs. rewrite Hk'.
  destruct Hs as [Hi (reqs & Hr & Hf) (r0 & reps0 & Hd & Hv)]. split; rewrite ?Hc; [done| |].
  - destruct Cs as [->|[-> _]]; [|by exists reqs]. exists (reqs ++ [Request (wrap_i64 (seq c + 1)) method params]).
    rewrite Hr. split; [done|]. apply Forall_app. split; [done|]. by apply Forall_singleton.
  - exists r0, (reps0 ++ reps). by rewrite Cr, Hd.
Qed.

Lemma close_sound c : sound (Close c).1.
Proof. unfold Close, sound. destruct (conn c) eqn:E; cbn; by rewrite ?E. Qed.

(** The outcome of a handshake on a fresh socket. *)
Lemma connect_cases c cfg dial w c' r :
  (∀ e o k, dial e o = Some k → ws_sent k = [] ∧ ws_read k = []) → Connect c cfg dial w = (c', r) →
  match r with
  | Ok _ => len (AppID (xcfg c')) = 64 ∧ ∃ k rep, conn c' = Some k ∧ ws_sent k = [handshake (xcfg c')]
      ∧ ws_read k = [rep] ∧ agreed rep
  | Err _ => c' = c ∨ conn c' = None
  end.
Proof.
  intros Hd. unfold Connect. destruct (String.eqb _ ""); [intros [= <- <-]; by left|].
  set (cfg2 := if String.eqb _ "" then _ else _).
  destruct (Z.eqb_spec (len (AppID cfg2)) 64) as [Hi|]; [|intros [= <- <-]; by left].
  cbn [negb]. destruct (url_Parse _) as [u|]; [|intros [= <- <-]; by left].
  destruct (_ && _); [intros [= <- <-]; by left|].
  destruct (dial _ _) as [k|] eqn:Ek; [|intros [= <- <-]; by left]. apply Hd in Ek as [Es Er].
  unfold writeJSON. cbn [conn]. pose proof (send_law k (handshake cfg2)) as [Ss Sr].
  destruct (ws_Send k _) as [k1 ok]. cbn [fst snd] in *. destruct ok; [|intros [= <- <-]; by right].
  destruct Ss as [Ss|[? _]]; [|done]. rewrite Es in Ss. rewrite Er in Sr. unfold readReply. cbn [conn with_conn].
  destruct w as [|consumed]; [|intros [= <- <-]; by right].
  pose proof (receive_law k1) as [Rs Rr]. destruct (ws_Receive k1) as [k2 [rep|]]; [|intros [= <- <-]; by right].
  cbn [fst snd] in *. destruct (handshake_verdict rep) eqn:Ev; intros [= <- <-]; [by right|].
  split; [done|]. exists k2, rep. split_and!; [done|by rewrite Rs, Ss|by rewrite Rr, Sr|exact (proj1 (verdict_agreed "" rep) Ev)].
Qed.

Lemma connect_sound c cfg dial w :
  (∀ e o k, dial e o = Some k → ws_sent k = [] ∧ ws_read k = []) → sound c → sound (Connect c cfg dial w).1.
Proof.
  intros Hd Hs. destruct (Connect c cfg dial w) as [c' r] eqn:Ec. apply connect_cases in Ec; [|done].
  destruct r as [[]|e]; cbn.
  - destruct Ec as (Hi & k & rep & Hk & Hsent & Hread & Hv). unfold sound. rewrite Hk.
    split; [done|by exists []|by exists rep, []].
  - destruct Ec as [-> |Hn]; [done|]. unfold sound. by rewrite Hn.
Qed.

Lemma bridge_step_sound c c' : step (fun k => ws_sent k = [] ∧ ws_read k = []) c c' → sound c → sound c'.
Proof.
  intros [c0 cfg dial w Hd|c0|c0 w|c0 w|c0 dest amount w] Hs.
  - by apply connect_sound.
  - apply close_sound.
  - by apply call_sound.
  - by apply call_sound.
  - unfold RequestTransfer. destruct (String.eqb _ _); [done|]. destruct (_ =? _); [done|]. by apply call_sound.
Qed.
End client_proofs.

(** ** Witness data *)

(** A socket that plays a list of replies, and JSON texts that are their own
    values. *)
Record script := mkScript {
  sc_sent : list frame; sc_read : list xswdReply; sc_replies : list (option xswdReply) }.
#[local] Instance script_socket : Socket script := {
  ws_Send k f := (mkScript (sc_sent k ++ [f]) (sc_read k) (sc_replies k), true);
  ws_Receive k := match sc_replies k with
                  | [] => (k, None)
                  | r :: l => (mkScript (sc_sent k) (sc_read k ++ match r with Some r => [r] | None => [] end) l, r)
                  end;
  ws_Close k := Ok tt
}.
#[local] Instance script_laws : SocketLaws script.
Proof.
  refine {| ws_sent := sc_sent; ws_read := sc_read |}.
  - intros k f. split; [by left|done].
  - intros [s r [|[x|] l]]; cbn; rewrite ?app_nil_r; done.
Defined.
#[local] Instance text_json : ResultJSON := {
  decode_address := Some; decode_txid := Some; decode_balance _ := Some (mkBalance 0 0) }.
#[local] Instance one_url : URL := {
  url_Parse s := if String.eqb s DefaultEndpoint then Some (mkURL "ws" "127.0.0.1:44326" "/xswd" "") else None;
  URL_String u := Scheme u +:+ "://" +:+ Host u +:+ Path u }.
#[local] Existing Instances toy_sha256 ascii_unicode.

Definition yes (result : string) : option xswdReply := Some (mkReply (Some true) "" None result None).
Definition no (msg : string) : option xswdReply := Some (mkReply None "" None "" (Some (-1, msg))).
Definition opened (l : list (option xswdReply)) : XSWDClient script * result error unit :=
  Connect NewXSWDClient (NewXSWDConfig "" "")
    (fun e o => if String.eqb o "http://127.0.0.1:44326" then Some (mkScript [] [] l) else None) Waits.

(** ** Properties *)

(** a bridge is open only after the wallet said yes.  On sockets that are
    fresh when dialled, after any use of a client: while it is connected, the
    first frame sent is the handshake with its 64-digit application id, the
    first reply read accepted it, and everything sent since is a call. *)
Theorem live_bridge_was_accepted {K} `{Socket K} `{!SocketLaws K, Sha256, ResultJSON, URL, Unicode}
  (c : XSWDClient K) k :
  rtc (step (fun k => ws_sent k = [] ∧ ws_read k = [])) NewXSWDClient c → conn c = Some k → live c k.
Proof.
  intros Hs Hk. assert (sound (NewXSWDClient (K := K))) as Hz by done.
  assert (sound c) as Hc; [|unfold sound in Hc; by rewrite Hk in Hc].
  revert Hz. clear Hk. induction Hs as [|c1 c2 c3 Hs _ IH]; [done|]. intros Hz. by eapply IH, bridge_step_sound.
Qed.

(** a transfer is asked for once and never against a refusal.  With no
    destination or a zero amount nothing happens; otherwise at most one frame
    goes out, it asks for this amount to this destination, and at most one
    reply is read.  Success means that the frame went out and that the reply read carries
    neither a refusal nor an error. *)
Theorem transfer_asked_once {K} `{Socket K} `{!SocketLaws K, Sha256, ResultJSON, URL, Unicode}
  (c c' : XSWDClient K) k dest amount w r :
  conn c = Some k → RequestTransfer c dest amount w = (c', r) →
  match r with
  | Err ErrDestination => dest = "" ∧ c' = c
  | Err ErrAmount => amount = 0 ∧ c' = c
  | _ => dest ≠ "" ∧ amount ≠ 0 ∧ ∃ k', conn c' = Some k' ∧ xcfg c' = xcfg c
      ∧ called c k k' "transfer" (TransferParams dest amount 32) "" decode_txid r
  end.
Proof.
  intros Hk. unfold RequestTransfer. destruct (String.eqb_spec dest "") as [He|He]; [by intros [= <- <-]|].
  destruct (Z.eqb_spec amount 0) as [Hz|Hz]; [by intros [= <- <-]|]. intros Hc.
  pose proof (call_called _ _ _ _ _ _ _ _ _ Hk Hc) as (k' & Hk' & Hx & Hd).
  assert (r ≠ Err ErrDestination ∧ r ≠ Err ErrAmount) as [Hr1 Hr2].
  { revert Hc. clear. unfold Call. destruct (conn c) as [k|]; [|by intros [= _ <-]]. unfold writeJSON, readReply.
    cbn [conn]. destruct (ws_Send k _) as [k1 []]; [|by intros [= _ <-]]. cbn [conn with_conn].
    destruct w; [|by intros [= _ <-]]. destruct (ws_Receive k1) as [k2 [rep|]]; [|by intros [= _ <-]].
    intros [= _ <-]. unfold call_verdict. destruct (Accepted rep) as [[]|], (rep_Error rep) as [[? ?]|];
      try destruct (isDenialMessage _); try destruct (String.eqb _ _); try destruct (decode_txid _); done. }
  assert (dest ≠ "" ∧ amount ≠ 0 ∧ ∃ k', conn c' = Some k' ∧ xcfg c' = xcfg c
    ∧ called c k k' "transfer" (TransferParams dest amount 32) "" decode_txid r) as Hall by eauto 10.
  destruct r as [v|[]]; done.
Qed.

(** ** Witnesses *)

Definition bridge : XSWDClient script := (opened [yes ""; yes "tx-1"]).1.

Lemma live_bridge_was_accepted_witness :
  (opened [yes ""; yes "tx-1"]).2 = Ok tt ∧ ∃ k, conn bridge = Some k ∧ live bridge k.
Proof.
  split; [vm_compute; reflexivity|].
  exists (mkScript [handshake (NewXSWDConfig "" "")] [mkReply (Some true) "" None "" None] [yes "tx-1"]).
  assert (conn bridge = Some (mkScript [handshake (NewXSWDConfig "" "")]
    [mkReply (Some true) "" None "" None] [yes "tx-1"])) as Hk by (vm_compute; reflexivity).
  split; [exact Hk|]. apply (live_bridge_was_accepted bridge); [|exact Hk].
  apply rtc_once, step_connect. intros e o k. cbn. destruct (String.eqb o _); [by intros [= <-]|done].
Defined.

Definition asked : XSWDClient script * result error string := RequestTransfer bridge "deto1" 500 Waits.

Lemma transfer_asked_once_witness : asked.2 = Ok "tx-1"
  ∧ ∃ k, conn asked.1 = Some k ∧ sc_sent k
      = [handshake (NewXSWDConfig "" ""); Request 1 "transfer" (TransferParams "deto1" 500 32)].
Proof.
  split; [vm_compute; reflexivity|].
  assert (∃ k, conn bridge = Some k ∧ sc_sent k = [handshake (NewXSWDConfig "" "")] ∧ seq bridge = 0) as
    (k & Hk & Hs & Hq) by (eexists; split_and!; vm_compute; reflexivity).
  assert (RequestTransfer bridge "deto1" 500 Waits = (asked.1, Ok "tx-1")) as Ha by (vm_compute; reflexivity).
  destruct (transfer_asked_once bridge asked.1 k "deto1" 500 Waits (Ok "tx-1") Hk Ha)
    as (_ & _ & k' & Hk' & _ & [_ _ Ho]).
  exists k'. split; [exact Hk'|]. destruct (Ho "tx-1" eq_refl) as (rep & _ & _ & Hsent & _).
  transitivity (sc_sent k ++ [Request (wrap_i64 (seq bridge + 1)) "transfer" (TransferParams "deto1" 500 32)]);
    [exact Hsent|]. rewrite Hs, Hq. vm_compute. reflexivity.
Defined.

(** ** What the model shows *)

(** Replies are not matched to calls: the transfer id that arrives after its
    call gave up is the answer to the next call. *)
Example late_reply_answers_next_call :
  let c := (opened [yes ""; None; yes "tx-of-first"; yes "tx-of-second"]).1 in
  let r1 := RequestTransfer c "deto1" 500 Waits in
  let r2 := RequestTransfer r1.1 "deto2" 900 Waits in
  r1.2 = Err (ErrUnavailable "XSWD read") ∧ Connected r1.1 = true ∧ r2.2 = Ok "tx-of-first".
Proof. vm_compute. split_and!; reflexivity. Qed.

(** A reply without a result is a successful transfer without an id. *)
Example approved_without_txid :
  (RequestTransfer (opened [yes ""; yes ""]).1 "deto1" 500 Waits).2 = Ok "".
Proof. vm_compute. reflexivity. Qed.

(** The wallet's "no" is recognised in an error message too. *)
Example denial_in_error :
  (RequestTransfer (opened [yes ""; no "Transaction was Rejected by user"]).1 "deto1" 500 Waits).2
  = Err (ErrDenied "Transaction was Rejected by user").
Proof. vm_compute. reflexivity. Qed.
