(* ===== verification/WalletAuth.v ===== *)
(** * WalletAuth: the wallet's JSON-RPC transport (internal/dero/auth.go, client.go)

    Parsing a 401 challenge, answering it by the Basic or the Digest scheme,
    and the call that retries once with the answer.  MD5, JSON, URL parsing,
    the HTTP round trip and the client nonce's random bytes are classes and
    arguments.  Header values are read as bytes: on text that is not UTF-8 the
    code would replace bytes, which the model does not. *)

From Stdlib Require Import ZArith Lia Ascii.
From S2P Require Import Prelude GoStrings GoText.

Record creds := mkCreds { user : string; pass : string }.
Definition empty (c : creds) : bool := String.eqb (user c) "" && String.eqb (pass c) "".

Record challenge := mkChallenge { scheme : string; params : gmap string string }.

Class Md5 : Type := { md5_Sum : string → list Z }.

(** ** The challenge *)

(** Split on commas that are not inside quotes. *)
Fixpoint split_auth (inQuote : bool) (cur l : list ascii) : list (list ascii) :=
  match l with
  | [] => match cur with [] => [] | _ => [cur] end
  | r :: l =>
    if chr r dquote then split_auth (negb inQuote) (cur ++ [r]) l
    else if chr r ","%char && negb inQuote then cur :: split_auth inQuote [] l
    else split_auth inQuote (cur ++ [r]) l
  end.
Definition splitAuthParams (s : string) : list string := map of_chars (split_auth false [] (chars s)).

(** [strings.Trim] with the quote as its cut set. *)
Fixpoint trim_quotes (l : list ascii) : list ascii :=
  match l with
  | c :: l' => if chr c dquote then trim_quotes l' else l
  | [] => []
  end.
Definition strings_Trim_quotes (s : string) : string :=
  of_chars (reverse (trim_quotes (reverse (trim_quotes (chars s))))).

Section auth.
Context `{Md5, Unicode, URL, StrconvQuote}.

Definition add_param (m : gmap string string) (part : string) : gmap string string :=
  match strings_Cut part "="%char with
  | None => m
  | Some (k, v) => <[strings_ToLower (strings_TrimSpace k) := strings_Trim_quotes (strings_TrimSpace v)]> m
  end.

Definition parseChallenge (header : string) : challenge :=
  let header := strings_TrimSpace header in
  if String.eqb header "" then mkChallenge "" ∅
  else match strings_Cut header " "%char with
  | None => mkChallenge (strings_ToLower header) ∅
  | Some (s, rest) => mkChallenge (strings_ToLower s) (foldl add_param ∅ (splitAuthParams rest))
  end.

(** ** The answer *)

Definition md5hex (parts : list string) : string := hex_EncodeToString (md5_Sum (strings_Join parts ":")).
Definition clientNonce (rand : option (list Z)) : string :=
  match rand with Some b => hex_EncodeToString b | None => "00000000feedface" end.
Definition basicToken (user pass : string) : string :=
  base64_Std_EncodeToString (map byte_val (chars (user +:+ ":" +:+ pass))).

(** The path and query of the request. *)
Definition request_uri (rawURL : string) : string :=
  match url_Parse rawURL with
  | Some u => if String.eqb (Path u) "" then "/"
              else if String.eqb (RawQuery u) "" then Path u else Path u +:+ "?" +:+ RawQuery u
  | None => "/"
  end.

Definition chosen_qop (qop : string) : string :=
  if strings_Contains qop "auth-int" && negb (strings_Contains qop "auth,") then "auth-int"
  else if strings_Contains qop "auth" then "auth" else "".

Definition param (ch : challenge) (k : string) : string := default "" (params ch !! k).
Definition field_q (k v : string) : string := k +:+ "=" +:+ strconv_Quote v.

Definition creds_digest (c : creds) (ch : challenge) (method rawURL : string) (rand : option (list Z))
  : string :=
  let realm := param ch "realm" in
  let nonce := param ch "nonce" in
  if String.eqb nonce "" then ""
  else
    let uri := request_uri rawURL in
    let ha1 := md5hex [user c; realm; pass c] in
    let ha2 := md5hex [method; uri] in
    let qop := chosen_qop (param ch "qop") in
    let nc := "00000001" in
    let cnonce := clientNonce rand in
    let response := if String.eqb qop "auth" then md5hex [ha1; nonce; nc; cnonce; qop; ha2]
                    else md5hex [ha1; nonce; ha2] in
    let op := param ch "opaque" in
    let al := param ch "algorithm" in
    "Digest " +:+ strings_Join
      ([field_q "username" (user c); field_q "realm" realm; field_q "nonce" nonce; field_q "uri" uri]
       ++ (if String.eqb qop "auth" then ["qop=auth"; "nc=" +:+ nc; field_q "cnonce" cnonce] else [])
       ++ [field_q "response" response]
       ++ (if String.eqb op "" then [] else [field_q "opaque" op])
       ++ (if String.eqb al "" then [] else ["algorithm=" +:+ al])) ", ".

Definition creds_authorization (c : creds) (ch : challenge) (method rawURL : string)
  (rand : option (list Z)) : string :=
  if String.eqb (scheme ch) "basic" then "Basic " +:+ basicToken (user c) (pass c)
  else if String.eqb (scheme ch) "digest" then creds_digest c ch method rawURL rand
  else "".

(** ** HTTP *)

(** A POST of [rq_body]; an empty [Authorization] is no header. *)
Record http_request := mkRequest { rq_URL : string; rq_body : string; Authorization : string }.
Record http_response := mkResponse { StatusCode : Z; WWWAuthenticate : string; resp_body : string }.

Definition StatusUnauthorized : Z := 401.

(** The request after [applyRetryAuth], when it is worth retrying. *)
Definition creds_applyRetryAuth (c : creds) (req : http_request) (resp : http_response)
  (rand : option (list Z)) : option http_request :=
  if empty c || negb (StatusCode resp =? StatusUnauthorized) then None
  else
    let ch := parseChallenge (WWWAuthenticate resp) in
    let ch := if String.eqb (scheme ch) "" then mkChallenge "basic" (params ch) else ch in
    let hdr := creds_authorization c ch "POST" (rq_URL req) rand in
    if String.eqb hdr "" then None else Some (mkRequest (rq_URL req) (rq_body req) hdr).

(** [http.Client.Do]; [None] when no response came. *)
Class Transport (T : Type) : Type := { http_Do : T → http_request → T * option http_response }.

(** [json.Marshal] of the request and decoding of the answer into its result
    and its error message. *)
Class RPCJSON (P : Type) : Type := {
  rpc_encode : string → option P → string;
  rpc_decode : string → option (string * option string)
}.

Inductive call_error :=
| ErrUnavailable | ErrRejected | ErrLogin | ErrDaemon (method msg : string)
| ErrWallet (method msg : string) | ErrDecode (method : string).

Context {T P : Type} `{Transport T, RPCJSON P}.

Definition newReq (base body : string) : option http_request :=
  match url_Parse (base +:+ "/json_rpc") with
  | None => None
  | Some u => Some (mkRequest (URL_String u) body "")
  end.

(** The body of an answer, into [A]. *)
Definition read_answer {A} (fail : string → call_error) (method : string) (resp : http_response)
  (decode : string → option A) : result call_error A :=
  match rpc_decode (resp_body resp) with
  | None => Err ErrUnavailable
  | Some (_, Some msg) => Err (fail msg)
  | Some (raw, None) => match decode raw with Some v => Ok v | None => Err (ErrDecode method) end
  end.

(** [HTTPDaemonClient.call]. *)
Definition HTTPDaemonClient_call {A} (t : T) (base method : string) (decode : string → option A)
  : T * result call_error A :=
  match newReq base (rpc_encode method None) with
  | None => (t, Err ErrUnavailable)
  | Some req =>
    match http_Do t req with
    | (t, None) => (t, Err ErrUnavailable)
    | (t, Some resp) => (t, read_answer (ErrDaemon method) method resp decode)
    end
  end.

(** [HTTPWalletClient.call]: a challenge is answered once. *)
Definition HTTPWalletClient_call {A} (t : T) (base : string) (auth : creds) (method : string) (ps : P)
  (decode : string → option A) (rand : option (list Z)) : T * result call_error A :=
  let answer t resp :=
    (t, if StatusCode resp =? StatusUnauthorized then Err ErrLogin
        else read_answer (ErrWallet method) method resp decode) in
  match newReq base (rpc_encode method (Some ps)) with
  | None => (t, Err ErrUnavailable)
  | Some req =>
    match http_Do t req with
    | (t, None) => (t, Err ErrUnavailable)
    | (t, Some resp) =>
      if (StatusCode resp =? StatusUnauthorized) && negb (empty auth) then
        match creds_applyRetryAuth auth req resp rand with
        | None => (t, Err ErrRejected)
        | Some retry =>
          match http_Do t retry with
          | (t, None) => (t, Err ErrUnavailable)
          | (t, Some resp) => answer t resp
          end
        end
      else answer t resp
    end
  end.
End auth.

(** ** The grammar of challenges and answers *)

Inductive auth_field := Quoted (k v : string) | Token (k v : string).
Definition field_key (f : auth_field) : string := match f with Quoted k _ | Token k _ => k end.
Definition field_val (f : auth_field) : string := match f with Quoted _ v | Token _ v => v end.
Definition field_text (f : auth_field) : string :=
  match f with Quoted k v => k +:+ "=" +:+ quoted v | Token k v => k +:+ "=" +:+ v end.

(** Outside quotes: visible, and neither a quote, a comma nor an equals sign. *)
Definition token_char (c : ascii) : bool :=
  plain_char c && negb (chr c dquote) && negb (chr c ","%char) && negb (chr c "="%char).
Definition token (s : string) : bool := forallb token_char (chars s).
Definition printable (s : string) : bool := forallb quotable (chars s).

Definition fields_map (fs : list auth_field) : gmap string string :=
  foldl (fun m f => <[field_key f := field_val f]> m) ∅ fs.
Definition fields_text (fs : list auth_field) : string := strings_Join (map field_text fs) ", ".

(** ** The other side: a server that asks for a Digest login (RFC 2617) *)

Record server := mkServer { s_user : string; s_pass : string; s_realm : string; s_nonce : string; s_qop : bool }.

Definition server_fields (s : server) : list auth_field :=
  [Quoted "realm" (s_realm s); Quoted "nonce" (s_nonce s)]
  ++ (if s_qop s then [Quoted "qop" "auth"] else []) ++ [Token "algorithm" "MD5"].
Definition server_challenge (s : server) : string := "Digest " +:+ fields_text (server_fields s).

(** The request digest over what the server knows, with the counter and the
    client nonce taken from the header. *)
Definition server_accepts `{Md5, Unicode} (s : server) (method uri hdr : string) : bool :=
  let a := parseChallenge hdr in
  let ha1 := md5hex [s_user s; s_realm s; s_pass s] in
  let ha2 := md5hex [method; uri] in
  String.eqb (scheme a) "digest"
  && String.eqb (param a "username") (s_user s) && String.eqb (param a "realm") (s_realm s)
  && String.eqb (param a "nonce") (s_nonce s) && String.eqb (param a "uri") uri
  && String.eqb (param a "qop") (if s_qop s then "auth" else "")
  && (negb (s_qop s) || negb (String.eqb (param a "cnonce") "") && (len (param a "nc") =? 8))
  && String.eqb (param a "response")
       (if s_qop s then md5hex [ha1; s_nonce s; param a "nc"; param a "cnonce"; "auth"; ha2]
        else md5hex [ha1; s_nonce s; ha2]).

Section auth_proofs.
Context `{Md5, Unicode}.

Record field_ok (f : auth_field) : Prop := {
  fo_key : token (field_key f) = true;
  fo_lower : strings_ToLower (field_key f) = field_key f;
  fo_val : match f with Quoted _ v => dquote ∉ chars v | Token _ v => token v = true end
}.

Lemma token_facts s c : token s = true → c ∈ chars s →
  plain_char c = true ∧ c ≠ dquote ∧ c ≠ ","%char ∧ c ≠ "="%char.
Proof.
  unfold token. rewrite forallb_forall. intros Hs Hc%list_elem_of_In%Hs. unfold token_char in Hc.
  rewrite !andb_true_iff, !negb_true_iff in Hc. destruct Hc as [[[Hp Hq] Hm] He].
  split_and!; [done|..]; intros ->; by rewrite (proj2 (chr_eq _ _) eq_refl) in *.
Qed.

Lemma token_trimmed s : token s = true → trimmed s.
Proof.
  intros Hs. apply trimmed_plain. apply forallb_forall. intros c Hc%list_elem_of_In.
  by apply (token_facts s c).
Qed.

Lemma printable_no_quote s : printable s = true → dquote ∉ chars s.
Proof.
  unfold printable. rewrite forallb_forall. intros Hs Hc%list_elem_of_In%Hs. by vm_compute in Hc.
Qed.

Lemma split_quiet q cur l r : (∀ c, c ∈ l → c ≠ dquote ∧ (q = false → c ≠ ","%char)) →
  split_auth q cur (l ++ r) = split_auth q (cur ++ l) r.
Proof.
  revert cur. induction l as [|c l IH]; intros cur Hl; cbn [app]; [by rewrite app_nil_r|].
  cbn [split_auth]. destruct (Hl c ltac:(by left)) as [Hq Hm].
  destruct (chr c dquote) eqn:Ec; [by apply chr_eq in Ec|].
  destruct (chr c ","%char && negb q) eqn:Em.
  { apply andb_true_iff in Em as [Em Eq]. apply chr_eq in Em. apply negb_true_iff in Eq. by destruct (Hm Eq). }
  rewrite IH by (intros; apply Hl; by right). by rewrite <- app_assoc.
Qed.

Lemma chars_quoted v : chars (quoted v) = dquote :: chars v ++ [dquote].
Proof. unfold quoted. by rewrite !chars_app. Qed.

Lemma split_text f cur r : field_ok f →
  split_auth false cur (chars (field_text f) ++ r) = split_auth false (cur ++ chars (field_text f)) r.
Proof.
  intros [Hk _ Hv]. assert (∀ c, c ∈ chars (field_key f) ++ ["="%char] →
    c ≠ dquote ∧ (false = false → c ≠ ","%char)) as Hkey.
  { intros c [Hc| ->%list_elem_of_singleton]%elem_of_app; [|done].
    by destruct (token_facts _ _ Hk Hc) as (_ & ? & ? & _). }
  destruct f as [k v|k v]; cbn [field_text field_key] in *; rewrite !chars_app;
    change (chars "=") with ["="%char]; rewrite <- !app_assoc, (app_assoc (chars k)), split_quiet by done.
  - rewrite chars_quoted. cbn [app split_auth]. rewrite (proj2 (chr_eq dquote dquote) eq_refl). cbn [negb].
    rewrite <- (app_assoc (chars v)), split_quiet by (intros c Hc; split; [by intros ->|done]).
    cbn [app split_auth].
    rewrite (proj2 (chr_eq dquote dquote) eq_refl). cbn [negb]. by rewrite <- !app_assoc.
  - rewrite split_quiet; [by rewrite <- !app_assoc|]. intros c Hc.
    by destruct (token_facts _ _ Hv Hc) as (_ & ? & ? & _).
Qed.

Lemma split_fields f fs cur : Forall field_ok (f :: fs) →
  split_auth false cur (chars (fields_text (f :: fs)))
  = (cur ++ chars (field_text f)) :: map (fun g => " "%char :: chars (field_text g)) fs.
Proof.
  unfold fields_text. revert f cur. induction fs as [|g fs IH]; intros f cur [Hf Hfs]%Forall_cons; cbn [map].
  - cbn [strings_Join]. rewrite <- (app_nil_r (chars (field_text f))) at 1. rewrite split_text by done.
    cbn [split_auth]. destruct (cur ++ chars (field_text f)) eqn:E; [|done].
    apply app_eq_nil in E as [_ E]. destruct f as [[|] ?|[|] ?]; done.
  - rewrite join_cons, !chars_app, split_text by done. change (chars ", ") with [","%char; " "%char].
    cbn [app split_auth]. replace (chr ","%char dquote) with false by reflexivity.
    replace (chr ","%char ","%char && negb false) with true by reflexivity.
    replace (chr " "%char dquote) with false by reflexivity.
    replace (chr " "%char ","%char && negb false) with false by reflexivity.
    f_equal. by apply (IH g [" "%char]).
Qed.

Lemma trim_quotes_none l : dquote ∉ l → trim_quotes l = l.
Proof.
  destruct l as [|c l]; cbn [trim_quotes]; [done|]. intros Hl.
  destruct (chr c dquote) eqn:Ec; [|done]. apply chr_eq in Ec as ->. set_solver.
Qed.

Lemma trim_quoted v : dquote ∉ chars v → strings_Trim_quotes (quoted v) = v.
Proof.
  intros Hv. unfold strings_Trim_quotes. rewrite chars_quoted. cbn [trim_quotes].
  rewrite (proj2 (chr_eq dquote dquote) eq_refl).
  destruct (chars v) as [|c l] eqn:Ev.
  { cbn. by rewrite <- (of_chars_chars v), Ev. }
  cbn [app trim_quotes]. destruct (chr c dquote) eqn:Ec; [apply chr_eq in Ec; set_solver|].
  rewrite app_comm_cons, reverse_app.
  change (reverse [dquote]) with [dquote]. cbn [app trim_quotes].
  rewrite (proj2 (chr_eq dquote dquote) eq_refl).
  rewrite trim_quotes_none by (rewrite elem_of_reverse; done).
  by rewrite reverse_involutive, <- Ev, of_chars_chars.
Qed.

Lemma quoted_trimmed v : trimmed (quoted v).
Proof.
  unfold trimmed. rewrite <- (of_chars_chars (quoted v)), chars_quoted. apply trimmed_intro.
  - exact (proj1 (strip_plain dquote _ eq_refl)).
  - rewrite reverse_cons, reverse_app. change (reverse [dquote]) with [dquote]. cbn [app].
    exact (proj2 (strip_plain dquote _ eq_refl)).
Qed.

Lemma add_field pre f m : pre = "" ∨ pre = " " → field_ok f →
  add_param m (pre +:+ field_text f) = <[field_key f := field_val f]> m.
Proof.
  intros Hpre [Hk Hl Hv]. unfold add_param.
  assert ("="%char ∉ chars (pre +:+ field_key f)) as Hne.
  { rewrite chars_app, elem_of_app. intros [Hc|Hc].
    - destruct Hpre as [-> | ->]; set_solver.
    - by destruct (token_facts _ _ Hk Hc) as (_ & _ & _ & ?). }
  assert (pre +:+ field_text f = (pre +:+ field_key f) +:+ "=" +:+ match f with Quoted _ v => quoted v | Token _ v => v end)
    as -> by (destruct f; cbn; by rewrite <- string_app_assoc).
  rewrite strings_Cut_app by done.
  assert (strings_TrimSpace (pre +:+ field_key f) = field_key f) as ->.
  { pose proof (token_trimmed _ Hk) as Ht. destruct Hpre as [-> | ->]; [done|]. by apply trim_lead. }
  rewrite Hl. f_equal. destruct f as [k v|k v]; cbn [field_val].
  - by rewrite quoted_trimmed, trim_quoted.
  - rewrite (token_trimmed v Hv). unfold strings_Trim_quotes.
    assert (dquote ∉ chars v) as Hq by (intros Hc; by destruct (token_facts _ _ Hv Hc) as (_ & ? & _)).
    rewrite (trim_quotes_none (chars v) Hq), trim_quotes_none by (rewrite elem_of_reverse; done).
    by rewrite reverse_involutive, of_chars_chars.
Qed.

Lemma fold_fields fs m : Forall field_ok fs →
  foldl add_param m (map (fun g => " " +:+ field_text g) fs)
  = foldl (fun m f => <[field_key f := field_val f]> m) m fs.
Proof.
  revert m. induction fs as [|f fs IH]; intros m; cbn [map foldl]; [done|]. intros [Hf Hfs]%Forall_cons.
  rewrite add_field by auto. by apply IH.
Qed.

Lemma fields_end f fs : Forall field_ok (f :: fs) →
  ∃ l c, chars (fields_text (f :: fs)) = l ++ [c] ∧ plain_char c = true.
Proof.
  unfold fields_text. revert f. induction fs as [|g fs IH]; intros f [Hf Hfs]%Forall_cons; cbn [map].
  - cbn [strings_Join]. destruct f as [k v|k v]; cbn [field_text]; rewrite !chars_app.
    + rewrite chars_quoted. exists (chars k ++ chars "=" ++ dquote :: chars v), dquote.
      by rewrite <- !app_assoc.
    + destruct (chars v) as [|c l _] eqn:Ev using rev_ind.
      * exists (chars k), "="%char. by rewrite app_nil_r.
      * exists (chars k ++ chars "=" ++ l), c. rewrite <- !app_assoc. split; [done|].
        apply (token_facts v c); [apply Hf|]. rewrite Ev. apply elem_of_app. right. by left.
  - destruct (IH g Hfs) as (l & c & Hl & Hc). rewrite join_cons, !chars_app. cbn [map] in Hl. rewrite Hl.
    exists (chars (field_text f) ++ chars ", " ++ l), c. by rewrite <- !app_assoc.
Qed.

(** Printing fields under a scheme and parsing them gives them back. *)
Lemma parse_fields sch f fs : token sch = true → sch ≠ "" → Forall field_ok (f :: fs) →
  parseChallenge (sch +:+ " " +:+ fields_text (f :: fs)) = mkChallenge (strings_ToLower sch) (fields_map (f :: fs)).
Proof.
  intros Hsch Hne Hfs. unfold parseChallenge.
  destruct (fields_end f fs Hfs) as (l & c & El & Hc).
  assert (trimmed (sch +:+ " " +:+ fields_text (f :: fs))) as ->.
  { unfold trimmed. rewrite <- (of_chars_chars (_ +:+ _)). apply trimmed_intro; rewrite !chars_app, El.
    - assert (plain_char (default dquote (head (chars sch))) = true) as Hp.
      { destruct (chars sch) as [|d r] eqn:Ed; [done|]. apply (token_facts sch d); [done|]. rewrite Ed. by left. }
      destruct (chars sch) as [|d r] eqn:Ed; [by apply chars_nil in Hne|].
      exact (proj1 (strip_plain d _ Hp)).
    - rewrite !app_assoc, reverse_app. exact (proj2 (strip_plain c _ Hc)). }
  destruct (String.eqb_spec (sch +:+ " " +:+ fields_text (f :: fs)) "") as [E|_].
  { apply (f_equal chars) in E. rewrite !chars_app in E. by destruct (chars sch). }
  rewrite strings_Cut_app by (intros Hs; destruct (token_facts sch _ Hsch Hs) as [Hp _]; discriminate Hp).
  f_equal. unfold splitAuthParams. rewrite split_fields by done. cbn [map app].
  rewrite map_map, of_chars_chars. cbn [foldl]. apply Forall_cons in Hfs as [Hf Hfs].
  change (field_text f) with ("" +:+ field_text f). rewrite add_field by auto.
  unfold fields_map. cbn [foldl]. rewrite <- (fold_fields fs _ Hfs). f_equal. apply map_ext. intros g. cbn. by rewrite of_chars_chars.
Qed.

Context `{URL, StrconvQuote}.

Lemma printable_hex b : printable (hex_EncodeToString b) = true.
Proof.
  unfold printable. pose proof (hex_plain b) as Hp. unfold hex_EncodeToString in *. rewrite chars_of_chars in *.
  clear Hp. assert (∀ z, 0 ≤ z < 16 → quotable (hex_digit z) = true) as Hd.
  { apply (check_below (fun z => quotable (hex_digit z)) 16). vm_compute. reflexivity. }
  induction b as [|z b IH]; cbn [flat_map app forallb]; [done|].
  rewrite !Hd by (apply Z.mod_pos_bound; lia). done.
Qed.

Lemma printable_md5 l : printable (md5hex l) = true.
Proof. apply printable_hex. Qed.

Lemma field_q_text k v : printable v = true → field_q k v = field_text (Quoted k v).
Proof. intros Hv. unfold field_q. by rewrite strconv_Quote_plain. Qed.

Lemma challenge_parsed s : printable (s_realm s) = true → printable (s_nonce s) = true →
  parseChallenge (server_challenge s) = mkChallenge "digest" (fields_map (server_fields s)).
Proof.
  intros Hr Hn. unfold server_challenge, server_fields. cbn [app].
  change "Digest " with ("Digest" +:+ " "). rewrite <- string_app_assoc, parse_fields; [done|done|done|].
  assert (field_ok (Token "algorithm" "MD5")) as Ha by done.
  apply printable_no_quote in Hr, Hn. destruct (s_qop s); repeat (apply Forall_cons; split); try done.
  split; [done|done|]. vm_compute. set_solver.
Qed.

(** The fields of the answer to [server_challenge]. *)
Definition answer_fields (s : server) (uri cnonce response : string) : list auth_field :=
  [Quoted "username" (s_user s); Quoted "realm" (s_realm s); Quoted "nonce" (s_nonce s); Quoted "uri" uri]
  ++ (if s_qop s then [Token "qop" "auth"; Token "nc" "00000001"; Quoted "cnonce" cnonce] else [])
  ++ [Quoted "response" response; Token "algorithm" "MD5"].

Lemma server_params s : let p := fields_map (server_fields s) in
  default "" (p !! "realm") = s_realm s ∧ default "" (p !! "nonce") = s_nonce s
  ∧ default "" (p !! "qop") = (if s_qop s then "auth" else "")
  ∧ default "" (p !! "opaque") = "" ∧ default "" (p !! "algorithm") = "MD5".
Proof. destruct s as [u p r n []]; vm_compute; done. Qed.

Lemma answer_params s uri cn resp : let p := fields_map (answer_fields s uri cn resp) in
  default "" (p !! "username") = s_user s ∧ default "" (p !! "realm") = s_realm s
  ∧ default "" (p !! "nonce") = s_nonce s ∧ default "" (p !! "uri") = uri
  ∧ default "" (p !! "qop") = (if s_qop s then "auth" else "")
  ∧ default "" (p !! "nc") = (if s_qop s then "00000001" else "")
  ∧ default "" (p !! "cnonce") = (if s_qop s then cn else "") ∧ default "" (p !! "response") = resp.
Proof. destruct s as [u p r n []]; vm_compute; done. Qed.

Lemma answer_ok s uri cn resp : printable (s_user s) = true → printable (s_realm s) = true →
  printable (s_nonce s) = true → printable uri = true → printable cn = true → printable resp = true →
  parseChallenge ("Digest " +:+ fields_text (answer_fields s uri cn resp))
  = mkChallenge "digest" (fields_map (answer_fields s uri cn resp)).
Proof.
  intros Hu Hr Hn Hi Hc Hp. change "Digest " with ("Digest" +:+ " "). rewrite <- string_app_assoc.
  apply printable_no_quote in Hu, Hr, Hn, Hi, Hc, Hp. unfold answer_fields. cbn [app].
  rewrite parse_fields; [done|done|done|].
  destruct (s_qop s); repeat (apply Forall_cons; split); try done; by split.
Qed.

Lemma nonce_ok rand : printable (clientNonce rand) = true
  ∧ (rand ≠ Some [] → clientNonce rand ≠ "").
Proof.
  destruct rand as [b|]; [|by vm_compute]. split; [apply printable_hex|].
  intros Hb Hx. apply Hb. f_equal. by apply hex_encode_empty.
Qed.
End auth_proofs.

(** What went over the wire. *)
Class TransportLaws (T : Type) `{Transport T} : Type := {
  asked : T → list http_request;
  do_law t req : asked (http_Do t req).1 = asked t ++ [req]
}.

(** ** Witness data *)

#[local] Instance toy_md5 : Md5 := { md5_Sum s := map (fun c => byte_val c) (take 16 (chars s)) }.
#[local] Instance toy_quote : StrconvQuote.
Proof. by refine {| strconv_Quote := quoted |}. Defined.
#[local] Existing Instance ascii_unicode.
#[local] Instance toy_url : URL := {
  url_Parse s := Some (mkURL "http" "127.0.0.1:10103" "/json_rpc" "");
  URL_String u := Scheme u +:+ "://" +:+ Host u +:+ Path u
}.
#[local] Instance toy_json : RPCJSON string := {
  rpc_encode m p := m +:+ default "" p;
  rpc_decode s := if String.eqb s "" then None else Some (s, None)
}.
(** A server that wants the login of [s] and logs what it is asked. *)
Record wire := mkWire { wi_server : server; wi_log : list http_request }.
#[local] Instance server_transport : Transport wire := {
  http_Do t req :=
    (mkWire (wi_server t) (wi_log t ++ [req]),
     Some (if server_accepts (wi_server t) "POST" "/json_rpc" (Authorization req)
           then mkResponse 200 "" "42" else mkResponse 401 (server_challenge (wi_server t)) ""))
}.
#[local] Instance server_transport_laws : TransportLaws wire.
Proof. by refine {| asked := wi_log |}. Defined.

Definition demo_server : server := mkServer "veil" "s3cret" "dero, wallet" "abc123" true.
Definition demo_call (auth : creds) : wire * result call_error string :=
  HTTPWalletClient_call (mkWire demo_server []) "http://127.0.0.1:10103" auth "GetBalance" "{}"
    (fun s => Some s) (Some [1; 2; 3; 4; 5; 6; 7; 8]).
Definition plain_request : http_request := mkRequest "http://127.0.0.1:10103/json_rpc" "GetBalance{}" "".

(** ** Properties *)

(** C31: the wallet's Digest login works.  Whatever the realm, the nonce and the
    user name, as long as they can stand between quotes, with or without
    quality of protection: the header built from the server's challenge is one
    an RFC 2617 server with these credentials accepts. *)
Theorem digest_login_accepted `{Md5, Unicode, URL, StrconvQuote} (s : server) method rawURL rand :
  printable (s_user s) = true → printable (s_realm s) = true → printable (s_nonce s) = true →
  printable (request_uri rawURL) = true → s_nonce s ≠ "" → rand ≠ Some [] →
  server_accepts s method (request_uri rawURL)
    (creds_authorization (mkCreds (s_user s) (s_pass s)) (parseChallenge (server_challenge s))
       method rawURL rand) = true.
Proof.
  intros Hu Hr Hn Hi Hne Hrand. rewrite challenge_parsed by done. unfold creds_authorization. cbn [scheme].
  replace (String.eqb "digest" "basic") with false by reflexivity.
  replace (String.eqb "digest" "digest") with true by reflexivity.
  destruct (server_params s) as (Pr & Pn & Pq & Po & Pa). unfold creds_digest, param. cbn [params user pass].
  rewrite Pr, Pn, Pq, Po, Pa. rewrite (proj2 (String.eqb_neq _ _) Hne). clear Pr Pn Pq Po Pa.
  destruct (nonce_ok rand) as [Hcn Hcne]. specialize (Hcne Hrand). set (cn := clientNonce rand) in *.
  set (uri := request_uri rawURL) in *. set (ha1 := md5hex [s_user s; s_realm s; s_pass s]).
  set (ha2 := md5hex [method; uri]).
  set (resp := if s_qop s then md5hex [ha1; s_nonce s; "00000001"; cn; "auth"; ha2]
               else md5hex [ha1; s_nonce s; ha2]).
  match goal with |- server_accepts _ _ _ ?h = true => assert (h
    = "Digest " +:+ fields_text (answer_fields s uri cn resp)) as -> end.
  { assert (printable resp = true) as Hp by (unfold resp; destruct (s_qop s); apply printable_md5).
    unfold fields_text, answer_fields. f_equal. f_equal. rewrite !field_q_text by
      first [done | (destruct (s_qop s); apply printable_md5)].
    unfold resp. by destruct (s_qop s). }
  unfold server_accepts. rewrite answer_ok; try done; [|unfold resp; destruct (s_qop s); apply printable_md5].
  unfold param. cbn [scheme params].
  destruct (answer_params s uri cn resp) as (-> & -> & -> & -> & -> & -> & -> & ->).
  fold ha1 ha2. rewrite !String.eqb_refl. cbn [andb]. unfold resp.
  destruct (s_qop s); cbn [negb orb andb]; rewrite ?String.eqb_refl; [|done].
  by rewrite (proj2 (String.eqb_neq _ _) Hcne).
Qed.

(** credentials go out only after a challenge, and once.  A call sends
    nothing, or one request without an Authorization header, or that request
    and, after a 401 and only with credentials configured, the same request
    once more with the header. *)
Theorem login_only_when_challenged `{Md5, Unicode, URL, StrconvQuote} {T P A} `{TransportLaws T, RPCJSON P}
  (t t' : T) base auth method (ps : P) (decode : string → option A) rand r :
  HTTPWalletClient_call t base auth method ps decode rand = (t', r) →
  asked t' = asked t ∧ r = Err ErrUnavailable
  ∨ ∃ req, rq_body req = rpc_encode method (Some ps) ∧ Authorization req = ""
    ∧ (asked t' = asked t ++ [req]
       ∨ ∃ resp hdr, (http_Do t req).2 = Some resp ∧ StatusCode resp = StatusUnauthorized
         ∧ empty auth = false ∧ hdr ≠ ""
         ∧ asked t' = asked t ++ [req; mkRequest (rq_URL req) (rq_body req) hdr]).
Proof.
  unfold HTTPWalletClient_call, newReq. destruct (url_Parse _) as [u|]; [|intros [= <- <-]; by left].
  set (req := mkRequest _ _ _). pose proof (do_law t req) as Hd. intros Hc. right.
  exists req. split; [done|]. split; [done|]. revert Hc.
  destruct (http_Do t req) as [t1 [resp|]] eqn:Er; cbn [fst snd] in *; [|intros [= <- _]; by left].
  destruct ((StatusCode resp =? StatusUnauthorized) && negb (empty auth)) eqn:Ec; [|intros [= <- _]; by left].
  apply andb_true_iff in Ec as [Es%Z.eqb_eq Ee%negb_true_iff].
  unfold creds_applyRetryAuth. rewrite Ee, Es. cbn [orb negb Z.eqb]. rewrite Z.eqb_refl. cbn [negb].
  set (hdr := creds_authorization _ _ _ _ _). destruct (String.eqb_spec hdr "") as [Hh|Hh]; [intros [= <- _]; by left|].
  set (retry := mkRequest _ _ hdr). pose proof (do_law t1 retry) as Hd2. rewrite Hd, <- app_assoc in Hd2.
  intros Hc. right. exists resp, hdr. split_and!; try done.
  destruct (http_Do t1 retry) as [t2 [resp2|]]; cbn [fst] in *; by injection Hc as <- _.
Qed.

(** ** Witnesses *)

Lemma digest_login_accepted_witness :
  server_accepts demo_server "POST" "/json_rpc"
    (creds_authorization (mkCreds "veil" "s3cret") (parseChallenge (server_challenge demo_server)) "POST"
       "http://127.0.0.1:10103/json_rpc" None) = true.
Proof.
  exact (digest_login_accepted demo_server "POST" "http://127.0.0.1:10103/json_rpc" None
    ltac:(vm_compute; reflexivity) ltac:(vm_compute; reflexivity) ltac:(vm_compute; reflexivity)
    ltac:(vm_compute; reflexivity) ltac:(discriminate) ltac:(discriminate)).
Defined.

Lemma login_only_when_challenged_witness :
  (demo_call (mkCreds "veil" "s3cret")).2 = Ok "42"
  ∧ length (wi_log (demo_call (mkCreds "veil" "s3cret")).1) = 2%nat
  ∧ (demo_call (mkCreds "" "")).2 = Err ErrLogin ∧ wi_log (demo_call (mkCreds "" "")).1 = [plain_request].
Proof.
  assert (demo_call (mkCreds "" "") = ((demo_call (mkCreds "" "")).1, Err ErrLogin)) as Hn
    by (vm_compute; reflexivity).
  split; [vm_compute; reflexivity|]. split; [vm_compute; reflexivity|]. split; [vm_compute; reflexivity|].
  destruct (login_only_when_challenged _ _ _ _ _ _ _ _ _ Hn)
    as [[_ Hx]|(req & Hb & Ha & [Hl|(resp & hdr & _ & _ & He & _)])]; [discriminate Hx| |discriminate He].
  assert (wi_log (demo_call (mkCreds "" "")).1 = [plain_request]) as Hw by (vm_compute; reflexivity).
  exact Hw.
Defined.

(** ** What the model shows *)

(** A 401 that names no scheme is answered with the password in the clear. *)
Example unnamed_scheme_gets_the_password :
  option_map Authorization (creds_applyRetryAuth (mkCreds "veil" "s3cret") plain_request
    (mkResponse 401 "" "") None) = Some "Basic dmVpbDpzM2NyZXQ=".
Proof. vm_compute. reflexivity. Qed.

(** Offered "auth-int" and "auth", the code settles for "auth-int", which it
    does not implement, and answers in the form without protection. *)
Example auth_int_is_preferred :
  chosen_qop "auth-int, auth" = "auth-int" ∧ chosen_qop "auth,auth-int" = "auth"
  ∧ strings_Contains (creds_digest (mkCreds "u" "p")
      (parseChallenge ("Digest realm=" +:+ quoted "r" +:+ ", nonce=" +:+ quoted "n" +:+ ", qop=" +:+ quoted "auth-int, auth"))
      "POST" "http://127.0.0.1:10103/json_rpc" None) "cnonce" = false.
Proof. vm_compute. split_and!; reflexivity. Qed.
