(* ===== verification/WgConf.v ===== *)
(** * WgConf: WireGuard configuration texts ([internal/wireguard/wgconf.go])

    Keys, validation, the wg-quick INI writer and reader, the device IPC
    writer and the reader of its dump.  Curve25519 comes from a library
    outside the repository and is the class [Curve25519]; random bytes are an
    argument.  A writer produces whole lines, so its text is the list of the
    lines it writes. *)

From Stdlib Require Import ZArith Lia Ascii.
From S2P Require Import Prelude GoStrings NetIP GoText.

(** [curve25519.X25519] against the base point: 32 bytes from 32 bytes. *)
Class Curve25519 : Type := {
  X25519_Basepoint : list Z → option (list Z);
  X25519_bytes : ∀ sk pk, X25519_Basepoint sk = Some pk →
    length pk = 32%nat ∧ Forall is_byte pk
}.

Definition KeyLen : nat := 32.

Record Peer := mkPeer {
  PublicKey : string;
  Endpoint : string;
  AllowedIPs : list string;
  Keepalive : Z
}.

Record Config := mkConfig {
  PrivateKey : string;
  ListenPort : Z;
  Addresses : list string;
  DNS : list string;
  Peers : list Peer;
  MTU : Z
}.

Inductive error :=
| ErrEntropy | ErrDerive | ErrPrivateKey | ErrPublicKey | ErrListenPort | ErrAddress (a : string)
| ErrDNS (d : string) | ErrNoPeer | ErrPeerKey (i : nat) | ErrPeerEndpoint (i : nat)
| ErrPeerPort (i : nat) | ErrPeerAllowed (i : nat) (a : string) | ErrPeerKeepalive (i : nat)
| ErrBadListenPort (v : string) | ErrBadMTU (v : string) | ErrBadKeepalive (v : string)
| ErrNoPrivateKey.

Definition MTUOrDefault (c : Config) : Z := if MTU c >? 0 then MTU c else 1420.

(** ** Keys *)

Definition clamp (sk : list Z) : list Z :=
  alter (fun b => Z.lor (Z.land b 127) 64) 31%nat (alter (Z.land 248) 0%nat sk).

Definition GenerateKeypair `{Curve25519} (rand : option (list Z))
  : result error (string * string) :=
  match rand with
  | None => Err ErrEntropy
  | Some sk =>
    let sk := clamp sk in
    match X25519_Basepoint sk with
    | None => Err ErrDerive
    | Some pk => Ok (base64_Std_EncodeToString sk, base64_Std_EncodeToString pk)
    end
  end.

Definition PublicKeyFor `{Curve25519} (priv : string) : result error string :=
  match base64_Std_DecodeString priv with
  | Some raw =>
    if (length raw =? KeyLen)%nat then
      match X25519_Basepoint (clamp raw) with
      | None => Err ErrDerive
      | Some pk => Ok (base64_Std_EncodeToString pk)
      end
    else Err ErrPrivateKey
  | None => Err ErrPrivateKey
  end.

Definition key_hex (key : string) : option string :=
  match base64_Std_DecodeString (strings_TrimSpace key) with
  | Some raw => if (length raw =? KeyLen)%nat then Some (hex_EncodeToString raw) else None
  | None => None
  end.

Definition privateKeyHex (priv : string) : result error string :=
  match key_hex priv with Some h => Ok h | None => Err ErrPrivateKey end.
Definition publicKeyHex (pub : string) : result error string :=
  match key_hex pub with Some h => Ok h | None => Err ErrPublicKey end.

(** ** Validation *)

Section validation.
Context `{IPv6, Netip}.

(** A non-empty endpoint: host and a port in 1..65535. *)
Definition check_endpoint (i : nat) (ep : string) : result error unit :=
  let ep := strings_TrimSpace ep in
  if String.eqb ep "" then Ok tt
  else match net_SplitHostPort ep with
  | None => Err (ErrPeerEndpoint i)
  | Some (h, p) =>
    if String.eqb h "" then Err (ErrPeerEndpoint i)
    else match strconv_Atoi p with
    | None => Err (ErrPeerPort i)
    | Some n => if (n <=? 0) || (n >? 65535) then Err (ErrPeerPort i) else Ok tt
    end
  end.

Fixpoint check_each {A} (ok : A → bool) (err : A → error) (l : list A) : result error unit :=
  match l with
  | [] => Ok tt
  | a :: l => if ok a then check_each ok err l else Err (err a)
  end.

Definition check_peer (i : nat) (p : Peer) : result error unit :=
  match publicKeyHex (PublicKey p) with
  | Err _ => Err (ErrPeerKey i)
  | Ok _ =>
    match check_endpoint i (Endpoint p) with
    | Err e => Err e
    | Ok _ =>
      match check_each netip_ParsePrefix_ok (ErrPeerAllowed i) (AllowedIPs p) with
      | Err e => Err e
      | Ok _ => if Keepalive p <? 0 then Err (ErrPeerKeepalive i) else Ok tt
      end
    end
  end.

Fixpoint check_peers (i : nat) (l : list Peer) : result error unit :=
  match l with
  | [] => Ok tt
  | p :: l => match check_peer i p with Err e => Err e | Ok _ => check_peers (S i) l end
  end.

Definition Validate (cfg : Config) : result error unit :=
  match privateKeyHex (PrivateKey cfg) with
  | Err e => Err e
  | Ok _ =>
    if (ListenPort cfg <? 0) || (ListenPort cfg >? 65535) then Err ErrListenPort
    else match check_each netip_ParsePrefix_ok ErrAddress (Addresses cfg) with
    | Err e => Err e
    | Ok _ =>
      match check_each (fun d => is_Some_b (net_ParseIP d)) ErrDNS (DNS cfg) with
      | Err e => Err e
      | Ok _ =>
        match Peers cfg with
        | [] => Err ErrNoPeer
        | ps => check_peers 0 ps
        end
      end
    end
  end.
End validation.

(** ** The INI format *)

Definition when (b : bool) (l : list string) : list string := if b then l else [].
Definition nonempty {A} (l : list A) : bool := match l with [] => false | _ => true end.

Definition interface_lines (cfg : Config) : list string :=
  ["[Interface]"; "PrivateKey = " +:+ strings_TrimSpace (PrivateKey cfg)]
  ++ when (nonempty (Addresses cfg)) ["Address = " +:+ strings_Join (Addresses cfg) ", "]
  ++ when (nonempty (DNS cfg)) ["DNS = " +:+ strings_Join (DNS cfg) ", "]
  ++ when (ListenPort cfg >? 0) ["ListenPort = " +:+ fmt_d (ListenPort cfg)]
  ++ when (MTU cfg >? 0) ["MTU = " +:+ fmt_d (MTU cfg)].

Definition peer_lines (p : Peer) : list string :=
  [""; "[Peer]"; "PublicKey = " +:+ strings_TrimSpace (PublicKey p)]
  ++ when (negb (String.eqb (strings_TrimSpace (Endpoint p)) ""))
       ["Endpoint = " +:+ strings_TrimSpace (Endpoint p)]
  ++ when (nonempty (AllowedIPs p)) ["AllowedIPs = " +:+ strings_Join (AllowedIPs p) ", "]
  ++ when (Keepalive p >? 0) ["PersistentKeepalive = " +:+ fmt_d (Keepalive p)].

Definition GenerateINI (cfg : Config) : string :=
  write_lines (interface_lines cfg ++ flat_map peer_lines (Peers cfg)).

(** [splitList] *)
Definition split_list (v : string) : list string :=
  List.filter (fun f => negb (String.eqb f "")) (map strings_TrimSpace (strings_Split v ","%char)).

(** [cur] points at the last peer while it is not [nil]. *)
Record reader := mkReader { r_cfg : Config; r_cur : bool }.

Definition set_PrivateKey (c : Config) (v : string) : Config :=
  mkConfig v (ListenPort c) (Addresses c) (DNS c) (Peers c) (MTU c).
Definition add_Addresses (c : Config) (l : list string) : Config :=
  mkConfig (PrivateKey c) (ListenPort c) (Addresses c ++ l) (DNS c) (Peers c) (MTU c).
Definition add_DNS (c : Config) (l : list string) : Config :=
  mkConfig (PrivateKey c) (ListenPort c) (Addresses c) (DNS c ++ l) (Peers c) (MTU c).
Definition set_ListenPort (c : Config) (n : Z) : Config :=
  mkConfig (PrivateKey c) n (Addresses c) (DNS c) (Peers c) (MTU c).
Definition set_MTU (c : Config) (n : Z) : Config :=
  mkConfig (PrivateKey c) (ListenPort c) (Addresses c) (DNS c) (Peers c) n.
Definition set_Peers (c : Config) (l : list Peer) : Config :=
  mkConfig (PrivateKey c) (ListenPort c) (Addresses c) (DNS c) l (MTU c).

Definition zero_config : Config := mkConfig "" 0 [] [] [] 0.
Definition zero_peer : Peer := mkPeer "" "" [] 0.

(** Write through [cur]. *)
Definition on_last (f : Peer → Peer) (c : Config) : Config :=
  set_Peers c (match reverse (Peers c) with
               | p :: l => reverse (f p :: l)
               | [] => []
               end).

Section reading.
Context `{Unicode}.

Definition read_section (r : reader) (name : string) : reader :=
  if String.eqb name "peer"
  then mkReader (set_Peers (r_cfg r) (Peers (r_cfg r) ++ [zero_peer])) true
  else mkReader (r_cfg r) false.

Definition read_interface (c : Config) (k v : string) : result error Config :=
  if String.eqb k "privatekey" then Ok (set_PrivateKey c v)
  else if String.eqb k "address" then Ok (add_Addresses c (split_list v))
  else if String.eqb k "dns" then Ok (add_DNS c (split_list v))
  else if String.eqb k "listenport" then
    match strconv_Atoi v with Some n => Ok (set_ListenPort c n) | None => Err (ErrBadListenPort v) end
  else if String.eqb k "mtu" then
    match strconv_Atoi v with Some n => Ok (set_MTU c n) | None => Err (ErrBadMTU v) end
  else Ok c.

Definition read_peer (c : Config) (k v : string) : result error Config :=
  if String.eqb k "publickey" then
    Ok (on_last (fun p => mkPeer v (Endpoint p) (AllowedIPs p) (Keepalive p)) c)
  else if String.eqb k "endpoint" then
    Ok (on_last (fun p => mkPeer (PublicKey p) v (AllowedIPs p) (Keepalive p)) c)
  else if String.eqb k "allowedips" then
    Ok (on_last (fun p => mkPeer (PublicKey p) (Endpoint p) (AllowedIPs p ++ split_list v)
                            (Keepalive p)) c)
  else if String.eqb k "persistentkeepalive" then
    match strconv_Atoi v with
    | Some n => Ok (on_last (fun p => mkPeer (PublicKey p) (Endpoint p) (AllowedIPs p) n) c)
    | None => Err (ErrBadKeepalive v)
    end
  else Ok c.

(** [line\[1 : len(line)-1\]] *)
Definition inner (line : string) : string :=
  of_chars (tl (take (String.length line - 1) (chars line))).

Definition read_line (r : reader) (line : string) : result error reader :=
  let line := strings_TrimSpace line in
  if String.eqb line "" || strings_HasPrefix line "#" || strings_HasPrefix line ";" then Ok r
  else if strings_HasPrefix line "[" && strings_HasSuffix line "]" then
    Ok (read_section r (strings_ToLower (strings_TrimSpace (inner line))))
  else match strings_Cut line "="%char with
  | None => Ok r
  | Some (k, v) =>
    let k := strings_ToLower (strings_TrimSpace k) in
    let v := strings_TrimSpace v in
    match (if r_cur r then read_peer else read_interface) (r_cfg r) k v with
    | Ok c => Ok (mkReader c (r_cur r))
    | Err e => Err e
    end
  end.

Fixpoint read_lines (r : reader) (l : list string) : result error reader :=
  match l with
  | [] => Ok r
  | line :: l => match read_line r line with Ok r => read_lines r l | Err e => Err e end
  end.

Definition ParseINI (s : string) : result error Config :=
  match read_lines (mkReader zero_config false) (strings_Split s nl) with
  | Err e => Err e
  | Ok r =>
    if String.eqb (strings_TrimSpace (PrivateKey (r_cfg r))) "" then Err ErrNoPrivateKey
    else Ok (r_cfg r)
  end.
End reading.

(** ** The device IPC format *)

Section ipc.
Context `{IPv6, Netip}.

Definition ipc_peer_lines (p : Peer) (pk : string) : list string :=
  ["public_key=" +:+ pk]
  ++ when (negb (String.eqb (strings_TrimSpace (Endpoint p)) ""))
       ["endpoint=" +:+ strings_TrimSpace (Endpoint p)]
  ++ map (fun a => "allowed_ip=" +:+ strings_TrimSpace a) (sort_Strings (AllowedIPs p))
  ++ when (Keepalive p >? 0) ["persistent_keepalive_interval=" +:+ fmt_d (Keepalive p)].

Fixpoint ipc_peers (l : list Peer) : result error (list string) :=
  match l with
  | [] => Ok []
  | p :: l =>
    match publicKeyHex (PublicKey p) with
    | Err e => Err e
    | Ok pk =>
      match ipc_peers l with
      | Err e => Err e
      | Ok r => Ok (ipc_peer_lines p pk ++ r)
      end
    end
  end.

Definition ToIPC (cfg : Config) : result error string :=
  match Validate cfg with
  | Err e => Err e
  | Ok _ =>
    match privateKeyHex (PrivateKey cfg) with
    | Err e => Err e
    | Ok sk =>
      match ipc_peers (Peers cfg) with
      | Err e => Err e
      | Ok ls =>
        Ok (write_lines (["private_key=" +:+ sk]
          ++ when (ListenPort cfg >? 0) ["listen_port=" +:+ fmt_d (ListenPort cfg)] ++ ls))
      end
    end
  end.
End ipc.

Record PeerStats := mkStats {
  ps_PublicKeyHex : string;
  ps_RxBytes : Z;
  ps_TxBytes : Z;
  ps_LastHandshake : time;
  ps_Endpoint : string;
  ps_AllowedIPs : list string;
  ps_KeepaliveSecs : Z
}.

Definition parseUint (s : string) : Z := default 0 (strconv_ParseUint (strings_TrimSpace s)).

(** The fields of the peer being read; other keys leave it alone. *)
Definition dump_field (p : PeerStats) (k v : string) : PeerStats :=
  let '(mkStats h rx tx hs ep ips ka) := p in
  if String.eqb k "rx_bytes" then mkStats h (parseUint v) tx hs ep ips ka
  else if String.eqb k "tx_bytes" then mkStats h rx (parseUint v) hs ep ips ka
  else if String.eqb k "last_handshake_time_sec" then
    match strconv_Atoi (strings_TrimSpace v) with
    | Some sec => if sec >? 0 then mkStats h rx tx (time_Unix sec) ep ips ka else p
    | None => p
    end
  else if String.eqb k "endpoint" then mkStats h rx tx hs (strings_TrimSpace v) ips ka
  else if String.eqb k "allowed_ip" then mkStats h rx tx hs ep (ips ++ [strings_TrimSpace v]) ka
  else if String.eqb k "persistent_keepalive_interval" then
    match strconv_Atoi (strings_TrimSpace v) with
    | Some n => mkStats h rx tx hs ep ips n
    | None => p
    end
  else p.

(** Peers finished so far and the one being read. *)
Definition dump_state : Type := list PeerStats * option PeerStats.

Definition flush (st : dump_state) : list PeerStats :=
  match st.2 with Some p => st.1 ++ [p] | None => st.1 end.

Definition dump_line `{Unicode} (st : dump_state) (line : string) : dump_state :=
  let line := strings_TrimSpace line in
  if String.eqb line "" then st
  else match strings_Cut line "="%char with
  | None => st
  | Some (k, v) =>
    let k := strings_ToLower (strings_TrimSpace k) in
    if String.eqb k "public_key"
    then (flush st, Some (mkStats (strings_TrimSpace v) 0 0 0 "" [] 0))
    else (st.1, (fun p => dump_field p k v) <$> st.2)
  end.

Definition ParseIPCDump `{Unicode} (dump : string) : list PeerStats :=
  flush (foldl dump_line ([], None) (strings_Split dump nl)).

Definition AggregateStats (peers : list PeerStats) : Z * Z * time :=
  foldl (fun '(rx, tx, last) p =>
    (wrap_u64 (rx + ps_RxBytes p), wrap_u64 (tx + ps_TxBytes p),
     if Time_After (ps_LastHandshake p) last then ps_LastHandshake p else last)) (0, 0, 0) peers.

(** ** Lemmas *)

(** A value a line can carry: no blanks around it, no line end inside. *)
Record value_ok (v : string) : Prop := {
  vo_nonempty : v ≠ "";
  vo_trimmed : trimmed v;
  vo_no_nl : nl ∉ chars v
}.

Lemma plain_value s : s ≠ "" → forallb plain_char (chars s) = true → value_ok s.
Proof. split; [done | by apply trimmed_plain | by apply plain_no_nl]. Qed.

Lemma number_value n : 0 ≤ n → value_ok (fmt_d n).
Proof. intros Hn. destruct (fmt_d_plain n Hn). by apply plain_value. Qed.

Lemma list_value l : Forall item_ok l → nonempty l = true → value_ok (strings_Join l ", ").
Proof.
  intros Hl. destruct Hl as [|x l Hx Hl]; [done|]. intros _.
  by destruct (join_facts x l Hx Hl) as (? & ? & ?).
Qed.

Lemma item_value s : item_ok s → value_ok s.
Proof. by intros []. Qed.

Lemma split_list_join l : Forall item_ok l → nonempty l = true →
  split_list (strings_Join l ", ") = l.
Proof.
  intros Hl. destruct Hl as [|x l Hx Hl]; [done|]. intros _.
  unfold split_list. rewrite split_join by done. cbn [map List.filter].
  assert (∀ y, item_ok y → negb (String.eqb y "") = true) as Hne.
  { intros y [Hy _ _ _]. by rewrite (proj2 (String.eqb_neq _ _)). }
  rewrite (io_trimmed x Hx), (Hne x Hx). f_equal.
  induction Hl as [|y l Hy Hl IH]; [done|]. cbn [map List.filter].
  rewrite (trim_lead y) by apply Hy. rewrite (Hne y Hy). by f_equal.
Qed.

(** A text of a key, a separator and a value splits at the separator. *)
Lemma cut_key k sep v : mem_char sep (chars k) = false →
  strings_Cut (k +:+ String.String sep v) sep = Some (k, v).
Proof.
  intros H%mem_char_false. unfold strings_Cut. rewrite chars_app. cbn [String.list_ascii_of_string].
  rewrite cut_first_app by done. by rewrite !of_chars_chars.
Qed.

Lemma no_nl_line k v : mem_char nl (chars k) = false → nl ∉ chars v → nl ∉ chars (k +:+ v).
Proof. intros H%mem_char_false Hv. rewrite chars_app, elem_of_app. naive_solver. Qed.

Section ini_proofs.
Context `{Unicode}.

(** One [key = value] line. *)
Lemma read_field r c k v : plain_char c = true → mem_char c (chars "#;[") = false →
  mem_char "="%char (chars (String.String c k)) = false → value_ok v →
  read_line r (String.String c k +:+ " = " +:+ v)
  = match (if r_cur r then read_peer else read_interface) (r_cfg r)
            (strings_ToLower (strings_TrimSpace (String.String c k +:+ " "))) v with
    | Ok cf => Ok (mkReader cf (r_cur r))
    | Err e => Err e
    end.
Proof.
  intros Hc Hs Heq [Hv Ht _]. unfold read_line.
  assert (String.String c k +:+ " = " +:+ v
          = String.String c (k +:+ " =") +:+ String.String " " v) as E.
  { change (String.String c (k +:+ " =")) with (String.String c k +:+ " =").
    apply chars_inj. rewrite !chars_app, <- app_assoc. reflexivity. }
  assert (strings_TrimSpace (String.String c k +:+ " = " +:+ v) = String.String c k +:+ " = " +:+ v)
    as -> by (rewrite E; by apply trimmed_field).
  assert (∀ d, d ∈ chars "#;[" → strings_HasPrefix (String.String c k +:+ " = " +:+ v)
                                  (String.String d "") = false) as Hp.
  { intros d Hd. apply mem_char_false in Hs.
    change (String.prefix (String.String d "") (String.String c (k +:+ " = " +:+ v)) = false).
    cbn [String.prefix]. by destruct (ascii_dec d c) as [->|]. }
  rewrite (Hp "#"%char), (Hp ";"%char), (Hp "["%char) by set_solver. cbn [andb orb String.eqb].
  assert (String.String c k +:+ " = " +:+ v
          = (String.String c k +:+ " ") +:+ String.String "=" (String.String " " v)) as ->.
  { apply chars_inj. rewrite !chars_app, <- app_assoc. reflexivity. }
  rewrite cut_key, trim_lead; [done | done |].
  rewrite chars_app. unfold mem_char in *. rewrite existsb_app, Heq. reflexivity.
Qed.

Lemma read_lines_app r a b : read_lines r (a ++ b)
  = match read_lines r a with Ok r' => read_lines r' b | Err e => Err e end.
Proof.
  revert r. induction a as [|l a IH]; intros r; cbn [app read_lines]; [done|].
  destruct (read_line r l); [apply IH | done].
Qed.

(** An optional line is read, or was not needed. *)
Lemma read_when r b line r' l : (b = true → read_line r line = Ok r') → (b = false → r' = r) →
  read_lines r (when b [line] ++ l) = read_lines r' l.
Proof.
  intros Ht Hf. destruct b; cbn [when app read_lines]; [by rewrite Ht | by rewrite Hf].
Qed.
End ini_proofs.

(** A configuration whose fields the line format can carry. *)
Record peer_plain (p : Peer) : Prop := {
  pp_key : value_ok (PublicKey p);
  pp_endpoint : Endpoint p = "" ∨ value_ok (Endpoint p);
  pp_allowed : Forall item_ok (AllowedIPs p);
  pp_keepalive : 0 ≤ Keepalive p ∧ is_int64 (Keepalive p)
}.
Record config_plain (c : Config) : Prop := {
  cp_key : value_ok (PrivateKey c);
  cp_port : 0 ≤ ListenPort c ∧ is_int64 (ListenPort c);
  cp_addresses : Forall item_ok (Addresses c);
  cp_dns : Forall item_ok (DNS c);
  cp_mtu : 0 ≤ MTU c ∧ is_int64 (MTU c);
  cp_peers : Forall peer_plain (Peers c)
}.

Lemma on_last_app f c l p : on_last f (set_Peers c (l ++ [p])) = set_Peers c (l ++ [f p]).
Proof.
  unfold on_last. change (Peers (set_Peers c (l ++ [p]))) with (l ++ [p]).
  rewrite reverse_snoc, reverse_cons, reverse_involutive. done.
Qed.

Lemma Ok_inj {A} (a b : A) : Ok (E := error) a = Ok b → a = b.
Proof. congruence. Qed.

Lemma trim_value v : value_ok v → strings_TrimSpace v = v.
Proof. by intros []. Qed.

Section ini_roundtrip_proofs.
Context `{Unicode}.

(** Read one named line and normalise the key. *)
Local Ltac field key low :=
  match goal with |- context [read_line _ (?s +:+ ?v)] =>
    change (s +:+ v) with (key +:+ " = " +:+ v)
  end;
  rewrite read_field; [| reflexivity | reflexivity | reflexivity | ];
  [replace (strings_ToLower (strings_TrimSpace (key +:+ " "))) with low
     by (vm_compute; reflexivity); cbn [r_cur r_cfg] |].

Lemma read_interface_lines c : config_plain c →
  read_lines (mkReader zero_config false) (interface_lines c)
  = Ok (mkReader (set_Peers c []) false).
Proof.
  intros [Hk [Hp Hp'] Ha Hd [Hm Hm'] _]. unfold interface_lines. cbn [app read_lines].
  rewrite (trim_value _ Hk).
  assert (∀ r, read_line r "[Interface]" = Ok (mkReader (r_cfg r) false)) as -> by reflexivity.
  cbn [r_cfg]. field "PrivateKey" "privatekey"; [|done]. cbn [read_interface String.eqb].
  change (read_interface zero_config "privatekey" (PrivateKey c))
    with (Ok (E := error) (set_PrivateKey zero_config (PrivateKey c))). cbn [r_cur].
  set (c1 := set_PrivateKey zero_config (PrivateKey c)).
  rewrite (read_when _ _ _ (mkReader (add_Addresses c1 (Addresses c)) false)).
  2: { intros Hn. field "Address" "address"; [|by apply list_value].
       cbn. by rewrite split_list_join. }
  2: { by destruct (Addresses c). }
  set (c2 := add_Addresses c1 (Addresses c)).
  rewrite (read_when _ _ _ (mkReader (add_DNS c2 (DNS c)) false)).
  2: { intros Hn. field "DNS" "dns"; [|by apply list_value]. cbn. by rewrite split_list_join. }
  2: { by destruct (DNS c). }
  set (c3 := add_DNS c2 (DNS c)).
  rewrite (read_when _ _ _ (mkReader (set_ListenPort c3 (ListenPort c)) false)).
  2: { intros Hn. field "ListenPort" "listenport"; [|by apply number_value].
       cbn. by rewrite Atoi_fmt_d. }
  2: { intros Hn. zbool. by replace (ListenPort c) with 0 by lia. }
  set (c4 := set_ListenPort c3 (ListenPort c)).
  rewrite <- (app_nil_r (when _ _)), (read_when _ _ _ (mkReader (set_MTU c4 (MTU c)) false)).
  2: { intros Hn. field "MTU" "mtu"; [|by apply number_value]. cbn. by rewrite Atoi_fmt_d. }
  2: { intros Hn. zbool. by replace (MTU c) with 0 by lia. }
  reflexivity.
Qed.

Lemma read_peer_lines c cur p : peer_plain p →
  read_lines (mkReader c cur) (peer_lines p) = Ok (mkReader (set_Peers c (Peers c ++ [p])) true).
Proof.
  intros [Hk He Ha [Hp Hp']]. unfold peer_lines. cbn [app read_lines]. rewrite (trim_value _ Hk).
  assert (∀ r, read_line r "" = Ok r) as -> by reflexivity.
  assert (∀ r, read_line r "[Peer]"
    = Ok (mkReader (set_Peers (r_cfg r) (Peers (r_cfg r) ++ [zero_peer])) true)) as ->
    by reflexivity.
  cbn [r_cfg]. field "PublicKey" "publickey"; [|done].
  set (k := PublicKey p). cbn. rewrite on_last_app. cbn.
  rewrite (read_when _ _ _ (mkReader (set_Peers c (Peers c ++ [mkPeer k (Endpoint p) [] 0])) true)).
  2: { intros Hn. destruct He as [He|He]; [by rewrite He in Hn|]. rewrite (trim_value _ He).
       field "Endpoint" "endpoint"; [|done]. cbn. by rewrite on_last_app. }
  2: { destruct He as [->|He]; [done|]. intros Hn%negb_false_iff%String.eqb_eq.
       rewrite (trim_value _ He) in Hn. by destruct He. }
  rewrite (read_when _ _ _
    (mkReader (set_Peers c (Peers c ++ [mkPeer k (Endpoint p) (AllowedIPs p) 0])) true)).
  2: { intros Hn. field "AllowedIPs" "allowedips"; [|by apply list_value]. cbn.
       by rewrite on_last_app, split_list_join. }
  2: { by destruct (AllowedIPs p). }
  rewrite <- (app_nil_r (when _ _)),
    (read_when _ _ _ (mkReader (set_Peers c (Peers c ++ [p])) true)).
  2: { intros Hn. field "PersistentKeepalive" "persistentkeepalive"; [|by apply number_value].
       cbn. rewrite Atoi_fmt_d by done. rewrite on_last_app. by destruct p. }
  2: { intros Hn. zbool. unfold k. destruct p as [a b d n]. cbn in *. by replace n with 0 by lia. }
  reflexivity.
Qed.

Lemma read_all_peers c cur l : Forall peer_plain l →
  ∃ cur', read_lines (mkReader c cur) (flat_map peer_lines l)
          = Ok (mkReader (set_Peers c (Peers c ++ l)) cur').
Proof.
  intros Hl. revert c cur. induction Hl as [|p l Hp Hl IH]; intros c cur; cbn [flat_map].
  { exists cur. rewrite app_nil_r. by destruct c. }
  rewrite read_lines_app, read_peer_lines by done.
  destruct (IH (set_Peers c (Peers c ++ [p])) true) as [cur' E]. exists cur'. rewrite E.
  cbn [Peers set_Peers]. by rewrite <- app_assoc.
Qed.

Lemma ini_no_nl c : config_plain c →
  Forall (fun s => nl ∉ chars s) (interface_lines c ++ flat_map peer_lines (Peers c)).
Proof.
  intros [Hk [Hp _] Ha Hd [Hm _] Hps].
  assert (∀ b s, (b = true → nl ∉ chars s) → Forall (fun s => nl ∉ chars s) (when b [s])) as Hw.
  { intros [] s Hs; constructor; auto. }
  assert (∀ s v, mem_char nl (chars s) = false → value_ok v → nl ∉ chars (s +:+ v)) as Hv.
  { intros s v Hs Hvk. apply no_nl_line; [done | apply Hvk]. }
  assert (∀ s, mem_char nl (chars s) = false → nl ∉ chars s) as Hc by (intros s; apply mem_char_false).
  apply Forall_app. split.
  - unfold interface_lines. rewrite (trim_value _ Hk). cbn [app].
    repeat (apply Forall_cons; split; [by first [apply Hv | apply Hc]|]).
    rewrite !Forall_app. split_and!; apply Hw; intros Hn; apply Hv; try done;
      first [by apply list_value | apply number_value; zbool; lia].
  - induction Hps as [|p l [Hpk He Hal [Hka _]] Hl IH]; cbn [flat_map]; [done|].
    apply Forall_app. split; [|done]. unfold peer_lines. rewrite (trim_value _ Hpk). cbn [app].
    repeat (apply Forall_cons; split; [by first [apply Hv | apply Hc]|]).
    rewrite !Forall_app. split_and!; apply Hw; intros Hn; apply Hv; try done.
    + destruct He as [He|He]; [by rewrite He in Hn|]. by rewrite (trim_value _ He).
    + by apply list_value.
    + apply number_value. zbool. lia.
Qed.
End ini_roundtrip_proofs.

Section ipc_proofs.
Context `{Unicode}.

(** One [key=value] line of the device format. *)
Lemma dump_line_field st c k v : plain_char c = true →
  mem_char "="%char (chars (String.String c k)) = false → value_ok v →
  dump_line st (String.String c k +:+ "=" +:+ v)
  = let low := strings_ToLower (strings_TrimSpace (String.String c k)) in
    if String.eqb low "public_key" then (flush st, Some (mkStats v 0 0 0 "" [] 0))
    else (st.1, (fun p => dump_field p low v) <$> st.2).
Proof.
  intros Hc Heq [Hv Ht _]. unfold dump_line.
  change (String.String c k +:+ "=" +:+ v) with (String.String c k +:+ String.String "=" v).
  assert (strings_TrimSpace (String.String c k +:+ String.String "=" v)
          = String.String c k +:+ String.String "=" v) as ->
    by by apply (trimmed_field c k "="%char v).
  cbn [String.eqb]. change (String.eqb (String.String c k +:+ String.String "=" v) "") with false.
  cbn match. rewrite cut_key by done. by rewrite Ht.
Qed.

Local Ltac dfield key :=
  match goal with |- context [dump_line _ (?s +:+ ?v)] =>
    change (s +:+ v) with (key +:+ "=" +:+ v)
  end;
  rewrite dump_line_field; [cbn zeta | reflexivity | reflexivity | ];
  [replace (strings_ToLower (strings_TrimSpace key)) with key by (vm_compute; reflexivity);
   cbn [String.eqb Ascii.eqb Bool.eqb] |].

Lemma dump_when st b line st' l : (b = true → dump_line st line = st') → (b = false → st' = st) →
  foldl dump_line st (when b [line] ++ l) = foldl dump_line st' l.
Proof.
  intros Ht Hf. destruct b; cbn [when app foldl]; [by rewrite Ht | by rewrite Hf].
Qed.

Definition ipc_view (p : Peer) (pk : string) : PeerStats :=
  mkStats pk 0 0 0 (strings_TrimSpace (Endpoint p))
    (map strings_TrimSpace (sort_Strings (AllowedIPs p))) (Keepalive p).

Lemma dump_allowed done pk ep ips l : Forall item_ok l →
  foldl dump_line (done, Some (mkStats pk 0 0 0 ep ips 0))
    (map (fun a => "allowed_ip=" +:+ strings_TrimSpace a) l)
  = (done, Some (mkStats pk 0 0 0 ep (ips ++ map strings_TrimSpace l) 0)).
Proof.
  intros Hl. revert ips. induction Hl as [|a l Ha Hl IH]; intros ips; cbn [map foldl].
  { by rewrite app_nil_r. }
  pose proof (item_value _ Ha) as Hv. rewrite (trim_value _ Hv). dfield "allowed_ip"; [|done].
  cbn. rewrite (trim_value _ Hv), IH. by rewrite <- app_assoc.
Qed.

Lemma dump_peer st p pk : peer_plain p → value_ok pk →
  foldl dump_line st (ipc_peer_lines p pk) = (flush st, Some (ipc_view p pk)).
Proof.
  intros [_ He Ha [Hp Hp']] Hk. unfold ipc_peer_lines. cbn [app foldl].
  dfield "public_key"; [|done].
  rewrite (dump_when _ _ _ (flush st, Some (mkStats pk 0 0 0 (strings_TrimSpace (Endpoint p)) [] 0))).
  2: { intros Hn. destruct He as [He|He]; [by rewrite He in Hn|]. rewrite (trim_value _ He).
       dfield "endpoint"; [|done]. cbn. by rewrite (trim_value _ He). }
  2: { intros Hn%negb_false_iff%String.eqb_eq. by rewrite Hn. }
  rewrite foldl_app, dump_allowed by (unfold sort_Strings; by rewrite sort_stable_perm).
  rewrite <- (app_nil_r (when _ _)), (dump_when _ _ _ (flush st, Some (ipc_view p pk))).
  2: { intros Hn. dfield "persistent_keepalive_interval"; [|by apply number_value].
       cbn. rewrite (trim_value _ (number_value _ Hp)). by rewrite Atoi_fmt_d. }
  2: { intros Hn. zbool. unfold ipc_view. by replace (Keepalive p) with 0 by lia. }
  done.
Qed.

Lemma key_hex_value k h : key_hex k = Some h → value_ok h.
Proof.
  unfold key_hex. destruct (base64_Std_DecodeString _) as [raw|]; [|done].
  destruct (Nat.eqb_spec (length raw) KeyLen) as [El|]; [|done]. intros [= <-].
  apply plain_value; [|apply hex_plain]. intros E%hex_encode_empty. by rewrite E in El.
Qed.

Lemma dump_peers st l lines : Forall peer_plain l → ipc_peers l = Ok lines →
  flush (foldl dump_line st lines)
  = flush st ++ map (fun p => ipc_view p (default "" (key_hex (PublicKey p)))) l.
Proof.
  intros Hl. revert st lines. induction Hl as [|p l Hp Hl IH]; intros st lines; cbn [ipc_peers].
  { intros [= <-]. by rewrite app_nil_r. }
  unfold publicKeyHex. destruct (key_hex (PublicKey p)) as [pk|] eqn:Ek; [|done].
  destruct (ipc_peers l) as [r|]; [|done]. intros E. apply Ok_inj in E as <-.
  rewrite foldl_app, dump_peer; [|done | by eapply key_hex_value].
  rewrite (IH _ r) by done. cbn [map flush fst snd]. rewrite Ek, <- app_assoc. done.
Qed.

Lemma ipc_peers_no_nl l lines : Forall peer_plain l → ipc_peers l = Ok lines →
  Forall (fun s => nl ∉ chars s) lines.
Proof.
  intros Hl. revert lines. induction Hl as [|p l [_ He Ha [Hp _]] Hl IH]; intros lines; cbn [ipc_peers].
  { by intros [= <-]. }
  unfold publicKeyHex. destruct (key_hex (PublicKey p)) as [pk|] eqn:Ek; [|done].
  destruct (ipc_peers l) as [r|]; [|done]. intros E. apply Ok_inj in E as <-.
  assert (∀ s v, mem_char nl (chars s) = false → value_ok v → nl ∉ chars (s +:+ v)) as Hv.
  { intros s v Hs Hvk. apply no_nl_line; [done | apply Hvk]. }
  apply Forall_app. split; [|by apply IH]. unfold ipc_peer_lines.
  apply Forall_cons. split; [apply Hv; [done | by eapply key_hex_value]|].
  rewrite !Forall_app. split_and!.
  - destruct (negb _) eqn:Hn; [|done]. apply Forall_singleton, Hv; [done|].
    destruct He as [He|He]; [by rewrite He in Hn|]. by rewrite (trim_value _ He).
  - apply Forall_fmap. unfold sort_Strings. rewrite sort_stable_perm.
    eapply Forall_impl; [exact Ha|]. intros a Hai%item_value. apply Hv; [done|].
    by rewrite (trim_value _ Hai).
  - destruct (_ >? _); [|done]. apply Forall_singleton, Hv; [done | by apply number_value].
Qed.
End ipc_proofs.

(** ** Key pairs *)

Definition in_byte (z : Z) : bool := (0 <=? z) && (z <? 256).

(** The two masks keep a byte a byte and do nothing the second time. *)
Lemma mask_byte (f : Z → Z) :
  forallb (fun k => let b := Z.of_nat k in in_byte (f b) && (f (f b) =? f b)) (seq 0 256) = true →
  ∀ b, is_byte b → is_byte (f b) ∧ f (f b) = f b.
Proof.
  intros H b Hb. pose proof (check_below (fun b => in_byte (f b) && (f (f b) =? f b)) 256 H b Hb).
  unfold in_byte, is_byte in *. zbool. lia.
Qed.

Lemma mask_low b : is_byte b → is_byte (Z.land 248 b) ∧ Z.land 248 (Z.land 248 b) = Z.land 248 b.
Proof. apply (mask_byte (Z.land 248)). vm_compute. reflexivity. Qed.

Lemma mask_high b : is_byte b → is_byte (Z.lor (Z.land b 127) 64)
  ∧ Z.lor (Z.land (Z.lor (Z.land b 127) 64) 127) 64 = Z.lor (Z.land b 127) 64.
Proof. apply (mask_byte (fun b => Z.lor (Z.land b 127) 64)). vm_compute. reflexivity. Qed.

Lemma alter_bytes (f : Z → Z) n l : (∀ b, is_byte b → is_byte (f b)) → Forall is_byte l →
  Forall is_byte (alter f n l).
Proof. intros Hf Hl. apply Forall_alter; auto. Qed.

Lemma clamp_bytes sk : Forall is_byte sk → Forall is_byte (clamp sk).
Proof.
  intros Hs. apply alter_bytes; [|apply alter_bytes; [|done]]; intros b Hb;
    [by apply mask_high | by apply mask_low].
Qed.

Lemma alter_idemp (f : Z → Z) n l : (∀ b, is_byte b → f (f b) = f b) → Forall is_byte l →
  alter f n (alter f n l) = alter f n l.
Proof.
  intros Hf Hl. rewrite list_alter_alter_eq. revert n.
  induction Hl as [|b l Hb Hl IH]; intros [|n]; try done; cbn.
  - by rewrite Hf.
  - f_equal. apply IH.
Qed.

Lemma clamp_idemp sk : Forall is_byte sk → clamp (clamp sk) = clamp sk.
Proof.
  intros Hs. unfold clamp. rewrite (list_alter_alter_ne _ _ _ 0%nat 31%nat) by done.
  assert (Forall is_byte (alter (Z.land 248) 0%nat sk)) as Hs'
    by (apply alter_bytes; [|done]; intros b Hb; by apply mask_low).
  rewrite (alter_idemp (Z.land 248) 0%nat sk) by first [done | intros b Hb; by apply mask_low].
  apply alter_idemp; [|done]. intros b Hb. by apply mask_high.
Qed.

Lemma length_clamp sk : length (clamp sk) = length sk.
Proof. unfold clamp. by rewrite !length_alter. Qed.

Lemma key_hex_encoded raw : length raw = KeyLen → Forall is_byte raw →
  key_hex (base64_Std_EncodeToString raw) = Some (hex_EncodeToString raw).
Proof.
  intros Hl Hb. unfold key_hex, base64_Std_EncodeToString.
  rewrite (trimmed_plain (of_chars _)) by (rewrite chars_of_chars; by apply b64std_plain).
  fold (base64_Std_EncodeToString raw). rewrite base64_Std_roundtrip, Hl by done. done.
Qed.

(** C37: Round trip. A configuration whose fields fit in a line - trimmed, without line ends, list
    elements without commas, numbers not negative - is read back exactly from the wg-quick text
    written for it, every optional line included. *)
Theorem ini_roundtrip `{Unicode} (c : Config) : config_plain c → ParseINI (GenerateINI c) = Ok c.
Proof.
  intros Hc. unfold ParseINI, GenerateINI. rewrite split_write_lines by by apply ini_no_nl.
  rewrite <- app_assoc, read_lines_app, read_interface_lines, read_lines_app by done.
  destruct (read_all_peers (set_Peers c []) false (Peers c) (cp_peers _ Hc)) as [cur ->].
  change (set_Peers (set_Peers c []) (Peers (set_Peers c []) ++ Peers c))
    with (set_Peers c (Peers c)).
  assert (set_Peers c (Peers c) = c) as -> by by destruct c.
  change (read_lines (mkReader c cur) [""]) with (Ok (E := error) (mkReader c cur)). cbn [r_cfg].
  rewrite (trim_value _ (cp_key _ Hc)), (proj2 (String.eqb_neq _ _)); [done | apply Hc].
Qed.

(** What the device is told is what its dump says. The IPC text written for a configuration
    reads back as one entry per peer, in order: the key in hexadecimal, the endpoint, the allowed
    addresses sorted, the keepalive interval, with no traffic and no handshake; the private key
    and the port lines do not reach any peer. *)
Theorem ipc_roundtrip `{Unicode, IPv6, Netip} (c : Config) text : ToIPC c = Ok text →
  config_plain c →
  ParseIPCDump text = map (fun p => ipc_view p (default "" (key_hex (PublicKey p)))) (Peers c).
Proof.
  intros Ht [_ [Hp Hp'] _ _ _ Hps]. unfold ToIPC in Ht. destruct (Validate c); [|done].
  unfold privateKeyHex in Ht. destruct (key_hex (PrivateKey c)) as [sk|] eqn:Ek; [|done].
  destruct (ipc_peers (Peers c)) as [ls|] eqn:El; [|done]. injection Ht as <-.
  pose proof (key_hex_value _ _ Ek) as Hk. unfold ParseIPCDump. rewrite split_write_lines.
  2: { repeat (apply Forall_cons; split; [apply no_nl_line; [done | apply Hk]|]).
       apply Forall_app. split; [|by eapply ipc_peers_no_nl].
       destruct (_ >? _); [|done]. apply Forall_singleton, no_nl_line; [done|].
       by apply number_value. }
  rewrite foldl_app. cbn [app foldl]. rewrite foldl_app.
  change ("private_key=" +:+ sk) with ("private_key" +:+ "=" +:+ sk).
  rewrite dump_line_field by done. cbn zeta.
  replace (strings_ToLower (strings_TrimSpace "private_key")) with "private_key" by (vm_compute; reflexivity).
  rewrite <- (app_nil_r (when _ _)), (dump_when _ _ _ ([], None)).
  - cbn [foldl]. pose proof (dump_peers ([], None) _ _ Hps El) as Hd. cbn [flush fst snd app] in Hd.
    rewrite <- Hd. reflexivity.
  - intros Hn. change ("listen_port=" +:+ fmt_d (ListenPort c))
      with ("listen_port" +:+ "=" +:+ fmt_d (ListenPort c)).
    rewrite dump_line_field; [|done|done|by apply number_value]. cbn zeta.
    by replace (strings_ToLower (strings_TrimSpace "listen_port")) with "listen_port"
      by (vm_compute; reflexivity).
  - done.
Qed.

Lemma generated_public `{Curve25519} sk priv pub :
  length sk = KeyLen → Forall is_byte sk → GenerateKeypair (Some sk) = Ok (priv, pub) →
  PublicKeyFor priv = Ok pub.
Proof.
  intros Hl Hb. unfold GenerateKeypair.
  destruct (X25519_Basepoint (clamp sk)) as [pk|] eqn:Ex; [|done]. intros [= <- <-].
  assert (length (clamp sk) = KeyLen) as Lc by by rewrite length_clamp.
  unfold PublicKeyFor. rewrite base64_Std_roundtrip, Lc, clamp_idemp, Ex by (done || by apply clamp_bytes). done.
Qed.

(** Generated keys are good keys. From any 32 random bytes for which the curve operation
    succeeds, the private key derives exactly the generated public key again - clamping a clamped
    key changes nothing, and base64 loses nothing - and a configuration made of the two passes
    validation. *)
Theorem generated_keys_valid `{Curve25519, IPv6, Netip} sk priv pub :
  length sk = KeyLen → Forall is_byte sk → GenerateKeypair (Some sk) = Ok (priv, pub) →
  PublicKeyFor priv = Ok pub
  ∧ Validate (mkConfig priv 0 [] [] [mkPeer pub "" [] 0] 0) = Ok tt.
Proof.
  intros Hl Hb Hg. split; [by eapply generated_public|]. revert Hg. unfold GenerateKeypair.
  destruct (X25519_Basepoint (clamp sk)) as [pk|] eqn:Ex; [|done]. intros [= <- <-].
  destruct (X25519_bytes _ _ Ex) as [Lp Bp]. pose proof (clamp_bytes _ Hb) as Bc.
  assert (length (clamp sk) = KeyLen) as Lc by by rewrite length_clamp.
  unfold Validate, privateKeyHex. cbn [PrivateKey ListenPort Addresses DNS Peers].
  rewrite key_hex_encoded by done. cbn. unfold check_peer, publicKeyHex. cbn [PublicKey].
  by rewrite key_hex_encoded.
Qed.

(** ** Concrete configurations *)

#[local] Existing Instances no_ipv6 ascii_unicode.
#[local] Instance demo_netip : Netip := {| prefix_IPv6 := fun s => String.eqb s "::/0" |}.

Definition toy_curve : Curve25519.
Proof.
  refine {| X25519_Basepoint := fun sk => Some (resize 32 9 (map (fun z => z mod 256) sk)) |}.
  intros sk pk [= <-]. split; [apply length_resize|]. apply Forall_resize; [by vm_compute|].
  apply Forall_fmap, Forall_true. intros z. apply Z.mod_pos_bound. lia.
Defined.

Definition demo_key : string := base64_Std_EncodeToString (repeat 7 32).
Definition demo_peers : list Peer :=
  [mkPeer demo_key "exit.example:51820" ["10.1.0.0/16"; "0.0.0.0/0"; "::/0"] 25;
   mkPeer demo_key "" [] 0].
Definition demo_config : Config :=
  mkConfig demo_key 51820 ["100.64.0.2/32"] ["1.1.1.1"; "9.9.9.9"] demo_peers 0.

Lemma item_check s : negb (String.eqb s "") && String.eqb (strings_TrimSpace s) s
  && negb (mem_char ","%char (chars s)) && negb (mem_char nl (chars s)) = true → item_ok s.
Proof.
  rewrite !andb_true_iff, !negb_true_iff, String.eqb_eq, String.eqb_neq, !mem_char_false.
  intros [[[H1 H2] H3] H4]. by split.
Qed.

Lemma items_check l : forallb (fun s => negb (String.eqb s "") && String.eqb (strings_TrimSpace s) s
  && negb (mem_char ","%char (chars s)) && negb (mem_char nl (chars s))) l = true →
  Forall item_ok l.
Proof.
  rewrite forallb_forall. intros H. apply Forall_forall. intros s Hs.
  by apply item_check, H, list_elem_of_In.
Qed.

Lemma demo_config_plain : config_plain demo_config.
Proof.
  assert (∀ n, 0 ≤ n < 65536 → 0 ≤ n ∧ is_int64 n) as Hn by (intros; unwidth; lia).
  assert (value_ok demo_key) as Hk by (apply item_value, item_check; vm_compute; reflexivity).
  split; cbn; try (apply Hn; lia); try done; try (apply items_check; vm_compute; reflexivity).
  repeat apply Forall_cons_2; [..|apply Forall_nil_2]; split; cbn; try (apply Hn; lia); try done;
    try (apply items_check; vm_compute; reflexivity); [|by left].
  right. apply item_value, item_check. vm_compute. reflexivity.
Qed.

Lemma ini_roundtrip_witness :
  ParseINI (GenerateINI demo_config) = Ok demo_config
  ∧ length (strings_Split (GenerateINI demo_config) nl) = 15%nat.
Proof.
  split; [exact (ini_roundtrip demo_config demo_config_plain) | vm_compute; reflexivity].
Defined.

Lemma ipc_roundtrip_witness : ∃ text, ToIPC demo_config = Ok text
  ∧ map ps_AllowedIPs (ParseIPCDump text) = [["0.0.0.0/0"; "10.1.0.0/16"; "::/0"]; []].
Proof.
  eexists. split; [vm_compute; reflexivity|].
  rewrite (ipc_roundtrip demo_config);
    [vm_compute; reflexivity | vm_compute; reflexivity | exact demo_config_plain].
Defined.

Lemma generated_keys_valid_witness : ∃ priv pub,
  GenerateKeypair (H := toy_curve) (Some (repeat 255 32)) = Ok (priv, pub)
  ∧ PublicKeyFor (H := toy_curve) priv = Ok pub.
Proof.
  eexists _, _. split; [vm_compute; reflexivity|].
  refine (proj1 (generated_keys_valid (H := toy_curve) (repeat 255 32) _ _ eq_refl _ _)).
  - repeat apply Forall_cons_2; [..|apply Forall_nil_2]; unfold is_byte; lia.
  - vm_compute. reflexivity.
Defined.

(** An endpoint host may contain a line end: the configuration passes validation and the text for
    the device then carries a line of the endpoint's choosing. *)
Definition broken_endpoint : Config :=
  set_Peers demo_config [mkPeer demo_key
    ("h" +:+ of_chars [nl] +:+ "allowed_ip=0.0.0.0/0" +:+ of_chars [nl] +:+ "x:51820") [] 0].

Example endpoint_line_break_accepted :
  Validate broken_endpoint = Ok tt
  ∧ ∃ text, ToIPC broken_endpoint = Ok text
    ∧ map ps_AllowedIPs (ParseIPCDump text) = [["0.0.0.0/0"]].
Proof.
  split; [vm_compute; reflexivity|]. eexists. split; [vm_compute; reflexivity|].
  vm_compute. reflexivity.
Qed.
