(* ===== verification/Tunnel.v ===== *)
(** * Tunnel: the client tunnel engine ([internal/tunnel])

    The engine's state, its operations and the watchdog's transition
    ([engine.go], [monitor.go]).  The device behind a backend is outside the
    program: what it answers to a probe, an application or a rebind is an
    argument, and the calls made on it are logged.  [Start], [Stop] and the
    watchdog's step are given as the sections between their locks, and
    composed; the sections by themselves express what overlapping calls do. *)

From Stdlib Require Import ZArith Lia Ascii.
From S2P Require Import Prelude GoStrings NetIP GoText.
From S2P Require WgConf.

Inductive State := DOWN | CONNECTING | UP | FAILED.
#[export] Instance State_eq_dec : EqDecision State.
Proof. solve_decision. Defined.

Record Peer := mkPeer {
  PublicKey : string;
  Endpoint : string;
  AllowedIPs : list string;
  Keepalive : Z
}.

Record WireGuardConfig := mkWireGuardConfig {
  PrivateKey : string;
  Addresses : list string;
  DNS : list string;
  Peers : list Peer
}.

Definition toWireguard (cfg : WireGuardConfig) (listenPort : Z) : WgConf.Config :=
  WgConf.mkConfig (PrivateKey cfg) listenPort (Addresses cfg) (DNS cfg)
    (map (fun p => WgConf.mkPeer (PublicKey p) (Endpoint p) (AllowedIPs p) (Keepalive p)) (Peers cfg))
    0.

Definition fromWireguard (cfg : WgConf.Config) : WireGuardConfig :=
  mkWireGuardConfig (WgConf.PrivateKey cfg) (WgConf.Addresses cfg) (WgConf.DNS cfg)
    (map (fun p => mkPeer (WgConf.PublicKey p) (WgConf.Endpoint p) (WgConf.AllowedIPs p)
                     (WgConf.Keepalive p)) (WgConf.Peers cfg)).

(** ** The device *)

(** A device is known by its handle; what it is asked to do is logged. *)
Abbreviation handle := nat (only parsing).
Inductive call := Probe | Apply (cfg : WireGuardConfig) | Rebind | Close.

(** A probe answers counters and the newest handshake, or fails. *)
Definition probe_answer : Type := result string (Z * Z * time).

Inductive error :=
| ErrConfig (e : WgConf.error) | ErrAlreadyStarted | ErrNotStarted | ErrEmptyEndpoint
| ErrNoPeers | ErrBackend (e : string) | ErrApply (e : string)
| ErrRebind (e : string) | ErrClose (e : string).

Inductive event := TUNNEL_STARTED (endpoint : string) | TUNNEL_STOPPED
| CIRCUIT_ROTATED (endpoint : string) | ERROR_START (e : error) | ERROR_RETRIES.

Inductive BackendKind := BackendKernel | BackendUserspace.

Definition kind_String (k : BackendKind) : string :=
  match k with BackendKernel => "kernel" | BackendUserspace => "userspace" end.

(** [backendReport.String] *)
Definition report_String (k : BackendKind) (detail : string) : string :=
  if String.eqb detail "" then kind_String k
  else kind_String k +:+ " (" +:+ detail +:+ ")".

(** ** The engine *)

Record engine := mkEngine {
  state : State;
  since : time;
  cfg : WireGuardConfig;
  endpoint : string;
  lastHS : time;
  rx : Z;
  tx : Z;
  listenPort : Z;
  pollInterval : duration;
  staleAfter : duration;
  maxRetries : Z;
  onWake : bool;
  backend : option handle;
  cancel : bool;  (* a watchdog is running *)
  retries : Z;
  backendKind : option (BackendKind * string);
  (* what the rest of the system sees *)
  calls : list (handle * call);
  published : list event;
  wakes : nat
}.

Definition zero_cfg : WireGuardConfig := mkWireGuardConfig "" [] [] [].

(** What the [With...] options set. *)
Record options := mkOptions {
  o_listenPort : Z; o_pollInterval : duration; o_staleAfter : duration; o_maxRetries : Z;
  o_onWake : bool }.
Definition default_options : options := mkOptions 0 (5 * second) (3 * minute) 5 false.

Definition New (o : options) (now : time) : engine :=
  mkEngine DOWN now zero_cfg "" 0 0 0 (o_listenPort o) (o_pollInterval o) (o_staleAfter o)
    (o_maxRetries o) (o_onWake o) None false 0 None [] [] 0.

Definition setLocked (e : engine) (s : State) (t : time) : engine :=
  mkEngine s t (cfg e) (endpoint e) (lastHS e) (rx e) (tx e) (listenPort e) (pollInterval e)
    (staleAfter e) (maxRetries e) (onWake e) (backend e) (cancel e) (retries e) (backendKind e)
    (calls e) (published e) (wakes e).
Definition set_cfg (e : engine) (c : WireGuardConfig) (ep : string) : engine :=
  mkEngine (state e) (since e) c ep (lastHS e) (rx e) (tx e) (listenPort e) (pollInterval e)
    (staleAfter e) (maxRetries e) (onWake e) (backend e) (cancel e) (retries e) (backendKind e)
    (calls e) (published e) (wakes e).
Definition set_retries (e : engine) (n : Z) : engine :=
  mkEngine (state e) (since e) (cfg e) (endpoint e) (lastHS e) (rx e) (tx e) (listenPort e)
    (pollInterval e) (staleAfter e) (maxRetries e) (onWake e) (backend e) (cancel e) n
    (backendKind e) (calls e) (published e) (wakes e).
Definition set_backend (e : engine) (b : option handle) (watch : bool) : engine :=
  mkEngine (state e) (since e) (cfg e) (endpoint e) (lastHS e) (rx e) (tx e) (listenPort e)
    (pollInterval e) (staleAfter e) (maxRetries e) (onWake e) b watch (retries e)
    (backendKind e) (calls e) (published e) (wakes e).
Definition set_kind (e : engine) (k : option (BackendKind * string)) : engine :=
  mkEngine (state e) (since e) (cfg e) (endpoint e) (lastHS e) (rx e) (tx e) (listenPort e)
    (pollInterval e) (staleAfter e) (maxRetries e) (onWake e) (backend e) (cancel e) (retries e)
    k (calls e) (published e) (wakes e).
Definition set_lastHS (e : engine) (t : time) : engine :=
  mkEngine (state e) (since e) (cfg e) (endpoint e) t (rx e) (tx e) (listenPort e)
    (pollInterval e) (staleAfter e) (maxRetries e) (onWake e) (backend e) (cancel e) (retries e)
    (backendKind e) (calls e) (published e) (wakes e).
(** The counters only grow: a smaller reading is ignored. *)
Definition note_counters (e : engine) (r t : Z) : engine :=
  mkEngine (state e) (since e) (cfg e) (endpoint e) (lastHS e)
    (if r >? rx e then r else rx e) (if t >? tx e then t else tx e) (listenPort e)
    (pollInterval e) (staleAfter e) (maxRetries e) (onWake e) (backend e) (cancel e) (retries e)
    (backendKind e) (calls e) (published e) (wakes e).
Definition log_call (e : engine) (b : handle) (c : call) : engine :=
  mkEngine (state e) (since e) (cfg e) (endpoint e) (lastHS e) (rx e) (tx e) (listenPort e)
    (pollInterval e) (staleAfter e) (maxRetries e) (onWake e) (backend e) (cancel e) (retries e)
    (backendKind e) (calls e ++ [(b, c)]) (published e) (wakes e).
Definition publish (e : engine) (v : event) : engine :=
  mkEngine (state e) (since e) (cfg e) (endpoint e) (lastHS e) (rx e) (tx e) (listenPort e)
    (pollInterval e) (staleAfter e) (maxRetries e) (onWake e) (backend e) (cancel e) (retries e)
    (backendKind e) (calls e) (published e ++ [v]) (wakes e).
Definition call_onWake (e : engine) : engine :=
  mkEngine (state e) (since e) (cfg e) (endpoint e) (lastHS e) (rx e) (tx e) (listenPort e)
    (pollInterval e) (staleAfter e) (maxRetries e) (onWake e) (backend e) (cancel e) (retries e)
    (backendKind e) (calls e) (published e) (if onWake e then S (wakes e) else wakes e).

(** ** Starting and stopping *)

Inductive kernel_error := NoKernelIface | KernelErr (text : string).

(** Selecting a backend: the kernel's if the probe says so and it opens, else
    the userspace one; given what opening either answers. *)
Definition createBackend (avail : bool) (detail : string) (kern : result kernel_error handle)
  (user : result string handle) : result error handle * option (BackendKind * string) :=
  let userspace :=
    match user with
    | Ok b => (Ok b, Some (BackendUserspace,
                           if String.eqb detail "" then "kernel unavailable" else detail))
    | Err v => (Err (ErrBackend v), None)
    end in
  if avail then
    match kern with
    | Ok b => (Ok b, Some (BackendKernel, detail))
    | Err NoKernelIface => userspace
    | Err (KernelErr v) =>
      match user with
      | Ok b => (Ok b, Some (BackendUserspace, "kernel failed (" +:+ v +:+ "); " +:+ detail))
      | Err _ => (Err (ErrBackend v), None)
      end
    end
  else userspace.

Definition first_endpoint (c : WireGuardConfig) (old : string) : string :=
  match Peers c with p :: _ => Endpoint p | [] => old end.

Definition fail (e : engine) (err : error) (now : time) : engine :=
  publish (setLocked e FAILED now) (ERROR_START err).

Section engine.
Context `{IPv6, Netip}.

(** The first locked section of [Start]. *)
Definition start_begin (e : engine) (c : WireGuardConfig) (now : time) : engine * result error unit :=
  match WgConf.Validate (toWireguard c 0) with
  | Err v => (e, Err (ErrConfig v))
  | Ok _ =>
    match backend e with
    | Some _ => (e, Err ErrAlreadyStarted)
    | None =>
      (set_retries (setLocked (set_cfg e c (first_endpoint c (endpoint e))) CONNECTING now) 0, Ok tt)
    end
  end.

(** The device is there: it is stored and the watchdog runs. *)
Definition start_attach (e : engine) (b : handle) : engine := set_backend e (Some b) true.

(** The first probe; only a handshake makes the tunnel UP. *)
Definition start_probe (e : engine) (b : handle) (p : probe_answer) : engine :=
  let e := log_call e b Probe in
  match p with
  | Err _ => e
  | Ok (r, t, hs) =>
    let e := note_counters e r t in
    if negb (Time_IsZero hs) then setLocked (set_lastHS e hs) UP (since e) else e
  end.

Definition Start (e : engine) (c : WireGuardConfig) (now : time) (avail : bool) (detail : string)
  (kern : result kernel_error handle) (user : result string handle) (p : probe_answer) : engine * result error unit :=
  match start_begin e c now with
  | (e, Err v) => (e, Err v)
  | (e, Ok _) =>
    match createBackend avail detail kern user with
    | (Err v, _) => (fail e v now, Err v)
    | (Ok b, k) =>
      let e := start_probe (start_attach (set_kind e k) b) b p in
      (publish e (TUNNEL_STARTED (endpoint e)), Ok tt)
    end
  end.

(** [Stop]: the locked section, then the device is closed. *)
Definition stop_begin (e : engine) (now : time) : engine :=
  setLocked (set_backend e None false) DOWN now.
Definition stop_finish (e : engine) (be : option handle) (close : option string)
  : engine * result error unit :=
  let e := match be with Some b => log_call e b Close | None => e end in
  (publish e TUNNEL_STOPPED,
   match be, close with Some _, Some v => Err (ErrClose v) | _, _ => Ok tt end).
Definition Stop (e : engine) (now : time) (close : option string) : engine * result error unit :=
  stop_finish (stop_begin e now) (backend e) close.

(** ** Reconfiguration *)

Definition ApplyConfiguration (e : engine) (c : WireGuardConfig) (apply : option string)
  : engine * result error unit :=
  match WgConf.Validate (toWireguard c 0) with
  | Err v => (e, Err (ErrConfig v))
  | Ok _ =>
    match backend e with
    | None => (e, Err ErrNotStarted)
    | Some b =>
      let e := log_call e b (Apply c) in
      match apply with
      | Some v => (e, Err (ErrApply v))
      | None => (set_retries (set_cfg e c (first_endpoint c (endpoint e))) 0, Ok tt)
      end
    end
  end.

Definition with_endpoint (p : Peer) (ep : string) : Peer :=
  mkPeer (PublicKey p) ep (AllowedIPs p) (Keepalive p).
Definition with_peers (c : WireGuardConfig) (l : list Peer) : WireGuardConfig :=
  mkWireGuardConfig (PrivateKey c) (Addresses c) (DNS c) l.

(** The copied config shares its peers with the engine's, so the new endpoint
    is in the engine's config before the device is asked. *)
Definition RotateEndpoint (e : engine) (ep : string) (now : time) (apply rebind : option string)
  : engine * result error unit :=
  if String.eqb ep "" then (e, Err ErrEmptyEndpoint)
  else match backend e with
  | None => (e, Err ErrNotStarted)
  | Some b =>
    match Peers (cfg e) with
    | [] => (e, Err ErrNoPeers)
    | p :: l =>
      let c := with_peers (cfg e) (with_endpoint p ep :: l) in
      let e := log_call (set_cfg e c (endpoint e)) b (Apply c) in
      match apply with
      | Some v => (e, Err (ErrApply v))
      | None =>
        let e := log_call e b Rebind in
        match rebind with
        | Some v => (e, Err (ErrRebind v))
        | None =>
          let e := set_retries (set_cfg e c ep) 0 in
          let e := if decide (state e = FAILED) then setLocked e CONNECTING now else e in
          (publish e (CIRCUIT_ROTATED ep), Ok tt)
        end
      end
    end
  end.

(** [Wake] and [onWakeDetected]: a failing rebind is ignored. *)
Definition Wake (e : engine) : engine :=
  match backend e with
  | None => e
  | Some b => call_onWake (set_retries (log_call e b Rebind) 0)
  end.

(** ** The watchdog *)

Definition noteFailureLocked (e : engine) (now : time) : engine :=
  let e := set_retries e (retries e + 1) in
  if retries e >? maxRetries e then
    if decide (state e = FAILED) then e
    else publish (setLocked e FAILED now) ERROR_RETRIES
  else if decide (state e = UP) then setLocked e CONNECTING now
  else e.

Definition recoverLocked (e : engine) (now : time) : engine :=
  let e := match backend e with Some b => log_call e b Rebind | None => e end in
  noteFailureLocked e now.

(** The locked part of [step], on the device's answer. *)
Definition step_commit (e : engine) (now : time) (p : probe_answer) : engine :=
  match p with
  | Err _ => noteFailureLocked e now
  | Ok (r, t, hs) =>
    let e := note_counters e r t in
    if negb (Time_IsZero hs) then
      if Time_Sub now hs <=? staleAfter e then
        if negb (Time_After hs (lastHS e)) && bool_decide (state e = UP) then e
        else setLocked (set_retries (set_lastHS e hs) 0) UP (since e)
      else recoverLocked (set_lastHS e hs) now
    else if Time_Sub now (since e) >? staleAfter e then recoverLocked e now
    else if negb (bool_decide (state e = CONNECTING)) && negb (bool_decide (state e = UP))
         then setLocked e CONNECTING now
         else e
  end.

Definition step (e : engine) (now : time) (p : probe_answer) : engine :=
  match backend e with
  | None => e
  | Some b => step_commit (log_call e b Probe) now p
  end.

(** One tick of [watchdogLoop]. *)
Definition wakeGap (e : engine) : duration := 5 * pollInterval e + 60 * second.
Definition watchdog_tick (e : engine) (lastTick now : time) (p : probe_answer) : engine :=
  step (if Time_Sub now lastTick >? wakeGap e then Wake e else e) now p.

(** ** Observation *)

Record Status := mkStatus {
  st_State : State; st_Since : time; st_Endpoint : string; st_LastHandshake : time;
  st_Detail : string }.
Definition Status_of (e : engine) : Status :=
  mkStatus (state e) (since e) (endpoint e) (lastHS e)
    (match backendKind e with Some (k, d) => report_String k d | None => "" end).

Record Stats := mkStats { RxBytes : Z; TxBytes : Z; LastHandshake : time }.
Definition Statistics (e : engine) : Stats := mkStats (rx e) (tx e) (lastHS e).

(** ** Backoff *)

Definition minBackoff : duration := second.
Definition maxBackoff : duration := minute.

(** The loop runs at most [failures - 1] times. *)
Fixpoint backoff_loop (n : nat) (d : duration) : duration :=
  match n with
  | O => d
  | S n => if d <? maxBackoff then backoff_loop n (d * 2) else d
  end.
Definition backoffFor (failures : Z) : duration :=
  let d := backoff_loop (Z.to_nat (failures - 1)) minBackoff in
  if d >? maxBackoff then maxBackoff else d.

(** ** Executions: operations one at a time *)

Inductive run : engine → engine → Prop :=
| run_start e c now avail detail kern user p :
    run e (Start e c now avail detail kern user p).1
| run_stop e now close : run e (Stop e now close).1
| run_apply e c a : run e (ApplyConfiguration e c a).1
| run_rotate e ep now a r : run e (RotateEndpoint e ep now a r).1
| run_wake e : run e (Wake e)
| run_tick e last now p : run e (watchdog_tick e last now p).
End engine.

(** ** Lemmas *)

(** What holds between operations that do not overlap. *)
Record wf (e : engine) : Prop := {
  wf_up : state e = UP → is_Some (backend e) ∧ lastHS e ≠ 0 ∧ retries e = 0;
  wf_down : state e = DOWN → backend e = None;
  wf_idle : backend e = None → state e = DOWN ∨ state e = FAILED;
  wf_cancel : cancel e = bool_decide (is_Some (backend e))
}.

Lemma engine_wf_new o now : wf (New o now).
Proof. by split; auto. Qed.

Lemma wf_backend e b : wf e → backend e = Some b → cancel e = true ∧ state e ≠ DOWN.
Proof.
  intros [_ Hd _ Hc] Hb. split.
  - rewrite Hc, Hb. by apply bool_decide_eq_true_2.
  - intros H%Hd. congruence.
Qed.

(** A failure leaves a live engine live, never UP, and counts itself. *)
Lemma note_failure_facts e now :
  let e' := noteFailureLocked e now in
  backend e' = backend e ∧ cancel e' = cancel e ∧ retries e' = retries e + 1
  ∧ staleAfter e' = staleAfter e ∧ maxRetries e' = maxRetries e
  ∧ state e' = (if retries e + 1 >? maxRetries e then FAILED
                else if decide (state e = UP) then CONNECTING else state e)
  ∧ published e' = published e ++
      (if (retries e + 1 >? maxRetries e) && negb (bool_decide (state e = FAILED))
       then [ERROR_RETRIES] else []).
Proof.
  cbn zeta. unfold noteFailureLocked. cbn [retries set_retries maxRetries state].
  destruct (retries e + 1 >? maxRetries e); cbn [andb].
  - destruct (decide (state e = FAILED)) as [Hf|Hf].
    + rewrite bool_decide_eq_true_2 by done. cbn. by rewrite app_nil_r.
    + rewrite bool_decide_eq_false_2 by done. done.
  - destruct (decide (state e = UP)); cbn; by rewrite app_nil_r.
Qed.

Lemma recover_facts e now b : backend e = Some b →
  let e' := recoverLocked e now in
  backend e' = backend e ∧ cancel e' = cancel e ∧ retries e' = retries e + 1
  ∧ staleAfter e' = staleAfter e ∧ maxRetries e' = maxRetries e
  ∧ state e' = (if retries e + 1 >? maxRetries e then FAILED
                else if decide (state e = UP) then CONNECTING else state e)
  ∧ published e' = published e ++
      (if (retries e + 1 >? maxRetries e) && negb (bool_decide (state e = FAILED))
       then [ERROR_RETRIES] else []).
Proof.
  intros Hb. unfold recoverLocked. rewrite Hb.
  pose proof (note_failure_facts (log_call e b Rebind) now) as H. cbn in H. by rewrite Hb in H.
Qed.

(** A live engine that is neither UP nor DOWN satisfies the invariant. *)
Lemma wf_not_up e b : backend e = Some b → cancel e = true → state e ≠ UP → state e ≠ DOWN → wf e.
Proof.
  intros Hb Hc Hu Hd. split; rewrite ?Hb; done.
Qed.

Lemma wf_failure e e' b : wf e → backend e = Some b → backend e' = backend e → cancel e' = cancel e →
  state e' = FAILED ∨ state e' = CONNECTING ∨ (state e' = state e ∧ state e ≠ UP) → wf e'.
Proof.
  intros Hw Hb Eb Ec Hs. destruct (wf_backend _ _ Hw Hb) as [Hc Hd].
  apply (wf_not_up _ b); [congruence | congruence | |];
    destruct Hs as [->|[->|[-> ?]]]; done.
Qed.

(** The device's answer brings a fresh handshake / fails to. *)
Definition fresh (stale : duration) (now : time) (p : probe_answer) : bool :=
  match p with
  | Ok (_, _, hs) => negb (Time_IsZero hs) && (Time_Sub now hs <=? stale)
  | Err _ => false
  end.
Definition failing (stale : duration) (now : time) (p : probe_answer) : bool :=
  match p with
  | Ok (_, _, hs) => negb (Time_IsZero hs) && negb (Time_Sub now hs <=? stale)
  | Err _ => true
  end.

(** The answer holds no handshake yet, within the grace window. *)
Definition waiting (e : engine) (now : time) (p : probe_answer) : bool :=
  match p with
  | Ok (_, _, hs) => Time_IsZero hs && (Time_Sub now (since e) <=? staleAfter e)
  | Err _ => false
  end.

Section step_proofs.
Context (e : engine) (b : handle) (now : time) (p : probe_answer).
Hypothesis (Hb : backend e = Some b).

(** What one step does to a live engine. *)
Lemma step_frame : backend (step e now p) = Some b ∧ cancel (step e now p) = cancel e
  ∧ staleAfter (step e now p) = staleAfter e ∧ maxRetries (step e now p) = maxRetries e.
Proof using Hb.
  unfold step. rewrite Hb. unfold step_commit. destruct p as [[[r t] hs]|v].
  2: { destruct (note_failure_facts (log_call e b Probe) now) as (-> & -> & _ & -> & -> & _).
       cbn. auto. }
  set (x := note_counters (log_call e b Probe) r t).
  assert (backend x = Some b) as Hx by done.
  assert (∀ y, backend y = Some b → cancel y = cancel e → staleAfter y = staleAfter e →
    maxRetries y = maxRetries e → backend (recoverLocked y now) = Some b
    ∧ cancel (recoverLocked y now) = cancel e ∧ staleAfter (recoverLocked y now) = staleAfter e
    ∧ maxRetries (recoverLocked y now) = maxRetries e) as Hr.
  { intros y H1 H2 H3 H4. destruct (recover_facts y now b H1) as (-> & -> & _ & -> & -> & _). done. }
  repeat case_match; try (split_and!; done); by apply Hr.
Qed.

Lemma step_failing : failing (staleAfter e) now p = true →
  retries (step e now p) = retries e + 1
  ∧ state (step e now p) = (if retries e + 1 >? maxRetries e then FAILED
                            else if decide (state e = UP) then CONNECTING else state e)
  ∧ published (step e now p) = published e ++
      (if (retries e + 1 >? maxRetries e) && negb (bool_decide (state e = FAILED))
       then [ERROR_RETRIES] else []).
Proof using Hb.
  unfold step. rewrite Hb. unfold step_commit, failing. destruct p as [[[r t] hs]|v]; intros Hf.
  - apply andb_true_iff in Hf as [Hz Hs]. apply negb_true_iff in Hs.
    cbn [staleAfter note_counters log_call]. rewrite Hz, Hs.
    set (x := set_lastHS _ _). assert (backend x = Some b) as Hx by done.
    destruct (recover_facts x now b Hx) as (_ & _ & -> & _ & _ & -> & ->). done.
  - destruct (note_failure_facts (log_call e b Probe) now) as (_ & _ & -> & _ & _ & -> & ->). done.
Qed.

Lemma step_fresh : wf e → fresh (staleAfter e) now p = true →
  state (step e now p) = UP ∧ lastHS (step e now p) ≠ 0 ∧ retries (step e now p) = 0.
Proof using Hb.
  intros Hw. unfold step. rewrite Hb. unfold step_commit, fresh.
  destruct p as [[[r t] hs]|v]; [|done]. intros [Hz Hs]%andb_true_iff.
  cbn [staleAfter note_counters log_call]. rewrite Hz, Hs.
  destruct (negb (Time_After hs _) && bool_decide _) eqn:E.
  - apply andb_true_iff in E as [_ E%bool_decide_eq_true_1].
    cbn in E |- *. destruct (wf_up _ Hw E) as (_ & ? & ?). done.
  - cbn. unfold Time_IsZero in Hz. zbool. done.
Qed.

Lemma step_waiting : waiting e now p = true →
  state (step e now p) = (if decide (state e = UP) then UP else CONNECTING)
  ∧ lastHS (step e now p) = lastHS e ∧ retries (step e now p) = retries e.
Proof using Hb.
  unfold step. rewrite Hb. unfold step_commit, waiting.
  destruct p as [[[r t] hs]|v]; [|done]. intros [Hz Hs]%andb_true_iff.
  cbn [staleAfter since note_counters log_call]. rewrite Hz. cbn [negb].
  rewrite Z.gtb_ltb, (proj2 (Z.ltb_ge _ _)) by by apply Z.leb_le.
  cbn [state note_counters log_call]. destruct (state e) eqn:Es; cbn; by rewrite ?Es.
Qed.

Lemma step_overdue : fresh (staleAfter e) now p = false → failing (staleAfter e) now p = false →
  waiting e now p = false → state (step e now p) ≠ UP.
Proof using Hb.
  unfold step. rewrite Hb. unfold step_commit, fresh, failing, waiting.
  destruct p as [[[r t] hs]|v]; [|done]. cbn [staleAfter since note_counters log_call].
  destruct (Time_IsZero hs) eqn:Hz; cbn [negb andb]; [|destruct (_ <=? _); done].
  intros _ _ Hw. apply Z.leb_gt in Hw. rewrite Z.gtb_ltb, (proj2 (Z.ltb_lt _ _)) by lia.
  set (x := note_counters _ _ _). assert (backend x = Some b) as Hx by done.
  destruct (recover_facts x now b Hx) as (_ & _ & _ & _ & _ & -> & _).
  destruct (_ >? _); [done|]. by destruct (decide _).
Qed.
End step_proofs.

(** After a tick the tunnel is UP exactly on a fresh handshake, or when it was UP and the device
    has none to show yet. *)
Lemma step_up e b now p : wf e → backend e = Some b →
  state (step e now p) = UP ↔
    fresh (staleAfter e) now p = true ∨ (waiting e now p = true ∧ state e = UP).
Proof.
  intros Hw Hb. destruct (fresh (staleAfter e) now p) eqn:Ef.
  { destruct (step_fresh e b now p Hb Hw Ef). naive_solver. }
  destruct (failing (staleAfter e) now p) eqn:Eg.
  { destruct (step_failing e b now p Hb Eg) as (_ & -> & _).
    assert (waiting e now p = false) as ->.
    { unfold failing, waiting in *. destruct p as [[[r t] hs]|]; [|done].
      by destruct (Time_IsZero hs). }
    split; [|naive_solver]. destruct (_ >? _); [done|]. by destruct (decide (state e = UP)). }
  destruct (waiting e now p) eqn:Ew.
  { destruct (step_waiting e b now p Hb Ew) as (-> & _). destruct (decide (state e = UP)); naive_solver. }
  pose proof (step_overdue e b now p Hb Ef Eg Ew). naive_solver.
Qed.

Lemma step_not_down e b now p : wf e → backend e = Some b → state (step e now p) ≠ DOWN.
Proof.
  intros Hw Hb. destruct (wf_backend _ _ Hw Hb) as [_ Hd].
  destruct (fresh (staleAfter e) now p) eqn:Ef.
  { by destruct (step_fresh e b now p Hb Hw Ef) as (-> & _). }
  destruct (waiting e now p) eqn:Ew.
  { destruct (step_waiting e b now p Hb Ew) as (-> & _). by destruct (decide _). }
  assert (∀ x, state x = state e → backend x = Some b → state (recoverLocked x now) ≠ DOWN) as Hr.
  { intros x Hx Hbx. destruct (recover_facts x now b Hbx) as (_ & _ & _ & _ & _ & -> & _).
    rewrite Hx. destruct (_ >? _); [done|]. by destruct (decide _). }
  unfold step. rewrite Hb. unfold step_commit. destruct p as [[[r t] hs]|v].
  - repeat case_match; try done; apply Hr; done.
  - destruct (note_failure_facts (log_call e b Probe) now) as (_ & _ & _ & _ & _ & -> & _).
    cbn [state log_call]. destruct (_ >? _); [done|]. by destruct (decide _).
Qed.

Lemma step_wf e now p : wf e → wf (step e now p).
Proof.
  intros Hw. destruct (backend e) as [b|] eqn:Hb; [|unfold step; by rewrite Hb].
  destruct (step_frame e b now p Hb) as (Eb & Ec & _).
  destruct (wf_backend _ _ Hw Hb) as [Hc _].
  split.
  - intros Hu. split; [by eexists|]. destruct (proj1 (step_up e b now p Hw Hb) Hu) as [Hf|[Hwt Hs]].
    + by apply (step_fresh e b now p Hb Hw).
    + destruct (step_waiting e b now p Hb Hwt) as (_ & -> & ->).
      destruct (wf_up _ Hw Hs) as (_ & ? & ?). done.
  - intros H. by destruct (step_not_down e b now p Hw Hb).
  - intros H. congruence.
  - rewrite Eb, Ec, Hc. done.
Qed.

Lemma wake_facts e : backend (Wake e) = backend e ∧ cancel (Wake e) = cancel e
  ∧ state (Wake e) = state e ∧ lastHS (Wake e) = lastHS e
  ∧ (retries (Wake e) = 0 ∨ Wake e = e).
Proof. unfold Wake. destruct (backend e) eqn:E; cbn; auto 10. Qed.

Lemma wake_wf e : wf e → wf (Wake e).
Proof.
  intros Hw. destruct (wake_facts e) as (Eb & Ec & Es & Eh & Er). destruct Hw as [Hu Hd Hi Hc].
  split; rewrite ?Eb, ?Ec, ?Es, ?Eh; auto. intros H. destruct (Hu H) as (? & ? & ?).
  split_and!; [done|done|]. destruct Er as [|Er]; [done | by rewrite Er].
Qed.

Section ops.
Context `{IPv6, Netip}.

Lemma start_wf e c now avail detail kern user p : wf e →
  wf (Start e c now avail detail kern user p).1.
Proof.
  intros Hw. unfold Start, start_begin. destruct (WgConf.Validate _); [|done].
  destruct (backend e) as [b|] eqn:Hb; [done|].
  assert (cancel e = false) as Hc by (by rewrite (wf_cancel _ Hw), Hb).
  destruct (createBackend avail detail kern user) as [[b|v] k]; cbn.
  - unfold start_probe. destruct p as [[[r t] hs]|v]; cbn.
    + destruct (Time_IsZero hs) eqn:Hz; cbn; [by apply (wf_not_up _ b)|].
      split; cbn; try done. intros _. unfold Time_IsZero in Hz. zbool. split_and!; [by eexists|done|done].
    + by apply (wf_not_up _ b).
  - split; cbn; rewrite ?Hb, ?Hc; auto; done.
Qed.

Lemma stop_wf e now close : wf e → wf (Stop e now close).1.
Proof. intros _. unfold Stop, stop_finish. destruct (backend e); split; cbn; auto; done. Qed.

Lemma apply_wf e c a : wf e → wf (ApplyConfiguration e c a).1.
Proof.
  intros Hw. unfold ApplyConfiguration. destruct (WgConf.Validate _); [|done].
  destruct (backend e) as [b|] eqn:Hb; [|done]. destruct Hw as [Hu Hd Hi Hc].
  destruct a; split; cbn; rewrite ?Hb in *; auto. intros H'. by destruct (Hu H') as (? & ? & ?).
Qed.

Lemma rotate_wf e ep now a r : wf e → wf (RotateEndpoint e ep now a r).1.
Proof.
  intros Hw. unfold RotateEndpoint. destruct (String.eqb ep ""); [done|].
  destruct (backend e) as [b|] eqn:Hb; [|done]. destruct (Peers (cfg e)) as [|p l]; [done|].
  destruct (wf_backend _ _ Hw Hb) as [Hc Hd]. destruct Hw as [Hu Hd' Hi Hc'].
  destruct a as [v|]; [split; cbn; rewrite ?Hb in *; auto|].
  destruct r as [v|]; [split; cbn; rewrite ?Hb in *; auto|].
  cbn. destruct (decide (state e = FAILED)); [by apply (wf_not_up _ b)|].
  split; cbn; rewrite ?Hb in *; auto. intros H'. by destruct (Hu H') as (? & ? & ?).
Qed.

Lemma run_wf e e' : run e e' → wf e → wf e'.
Proof.
  intros []; [by apply start_wf | by apply stop_wf | by apply apply_wf | by apply rotate_wf
    | by apply wake_wf |].
  intros Hw. unfold watchdog_tick. apply step_wf. destruct (_ >? _); [by apply wake_wf | done].
Qed.

Definition reachable (e : engine) : Prop := ∃ o now, rtc run (New o now) e.

Lemma reachable_engine_wf e : reachable e → wf e.
Proof.
  intros (o & now & Hr). pose proof (engine_wf_new o now) as Hw. revert Hw.
  induction Hr; [done|]. intros Hw. by apply IHHr, (run_wf x).
Qed.
End ops.

Definition ticks (e : engine) (l : list (time * probe_answer)) : engine :=
  foldl (fun e t => step e t.1 t.2) e l.

Lemma ticks_frame e b l : backend e = Some b →
  backend (ticks e l) = Some b ∧ staleAfter (ticks e l) = staleAfter e
  ∧ maxRetries (ticks e l) = maxRetries e.
Proof.
  unfold ticks. revert e. induction l as [|[now p] l IH]; intros e Hb; [done|].
  cbn [foldl fst snd]. destruct (step_frame e b now p Hb) as (Eb & _ & <- & <-). by apply IH.
Qed.

(** The reconnect delay doubles from a second up to a minute. *)
Lemma backoff_loop_pow n d : 0 < d →
  Z.min maxBackoff (backoff_loop n d) = Z.min maxBackoff (d * 2 ^ Z.of_nat n).
Proof.
  revert d. induction n as [|n IH]; intros d Hd; cbn [backoff_loop]; [f_equal; lia|].
  rewrite Nat2Z.inj_succ, Z.pow_succ_r by lia.
  assert (1 ≤ 2 ^ Z.of_nat n) by (pose proof (Z.pow_pos_nonneg 2 (Z.of_nat n)); lia).
  destruct (Z.ltb_spec d maxBackoff); [|rewrite !Z.min_l by nia; done].
  rewrite IH by lia. f_equal. lia.
Qed.

Lemma backoffFor_exact n : 0 ≤ n →
  backoffFor (n + 1) = Z.min maxBackoff (minBackoff * 2 ^ n).
Proof.
  intros Hn. unfold backoffFor. replace (n + 1 - 1) with n by lia.
  pose proof (backoff_loop_pow (Z.to_nat n) minBackoff ltac:(unfold minBackoff, second; lia)) as H.
  rewrite Z2Nat.id in H by lia. rewrite <- H. rewrite Z.gtb_ltb.
  destruct (Z.ltb_spec maxBackoff (backoff_loop (Z.to_nat n) minBackoff)); lia.
Qed.

(** ** Properties *)


(** The watchdog, exactly. After a tick of a live engine the tunnel is UP if and only if the
    device shows a fresh handshake, or it was UP and the device, inside the grace window, has none
    to show; a fresh handshake clears the failures, even from FAILED; and the counters keep the
    maximum of all readings. *)
Theorem tick_up_exactly `{IPv6, Netip} e b now p : reachable e → backend e = Some b →
  (state (step e now p) = UP ↔
     fresh (staleAfter e) now p = true ∨ (waiting e now p = true ∧ state e = UP))
  ∧ (fresh (staleAfter e) now p = true → retries (step e now p) = 0)
  ∧ ∀ r t hs, p = Ok (r, t, hs) →
      rx (step e now p) = Z.max (rx e) r ∧ tx (step e now p) = Z.max (tx e) t.
Proof.
  intros Hw%reachable_engine_wf Hb. split_and!.
  - by apply (step_up _ b).
  - intros Hf. by apply (step_fresh e b).
  - intros r t hs ->. unfold step. rewrite Hb. unfold step_commit, recoverLocked, noteFailureLocked.
    assert (∀ x y, (if x >? y then x else y) = Z.max y x) as Hm.
    { intros x y. rewrite Z.gtb_ltb. destruct (Z.ltb_spec y x); lia. }
    repeat case_match; cbn; auto.
Qed.


(** ** Concrete runs *)

#[local] Existing Instances no_ipv6 ascii_unicode WgConf.demo_netip.

Definition demo_cfg : WireGuardConfig := fromWireguard WgConf.demo_config.
Definition t0 : time := hour.

(** A tunnel started on the userspace backend, with a handshake a second old. *)
Definition demo_started : engine :=
  (Start (New default_options 0) demo_cfg t0 false "" (Err NoKernelIface) (Ok 7%nat)
     (Ok (10, 20, t0 - second))).1.
(** The same without a handshake so far. *)
Definition demo_connecting : engine :=
  (Start (New default_options 0) demo_cfg t0 true "linux" (Err (KernelErr "denied")) (Ok 7%nat)
     (Ok (0, 0, 0))).1.

Lemma demo_started_reachable : reachable demo_started.
Proof. eexists _, _. apply rtc_once, run_start. Qed.

Lemma demo_started_device : backend demo_started = Some 7%nat.
Proof. vm_compute. reflexivity. Qed.


Lemma tick_up_exactly_witness :
  state (step demo_started (t0 + minute) (Ok (15, 5, t0 + 30 * second))) = UP
  ∧ Statistics (step demo_started (t0 + minute) (Ok (15, 5, t0 + 30 * second)))
    = mkStats 15 20 (t0 + 30 * second).
Proof.
  destruct (tick_up_exactly demo_started 7%nat (t0 + minute) (Ok (15, 5, t0 + 30 * second))
    demo_started_reachable demo_started_device) as (Hu & _ & _).
  split; [apply Hu; left | ]; vm_compute; reflexivity.
Defined.

(** Eight ticks of an outage: errors and a stale handshake. *)
Definition demo_outage : list (time * probe_answer) :=
  repeat (t0 + minute, Err "device gone") 4 ++ repeat (t0 + hour, Ok (0, 0, t0)) 4.


(** Overlap: a watchdog step has read the device, [Stop] runs, the step commits a fresh handshake.
    After [Stop] returned the tunnel is reported UP, without a device. *)
Example stopped_tunnel_reports_up :
  let reading := log_call demo_started 7%nat Probe in
  let stopping := stop_begin reading (t0 + second) in
  let committed := step_commit stopping (t0 + second) (Ok (11, 21, t0)) in
  let e := (stop_finish committed (Some 7%nat) None).1 in
  st_State (Status_of e) = UP ∧ backend e = None.
Proof. by vm_compute. Qed.

(** FAILED is not kept: once retries are exhausted, a tick on which the device has no handshake to
    show reports CONNECTING again although nothing recovered. *)
Example failed_flips_to_connecting :
  let failed := ticks demo_connecting (repeat (t0 + minute, Err "device gone") 6) in
  let e := step failed (t0 + 2 * minute) (Ok (0, 0, 0)) in
  state failed = FAILED ∧ state e = CONNECTING ∧ (retries e >? maxRetries e) = true.
Proof. by vm_compute. Qed.

(** A rotation the device refuses has already changed the engine's configuration. *)
Example failed_rotation_changes_config :
  let '(e, r) := RotateEndpoint demo_started "other:1" t0 (Some "refused") None in
  r = Err (ErrApply "refused") ∧ endpoint e = endpoint demo_started
  ∧ map Endpoint (Peers (cfg e)) ≠ map Endpoint (Peers (cfg demo_started)).
Proof. vm_compute. split_and!; [reflexivity | reflexivity | discriminate]. Qed.
