(* ===== verification/Backend.v ===== *)
(** * Backend: the devices behind the tunnel engine (internal/tunnel/backend.go)

    The userspace backend over a TUN interface, a UDP bind and a wireguard-go
    device, the kernel backend over wgctrl, and the choice between them.  The
    libraries are interfaces over the state [X] of the machine; the factories
    of the TUN and of the bind are arguments, as in the engine's options. *)

From Stdlib Require Import ZArith Lia.
From S2P Require Import Prelude GoStrings NetIP GoText.
From S2P Require Import WgConf.
From S2P Require Import Tunnel.

Definition IfaceName : string := "veilnet".

(** ** The libraries *)

(** A wireguard-go device, made of its TUN interface and its bind. *)
Record device := mkDevice { d_tun : handle; d_bind : handle }.

Class WireGuardGo (X : Type) : Type := {
  NewDevice : X → device → X;
  IpcSet : X → device → string → X * option string;
  IpcGet : X → device → result string string;
  Up : X → device → X * option string;
  BindUpdate : X → device → X * option string;
  CloseDevice : X → device → X;
  CloseTUN : X → handle → X * option string
}.

(** wgtypes *)
Record IPNet := mkIPNet { net_IP : string; net_Mask : Z }.
Record PeerConfig := mkPeerConfig {
  pc_PublicKey : list Z; UpdateOnly : bool; ReplaceAllowedIPs : bool; pc_Endpoint : option (IP * Z);
  PersistentKeepaliveInterval : option duration; pc_AllowedIPs : list IPNet; Remove : bool }.
Record wgConfig := mkWgConfig {
  wg_PrivateKey : option (list Z); ReplacePeers : bool; wg_Peers : list PeerConfig }.
Record wgPeer := mkWgPeer {
  k_PublicKey : list Z; k_Endpoint : option (IP * Z); k_Keepalive : duration;
  LastHandshakeTime : time; ReceiveBytes : Z; TransmitBytes : Z; k_AllowedIPs : list IPNet }.

Class WgCtrl (X : Type) : Type := {
  wgctrl_New : X → X * result string handle;
  wgctrl_Device : X → handle → string → result string (list wgPeer);
  wgctrl_Configure : X → handle → string → wgConfig → X * option string;
  wgctrl_Close : X → handle → X * option string
}.

(** [net.ResolveUDPAddr], and the prefix a text stands for. *)
Class Resolver : Type := {
  net_ResolveUDPAddr : string → result string (IP * Z);
  prefix_value : string → IPNet
}.

Definition wgtypes_ParseKey (s : string) : option (list Z) :=
  match base64_Std_DecodeString s with
  | Some raw => if (length raw =? 32)%nat then Some raw else None
  | None => None
  end.

Inductive open_error :=
| ErrTUN (e : string) | ErrBind (e : string) | ErrIPC (e : WgConf.error) | ErrIpcSet (e : string)
| ErrUp (e : string).

(** Bad private key; the key, endpoint or allowed address of a peer. *)
Inductive kernel_config_error :=
| BadPrivateKey | BadPeerKey (i : nat) | BadEndpoint (i : nat) (e : string) | BadAllowed (i : nat) (a : string).
Inductive kernel_open_error := NoIface | ErrConfigure (e : kernel_config_error + string).

Section backend.
Context {X : Type} `{WireGuardGo X, WgCtrl X, Resolver, IPv6, Netip, Unicode}.
Implicit Types x : X.

(** ** Userspace *)

Definition undo_device x (d : device) : X := (CloseTUN (CloseDevice x d) (d_tun d)).1.

Definition openUserspace (newTUN : X → string → Z → X * result string handle)
  (newBind : X → X * result string handle) x (iface : string) (cfg : WireGuardConfig) (listenPort : Z)
  : X * result open_error device :=
  match newTUN x iface (MTUOrDefault (WgConf.mkConfig "" 0 [] [] [] 0)) with
  | (x, Err e) => (x, Err (ErrTUN e))
  | (x, Ok tun) =>
    match newBind x with
    | (x, Err e) => ((CloseTUN x tun).1, Err (ErrBind e))
    | (x, Ok bind) =>
      let d := mkDevice tun bind in
      let x := NewDevice x d in
      match ToIPC (toWireguard cfg listenPort) with
      | Err e => (undo_device x d, Err (ErrIPC e))
      | Ok ipc =>
        match IpcSet x d ipc with
        | (x, Some e) => (undo_device x d, Err (ErrIpcSet e))
        | (x, None) =>
          match Up x d with
          | (x, Some e) => (undo_device x d, Err (ErrUp e))
          | (x, None) => (x, Ok d)
          end
        end
      end
    end
  end.

Definition userspace_probe x (d : device) : probe_answer :=
  match IpcGet x d with
  | Err e => Err e
  | Ok dump => Ok (AggregateStats (ParseIPCDump dump))
  end.

Definition userspace_apply x (d : device) (cfg : WireGuardConfig) : X * result (WgConf.error + string) unit :=
  match ToIPC (toWireguard cfg 0) with
  | Err e => (x, Err (inl e))
  | Ok ipc => match IpcSet x d ipc with
              | (x, Some e) => (x, Err (inr e))
              | (x, None) => (x, Ok tt)
              end
  end.
Definition userspace_rebind x (d : device) : X * option string := BindUpdate x d.
Definition userspace_close x (d : device) : X * option string := CloseTUN (CloseDevice x d) (d_tun d).

(** ** Kernel *)

Definition allowed_net (i : nat) (a : string) : result kernel_config_error IPNet :=
  if netip_ParsePrefix_ok a then Ok (prefix_value a) else Err (BadAllowed i a).

Fixpoint allowed_nets (i : nat) (l : list string) : result kernel_config_error (list IPNet) :=
  match l with
  | [] => Ok []
  | a :: l =>
    match allowed_net i a with
    | Err e => Err e
    | Ok n => match allowed_nets i l with Err e => Err e | Ok r => Ok (n :: r) end
    end
  end.

Definition kernel_endpoint (i : nat) (ep : string) : result kernel_config_error (option (IP * Z)) :=
  if String.eqb ep "" then Ok None
  else match net_ResolveUDPAddr ep with
       | Err e => Err (BadEndpoint i e)
       | Ok u => Ok (Some u)
       end.

Definition kernel_peer (i : nat) (p : Tunnel.Peer) : result kernel_config_error PeerConfig :=
  match wgtypes_ParseKey (Tunnel.PublicKey p) with
  | None => Err (BadPeerKey i)
  | Some pub =>
    match kernel_endpoint i (Tunnel.Endpoint p) with
    | Err e => Err e
    | Ok udp =>
      match allowed_nets i (Tunnel.AllowedIPs p) with
      | Err e => Err e
      | Ok nets =>
        Ok (mkPeerConfig pub false true udp
              (if Tunnel.Keepalive p >? 0 then Some (wrap_i64 (Tunnel.Keepalive p * second)) else None) nets false)
      end
    end
  end.

Fixpoint kernel_peers (i : nat) (l : list Tunnel.Peer) : result kernel_config_error (list PeerConfig) :=
  match l with
  | [] => Ok []
  | p :: l =>
    match kernel_peer i p with
    | Err e => Err e
    | Ok pc => match kernel_peers (S i) l with Err e => Err e | Ok r => Ok (pc :: r) end
    end
  end.

Definition kernelConfig (cfg : WireGuardConfig) : result kernel_config_error wgConfig :=
  match wgtypes_ParseKey (Tunnel.PrivateKey cfg) with
  | None => Err BadPrivateKey
  | Some priv =>
    match kernel_peers 0 (Tunnel.Peers cfg) with
    | Err e => Err e
    | Ok peers => Ok (mkWgConfig (Some priv) true peers)
    end
  end.

Record kernelBackend := mkKernel { k_client : handle; k_iface : string }.

Definition kernel_apply x (b : kernelBackend) (cfg : WireGuardConfig)
  : X * result (kernel_config_error + string) unit :=
  match kernelConfig cfg with
  | Err e => (x, Err (inl e))
  | Ok wcfg =>
    match wgctrl_Configure x (k_client b) (k_iface b) wcfg with
    | (x, Some e) => (x, Err (inr e))
    | (x, None) => (x, Ok tt)
    end
  end.

Definition openKernel x (iface : string) (cfg : WireGuardConfig) (listenPort : Z)
  : X * result kernel_open_error kernelBackend :=
  match wgctrl_New x with
  | (x, Err _) => (x, Err NoIface)
  | (x, Ok client) =>
    match wgctrl_Device x client iface with
    | Err _ => ((wgctrl_Close x client).1, Err NoIface)
    | Ok _ =>
      let be := mkKernel client iface in
      match kernel_apply x be cfg with
      | (x, Err e) => ((wgctrl_Close x client).1, Err (ErrConfigure e))
      | (x, Ok _) => (x, Ok be)
      end
    end
  end.

(** Signed counters, the totals clamped at zero. *)
Definition kernel_totals (l : list wgPeer) : Z * Z * time :=
  let '(rx, tx, hs) :=
    foldl (fun '(rx, tx, hs) p =>
      (wrap_i64 (rx + ReceiveBytes p), wrap_i64 (tx + TransmitBytes p),
       if Time_After (LastHandshakeTime p) hs then LastHandshakeTime p else hs)) (0, 0, 0) l in
  (if rx <? 0 then 0 else rx, if tx <? 0 then 0 else tx, hs).

Definition kernel_probe x (b : kernelBackend) : probe_answer :=
  match wgctrl_Device x (k_client b) (k_iface b) with
  | Err e => Err e
  | Ok peers => Ok (kernel_totals peers)
  end.

Definition update_only (p : wgPeer) : PeerConfig :=
  mkPeerConfig (k_PublicKey p) true false (k_Endpoint p) (Some (k_Keepalive p)) [] false.
Definition kernel_rebind x (b : kernelBackend) : X * option string :=
  match wgctrl_Device x (k_client b) (k_iface b) with
  | Err e => (x, Some e)
  | Ok peers => wgctrl_Configure x (k_client b) (k_iface b) (mkWgConfig None false (map update_only peers))
  end.

Definition kernel_close x (b : kernelBackend) : X * option string :=
  wgctrl_Close (wgctrl_Configure x (k_client b) (k_iface b) (mkWgConfig None true [])).1 (k_client b).

(** ** The choice *)

Inductive backend := Userspace (d : device) | Kernel (b : kernelBackend).

Inductive create_error := CreateUser (e : open_error) | CreateKernel (e : kernel_config_error + string).

(** [text] is the message of a configuration error of the kernel. *)
Definition createBackend (text : kernel_config_error + string → string)
  (newTUN : X → string → Z → X * result string handle) (newBind : X → X * result string handle)
  x (avail : bool) (detail iface : string) (cfg : WireGuardConfig) (listenPort : Z)
  : X * result create_error backend * option (BackendKind * string) :=
  let userspace x :=
    match openUserspace newTUN newBind x iface cfg listenPort with
    | (x, Err e) => (x, Err (CreateUser e), None)
    | (x, Ok d) => (x, Ok (Userspace d),
                    Some (BackendUserspace, if String.eqb detail "" then "kernel unavailable" else detail))
    end in
  if avail then
    match openKernel x iface cfg listenPort with
    | (x, Ok b) => (x, Ok (Kernel b), Some (BackendKernel, detail))
    | (x, Err NoIface) => userspace x
    | (x, Err (ErrConfigure e)) =>
      match openUserspace newTUN newBind x iface cfg listenPort with
      | (x, Ok d) => (x, Ok (Userspace d),
                      Some (BackendUserspace, "kernel failed (tunnel: configure " +:+ iface +:+ ": " +:+ text e
                                              +:+ "); " +:+ detail))
      | (x, Err _) => (x, Err (CreateKernel e), None)
      end
    end
  else userspace x.

(** *** The calls of the engine, by backend *)

Definition be_probe x (b : backend) : probe_answer :=
  match b with Userspace d => userspace_probe x d | Kernel k => kernel_probe x k end.
Definition be_rebind x (b : backend) : X * option string :=
  match b with Userspace d => userspace_rebind x d | Kernel k => kernel_rebind x k end.
Definition be_close x (b : backend) : X * option string :=
  match b with Userspace d => userspace_close x d | Kernel k => kernel_close x k end.
End backend.

(** ** What the libraries promise

    [opened]: the TUN interfaces and wgctrl clients in existence.  Closing a
    wireguard-go device closes its interface; a factory or [wgctrl.New] adds
    one resource or none. *)

Abbreviation resource := (handle + handle)%type.

Definition adds {X} (opened : X → gset resource) (res : handle → resource) (x : X)
  (r : X * result string handle) : Prop :=
  match r with
  | (x', Ok h) => opened x' = {[res h]} ∪ opened x ∧ res h ∉ opened x
  | (x', Err _) => opened x' = opened x
  end.

Class MachineLaws (X : Type) `{WireGuardGo X, WgCtrl X} : Type := {
  opened : X → gset resource;
  new_device_law x d : opened (NewDevice x d) = opened x;
  ipc_set_law x d s : opened (IpcSet x d s).1 = opened x;
  up_law x d : opened (Up x d).1 = opened x;
  close_device_law x d : opened (CloseDevice x d) = opened x ∖ {[inl (d_tun d)]};
  close_tun_law x t : opened (CloseTUN x t).1 = opened x ∖ {[inl t]};
  wgctrl_new_law x : adds opened inr x (wgctrl_New x);
  configure_law x c i w : opened (wgctrl_Configure x c i w).1 = opened x;
  wgctrl_close_law x c : opened (wgctrl_Close x c).1 = opened x ∖ {[inr c]}
}.

(** The resource a backend holds. *)
Definition held (b : backend) : resource :=
  match b with Userspace d => inl (d_tun d) | Kernel k => inr (k_client k) end.

(** What the engine's own model takes as the answers of the two openings. *)
Definition kernel_view (h : backend → handle) (text : kernel_config_error + string → string) (iface : string)
  (r : result kernel_open_error kernelBackend) : result kernel_error handle :=
  match r with
  | Ok b => Ok (h (Kernel b))
  | Err NoIface => Err NoKernelIface
  | Err (ErrConfigure e) => Err (KernelErr ("tunnel: configure " +:+ iface +:+ ": " +:+ text e))
  end.
Definition user_view (h : backend → handle) (utext : open_error → string)
  (r : result open_error device) : result string handle :=
  match r with Ok d => Ok (h (Userspace d)) | Err e => Err (utext e) end.
Definition create_text (text : kernel_config_error + string → string) (utext : open_error → string)
  (iface : string) (e : create_error) : Tunnel.error :=
  ErrBackend (match e with
              | CreateUser e => utext e
              | CreateKernel e => "tunnel: configure " +:+ iface +:+ ": " +:+ text e
              end).

Section backend_proofs.
Context {X : Type} `{MachineLaws X, Resolver, IPv6, Netip, Unicode}.
Implicit Types x : X.

Lemma close_opened x0 x b : opened x = {[held b]} ∪ opened x0 → held b ∉ opened x0 →
  opened (be_close x b).1 = opened x0.
Proof.
  intros Ho Hn. destruct b as [d|k]; cbn in *; unfold userspace_close, kernel_close.
  - rewrite close_tun_law, close_device_law, Ho. set_solver.
  - rewrite wgctrl_close_law, configure_law, Ho. set_solver.
Qed.
Lemma open_kernel_opened x iface cfg port x' r : openKernel x iface cfg port = (x', r) →
  match r with
  | Ok b => opened x' = {[inr (k_client b)]} ∪ opened x ∧ inr (k_client b) ∉ opened x
  | Err _ => opened x' = opened x
  end.
Proof.
  unfold openKernel, kernel_apply. pose proof (wgctrl_new_law x) as Hn.
  destruct (wgctrl_New x) as [x1 [c|e]]; cbn in Hn; [|by intros [= <- <-]]. destruct Hn as [Ho Hn].
  assert (∀ y, opened y = opened x1 → opened (wgctrl_Close y c).1 = opened x) as Hc
    by (intros y Hy; rewrite wgctrl_close_law, Hy, Ho; set_solver).
  destruct (wgctrl_Device x1 c iface); [|intros [= <- <-]; by apply Hc].
  destruct (kernelConfig cfg) as [w|e]; [|intros [= <- <-]; by apply Hc].
  pose proof (configure_law x1 c iface w) as Hw. cbn [k_client k_iface].
  destruct (wgctrl_Configure x1 c iface w) as [x2 [e|]]; cbn in Hw; intros [= <- <-]; [by apply Hc|].
  cbn. split; [congruence|done].
Qed.

Lemma undo_device_opened x x' d : opened x = {[inl (d_tun d)]} ∪ opened x' → inl (d_tun d) ∉ opened x' →
  opened (undo_device x d) = opened x'.
Proof. intros Ho Hn. unfold undo_device. rewrite close_tun_law, close_device_law, Ho. set_solver. Qed.

Context (newTUN : X → string → Z → X * result string handle) (newBind : X → X * result string handle).
Hypothesis tun_adds : ∀ x n m, adds opened inl x (newTUN x n m).
Hypothesis bind_keeps : ∀ x, opened (newBind x).1 = opened x.

Lemma open_userspace_opened x iface cfg port x' r :
  openUserspace newTUN newBind x iface cfg port = (x', r) →
  match r with
  | Ok d => opened x' = {[inl (d_tun d)]} ∪ opened x ∧ inl (d_tun d) ∉ opened x
  | Err _ => opened x' = opened x
  end.
Proof.
  unfold openUserspace. pose proof (tun_adds x iface (MTUOrDefault (mkConfig "" 0 [] [] [] 0))) as Ht.
  destruct (newTUN x iface _) as [x1 [tun|e]]; cbn in Ht; [|by intros [= <- <-]]. destruct Ht as [Ht Hn].
  pose proof (bind_keeps x1) as Hb. destruct (newBind x1) as [x2 [bind|e]]; cbn in Hb.
  2: { intros [= <- <-]. rewrite close_tun_law, Hb, Ht. set_solver. }
  set (d := mkDevice tun bind). pose proof (new_device_law x2 d) as Hd.
  assert (∀ y, opened y = opened x1 → opened (undo_device y d) = opened x) as Hu.
  { intros y Hy. apply undo_device_opened; [by rewrite Hy, Ht | done]. }
  destruct (ToIPC (toWireguard cfg port)) as [ipc|e]; [|intros [= <- <-]; apply Hu; by rewrite Hd].
  pose proof (ipc_set_law (NewDevice x2 d) d ipc) as Hs.
  destruct (IpcSet (NewDevice x2 d) d ipc) as [x3 [e|]]; cbn in Hs; [intros [= <- <-]; apply Hu; congruence|].
  pose proof (up_law x3 d) as Hup. destruct (Up x3 d) as [x4 [e|]]; cbn in Hup; intros [= <- <-].
  - apply Hu. congruence.
  - split; [|done]. by rewrite Hup, Hs, Hd, Hb, Ht.
Qed.
End backend_proofs.

(** A key the kernel reads is the key the device is told in hexadecimal. *)
Lemma parse_key_hex key raw : value_ok key → wgtypes_ParseKey key = Some raw →
  default "" (key_hex key) = hex_EncodeToString raw.
Proof.
  intros Hv. unfold wgtypes_ParseKey, key_hex. rewrite (trim_value _ Hv). unfold KeyLen.
  destruct (base64_Std_DecodeString key); [|done]. destruct (_ =? 32)%nat; [|done]. by intros [= ->].
Qed.

Lemma kernel_peers_view `{Resolver, IPv6, Netip} i l r : kernel_peers i l = Ok r →
  Forall (fun p => value_ok (Tunnel.PublicKey p)) l →
  map (fun p => default "" (key_hex (Tunnel.PublicKey p))) l = map (fun pc => hex_EncodeToString (pc_PublicKey pc)) r
  ∧ Forall (fun pc => UpdateOnly pc = false ∧ ReplaceAllowedIPs pc = true) r
  ∧ map (fun p => length (Tunnel.AllowedIPs p)) l = map (fun pc => length (pc_AllowedIPs pc)) r.
Proof.
  assert (∀ i l n, allowed_nets i l = Ok n → length l = length n) as Hn.
  { intros k l'. induction l' as [|a l' IH]; intros n; cbn; [by intros [= <-]|].
    destruct (allowed_net k a); [|done]. destruct (allowed_nets k l') as [r'|]; [|done]. intros [= <-].
    cbn. f_equal. by apply IH. }
  revert i r. induction l as [|p l IH]; intros i r; cbn [kernel_peers]; [by intros [= <-]|].
  destruct (kernel_peer i p) as [pc|] eqn:Ep; [|done].
  destruct (kernel_peers (S i) l) as [r'|] eqn:Er; [|done]. intros [= <-] [Hp Hl]%Forall_cons.
  destruct (IH _ _ Er Hl) as (Hk & Hf & Ha). unfold kernel_peer in Ep.
  destruct (wgtypes_ParseKey _) as [raw|] eqn:Ek; [|done]. destruct (kernel_endpoint _ _); [|done].
  destruct (allowed_nets _ _) as [n|] eqn:En; [|done]. injection Ep as <-. cbn.
  split_and!; [f_equal; [by apply parse_key_hex|done] | by constructor | f_equal; [by eapply Hn|done]].
Qed.

(** When the kernel backend opens, the bind of the transport is never asked for. *)
Lemma kernel_ignores_bind {X} `{WireGuardGo X, WgCtrl X, Resolver, IPv6, Netip} text newTUN newBind newBind'
  (x x1 : X) detail iface cfg port b : openKernel x iface cfg port = (x1, Ok b) →
  createBackend text newTUN newBind x true detail iface cfg port
  = createBackend text newTUN newBind' x true detail iface cfg port.
Proof. intros Ek. unfold createBackend. by rewrite Ek. Qed.

(** ** Properties *)

(** C33: opening a data plane leaks nothing.  With factories and libraries that
    add one resource or none: when no backend can be created, every interface
    and client opened on the way has been closed again; when one is, exactly
    its own is added, and closing the backend gives back what there was. *)
Theorem backend_leaks_nothing {X} `{MachineLaws X, Resolver, IPv6, Netip, Unicode} text newTUN newBind
  (x x' : X) avail detail iface cfg port r k :
  (∀ x n m, adds opened inl x (newTUN x n m)) → (∀ x, opened (newBind x).1 = opened x) →
  createBackend text newTUN newBind x avail detail iface cfg port = (x', r, k) →
  match r with
  | Ok b => opened x' = {[held b]} ∪ opened x ∧ opened (be_close x' b).1 = opened x
            ∧ fst <$> k = Some (match b with Kernel _ => BackendKernel | Userspace _ => BackendUserspace end)
  | Err _ => opened x' = opened x ∧ k = None
  end.
Proof.
  intros Ht Hb. assert (∀ y, opened y = opened x → match openUserspace newTUN newBind y iface cfg port with
    | (y', Ok d) => opened y' = {[inl (d_tun d)]} ∪ opened x ∧ opened (userspace_close y' d).1 = opened x
    | (y', Err _) => opened y' = opened x end) as Hu.
  { intros y Hy. destruct (openUserspace newTUN newBind y iface cfg port) as [y' [d|e]] eqn:Eo;
      apply (open_userspace_opened newTUN newBind Ht Hb) in Eo; rewrite Hy in Eo; [|done].
    split; [apply Eo|]. apply (close_opened x y' (Userspace d)); apply Eo. }
  unfold createBackend. destruct avail.
  - destruct (openKernel x iface cfg port) as [x1 [b|[|e]]] eqn:Ek; apply open_kernel_opened in Ek.
    + intros [= <- <- <-]. split_and!; [apply Ek | | done]. apply (close_opened x x1 (Kernel b)); apply Ek.
    + specialize (Hu x1 Ek). destruct (openUserspace newTUN newBind x1 iface cfg port) as [x2 [d|e]];
        intros [= <- <- <-]; [|done]. split_and!; [apply Hu | apply Hu | done].
    + specialize (Hu x1 Ek). destruct (openUserspace newTUN newBind x1 iface cfg port) as [x2 [d|e2]];
        intros [= <- <- <-]; [|done]. split_and!; [apply Hu | apply Hu | done].
  - specialize (Hu x eq_refl). destruct (openUserspace newTUN newBind x iface cfg port) as [x2 [d|e]];
      intros [= <- <- <-]; [|done]. split_and!; [apply Hu | apply Hu | done].
Qed.

(** the choice the engine is modelled with is the one the code makes.  The
    outcome and the recorded report of creating a backend are those of
    [Tunnel.createBackend] on the answers of the two openings, the userspace
    one asked in the state the kernel attempt left. *)
Theorem create_refines_engine {X} `{WireGuardGo X, WgCtrl X, Resolver, IPv6, Netip, Unicode} text utext h newTUN newBind
  (x : X) avail detail iface cfg port :
  let out := createBackend text newTUN newBind x avail detail iface cfg port in
  let kern := (openKernel x iface cfg port).2 in
  let x1 := if avail then (openKernel x iface cfg port).1 else x in
  let user := (openUserspace newTUN newBind x1 iface cfg port).2 in
  (match out.1.2 with Ok b => Ok (h b) | Err e => Err (create_text text utext iface e) end, out.2)
  = Tunnel.createBackend avail detail (kernel_view h text iface kern) (user_view h utext user).
Proof.
  cbn zeta. unfold createBackend, Tunnel.createBackend. destruct avail.
  - destruct (openKernel x iface cfg port) as [x1 [b|[|e]]]; cbn; [done|..];
      destruct (openUserspace newTUN newBind x1 iface cfg port) as [x2 [d|e2]]; cbn; try done.
    by rewrite !string_app_assoc.
  - by destruct (openUserspace newTUN newBind x iface cfg port) as [x2 [d|e2]].
Qed.

(** the two backends carry the same peers.  For a configuration whose
    fields fit in a line, when both conversions succeed: what the userspace
    device dumps after being told the configuration names, in order, the keys
    the kernel is given, and the kernel's peers each replace their allowed
    addresses, as many as were asked for. *)
Theorem backends_agree `{Resolver, IPv6, Netip, Unicode} cfg port w text :
  config_plain (toWireguard cfg port) → kernelConfig cfg = Ok w → ToIPC (toWireguard cfg port) = Ok text →
  map ps_PublicKeyHex (ParseIPCDump text) = map (fun pc => hex_EncodeToString (pc_PublicKey pc)) (wg_Peers w)
  ∧ wg_PrivateKey w = base64_Std_DecodeString (Tunnel.PrivateKey cfg) ∧ ReplacePeers w = true
  ∧ Forall (fun pc => UpdateOnly pc = false ∧ ReplaceAllowedIPs pc = true) (wg_Peers w)
  ∧ map (fun p => length (Tunnel.AllowedIPs p)) (Tunnel.Peers cfg)
    = map (fun pc => length (pc_AllowedIPs pc)) (wg_Peers w).
Proof.
  intros Hc Hk Ht. rewrite (ipc_roundtrip _ _ Ht Hc). unfold kernelConfig in Hk.
  destruct (wgtypes_ParseKey (Tunnel.PrivateKey cfg)) as [priv|] eqn:Ep; [|done].
  destruct (kernel_peers 0 (Tunnel.Peers cfg)) as [peers|] eqn:Er; [|done]. injection Hk as <-. cbn [wg_Peers].
  destruct (kernel_peers_view _ _ _ Er) as (Hv & Hf & Ha).
  { eapply Forall_impl; [exact (proj1 (Forall_map _ _ _) (cp_peers _ Hc))|]. intros p Hp. apply Hp. }
  split_and!; [|unfold wgtypes_ParseKey in Ep; cbn|done|done|done].
  - rewrite map_map, <- Hv. cbn [WgConf.Peers toWireguard]. by rewrite map_map.
  - destruct (base64_Std_DecodeString _) as [raw|]; [|done]. by destruct (_ =? _)%nat.
Qed.

(** ** Witnesses and examples *)

(** A machine: what is open, the next handle, what the device was told, and
    which of the steps fails. *)
Inductive broken := Nothing | BrokenBind | BrokenSet | BrokenUp | BrokenKernel.
Record desk := mkDesk { dk_open : gset resource; dk_next : handle; dk_told : list string; dk_broken : broken }.
Definition fresh_handle (x : desk) : handle := S (foldr Nat.max (dk_next x) (map (fun r => match r with inl n | inr n => n end) (elements (dk_open x)))).
Definition with_open (x : desk) (o : gset resource) : desk := mkDesk o (dk_next x) (dk_told x) (dk_broken x).
Definition take_handle (res : handle → resource) (x : desk) : desk * result string handle :=
  (with_open x ({[res (fresh_handle x)]} ∪ dk_open x), Ok (fresh_handle x)).

#[local] Instance desk_go : WireGuardGo desk := {
  NewDevice x d := x;
  IpcSet x d s := match dk_broken x with
                  | BrokenSet => (x, Some "invalid")
                  | _ => (mkDesk (dk_open x) (dk_next x) (dk_told x ++ [s]) (dk_broken x), None)
                  end;
  IpcGet x d := Ok (strings_Join (dk_told x) "");
  Up x d := (x, match dk_broken x with BrokenUp => Some "denied" | _ => None end);
  BindUpdate x d := (x, None);
  CloseDevice x d := with_open x (dk_open x ∖ {[inl (d_tun d)]});
  CloseTUN x t := (with_open x (dk_open x ∖ {[inl t]}), None)
}.
#[local] Instance desk_ctrl : WgCtrl desk := {
  wgctrl_New x := take_handle inr x;
  wgctrl_Device x c i := match dk_broken x with BrokenKernel => Ok [] | _ => Err "no such device" end;
  wgctrl_Configure x c i w := (x, Some "operation not permitted");
  wgctrl_Close x c := (with_open x (dk_open x ∖ {[inr c]}), None)
}.

Lemma fresh_not_open x r : r ∈ dk_open x → (match r with inl n | inr n => n end < fresh_handle x)%nat.
Proof.
  intros Hr%elem_of_elements. unfold fresh_handle. induction (elements (dk_open x)) as [|y l IH].
  - by apply elem_of_nil in Hr.
  - apply elem_of_cons in Hr as [->|Hr]; cbn; [lia|]. specialize (IH Hr). lia.
Qed.

Lemma take_handle_adds res x : (∀ n, match res n with inl m | inr m => m end = n) →
  adds dk_open res x (take_handle res x).
Proof. intros Hr. split; [done|]. intros Hin%fresh_not_open. rewrite Hr in Hin. lia. Qed.

#[local] Instance desk_laws : MachineLaws desk.
Proof.
  refine {| opened := dk_open |}; try done.
  - intros x d s. cbn. by destruct (dk_broken x).
  - intros x. by apply take_handle_adds.
Defined.
#[local] Instance desk_resolver : Resolver :=
  {| net_ResolveUDPAddr s := Err "no such host"; prefix_value s := mkIPNet s 0 |}.
#[local] Existing Instances no_ipv6 ascii_unicode WgConf.demo_netip.

Definition desk_tun (x : desk) (name : string) (mtu : Z) : desk * result string handle := take_handle inl x.
Definition desk_bind (x : desk) : desk * result string handle :=
  (x, match dk_broken x with BrokenBind => Err "port in use" | _ => Ok 9%nat end).
Definition desk_of (b : broken) : desk := mkDesk {[inl 3%nat]} 0 [] b.
Definition desk_create (b : broken) (avail : bool) :=
  createBackend (fun _ => "error") desk_tun desk_bind (desk_of b) avail "" IfaceName Tunnel.demo_cfg 0.

Lemma backend_leaks_nothing_witness :
  dk_open (desk_create BrokenUp true).1.1 = {[inl 3%nat]}
  ∧ dk_open (desk_create Nothing true).1.1 = {[inl 4%nat; inl 3%nat]}.
Proof.
  assert (∀ x n m, adds opened inl x (desk_tun x n m)) as Ht by (intros; by apply take_handle_adds).
  assert (∀ x, opened (desk_bind x).1 = opened x) as Hb by done.
  assert (∀ b, desk_create b true = ((desk_create b true).1.1, (desk_create b true).1.2, (desk_create b true).2)) as Hd
    by (intros b; by destruct (desk_create b true) as [[? ?] ?]).
  pose proof (backend_leaks_nothing _ _ _ _ _ _ _ _ _ _ _ _ Ht Hb (Hd BrokenUp)) as H1.
  pose proof (backend_leaks_nothing _ _ _ _ _ _ _ _ _ _ _ _ Ht Hb (Hd Nothing)) as H2.
  assert ((desk_create BrokenUp true).1.2 = Err (CreateUser (ErrUp "denied"))) as E1 by (vm_compute; reflexivity).
  assert ((desk_create Nothing true).1.2 = Ok (Userspace (mkDevice 4 9))) as E2 by (vm_compute; reflexivity).
  rewrite E1 in H1. rewrite E2 in H2. split; [apply H1|apply H2].
Defined.

(** A failing kernel device falls back to userspace, and says so. *)
Example kernel_failure_falls_back : (desk_create BrokenKernel true).2
  = Some (BackendUserspace, "kernel failed (tunnel: configure veilnet: error); ").
Proof. vm_compute. reflexivity. Qed.

(** Applying a configuration to a running device: the text for it does not ask
    to replace the peers, so a device that is told it keeps the old ones. *)
Definition one_peer (key : Z) : WireGuardConfig :=
  mkWireGuardConfig WgConf.demo_key [] []
    [Tunnel.mkPeer (base64_Std_EncodeToString (repeat key 32)) "" ["10.0.0.0/8"] 0].
Example apply_adds_peers :
  let x := (userspace_apply (userspace_apply (desk_of Nothing) (mkDevice 4 9) (one_peer 1)).1 (mkDevice 4 9) (one_peer 2)).1 in
  (length ∘ ParseIPCDump <$> (match IpcGet x (mkDevice 4 9) with Ok s => Some s | Err _ => None end)) = Some 2%nat.
Proof. vm_compute. reflexivity. Qed.
