(* ===== verification/NodeWg.v ===== *)
(** * NodeWg: the WireGuard device of a node (internal/nodes/wireguard.go)

    The manager over wgctrl, an implementation of the interface [Controller] is
    proved against; the in-memory one; and the choice between them that a node
    makes when it starts.  wgctrl is the class of [Backend], with the documented
    effect of configuring peers as a law. *)

From Stdlib Require Import ZArith Lia.
From S2P Require Import Prelude Float64 GoStrings NetIP GoText.
From S2P Require Import Tunnel Backend.
From S2P Require Import Session.
From S2P Require Import NodeConfig Controller.

Record WGPeer := mkWGPeer {
  wp_PublicKey : string; wp_AllowedIP : string; wp_Endpoint : string; wp_LastHandshake : time;
  wp_RxBytes : Z; wp_TxBytes : Z }.

(** *** The manager over wgctrl *)

Record RealWGManager := mkReal { iface : string; client : option handle }.
Definition NewRealWGManager (i : string) : RealWGManager := mkReal i None.

(** [wgtypes.ParseKey], as the text check of the controller. *)
#[export] Instance wgtypes_keys : WGKeys := {| ParseWGKey s := is_Some_b (wgtypes_ParseKey s) |}.

(** [IPNet.String] and [UDPAddr.String]. *)
Class NetText : Type := { ipnet_String : IPNet → string; udp_String : IP * Z → string }.

Section real.
Context {X : Type} `{WgCtrl X, Resolver, IPv6, NetText}.
Implicit Types (x : X) (m : RealWGManager).

Definition lazy x m : X * RealWGManager * result string handle :=
  match client m with
  | Some h => (x, m, Ok h)
  | None => match wgctrl_New x with
            | (x, Err e) => (x, m, Err ("nodes: wgctrl open: " +:+ e))
            | (x, Ok h) => (x, mkReal (iface m) (Some h), Ok h)
            end
  end.

(** The address and the port are not looked at. *)
Definition EnsureDevice x m (addressCIDR : string) (listenPort : Z) : X * RealWGManager * option string :=
  match lazy x m with
  | (x, m, Err e) => (x, m, Some e)
  | (x, m, Ok c) =>
    (x, m, match wgctrl_Device x c (iface m) with
           | Err e => Some ("nodes: wireguard device missing: " +:+ e)
           | Ok _ => None
           end)
  end.

Definition peer_config (key : list Z) (ip : IP) (endpoint : string) (keepalive : Z) : PeerConfig :=
  mkPeerConfig key false true
    (if String.eqb endpoint "" then None
     else match net_ResolveUDPAddr endpoint with Ok a => Some a | Err _ => None end)
    (if keepalive >? 0 then Some (wrap_i64 (keepalive * second)) else None)
    [mkIPNet (IP_String ip) 32] false.

Definition Real_AddPeer x m (publicKey allowedIP32 endpoint : string) (keepalive : Z)
  : X * RealWGManager * option string :=
  match wgtypes_ParseKey publicKey with
  | None => (x, m, Some "nodes: bad peer pubkey")
  | Some key =>
    match net_ParseIP allowedIP32 with
    | None => (x, m, Some "nodes: bad allowed ip")
    | Some ip =>
      match lazy x m with
      | (x, m, Err e) => (x, m, Some e)
      | (x, m, Ok c) =>
        let '(x, e) := wgctrl_Configure x c (iface m)
                         (mkWgConfig None false [peer_config key ip endpoint keepalive]) in (x, m, e)
      end
    end
  end.

Definition Real_RemovePeer x m (publicKey : string) : X * RealWGManager * option string :=
  match wgtypes_ParseKey publicKey with
  | None => (x, m, Some "nodes: bad peer pubkey")
  | Some key =>
    match lazy x m with
    | (x, m, Err e) => (x, m, Some e)
    | (x, m, Ok c) =>
      let '(x, e) := wgctrl_Configure x c (iface m)
                       (mkWgConfig None false [mkPeerConfig key false false None None [] true]) in (x, m, e)
    end
  end.

Definition wg_peer (p : wgPeer) : WGPeer :=
  mkWGPeer (base64_Std_EncodeToString (k_PublicKey p))
    (match k_AllowedIPs p with [] => "" | a :: _ => ipnet_String a end)
    (match k_Endpoint p with None => "" | Some a => udp_String a end)
    (LastHandshakeTime p) (wrap_u64 (ReceiveBytes p)) (wrap_u64 (TransmitBytes p)).
Definition Real_ListPeers x m : X * RealWGManager * list WGPeer :=
  match lazy x m with
  | (x, m, Err _) => (x, m, [])
  | (x, m, Ok c) => (x, m, match wgctrl_Device x c (iface m) with Err _ => [] | Ok l => map wg_peer l end)
  end.
Definition Real_HasPeer x m (publicKey : string) : X * RealWGManager * bool :=
  let '(x, m, l) := Real_ListPeers x m in (x, m, existsb (fun p => String.eqb (wp_PublicKey p) publicKey) l).

Definition Real_Close x m : X * RealWGManager * option string :=
  match client m with
  | None => (x, m, None)
  | Some h => let '(x, e) := wgctrl_Close x h in (x, mkReal (iface m) None, e)
  end.
End real.

(** *** The in-memory manager *)

Definition NewFakeWGManager (i : string) : string * FakeWGManager :=
  (if String.eqb i "" then "veilnet0" else i, mkFake ∅).
Definition Fake_HasPeer (f : FakeWGManager) (k : string) : bool := is_Some_b (fake_peers f !! k).
Definition Fake_ListPeers (f : FakeWGManager) : list WGPeer :=
  map (fun e => mkWGPeer e.1 e.2.1 e.2.2 0 0 0) (map_to_list (fake_peers f)).

(** ** What wgctrl promises

    [devices] are the interfaces of the machine with their peers.  Configuring
    without an error has the documented effect on the peers of the interface;
    with an error it has none; nothing else changes them. *)

#[export] Instance IPNet_eq_dec : EqDecision IPNet.
Proof. solve_decision. Defined.

Definition take_net (n : IPNet) (l : list wgPeer) : list wgPeer :=
  map (fun p => mkWgPeer (k_PublicKey p) (k_Endpoint p) (k_Keepalive p) (LastHandshakeTime p) (ReceiveBytes p)
                  (TransmitBytes p) (List.filter (fun a => negb (bool_decide (a = n))) (k_AllowedIPs p))) l.

Definition same_key (k : list Z) (p : wgPeer) : bool := bool_decide (k_PublicKey p = k).
Definition update_peer (pc : PeerConfig) (p : wgPeer) : wgPeer :=
  mkWgPeer (k_PublicKey p) (match pc_Endpoint pc with Some e => Some e | None => k_Endpoint p end)
    (default (k_Keepalive p) (PersistentKeepaliveInterval pc)) (LastHandshakeTime p) (ReceiveBytes p) (TransmitBytes p)
    ((if ReplaceAllowedIPs pc then [] else k_AllowedIPs p) ++ pc_AllowedIPs pc).
Definition blank_peer (k : list Z) : wgPeer := mkWgPeer k None 0 0 0 0 [].

(** An allowed address belongs to one peer: giving it to one takes it from the
    others. *)
Definition configure_peer (l : list wgPeer) (pc : PeerConfig) : list wgPeer :=
  let k := pc_PublicKey pc in
  if Remove pc then List.filter (fun p => negb (same_key k p)) l
  else
    let known := existsb (same_key k) l in
    if UpdateOnly pc && negb known then l
    else
      let others := foldr take_net (List.filter (fun p => negb (same_key k p)) l) (pc_AllowedIPs pc) in
      others ++ [update_peer pc (default (blank_peer k) (List.find (same_key k) l))].
Definition configure_peers (w : wgConfig) (l : list wgPeer) : list wgPeer :=
  foldl configure_peer (if ReplacePeers w then [] else l) (wg_Peers w).

Class WgCtrlLaws (X : Type) `{WgCtrl X} : Type := {
  devices : X → string → option (list wgPeer);
  device_law x h i l : wgctrl_Device x h i = Ok l → devices x i = Some l;
  new_law x : devices (wgctrl_New x).1 = devices x;
  close_law x h : devices (wgctrl_Close x h).1 = devices x;
  configured x h i w : (wgctrl_Configure x h i w).2 = None → ∃ l, devices x i = Some l
    ∧ devices (wgctrl_Configure x h i w).1 i = Some (configure_peers w l);
  not_configured x h i w : (wgctrl_Configure x h i w).2 ≠ None →
    devices (wgctrl_Configure x h i w).1 = devices x
}.

(** ** The manager as the controller's device *)

(** The real manager with its machine, or the in-memory one. *)
Inductive node_wg (X : Type) := RealWG (x : X) (m : RealWGManager) | FakeWG (x : X) (f : FakeWGManager).
Arguments RealWG {_}. Arguments FakeWG {_}.

Section instance.
Context {X : Type} `{WgCtrlLaws X, Resolver, IPv6}.

(** The peers the device of a manager has; none where there is no device. *)
Definition peers_at (x : X) (i : string) : list wgPeer := default [] (devices x i).
Definition routed (l : list wgPeer) (key : list Z) : option string :=
  match List.find (same_key key) l with
  | Some p => match k_AllowedIPs p with [n] => Some (net_IP n) | _ => None end
  | None => None
  end.
Definition real_peer_of (x : X) (i k : string) : option string :=
  match wgtypes_ParseKey k with Some key => routed (peers_at x i) key | None => None end.

#[export] Instance node_wg_manager : WGManager (node_wg X) := {|
  AddPeer g k ip ep ka :=
    match g with
    | RealWG x m => let '(x, m, e) := Real_AddPeer x m k ip ep ka in (RealWG x m, e)
    | FakeWG x f => let '(f, e) := FakeWG_AddPeer f k ip ep ka in (FakeWG x f, e)
    end;
  RemovePeer g k :=
    match g with
    | RealWG x m => let '(x, m, e) := Real_RemovePeer x m k in (RealWG x m, e)
    | FakeWG x f => let '(f, e) := FakeWG_RemovePeer f k in (FakeWG x f, e)
    end;
  peer_of g k := match g with
                 | RealWG x m => real_peer_of x (iface m) k
                 | FakeWG x f => peer_of f k
                 end;
  is_fake g := match g with RealWG _ _ => false | FakeWG _ _ => true end
|}.

(** What [NewController] settles on when it is given none: the real device when
    it is there, and the in-memory one otherwise. *)
Definition auto_wg (x : X) (c : Config) : node_wg X :=
  match EnsureDevice x (NewRealWGManager (WGInterface c)) (WGAddress c +:+ "/10") (WGListenPort c) with
  | (x, m, None) => RealWG x m
  | (x, _, Some _) => FakeWG x (NewFakeWGManager (WGInterface c)).2
  end.
End instance.

(** ** One peer configured *)

Lemma find_app_none {A} (f : A → bool) l r : List.find f l = None → List.find f (l ++ r) = List.find f r.
Proof. induction l as [|a l IH]; cbn; [done|]. by destruct (f a). Qed.
Lemma same_key_iff k p : same_key k p = true ↔ k_PublicKey p = k.
Proof. unfold same_key. by rewrite bool_decide_eq_true. Qed.

Lemma take_net_keys n l : map k_PublicKey (take_net n l) = map k_PublicKey l.
Proof. unfold take_net. by rewrite map_map. Qed.
Lemma no_key k l : k ∉ map k_PublicKey l → List.find (same_key k) l = None.
Proof.
  intros Hk. destruct (List.find (same_key k) l) as [p|] eqn:Ef; [|done].
  apply List.find_some in Ef as [Hin Hp]. apply same_key_iff in Hp. destruct Hk.
  apply list_elem_of_fmap. exists p. by rewrite list_elem_of_In.
Qed.
Lemma others_no_key k l : k ∉ map k_PublicKey (List.filter (fun p => negb (same_key k p)) l).
Proof.
  intros (p & Hp & Hin)%list_elem_of_fmap. apply list_elem_of_In, filter_In in Hin as [_ Hn].
  by rewrite (proj2 (same_key_iff k p)) in Hn.
Qed.
Lemma take_net_elem n l p : p ∈ take_net n l → n ∉ k_AllowedIPs p.
Proof.
  intros (q & -> & _)%list_elem_of_fmap. cbn. intros Hin%list_elem_of_In. apply filter_In in Hin as [_ Hn].
  by rewrite bool_decide_true in Hn.
Qed.

(** The peer is there with its address alone, and the address is its alone. *)
Lemma peer_configured `{IPv6, Resolver} l key ip ep ka :
  let l' := configure_peer l (peer_config key ip ep ka) in
  let n := mkIPNet (IP_String ip) 32 in
  ∃ p, List.find (same_key key) l' = Some p ∧ p ∈ l' ∧ k_PublicKey p = key ∧ k_AllowedIPs p = [n]
  ∧ ∀ q, q ∈ l' → n ∈ k_AllowedIPs q → q = p.
Proof.
  cbn zeta. set (n := mkIPNet _ _). unfold configure_peer. cbn [peer_config Remove UpdateOnly andb pc_PublicKey pc_AllowedIPs foldr].
  set (old := default (blank_peer key) (List.find (same_key key) l)).
  set (others := take_net n (List.filter (fun p => negb (same_key key p)) l)). exists (update_peer (peer_config key ip ep ka) old).
  assert (k_PublicKey old = key) as Hk.
  { unfold old. destruct (List.find (same_key key) l) as [p|] eqn:Ef; [|done].
    apply List.find_some in Ef as [_ Hp]. by apply same_key_iff. }
  assert (List.find (same_key key) others = None) as Hn.
  { apply no_key. unfold others. rewrite take_net_keys. apply others_no_key. }
  split_and!.
  - rewrite find_app_none by done. cbn [List.find]. by rewrite (proj2 (same_key_iff key _)).
  - apply elem_of_app. right. by left.
  - exact Hk.
  - done.
  - intros q [Hq|Hq]%elem_of_app Hin.
    + by apply take_net_elem in Hq.
    + by apply list_elem_of_singleton in Hq.
Qed.

Section laws.
Context {X : Type} `{WgCtrlLaws X, Resolver, IPv6}.
Implicit Types (x : X) (m : RealWGManager).

Lemma lazy_devices x m : let r := lazy x m in devices r.1.1 = devices x ∧ iface r.1.2 = iface m.
Proof.
  unfold lazy. destruct (client m); [done|]. pose proof (new_law x) as Hn. by destruct (wgctrl_New x) as [x1 [h|e]].
Qed.

Lemma add_peer_cases x m k ip ep ka x' m' r : Real_AddPeer x m k ip ep ka = (x', m', r) → iface m' = iface m ∧
  match r with
  | Some _ => devices x' = devices x
  | None => ∃ key a l, wgtypes_ParseKey k = Some key ∧ net_ParseIP ip = Some a ∧ devices x (iface m) = Some l
      ∧ devices x' (iface m) = Some (configure_peer l (peer_config key a ep ka))
  end.
Proof.
  unfold Real_AddPeer. destruct (wgtypes_ParseKey k) as [key|]; [|by intros [= <- <- <-]].
  destruct (net_ParseIP ip) as [a|]; [|by intros [= <- <- <-]].
  pose proof (lazy_devices x m) as [Hd Hi]. destruct (lazy x m) as [[x1 m1] [c|e]]; cbn in Hd, Hi; [|by intros [= <- <- <-]].
  set (w := mkWgConfig _ _ _). pose proof (configured x1 c (iface m1) w) as Hc. pose proof (not_configured x1 c (iface m1) w) as Hn.
  destruct (wgctrl_Configure x1 c (iface m1) w) as [x2 [e|]]; intros [= <- <- <-]; (split; [done|]); cbn in *.
  - by rewrite Hn.
  - destruct (Hc eq_refl) as (l & Hl & Hl'). rewrite Hi, Hd in Hl. rewrite Hi in Hl'. by exists key, a, l.
Qed.

Lemma remove_peer_cases x m k x' m' r : Real_RemovePeer x m k = (x', m', r) → iface m' = iface m ∧
  match r with
  | Some _ => devices x' = devices x
  | None => ∃ key l, wgtypes_ParseKey k = Some key ∧ devices x (iface m) = Some l
      ∧ devices x' (iface m) = Some (List.filter (fun p => negb (same_key key p)) l)
  end.
Proof.
  unfold Real_RemovePeer. destruct (wgtypes_ParseKey k) as [key|]; [|by intros [= <- <- <-]].
  pose proof (lazy_devices x m) as [Hd Hi]. destruct (lazy x m) as [[x1 m1] [c|e]]; cbn in Hd, Hi; [|by intros [= <- <- <-]].
  set (w := mkWgConfig _ _ _). pose proof (configured x1 c (iface m1) w) as Hc. pose proof (not_configured x1 c (iface m1) w) as Hn.
  destruct (wgctrl_Configure x1 c (iface m1) w) as [x2 [e|]]; intros [= <- <- <-]; (split; [done|]); cbn in *.
  - by rewrite Hn.
  - destruct (Hc eq_refl) as (l & Hl & Hl'). rewrite Hi, Hd in Hl. rewrite Hi in Hl'. by exists key, l.
Qed.

Lemma fake_add f k ip ep ka : let r := FakeWG_AddPeer (H := wgtypes_keys) f k ip ep ka in
  match r.2 with Some _ => r.1 = f | None => peer_of r.1 k = Some ip end.
Proof. cbn zeta. unfold FakeWG_AddPeer. destruct (_ && _); cbn; [done|]. by rewrite lookup_insert_eq. Qed.

(** The choice of a node is a device as the controller expects one. *)
#[export] Instance node_wg_laws : WGManagerLaws (node_wg X).
Proof.
  split.
  - intros [x m|x f] k v ep ka Hv; remember (ipv4_String v) as t eqn:Et; cbn.
    + destruct (Real_AddPeer x m k t ep ka) as [[x' m'] r] eqn:E. apply add_peer_cases in E as [Hi Hr]. cbn.
      intros ->. destruct Hr as (key & a & l & Hk & Ha & _ & Hl).
      assert (a = V4 v) as ->.
      { subst t. unfold net_ParseIP in Ha. rewrite ipv4_String_colon, parse_ipv4_String in Ha by done. by injection Ha. }
      unfold real_peer_of, peers_at, routed. rewrite Hk, Hi, Hl. cbn [default from_option id].
      destruct (peer_configured l key (V4 v) ep ka) as (p & Hf & _ & _ & Hp & _). by rewrite Hf, Hp, Et.
    + pose proof (fake_add f k t ep ka) as Hf. destruct (FakeWG_AddPeer f k t ep ka) as [f' [e|]]; [done|].
      by intros _.
  - intros [x m|x f] k ip ep ka; cbn.
    + destruct (Real_AddPeer x m k ip ep ka) as [[x' m'] r] eqn:E. apply add_peer_cases in E as [Hi Hr]. cbn.
      destruct r; [|done]. intros _ k'. unfold real_peer_of, peers_at. by rewrite Hi, Hr.
    + pose proof (fake_add f k ip ep ka) as Hf. destruct (FakeWG_AddPeer f k ip ep ka) as [f' [e|]]; [|done].
      intros _ k'. cbn in Hf. by subst.
  - intros [x m|x f] k; cbn; [|intros _; by rewrite lookup_delete_eq].
    destruct (Real_RemovePeer x m k) as [[x' m'] r] eqn:E. apply remove_peer_cases in E as [Hi Hr]. cbn.
    intros ->. destruct Hr as (key & l & Hk & _ & Hl). unfold real_peer_of, peers_at, routed. rewrite Hk, Hi, Hl.
    cbn [default from_option id]. by rewrite no_key by apply others_no_key.
  - intros [x m|x f] k; cbn; [|done].
    destruct (Real_RemovePeer x m k) as [[x' m'] r] eqn:E. apply remove_peer_cases in E as [Hi Hr]. cbn.
    destruct r; [|done]. intros _ k'. unfold real_peer_of, peers_at. by rewrite Hi, Hr.
  - intros [x m|x f] k ip ep ka; cbn; [by destruct (Real_AddPeer _ _ _ _ _ _) as [[? ?] ?]|].
    by destruct (FakeWG_AddPeer _ _ _ _ _).
  - intros [x m|x f] k; cbn; [by destruct (Real_RemovePeer _ _ _) as [[? ?] ?]|done].
Qed.
End laws.

(** ** Properties *)

(** C27: an admitted client is routed, and alone on its address.  On a sound
    controller over a real device, a granted authorization leaves the interface
    of the node with a peer for the presented key whose only allowed address is
    the one leased to the session, and no other peer of the interface is allowed
    that address. *)
Theorem admitted_client_is_routed {X} `{WgCtrlLaws X, Resolver, IPv6} (c c' : Controller (node_wg X)) x m
    v pub ep now day io1 io2 s :
  csound c → wg c = RealWG x m → Controller_Authorize c v pub ep now day io1 io2 = (c', Ok s) →
  ∃ x' m' key l p n, wg c' = RealWG x' m' ∧ devices x' (iface m) = Some l ∧ wgtypes_ParseKey pub = Some key
  ∧ p ∈ l ∧ k_PublicKey p = key ∧ n = mkIPNet (Session.AssignedIP s) 32 ∧ k_AllowedIPs p = [n]
  ∧ ∀ q, q ∈ l → n ∈ k_AllowedIPs q → q = p.
Proof.
  intros Hc Hw E. destruct (authorize_ok_inv _ _ _ _ _ _ _ _ _ _ E) as
    (_ & _ & _ & _ & _ & a & text & mg & p & g & Ea & Em & Ep & _ & _ & Eg & Ew).
  destruct (session_authorize _ _ _ _ _ _ _ _ (snd_ses _ _ Hc) Em) as (_ & s' & Hp & Hip & _).
  assert (s' = s) as -> by congruence. rewrite Hw in Eg. cbn in Eg.
  destruct (Real_AddPeer x m pub text ep 25) as [[x' m'] r] eqn:Er. apply add_peer_cases in Er as [_ Hr].
  injection Eg as <- ->. destruct Hr as (key & ip & l & Hk & Hi & _ & Hl).
  destruct (Ipam.allocate_ok _ _ _ (snd_ip _ _ Hc) Ea) as (_ & _ & off & -> & Hu & _).
  destruct (snd_ip _ _ Hc) as [Hw1 Hw2 _ _]. unfold Ipam.address, Ipam.usable in *.
  assert (IP_String ip = Session.AssignedIP s) as Ht.
  { unfold net_ParseIP in Hi. rewrite ipv4_String_colon, parse_ipv4_String in Hi by lia. injection Hi as <-. by rewrite Hip. }
  destruct (peer_configured l key ip ep 25) as (q & _ & Hin & Hkey & Hall & Huniq). rewrite Ht in *.
  exists x', m', key, (configure_peer l (peer_config key ip ep 25)), q, (mkIPNet (Session.AssignedIP s) 32).
  split_and!; done.
Qed.

(** C28: a revoked client is cut off, or the device did not answer.  Over a real
    device, a revocation that succeeds has ended the session and given back its
    address; and the interface has no peer with the key of that session any
    more, unless removing it failed, which the controller does not tell, and then
    the device is as it was. *)
Theorem revoked_client_is_cut {X} `{WgCtrlLaws X, Resolver, IPv6} (c c' : Controller (node_wg X)) x m id now io s :
  csound c → wg c = RealWG x m → session_of (ses c) id = Some s → Controller_Revoke c id now io = (c', Ok tt) →
  session_of (ses c') id = None ∧ ip c' = Ipam.IPAM_Release (ip c) (Session.AssignedIP s)
  ∧ ∃ x' m', wg c' = RealWG x' m' ∧
    ((Real_RemovePeer x m (Session.ClientPubkey s)).2 = None ∧ (∃ key l, wgtypes_ParseKey (Session.ClientPubkey s) = Some key
        ∧ devices x' (iface m) = Some l ∧ ∀ p, p ∈ l → k_PublicKey p ≠ key)
     ∨ (Real_RemovePeer x m (Session.ClientPubkey s)).2 ≠ None ∧ devices x' = devices x).
Proof.
  intros Hc Hw Hs. pose proof (session_revoke (ses c) id now (snd_ses _ _ Hc)) as [_ Hr]. specialize (Hr id).
  rewrite decide_True in Hr by done. revert Hr. unfold Controller_Revoke, Session.Manager_Get. unfold session_of in Hs.
  destruct (Session.byToken (ses c) !! id) as [p|] eqn:Ep; [|done]. cbn in Hs. rewrite Hs.
  destruct (Session.Manager_Revoke (ses c) id now) as [mg [[]|e]]; [|done]. intros Hr [= <-].
  unfold drop_client. cbn [emit set_db set_ip set_wg set_ses ses ip wg db fst] in *. rewrite Hw. cbn [RemovePeer node_wg_manager].
  destruct (Real_RemovePeer x m (Session.ClientPubkey s)) as [[x' m'] r] eqn:Er.
  split; [exact Hr|]. split; [done|]. exists x', m'. split; [done|]. cbn [snd].
  apply remove_peer_cases in Er as [_ Hrem]. destruct r as [e|]; [by right|]. left. split; [done|].
  destruct Hrem as (key & l & Hk & _ & Hl). exists key, (List.filter (fun p => negb (same_key key p)) l).
  split_and!; [done|done|]. intros q Hin Hq. apply list_elem_of_In, filter_In in Hin as [_ Hn].
  by rewrite (proj2 (same_key_iff key q)) in Hn.
Qed.

(** ** Witnesses and examples *)

(** A machine with one interface, or none; [stuck] makes removals fail. *)
Record rack := mkRack { rk_peers : option (list wgPeer); stuck : bool }.
#[local] Instance rack_ctrl : WgCtrl rack := {
  wgctrl_New x := (x, Ok 1%nat);
  wgctrl_Device x h i := match rk_peers x with Some l => if String.eqb i "veilnet0" then Ok l else Err "no such device"
                         | None => Err "no such device" end;
  wgctrl_Configure x h i w :=
    if String.eqb i "veilnet0" && negb (stuck x && existsb Remove (wg_Peers w)) then
      match rk_peers x with
      | Some l => (mkRack (Some (configure_peers w l)) (stuck x), None)
      | None => (x, Some "no such device")
      end
    else (x, Some "operation not permitted");
  wgctrl_Close x h := (x, None)
}.
#[local] Instance rack_laws : WgCtrlLaws rack.
Proof.
  refine {| devices x i := if String.eqb i "veilnet0" then rk_peers x else None |}; try done.
  - intros x h i l. cbn. destruct (rk_peers x) as [l'|]; [|done]. destruct (String.eqb i "veilnet0"); [|done]. by intros [= ->].
  - intros x h i w. cbn. destruct (String.eqb i "veilnet0"); cbn [andb]; [|done].
    destruct (negb _); [|done]. destruct (rk_peers x) as [l|]; [|done]. intros _. by exists l.
  - intros x h i w. cbn. destruct (_ && _); [|by intros _].
    destruct (rk_peers x) eqn:Er; cbn; [intros Hx; by destruct Hx|by rewrite Er].
Defined.
#[local] Existing Instance no_ipv6.
#[local] Instance rack_resolver : Resolver :=
  {| net_ResolveUDPAddr s := Err "no such host"; prefix_value s := mkIPNet s 0 |}.

Definition rack_config : Config :=
  mkConfig "node" NodeTypeExit "" "" "" 2 0 0 f0 true "" "" f0 60 "127.0.0.1:1" false "veilnet0" 51820
    "100.64.0.1" "" "100.64.0.0/29" "" "" [] [] true 0 0 1 false false.
Definition rack_node (x : rack) : Controller (node_wg rack) :=
  match NewController rack_config (auto_wg x rack_config) None true 0 with
  | Ok c => c
  | Err _ => mkController rack_config (auto_wg x rack_config) (Ipam.mkIPAM 0 0 0 ∅ "") (Session.NewManager 0) None true [] None
               0 0 0 0
  end.
Definition rack_key : string := base64_Std_EncodeToString (repeat 7 32).
Definition stale_peer : wgPeer := mkWgPeer (repeat 9 32) None 0 0 0 0 [mkIPNet "100.64.0.2" 32].
Definition rack_token : result Session.error Session.Token := Ok (Session.mkToken "t1" "node" "s1" (2 * hour) "exit" "t1").
Definition rack_admit (x : rack) := Controller_Authorize (rack_node x) rack_token rack_key "" 0 "day" None None.
Definition rack_session : Session.Session :=
  match (rack_admit (mkRack (Some []) false)).2 with
  | Ok s => s
  | Err _ => Session.mkSession "" "" "" "" "" "" "" 0 0 false 0 0 0
  end.

Lemma rack_sound x : csound (rack_node x).
Proof.
  apply (new_sound rack_config (auto_wg x rack_config) None true 0). reflexivity.
Qed.

(** A peer left on the address by an earlier run loses it. *)
Lemma admitted_client_is_routed_witness :
  let c := rack_node (mkRack (Some [stale_peer]) false) in
  ∃ x' m' l p, wg (rack_admit (mkRack (Some [stale_peer]) false)).1 = RealWG x' m' ∧ devices x' "veilnet0" = Some l
  ∧ p ∈ l ∧ k_AllowedIPs p = [mkIPNet "100.64.0.2" 32].
Proof.
  assert (wg (rack_node (mkRack (Some [stale_peer]) false)) = RealWG (mkRack (Some [stale_peer]) false) (mkReal "veilnet0" (Some 1%nat)))
    as Hw by (vm_compute; reflexivity).
  assert (rack_admit (mkRack (Some [stale_peer]) false) = ((rack_admit (mkRack (Some [stale_peer]) false)).1, Ok rack_session))
    as E by (vm_compute; reflexivity).
  destruct (admitted_client_is_routed _ _ _ _ _ _ _ _ _ _ _ _ (rack_sound _) Hw E)
    as (x' & m' & key & l & p & n & Hx & Hl & _ & Hin & _ & -> & Hp & _).
  exists x', m', l, p. split; [exact Hx|]. split; [exact Hl|]. split; [exact Hin|].
  assert (Session.AssignedIP rack_session = "100.64.0.2") as Ha by (vm_compute; reflexivity).
  rewrite Ha in Hp. exact Hp.
Defined.

Definition rack_open : Controller (node_wg rack) := (rack_admit (mkRack (Some []) false)).1.
Lemma revoked_client_is_cut_witness :
  ip (Controller_Revoke rack_open "t1" 5 None).1 = Ipam.IPAM_Release (ip rack_open) "100.64.0.2"
  ∧ session_of (ses (Controller_Revoke rack_open "t1" 5 None).1) "t1" = None.
Proof.
  assert (csound rack_open) as Hc.
  { apply authorize_sound, rack_sound. }
  assert (∃ x m, wg rack_open = RealWG x m) as (x & m & Hw) by (eexists _, _; vm_compute; reflexivity).
  assert (session_of (ses rack_open) "t1" = Some rack_session) as Hs by (vm_compute; reflexivity).
  assert (Controller_Revoke rack_open "t1" 5 None = ((Controller_Revoke rack_open "t1" 5 None).1, Ok tt)) as E
    by (vm_compute; reflexivity).
  destruct (revoked_client_is_cut _ _ _ _ _ _ _ _ Hc Hw Hs E) as (Hn & Hi & _).
  assert (Session.AssignedIP rack_session = "100.64.0.2") as Ha by (vm_compute; reflexivity).
  rewrite Ha in Hi. split; [exact Hi|exact Hn].
Defined.

(** The removal fails: the session is over and its address free, and the peer
    is still on the device. *)
Example failed_removal_is_not_told :
  let c := (rack_admit (mkRack (Some []) true)).1 in
  (Controller_Revoke c "t1" 5 None).2 = Ok tt ∧ peer_of (wg (Controller_Revoke c "t1" 5 None).1) rack_key = Some "100.64.0.2".
Proof. vm_compute. split; reflexivity. Qed.

(** Without the interface the node admits clients to an in-memory device that
    carries nothing. *)
Example degraded_node_admits :
  let r := rack_admit (mkRack None false) in
  is_ok r.2 = true ∧ is_fake (wg r.1) = true.
Proof. vm_compute. split; reflexivity. Qed.
