(* ===== verification/Runner.v ===== *)
(** * Runner: operating-system commands (the [Runner] interfaces of internal/firewall, routing, dns)

    The system is a state of type [O]; a runner executes one command on it and
    answers its output or an error.  What a command does is not modelled here:
    a theorem that needs it names the documented effect as a law.  The file
    also has the states reached by a restricted set of commands, the operating
    system a build selects its backend by, and the state files a manager keeps
    under its primary path and a legacy one. *)

From Stdlib Require Import ZArith Lia Ascii.
From S2P Require Import Prelude GoStrings GoText.

(** [Runner.Run]: the command's output, or its error. *)
Class Runner (O : Type) : Type := { Run : O → string → list string → O * result string string }.

Inductive System := Windows | Linux | Darwin | OtherSystem (os : string).

Abbreviation command := (string * list string)%type (only parsing).

Section runner.
Context {O : Type} `{Runner O}.

(** A command whose output does not matter. *)
Definition exec (o : O) (name : string) (args : list string) : O * result string unit :=
  match Run o name args with
  | (o, Ok _) => (o, Ok tt)
  | (o, Err e) => (o, Err e)
  end.

(** Commands in order, up to the first that fails. *)
Fixpoint exec_all (o : O) (cmds : list command) : O * result string unit :=
  match cmds with
  | [] => (o, Ok tt)
  | (n, args) :: cmds =>
    match exec o n args with
    | (o, Ok _) => exec_all o cmds
    | (o, Err e) => (o, Err e)
    end
  end.

(** Commands in order, whatever they answer. *)
Definition exec_each (o : O) (cmds : list command) : O :=
  foldl (fun o c => (exec o c.1 c.2).1) o cmds.

(** Reached by running only commands of [P]. *)
Inductive reach (P : list command) : O → O → Prop :=
| reach_nil o : reach P o o
| reach_run o o' c r o'' : c ∈ P → Run o c.1 c.2 = (o', r) → reach P o' o'' → reach P o o''.
End runner.

(** ** State files

    What each path holds, [Some None] being text that does not parse; the
    paths a manager uses, the one it writes first. *)

Section files.
Context {D : Type}.
Implicit Types (d : gmap string (option D)) (paths : list string).

(** The first path that holds a readable document. *)
Fixpoint read_first d paths : option D :=
  match paths with
  | [] => None
  | p :: paths => match d !! p with Some (Some x) => Some x | _ => read_first d paths end
  end.

Definition remove_files d paths : gmap string (option D) := foldl (fun d p => delete p d) d paths.

(** A failed write goes unnoticed; [ok] says whether it succeeded. *)
Definition write_first d paths (x : D) (ok : bool) : gmap string (option D) :=
  match paths with p :: _ => if ok then <[p := Some x]> d else d | [] => d end.

Lemma removed_lookup d paths p : remove_files d paths !! p = if decide (p ∈ paths) then None else d !! p.
Proof.
  unfold remove_files. revert d. induction paths as [|q l IH]; intros d; cbn [foldl].
  { by rewrite decide_False by set_solver. }
  rewrite IH. destruct (decide (p ∈ l)) as [Hl|Hl].
  { by rewrite decide_True by set_solver. }
  destruct (decide (p = q)) as [->|Hq].
  - by rewrite lookup_delete_eq, decide_True by set_solver.
  - by rewrite lookup_delete_ne, decide_False by set_solver.
Qed.

Lemma read_none d paths : (∀ p, p ∈ paths → d !! p = None) → read_first d paths = None.
Proof.
  induction paths as [|p l IH]; intros Hd; cbn [read_first]; [done|].
  rewrite Hd by set_solver. apply IH. intros q Hq. apply Hd. set_solver.
Qed.

Lemma read_removed_files d paths : read_first (remove_files d paths) paths = None.
Proof. apply read_none. intros p Hp. by rewrite removed_lookup, decide_True. Qed.

Lemma read_written_file d paths x : paths ≠ [] → read_first (write_first d paths x true) paths = Some x.
Proof. destruct paths as [|p l]; [done|]. intros _. cbn. by rewrite lookup_insert_eq. Qed.
End files.

Section reach_lemmas.
Context {O : Type} `{Runner O} (P : list command).

Lemma exec_run o n args : exec o n args
  = match Run o n args with (o, Ok _) => (o, Ok tt) | (o, Err e) => (o, Err e) end.
Proof. done. Qed.

Lemma reach_exec o c o' r : c ∈ P → exec o c.1 c.2 = (o', r) → reach P o o'.
Proof.
  unfold exec. intros Hc. destruct (Run o c.1 c.2) as [o1 x] eqn:E. intros He.
  eapply reach_run; [exact Hc | exact E |]. destruct x; injection He as <- _; apply reach_nil.
Qed.

Lemma reach_trans (o o1 o2 : O) : reach P o o1 → reach P o1 o2 → reach P o o2.
Proof. induction 1; [done|]. eauto using reach. Qed.

Lemma reach_all o cmds o' r : cmds ⊆ P → exec_all o cmds = (o', r) → reach P o o'.
Proof.
  revert o. induction cmds as [|[n args] cmds IH]; intros o Hs; cbn [exec_all].
  { intros [= <- _]. apply reach_nil. }
  destruct (exec o n args) as [o1 x] eqn:E.
  assert (reach P o o1) as H1 by (eapply (reach_exec o (n, args)); [set_solver | done]).
  destruct x; [|by intros [= <- _]]. intros Ha. eapply reach_trans; [exact H1|].
  eapply IH; [set_solver | done].
Qed.

Lemma reach_each o cmds : cmds ⊆ P → reach P o (exec_each o cmds).
Proof.
  unfold exec_each. revert o. induction cmds as [|c cmds IH]; intros o Hs; cbn [foldl]; [apply reach_nil|].
  eapply reach_trans; [|apply IH; set_solver].
  destruct (exec o c.1 c.2) as [o1 x] eqn:E. eapply reach_exec; [|done]. set_solver.
Qed.
End reach_lemmas.
