(* ===== verification/Platform.v ===== *)
(** * Platform: where things are kept, what is registered, what the kernel can do (internal/platform, tunnel/kernel_*.go)

    The directories of the application per operating system, the paths of the
    state files that the kill switch, the resolver manager and the route manager
    recover from, the registry of backends, and the probes for WireGuard in the
    kernel.  The environment, the file system and the commands are arguments. *)

From Stdlib Require Import ZArith Lia Ascii.
From S2P Require Import Prelude GoStrings NetIP GoText Runner.

(** ** Paths

    [filepath.Join] on systems whose separator is the slash: the parts that are
    not empty, joined and cleaned. *)

Class Filepath : Type := { filepath_Join : list string → string }.

Definition slash : ascii := "/"%char.
(** The elements of a cleaned path, last first. *)
Fixpoint clean_parts (rooted : bool) (acc l : list string) : list string :=
  match l with
  | [] => acc
  | p :: l =>
    if String.eqb p "" || String.eqb p "." then clean_parts rooted acc l
    else if String.eqb p ".." then
      match acc with
      | [] => clean_parts rooted (if rooted then [] else [".."]) l
      | x :: r => if String.eqb x ".." then clean_parts rooted (".." :: acc) l else clean_parts rooted r l
      end
    else clean_parts rooted (p :: acc) l
  end.
Definition filepath_Clean (s : string) : string :=
  let rooted := strings_HasPrefix s "/" in
  let parts := reverse (clean_parts rooted [] (strings_Split s slash)) in
  let body := strings_Join parts "/" in
  if rooted then "/" +:+ body else if String.eqb body "" then "." else body.
#[export] Instance unix_paths : Filepath := {
  filepath_Join l := match List.filter (fun s => negb (String.eqb s "")) l with
                     | [] => "" | l => filepath_Clean (strings_Join l "/") end }.

(** ** Directories (platform.go, dirs.go) *)

Definition CurrentOS (goos : string) : System :=
  if String.eqb goos "windows" then Windows else if String.eqb goos "linux" then Linux
  else if String.eqb goos "darwin" then Darwin else OtherSystem goos.

(** The environment: a variable that is not set is empty; the home directory can
    be missing. *)
Record environment := mkEnv { getenv : gmap string string; home_dir : option string }.
Definition Getenv (e : environment) (k : string) : string := default "" (getenv e !! k).
Definition home_of (e : environment) : string := default "" (home_dir e).

Record Dirs := mkDirs { d_Config : string; d_Data : string; d_State : string }.

Section dirs.
Context `{Filepath}.
Implicit Types e : environment.

Definition or_join (v : string) (l : list string) : string := if String.eqb v "" then filepath_Join l else v.
Definition AppDirs (os : System) e : Dirs :=
  match os with
  | Windows =>
    let appdata := or_join (Getenv e "APPDATA") [home_of e; "AppData"; "Roaming"] in
    let local := or_join (Getenv e "LOCALAPPDATA") [home_of e; "AppData"; "Local"] in
    mkDirs (filepath_Join [appdata; "veilnet"]) (filepath_Join [local; "veilnet"]) (filepath_Join [local; "veilnet"; "state"])
  | Darwin =>
    let support := filepath_Join [home_of e; "Library"; "Application Support"; "veilnet"] in
    mkDirs support support (filepath_Join [home_of e; "Library"; "Caches"; "veilnet"])
  | _ =>
    let cfg := or_join (Getenv e "XDG_CONFIG_HOME") [home_of e; ".config"] in
    let data := or_join (Getenv e "XDG_DATA_HOME") [home_of e; ".local"; "share"] in
    let state := or_join (Getenv e "XDG_STATE_HOME") [home_of e; ".local"; "state"] in
    mkDirs (filepath_Join [cfg; "veilnet"]) (filepath_Join [data; "veilnet"]) (filepath_Join [state; "veilnet"])
  end.

(** The directories that are asked for, up to the first that cannot be made. *)
Fixpoint ensure_all (mkdir : string → option string) (l made : list string) : list string * result string unit :=
  match l with
  | [] => (made, Ok tt)
  | p :: l => if String.eqb p "" then ensure_all mkdir l made
              else match mkdir p with Some e => (made, Err e) | None => ensure_all mkdir l (made ++ [p]) end
  end.
Definition Dirs_Ensure (mkdir : string → option string) (d : Dirs) : list string * result string unit :=
  ensure_all mkdir [d_Config d; d_Data d; d_State d] [].

(** The paths of a state file: in the directory given, or under the state
    directory with the old place in the home directory after it; none without a
    home directory. *)
Definition state_paths (os : System) e (stateDir name : string) : list string :=
  if negb (String.eqb stateDir "") then [filepath_Join [stateDir; name]]
  else match home_dir e with
  | None => []
  | Some home =>
    let primary := filepath_Join [d_State (AppDirs os e); name] in
    let legacy := filepath_Join [home; ".veilnet"; name] in
    if String.eqb primary legacy then [primary] else [primary; legacy]
  end.
Definition first_path (l : list string) : string := match l with [] => "" | p :: _ => p end.

(** The three managers'. *)
Definition statePaths (os : System) e (stateDir : string) : list string := state_paths os e stateDir "routes.json".
Definition statePath (os : System) e (stateDir : string) : string := first_path (statePaths os e stateDir).
Definition snapshotPaths (os : System) e (stateDir : string) : list string := state_paths os e stateDir "dns.json".
Definition snapshotPath (os : System) e (stateDir : string) : string := first_path (snapshotPaths os e stateDir).
Definition sentinelPaths (os : System) e (stateDir : string) : list string := state_paths os e stateDir "killswitch.json".
Definition sentinelPath (os : System) e (stateDir : string) : string := first_path (sentinelPaths os e stateDir).
End dirs.

(** ** Registered backends (backends.go) *)

Abbreviation registry := (gmap string (gmap string bool)).
(** The probe is the answer it gives. *)
Definition Register (r : registry) (kind name : string) (supports : bool) : registry :=
  <[kind := <[name := supports]> (default ∅ (r !! kind))]> r.
Definition Available (r : registry) (kind : string) : list string :=
  sort_Strings (map fst (map_to_list (default ∅ (r !! kind)))).
Definition Supported (r : registry) (kind name : string) : bool :=
  default false (default ∅ (r !! kind) !! name).

(** What the packages register when they are loaded. *)
Definition system_backends (os : System) : list (string * string * bool) :=
  let on (s : System) := match os, s with Windows, Windows | Linux, Linux | Darwin, Darwin => true | _, _ => false end in
  [("firewall", "netsh", on Windows); ("firewall", "nftables", on Linux); ("firewall", "pf", on Darwin);
   ("dns", "netsh-nrpt", on Windows); ("dns", "systemd-resolved", on Linux); ("dns", "networksetup", on Darwin);
   ("route", "netsh", on Windows); ("route", "ip-route", on Linux); ("route", "bsd-route", on Darwin)].
(** The backend a build for the system selects (the select_*.go files). *)
Definition backend_of (os : System) (kind : string) : option string :=
  let pick (f d r : string) :=
    if String.eqb kind "firewall" then Some f else if String.eqb kind "dns" then Some d
    else if String.eqb kind "route" then Some r else None in
  match os with
  | Windows => pick "netsh" "netsh-nrpt" "netsh"
  | Linux => pick "nftables" "systemd-resolved" "ip-route"
  | Darwin => pick "pf" "networksetup" "bsd-route"
  | OtherSystem _ => None
  end.
Definition register_all (os : System) : registry :=
  foldl (fun r '(kind, name, s) => Register r kind name s) ∅ (system_backends os).

(** ** WireGuard in the kernel (kernel_linux.go, kernel_windows.go) *)

Definition blank (c : ascii) : bool := chr c nl || chr c " "%char || chr c (byte_of 9).
Fixpoint drop_blank (l : list ascii) : list ascii :=
  match l with c :: l' => if blank c then drop_blank l' else l | [] => [] end.
Definition cut160 (s : string) : string := if len s >? 160 then of_chars (take 160 (chars s)) +:+ "..." else s.
Definition trimOut (out : string) : string :=
  let s := of_chars (reverse (drop_blank (reverse (chars (cut160 out))))) in
  if String.eqb s "" then "no output" else s.
Definition oneLine (out err : string) : string :=
  let s := strings_TrimSpace out in
  if String.eqb s "" then err else strings_Join (strings_Fields (cut160 s)) " ".

(** A command answers its output and the error it ended with, if any. *)
Definition combined := (string * option string)%type.

Section probe.
Context {O : Type} `{Unicode} (run : O → string → list string → O * combined).

Definition probe_linux (o : O) (module : bool) (ipBin : option string) (pid : Z) : O * (bool * string) :=
  if module then (o, (true, "kernel module loaded (/sys/module/wireguard)"))
  else match ipBin with
  | None => (o, (false, "no kernel module (/sys/module/wireguard absent) and no `ip` tool for dry-run probe"))
  | Some ip =>
    let ifName := "veilnet-probe" +:+ fmt_d pid in
    match run o ip ["link"; "add"; ifName; "type"; "wireguard"] with
    | (o, (out, Some e)) =>
      (o, (false, "kernel dry-run `ip link add type wireguard` failed: " +:+ e +:+ " (" +:+ trimOut out +:+ ")"))
    | (o, (_, None)) =>
      match run o ip ["link"; "del"; ifName] with
      | (o, (out, Some e)) =>
        (o, (true, "kernel usable but probe cleanup needs attention: " +:+ e +:+ " (" +:+ trimOut out +:+ ")"))
      | (o, (_, None)) => (o, (true, "kernel usable (dry-run `ip link add type wireguard` succeeded, probe removed)"))
      end
    end
  end.

Definition probe_windows (o : O) : O * (bool * string) :=
  match run o "sc" ["query"; "WireGuardNT"] with
  | (o, (out, Some e)) =>
    (o, (false, "WireGuardNT service not usable (`sc query WireGuardNT`: " +:+ oneLine out e +:+ "); using wintun userspace"))
  | (o, (out, None)) =>
    if strings_Contains (strings_ToUpper out) "RUNNING" then (o, (true, "WireGuardNT service RUNNING"))
    else (o, (false, "WireGuardNT service present but not RUNNING; using wintun userspace"))
  end.
End probe.
Definition probe_other (goos : string) : bool * string :=
  (false, "no kernel probe on " +:+ goos +:+ "; using userspace unless a pre-existing interface is configured").

(** ** Lemmas *)

(** A path ends with the name it was joined with. *)
Definition plain_name (n : string) : Prop := n ∉ [""; "."; ".."] ∧ slash ∉ chars n.
Definition ends_with (s n : string) : Prop := ∃ q, chars s = q ++ chars n ∧ (q = [] ∨ ∃ q', q = q' ++ [slash]).

Lemma ends_unique s n m : slash ∉ chars n → slash ∉ chars m → ends_with s n → ends_with s m → n = m.
Proof.
  intros Hn Hm (q & Eq & Hq) (p & Ep & Hp). apply chars_inj. rewrite Eq in Ep.
  assert (∀ (q p k n m : list ascii), q = p ++ k → m = k ++ n → (q = [] ∨ ∃ q', q = q' ++ [slash]) → slash ∉ m → n = m) as Hk.
  { intros q0 p0 k n0 m0 -> -> Hs Hin. destruct k as [|c k _] using rev_ind; [done|]. exfalso.
    destruct Hs as [Hs|[q' Hs]]; [by apply app_eq_nil in Hs as [_ Hs]; apply app_eq_nil in Hs as [_ Hs]|].
    rewrite app_assoc in Hs. apply app_inj_tail in Hs as [_ ->]. apply Hin. rewrite !elem_of_app. left. right. by left. }
  apply app_eq_app in Ep as [k [[E1 E2]|[E1 E2]]].
  - by eapply (Hk q p k).
  - symmetry. by eapply (Hk p q k).
Qed.

Lemma split_on_nonempty sep l : split_on sep l ≠ [].
Proof. induction l as [|c l IH]; cbn; [done|]. destruct (chr c sep); [done|]. by destruct (split_on sep l). Qed.
Lemma split_on_split sep l r : split_on sep (l ++ sep :: r) = split_on sep l ++ split_on sep r.
Proof.
  induction l as [|c l IH]; cbn.
  - by rewrite (proj2 (chr_eq sep sep) eq_refl).
  - destruct (chr c sep); [by rewrite IH|]. rewrite IH. pose proof (split_on_nonempty sep l). by destruct (split_on sep l).
Qed.

Lemma clean_last rooted acc l n : plain_name n → clean_parts rooted acc (l ++ [n]) = n :: clean_parts rooted acc l.
Proof.
  intros [Hn _]. assert (String.eqb n "" = false ∧ String.eqb n "." = false ∧ String.eqb n ".." = false) as (E1 & E2 & E3)
    by (split_and!; apply String.eqb_neq; intros ->; apply Hn; rewrite !elem_of_cons; auto).
  revert acc. induction l as [|p l IH]; intros acc; cbn.
  - by rewrite E1, E2, E3.
  - destruct (_ || _); [apply IH|]. destruct (String.eqb p ".."); [|apply IH].
    destruct acc as [|x acc]; [apply IH|]. by destruct (String.eqb x ".."); apply IH.
Qed.

Lemma join_snoc l n : l ≠ [] → strings_Join (l ++ [n]) "/" = strings_Join l "/" +:+ "/" +:+ n.
Proof.
  induction l as [|x [|y l] IH]; intros Hl; [done|done|].
  change ((x :: y :: l) ++ [n]) with (x :: y :: (l ++ [n])). rewrite !join_cons.
  change (y :: (l ++ [n])) with ((y :: l) ++ [n]). rewrite IH by done. by rewrite <- !string_app_assoc.
Qed.
Lemma join_ends l n : ends_with (strings_Join (l ++ [n]) "/") n.
Proof.
  destruct l as [|x l]; [exists []; by split; [|left]|]. rewrite join_snoc by done.
  exists (chars (strings_Join (x :: l) "/") ++ [slash]). rewrite !chars_app. split; [by rewrite <- app_assoc|right; by eexists].
Qed.

(** Cleaning keeps the last name. *)
Lemma clean_ends s l n : plain_name n → strings_Split s slash = l ++ [n] → ends_with (filepath_Clean s) n.
Proof.
  intros Hn Hs. unfold filepath_Clean. rewrite Hs, clean_last by done. rewrite reverse_cons.
  set (k := reverse _). pose proof (join_ends k n) as (q & Eq & Hq). destruct (strings_HasPrefix s "/").
  - exists (slash :: q). split; [by rewrite chars_app, Eq|]. right. destruct Hq as [->|[q' ->]]; [by exists []|by exists (slash :: q')].
  - destruct (String.eqb_spec (strings_Join (k ++ [n]) "/") "") as [E|_]; [|by exists q].
    exfalso. rewrite E in Eq. symmetry in Eq. apply app_eq_nil in Eq as [_ Eq]. apply empty_iff_chars in Eq.
    destruct Hn as [Hn _]. apply Hn. rewrite Eq. by left.
Qed.

Lemma split_plain n : plain_name n → strings_Split n slash = [n].
Proof. intros [_ Hn]. unfold strings_Split. rewrite split_on_plain by done. cbn. by rewrite of_chars_chars. Qed.
Lemma split_joined s n : plain_name n → strings_Split (s +:+ "/" +:+ n) slash = strings_Split s slash ++ [n].
Proof.
  intros Hn. unfold strings_Split. rewrite !chars_app.
  change (chars "/" ++ chars n) with (slash :: chars n). rewrite split_on_split, map_app. f_equal.
  rewrite split_on_plain by apply Hn. cbn. by rewrite of_chars_chars.
Qed.

Lemma joined_ends l n : plain_name n → ends_with (filepath_Join (l ++ [n])) n.
Proof.
  intros Hn. cbn [filepath_Join unix_paths]. rewrite List.filter_app. cbn [List.filter].
  assert (String.eqb n "" = false) as -> by (apply String.eqb_neq; intros ->; destruct Hn as [Hn _]; apply Hn; by left). cbn [negb].
  set (k := List.filter _ l). destruct k as [|x k]; cbn [app].
  - apply (clean_ends _ []); [done|]. by apply split_plain.
  - change (x :: k ++ [n]) with ((x :: k) ++ [n]). rewrite join_snoc by done.
    apply (clean_ends _ (strings_Split (strings_Join (x :: k) "/") slash)); [done|]. by apply split_joined.
Qed.

(** *** State files *)

Lemma state_path_ends os e dir n p : plain_name n → p ∈ state_paths os e dir n → ends_with p n.
Proof.
  intros Hn. unfold state_paths. destruct (negb (String.eqb dir "")).
  - intros ->%list_elem_of_singleton. by apply (joined_ends [dir]).
  - destruct (home_dir e) as [h|]; [|by intros ?%elem_of_nil].
    pose proof (joined_ends [d_State (AppDirs os e)] n Hn) as H1. pose proof (joined_ends [h; ".veilnet"] n Hn) as H2.
    destruct (String.eqb _ _); [intros ->%list_elem_of_singleton; exact H1|].
    intros [Hp|Hp]%elem_of_cons; [by subst|]. apply list_elem_of_singleton in Hp. by subst.
Qed.

Lemma state_paths_some `{Filepath} os e dir n : state_paths os e dir n ≠ [] ↔ dir ≠ "" ∨ is_Some (home_dir e).
Proof.
  unfold state_paths. destruct (String.eqb_spec dir "") as [->|Hd]; cbn [negb]; [|by split; auto].
  destruct (home_dir e) as [h|]; [destruct (String.eqb _ _); by split; eauto|]. split; [done|]. intros [?|[? ?]]; done.
Qed.

Lemma three_names : plain_name "routes.json" ∧ plain_name "dns.json" ∧ plain_name "killswitch.json".
Proof. split_and!; (split; [set_solver|]); apply mem_char_false; reflexivity. Qed.

(** *** Backends *)

Lemma supported_register r kind name b kind' name' : Supported (Register r kind name b) kind' name'
  = if String.eqb kind kind' && String.eqb name name' then b else Supported r kind' name'.
Proof.
  unfold Supported, Register. destruct (String.eqb_spec kind kind') as [<-|Hk]; cbn [andb].
  - rewrite lookup_insert_eq. cbn [default from_option id]. destruct (String.eqb_spec name name') as [<-|Hn].
    + by rewrite lookup_insert_eq.
    + by rewrite lookup_insert_ne.
  - by rewrite lookup_insert_ne.
Qed.

(** Decide the comparisons of concrete names. *)
Ltac eval_names :=
  repeat match goal with |- context [String.eqb ?a ?b] =>
    first [change (String.eqb a b) with true | change (String.eqb a b) with false] end; cbn [andb].

(** ** Properties *)


(** a system has the one backend of each kind that its build selects: after
    the packages have registered, the probe of a name succeeds exactly when it is
    the name of that backend, and never on another system. *)
Theorem one_backend_each os kind name : kind ∈ ["firewall"; "dns"; "route"] →
  Supported (register_all os) kind name
  = match backend_of os kind with Some n => String.eqb n name | None => false end.
Proof.
  intros Hk. unfold register_all, system_backends.
  repeat (apply elem_of_cons in Hk as [->|Hk]); [| | |by apply elem_of_nil in Hk]; destruct os; cbn [foldl];
    rewrite !supported_register; unfold Supported, backend_of; eval_names;
    repeat match goal with |- (if String.eqb ?a name then _ else _) = _ => destruct (String.eqb_spec a name) as [<-|_]; [reflexivity|] end;
    try reflexivity; by destruct (String.eqb _ name).
Qed.

(** the probe leaves no interface behind without saying so.  When adding an
    interface that fails changes nothing, and one that succeeds adds it, and
    deleting likewise: the kernel is reported usable exactly when the module is
    loaded or the interface could be added; afterwards the interfaces are those
    of before, but for the probe's own when deleting it failed. *)
Theorem probe_cleans_up {O} (run : O → string → list string → O * combined) (links : O → gset string) :
  (∀ o ip n, links (run o ip ["link"; "add"; n; "type"; "wireguard"]).1
     = if is_Some_b (run o ip ["link"; "add"; n; "type"; "wireguard"]).2.2 then links o else {[n]} ∪ links o) →
  (∀ o ip n, links (run o ip ["link"; "del"; n]).1
     = if is_Some_b (run o ip ["link"; "del"; n]).2.2 then links o else links o ∖ {[n]}) →
  ∀ o module ipBin pid o' ok detail, probe_linux run o module ipBin pid = (o', (ok, detail)) →
  let own := "veilnet-probe" +:+ fmt_d pid in own ∉ links o →
  (links o' = links o ∨ ok = true ∧ module = false ∧ links o' = {[own]} ∪ links o
     ∧ strings_HasPrefix detail "kernel usable but probe cleanup needs attention: " = true)
  ∧ (module = true → ok = true ∧ o' = o) ∧ (module = false → ipBin = None → ok = false ∧ o' = o).
Proof.
  intros Hadd Hdel o module ipBin pid o' ok detail Hp own Hown. unfold probe_linux in Hp. fold own in Hp.
  destruct module; [injection Hp as <- <- <-; by auto|]. destruct ipBin as [ip|]; [|injection Hp as <- <- <-; by auto].
  split; [|done]. pose proof (Hadd o ip own) as Ha. destruct (run o ip ["link"; "add"; own; "type"; "wireguard"]) as [o1 [out [e|]]]; cbn in Ha.
  - injection Hp as <- _ _. by left.
  - pose proof (Hdel o1 ip own) as Hd. destruct (run o1 ip ["link"; "del"; own]) as [o2 [out2 [e|]]]; cbn in Hd; injection Hp as <- <- <-.
    + right. split_and!; [done|done|by rewrite Hd|by apply (prefix_app _ _)].
    + left. rewrite Hd, Ha. set_solver.
Qed.

(** ** Witnesses and examples *)

Definition demo_env : environment := mkEnv ∅ (Some "/home/u").


Lemma one_backend_each_witness : Supported (register_all Linux) "dns" "systemd-resolved" = true
  ∧ Available (register_all Linux) "dns" = ["netsh-nrpt"; "networksetup"; "systemd-resolved"].
Proof. split; [rewrite one_backend_each; [reflexivity|by right; left]|vm_compute; reflexivity]. Defined.

Definition link_run (fail_del : bool) (o : gset string) (name : string) (args : list string) : gset string * combined :=
  match args with
  | ["link"; "add"; n; "type"; "wireguard"] => ({[n]} ∪ o, ("", None))
  | ["link"; "del"; n] => if fail_del then (o, ("busy", Some "exit status 2")) else (o ∖ {[n]}, ("", None))
  | _ => (o, ("", Some "usage"))
  end.
Lemma probe_cleans_up_witness : (probe_linux (link_run false) ∅ false (Some "/sbin/ip") 7).1 = ∅
  ∧ (probe_linux (link_run true) ∅ false (Some "/sbin/ip") 7).1 = {["veilnet-probe7"]}.
Proof.
  split; [|vm_compute; reflexivity].
  destruct (probe_cleans_up (link_run false) (fun o => o) ltac:(reflexivity) ltac:(reflexivity) ∅ false (Some "/sbin/ip") 7 _ _ _ eq_refl
    ltac:(set_solver)) as [[Hl|(_ & _ & _ & Hx)] _]; [exact Hl|]. vm_compute in Hx. discriminate.
Defined.

(** A relative XDG variable gives relative directories, and a variable that is
    set for one run and not for the next hides the state of the first. *)
Example state_depends_on_the_environment :
  d_State (AppDirs Linux (mkEnv (<["XDG_STATE_HOME" := "x/../y/"]> ∅) (Some "/home/u"))) = "y/veilnet"
  ∧ let set_ := mkEnv (<["XDG_STATE_HOME" := "/run/user/0"]> ∅) (Some "/root") in
    let d := write_first ∅ (sentinelPaths Linux set_ "") true true in
    read_first d (sentinelPaths Linux set_ "") = Some true
    ∧ read_first d (sentinelPaths Linux (mkEnv ∅ (Some "/root")) "") = None.
Proof. vm_compute. split_and!; reflexivity. Qed.

(** Without a home directory nothing is kept, and nobody is told. *)
Example homeless_keeps_nothing : sentinelPaths Linux (mkEnv ∅ None) "" = []
  ∧ read_first (write_first ∅ (sentinelPaths Linux (mkEnv ∅ None) "") true true) (sentinelPaths Linux (mkEnv ∅ None) "") = None
  ∧ d_State (AppDirs Linux (mkEnv ∅ None)) = ".local/state/veilnet".
Proof. vm_compute. split_and!; reflexivity. Qed.

Example path_texts : trimOut (of_chars [nl; " "%char]) = "no output" ∧ oneLine (of_chars (chars " a" ++ nl :: chars "b ")) "e" = "a b"
  ∧ filepath_Clean "/a/./b//../c/" = "/a/c" ∧ filepath_Clean "" = "." ∧ filepath_Clean "../.." = "../.." ∧ filepath_Clean "/.." = "/".
Proof. vm_compute. split_and!; reflexivity. Qed.
