(* ===== verification/NodeFirewall.v ===== *)
(** * NodeFirewall: forwarding and NAT on an exit node (internal/nodes/firewall.go)

    The dry-run list of commands and the commands a node executes at start,
    over the runner of [Runner].  What iptables does is a law; the dry-run list
    is also read as rules with their first-match meaning. *)

From Stdlib Require Import ZArith Lia Ascii.
From S2P Require Import Prelude Float64 GoStrings GoText.
From S2P Require Import Runner.
From S2P Require Import NodeConfig.

(** ** The dry run *)

(** The FORWARD rules the list is about, and the NAT rule. *)
Inductive rule :=
| AcceptIn (iface : string) | AcceptOut (iface : string) | Masquerade (cidr : string)
| RejectPort (iface : string) (port : Z) | RejectIn (iface : string)
| AcceptPort (iface : string) (port : Z).
Inductive line := Plain (s : string) | Ensure (r : rule) | Append (r : rule) | Insert (r : rule).

(** The chain and match of a rule, without the action on the chain. *)
Definition rule_text (r : rule) : string :=
  match r with
  | AcceptIn i => "FORWARD -i " +:+ i +:+ " -j ACCEPT"
  | AcceptOut i => "FORWARD -o " +:+ i +:+ " -j ACCEPT"
  | Masquerade c => "POSTROUTING -s " +:+ c +:+ " -j MASQUERADE"
  | RejectPort i p => "FORWARD -i " +:+ i +:+ " -p tcp --dport " +:+ fmt_d p +:+ " -j REJECT  # operator deny"
  | RejectIn i => "FORWARD -i " +:+ i +:+ " -j REJECT  # default-deny egress"
  | AcceptPort i p => "FORWARD -i " +:+ i +:+ " -p tcp --dport " +:+ fmt_d p +:+ " -j ACCEPT  # operator allow"
  end.
Definition tool (r : rule) : string := match r with Masquerade _ => "iptables -t nat" | _ => "iptables" end.
Definition render (l : line) : string :=
  match l with
  | Plain s => s
  | Ensure r => tool r +:+ " -C " +:+ rule_text r +:+ " 2>/dev/null || " +:+ tool r +:+ " -A " +:+ rule_text r
  | Append r => tool r +:+ " -A " +:+ rule_text r
  | Insert r => tool r +:+ " -I " +:+ rule_text r
  end.

Definition windows_lines (c : Config) : list line :=
  [Plain "netsh interface portproxy reset";
   Plain ("netsh advfirewall firewall add rule name=" +:+ quoted ("veilnet-" +:+ WGInterface c +:+ "-in")
          +:+ " dir=in action=allow protocol=UDP localport=" +:+ fmt_d (WGListenPort c));
   Plain "# Enable IP forwarding: Set-ItemProperty HKLM:\SYSTEM\CurrentControlSet\Services\Tcpip\Parameters IPEnableRouter 1";
   Plain ("# NAT via Internet Connection Sharing or New-NetNat -Name veilnet -InternalIPInterfaceAddressPrefix "
          +:+ CGNAT c)].
Definition darwin_lines (c : Config) : list line :=
  [Plain "# sysctl -w net.inet.ip.forwarding=1";
   Plain ("# echo " +:+ quoted ("nat on en0 from " +:+ CGNAT c +:+ " to any -> (en0)") +:+ " | sudo pfctl -ef -")].
Definition linux_lines (c : Config) : list line :=
  [Plain "sysctl -w net.ipv4.ip_forward=1"; Ensure (AcceptIn (WGInterface c)); Ensure (AcceptOut (WGInterface c));
   Ensure (Masquerade (CGNAT c))]
  ++ map (fun p => Append (RejectPort (WGInterface c) p)) (DeniedPorts c)
  ++ (if DefaultAllow c then []
      else Append (RejectIn (WGInterface c)) :: map (fun p => Insert (AcceptPort (WGInterface c) p)) (AllowedPorts c)).

Definition lines (os : System) (c : Config) : list line :=
  match os with Windows => windows_lines c | Darwin => darwin_lines c | _ => linux_lines c end.
Definition firewallCommands (os : System) (c : Config) : list string := map render (lines os c).
Definition FirewallCommands (os : System) (c : Config) : list string := firewallCommands os c.

(** ** What a node executes *)

(** The command that failed and its error; the code formats them as text. *)
Record warning := mkWarning { w_name : string; w_args : list string; w_err : string }.
Inductive firewall_warning := NoIptables | Failed (w : warning).

Section apply.
Context {O : Type} `{Runner O}.

(** Run one command, keeping its failure as a warning. *)
Definition run (s : O * list firewall_warning) (name : string) (args : list string)
  : O * list firewall_warning :=
  match exec s.1 name args with
  | (o, Ok _) => (o, s.2)
  | (o, Err e) => (o, s.2 ++ [Failed (mkWarning name args e)])
  end.

(** Add a rule unless the check finds it. *)
Definition ensure (table : list string) (spec : list string) (s : O * list firewall_warning)
  : O * list firewall_warning :=
  match exec s.1 "iptables" (table ++ ["-C"] ++ spec) with
  | (o, Ok _) => (o, s.2)
  | (o, Err _) => run (o, s.2) "iptables" (table ++ ["-A"] ++ spec)
  end.
Definition iptables (args : list string) (s : O * list firewall_warning) := ensure [] args s.

Definition accept_in (c : Config) : list string := ["FORWARD"; "-i"; WGInterface c; "-j"; "ACCEPT"].
Definition accept_out (c : Config) : list string := ["FORWARD"; "-o"; WGInterface c; "-j"; "ACCEPT"].
Definition masquerade (c : Config) : list string := ["POSTROUTING"; "-s"; CGNAT c; "-j"; "MASQUERADE"].

(** The rest of the answer is [firewallCommands]. [present]: iptables is
    installed. *)
Definition ApplyFirewall (os : System) (present : bool) (c : Config) (o : O) : O * list firewall_warning :=
  match os with
  | Linux =>
    let s := run (o, []) "sysctl" ["-w"; "net.ipv4.ip_forward=1"] in
    if negb present then (s.1, s.2 ++ [NoIptables])
    else ensure ["-t"; "nat"] (masquerade c) (iptables (accept_out c) (iptables (accept_in c) s))
  | _ => (o, [])
  end.
End apply.

(** ** The meaning of a rule list: the first match decides *)

Inductive verdict := ACCEPT | REJECT.

(** Does a TCP packet that came in on [i] for port [p] match? *)
Definition matches (i : string) (p : Z) (r : rule) : option verdict :=
  match r with
  | AcceptIn j => if String.eqb i j then Some ACCEPT else None
  | RejectPort j q => if String.eqb i j && (p =? q) then Some REJECT else None
  | RejectIn j => if String.eqb i j then Some REJECT else None
  | AcceptPort j q => if String.eqb i j && (p =? q) then Some ACCEPT else None
  | AcceptOut _ | Masquerade _ => None
  end.
Fixpoint first_match (i : string) (p : Z) (chain : list rule) : option verdict :=
  match chain with
  | [] => None
  | r :: chain => match matches i p r with Some v => Some v | None => first_match i p chain end
  end.

#[export] Instance rule_eq_dec : EqDecision rule.
Proof. solve_decision. Defined.

Definition apply_line (chain : list rule) (l : line) : list rule :=
  match l with
  | Plain _ => chain
  | Ensure r => if decide (r ∈ chain) then chain else chain ++ [r]
  | Append r => chain ++ [r]
  | Insert r => r :: chain
  end.
Definition apply_lines (ls : list line) (chain : list rule) : list rule := foldl apply_line chain ls.

(** ** What iptables does *)

(** [table] is the list of rules of a table, each with its chain. *)
Class IptablesLaws (O : Type) `{Runner O} : Type := {
  filter : O → list (list string);
  nat : O → list (list string);
  check_law o spec : let x := Run o "iptables" (["-C"] ++ spec) in
    filter x.1 = filter o ∧ nat x.1 = nat o ∧ (is_ok x.2 = true ↔ spec ∈ filter o);
  append_law o spec : let x := Run o "iptables" (["-A"] ++ spec) in
    nat x.1 = nat o ∧ filter x.1 = if is_ok x.2 then filter o ++ [spec] else filter o;
  check_nat_law o spec : let x := Run o "iptables" (["-t"; "nat"; "-C"] ++ spec) in
    filter x.1 = filter o ∧ nat x.1 = nat o ∧ (is_ok x.2 = true ↔ spec ∈ nat o);
  append_nat_law o spec : let x := Run o "iptables" (["-t"; "nat"; "-A"] ++ spec) in
    filter x.1 = filter o ∧ nat x.1 = if is_ok x.2 then nat o ++ [spec] else nat o;
  sysctl_law o args : filter (Run o "sysctl" args).1 = filter o ∧ nat (Run o "sysctl" args).1 = nat o
}.

(** A rule added to a list that does not have it. *)
Definition with_rule (r : list string) (l : list (list string)) : list (list string) :=
  if decide (r ∈ l) then l else l ++ [r].

Section apply_proofs.
Context {O : Type} `{HO : Runner O} `{!IptablesLaws O}.

Lemma ensure_filter spec s s' : iptables spec s = s' → s'.2 = s.2 →
  filter s'.1 = with_rule spec (filter s.1) ∧ nat s'.1 = nat s.1.
Proof.
  unfold iptables, ensure, run. cbn [app]. rewrite !exec_run. intros <-.
  pose proof (check_law s.1 spec) as (Hf & Hn & Hok). cbn [app] in *. unfold with_rule.
  destruct (Run s.1 "iptables" ("-C" :: spec)) as [o1 [x|e]]; cbn in *.
  - intros _. rewrite decide_True by by apply Hok. done.
  - rewrite exec_run. pose proof (append_law o1 spec) as [Hn2 Hf2]. cbn [app] in *.
    destruct (Run o1 "iptables" ("-A" :: spec)) as [o2 [y|e2]]; cbn in *.
    + intros _. rewrite decide_False by (intros Hin; by apply Hok in Hin). by rewrite Hf2, Hn2, Hf, Hn.
    + intros Hw. exfalso. apply (f_equal length) in Hw. rewrite length_app in Hw. cbn in Hw. lia.
Qed.

Lemma ensure_nat spec s s' : ensure ["-t"; "nat"] spec s = s' → s'.2 = s.2 →
  nat s'.1 = with_rule spec (nat s.1) ∧ filter s'.1 = filter s.1.
Proof.
  unfold ensure, run. cbn [app]. rewrite !exec_run. intros <-.
  pose proof (check_nat_law s.1 spec) as (Hf & Hn & Hok). cbn [app] in *. unfold with_rule.
  destruct (Run s.1 "iptables" ("-t" :: "nat" :: "-C" :: spec)) as [o1 [x|e]]; cbn in *.
  - intros _. rewrite decide_True by by apply Hok. done.
  - rewrite exec_run. pose proof (append_nat_law o1 spec) as [Hf2 Hn2]. cbn [app] in *.
    destruct (Run o1 "iptables" ("-t" :: "nat" :: "-A" :: spec)) as [o2 [y|e2]]; cbn in *.
    + intros _. rewrite decide_False by (intros Hin; by apply Hok in Hin). by rewrite Hf2, Hn2, Hf, Hn.
    + intros Hw. exfalso. apply (f_equal length) in Hw. rewrite length_app in Hw. cbn in Hw. lia.
Qed.

Lemma run_warnings s name args : ∃ w, (run s name args).2 = s.2 ++ w.
Proof.
  unfold run. destruct (exec s.1 name args) as [o [x|e]]; cbn.
  - exists []. by rewrite app_nil_r.
  - by eexists.
Qed.

Lemma ensure_warnings table spec s : ∃ w, (ensure table spec s).2 = s.2 ++ w.
Proof.
  unfold ensure. destruct (exec s.1 "iptables" _) as [o [x|e]]; cbn.
  - exists []. by rewrite app_nil_r.
  - apply (run_warnings (o, s.2)).
Qed.

(** Warnings only accumulate: none at the end means none before. *)
Lemma quiet_before table spec s : (ensure table spec s).2 = [] → s.2 = [].
Proof. destruct (ensure_warnings table spec s) as [w ->]. by intros [-> _]%app_nil. Qed.

Lemma quiet_step spec s : (iptables spec s).2 = [] →
  filter (iptables spec s).1 = with_rule spec (filter s.1) ∧ nat (iptables spec s).1 = nat s.1.
Proof. intros Hq. eapply ensure_filter; [done|]. by rewrite Hq, (quiet_before _ _ _ Hq). Qed.

Lemma quiet_nat spec s : (ensure ["-t"; "nat"] spec s).2 = [] →
  nat (ensure ["-t"; "nat"] spec s).1 = with_rule spec (nat s.1)
  ∧ filter (ensure ["-t"; "nat"] spec s).1 = filter s.1.
Proof. intros Hq. eapply ensure_nat; [done|]. by rewrite Hq, (quiet_before _ _ _ Hq). Qed.

(** A rule that is there is found, so nothing is added. *)
Lemma present_filter spec s : spec ∈ filter s.1 →
  filter (iptables spec s).1 = filter s.1 ∧ nat (iptables spec s).1 = nat s.1.
Proof.
  intros Hin. unfold iptables, ensure. cbn [app]. rewrite exec_run.
  pose proof (check_law s.1 spec) as (Hf & Hn & Hok). cbn [app] in *. apply Hok in Hin.
  destruct (Run s.1 "iptables" ("-C" :: spec)) as [o1 [x|e]]; [done | discriminate Hin].
Qed.

Lemma present_nat spec s : spec ∈ nat s.1 →
  filter (ensure ["-t"; "nat"] spec s).1 = filter s.1 ∧ nat (ensure ["-t"; "nat"] spec s).1 = nat s.1.
Proof.
  intros Hin. unfold ensure. cbn [app]. rewrite exec_run.
  pose proof (check_nat_law s.1 spec) as (Hf & Hn & Hok). cbn [app] in *. apply Hok in Hin.
  destruct (Run s.1 "iptables" ("-t" :: "nat" :: "-C" :: spec)) as [o1 [x|e]]; [done | discriminate Hin].
Qed.

Lemma sysctl_tables s args : filter (run s "sysctl" args).1 = filter s.1 ∧ nat (run s "sysctl" args).1 = nat s.1.
Proof.
  unfold run. rewrite exec_run. pose proof (sysctl_law s.1 args) as [Hf Hn].
  by destruct (Run s.1 "sysctl" args) as [o1 [x|e]].
Qed.

Lemma with_rule_in r l : r ∈ with_rule r l.
Proof. unfold with_rule. case_decide; [done | set_solver]. Qed.

Lemma with_rule_mono r r' l : r ∈ l → r ∈ with_rule r' l.
Proof. unfold with_rule. case_decide; set_solver. Qed.

(** when the firewall of an exit node is set up without a warning, the
    filter table is the one found with the two forwarding rules of the
    interface, each added at the end unless it was there, the NAT table is the
    one found with the masquerade rule of the address pool, likewise, and
    nothing else changed; a second set-up, whatever it reports, then changes
    neither table.  Off Linux no command runs. *)
Theorem firewall_setup_exact (os : System) (present again : bool) (c : Config) (o : O) :
  let x := ApplyFirewall os present c o in
  match os with
  | Linux =>
    x.2 = [] →
    present = true
    ∧ filter x.1 = with_rule (accept_out c) (with_rule (accept_in c) (filter o))
    ∧ nat x.1 = with_rule (masquerade c) (nat o)
    ∧ filter (ApplyFirewall Linux again c x.1).1 = filter x.1
    ∧ nat (ApplyFirewall Linux again c x.1).1 = nat x.1
  | _ => x = (o, [])
  end.
Proof.
  intros x. destruct os; [done| |done|done]. intros Hq. subst x.
  destruct present; cbn [ApplyFirewall negb] in Hq |- *; [|by apply app_nil in Hq as [_ ?]].
  set (s0 := run (o, []) "sysctl" _) in *.
  set (s1 := iptables (accept_in c) s0) in *. set (s2 := iptables (accept_out c) s1) in *.
  set (s3 := ensure ["-t"; "nat"] (masquerade c) s2) in *.
  pose proof (quiet_before _ _ _ Hq) as Q2. pose proof (quiet_before _ _ _ Q2) as Q1.
  destruct (sysctl_tables (o, []) ["-w"; "net.ipv4.ip_forward=1"]) as [F0 N0].
  destruct (quiet_step _ _ Q1) as [F1 N1]. destruct (quiet_step _ _ Q2) as [F2 N2].
  destruct (quiet_nat _ _ Hq) as [N3 F3].
  fold s0 in F0, N0. fold s1 in F1, N1. fold s2 in F2, N2. fold s3 in F3, N3. cbn [fst] in F0, N0.
  rewrite F3, F2, F1, F0, N3, N2, N1, N0. do 3 (split; [done|]).
  destruct (sysctl_tables (s3.1, []) ["-w"; "net.ipv4.ip_forward=1"]) as [G0 K0]. cbn [fst] in G0, K0.
  destruct again; cbn [ApplyFirewall negb fst]; [|by rewrite G0, K0, F3, F2, F1, F0, N3, N2, N1, N0].
  set (t0 := run (s3.1, []) "sysctl" _) in *.
  assert (filter t0.1 = with_rule (accept_out c) (with_rule (accept_in c) (filter o))) as Ft
    by by rewrite G0, F3, F2, F1, F0.
  assert (nat t0.1 = with_rule (masquerade c) (nat o)) as Nt by by rewrite K0, N3, N2, N1, N0.
  destruct (present_filter (accept_in c) t0) as [G1 K1]; [rewrite Ft; apply with_rule_mono, with_rule_in|].
  destruct (present_filter (accept_out c) (iptables (accept_in c) t0)) as [G2 K2]; [rewrite G1, Ft; apply with_rule_in|].
  destruct (present_nat (masquerade c) (iptables (accept_out c) (iptables (accept_in c) t0))) as [G3 K3];
    [rewrite K2, K1, Nt; apply with_rule_in|].
  by rewrite G3, G2, G1, K3, K2, K1, Ft, Nt.
Qed.
End apply_proofs.

(** ** The dry-run list denies nothing *)

Lemma first_match_app i p l1 l2 :
  first_match i p (l1 ++ l2) = match first_match i p l1 with Some v => Some v | None => first_match i p l2 end.
Proof. induction l1 as [|r l1 IH]; [done|]. cbn. by destruct (matches i p r). Qed.

Lemma accept_in_decides i p l : AcceptIn i ∈ l → is_Some (first_match i p l).
Proof.
  induction l as [|r l IH]; [by intros ?%elem_of_nil|]. intros [<-|Hin]%elem_of_cons; cbn.
  - by rewrite String.eqb_refl.
  - destruct (matches i p r); [done | by apply IH].
Qed.

Lemma ensure_accepts i p l : first_match i p l ≠ Some REJECT →
  first_match i p (apply_line l (Ensure (AcceptIn i))) = Some ACCEPT.
Proof.
  intros Hn. cbn. case_decide as Hd.
  - destruct (accept_in_decides i p l Hd) as [[] Hv]; [done | by rewrite Hv in Hn].
  - rewrite first_match_app. cbn. rewrite String.eqb_refl.
    destruct (first_match i p l) as [[]|]; [done | by exfalso; apply Hn | done].
Qed.

(** Only an inserted rejection could change an accepting chain. *)
Definition harmless (l : line) : Prop :=
  match l with Insert (RejectPort _ _ | RejectIn _) => False | _ => True end.

Lemma line_accepts i p chain l : harmless l → first_match i p chain = Some ACCEPT →
  first_match i p (apply_line chain l) = Some ACCEPT.
Proof.
  intros Hl Hc. destruct l as [s|r|r|r]; cbn; [done| | |].
  - case_decide; [done|]. by rewrite first_match_app, Hc.
  - by rewrite first_match_app, Hc.
  - destruct r; cbn in Hl |- *; try done; by destruct (String.eqb i iface); cbn; [try destruct (p =? port)|].
Qed.

Lemma lines_accept i p ls : Forall harmless ls → ∀ chain, first_match i p chain = Some ACCEPT →
  first_match i p (apply_lines ls chain) = Some ACCEPT.
Proof. unfold apply_lines. induction 1 as [|l ls Hl _ IH]; intros chain Hc; [done|]. cbn. apply IH. by apply line_accepts. Qed.

Lemma policy_harmless c : Forall harmless (drop 2 (linux_lines c)).
Proof.
  cbn [linux_lines app drop]. repeat constructor.
  apply Forall_app; split; [by apply Forall_map, Forall_forall|].
  destruct (DefaultAllow c); constructor; [done|]. by apply Forall_map, Forall_forall.
Qed.

(** Whatever ports the operator denies, also under default-deny: a chain that
    does not reject the traffic of the interface accepts all of it after the
    dry-run commands, since the forwarding rule comes before every rejection. *)
Lemma dry_run_denies_nothing c p chain : first_match (WGInterface c) p chain ≠ Some REJECT →
  first_match (WGInterface c) p (apply_lines (lines Linux c) chain) = Some ACCEPT.
Proof.
  intros Hc.
  change (apply_lines (lines Linux c) chain)
    with (apply_lines (drop 2 (linux_lines c)) (apply_line chain (Ensure (AcceptIn (WGInterface c))))).
  apply lines_accept; [apply policy_harmless | by apply ensure_accepts].
Qed.

(** ** A machine with an iptables *)

(** The filter and NAT tables as lists of rules; any other command succeeds
    and changes neither. *)
#[local] Instance toy_tables : Runner (list (list string) * list (list string)) := {|
  Run o name args :=
    if negb (String.eqb name "iptables") then (o, Ok "") else
    match args with
    | "-C" :: spec => (o, if decide (spec ∈ o.1) then Ok "" else Err "no such rule")
    | "-A" :: spec => ((o.1 ++ [spec], o.2), Ok "")
    | "-t" :: "nat" :: "-C" :: spec => (o, if decide (spec ∈ o.2) then Ok "" else Err "no such rule")
    | "-t" :: "nat" :: "-A" :: spec => ((o.1, o.2 ++ [spec]), Ok "")
    | _ => (o, Err "usage")
    end
|}.

#[local] Instance toy_tables_laws : IptablesLaws (list (list string) * list (list string)).
Proof.
  refine {| filter := fst; nat := snd |}; try (intros o spec; cbn; try case_decide; done).
Defined.

Lemma firewall_setup_exact_witness :
  let x := ApplyFirewall Linux true DefaultConfig ([["INPUT"; "-j"; "ACCEPT"]], []) in
  filter x.1 = [["INPUT"; "-j"; "ACCEPT"]; accept_in DefaultConfig; accept_out DefaultConfig]
  ∧ nat x.1 = [masquerade DefaultConfig]
  ∧ filter (ApplyFirewall Linux true DefaultConfig x.1).1 = filter x.1.
Proof.
  destruct (firewall_setup_exact Linux true true DefaultConfig ([["INPUT"; "-j"; "ACCEPT"]], []))
    as (_ & Hf & Hn & Ha & _); [vm_compute; reflexivity|].
  cbv zeta. split; [|split]; [rewrite Hf | rewrite Hn | exact Ha]; vm_compute; reflexivity.
Defined.

(** The default policy denies port 25; the commands a node executes are the
    same with and without it, and the list it prints accepts port 25. *)
Example denied_port_stays_open :
  DeniedPorts DefaultConfig = [25]
  ∧ (ApplyFirewall Linux true DefaultConfig ([], [])).1
    = ([accept_in DefaultConfig; accept_out DefaultConfig], [masquerade DefaultConfig])
  ∧ first_match (WGInterface DefaultConfig) 25 (apply_lines (lines Linux DefaultConfig) []) = Some ACCEPT.
Proof. split; [reflexivity|]. split; vm_compute; reflexivity. Qed.
