(* ===== verification/Firewall.v ===== *)
(** * Firewall: the kill switch ([internal/firewall])

    The manager ([killswitch.go]) over the backend interface ([backend.go]),
    and the three backends ([netsh.go], [nft.go], [pf.go]) over a command
    runner.  A theorem that needs what commands do names it as a law on two
    views of the system - the rules present, and whether the outbound default
    is block. *)

From Stdlib Require Import ZArith Lia Ascii.
From S2P Require Import Prelude GoStrings GoText Runner.

Definition Mode : Type := string.
Definition OFF : Mode := "OFF".
Definition ON_WHILE_CONNECTED : Mode := "ON_WHILE_CONNECTED".
Definition ALWAYS_ON : Mode := "ALWAYS_ON".
#[export] Instance Mode_eq_dec : EqDecision Mode := _.

Inductive error :=
| ErrEndpoint | ErrTunAddr | ErrSnapshot (e : string) | ErrApply (e : string)
| ErrBlock (e : string) | ErrReassert (e : string) | ErrNotActive.

(** ** Runner and backends *)

(** The temporary file the macOS backend hands to a command. *)
Class TempFiles (O : Type) : Type := {
  WriteTemp : O → string → O * result string string;
  RemoveTemp : O → string → O
}.

Record Spec := mkSpec {
  EndpointIP : string;
  EndpointPort : Z;
  TunAddr : string;
  LANAllowed : bool
}.

Record Backend (O : Type) := mkBackend {
  Name : string;
  RuleNames : Spec → list string;
  be_Enable : O → Spec → O * result string unit;
  be_Remove : O → list string → O * result string unit;
  be_SetBlock : O → O * result string unit;
  be_Restore : O → string → O * result string unit;
  be_CurrentPolicy : O → O * result string string
}.
Arguments Name {_}. Arguments RuleNames {_}. Arguments be_Enable {_}. Arguments be_Remove {_}.
Arguments be_SetBlock {_}. Arguments be_Restore {_}. Arguments be_CurrentPolicy {_}.

Section backends.
Context {O : Type} `{Runner O}.

(** *** Unsupported systems *)

Definition unsupported (os : string) : string :=
  "firewall: no kill-switch backend on " +:+ os +:+ " (refusing to run unprotected)".

Definition unsupportedBackend (os : string) : Backend O :=
  mkBackend O ("unsupported(" +:+ os +:+ ")") (fun _ => [])
    (fun o _ => (o, Err (unsupported os))) (fun o _ => (o, Err (unsupported os)))
    (fun o => (o, Err (unsupported os))) (fun o _ => (o, Err (unsupported os)))
    (fun o => (o, Err (unsupported os))).

(** *** Windows: netsh *)

Definition ruleGroup : string := "VeilNet Kill Switch".

Definition allowRules (endpointIP : string) (endpointPort : Z) (tunAddr : string) (lan : bool)
  : list (list string) :=
  let base := ["group=" +:+ quoted ruleGroup; "enable=yes"] in
  [base ++ ["name=VeilNet-KS-Allow-Endpoint"; "dir=out"; "action=allow"; "protocol=UDP";
            "remoteip=" +:+ endpointIP; "remoteport=" +:+ fmt_d endpointPort];
   base ++ ["name=VeilNet-KS-Allow-Tunnel-Out"; "dir=out"; "action=allow"; "localip=" +:+ tunAddr];
   base ++ ["name=VeilNet-KS-Allow-Tunnel-In"; "dir=in"; "action=allow"; "remoteip=" +:+ tunAddr];
   base ++ ["name=VeilNet-KS-Allow-DHCP-Out"; "dir=out"; "action=allow"; "protocol=UDP";
            "remoteip=255.255.255.255"; "remoteport=67"];
   base ++ ["name=VeilNet-KS-Allow-DHCP-In"; "dir=in"; "action=allow"; "protocol=UDP";
            "localport=68"]]
  ++ if lan then
       [base ++ ["name=VeilNet-KS-Allow-LAN"; "dir=out"; "action=allow";
                 "remoteip=10.0.0.0/8,172.16.0.0/12,192.168.0.0/16"]]
     else [].

(** [strings.CutPrefix(tok, "name=")] *)
Definition cut_name (tok : string) : option string :=
  if String.prefix "name=" tok then Some (of_chars (drop 5 (chars tok))) else None.
Definition ruleNames (rules : list (list string)) : list string :=
  flat_map (omap cut_name) rules.

Definition spec_rules (s : Spec) : list (list string) :=
  allowRules (EndpointIP s) (EndpointPort s) (TunAddr s) (LANAllowed s).

Definition add_rule (args : list string) : list string :=
  ["advfirewall"; "firewall"; "add"; "rule"] ++ args.
Definition delete_rule (name : string) : list string :=
  ["advfirewall"; "firewall"; "delete"; "rule"; "name=" +:+ name].
Definition set_policy (policy : string) : list string :=
  ["advfirewall"; "set"; "allprofiles"; "firewallpolicy"; policy].
Definition show_profiles : list string := ["advfirewall"; "show"; "allprofiles"].

Definition windows_Enable (o : O) (s : Spec) : O * result string unit :=
  match exec_all o (map (fun r => ("netsh", add_rule r)) (spec_rules s)) with
  | (o, Ok _) => (o, Ok tt)
  | (o, Err e) => (o, Err ("firewall: add rule: " +:+ e))
  end.

(** Every name is tried; the first error is reported. *)
Definition windows_Remove (o : O) (names : list string) : O * result string unit :=
  foldl (fun '(o, first) n =>
    match exec o "netsh" (delete_rule n), first with
    | (o, Err e), Ok _ => (o, Err e)
    | (o, _), _ => (o, first)
    end) (o, Ok tt) names.

Definition block_policy : string := "blockinbound,blockoutbound".
Definition allow_policy : string := "blockinbound,allowoutbound".

Definition windows_policy `{Unicode} (out : string) : string :=
  foldl (fun policy line =>
    let l := strings_ToLower (strings_TrimSpace line) in
    if strings_Contains l "firewall policy" && strings_Contains l "blockoutbound"
    then block_policy else policy) allow_policy (strings_Split out nl).

Definition windowsBackend `{Unicode} : Backend O :=
  mkBackend O "netsh" (fun s => ruleNames (spec_rules s)) windows_Enable windows_Remove
    (fun o => exec o "netsh" (set_policy block_policy))
    (fun o policy => exec o "netsh" (set_policy policy))
    (fun o => match Run o "netsh" show_profiles with
              | (o, Ok out) => (o, Ok (windows_policy out))
              | (o, Err e) => (o, Err e)
              end).

(** *** Linux: nftables, with iptables as a fallback *)

Definition nftTable : string := "veilnet".
Definition lan_nets : list string := ["10.0.0.0/8"; "172.16.0.0/12"; "192.168.0.0/16"].

Definition linux_RuleNames (s : Spec) : list string :=
  ["veilnet-ks-endpoint"; "veilnet-ks-tunnel"; "veilnet-ks-dhcp"]
  ++ if LANAllowed s then ["veilnet-ks-lan"] else [].

Definition add_table : string * list string := ("nft", ["add"; "table"; "inet"; nftTable]).
Definition add_chain (chain hook : string) : string * list string :=
  ("nft", ["add"; "chain"; "inet"; nftTable; chain; "{"; "type"; "filter"; "hook"; hook;
           "priority"; "0"; ";"; "policy"; "drop"; ";"; "}"]).
Definition delete_table : string * list string := ("nft", ["delete"; "table"; "inet"; nftTable]).
Definition nft_rule (chain : string) (rule : list string) (comment : string) : string * list string :=
  ("nft", ["add"; "rule"; "inet"; nftTable; chain] ++ rule ++ ["accept"; "comment"; quoted comment]).

Definition nft_steps (s : Spec) : list (string * list string) :=
  [add_table; add_chain "out" "output"; add_chain "in" "input";
   nft_rule "out" ["udp"; "dport"; fmt_d (EndpointPort s); "ip"; "daddr"; EndpointIP s]
     "veilnet-ks-endpoint";
   nft_rule "out" ["ip"; "saddr"; TunAddr s] "veilnet-ks-tunnel";
   nft_rule "in" ["ip"; "daddr"; TunAddr s] "veilnet-ks-tunnel";
   nft_rule "out" ["udp"; "dport"; "67"; "ip"; "daddr"; "255.255.255.255"] "veilnet-ks-dhcp";
   nft_rule "in" ["udp"; "sport"; "68"] "veilnet-ks-dhcp"]
  ++ if LANAllowed s then
       [nft_rule "out" ["ip"; "daddr"; strings_Join lan_nets ","] "veilnet-ks-lan"]
     else [].

Definition iptables_policy (chain verdict : string) : string * list string :=
  ("iptables", ["-P"; chain; verdict]).
Definition iptables_insert (chain : string) (rule : list string) (comment : string)
  : string * list string :=
  ("iptables", ["-I"; chain; "1"] ++ rule ++ ["-m"; "comment"; "--comment"; comment; "-j"; "ACCEPT"]).
Definition iptables_delete (chain comment : string) : string * list string :=
  ("iptables", ["-D"; chain; "-m"; "comment"; "--comment"; comment; "-j"; "ACCEPT"]).

Definition iptables_steps (s : Spec) : list (string * list string) :=
  [iptables_policy "OUTPUT" "DROP"; iptables_policy "INPUT" "DROP";
   iptables_insert "OUTPUT" ["-p"; "udp"; "-d"; EndpointIP s; "--dport"; fmt_d (EndpointPort s)]
     "veilnet-ks-endpoint";
   iptables_insert "OUTPUT" ["-s"; TunAddr s] "veilnet-ks-fallback";
   iptables_insert "INPUT" ["-d"; TunAddr s] "veilnet-ks-fallback";
   iptables_insert "OUTPUT" ["-p"; "udp"; "-d"; "255.255.255.255"; "--dport"; "67"]
     "veilnet-ks-dhcp";
   iptables_insert "INPUT" ["-p"; "udp"; "--sport"; "68"] "veilnet-ks-dhcp"]
  ++ if LANAllowed s then
       map (fun cidr => iptables_insert "OUTPUT" ["-d"; cidr] "veilnet-ks-fallback") lan_nets
     else [].

Definition linux_Enable (o : O) (s : Spec) : O * result string unit :=
  match exec_all o (nft_steps s) with
  | (o, Ok _) => (o, Ok tt)
  | (o, Err e) =>
    match exec_all o (iptables_steps s) with
    | (o, Ok _) => (o, Ok tt)
    | (o, Err ie) =>
      (o, Err ("firewall: nftables (" +:+ e +:+ ") and iptables (" +:+ ie +:+ ") both failed"))
    end
  end.

Definition iptables_cleanup (names : list string) : list (string * list string) :=
  flat_map (fun n => [iptables_delete "OUTPUT" n; iptables_delete "INPUT" n])
    (names ++ ["veilnet-ks-fallback"]).

Definition linux_Remove (o : O) (names : list string) : O * result string unit :=
  let '(o, r) := exec o delete_table.1 delete_table.2 in
  (exec_each o (iptables_cleanup names), r).

Definition linux_SetBlock (o : O) : O * result string unit :=
  match exec_all o [add_table; add_chain "out" "output"; add_chain "in" "input"] with
  | (o, Ok _) => (o, Ok tt)
  | (o, Err e) =>
    (exec_each o [iptables_policy "OUTPUT" "DROP"; iptables_policy "INPUT" "DROP"], Err e)
  end.

Definition linux_Restore (o : O) (policy : string) : O * result string unit :=
  if String.eqb policy "veilnet-drop" then (o, Ok tt)
  else
    let '(o, r) := exec o delete_table.1 delete_table.2 in
    (exec_each o [iptables_policy "OUTPUT" "ACCEPT"; iptables_policy "INPUT" "ACCEPT"], r).

Definition linux_CurrentPolicy (o : O) : O * result string string :=
  match Run o "nft" ["list"; "table"; "inet"; nftTable] with
  | (o, Err _) => (o, Ok "accept")
  | (o, Ok out) =>
    (o, Ok (if strings_Contains out "veilnet-ks-" then "veilnet-drop" else "accept"))
  end.

Definition linuxBackend : Backend O :=
  mkBackend O "nftables" linux_RuleNames linux_Enable linux_Remove linux_SetBlock linux_Restore
    linux_CurrentPolicy.

(** *** macOS: a pf anchor *)

Definition pfAnchor : string := "com.veilnet.killswitch".

Definition darwin_RuleNames (s : Spec) : list string :=
  map (fun x => pfAnchor +:+ ":" +:+ x)
    (["endpoint"; "tunnel"; "dhcp"] ++ if LANAllowed s then ["lan"] else []).

Definition AnchorRules (s : Spec) : string :=
  write_lines ([
    "# " +:+ pfAnchor +:+ " (VeilNet kill switch: fail-closed allow-list)";
    "pass out proto udp to " +:+ EndpointIP s +:+ " port " +:+ fmt_d (EndpointPort s)
      +:+ " # veilnet-ks-endpoint";
    "pass out inet from " +:+ TunAddr s +:+ " to any # veilnet-ks-tunnel";
    "pass in inet from " +:+ TunAddr s +:+ " to any # veilnet-ks-tunnel";
    "pass out proto udp to 255.255.255.255 port 67 # veilnet-ks-dhcp";
    "pass in proto udp from any port 67 to any port 68 # veilnet-ks-dhcp"]
  ++ (if LANAllowed s then
        map (fun c => "pass out inet to " +:+ c +:+ " # veilnet-ks-lan") lan_nets
      else [])
  ++ ["block out all # veilnet-ks-default-deny"]).

Definition flush_anchor : list string := ["-a"; pfAnchor; "-F"; "all"].

Definition darwin_Enable `{TempFiles O} (o : O) (s : Spec) : O * result string unit :=
  match WriteTemp o (AnchorRules s) with
  | (o, Err e) => (o, Err ("firewall: pf anchor file: " +:+ e))
  | (o, Ok name) =>
    match exec o "pfctl" ["-a"; pfAnchor; "-f"; name] with
    | (o, Err e) => (RemoveTemp o name, Err ("firewall: pf load anchor: " +:+ e))
    | (o, Ok _) => (RemoveTemp (exec o "pfctl" ["-e"]).1 name, Ok tt)
    end
  end.

Definition darwin_CurrentPolicy `{Unicode} (o : O) : O * result string string :=
  match Run o "pfctl" ["-s"; "info"] with
  | (o, Err _) => (o, Ok "pf-disabled")
  | (o, Ok out) =>
    (o, Ok (if existsb (fun line =>
                 strings_Contains (strings_ToLower (strings_TrimSpace line)) "status: enabled")
               (strings_Split out nl)
            then "pf-enabled" else "pf-disabled"))
  end.

Definition darwin_Restore (o : O) (policy : string) : O * result string unit :=
  match exec o "pfctl" flush_anchor with
  | (o, Err e) => (o, Err e)
  | (o, Ok _) =>
    (if String.eqb policy "pf-disabled" then (exec o "pfctl" ["-d"]).1 else o, Ok tt)
  end.

Definition darwinBackend `{TempFiles O, Unicode} : Backend O :=
  mkBackend O "pf" darwin_RuleNames darwin_Enable (fun o _ => exec o "pfctl" flush_anchor)
    (fun o => ((exec o "pfctl" ["-e"]).1, Ok tt)) darwin_Restore darwin_CurrentPolicy.

(** The backend a build selects. *)
Definition selectBackend `{TempFiles O, Unicode} (sys : System) : Backend O :=
  match sys with
  | Windows => windowsBackend
  | Linux => linuxBackend
  | Darwin => darwinBackend
  | OtherSystem os => unsupportedBackend os
  end.

(** The commands that put the block default in place again. *)
Definition reassert_commands : list (string * list string) :=
  [("netsh", set_policy block_policy); add_table; add_chain "out" "output"; add_chain "in" "input";
   iptables_policy "OUTPUT" "DROP"; iptables_policy "INPUT" "DROP"; ("pfctl", ["-e"])].
End backends.

(** ** The manager *)

Record sentinel := mkSentinel {
  s_Rules : list string;
  s_Policy : string;
  s_Endpoint : string;
  s_Mode : option Mode
}.
Definition zero_sentinel : sentinel := mkSentinel [] "" "" None.

Inductive event_detail := event_endpoint (s : string) | event_failClosed (reason : string).
Inductive event := KILL_SWITCH_ENABLED (mode : Mode) (d : event_detail).

(** [disk] holds the sentinel files: [None] is one that does not parse. *)
Record Manager (O : Type) := mkManager {
  os : O;
  disk : gmap string (option sentinel);
  sentinelPaths : list string;
  lanAllowed : bool;
  mode : Mode;
  active : bool;
  published : list event
}.
Arguments mkManager {_}. Arguments os {_}. Arguments disk {_}. Arguments sentinelPaths {_}.
Arguments lanAllowed {_}. Arguments mode {_}. Arguments active {_}. Arguments published {_}.

Section manager.
Context {O : Type} (be : Backend O).

(** An idle manager over whatever an earlier run left on the disk; the paths
    are the primary sentinel and, without a state directory, the legacy one. *)
Definition New (o : O) (d : gmap string (option sentinel)) (paths : list string) (lan : bool)
  : Manager O := mkManager o d paths lan OFF false [].

Definition Manager_Mode (m : Manager O) : Mode := if active m then mode m else OFF.

Definition set_os (m : Manager O) (o : O) : Manager O :=
  mkManager o (disk m) (sentinelPaths m) (lanAllowed m) (mode m) (active m) (published m).
Definition set_disk (m : Manager O) (d : gmap string (option sentinel)) : Manager O :=
  mkManager (os m) d (sentinelPaths m) (lanAllowed m) (mode m) (active m) (published m).
Definition set_mode (m : Manager O) (x : Mode) (a : bool) : Manager O :=
  mkManager (os m) (disk m) (sentinelPaths m) (lanAllowed m) x a (published m).
Definition publish (m : Manager O) (e : event) : Manager O :=
  mkManager (os m) (disk m) (sentinelPaths m) (lanAllowed m) (mode m) (active m) (published m ++ [e]).

Definition readSentinel (m : Manager O) : sentinel := default zero_sentinel (read_first (disk m) (sentinelPaths m)).

Definition remove_sentinels (m : Manager O) : Manager O :=
  set_disk m (remove_files (disk m) (sentinelPaths m)).

(** A failed write goes unnoticed; [ok] says whether it succeeded. *)
Definition writeSentinel (m : Manager O) (s : sentinel) (ok : bool) : Manager O :=
  set_disk m (write_first (disk m) (sentinelPaths m) s ok).

Definition removeStale (m : Manager O) : Manager O :=
  let s := readSentinel m in
  match s_Rules s with
  | [] => m
  | rules => remove_sentinels (set_os m (be_Remove be (os m) rules).1)
  end.

Definition nonempty_rules (l : list string) : bool := match l with [] => false | _ => true end.

Definition Manager_Disable (m : Manager O) : Manager O :=
  let s := readSentinel m in
  let o := os m in
  let o := if nonempty_rules (s_Rules s) then (be_Remove be o (s_Rules s)).1
           else if active m then (be_Remove be o (RuleNames be (mkSpec "" 0 "" true))).1
           else o in
  let o := if negb (String.eqb (s_Policy s) "") then (be_Restore be o (s_Policy s)).1 else o in
  set_mode (remove_sentinels (set_os m o)) OFF false.

Definition bad_endpoint (ip : string) (port : Z) : bool :=
  String.eqb (strings_TrimSpace ip) "" || (port <=? 0) || (port >? 65535).

Definition Manager_Enable (m : Manager O) (md : Mode) (ip : string) (port : Z) (tun : string)
  (write_ok : bool) : Manager O * result error unit :=
  if decide (md = OFF) then (Manager_Disable m, Ok tt)
  else if bad_endpoint ip port then (m, Err ErrEndpoint)
  else if String.eqb (strings_TrimSpace tun) "" then (m, Err ErrTunAddr)
  else
    let m := removeStale m in
    match be_CurrentPolicy be (os m) with
    | (o, Err e) => (set_os m o, Err (ErrSnapshot e))
    | (o, Ok policy) =>
      let spec := mkSpec ip port tun (lanAllowed m) in
      match be_Enable be o spec with
      | (o, Err e) => (set_os m (be_Remove be o (RuleNames be spec)).1, Err (ErrApply e))
      | (o, Ok _) =>
        match be_SetBlock be o with
        | (o, Err e) => (set_os m (be_Remove be o (RuleNames be spec)).1, Err (ErrBlock e))
        | (o, Ok _) =>
          let ep := ip +:+ ":" +:+ fmt_d port in
          let m := writeSentinel (set_os m o)
                     (mkSentinel (RuleNames be spec) policy ep (Some md)) write_ok in
          (publish (set_mode m md true) (KILL_SWITCH_ENABLED md (event_endpoint ep)), Ok tt)
        end
      end
    end.

Definition Manager_FailClosed (m : Manager O) (reason : string) : Manager O * result error unit :=
  if active m then
    match be_SetBlock be (os m) with
    | (o, Err e) => (set_os m o, Err (ErrReassert e))
    | (o, Ok _) =>
      (publish (set_os m o) (KILL_SWITCH_ENABLED (mode m) (event_failClosed reason)), Ok tt)
    end
  else (m, Err ErrNotActive).

Definition Manager_Rules (m : Manager O) : list string := s_Rules (readSentinel m).
End manager.

(** ** What a backend promises

    The contract of the [Backend] interface on two views of the system: the
    named rules present and whether the outbound default is block.  [snap]
    holds of the policy texts a snapshot yields, [reads] says which of them
    means block. *)

Class KillSwitchLaws {O : Type} (be : Backend O) : Type := {
  present : O → gset string;
  blocked : O → bool;
  snap : string → Prop;
  reads : string → bool;
  law_policy : ∀ o o' r, be_CurrentPolicy be o = (o', r) →
    present o' = present o ∧ blocked o' = blocked o
    ∧ ∀ p, r = Ok p → snap p ∧ reads p = blocked o;
  law_snap : ∀ p, snap p → p ≠ "";
  law_enable : ∀ o s o' r, be_Enable be o s = (o', r) →
    blocked o' = blocked o ∧ present o ⊆ present o'
    ∧ present o' ⊆ present o ∪ list_to_set (RuleNames be s)
    ∧ (r = Ok tt → list_to_set (RuleNames be s) ⊆ present o');
  law_remove : ∀ o names,
    blocked (be_Remove be o names).1 = blocked o
    ∧ present (be_Remove be o names).1 = present o ∖ list_to_set names;
  law_block : ∀ o o' r, be_SetBlock be o = (o', r) →
    present o' = present o
    ∧ blocked o' = match r with Ok _ => true | Err _ => blocked o end;
  law_restore : ∀ o p o' r, snap p → be_Restore be o p = (o', r) →
    present o' = present o
    ∧ blocked o' = match r with Ok _ => reads p | Err _ => blocked o end;
  law_rules : ∀ s, RuleNames be s ≠ []
}.

(** The documented effect of the netsh commands on the same views; a delete
    fails only when no rule matches. *)
Class NetshLaws (O : Type) `{Runner O, Unicode} : Type := {
  ns_present : O → gset string;
  ns_blocked : O → bool;
  ns_add : ∀ o args n o' r, omap cut_name args = [n] → Run o "netsh" (add_rule args) = (o', r) →
    ns_blocked o' = ns_blocked o
    ∧ ns_present o' = match r with Ok _ => {[n]} ∪ ns_present o | Err _ => ns_present o end;
  ns_delete : ∀ o n o' r, Run o "netsh" (delete_rule n) = (o', r) →
    ns_blocked o' = ns_blocked o ∧ ns_present o' = ns_present o ∖ {[n]};
  ns_set : ∀ o p o' r, p = block_policy ∨ p = allow_policy →
    Run o "netsh" (set_policy p) = (o', r) →
    ns_present o' = ns_present o
    ∧ ns_blocked o' = match r with Ok _ => String.eqb p block_policy | Err _ => ns_blocked o end;
  ns_show : ∀ o o' r, Run o "netsh" show_profiles = (o', r) →
    ns_present o' = ns_present o ∧ ns_blocked o' = ns_blocked o
    ∧ ∀ out, r = Ok out →
        windows_policy out = if ns_blocked o then block_policy else allow_policy
}.

(** ** Two systems to run against *)

(** A firewall that keeps its rules and its outbound default. *)
Record netsh_state := mkNetsh { t_rules : gset string; t_block : bool }.

Definition netsh_run (o : netsh_state) (args : list string) : netsh_state * result string string :=
  match args with
  | "advfirewall" :: "firewall" :: "add" :: "rule" :: rule =>
    match omap cut_name rule with
    | [n] => (mkNetsh ({[n]} ∪ t_rules o) (t_block o), Ok "Ok.")
    | _ => (o, Err "usage")
    end
  | ["advfirewall"; "firewall"; "delete"; "rule"; tok] =>
    match cut_name tok with
    | Some n => if decide (n ∈ t_rules o) then (mkNetsh (t_rules o ∖ {[n]}) (t_block o), Ok "Ok.")
                else (o, Err "No rules match the specified criteria.")
    | None => (o, Err "usage")
    end
  | ["advfirewall"; "set"; "allprofiles"; "firewallpolicy"; p] =>
    (mkNetsh (t_rules o) (String.eqb p block_policy), Ok "Ok.")
  | ["advfirewall"; "show"; "allprofiles"] =>
    (o, Ok ("Firewall Policy   BlockInbound," +:+
            if t_block o then "BlockOutbound" else "AllowOutbound"))
  | _ => (o, Err "usage")
  end.

#[local] Instance netsh_runner : Runner netsh_state := {|
  Run o name args := if String.eqb name "netsh" then netsh_run o args else (o, Err "not found") |}.
#[local] Existing Instance ascii_unicode.

(** A switch, off, on a system with one rule of its own. *)
Definition demo_manager : Manager netsh_state :=
  New (mkNetsh {["Corp VPN"]} false) ∅ ["killswitch.json"] true.

(** A Linux without nftables: the commands that ran, newest first. *)
#[local] Instance iptables_only : Runner (list (string * list string)) := {|
  Run o name args := if String.eqb name "nft" then (o, Err "not found")
                     else ((name, args) :: o, Ok "") |}.

(** ** Lemmas *)

Section windows_laws.
Context {O : Type} `{NetshLaws O}.

(** Adding named rules one by one. *)
Lemma add_rules_laws rules names o o' r :
  Forall2 (fun args n => omap cut_name args = [n]) rules names →
  exec_all o (map (fun args => ("netsh", add_rule args)) rules) = (o', r) →
  ns_blocked o' = ns_blocked o ∧ ns_present o ⊆ ns_present o'
  ∧ ns_present o' ⊆ ns_present o ∪ list_to_set names
  ∧ (r = Ok tt → list_to_set names ⊆ ns_present o').
Proof.
  intros Hf. revert o. induction Hf as [|args n rules names Hn Hf IH]; intros o; cbn [map exec_all].
  { intros [= <- <-]. set_solver. }
  rewrite exec_run. destruct (Run o "netsh" (add_rule args)) as [o1 [out|e]] eqn:E.
  - destruct (ns_add _ _ _ _ _ Hn E) as [Hb Hp]. intros (Hb' & Hs & Hu & Ho)%IH.
    rewrite list_to_set_cons. rewrite Hp in *. split_and!; [congruence | set_solver | set_solver |].
    intros Hr. specialize (Ho Hr). set_solver.
  - destruct (ns_add _ _ _ _ _ Hn E) as [Hb Hp]. intros [= <- <-]. rewrite Hp.
    split_and!; [done | set_solver | set_solver | done].
Qed.

Lemma rule_names_laws s :
  Forall2 (fun args n => omap cut_name args = [n]) (spec_rules s) (ruleNames (spec_rules s)).
Proof. unfold spec_rules, allowRules. destruct (LANAllowed s); repeat constructor. Qed.

Lemma remove_laws o names : ns_blocked (windows_Remove o names).1 = ns_blocked o
  ∧ ns_present (windows_Remove o names).1 = ns_present o ∖ list_to_set names.
Proof.
  unfold windows_Remove. generalize (Ok (E := string) tt). revert o.
  induction names as [|n names IH]; intros o first; cbn [foldl].
  { cbn. split; [done | set_solver]. }
  rewrite exec_run. destruct (Run o "netsh" (delete_rule n)) as [o1 r] eqn:E.
  destruct (ns_delete _ _ _ _ E) as [Hb Hp].
  assert (∃ first', match (match r with Ok _ => (o1, Ok tt) | Err e => (o1, Err e) end), first with
    | (o, Err e), Ok _ => (o, Err e) | (o, _), _ => (o, first) end = (o1, first')) as [f ->].
  { destruct r, first; eauto. }
  destruct (IH o1 f) as [-> ->]. rewrite Hb, Hp. split; [done|]. set_solver.
Qed.

#[export] Instance windows_laws : KillSwitchLaws (windowsBackend (O := O)).
Proof.
  refine {| present := ns_present; blocked := ns_blocked;
            snap := fun p => p = block_policy ∨ p = allow_policy;
            reads := fun p => String.eqb p block_policy |}; cbn.
  - intros o o' r. destruct (Run o "netsh" show_profiles) as [o1 [out|e]] eqn:E;
      destruct (ns_show _ _ _ E) as (Hp & Hb & Ho); intros [= <- <-]; split_and!; try done.
    intros p [= <-]. rewrite (Ho out eq_refl). destruct (ns_blocked o); auto.
  - by intros p [->| ->].
  - intros o s o' r. unfold windows_Enable.
    destruct (exec_all o _) as [o1 [[]|e]] eqn:E; apply (add_rules_laws _ _ _ _ _ (rule_names_laws s)) in E
      as (? & ? & ? & Hr); intros [= <- <-]; split_and!; auto; done.
  - apply remove_laws.
  - intros o o' r. rewrite exec_run. destruct (Run _ _ _) as [o1 x] eqn:E.
    destruct (ns_set _ _ _ _ (or_introl eq_refl) E) as [Hp Hb].
    destruct x; intros [= <- <-]; done.
  - intros o p o' r Hp. rewrite exec_run. destruct (Run _ _ _) as [o1 x] eqn:E.
    destruct (ns_set _ _ _ _ Hp E) as [Hpr Hb]. destruct x; intros [= <- <-]; done.
  - intros s. unfold spec_rules, allowRules. by destruct (LANAllowed s).
Defined.
End windows_laws.

Section manager_proofs.
Context {O : Type} (be : Backend O) `{!KillSwitchLaws be}.

Lemma read_removed (m : Manager O) : readSentinel (remove_sentinels m) = zero_sentinel.
Proof.
  unfold readSentinel, remove_sentinels. cbn [disk sentinelPaths set_disk].
  by rewrite read_removed_files.
Qed.

Lemma read_off (m : Manager O) x a : readSentinel (set_mode (remove_sentinels m) x a) = zero_sentinel.
Proof. exact (read_removed m). Qed.

Lemma read_written (m : Manager O) s : sentinelPaths m ≠ [] →
  readSentinel (writeSentinel m s true) = s.
Proof.
  intros Hp. unfold readSentinel, writeSentinel. cbn [disk sentinelPaths set_disk].
  by rewrite read_written_file.
Qed.

Lemma remove_stale_clean (m : Manager O) : readSentinel m = zero_sentinel → removeStale be m = m.
Proof. intros E. unfold removeStale. by rewrite E. Qed.

(** What a successful enable from a clean state leaves. *)
Record engaged (m m1 : Manager O) (md : Mode) (s : Spec) : Prop := {
  en_active : active m1 = true;
  en_mode : mode m1 = md;
  en_sentinel : ∃ p ep, readSentinel m1 = mkSentinel (RuleNames be s) p ep (Some md)
                  ∧ snap p ∧ reads p = blocked (os m);
  en_blocked : blocked (os m1) = true;
  en_rules : list_to_set (RuleNames be s) ⊆ present (os m1);
  en_only : present (os m1) ⊆ present (os m) ∪ list_to_set (RuleNames be s);
  en_kept : present (os m) ⊆ present (os m1)
}.

Lemma enable_ok (m m1 : Manager O) md ip port tun : md ≠ OFF → readSentinel m = zero_sentinel →
  sentinelPaths m ≠ [] → Manager_Enable be m md ip port tun true = (m1, Ok tt) →
  engaged m m1 md (mkSpec ip port tun (lanAllowed m)).
Proof.
  intros Hmd Hs Hp. unfold Manager_Enable. rewrite decide_False by done.
  destruct (bad_endpoint ip port); [done|]. destruct (String.eqb _ ""); [done|].
  rewrite remove_stale_clean by done.
  destruct (be_CurrentPolicy be (os m)) as [o1 [p|e]] eqn:E1; [|done].
  destruct (law_policy _ _ _ E1) as (P1 & B1 & S1). destruct (S1 p eq_refl) as [Sp Rp].
  destruct (be_Enable be o1 _) as [o2 [[]|e]] eqn:E2; [|done].
  destruct (law_enable _ _ _ _ E2) as (B2 & K2 & U2 & N2).
  destruct (be_SetBlock be o2) as [o3 [[]|e]] eqn:E3; [|done].
  destruct (law_block _ _ _ E3) as (P3 & B3). intros [= <-].
  pose proof (read_written (set_os m o3) (mkSentinel (RuleNames be (mkSpec ip port tun (lanAllowed m)))
    p (ip +:+ ":" +:+ fmt_d port) (Some md)) Hp) as Hr.
  assert (∀ x, os (writeSentinel (set_os m o3) x true) = o3) as Ho.
  { intros x. unfold writeSentinel. by destruct (sentinelPaths _). }
  split; cbn [active mode publish set_mode os]; rewrite ?Ho, ?P3; try done.
  - eexists p, _. split; [exact Hr|]. by rewrite Rp.
  - by apply N2.
  - by rewrite <- P1.
  - by rewrite <- P1.
Qed.

(** What a failed enable of an inactive, clean switch leaves. *)
Lemma enable_err (m m1 : Manager O) md ip port tun ok e :
  readSentinel m = zero_sentinel → active m = false → md ≠ OFF →
  present (os m) ## list_to_set (RuleNames be (mkSpec ip port tun (lanAllowed m))) →
  Manager_Enable be m md ip port tun ok = (m1, Err e) →
  Manager_Mode m1 = OFF ∧ disk m1 = disk m
  ∧ present (os m1) = present (os m) ∧ blocked (os m1) = blocked (os m).
Proof.
  intros Hs Ha Hmd Hd. unfold Manager_Enable, Manager_Mode. rewrite decide_False by done.
  destruct (bad_endpoint ip port); [intros [= <- <-]; by rewrite Ha|].
  destruct (String.eqb _ ""); [intros [= <- <-]; by rewrite Ha|].
  rewrite remove_stale_clean by done.
  destruct (be_CurrentPolicy be (os m)) as [o1 [p|e1]] eqn:E1;
    destruct (law_policy _ _ _ E1) as (P1 & B1 & _); [|intros [= <- _]; cbn; by rewrite Ha].
  set (s := mkSpec ip port tun (lanAllowed m)) in *.
  destruct (be_Enable be o1 s) as [o2 [[]|e2]] eqn:E2;
    destruct (law_enable _ _ _ _ E2) as (B2 & K2 & U2 & _); rewrite P1 in *.
  - destruct (be_SetBlock be o2) as [o3 [[]|e3]] eqn:E3; [done|].
    destruct (law_block _ _ _ E3) as (P3 & B3). intros [= <- _]. cbn.
    destruct (law_remove o3 (RuleNames be s)) as [-> ->]. rewrite Ha, P3, B3, B2.
    split_and!; [done|done|set_solver|done].
  - intros [= <- _]. cbn. destruct (law_remove o2 (RuleNames be s)) as [-> ->].
    rewrite Ha, B2. split_and!; [done|done|set_solver|done].
Qed.

(** A successful enable turns the switch on. *)
Lemma enable_on (m m1 : Manager O) md ip port tun ok : md ≠ OFF →
  Manager_Enable be m md ip port tun ok = (m1, Ok tt) → active m1 = true ∧ mode m1 = md.
Proof.
  intros Hm. unfold Manager_Enable. rewrite decide_False by done.
  repeat (case_match; simplify_eq/=; try done). by intros [= <-].
Qed.

(** A failed enable does not turn the switch on. *)
Lemma enable_kept_inactive (m m1 : Manager O) md ip port tun ok e : active m = false →
  Manager_Enable be m md ip port tun ok = (m1, Err e) → active m1 = false.
Proof.
  intros Ha. unfold Manager_Enable.
  assert (active (removeStale be m) = false) as Hs by (unfold removeStale; by case_match).
  repeat (case_match; simplify_eq/=; try done); by intros [= <- _].
Qed.

(** Re-asserting the block keeps everything an enable left. *)
Lemma fail_closed_engaged m m1 md s reason : engaged m m1 md s →
  engaged m (Manager_FailClosed be m1 reason).1 md s.
Proof.
  intros [Ha Hm Hs Hb Hr Ho Hk]. unfold Manager_FailClosed. rewrite Ha.
  destruct (be_SetBlock be (os m1)) as [o [[]|e]] eqn:E; destruct (law_block _ _ _ E) as (P & B);
    split; cbn; rewrite ?P, ?B; auto.
Qed.

(** What disabling an engaged switch leaves. *)
Lemma disable_engaged m m1 md s : engaged m m1 md s → present (os m) ## list_to_set (RuleNames be s) →
  let off := Manager_Disable be m1 in
  active off = false ∧ readSentinel off = zero_sentinel ∧ present (os off) = present (os m)
  ∧ ((be_Restore be (be_Remove be (os m1) (Manager_Rules m1)).1 (s_Policy (readSentinel m1))).2 = Ok tt →
     blocked (os off) = blocked (os m))
  ∧ snap (s_Policy (readSentinel m1)).
Proof.
  intros [Ha Hm (p & ep & Hr & Sp & Rp) Hb Hn Ho Hk] Hd. cbn zeta.
  unfold Manager_Rules, Manager_Disable. rewrite read_off, Hr. cbn [s_Rules s_Policy].
  assert (nonempty_rules (RuleNames be s) = true) as ->
    by (pose proof (law_rules s); by destruct (RuleNames be s)).
  rewrite (proj2 (String.eqb_neq p "")) by by apply law_snap. cbn [negb].
  set (o1 := (be_Remove be (os m1) _).1). destruct (be_Restore be o1 p) as [o2 r] eqn:E2.
  destruct (law_restore _ _ _ _ Sp E2) as [P2 B2].
  destruct (law_remove (os m1) (RuleNames be s)) as [_ P1]. fold o1 in P1. cbn.
  split_and!; [done|done| | |done].
  - rewrite P2, P1. set_solver.
  - intros ->. by rewrite B2.
Qed.

Definition hold (m : Manager O) (reasons : list string) : Manager O :=
  foldl (fun m r => (Manager_FailClosed be m r).1) m reasons.

Lemma hold_engaged m m1 md s reasons : engaged m m1 md s → engaged m (hold m1 reasons) md s.
Proof.
  unfold hold. revert m1. induction reasons as [|r l IH]; intros m1 He; cbn [foldl]; [done|].
  by apply IH, fail_closed_engaged.
Qed.
End manager_proofs.

(** ** Re-asserting *)

Section reassert.
Context {O : Type} `{Runner O, TempFiles O, Unicode}.

Lemma selectBackend_reasserts sys o :
  reach reassert_commands o (be_SetBlock (selectBackend sys) o).1.
Proof.
  destruct sys; cbn [selectBackend be_SetBlock windowsBackend linuxBackend darwinBackend unsupportedBackend].
  - destruct (exec o _ _) as [o1 x] eqn:E.
    eapply (reach_exec reassert_commands o ("netsh", set_policy block_policy)); [|exact E]. by left.
  - unfold linux_SetBlock. destruct (exec_all o _) as [o1 x] eqn:E.
    apply (reach_all reassert_commands) in E; [|intros c; unfold reassert_commands; set_solver].
    destruct x; [done|]. eapply reach_trans; [exact E|]. apply reach_each.
    intros c; unfold reassert_commands; set_solver.
  - cbn [fst]. destruct (exec o _ _) as [o1 x] eqn:E.
    eapply (reach_exec reassert_commands o ("pfctl", ["-e"])); [|exact E]. unfold reassert_commands. set_solver.
  - apply reach_nil.
Qed.
End reassert.

(** ** The example system keeps the contract *)

Lemma cut_name_name n : cut_name ("name=" +:+ n) = Some n.
Proof.
  unfold cut_name. assert (String.prefix "name=" ("name=" +:+ n) = true) as ->
    by (by destruct n).
  rewrite chars_app. change (drop 5 (chars "name=" ++ chars n)) with (chars n).
  by rewrite of_chars_chars.
Qed.

#[local] Instance netsh_laws : NetshLaws netsh_state.
Proof.
  refine {| ns_present := t_rules; ns_blocked := t_block |}.
  - intros o args n o' r Hn. cbn. rewrite Hn. by intros [= <- <-].
  - intros o n o' r. unfold delete_rule. change (Run o "netsh" ?a) with (netsh_run o a).
    cbn [netsh_run]. rewrite cut_name_name. case_decide; intros [= <- <-]; cbn; set_solver.
  - intros o p o' r _. cbn. by intros [= <- <-].
  - intros o o' r. cbn. intros [= <- <-]. split_and!; [done..|]. intros out [= <-].
    by destruct (t_block o).
Defined.

Lemma demo_no_rules port : present (os demo_manager) ##
  list_to_set (RuleNames windowsBackend (mkSpec "203.0.113.7" port "10.8.0.2" (lanAllowed demo_manager))).
Proof. cbn -[cut_name]. vm_compute omap. set_solver. Qed.

(** ** Properties *)


(** A failed enable leaves nothing behind. On a clean system, if any stage of enabling fails -
    the checks, the snapshot, a rule, the block - the manager stays off, no sentinel is written, and
    the rules and the outbound default are what they were. *)
Theorem enable_failure_clean {O} (be : Backend O) `{!KillSwitchLaws be} (m m1 : Manager O) md ip port
  tun ok e :
  readSentinel m = zero_sentinel → active m = false → md ≠ OFF →
  present (os m) ## list_to_set (RuleNames be (mkSpec ip port tun (lanAllowed m))) →
  Manager_Enable be m md ip port tun ok = (m1, Err e) →
  Manager_Mode m1 = OFF ∧ disk m1 = disk m
  ∧ present (os m1) = present (os m) ∧ blocked (os m1) = blocked (os m).
Proof. apply enable_err. Qed.

(** A tunnel loss never opens the firewall. On every system and whatever the commands answer,
    re-asserting the kill switch runs nothing but commands that put the block default in place, and
    changes neither the mode, nor whether the switch is active, nor the sentinel. *)
Theorem fail_closed_only_blocks {O} `{Runner O, TempFiles O, Unicode} (sys : System) (m : Manager O) reason :
  let m' := (Manager_FailClosed (selectBackend sys) m reason).1 in
  reach reassert_commands (os m) (os m')
  ∧ mode m' = mode m ∧ active m' = active m ∧ disk m' = disk m.
Proof.
  unfold Manager_FailClosed. cbn zeta. destruct (active m) eqn:Ha; [|split; [apply reach_nil | done]].
  pose proof (selectBackend_reasserts sys (os m)) as Hr.
  destruct (be_SetBlock (selectBackend sys) (os m)) as [o [[]|e]]; cbn in *; auto.
Qed.

(** ** Witnesses *)


Lemma enable_failure_clean_witness : ∃ m1 e,
  Manager_Enable windowsBackend demo_manager ALWAYS_ON "203.0.113.7" 70000 "10.8.0.2" true = (m1, Err e)
  ∧ present (os m1) = {["Corp VPN"]}.
Proof.
  eexists _, _. split; [reflexivity|].
  exact (proj1 (proj2 (proj2 (enable_failure_clean windowsBackend demo_manager _ ALWAYS_ON
    "203.0.113.7" 70000 "10.8.0.2" true _ eq_refl eq_refl ltac:(done) (demo_no_rules _) eq_refl)))).
Defined.

(** ** What the model shows *)

(** Without nftables, enabling falls back to iptables, sets the policies to DROP and then reports an
    error, because the block is re-asserted through nftables only; no sentinel is written, so
    disabling afterwards runs no command and the machine stays cut off. *)
Example nft_missing_locks_out :
  let m := New (O := list (string * list string)) [] ∅ ["killswitch.json"] false in
  let '(m1, r) := Manager_Enable linuxBackend m ALWAYS_ON "203.0.113.7" 51820 "10.8.0.2" true in
  r = Err (ErrBlock "not found") ∧ Manager_Mode m1 = OFF
  ∧ iptables_policy "OUTPUT" "DROP" ∈ os m1
  ∧ iptables_policy "OUTPUT" "ACCEPT" ∉ os m1
  ∧ os (Manager_Disable linuxBackend m1) = os m1.
Proof.
  vm_compute Manager_Enable. split_and!; [reflexivity | reflexivity | | | vm_compute; reflexivity];
    vm_compute os; unfold iptables_policy; set_solver.
Qed.

(** After a crash the next enable removes the stale rules but not the stale block, and snapshots that
    block as the policy to go back to: disabling leaves the machine blocked. *)
Example crash_recovery_restores_block :
  let m1 := (Manager_Enable windowsBackend demo_manager ALWAYS_ON "203.0.113.7" 51820 "10.8.0.2" true).1 in
  let restarted := New (os m1) (disk m1) (sentinelPaths m1) false in
  let m2 := (Manager_Enable windowsBackend restarted ALWAYS_ON "203.0.113.7" 51820 "10.8.0.2" true).1 in
  let m3 := Manager_Disable windowsBackend m2 in
  blocked (os demo_manager) = false ∧ Manager_Mode m3 = OFF ∧ blocked (os m3) = true.
Proof. vm_compute. done. Qed.
