(* ===== verification/Routing.v ===== *)
(** * Routing: tunnel routes (internal/routing)

    The route manager ([route.go]) over its backend interface ([backend.go]),
    and the netsh, ip-route and BSD backends ([netsh.go], [iproute.go],
    [bsdroute.go]) over a command runner.  The state file is the list of routes
    it holds.  [RouteLaws] is the contract a backend keeps on two views of the
    system, its routes and its interface metrics. *)

From Stdlib Require Import ZArith Lia Ascii.
From stdpp Require Import gmultiset.
From S2P Require Import Prelude GoStrings NetIP GoText Runner.

Record Route := mkRoute { Dest : string; Gateway : string; Iface : string; Metric : Z }.

Record Backend (O : Type) := mkBackend {
  Name : string;
  be_Add : O → Route → O * result string unit;
  be_Delete : O → Route → O * result string unit;
  be_SetMetric : O → string → Z → O * result string unit;
  be_GetMetric : O → string → O * result string Z;
  be_BlockIPv6 : O → string → O * result string unit;
  be_RestoreIPv6 : O → O * result string unit
}.
Arguments mkBackend {_}. Arguments Name {_}. Arguments be_Add {_}. Arguments be_Delete {_}.
Arguments be_SetMetric {_}. Arguments be_GetMetric {_}. Arguments be_BlockIPv6 {_}.
Arguments be_RestoreIPv6 {_}.

(** ** Backends *)

(** [strings.EqualFold(tok, "metric")]: these letters fold within ASCII only. *)
Definition is_metric_word (tok : string) : bool :=
  String.eqb (of_chars (map lower_char (chars tok))) "metric".

Fixpoint digit_prefix (l : list Ascii.ascii) : list Ascii.ascii :=
  match l with
  | c :: l' => if (48 <=? byte_val c) && (byte_val c <=? 57) then c :: digit_prefix l' else []
  | [] => []
  end.

(** [fmt.Sscanf(s, "%d", &n)]: a sign, digits, and whatever follows. *)
Definition Sscanf_d (s : string) : option Z :=
  match chars s with
  | ("-"%char | "+"%char) as c :: l => strconv_Atoi (of_chars (c :: digit_prefix l))
  | l => strconv_Atoi (of_chars (digit_prefix l))
  end.

Fixpoint metric_in (f : list string) : option Z :=
  match f with
  | tok :: ((v :: _) as f') =>
    if is_metric_word tok
    then match Sscanf_d v with Some n => Some n | None => metric_in f' end
    else metric_in f'
  | _ => None
  end.

Fixpoint find_metric (lines : list string) : option Z :=
  match lines with
  | [] => None
  | l :: lines => match metric_in (strings_Fields l) with Some n => Some n | None => find_metric lines end
  end.

Definition ipv6RuleName : string := "VeilNet-IPv6-Block".
Section backends.
Context {O : Type} `{Runner O}.

Definition errUnsupported (os : string) : string :=
  "routing: no backend on " +:+ os +:+ " (refusing to run without tunnel routes)".
Definition unsupportedBackend (os : string) : Backend O :=
  let e := errUnsupported os in
  mkBackend ("unsupported(" +:+ os +:+ ")") (fun o _ => (o, Err e)) (fun o _ => (o, Err e))
    (fun o _ _ => (o, Err e)) (fun o _ => (o, Err e)) (fun o _ => (o, Err e)) (fun o => (o, Err e)).

(** *** Windows: netsh *)

Definition windows_GetMetric (o : O) (iface : string) : O * result string Z :=
  match Run o "netsh" ["interface"; "ipv4"; "show"; "interface"; quoted iface] with
  | (o, Err e) => (o, Err e)
  | (o, Ok out) =>
    (o, match find_metric (strings_Split out nl) with
        | Some n => Ok n
        | None => Err "routing: metric not found"
        end)
  end.

Definition windows_BlockIPv6 (o : O) (tunnelIface : string) : O * result string unit :=
  exec_all o
    [("netsh", ["advfirewall"; "firewall"; "add"; "rule"; "name=" +:+ ipv6RuleName; "dir=out";
                "action=block"; "remoteip=::/0"; "description=VeilNet IPv6 leak block"]);
     ("netsh", ["interface"; "ipv6"; "set"; "interface"; quoted tunnelIface;
                "routerdiscovery=disabled"; "managedaddress=disabled"; "otherstateful=disabled"])].

Definition windowsBackend : Backend O :=
  mkBackend "netsh"
    (fun o r => exec o "netsh" ["interface"; "ipv4"; "add"; "route"; Dest r; quoted (Iface r);
                                Gateway r; "metric=" +:+ fmt_d (Metric r)])
    (fun o r => exec o "netsh" ["interface"; "ipv4"; "delete"; "route"; Dest r; quoted (Iface r);
                                Gateway r])
    (fun o iface metric => exec o "netsh" ["interface"; "ipv4"; "set"; "interface"; quoted iface;
                                           "metric=" +:+ fmt_d metric])
    windows_GetMetric windows_BlockIPv6
    (fun o => exec o "netsh" ["advfirewall"; "firewall"; "delete"; "rule"; "name=" +:+ ipv6RuleName]).

(** *** Linux: ip *)

Definition ip_add (r : Route) : list string :=
  ["route"; "add"; Dest r; "via"; Gateway r; "dev"; Iface r; "metric"; fmt_d (Metric r)].
Definition ip_del (r : Route) : list string :=
  ["route"; "del"; Dest r; "via"; Gateway r; "dev"; Iface r].
Definition ip_link (iface : string) (metric : Z) : list string :=
  ["link"; "set"; iface; "metric"; fmt_d metric].
Definition ip_blackhole (verb : string) : list string := ["-6"; "route"; verb; "blackhole"; "::/0"].

Definition linuxBackend : Backend O :=
  mkBackend "ip-route"
    (fun o r => exec o "ip" (ip_add r)) (fun o r => exec o "ip" (ip_del r))
    (fun o iface metric => exec o "ip" (ip_link iface metric))
    (fun o _ => (o, Err "routing: metric query not supported on linux (restore skipped)"))
    (fun o _ => exec o "ip" (ip_blackhole "add")) (fun o => exec o "ip" (ip_blackhole "del")).

(** *** macOS: route *)

Definition bsd_route (verb : string) (r : Route) : list string :=
  ["-n"; verb; "-inet";
   if String.eqb (Dest r) "0.0.0.0/0" then "default" else strings_TrimSuffix (Dest r) "/32";
   Gateway r].

Definition darwinBackend : Backend O :=
  mkBackend "bsd-route"
    (fun o r => exec o "route" (bsd_route "add" r)) (fun o r => exec o "route" (bsd_route "delete" r))
    (fun o _ _ => (o, Err "routing: interface metric not supported on darwin (route metrics per-route)"))
    (fun o _ => (o, Err "routing: metric query not supported on darwin (restore skipped)"))
    (fun o _ => exec o "route" ["-n"; "add"; "-inet6"; "::/0"; "::1"; "-blackhole"])
    (fun o => exec o "route" ["-n"; "delete"; "-inet6"; "::/0"; "::1"]).

Definition selectBackend (sys : System) : Backend O :=
  match sys with
  | Windows => windowsBackend
  | Linux => linuxBackend
  | Darwin => darwinBackend
  | OtherSystem os => unsupportedBackend os
  end.
End backends.

(** ** The manager *)

Record Manager (O : Type) := mkManager {
  os : O;
  disk : gmap string (option (list Route));
  statePaths : list string;
  added : list Route;
  metric : gmap string Z;
  ipv6Off : bool
}.
Arguments mkManager {_}. Arguments os {_}. Arguments disk {_}. Arguments statePaths {_}.
Arguments added {_}. Arguments metric {_}. Arguments ipv6Off {_}.

Section manager.
Context {O : Type} (be : Backend O).
Implicit Types m : Manager O.

Definition set_os m (o : O) : Manager O :=
  mkManager o (disk m) (statePaths m) (added m) (metric m) (ipv6Off m).
Definition set_disk m d : Manager O :=
  mkManager (os m) d (statePaths m) (added m) (metric m) (ipv6Off m).
Definition set_added m l : Manager O :=
  mkManager (os m) (disk m) (statePaths m) l (metric m) (ipv6Off m).
Definition set_metric m x : Manager O :=
  mkManager (os m) (disk m) (statePaths m) (added m) x (ipv6Off m).
Definition set_ipv6Off m b : Manager O :=
  mkManager (os m) (disk m) (statePaths m) (added m) (metric m) b.

(** The first file that can be read, whatever it holds. *)
Fixpoint first_file (d : gmap string (option (list Route))) (paths : list string)
  : option (option (list Route)) :=
  match paths with
  | [] => None
  | p :: paths => match d !! p with Some f => Some f | None => first_file d paths end
  end.

Definition delete_each (o : O) (l : list Route) : O := foldl (fun o r => (be_Delete be o r).1) o l.

Definition recover m : Manager O :=
  match first_file (disk m) (statePaths m) with
  | Some (Some rs) =>
    set_disk (set_os m (delete_each (os m) rs)) (remove_files (disk m) (statePaths m))
  | _ => m
  end.

Definition New (o : O) d paths : Manager O := recover (mkManager o d paths [] ∅ false).

Definition save m (ok : bool) : Manager O :=
  set_disk m (write_first (disk m) (statePaths m) (added m) ok).

(** Adding a route, remembering it, and saving what is remembered. *)
Definition add_route m (r : Route) (ok : bool) : Manager O * result string unit :=
  match be_Add be (os m) r with
  | (o, Err e) => (set_os m o, Err e)
  | (o, Ok _) => (save (set_added (set_os m o) (added m ++ [r])) ok, Ok tt)
  end.

Definition EnsureDefaultViaTunnel m (iface tunGateway : string) (n : Z) (ok : bool) :=
  add_route m (mkRoute "0.0.0.0/0" tunGateway iface n) ok.
Definition EnsurePeerBypass m (peerIP origIface origGateway : string) (n : Z) (ok : bool) :=
  add_route m (mkRoute (peerIP +:+ "/32") origGateway origIface n) ok.

Definition SetInterfaceMetric m (iface : string) (n : Z) : Manager O * result string unit :=
  let '(o, r) := be_GetMetric be (os m) iface in
  let m := set_os m o in
  let m := match r, metric m !! iface with
           | Ok prev, None => set_metric m (<[iface := prev]> (metric m))
           | _, _ => m
           end in
  let '(o, r) := be_SetMetric be (os m) iface n in
  (set_os m o, r).

(** The error reported is the first. *)
Definition keep_first {E} (first r : result E unit) : result E unit :=
  match first with Err _ => first | Ok _ => r end.

Definition restore_IPv6 m : Manager O * result string unit :=
  let '(o, r) := be_RestoreIPv6 be (os m) in (set_ipv6Off (set_os m o) false, r).

(** [it] is the order in which the metrics are visited. *)
Definition RemoveAll m (it : list (string * Z)) : Manager O * result string unit :=
  let '(o, first) := foldl (fun '(o, first) r =>
    let '(o, x) := be_Delete be o r in (o, keep_first first x)) (os m, Ok tt) (reverse (added m)) in
  let '(o, first) := foldl (fun '(o, first) '(iface, prev) =>
    let '(o, x) := be_SetMetric be o iface prev in (o, keep_first first x)) (o, first) it in
  let m := set_metric (set_added (set_os m o) []) ∅ in
  let '(m, first) := if ipv6Off m
    then let '(m, x) := restore_IPv6 m in (m, keep_first first x) else (m, first) in
  (set_disk m (remove_files (disk m) (statePaths m)), first).

Definition BlockIPv6 m (tunnelIface : string) : Manager O * result string unit :=
  match be_BlockIPv6 be (os m) tunnelIface with
  | (o, Err e) => (set_os m o, Err e)
  | (o, Ok _) => (set_ipv6Off (set_os m o) true, Ok tt)
  end.

Definition RestoreIPv6 m : Manager O * result string unit := restore_IPv6 m.

(** Operations whose writes succeed, and a restart: a new manager on what the
    old one left, after a crash. *)
Inductive step : Manager O → Manager O → Prop :=
| step_default m iface gw n : step m (EnsureDefaultViaTunnel m iface gw n true).1
| step_bypass m ip iface gw n : step m (EnsurePeerBypass m ip iface gw n true).1
| step_metric m iface n : step m (SetInterfaceMetric m iface n).1
| step_block m iface : step m (BlockIPv6 m iface).1
| step_restore m : step m (RestoreIPv6 m).1
| step_remove m it : step m (RemoveAll m it).1
| step_restart m : step m (New (os m) (disk m) (statePaths m)).
End manager.

(** ** What a backend promises

    [key] is what identifies a route to the system. *)
Class RouteLaws {O : Type} (be : Backend O) : Type := {
  key : Route → list string;
  routes : O → gmultiset (list string);
  law_add : ∀ o r o' x, be_Add be o r = (o', x) →
    routes o' = match x with Ok _ => routes o ⊎ {[+ key r +]} | Err _ => routes o end;
  law_delete : ∀ o r, routes (be_Delete be o r).1 = routes o ∖ {[+ key r +]};
  law_set : ∀ o i n, routes (be_SetMetric be o i n).1 = routes o;
  law_get : ∀ o i, routes (be_GetMetric be o i).1 = routes o;
  law_ipv6 : ∀ o i, routes (be_BlockIPv6 be o i).1 = routes o ∧ routes (be_RestoreIPv6 be o).1 = routes o
}.

(** The documented effect of the [ip] commands on the IPv4 table: adding a
    route adds one entry, deleting it removes one if there is any, and the
    other commands leave the table alone. *)
Class IpLaws (O : Type) `{Runner O} : Type := {
  ip_table : O → gmultiset (list string);
  ip_add_law : ∀ o r o' x, Run o "ip" (ip_add r) = (o', x) →
    ip_table o' = match x with
                  | Ok _ => ip_table o ⊎ {[+ [Dest r; Gateway r; Iface r] +]}
                  | Err _ => ip_table o
                  end;
  ip_del_law : ∀ o r, ip_table (Run o "ip" (ip_del r)).1 = ip_table o ∖ {[+ [Dest r; Gateway r; Iface r] +]};
  ip_link_law : ∀ o i n, ip_table (Run o "ip" (ip_link i n)).1 = ip_table o;
  ip_hole_law : ∀ o v, ip_table (Run o "ip" (ip_blackhole v)).1 = ip_table o
}.

(** ** Two systems to run against *)

(** A Linux routing table. *)
Definition ip_run (o : gmultiset (list string)) (args : list string)
  : gmultiset (list string) * result string string :=
  match args with
  | ["route"; "add"; d; "via"; g; "dev"; i; "metric"; _] => (o ⊎ {[+ [d; g; i] +]}, Ok "")
  | ["route"; "del"; d; "via"; g; "dev"; i] =>
    if decide ([d; g; i] ∈ o) then (o ∖ {[+ [d; g; i] +]}, Ok "")
    else (o, Err "RTNETLINK answers: No such process")
  | _ => (o, Ok "")
  end.
Definition ip_runner : Runner (gmultiset (list string)) := {|
  Run o name args := if String.eqb name "ip" then ip_run o args else (o, Err "not found") |}.

(** The commands that ran, newest first; [refuses] are answered with an error. *)
Definition log_runner (refuses : list string → bool) : Runner (list (list string)) := {|
  Run o _ args := (args :: o, if refuses args then Err "refused" else Ok "") |}.

(** ** Lemmas *)

Section laws_proofs.
Context {O : Type} (be : Backend O) `{!RouteLaws be}.
Implicit Types (m : Manager O) (base : gmultiset (list string)).

Definition keys (l : list Route) : gmultiset (list string) := list_to_set_disj (map key l).
#[local] Arguments keys _ : simpl never.

Lemma keys_cons r l : keys (r :: l) = {[+ key r +]} ⊎ keys l.
Proof. done. Qed.
Lemma keys_snoc l r : keys (l ++ [r]) = keys l ⊎ {[+ key r +]}.
Proof. unfold keys. rewrite map_app, list_to_set_disj_app. simpl. by rewrite gmultiset_disj_union_right_id. Qed.
Lemma keys_reverse l : keys (reverse l) = keys l.
Proof.
  unfold keys. apply list_to_set_disj_perm. by rewrite reverse_Permutation.
Qed.

Lemma delete_each_routes l o : routes (delete_each be o l) = routes o ∖ keys l.
Proof.
  unfold delete_each. revert o. induction l as [|r l IH]; intros o; cbn [foldl].
  { unfold keys. cbn. multiset_solver. }
  rewrite IH, law_delete, keys_cons. multiset_solver.
Qed.

(** The errors a loop collects do not matter to the routes. *)
Lemma delete_fold_routes l o first :
  routes (foldl (fun '(o, first) r => let '(o, x) := be_Delete be o r in (o, keep_first first x))
    (o, first) l).1 = routes o ∖ keys l.
Proof.
  revert o first. induction l as [|r l IH]; intros o first; cbn [foldl].
  { unfold keys. cbn. multiset_solver. }
  pose proof (law_delete o r) as Hd. destruct (be_Delete be o r) as [o' x]. cbn in Hd.
  rewrite IH, Hd, keys_cons. multiset_solver.
Qed.

Lemma metric_fold_routes it o first :
  routes (foldl (fun '(o, first) '(iface, prev) =>
    let '(o, x) := be_SetMetric be o iface prev in (o, keep_first first x))
    (o, first) it).1 = routes o.
Proof.
  revert o first. induction it as [|[i n] it IH]; intros o first; cbn [foldl]; [done|].
  pose proof (law_set o i n) as Hs. destruct (be_SetMetric be o i n) as [o' x]. cbn in Hs.
  by rewrite IH.
Qed.

Lemma remove_all_facts m it : let m' := (RemoveAll be m it).1 in
  routes (os m') = routes (os m) ∖ keys (added m) ∧ added m' = []
  ∧ disk m' = remove_files (disk m) (statePaths m) ∧ statePaths m' = statePaths m.
Proof.
  unfold RemoveAll. pose proof (delete_fold_routes (reverse (added m)) (os m) (Ok tt)) as Hd.
  destruct (foldl _ (os m, Ok tt) _) as [o1 f1]. cbn in Hd. rewrite keys_reverse in Hd.
  pose proof (metric_fold_routes it o1 f1) as Hm. destruct (foldl _ (o1, f1) it) as [o2 f2]. cbn in Hm.
  cbn [ipv6Off set_metric set_added set_os]. destruct (ipv6Off m).
  - unfold restore_IPv6. cbn [os set_metric set_added set_os].
    pose proof (proj2 (law_ipv6 o2 "")) as H6.
    destruct (be_RestoreIPv6 be o2) as [o3 x]. cbn in *. split_and!; first [done | congruence].
  - cbn. split_and!; first [done | congruence].
Qed.

(** What the manager knows about the system: its own routes are exactly those
    beyond [base], and the file names them. *)
Record tracked base m : Prop := {
  tr_routes : routes (os m) = base ⊎ keys (added m);
  tr_paths : statePaths m ≠ [];
  tr_file : first_file (disk m) (statePaths m)
            = match added m with [] => None | l => Some (Some l) end
}.

Lemma first_file_removed d paths : first_file (remove_files d paths) paths = None.
Proof.
  assert (∀ l, (∀ p, p ∈ l → p ∈ paths) → first_file (remove_files d paths) l = None) as Hl.
  { induction l as [|p l IH]; intros Hp; cbn [first_file]; [done|].
    rewrite removed_lookup, decide_True by set_solver. apply IH. set_solver. }
  by apply Hl.
Qed.

Lemma tracked_os base m o : tracked base m → routes o = routes (os m) → tracked base (set_os m o).
Proof. intros [R P F] E. split; [exact (eq_trans E R) | done | done]. Qed.

Lemma tracked_add base m r : tracked base m → tracked base (add_route be m r true).1.
Proof.
  intros T. unfold add_route. destruct (be_Add be (os m) r) as [o x] eqn:E.
  pose proof (law_add _ _ _ _ E) as Ha. destruct x as [[]|e]; [|by apply tracked_os].
  destruct T as [R P F]. split; cbn; [|done|].
  - rewrite Ha, R, keys_snoc. multiset_solver.
  - destruct (statePaths m) as [|p ps]; [done|]. cbn. rewrite lookup_insert_eq.
    by destruct (added m).
Qed.

Lemma tracked_metric base m i n : tracked base m → tracked base (SetInterfaceMetric be m i n).1.
Proof.
  intros T. unfold SetInterfaceMetric. pose proof (law_get (os m) i) as Hg.
  destruct (be_GetMetric be (os m) i) as [o1 r]. cbn in Hg.
  set (m1 := match r with Ok _ => _ | _ => _ end).
  assert (tracked base m1) as T1.
  { subst m1. destruct r; [|by apply tracked_os]. destruct (metric _ !! i); [by apply tracked_os|].
    destruct (tracked_os _ _ _ T Hg) as [R P F]. by split. }
  pose proof (law_set (os m1) i n) as Hs. destruct (be_SetMetric be (os m1) i n) as [o2 x].
  by apply tracked_os.
Qed.

Lemma tracked_remove base m it : tracked base m → tracked base (RemoveAll be m it).1
  ∧ routes (os (RemoveAll be m it).1) = base.
Proof.
  intros [R P F]. destruct (remove_all_facts m it) as (Hr & Ha & Hd & Hp).
  rewrite R in Hr. assert (routes (os (RemoveAll be m it).1) = base) as Hb by (rewrite Hr; multiset_solver).
  split; [|done]. split; rewrite ?Ha, ?Hp, ?Hd; [|done|apply first_file_removed].
  rewrite Hb. unfold keys. cbn. multiset_solver.
Qed.

Lemma tracked_restart base m : tracked base m →
  let m' := New be (os m) (disk m) (statePaths m) in tracked base m' ∧ routes (os m') = base.
Proof.
  intros [R P F]. unfold New, recover. cbn [disk statePaths os]. rewrite F.
  destruct (added m) as [|r l] eqn:Ea.
  - assert (routes (os m) = base) as Hb by (rewrite R; unfold keys; cbn; multiset_solver).
    split; [|done]. split; cbn; [|done|done]. rewrite R. done.
  - assert (routes (delete_each be (os m) (r :: l)) = base) as Hb
      by (rewrite delete_each_routes, R; multiset_solver).
    split; [|exact Hb]. split; [|done|apply first_file_removed].
    change (routes (delete_each be (os m) (r :: l)) = base ⊎ keys []). rewrite Hb.
    unfold keys. cbn. multiset_solver.
Qed.

Lemma tracked_step base m m' : step be m m' → tracked base m → tracked base m'.
Proof.
  intros [m0 ? ? ?|m0 ? ? ? ?|m0 ? ?|m0 i|m0|m0 it|m0] T.
  - by apply tracked_add.
  - by apply tracked_add.
  - by apply tracked_metric.
  - unfold BlockIPv6. pose proof (proj1 (law_ipv6 (os m0) i)) as H6.
    destruct (be_BlockIPv6 be (os m0) i) as [o [[]|e]]; cbn in *; [|by apply tracked_os].
    destruct (tracked_os _ _ _ T H6) as [R P F]. by split.
  - unfold RestoreIPv6, restore_IPv6. pose proof (proj2 (law_ipv6 (os m0) "")) as H6.
    destruct (be_RestoreIPv6 be (os m0)) as [o x]; cbn in *.
    destruct (tracked_os _ _ _ T H6) as [R P F]. by split.
  - by apply tracked_remove.
  - by apply tracked_restart.
Qed.

Lemma tracked_steps base m m' : rtc (step be) m m' → tracked base m → tracked base m'.
Proof. induction 1; eauto using tracked_step. Qed.

Lemma tracked_new o d paths : paths ≠ [] → first_file d paths = None →
  tracked (routes o) (New be o d paths).
Proof.
  intros Hp Hf. unfold New, recover. cbn [disk statePaths os]. rewrite Hf. split; cbn; [|done|done].
  unfold keys. cbn. multiset_solver.
Qed.
End laws_proofs.

(** The Linux backend keeps the contract wherever [ip] does what it documents. *)
#[export] Instance linux_laws {O} `{IpLaws O} : RouteLaws (linuxBackend (O := O)).
Proof.
  refine {| key := fun r => [Dest r; Gateway r; Iface r]; routes := ip_table |}; cbn.
  - intros o r o' x. rewrite exec_run. destruct (Run o "ip" (ip_add r)) as [o1 y] eqn:E.
    apply ip_add_law in E. destruct y; intros [= <- <-]; done.
  - intros o r. rewrite exec_run, <- (ip_del_law o r). by destruct (Run o "ip" (ip_del r)) as [o1 []].
  - intros o i n. rewrite exec_run, <- (ip_link_law o i n). by destruct (Run o "ip" _) as [o1 []].
  - done.
  - intros o i. rewrite !exec_run. split.
    + rewrite <- (ip_hole_law o "add"). by destruct (Run o "ip" _) as [o1 []].
    + rewrite <- (ip_hole_law o "del"). by destruct (Run o "ip" _) as [o1 []].
Defined.

(** ** Properties *)

(** No route outlives the tunnel. Starting on a system without leftovers, and after any sequence
    of routes added or refused, metric and IPv6 changes, removals and restarts after a crash, the
    routes of the system are those it had plus exactly the ones the manager and its file remember;
    removing them all, or restarting, leaves exactly the routes it had. *)
Theorem routes_restored {O} (be : Backend O) `{!RouteLaws be} o d paths m it :
  paths ≠ [] → first_file d paths = None → rtc (step be) (New be o d paths) m →
  routes (os m) = routes o ⊎ keys be (added m)
  ∧ routes (os (RemoveAll be m it).1) = routes o
  ∧ routes (os (New be (os m) (disk m) (statePaths m))) = routes o.
Proof.
  intros Hp Hf Hs. pose proof (tracked_steps be _ _ _ Hs (tracked_new be o d paths Hp Hf)) as T.
  split_and!; [apply T | by apply (tracked_remove be) | by apply (tracked_restart be)].
Qed.

(** ** Witnesses *)

#[local] Existing Instance ip_runner.
#[local] Instance ip_laws : IpLaws (gmultiset (list string)).
Proof.
  refine {| ip_table := id |}.
  - intros o r o' x. cbn. by intros [= <- <-].
  - intros o r. cbn. case_decide; [done|]. multiset_solver.
  - done.
  - done.
Defined.

Definition demo_table : gmultiset (list string) := {[+ ["0.0.0.0/0"; "192.168.1.1"; "eth0"] +]}.
Definition demo_started : Manager (gmultiset (list string)) :=
  (EnsurePeerBypass linuxBackend
    (EnsureDefaultViaTunnel linuxBackend (New linuxBackend demo_table ∅ ["routes.json"])
      "veilnet" "10.8.0.1" 1 true).1 "203.0.113.7" "eth0" "192.168.1.1" 1 true).1.

Lemma routes_restored_witness :
  length (added demo_started) = 2%nat
  ∧ os (New linuxBackend (os demo_started) (disk demo_started) (statePaths demo_started)) = demo_table.
Proof.
  split; [vm_compute; reflexivity|].
  refine (proj2 (proj2 (routes_restored linuxBackend demo_table ∅ ["routes.json"] demo_started []
    _ _ _))); [discriminate | reflexivity |].
  eapply rtc_l; [apply step_default|]. eapply rtc_l; [apply step_bypass|]. apply rtc_refl.
Defined.

(** ** What the model shows *)

(** Blocking IPv6 on Windows runs two commands; when the second is refused the rule of the first
    stays and is forgotten, so removing everything leaves it in place. *)
Example failed_block_leaves_rule :
  let H := log_runner (fun args => bool_decide ("ipv6" ∈ args)) in
  let m := (BlockIPv6 windowsBackend (New windowsBackend [] ∅ ["routes.json"]) "veilnet").1 in
  length (os m) = 2%nat ∧ ipv6Off m = false ∧ os (RemoveAll windowsBackend m []).1 = os m.
Proof. vm_compute. done. Qed.

(** The IPv6 block is not in the state file: after a crash nothing ever lifts it. *)
Example crash_keeps_ipv6_block :
  let H := log_runner (fun _ => false) in
  let m := (BlockIPv6 linuxBackend (New linuxBackend [] ∅ ["routes.json"]) "veilnet").1 in
  let m' := New linuxBackend (os m) (disk m) (statePaths m) in
  os m = [ip_blackhole "add"] ∧ os m' = os m ∧ os (RemoveAll linuxBackend m' []).1 = os m.
Proof. vm_compute. done. Qed.

(** A route that could not be deleted is forgotten, by the manager and by the file. *)
Example failed_delete_forgotten :
  let H := log_runner (fun args => bool_decide ("del" ∈ args)) in
  let m := (EnsureDefaultViaTunnel linuxBackend (New linuxBackend [] ∅ ["routes.json"])
              "veilnet" "10.8.0.1" 1 true).1 in
  let '(m', r) := RemoveAll linuxBackend m [] in
  r = Err "refused" ∧ added m' = [] ∧ first_file (disk m') (statePaths m') = None.
Proof. vm_compute. done. Qed.
