(* ===== verification/Dns.v ===== *)
(** * Dns: tunnel resolvers (internal/dns)

    The resolver manager ([manager.go]) over its backend interface
    ([backend.go]), and the netsh/NRPT, systemd-resolved and networksetup
    backends ([netsh.go], [resolved.go], [scutil.go]) over a command runner and
    the resolver file.  [DnsLaws] is the contract a backend keeps on the view
    of the resolvers of an interface. *)

From Stdlib Require Import ZArith Lia Ascii.
From S2P Require Import Prelude GoStrings NetIP GoText Runner.

Definition VEILNET : string := "VEILNET".
Definition CUSTOM : string := "CUSTOM".
Definition DOH : string := "DOH".
Definition SYSTEM : string := "SYSTEM".

Inductive error :=
| ErrNoResolver (mode : string) | ErrNoTemplate (s : string) | ErrMode (m : string)
| ErrBackend (e : string).

(** The resolver file: its text, if it can be read, and writing it. *)
Class ResolverFile (O : Type) : Type := {
  conf_read : O → option string;
  conf_write : O → string → O * result string unit
}.

Record Backend (O : Type) := mkBackend {
  Name : string;
  be_Current : O → string → O * list string;
  be_Set : O → string → list string → O * result string unit;
  be_RegisterDOH : O → list string → O * result string unit;
  be_Restore : O → string → list string → O * result string unit;
  be_Effective : O → string → O * list string
}.
Arguments mkBackend {_}. Arguments Name {_}. Arguments be_Current {_}. Arguments be_Set {_}.
Arguments be_RegisterDOH {_}. Arguments be_Restore {_}. Arguments be_Effective {_}.

(** ** Texts *)

Definition octet_ok (p : string) : bool :=
  let l := chars p in
  (1 <=? Z.of_nat (length l)) && (Z.of_nat (length l) <=? 3)
  && match digits l 0 with Some v => v <=? 255 | None => false end.
Definition isIP (s : string) : bool :=
  let parts := strings_Split s "."%char in
  (length parts =? 4)%nat && forallb octet_ok parts.

(** The values that pass [isIP], each once, in order. *)
Definition unique_IPs (l : list string) : list string :=
  foldl (fun out f => if isIP f && negb (bool_decide (f ∈ out)) then out ++ [f] else out) [] l.

Definition one_of (seps : list Ascii.ascii) (c : Ascii.ascii) : bool := existsb (chr c) seps.
Definition cr : Ascii.ascii := byte_of 13.

Definition parseIPs (out : string) : list string :=
  unique_IPs (strings_FieldsFunc (one_of [nl; cr; " "; ","; ":"; "("; ")"]%char) out).

Definition nameserver_in (line : string) : list string :=
  match strings_Fields (strings_TrimSpace line) with
  | [k; v] => if String.eqb k "nameserver" && isIP v then [v] else []
  | _ => []
  end.
Definition parseResolvConf (raw : string) : list string :=
  flat_map nameserver_in (strings_Split raw nl).

Definition resolvConfManaged (raw : string) : bool := strings_Contains raw "VeilNet managed".
Definition resolv_text (servers : list string) : string :=
  write_lines ("# VeilNet managed (fallback: systemd-resolved absent)"
    :: map (fun s => "nameserver " +:+ s) servers).

Definition dohTemplates : list (string * string) :=
  [("1.1.1.1", "https://cloudflare-dns.com/dns-query");
   ("1.0.0.1", "https://cloudflare-dns.com/dns-query");
   ("8.8.8.8", "https://dns.google/dns-query");
   ("8.8.4.4", "https://dns.google/dns-query");
   ("9.9.9.9", "https://dns.quad9.net/dns-query")].
Definition template (s : string) : option string :=
  snd <$> List.find (fun p => String.eqb p.1 s) dohTemplates.

Definition unknown (s : string) : bool := match template s with None => true | Some _ => false end.

Definition no_template (s : string) : string :=
  "dns: no known DoH template for " +:+ s +:+ " (refusing silent downgrade)".

(** ** Backends *)

Section backends.
Context {O : Type} `{Runner O, ResolverFile O}.

Definition errUnsupported (os : string) : string :=
  "dns: no backend on " +:+ os +:+ " (refusing to fake tunnel DNS)".
Definition unsupportedBackend (os : string) : Backend O :=
  let e := errUnsupported os in
  mkBackend ("unsupported(" +:+ os +:+ ")") (fun o _ => (o, [])) (fun o _ _ => (o, Err e))
    (fun o _ => (o, Err e)) (fun o _ _ => (o, Err e)) (fun o _ => (o, [])).

(** *** Windows: netsh and the name resolution policy table *)

Definition nrptCatchAll : string := "VeilNet-CatchAll".
Definition if_name (iface : string) : string := "name=" +:+ quoted iface.
Definition trim_commas (s : string) : string :=
  let drop := fix drop (l : list Ascii.ascii) :=
    match l with c :: l' => if chr c ","%char then drop l' else l | [] => [] end in
  of_chars (reverse (drop (reverse (drop (chars s))))).

Definition windows_Current (o : O) (iface : string) : O * list string :=
  match Run o "netsh" ["interface"; "ip"; "show"; "dns"; if_name iface] with
  | (o, Err _) => (o, [])
  | (o, Ok out) =>
    (o, flat_map (fun line => List.filter isIP (map trim_commas (strings_Fields line)))
          (strings_Split out nl))
  end.

Definition powershell (script : string) : string * list string :=
  ("powershell", ["-NoProfile"; "-NonInteractive"; "-Command"; script]).
Definition remove_script (n : string) : string :=
  "Get-DnsClientNrptRule -Name " +:+ quoted n
  +:+ " -ErrorAction SilentlyContinue | Remove-DnsClientNrptRule -Force".
Definition add_script (servers : list string) : string :=
  remove_script nrptCatchAll +:+ "; Add-DnsClientNrptRule -Namespace " +:+ quoted "."
  +:+ " -NameServers " +:+ quoted (strings_Join servers ",") +:+ " -Name " +:+ quoted nrptCatchAll
  +:+ " -Comment " +:+ quoted "VeilNet managed".

Definition add_dns (iface srv : string) (more : list string) : string * list string :=
  ("netsh", ["interface"; "ip"; "add"; "dns"; if_name iface; srv] ++ more).

(** An empty list would panic; the manager never passes one. *)
Definition windows_Set (o : O) (iface : string) (servers : list string) : O * result string unit :=
  match servers with
  | [] => (o, Err "index out of range")
  | primary :: extras =>
    match exec o "netsh" ["interface"; "ip"; "set"; "dns"; if_name iface; "static"; primary] with
    | (o, Err e) => (o, Err ("dns: set primary: " +:+ e))
    | (o, Ok _) =>
      match exec_all o (map (fun s => add_dns iface s ["index=2"]) extras) with
      | (o, Err e) => (o, Err ("dns: add resolver: " +:+ e))
      | (o, Ok _) =>
        match exec_all o [powershell (add_script servers)] with
        | (o, Err e) => (o, Err ("dns: NRPT: " +:+ e))
        | (o, Ok _) => (o, Ok tt)
        end
      end
    end
  end.

Fixpoint windows_RegisterDOH (o : O) (servers : list string) : O * result string unit :=
  match servers with
  | [] => (o, Ok tt)
  | s :: servers =>
    match template s with
    | None => (o, Err (no_template s))
    | Some tpl =>
      match exec o "netsh" ["dns"; "add"; "encryption"; "server=" +:+ s; "dohtemplate=" +:+ tpl;
                            "autoupgrade=yes"] with
      | (o, Err e) => (o, Err ("dns: register DoH for " +:+ s +:+ ": " +:+ e))
      | (o, Ok _) => windows_RegisterDOH o servers
      end
    end
  end.

Definition windows_Restore (o : O) (iface : string) (prior : list string) : O * result string unit :=
  let o := exec_each o [powershell (remove_script nrptCatchAll)] in
  let '(o, first) := exec o "netsh" ["interface"; "ip"; "set"; "dns"; if_name iface; "dhcp"] in
  foldl (fun '(o, first) srv =>
    let '(o, r) := exec o (add_dns iface srv []).1 (add_dns iface srv []).2 in
    (o, match first with Err _ => first | Ok _ => r end)) (o, first) prior.

Definition get_addresses : string :=
  "Get-DnsClientServerAddress -AddressFamily IPv4 | Select-Object -ExpandProperty ServerAddresses".
Definition windows_Effective (o : O) (iface : string) : O * list string :=
  match Run o (powershell get_addresses).1 (powershell get_addresses).2 with
  | (o, Err _) => windows_Current o iface
  | (o, Ok out) => (o, unique_IPs (strings_FieldsFunc (one_of [nl; cr; " "; ","]%char) out))
  end.

Definition windowsBackend : Backend O :=
  mkBackend "netsh-nrpt" windows_Current windows_Set windows_RegisterDOH windows_Restore
    windows_Effective.

(** *** Linux: systemd-resolved, or the resolver file *)

Definition hasResolved (o : O) : O * bool :=
  let '(o, r) := Run o "resolvectl" ["--version"] in (o, is_ok r).

Definition conf_servers (o : O) : list string :=
  match conf_read o with Some raw => parseResolvConf raw | None => [] end.
Definition writeResolvConf (o : O) (servers : list string) : O * result string unit :=
  conf_write o (resolv_text servers).

Definition linux_Current (o : O) (iface : string) : O * list string :=
  let '(o, has) := hasResolved o in
  if has then
    match Run o "resolvectl" ["dns"; iface] with
    | (o, Err _) => (o, [])
    | (o, Ok out) => (o, parseIPs out)
    end
  else (o, conf_servers o).

Definition linux_Set (o : O) (iface : string) (servers : list string) : O * result string unit :=
  let '(o, has) := hasResolved o in
  if has then
    match exec o "resolvectl" (["dns"; iface] ++ servers) with
    | (o, Err e) => (o, Err ("dns: resolvectl dns: " +:+ e))
    | (o, Ok _) =>
      match exec o "resolvectl" ["domain"; iface; "~."] with
      | (o, Err e) => (o, Err ("dns: resolvectl domain: " +:+ e))
      | (o, Ok _) => (o, Ok tt)
      end
    end
  else writeResolvConf o servers.

(** Both refuse, with the template check first. *)
Definition no_DOH (os : string) (servers : list string) : result string unit :=
  match List.find unknown servers with
  | Some s => Err (no_template s)
  | None => Err ("dns: DoH registration needs Windows 11 (netsh dns encryption); "
                 +:+ fmt_d (Z.of_nat (length servers)) +:+ " server(s) not registered on " +:+ os
                 +:+ " (use VEILNET/CUSTOM)")
  end.

Definition linux_Restore (o : O) (iface : string) (prior : list string) : O * result string unit :=
  let '(o, has) := hasResolved o in
  if has then
    match exec o "resolvectl" ["revert"; iface] with
    | (o, Err e) => (o, Err ("dns: resolvectl revert: " +:+ e))
    | (o, Ok _) =>
      match conf_read o with
      | Some raw => if resolvConfManaged raw then writeResolvConf o prior else (o, Ok tt)
      | None => (o, Ok tt)
      end
    end
  else writeResolvConf o prior.

Definition linux_Effective (o : O) (iface : string) : O * list string :=
  let '(o, has) := hasResolved o in
  if has then
    match Run o "resolvectl" ["dns"; iface] with
    | (o, Ok out) => match parseIPs out with [] => (o, conf_servers o) | got => (o, got) end
    | (o, Err _) => (o, conf_servers o)
    end
  else (o, conf_servers o).

Definition linuxBackend : Backend O :=
  mkBackend "systemd-resolved" linux_Current linux_Set (fun o l => (o, no_DOH "linux" l))
    linux_Restore linux_Effective.

(** *** macOS: networksetup, scutil for leaks *)

Definition ns_get (iface : string) : list string := ["-getdnsservers"; iface].
Definition ns_set (iface : string) (l : list string) : list string := ["-setdnsservers"; iface] ++ l.
Definition none_set : string := "There aren't any".

Definition darwin_answer (out : string) : list string :=
  if strings_Contains out none_set then [] else parseIPs out.

Definition darwin_Current (o : O) (iface : string) : O * list string :=
  match Run o "networksetup" (ns_get iface) with
  | (o, Err _) => (o, [])
  | (o, Ok out) => (o, darwin_answer out)
  end.

Definition darwin_Set (o : O) (iface : string) (servers : list string) : O * result string unit :=
  match exec o "networksetup" (ns_set iface servers) with
  | (o, Err e) => (o, Err ("dns: networksetup set: " +:+ e
      +:+ " (service name must match the tunnel service; see docs/PLATFORM.md)"))
  | (o, Ok _) => (o, Ok tt)
  end.

Definition darwin_Restore (o : O) (iface : string) (prior : list string) : O * result string unit :=
  match exec o "networksetup" (ns_set iface match prior with [] => ["Empty"] | _ => prior end) with
  | (o, Err e) => (o, Err ("dns: networksetup restore: " +:+ e))
  | (o, Ok _) => (o, Ok tt)
  end.

(** The address of a line [nameserver\[n\] : address]. *)
Definition scutil_line (line : string) : list string :=
  let line := strings_TrimSpace line in
  if strings_HasPrefix line "nameserver[" then
    match strings_Cut (of_chars (drop 11 (chars line))) ":"%char with
    | Some (_, ip) => [strings_TrimSpace ip]
    | None => []
    end
  else [].

Definition darwin_scutil (o : O) : O * list string :=
  match Run o "scutil" ["--dns"] with
  | (o, Err _) => (o, [])
  | (o, Ok out) => (o, unique_IPs (flat_map scutil_line (strings_Split out nl)))
  end.
Definition darwin_Effective (o : O) (iface : string) : O * list string :=
  match Run o "networksetup" (ns_get iface) with
  | (o, Ok out) => match darwin_answer out with [] => darwin_scutil o | got => (o, got) end
  | (o, Err _) => darwin_scutil o
  end.

Definition darwinBackend : Backend O :=
  mkBackend "networksetup" darwin_Current darwin_Set (fun o l => (o, no_DOH "darwin" l))
    darwin_Restore darwin_Effective.

Definition selectBackend (sys : System) : Backend O :=
  match sys with
  | Windows => windowsBackend
  | Linux => linuxBackend
  | Darwin => darwinBackend
  | OtherSystem os => unsupportedBackend os
  end.
End backends.

(** ** The manager *)

Record snapshot := mkSnapshot {
  s_Iface : string; s_Servers : list string; s_Mode : string; s_NRPTNames : list string }.

Inductive event := DNS_CHANGED (mode : string) (servers : list string).

Record Manager (O : Type) := mkManager {
  os : O;
  disk : gmap string (option snapshot);
  snapshotPaths : list string;
  iface : string;
  mode : string;
  servers : list string;
  published : list event
}.
Arguments mkManager {_}. Arguments os {_}. Arguments disk {_}. Arguments snapshotPaths {_}.
Arguments iface {_}. Arguments mode {_}. Arguments servers {_}. Arguments published {_}.

Record LeakState := mkLeakState { Resolvers : list string; Route : string; Leaking : bool }.

Section manager.
Context {O : Type} (be : Backend O).
Implicit Types m : Manager O.

Definition New (o : O) d paths (iface : string) : Manager O :=
  mkManager o d paths iface SYSTEM [] [].

Definition set_os m (o : O) : Manager O :=
  mkManager o (disk m) (snapshotPaths m) (iface m) (mode m) (servers m) (published m).
Definition set_disk m d : Manager O :=
  mkManager (os m) d (snapshotPaths m) (iface m) (mode m) (servers m) (published m).
Definition set_mode m (md : string) (l : list string) : Manager O :=
  mkManager (os m) (disk m) (snapshotPaths m) (iface m) md l (published m).
Definition publish m (e : event) : Manager O :=
  mkManager (os m) (disk m) (snapshotPaths m) (iface m) (mode m) (servers m) (published m ++ [e]).

(** Is there a snapshot file, readable or not? *)
Definition has_snapshot m : bool :=
  existsb (fun p => match disk m !! p with Some _ => true | None => false end) (snapshotPaths m).

Definition ensureSnapshot m (ok : bool) : Manager O :=
  if has_snapshot m then m
  else
    let '(o, l) := be_Current be (os m) (iface m) in
    let m := set_os m o in
    set_disk m (write_first (disk m) (snapshotPaths m)
                  (mkSnapshot (iface m) l (mode m) ["VeilNet-CatchAll"]) ok).

Definition prior_servers m : list string :=
  match read_first (disk m) (snapshotPaths m) with Some s => s_Servers s | None => [] end.

Definition Manager_Restore m : Manager O * result error unit :=
  let '(o, r) := be_Restore be (os m) (iface m) (prior_servers m) in
  let m := set_os m o in
  let m := set_disk m (remove_files (disk m) (snapshotPaths m)) in
  (set_mode m SYSTEM [], result_map_err ErrBackend r).

(** Resolvers installed: the mode and the servers are recorded. *)
Definition installed m (md : string) (l : list string) (o : O) (r : result string unit)
  : Manager O * result error unit :=
  match r with
  | Err e => (set_os m o, Err (ErrBackend e))
  | Ok _ => (publish (set_mode (set_os m o) md l) (DNS_CHANGED md l), Ok tt)
  end.

(** The DOH case of [Apply]. *)
Definition apply_doh m (l : list string) (ok : bool) : Manager O * result error unit :=
  match List.find unknown l with
  | Some s => (m, Err (ErrNoTemplate s))
  | None =>
    let m := ensureSnapshot m ok in
    match be_RegisterDOH be (os m) l with
    | (o, Err e) => (set_os m o, Err (ErrBackend e))
    | (o, Ok _) => let '(o, r) := be_Set be o (iface m) l in installed (set_os m o) DOH l o r
    end
  end.

Definition Manager_Apply m (md : string) (l : list string) (ok : bool) : Manager O * result error unit :=
  if String.eqb md VEILNET || String.eqb md CUSTOM then
    if (length l =? 0)%nat then (m, Err (ErrNoResolver md))
    else
      let m := ensureSnapshot m ok in
      let '(o, r) := be_Set be (os m) (iface m) l in
      installed m md l o r
  else if String.eqb md DOH then
    if (length l =? 0)%nat then (m, Err (ErrNoResolver DOH))
    else apply_doh m l ok
  else if String.eqb md SYSTEM then
    match Manager_Restore m with
    | (m, Err e) => (m, Err e)
    | (m, Ok _) => (publish (set_mode m SYSTEM []) (DNS_CHANGED SYSTEM []), Ok tt)
    end
  else (m, Err (ErrMode md)).

Definition Manager_LeakState m : Manager O * LeakState :=
  let '(o, got) := be_Effective be (os m) (iface m) in
  let m := set_os m o in
  (m,
   if (length got =? 0)%nat then mkLeakState got "unknown" false
   else if String.eqb (mode m) SYSTEM then mkLeakState got "system" true
   else if forallb (fun r => bool_decide (r ∈ servers m)) got
        then mkLeakState got "tunnel" false else mkLeakState got "system" true).
End manager.

(** ** What a backend promises

    [resolvers] is what an interface resolves with, [valid] the lists a query
    can yield.  A query changes nothing and answers the resolvers; restoring a
    list, when it succeeds, installs it. *)
Class DnsLaws {O : Type} (be : Backend O) : Type := {
  resolvers : O → string → list string;
  valid : list string → Prop;
  law_current : ∀ o i o' l, be_Current be o i = (o', l) →
    l = resolvers o i ∧ valid l ∧ ∀ j, resolvers o' j = resolvers o j;
  law_effective : ∀ o i j, resolvers (be_Effective be o i).1 j = resolvers o j;
  law_restore : ∀ o i l o', valid l → be_Restore be o i l = (o', Ok tt) → resolvers o' i = l
}.

(** Operations whose snapshot writes succeed.  Restoring is only asked for
    while a snapshot exists, and is counted when it succeeds; a restart is a
    new manager on what the old one left. *)
Inductive step {O} (be : Backend O) : Manager O → Manager O → Prop :=
| step_apply m md l : md ≠ SYSTEM → step be m (Manager_Apply be m md l true).1
| step_restore m : has_snapshot m = true → (Manager_Restore be m).2 = Ok tt →
    step be m (Manager_Restore be m).1
| step_leak m : step be m (Manager_LeakState be m).1
| step_restart m : step be m (New (os m) (disk m) (snapshotPaths m) (iface m)).

(** The documented effect of [networksetup] on the list it shows. *)
Class NetworksetupLaws (O : Type) `{Runner O} : Type := {
  ns_servers : O → string → list string;
  ns_get_law : ∀ o i, ∃ out, Run o "networksetup" (ns_get i) = (o, Ok out)
    ∧ darwin_answer out = ns_servers o i;
  ns_scutil_law : ∀ o i, ns_servers (Run o "scutil" ["--dns"]).1 i = ns_servers o i;
  ns_set_law : ∀ o i l o' out, Forall (fun s => isIP s = true) l → NoDup l → l ≠ [] →
    Run o "networksetup" (ns_set i l) = (o', Ok out) → ns_servers o' i = l;
  ns_empty_law : ∀ o i o' out,
    Run o "networksetup" (ns_set i ["Empty"]) = (o', Ok out) → ns_servers o' i = []
}.

(** ** Lemmas: texts *)

Lemma split_on_all (P : Ascii.ascii → Prop) sep l : P sep →
  Forall (Forall P) (split_on sep l) → Forall P l.
Proof.
  intros Hs. induction l as [|c l IH]; cbn [split_on]; [constructor|].
  destruct (chr c sep) eqn:E.
  - apply chr_eq in E as ->. intros [_ H]%Forall_cons. constructor; auto.
  - destruct (split_on sep l) as [|f r].
    + intros [[Hc _]%Forall_cons _]%Forall_cons. constructor; auto.
    + intros [[Hc Hf]%Forall_cons Hr]%Forall_cons. constructor; auto.
Qed.

(** The bytes of an address. *)
Definition ip_char (c : Ascii.ascii) : bool :=
  chr c "."%char || (48 <=? byte_val c) && (byte_val c <=? 57).

Lemma ip_char_facts c : ip_char c = true →
  plain_char c = true ∧ one_of [nl; cr; " "; ","; ":"; "("; ")"]%char c = false ∧ c ≠ "T"%char.
Proof. destruct c as [[] [] [] [] [] [] [] []]; vm_compute; intros E; done. Qed.

Lemma digits_ip l acc n : digits l acc = Some n → Forall (fun c => ip_char c = true) l.
Proof.
  revert acc. induction l as [|c l IH]; intros acc; cbn [digits]; [constructor|].
  unfold digit. destruct ((0 <=? byte_val c - 48) && (byte_val c - 48 <=? 9)) eqn:E; [|done].
  intros H%IH. constructor; [|done]. unfold ip_char. zbool. apply orb_true_iff. right.
  rewrite (proj2 (Z.leb_le _ _)), (proj2 (Z.leb_le _ _)) by lia. done.
Qed.

Lemma isIP_chars s : isIP s = true → Forall (fun c => ip_char c = true) (chars s) ∧ s ≠ "".
Proof.
  intros H. split; [|by intros ->]. unfold isIP, strings_Split in H.
  apply andb_true_iff in H as [_ Ho]. apply (split_on_all _ "."%char); [reflexivity|].
  apply Forall_forall. intros p Hp. rewrite forallb_forall in Ho.
  assert (octet_ok (of_chars p) = true) as Hok by (apply Ho, in_map, list_elem_of_In, Hp).
  unfold octet_ok in Hok. rewrite chars_of_chars in Hok. apply andb_true_iff in Hok as [_ Hok].
  destruct (digits p 0) eqn:Ed; [|done]. by apply digits_ip in Ed.
Qed.

Lemma isIP_plain s : isIP s = true → forallb plain_char (chars s) = true ∧ s ≠ "".
Proof.
  intros [H Hn]%isIP_chars. split; [|done]. apply forallb_forall. intros c Hc%list_elem_of_In.
  rewrite Forall_forall in H. by apply ip_char_facts, H.
Qed.

Lemma nameserver_line s : isIP s = true → nameserver_in ("nameserver " +:+ s) = [s].
Proof.
  intros Hs. destruct (isIP_plain s Hs) as [Hp Hn]. unfold nameserver_in.
  assert (strings_TrimSpace ("nameserver " +:+ s) = "nameserver " +:+ s) as ->
    by (apply (trimmed_field "n"%char "ameserver" " "%char s); [done|done|by apply trimmed_plain|done]).
  change ("nameserver " +:+ s) with ("nameserver" +:+ " " +:+ s).
  rewrite fields_two by done. rewrite Hs. done.
Qed.

(** The part of a text before a separator, each part a word, in a written list. *)
Lemma unique_IPs_id l : Forall (fun s => isIP s = true) l → NoDup l → unique_IPs l = l.
Proof.
  intros Hl Hd. unfold unique_IPs.
  assert (∀ acc, NoDup (acc ++ l) → foldl (fun out f =>
    if isIP f && negb (bool_decide (f ∈ out)) then out ++ [f] else out) acc l = acc ++ l) as H.
  { clear Hd. induction Hl as [|x l Hx Hl IH]; intros acc Hd; cbn [foldl]; [by rewrite app_nil_r|].
    rewrite Hx, bool_decide_eq_false_2; [cbn|].
    - rewrite IH; [by rewrite <- app_assoc|]. by rewrite <- app_assoc.
    - apply NoDup_app in Hd as (_ & Hd & _). intros Hin. apply (Hd x Hin). set_solver. }
  apply (H []). done.
Qed.

(** A list written one address a line is read back. *)
Lemma parseIPs_lines l : Forall (fun s => isIP s = true) l → NoDup l →
  parseIPs (write_lines l) = l.
Proof.
  intros Hl Hd. unfold parseIPs, strings_FieldsFunc, write_lines. rewrite chars_of_chars.
  assert (map (fun s => chars s ++ [nl]) l = map (fun w => w ++ [nl]) (map chars l)) as ->
    by (by rewrite map_map).
  rewrite fields_func_lines.
  - rewrite map_map. rewrite (map_ext _ id) by apply of_chars_chars. rewrite map_id.
    by apply unique_IPs_id.
  - done.
  - apply Forall_map. eapply Forall_impl; [exact Hl|]. intros s [Hs Hn]%isIP_chars. split.
    + by apply chars_nil.
    + apply forallb_forall. intros c Hc%list_elem_of_In. rewrite Forall_forall in Hs.
      by rewrite (proj1 (proj2 (ip_char_facts c (Hs c Hc)))).
Qed.

Lemma contains_cons b s sub : strings_Contains (String.String b s) sub
  = String.prefix sub (String.String b s) || strings_Contains s sub.
Proof.
  unfold strings_Contains. cbn [String.index]. destruct (String.prefix _ _); [done|].
  by destruct (String.index 0 sub s).
Qed.

Lemma contains_chars s sub c : strings_Contains s sub = true → c ∈ chars sub → c ∈ chars s.
Proof.
  induction s as [|b s IH]; [destruct sub; [set_solver|done]|]. rewrite contains_cons.
  intros [H|H]%orb_true_iff Hc; [|right; by apply IH].
  apply prefix_chars in H as [r Hr]. rewrite Hr. set_solver.
Qed.

Lemma contains_app s r sub : strings_Contains s sub = true → strings_Contains (s +:+ r) sub = true.
Proof.
  induction s as [|b s IH]; [by destruct sub; [destruct r|]|].
  change (String.String b s +:+ r) with (String.String b (s +:+ r)). rewrite !contains_cons.
  intros [H|H]%orb_true_iff; apply orb_true_iff; [left|right; by apply IH].
  by apply (prefix_app sub (String.String b s) r).
Qed.

(** ** Lemmas: the manager *)

Section ensure_proofs.
Context {O : Type} (be : Backend O).
Lemma ensure_frame (m : Manager O) ok : let m' := ensureSnapshot be m ok in
  iface m' = iface m ∧ mode m' = mode m ∧ servers m' = servers m ∧ published m' = published m.
Proof.
  unfold ensureSnapshot. destruct (has_snapshot m); [done|]. by destruct (be_Current _ _ _).
Qed.

Lemma apply_mode (m : Manager O) md l ok d : Manager_Apply be m md l ok = (d, Ok tt) → mode d = md.
Proof.
  unfold Manager_Apply, apply_doh. destruct (_ || _).
  { destruct (_ =? _)%nat; [done|]. destruct (be_Set _ _ _ _) as [o [[]|e]]; [by intros [= <-]|done]. }
  destruct (String.eqb_spec md DOH) as [->|].
  { destruct (_ =? _)%nat; [done|]. destruct (List.find unknown l); [done|].
    destruct (be_RegisterDOH _ _ _) as [o [[]|e]]; [|done].
    destruct (be_Set _ _ _ _) as [o' [[]|e]]; [by intros [= <-]|done]. }
  destruct (String.eqb_spec md SYSTEM) as [->|]; [|done].
  destruct (Manager_Restore be m) as [m' [[]|e]]; [by intros [= <-]|done].
Qed.
End ensure_proofs.

Section manager_proofs.
Context {O : Type} (be : Backend O) `{!DnsLaws be}.
Implicit Types (m : Manager O) (base : list string).

(** While a snapshot exists it holds the original resolvers; otherwise they
    are in place. *)
Definition saved base m : Prop := snapshotPaths m ≠ [] ∧
  if has_snapshot m then prior_servers m = base ∧ valid base
  else resolvers (os m) (iface m) = base.

Lemma saved_os base m m' : has_snapshot m = true → saved base m →
  disk m' = disk m → snapshotPaths m' = snapshotPaths m → saved base m' ∧ has_snapshot m' = true.
Proof.
  unfold saved, has_snapshot, prior_servers. intros Hs [Hp Hb] -> ->. rewrite Hs in *. done.
Qed.

Lemma snapshot_written m s : snapshotPaths m ≠ [] →
  has_snapshot (set_disk m (write_first (disk m) (snapshotPaths m) s true)) = true
  ∧ prior_servers (set_disk m (write_first (disk m) (snapshotPaths m) s true)) = s_Servers s.
Proof.
  intros Hp. unfold has_snapshot, prior_servers. cbn [disk snapshotPaths set_disk].
  rewrite read_written_file by done. split; [|done]. destruct (snapshotPaths m) as [|p l]; [done|].
  cbn. by rewrite lookup_insert_eq.
Qed.

Lemma saved_ensure base m : saved base m →
  saved base (ensureSnapshot be m true) ∧ has_snapshot (ensureSnapshot be m true) = true.
Proof.
  intros [Hp Hb]. unfold ensureSnapshot. destruct (has_snapshot m) eqn:Hs.
  { split; [|done]. split; [done|]. by rewrite Hs. }
  destruct (be_Current be (os m) (iface m)) as [o l] eqn:E.
  destruct (law_current _ _ _ _ E) as (-> & Hv & _). rewrite Hb in *.
  set (m1 := set_os m o).
  destruct (snapshot_written m1 (mkSnapshot (iface m1) base (mode m1) ["VeilNet-CatchAll"]) Hp)
    as [H1 H2].
  split; [|exact H1]. split; [done|]. by rewrite H1, H2.
Qed.

Lemma installed_frame m md l o r : let m' := (installed m md l o r).1 in
  disk m' = disk m ∧ snapshotPaths m' = snapshotPaths m.
Proof. by destruct r. Qed.

Lemma saved_apply base m md l : md ≠ SYSTEM → saved base m →
  saved base (Manager_Apply be m md l true).1.
Proof.
  intros Hm Hs. unfold Manager_Apply. rewrite (proj2 (String.eqb_neq md SYSTEM) Hm).
  destruct (saved_ensure base m Hs) as [He Hh]. set (m1 := ensureSnapshot be m true) in *.
  destruct (_ || _).
  - destruct (_ =? _)%nat; [done|]. destruct (be_Set be (os m1) (iface m1) l) as [o r].
    by eapply (saved_os base m1); [..|apply installed_frame|apply installed_frame].
  - destruct (String.eqb md DOH); [|done]. destruct (_ =? _)%nat; [done|].
    unfold apply_doh. fold m1. destruct (List.find unknown l); [done|]. destruct (be_RegisterDOH be (os m1) l) as [o [[]|e]].
    + destruct (be_Set be o (iface m1) l) as [o' r].
      eapply (saved_os base m1); [done|done|..]; by destruct r.
    + by eapply (saved_os base m1).
Qed.

Lemma saved_new o d paths i : paths ≠ [] → Forall (fun p => d !! p = None) paths →
  saved (resolvers o i) (New o d paths i).
Proof.
  intros Hp Hd. split; [done|]. assert (has_snapshot (New o d paths i) = false) as ->; [|done].
  apply not_true_iff_false. unfold has_snapshot. rewrite existsb_exists.
  intros (p & Hin%list_elem_of_In & Hl). rewrite Forall_forall in Hd. cbn in Hl.
  by rewrite (Hd p Hin) in Hl.
Qed.

(** What applying resolvers records when it succeeds. *)
Lemma apply_recorded base m md l d : md ≠ SYSTEM → saved base m →
  Manager_Apply be m md l true = (d, Ok tt) →
  has_snapshot d = true ∧ mode d = md ∧ servers d = l.
Proof.
  intros Hm Hs. destruct (saved_ensure base m Hs) as [_ Hh]. set (m1 := ensureSnapshot be m true) in *.
  unfold Manager_Apply. rewrite (proj2 (String.eqb_neq md SYSTEM) Hm).
  destruct (_ || _).
  { destruct (_ =? _)%nat; [done|]. fold m1. destruct (be_Set be (os m1) (iface m1) l) as [o [[]|e]]; [|done].
    by intros [= <-]. }
  destruct (String.eqb_spec md DOH) as [->|]; [|done]. destruct (_ =? _)%nat; [done|].
  unfold apply_doh. fold m1. destruct (List.find unknown l); [done|].
  destruct (be_RegisterDOH be (os m1) l) as [o [[]|e]]; [|done].
  destruct (be_Set be o (iface m1) l) as [o' [[]|e]]; [|done]. by intros [= <-].
Qed.

Lemma restore_facts m : let m' := (Manager_Restore be m).1 in
  has_snapshot m' = false ∧ snapshotPaths m' = snapshotPaths m ∧ iface m' = iface m
  ∧ os m' = (be_Restore be (os m) (iface m) (prior_servers m)).1.
Proof.
  unfold Manager_Restore. destruct (be_Restore _ _ _ _) as [o r]. cbn [fst set_mode set_disk set_os
    disk snapshotPaths iface os]. split_and!; try done.
  unfold has_snapshot. cbn [disk snapshotPaths set_mode set_disk set_os].
  apply not_true_iff_false. rewrite existsb_exists. intros (p & Hp%list_elem_of_In & Hl).
  by rewrite removed_lookup, decide_True in Hl.
Qed.

Lemma saved_restore base m : has_snapshot m = true → (Manager_Restore be m).2 = Ok tt →
  saved base m → saved base (Manager_Restore be m).1
  ∧ resolvers (os (Manager_Restore be m).1) (iface m) = base.
Proof.
  intros Hh Hr [Hp Hb]. rewrite Hh in Hb. destruct Hb as [Hb Hv].
  destruct (restore_facts m) as (H1 & H2 & H3 & H4).
  assert (resolvers (os (Manager_Restore be m).1) (iface m) = base) as He.
  { rewrite H4. unfold Manager_Restore in Hr. rewrite Hb in *.
    destruct (be_Restore be (os m) (iface m) base) as [o [[]|e]] eqn:E; [|done]. cbn.
    by apply (law_restore _ _ _ _ Hv E). }
  split; [|done]. split; [by rewrite H2|]. rewrite H1, H3. done.
Qed.

Lemma saved_leak base m : saved base m → saved base (Manager_LeakState be m).1.
Proof.
  intros [Hp Hb]. unfold Manager_LeakState.
  pose proof (law_effective (os m) (iface m) (iface m)) as He.
  destruct (be_Effective be (os m) (iface m)) as [o got]. cbn in He.
  split; [done|]. unfold has_snapshot, prior_servers in *. cbn. destruct (existsb _ _); [done|].
  by rewrite He.
Qed.

Lemma manager_step_frame m m' : step be m m' → iface m' = iface m.
Proof.
  intros [m0 md l _|m0 _ _|m0|m0]; [| |unfold Manager_LeakState; by destruct (be_Effective _ _ _)|done].
  - assert (iface (ensureSnapshot be m0 true) = iface m0) as He.
    { apply ensure_frame. }
    unfold Manager_Apply, apply_doh, Manager_Restore, installed.
    repeat (case_match; simplify_eq/=; try done).
  - by destruct (restore_facts m0) as (_ & _ & H & _).
Qed.

Lemma saved_step base m m' : step be m m' → saved base m → saved base m'.
Proof.
  intros [m0 md l Hm|m0 Hh Hr|m0|m0]; [by apply saved_apply|by intros [? _]%saved_restore|
    apply saved_leak|done].
Qed.

Lemma saved_steps base m m' : rtc (step be) m m' → saved base m →
  saved base m' ∧ iface m' = iface m.
Proof.
  induction 1 as [m|m1 m2 m3 H1 H2 IH]; [done|]. intros Hs.
  destruct (IH (saved_step base m1 m2 H1 Hs)) as [Hs3 ->]. split; [done|]. by apply manager_step_frame.
Qed.
End manager_proofs.

(** ** Lemmas: macOS and the resolver file as backends *)

Definition valid_ips (l : list string) : Prop := Forall (fun s => isIP s = true) l ∧ NoDup l.

Lemma unique_IPs_valid l : valid_ips (unique_IPs l).
Proof.
  unfold unique_IPs. assert (∀ acc, valid_ips acc → valid_ips (foldl (fun out f =>
    if isIP f && negb (bool_decide (f ∈ out)) then out ++ [f] else out) acc l)) as H.
  { induction l as [|x l IH]; intros acc Ha; cbn [foldl]; [done|]. apply IH.
    destruct (isIP x) eqn:Ei; [|done]. case_bool_decide as Hx; [done|]. cbn.
    destruct Ha as [Hf Hd]. split; [by apply Forall_app; split; [|by apply Forall_singleton]|].
    apply NoDup_app. split_and!; [done|set_solver|apply NoDup_singleton]. }
  apply H. split; constructor.
Qed.

Lemma parse_resolv_text l : Forall (fun s => isIP s = true) l → parseResolvConf (resolv_text l) = l.
Proof.
  intros Hl. unfold parseResolvConf, resolv_text. rewrite split_write_lines.
  - rewrite flat_map_app. cbn [flat_map app]. rewrite app_nil_r.
    change (nameserver_in "# VeilNet managed (fallback: systemd-resolved absent)") with (@nil string).
    cbn [app]. rewrite flat_map_concat_map, map_map.
    induction Hl as [|x l Hx Hl IH]; cbn [map concat]; [done|].
    rewrite nameserver_line, IH by done. done.
  - constructor; [by apply (bool_decide_unpack _); vm_compute|]. apply Forall_map.
    eapply Forall_impl; [exact Hl|]. intros s [Hp _]%isIP_plain.
    cbn -[chars]. change (chars (String.append "nameserver " s)) with (chars "nameserver " ++ chars s).
    assert (nl ∉ chars "nameserver ") as Hk by by apply (bool_decide_unpack _); vm_compute.
    intros [H|H]%elem_of_app; [by apply Hk|]. by apply (plain_no_nl (chars s)).
Qed.

(** [networksetup] restores what it showed. *)
#[export] Instance darwin_laws {O} `{NetworksetupLaws O} : DnsLaws (darwinBackend (O := O)).
Proof.
  refine {| resolvers := ns_servers; valid := valid_ips |}.
  - intros o i o' l. cbn [be_Current darwinBackend]. unfold darwin_Current.
    destruct (ns_get_law o i) as (out & -> & Hout). intros [= <- <-]. split_and!; [done| |done].
    unfold darwin_answer. destruct (strings_Contains _ _); [split; constructor|].
    apply unique_IPs_valid.
  - intros o i j. cbn [be_Effective darwinBackend]. unfold darwin_Effective.
    destruct (ns_get_law o i) as (out & -> & _). destruct (darwin_answer out); [|done].
    unfold darwin_scutil. pose proof (ns_scutil_law o j) as Hs.
    destruct (Run o "scutil" ["--dns"]) as [o1 [x|x]]; exact Hs.
  - intros o i l o' [Hf Hd]. cbn [be_Restore darwinBackend]. unfold darwin_Restore, exec.
    destruct (Run o "networksetup" _) as [o1 [x|x]] eqn:E; [|done]. intros [= <-].
    destruct l as [|s l]; [by apply ns_empty_law in E|]. by apply ns_set_law in E.
Defined.

(** A system without [resolvectl], whose resolver file keeps what is written. *)
Class ConfLaws (O : Type) `{Runner O, ResolverFile O} : Type := {
  conf_no_resolved : ∀ o, ∃ e, Run o "resolvectl" ["--version"] = (o, Err e);
  conf_write_law : ∀ o t o', conf_write o t = (o', Ok tt) → conf_read o' = Some t
}.

#[export] Instance linux_conf_laws {O} `{ConfLaws O} : DnsLaws (linuxBackend (O := O)).
Proof.
  refine {| resolvers := fun o _ => conf_servers o; valid := Forall (fun s => isIP s = true) |}.
  - intros o i o' l. cbn [be_Current linuxBackend]. unfold linux_Current, hasResolved.
    destruct (conf_no_resolved o) as [e ->]. cbn. intros [= <- <-]. split_and!; [done| |done].
    unfold conf_servers, parseResolvConf. destruct (conf_read o) as [raw|]; [|constructor].
    apply Forall_forall. intros s (line & Hline & Hin)%list_elem_of_In%in_flat_map.
    unfold nameserver_in in Hin. repeat case_match; try done. zbool. destruct Hin as [<-|[]].
    by destruct_and?.
  - intros o i j. cbn [be_Effective linuxBackend]. unfold linux_Effective, hasResolved.
    by destruct (conf_no_resolved o) as [e ->].
  - intros o i l o' Hl. cbn [be_Restore linuxBackend]. unfold linux_Restore, hasResolved.
    destruct (conf_no_resolved o) as [e ->]. cbn [is_ok]. unfold writeResolvConf.
    intros Hw%conf_write_law. unfold conf_servers. rewrite Hw. by apply parse_resolv_text.
Defined.

(** ** Properties *)

(** over any run that starts without a snapshot - resolvers applied in any
    mode, leak checks, restarts that lose the manager's memory, successful
    restores - either no snapshot is left and the interface resolves as it did
    at the start, or a snapshot exists and restoring it, if the backend
    succeeds, brings the original resolvers back and clears the snapshot. *)
Theorem resolvers_restored {O} (be : Backend O) `{!DnsLaws be} o d paths i m :
  paths ≠ [] → Forall (fun p => d !! p = None) paths → rtc (step be) (New o d paths i) m →
  if has_snapshot m then
    (Manager_Restore be m).2 = Ok tt →
    resolvers (os (Manager_Restore be m).1) i = resolvers o i
    ∧ has_snapshot (Manager_Restore be m).1 = false
  else resolvers (os m) i = resolvers o i.
Proof.
  intros Hp Hd Hsteps.
  destruct (saved_steps be _ _ _ Hsteps (saved_new be o d paths i Hp Hd)) as [Hs' Hi]. cbn in Hi.
  destruct (has_snapshot m) eqn:Hh.
  - intros Hr. destruct (saved_restore be _ _ Hh Hr Hs') as [_ He]. rewrite Hi in He.
    split; [done|]. apply (restore_facts be m).
  - destruct Hs' as [_ Hb]. rewrite Hh in Hb. by rewrite Hi in Hb.
Qed.

(** the resolver file written for a list of addresses is marked as managed
    and read back as the same list. *)
Theorem resolv_conf_roundtrip l : Forall (fun s => isIP s = true) l →
  parseResolvConf (resolv_text l) = l ∧ resolvConfManaged (resolv_text l) = true.
Proof.
  intros Hl. split; [by apply parse_resolv_text|]. unfold resolvConfManaged, resolv_text.
  set (rest := map _ l). assert (write_lines ("# VeilNet managed (fallback: systemd-resolved absent)" :: rest)
    = "# VeilNet managed" +:+ write_lines (" (fallback: systemd-resolved absent)" :: rest)) as -> by done.
  by apply contains_app.
Qed.

(** DNS over HTTPS is never quietly downgraded.  With a resolver that has
    no known template, nothing is touched; when applying it succeeds the system
    is Windows, every resolver has a template and was registered before the
    resolvers were set, and the manager records the mode; when it fails the
    recorded mode and resolvers are what they were. *)
Theorem doh_never_downgrades {O} `{Runner O, ResolverFile O} sys (m : Manager O) l ok m' r :
  Manager_Apply (selectBackend sys) m DOH l ok = (m', r) →
  (Exists (fun s => template s = None) l → m' = m ∧ is_ok r = false)
  ∧ (r = Ok tt → sys = Windows ∧ l ≠ [] ∧ Forall (fun s => template s ≠ None) l
      ∧ mode m' = DOH ∧ servers m' = l
      ∧ ∃ o1 o2, windows_RegisterDOH o1 l = (o2, Ok tt)
          ∧ windows_Set o2 (iface m') l = (os m', Ok tt))
  ∧ (r ≠ Ok tt → mode m' = mode m ∧ servers m' = servers m ∧ published m' = published m).
Proof.
  intros HA. assert (Manager_Apply (selectBackend sys) m DOH l ok = if (length l =? 0)%nat
    then (m, Err (ErrNoResolver DOH)) else apply_doh (selectBackend sys) m l ok) as HD by done.
  rewrite HA in HD. clear HA. destruct (ensure_frame (selectBackend sys) m ok) as (Hi & Hm & Hs & Hp).
  destruct l as [|s0 l0]; cbn [length Nat.eqb] in HD.
  { injection HD as -> ->. split_and!; done. }
  set (l := s0 :: l0) in *. unfold apply_doh in HD.
  destruct (List.find unknown l) as [s|] eqn:Ef.
  { injection HD as -> ->. split_and!; done. }
  assert (Forall (fun s => template s ≠ None) l) as Hk.
  { apply Forall_forall. intros s Hin%list_elem_of_In Ht.
    pose proof (List.find_none _ _ Ef s Hin) as E. unfold unknown in E. by rewrite Ht in E. }
  assert (¬ Exists (fun s => template s = None) l) as Hx.
  { intros (s & Hin & Ht)%Exists_exists. rewrite Forall_forall in Hk. by apply (Hk s). }
  set (m1 := ensureSnapshot (selectBackend sys) m ok) in *.
  destruct (be_RegisterDOH (selectBackend sys) (os m1) l) as [o1 [[]|e]] eqn:ER; cycle 1.
  { injection HD as -> ->. by split_and!. }
  destruct (be_Set (selectBackend sys) o1 (iface m1) l) as [o2 [[]|e]] eqn:ES; cycle 1.
  { injection HD as -> ->. by split_and!. }
  injection HD as -> ->. split_and!; [done|intros _|done].
  destruct sys; cbn in ER; unfold no_DOH in ER; rewrite ?Ef in ER; try done.
  split_and!; try done. exists (os m1), o1. split; [done|]. cbn. done.
Qed.

(** ** Witnesses *)

(** A [networksetup] that keeps a list for each service. *)
Module toy.
Definition shown (o : gmap string (list string)) (i : string) : list string :=
  unique_IPs (default [] (o !! i)).
Definition answer (l : list string) : string :=
  match l with [] => none_set +:+ " DNS Servers set." | _ => write_lines l end.
#[local] Instance runner : Runner (gmap string (list string)) := { Run o name args :=
  match args with
  | ["-getdnsservers"; i] => (o, Ok (answer (shown o i)))
  | "-setdnsservers" :: i :: l => (<[i := if bool_decide (l = ["Empty"]) then [] else l]> o, Ok "")
  | _ => (o, Ok "")
  end }.
#[local] Instance conf : ResolverFile (gmap string (list string)) :=
  { conf_read o := None; conf_write o t := (o, Err "read-only file system") }.

Lemma answer_read l : valid_ips l → darwin_answer (answer l) = l.
Proof.
  intros [Hf Hd]. unfold darwin_answer. destruct l as [|x l]; [by vm_compute|].
  change (answer (x :: l)) with (write_lines (x :: l)). destruct (strings_Contains _ _) eqn:E;
    [|by apply parseIPs_lines].
  exfalso. apply (contains_chars _ _ "T"%char) in E; [|by apply (bool_decide_unpack _); vm_compute].
  unfold write_lines in E. rewrite chars_of_chars in E.
  apply list_elem_of_In, in_concat in E as (w & (s & <- & Hs)%in_map_iff & Hw%list_elem_of_In).
  apply elem_of_app in Hw as [Hw|Hw%list_elem_of_singleton]; [|done].
  rewrite Forall_forall in Hf. apply list_elem_of_In, Hf, isIP_chars in Hs as [Hs _].
  rewrite Forall_forall in Hs. by apply Hs, ip_char_facts in Hw as (_ & _ & Hw).
Qed.

#[local] Instance laws : NetworksetupLaws (gmap string (list string)).
Proof.
  refine {| ns_servers := shown |}.
  - intros o i. exists (answer (shown o i)). split; [done|]. apply answer_read, unique_IPs_valid.
  - done.
  - intros o i l o' out Hf Hd Hn. cbn. intros [= <- _]. unfold shown. rewrite lookup_insert_eq. cbn.
    rewrite bool_decide_eq_false_2 by (intros ->; apply Forall_cons in Hf as [Hf _]; discriminate Hf).
    by apply unique_IPs_id.
  - intros o i o' out. cbn. intros [= <- _]. unfold shown. by rewrite lookup_insert_eq.
Defined.

Definition start : Manager (gmap string (list string)) :=
  New {["Wi-Fi" := ["192.168.1.1"; "192.168.1.2"]]} ∅ ["/state/dns.json"; "/home/.veilnet/dns.json"] "Wi-Fi".
Definition applied := (Manager_Apply darwinBackend start CUSTOM ["9.9.9.9"] true).1.
Definition restarted := New (os applied) (disk applied) (snapshotPaths applied) (iface applied).
End toy.

Lemma resolvers_restored_witness :
  toy.shown (os toy.restarted) "Wi-Fi" = ["9.9.9.9"]
  ∧ has_snapshot toy.restarted = true
  ∧ (Manager_Restore (@darwinBackend _ toy.runner) toy.restarted).2 = Ok tt
  ∧ toy.shown (os (Manager_Restore (@darwinBackend _ toy.runner) toy.restarted).1) "Wi-Fi"
    = ["192.168.1.1"; "192.168.1.2"].
Proof.
  split; [by vm_compute|]. split; [by vm_compute|]. split; [by vm_compute|].
  pose proof (@resolvers_restored _ (@darwinBackend _ toy.runner)
    (@darwin_laws _ toy.runner toy.laws)
    {["Wi-Fi" := ["192.168.1.1"; "192.168.1.2"]]} ∅ ["/state/dns.json"; "/home/.veilnet/dns.json"]
    "Wi-Fi" toy.restarted) as H.
  assert (has_snapshot toy.restarted = true) as E by by vm_compute. rewrite E in H.
  refine (proj1 (H _ _ _ _)); [done|by repeat constructor| |by vm_compute].
  eapply rtc_l; [apply (step_apply _ toy.start CUSTOM ["9.9.9.9"]); done|].
  eapply rtc_l; [apply (step_restart _ toy.applied)|]. constructor.
Defined.

Lemma resolv_conf_roundtrip_witness :
  parseResolvConf (resolv_text ["10.8.0.1"; "9.9.9.9"]) = ["10.8.0.1"; "9.9.9.9"].
Proof. apply resolv_conf_roundtrip. by repeat constructor. Defined.

Definition doh_applied (l : list string) : Manager (gmap string (list string)) * result error unit :=
  Manager_Apply (@selectBackend _ toy.runner toy.conf Windows) toy.start DOH l true.

Lemma doh_never_downgrades_witness :
  (doh_applied ["1.1.1.1"; "10.0.0.53"]).1 = toy.start
  ∧ mode (doh_applied ["9.9.9.9"; "1.1.1.1"]).1 = DOH.
Proof.
  split.
  - apply (@doh_never_downgrades _ toy.runner toy.conf Windows toy.start ["1.1.1.1"; "10.0.0.53"] true
      (doh_applied ["1.1.1.1"; "10.0.0.53"]).1 (doh_applied ["1.1.1.1"; "10.0.0.53"]).2).
    + reflexivity.
    + apply Exists_cons_tl, Exists_cons_hd. reflexivity.
  - refine (_ (proj1 (proj2 (@doh_never_downgrades _ toy.runner toy.conf Windows toy.start
      ["9.9.9.9"; "1.1.1.1"] true (doh_applied ["9.9.9.9"; "1.1.1.1"]).1
      (doh_applied ["9.9.9.9"; "1.1.1.1"]).2 eq_refl)) eq_refl)). intros H. apply H.
Defined.

(** ** What modelling showed *)

(** Restoring without a snapshot is not a no-op: static resolvers the user had
    are replaced by none. *)
Example restore_without_snapshot :
  toy.shown (os toy.start) "Wi-Fi" = ["192.168.1.1"; "192.168.1.2"]
  ∧ toy.shown (os (Manager_Restore (@darwinBackend _ toy.runner) toy.start).1) "Wi-Fi" = [].
Proof. split; by vm_compute. Qed.

(** An IPv6 resolver is not an address for [isIP], so it is not in the snapshot. *)
Example ipv6_resolver_lost :
  parseIPs (write_lines ["2001:db8::53"; "192.168.1.1"]) = ["192.168.1.1"].
Proof. by vm_compute. Qed.
