(* ===== verification/Cover.v ===== *)
(** * Cover: traffic shaping (internal/cover/cover.go)

    The shaper's configuration, its three modes and the cost it measures.  A
    packet is its length; what the shaper returns is the length put on the
    wire.  Counters are int64 with their wrap-around. *)

From Stdlib Require Import ZArith Lia.
From S2P Require Import Prelude Float64.

Definition OFF : string := "OFF".
Definition PAD : string := "PAD".
Definition CONSTANT : string := "CONSTANT".

Definition DefaultBuckets : list Z := [128; 256; 512; 1024; 1420].

Record Config := mkConfig {
  Mode : string;
  Buckets : list Z;
  CellSize : Z;
  Interval : duration;
  MaxOverhead : float64
}.

Inductive error :=
| ErrBucket (i : nat) | ErrBucketOrder | ErrCellSize | ErrInterval | ErrOverhead
| ErrMode (m : string).

(** The loop over the buckets; [prev] is the bucket before, if any. *)
Fixpoint check_buckets (i : nat) (prev : option Z) (l : list Z) : result error unit :=
  match l with
  | [] => Ok tt
  | b :: l =>
    if b <=? 0 then Err (ErrBucket i)
    else if match prev with Some p => b <=? p | None => false end then Err ErrBucketOrder
    else check_buckets (S i) (Some b) l
  end.

Definition Config_Validate (c : Config) : result error unit :=
  if String.eqb (Mode c) "" || String.eqb (Mode c) OFF then Ok tt
  else if String.eqb (Mode c) PAD then check_buckets 0 None (Buckets c)
  else if String.eqb (Mode c) CONSTANT then
    if CellSize c <=? 0 then Err ErrCellSize
    else if Interval c <=? 0 then Err ErrInterval
    else if f_lt (MaxOverhead c) f0 then Err ErrOverhead
    else Ok tt
  else Err (ErrMode (Mode c)).

Record Stats := mkStats {
  Packets : Z;
  RealBytes : Z;
  PadBytes : Z;
  CoverBytes : Z;
  CoverCells : Z;
  DroppedOver : Z
}.

Definition TotalBytes (s : Stats) : Z :=
  wrap_i64 (wrap_i64 (RealBytes s + PadBytes s) + CoverBytes s).

Definition Overhead (s : Stats) : float64 :=
  let added := f_of_Z (wrap_i64 (PadBytes s + CoverBytes s)) in
  if RealBytes s =? 0 then if f_eq added f0 then f0 else f_div f1 f0
  else f_div added (f_of_Z (RealBytes s)).

Record Emission := mkEmission { PayloadLen : Z; WireLen : Z; Cover : bool }.

Record Shaper := mkShaper {
  cfg : Config;
  buckets : list Z;
  stats : Stats;
  pending : list Z;
  lastIdle : time
}.

Definition set_mode (c : Config) (m : string) : Config :=
  mkConfig m (Buckets c) (CellSize c) (Interval c) (MaxOverhead c).

(** [sort.Ints]: the sorted list is the same whatever algorithm sorts it. *)
Definition sort_Ints (l : list Z) : list Z := sort_stable Z.ltb l.

Definition New (c : Config) : result error Shaper :=
  match Config_Validate c with
  | Err e => Err e
  | Ok _ =>
    let c := if String.eqb (Mode c) "" then set_mode c OFF else c in
    let bs := if String.eqb (Mode c) PAD && (length (Buckets c) =? 0)%nat
              then DefaultBuckets else Buckets c in
    Ok (mkShaper c (sort_Ints bs) (mkStats 0 0 0 0 0 0) [] 0)
  end.

(** Rounding up to the next bucket. *)
Definition padTo (bs : list Z) (n : Z) : Z :=
  match List.find (fun b => n <=? b) bs with Some b => b | None => n end.

Definition set_stats (s : Shaper) (st : Stats) : Shaper :=
  mkShaper (cfg s) (buckets s) st (pending s) (lastIdle s).
Definition set_pending (s : Shaper) (l : list Z) : Shaper :=
  mkShaper (cfg s) (buckets s) (stats s) l (lastIdle s).

(** A packet of [n] bytes with [pad] bytes of padding. *)
Definition count_packet (st : Stats) (n pad : Z) : Stats :=
  mkStats (wrap_i64 (Packets st + 1)) (wrap_i64 (RealBytes st + n)) (wrap_i64 (PadBytes st + pad))
    (CoverBytes st) (CoverCells st) (DroppedOver st).
Definition count_cover (st : Stats) (n : Z) : Stats :=
  mkStats (Packets st) (RealBytes st) (PadBytes st) (wrap_i64 (CoverBytes st + n))
    (wrap_i64 (CoverCells st + 1)) (DroppedOver st).
Definition count_dropped (st : Stats) : Stats :=
  mkStats (Packets st) (RealBytes st) (PadBytes st) (CoverBytes st) (CoverCells st)
    (wrap_i64 (DroppedOver st + 1)).

Definition Shaper_Send (s : Shaper) (n : Z) : Shaper * option Emission :=
  if n <? 0 then (s, None)
  else if String.eqb (Mode (cfg s)) CONSTANT then (set_pending s (pending s ++ [n]), None)
  else if String.eqb (Mode (cfg s)) PAD then
    let wire := padTo (buckets s) n in
    (set_stats s (count_packet (stats s) n (wrap_i64 (wire - n))), Some (mkEmission n wire false))
  else (set_stats s (count_packet (stats s) n 0), Some (mkEmission n n false)).

(** Would one more idle cell break the cap? *)
Definition over_cap (c : Config) (st : Stats) : bool :=
  f_gt (MaxOverhead c) f0
  && let added := f_of_Z (wrap_i64 (wrap_i64 (PadBytes st + CoverBytes st) + CellSize c)) in
     let real := f_of_Z (RealBytes st) in
     f_eq real f0 || f_gt (f_div added real) (MaxOverhead c).

Definition Shaper_Tick (s : Shaper) (now : time) : Shaper * option Emission :=
  if negb (String.eqb (Mode (cfg s)) CONSTANT) then (s, None)
  else
    let cell := CellSize (cfg s) in
    match pending s with
    | n :: rest =>
      let s := set_pending s rest in
      if cell <? n then
        (set_stats s (count_packet (stats s) n 0), Some (mkEmission n n false))
      else
        (set_stats s (count_packet (stats s) n (wrap_i64 (cell - n))),
         Some (mkEmission n cell false))
    | [] =>
      if over_cap (cfg s) (stats s) then (set_stats s (count_dropped (stats s)), None)
      else (mkShaper (cfg s) (buckets s) (count_cover (stats s) cell) [] now,
            Some (mkEmission 0 cell true))
    end.

Definition Shaper_Pending (s : Shaper) : Z := Z.of_nat (length (pending s)).

(** ** Executions *)

Inductive op := OpSend (n : Z) | OpTick (now : time).

Definition step (s : Shaper) (o : op) : Shaper * option Emission :=
  match o with OpSend n => Shaper_Send s n | OpTick now => Shaper_Tick s now end.

(** The shaper after the operations and everything put on the wire, in order. *)
Definition run (s : Shaper) (ops : list op) : Shaper * list Emission :=
  foldl (fun '(s, out) o =>
    let '(s', e) := step s o in (s', out ++ match e with Some e => [e] | None => [] end))
    (s, []) ops.

(** The packets the caller sent, and those the emissions carry. *)
Definition sent (ops : list op) : list Z :=
  omap (fun o => match o with OpSend n => if n <? 0 then None else Some n | OpTick _ => None end) ops.
Definition carried (es : list Emission) : list Z :=
  omap (fun e => if Cover e then None else Some (PayloadLen e)) es.
Definition covers (es : list Emission) : list Emission := List.filter Cover es.

(** What an observer may see of one emission under a configuration. *)
Definition shaped (c : Config) (bs : list Z) (e : Emission) : Prop :=
  if String.eqb (Mode c) CONSTANT then
    if Cover e then PayloadLen e = 0 ∧ WireLen e = CellSize c
    else WireLen e = Z.max (CellSize c) (PayloadLen e)
  else Cover e = false ∧
    if String.eqb (Mode c) PAD then
      (WireLen e ∈ bs ∧ PayloadLen e ≤ WireLen e
         ∧ ∀ b, b ∈ bs → PayloadLen e ≤ b → WireLen e ≤ b)
      ∨ (WireLen e = PayloadLen e ∧ ∀ b, b ∈ bs → b < PayloadLen e)
    else WireLen e = PayloadLen e.

(** A link shaped at 100-byte cells with at most half as much cover as payload. *)
Definition demo_config : Config := mkConfig CONSTANT [] 100 (10 * 1000000) f_half.
Definition demo_ops : list op :=
  [OpTick 1; OpSend 60; OpSend 250; OpTick 2; OpTick 3; OpTick 4; OpTick 5; OpSend (-1)].

(** ** Lemmas *)

#[export] Instance Zltb_weak : StrictWeak Z.ltb (fun _ => True).
Proof.
  split; intros *; rewrite ?Z.ltb_lt, ?Z.ltb_ge, ?Z.ltb_irrefl; lia.
Qed.

Lemma sort_Ints_sorted l : StronglySorted Z.le (sort_Ints l).
Proof.
  assert (StronglySorted (fun a b => (b <? a) = false) (sort_Ints l)) as HS
    by (apply (sort_stable_sorted Z.ltb (fun _ => True)), Forall_forall; done).
  induction HS as [|x k HS IH HF]; constructor; [done|].
  eapply Forall_impl; [exact HF|]. intros y. rewrite Z.ltb_ge. done.
Qed.

(** The first bucket that fits is the least that fits. *)
Lemma padTo_spec bs n : StronglySorted Z.le bs →
  (padTo bs n ∈ bs ∧ n ≤ padTo bs n ∧ ∀ b, b ∈ bs → n ≤ b → padTo bs n ≤ b)
  ∨ (padTo bs n = n ∧ ∀ b, b ∈ bs → b < n).
Proof.
  unfold padTo. induction 1 as [|x bs HS IH HF]; cbn [List.find].
  { right. split; [done|]. set_solver. }
  destruct (Z.leb_spec n x) as [Hn|Hn].
  - left. split; [by left|]. split; [done|]. intros b [->|Hb]%elem_of_cons _; [done|].
    by apply (proj1 (Forall_forall _ _) HF).
  - destruct IH as [(H1 & H2 & H3)|[H1 H2]].
    + left. split; [by right|]. split; [done|].
      intros b [->|Hb]%elem_of_cons Hle; [lia | by apply H3].
    + right. split; [done|]. intros b [->|Hb]%elem_of_cons; [lia | by apply H2].
Qed.

Lemma run_snoc s ops o : run s (ops ++ [o]) =
  let '(s', out) := run s ops in
  let '(s'', e) := step s' o in (s'', out ++ match e with Some e => [e] | None => [] end).
Proof. unfold run. rewrite foldl_app. cbn [foldl]. by destruct (foldl _ _ _). Qed.

(** The account after a sequence of operations. *)
Record account (s0 : Shaper) (ops : list op) (s : Shaper) (es : list Emission) : Prop := {
  ac_cfg : cfg s = cfg s0 ∧ buckets s = buckets s0;
  ac_queue : carried es ++ pending s = sent ops;
  ac_idle : String.eqb (Mode (cfg s0)) CONSTANT = false → pending s = [];
  ac_total : eqm64 (RealBytes (stats s) + PadBytes (stats s) + CoverBytes (stats s))
               (sum_by WireLen es);
  ac_real : RealBytes (stats s) = wrap_i64 (sum_by PayloadLen es);
  ac_packets : Packets (stats s) = wrap_i64 (Z.of_nat (length (carried es)));
  ac_cells : CoverCells (stats s) = wrap_i64 (Z.of_nat (length (covers es)));
  ac_shaped : Forall (shaped (cfg s0) (buckets s0)) es
}.

Lemma carried_snoc es e : carried (es ++ [e]) = carried es ++ if Cover e then [] else [PayloadLen e].
Proof. unfold carried. rewrite omap_app. cbn. by destruct (Cover e). Qed.
Lemma covers_snoc es e : covers (es ++ [e]) = covers es ++ if Cover e then [e] else [].
Proof. unfold covers. rewrite List.filter_app. cbn. by destruct (Cover e). Qed.
Lemma sent_snoc ops o : sent (ops ++ [o])
  = sent ops ++ match o with OpSend n => if n <? 0 then [] else [n] | OpTick _ => [] end.
Proof. unfold sent. rewrite omap_app. cbn. destruct o as [n|]; [by destruct (n <? 0) | done]. Qed.

(** A real packet joins the account: [q] is the queue it leaves. *)
Lemma account_packet s0 ops s es o n wire pad q :
  account s0 ops s es → carried es ++ [n] ++ q = sent (ops ++ [o]) →
  (String.eqb (Mode (cfg s0)) CONSTANT = false → q = []) → eqm64 (n + pad) wire →
  shaped (cfg s0) (buckets s0) (mkEmission n wire false) →
  account s0 (ops ++ [o]) (set_stats (set_pending s q) (count_packet (stats s) n pad))
    (es ++ [mkEmission n wire false]).
Proof.
  intros [[C1 C2] Q I T R P K S] Hq Hi Hw Hs. split; cbn; rewrite ?carried_snoc, ?covers_snoc; cbn.
  - done.
  - by rewrite <- app_assoc.
  - done.
  - rewrite sum_by_app, <- T. cbn. rewrite !eqm64_wrap, <- Hw. apply eq_subrelation; [typeclasses eauto | lia].
  - rewrite R, sum_by_app. cbn. wraps.
  - rewrite P, length_app. cbn. rewrite Nat2Z.inj_add. wraps.
  - by rewrite app_nil_r.
  - apply Forall_app. by repeat constructor.
Qed.

Lemma new_ok c s : New c = Ok s →
  StronglySorted Z.le (buckets s) ∧ pending s = [] ∧ stats s = mkStats 0 0 0 0 0 0.
Proof.
  unfold New. destruct (Config_Validate c); [|done]. intros [= <-]. cbn. split; [|done].
  apply sort_Ints_sorted.
Qed.

Lemma account_send s0 ops s es n : StronglySorted Z.le (buckets s0) → account s0 ops s es →
  let '(s', e) := Shaper_Send s n in
  account s0 (ops ++ [OpSend n]) s' (es ++ match e with Some e => [e] | None => [] end).
Proof.
  intros Hb Ha. pose proof Ha as [[C1 C2] Q I _ _ _ _ _]. unfold Shaper_Send. rewrite C1, C2.
  destruct (n <? 0) eqn:Hn.
  { rewrite app_nil_r. destruct Ha as [C Q' I' T R P K S]. split; auto.
    by rewrite sent_snoc, Hn, app_nil_r. }
  destruct (String.eqb (Mode (cfg s0)) CONSTANT) eqn:Hm.
  { rewrite app_nil_r. destruct Ha as [C Q' I' T R P K S].
    split; auto; cbn; [by rewrite sent_snoc, Hn, app_assoc, Q' | by rewrite Hm]. }
  assert (∀ e, shaped (cfg s0) (buckets s0) (mkEmission n e false) → ∀ pad, eqm64 (n + pad) e →
    account s0 (ops ++ [OpSend n]) (set_stats s (count_packet (stats s) n pad))
      (es ++ [mkEmission n e false])) as Hp.
  { intros e He pad Hw.
    replace (set_stats s _) with (set_stats (set_pending s []) (count_packet (stats s) n pad))
      by (unfold set_stats, set_pending; cbn; by rewrite I).
    eapply account_packet; try done. rewrite sent_snoc, Hn, <- Q, I by done. cbn.
    by rewrite app_nil_r. }
  destruct (String.eqb (Mode (cfg s0)) PAD) eqn:Hpad; apply Hp.
  - unfold shaped. rewrite Hm, Hpad. cbn. split; [done|]. by apply padTo_spec.
  - rewrite eqm64_wrap. apply eq_subrelation; [typeclasses eauto | lia].
  - unfold shaped. by rewrite Hm, Hpad.
  - apply eq_subrelation; [typeclasses eauto | lia].
Qed.

Lemma account_tick s0 ops s es now : account s0 ops s es →
  let '(s', e) := Shaper_Tick s now in
  account s0 (ops ++ [OpTick now]) s' (es ++ match e with Some e => [e] | None => [] end).
Proof.
  intros Ha. pose proof Ha as [[C1 C2] Q I T R P K S]. unfold Shaper_Tick. rewrite C1.
  assert (sent (ops ++ [OpTick now]) = sent ops) as Hs by (rewrite sent_snoc; apply app_nil_r).
  destruct (String.eqb (Mode (cfg s0)) CONSTANT) eqn:Hm; cbn [negb].
  2: { rewrite app_nil_r. split; rewrite ?Hs; auto. }
  destruct (pending s) as [|n rest] eqn:Hp.
  - destruct (over_cap (cfg s0) (stats s)).
    { rewrite app_nil_r. split; auto. cbn. by rewrite Hs, Hp. }
    split; cbn; rewrite ?carried_snoc, ?covers_snoc, ?Hs; cbn; rewrite ?app_nil_r; auto.
    + by rewrite <- Q, app_nil_r.
    + rewrite sum_by_app, <- T. cbn. rewrite eqm64_wrap.
      apply eq_subrelation; [typeclasses eauto | lia].
    + rewrite R, sum_by_app. cbn. f_equal. lia.
    + rewrite K, length_app. cbn. rewrite Nat2Z.inj_add. wraps.
    + apply Forall_app. split; [done|]. repeat constructor. unfold shaped. by rewrite Hm.
  - destruct (Z.ltb_spec (CellSize (cfg s0)) n) as [Hn|Hn];
      (eapply (account_packet s0 ops s es (OpTick now) n); [done | by rewrite Hs, <- Q | by rewrite Hm | |]).
    + apply eq_subrelation; [typeclasses eauto | lia].
    + unfold shaped. rewrite Hm. cbn. lia.
    + rewrite eqm64_wrap. apply eq_subrelation; [typeclasses eauto | lia].
    + unfold shaped. rewrite Hm. cbn. lia.
Qed.

Lemma run_account s0 ops s es : StronglySorted Z.le (buckets s0) → pending s0 = [] →
  stats s0 = mkStats 0 0 0 0 0 0 → run s0 ops = (s, es) → account s0 ops s es.
Proof.
  intros Hb Hp Hs. revert s es. induction ops as [|o ops IH] using rev_ind; intros s es.
  { intros [= <- <-]. split; rewrite ?Hs, ?Hp; done. }
  rewrite run_snoc. destruct (run s0 ops) as [s1 es1]. specialize (IH _ _ eq_refl).
  destruct o as [n|now]; cbn [step].
  - pose proof (account_send s0 ops s1 es1 n Hb IH) as Ha.
    destruct (Shaper_Send s1 n) as [s2 e]. by intros [= <- <-].
  - pose proof (account_tick s0 ops s1 es1 now IH) as Ha.
    destruct (Shaper_Tick s1 now) as [s2 e]. by intros [= <- <-].
Qed.

(** An idle cell is sent only below the cap. *)
Lemma idle_cell_cap s now e : (Shaper_Tick s now).2 = Some e → Cover e = true →
  over_cap (cfg s) (stats s) = false.
Proof.
  unfold Shaper_Tick. destruct (negb _); [done|]. destruct (pending s) as [|n rest].
  - by destruct (over_cap _ _).
  - by destruct (_ <? _); intros [= <-].
Qed.

(** ** Properties *)

(** The shaper loses, repeats and reorders nothing, and hides nothing of its cost. After any
    sequence of packets and ticks the packets carried so far followed by the queue are exactly the
    packets sent, in order; the measured total is the bytes put on the wire and the other counters
    are the packets, payload bytes and cover cells emitted, all modulo the width of the counters. *)
Theorem shaper_accounts c s0 ops s es : New c = Ok s0 → run s0 ops = (s, es) →
  carried es ++ pending s = sent ops
  ∧ (String.eqb (Mode (cfg s0)) CONSTANT = false → pending s = [])
  ∧ TotalBytes (stats s) = wrap_i64 (sum_by WireLen es)
  ∧ RealBytes (stats s) = wrap_i64 (sum_by PayloadLen es)
  ∧ Packets (stats s) = wrap_i64 (Z.of_nat (length (carried es)))
  ∧ CoverCells (stats s) = wrap_i64 (Z.of_nat (length (covers es))).
Proof.
  intros (Hb & Hp & Hs)%new_ok Hr. destruct (run_account s0 ops s es Hb Hp Hs Hr) as [_ Q I T R P K _].
  split_and!; auto. unfold TotalBytes. apply wrap_i64_eqm. by rewrite eqm64_wrap.
Qed.

(** What an observer sees of the sizes. Every emission has the shape its mode promises: in
    CONSTANT mode the cell size, or more only for a packet that does not fit a cell; in PAD mode the
    least bucket that holds the packet, or the packet's own size above all buckets; otherwise the
    packet unchanged. Idle cells are sent only while the measured overhead is within the cap. *)
Theorem emissions_shaped c s0 ops s es now e : New c = Ok s0 → run s0 ops = (s, es) →
  Forall (shaped (cfg s0) (buckets s0)) es
  ∧ ((Shaper_Tick s now).2 = Some e → shaped (cfg s0) (buckets s0) e
     ∧ (Cover e = true → over_cap (cfg s0) (stats s) = false)).
Proof.
  intros (Hb & Hp & Hs)%new_ok Hr. pose proof (run_account s0 ops s es Hb Hp Hs Hr) as Ha.
  split; [apply Ha|]. intros Ht. split.
  - pose proof (account_tick s0 ops s es now Ha) as Ha'. destruct (Shaper_Tick s now) as [s' e'].
    cbn in Ht. subst e'. pose proof (ac_shaped _ _ _ _ Ha') as HF. apply Forall_app in HF as [_ HF].
    by inversion HF.
  - destruct (ac_cfg _ _ _ _ Ha) as [<- _]. by apply (idle_cell_cap s now).
Qed.

Lemma shaper_accounts_witness : ∃ s0 s es, New demo_config = Ok s0 ∧ run s0 demo_ops = (s, es)
  ∧ map WireLen es = [100; 250; 100] ∧ carried es = [60; 250] ∧ TotalBytes (stats s) = 450.
Proof.
  destruct (New demo_config) as [s0|e] eqn:E; [|vm_compute in E; discriminate E].
  destruct (run s0 demo_ops) as [s es] eqn:Hr. exists s0, s, es.
  destruct (shaper_accounts demo_config s0 demo_ops s es E Hr) as (Hq & _ & Ht & _).
  vm_compute in E. injection E as <-. vm_compute in Hr. injection Hr as <- <-.
  split_and!; [reflexivity | vm_compute; reflexivity | reflexivity | exact Hq | exact Ht].
Defined.

Lemma emissions_shaped_witness : ∃ s0 s es, New demo_config = Ok s0 ∧ run s0 demo_ops = (s, es)
  ∧ Forall (shaped (cfg s0) (buckets s0)) es ∧ es ≠ [].
Proof.
  destruct (New demo_config) as [s0|e] eqn:E; [|vm_compute in E; discriminate E].
  destruct (run s0 demo_ops) as [s es] eqn:Hr. exists s0, s, es.
  destruct (emissions_shaped demo_config s0 demo_ops s es 6 (mkEmission 0 0 true) E Hr) as [HF _].
  split_and!; [reflexivity | done | exact HF |].
  vm_compute in E. injection E as <-. vm_compute in Hr. by injection Hr as <- <-.
Defined.

(** The cap counts padding but only stops idle cells: one-byte packets in 1000-byte cells cost a
    thousand times their payload under a cap of one half. *)
Example padding_exceeds_cap :
  let c := mkConfig CONSTANT [] 1000 1 f_half in
  match New c with
  | Ok s0 => let s := (run s0 [OpSend 1; OpTick 1]).1 in
             Overhead (stats s) = f_of_Z 999 ∧ DroppedOver (stats s) = 0
  | Err _ => False
  end.
Proof. vm_compute. done. Qed.
