(* ===== verification/Reputation.v ===== *)
(** * Reputation: evidence, gossip and scores (internal/reputation)

    Signed evidence with proofs that verify offline, signed advisory summaries,
    the local store with its file, and the 0..1 score.  The file is the
    document it holds; JSON decoding of proofs and Go's [%f] verb are
    parameters; the outcome of a write is an argument ([Some] error). *)

From Stdlib Require Import ZArith Lia Ascii Floats.SpecFloat.
From S2P Require Import Prelude Float64 GoStrings Crypto.

Definition KindDoubleSettlement : string := "double-settlement".
Definition KindForgedReceipt : string := "forged-receipt".
Definition KindLatency : string := "latency".
Definition KindUptime : string := "uptime".
Definition KindDowntime : string := "downtime".

Definition IsSlashable (kind : string) : bool :=
  String.eqb kind KindDoubleSettlement || String.eqb kind KindForgedReceipt.
Definition IsAdvisory (kind : string) : bool :=
  String.eqb kind KindLatency || String.eqb kind KindUptime || String.eqb kind KindDowntime.

Inductive error :=
| ErrPrivateKeySize | ErrReporterKeySize | ErrSigSize | ErrEvidenceSig | ErrNodeKeySize
| ErrReceiptSigSize | ErrReceiptSig | ErrProof | ErrReceiptIDs | ErrSameBodies
| ErrReceiptA (e : error) | ErrReceiptB (e : error) | ErrNodeKeys | ErrNoReceiptID
| ErrValidSignature | ErrKind (k : string) | ErrNodeID | ErrUptime | ErrLatency | ErrSamples
| ErrAdvisorySig | ErrAdvisory | ErrMarshal | ErrWrite (e : string).

Record Evidence := mkEvidence {
  Kind : string;
  NodeID : string;
  Proof : string;
  Reporter : string;
  Sig : string;
  At : time
}.

Definition bodyBytes (e : Evidence) : string :=
  Kind e +:+ "|" +:+ NodeID e +:+ "|" +:+ Proof e +:+ "|" +:+ fmt_d (Time_Unix (At e)).

(** [At] truncated to seconds, or the current second when there is none. *)
Definition stamp (at_ now : time) : time :=
  let t := Time_Truncate at_ second in
  if Time_IsZero t then Time_Truncate now second else t.

Record receiptView := mkReceiptView {
  v_ID : string;
  v_SessionID : string;
  v_NodeID : string;
  v_TokenID : string;
  v_RxBytes : Z;
  v_TxBytes : Z;
  v_Minutes : Z;
  v_Amount : Z;
  v_NodePub : string;
  v_Sig : string
}.

Definition receiptBody (r : receiptView) : string :=
  strings_Join [v_ID r; v_SessionID r; v_NodeID r; v_TokenID r; fmt_d (v_RxBytes r);
    fmt_d (v_TxBytes r); fmt_d (v_Minutes r); fmt_d (v_Amount r)] "|".

(** What the strict JSON decoder makes of a proof; [%.6f] and [%.3f]. *)
Class ProofJSON : Type := {
  decode_double : string → option (receiptView * receiptView);
  decode_forged : string → option receiptView;
  decode_object : string → bool
}.
Class FloatFmt : Type := { fmt_f : nat → float64 → string }.

Section evidence.
Context `{Ed25519, ProofJSON}.

Definition Evidence_Sign (e : Evidence) (priv : string) (now : time) : result error Evidence :=
  if negb (len priv =? ed25519_PrivateKeySize) then Err ErrPrivateKeySize
  else
    let e := mkEvidence (Kind e) (NodeID e) (Proof e) (ed25519_Public priv) (Sig e)
               (stamp (At e) now) in
    Ok (mkEvidence (Kind e) (NodeID e) (Proof e) (Reporter e)
          (ed25519_Sign priv (bodyBytes e)) (At e)).

Definition verifyReporter (e : Evidence) : result error unit :=
  if negb (len (Reporter e) =? ed25519_PublicKeySize) then Err ErrReporterKeySize
  else if negb (len (Sig e) =? ed25519_SignatureSize) then Err ErrSigSize
  else if negb (ed25519_Verify (Reporter e) (bodyBytes e) (Sig e)) then Err ErrEvidenceSig
  else Ok tt.

Definition verifyReceiptView (r : receiptView) : result error unit :=
  if negb (len (v_NodePub r) =? ed25519_PublicKeySize) then Err ErrNodeKeySize
  else if negb (len (v_Sig r) =? ed25519_SignatureSize) then Err ErrReceiptSigSize
  else if negb (ed25519_Verify (v_NodePub r) (receiptBody r) (v_Sig r)) then Err ErrReceiptSig
  else Ok tt.

Definition verifyDoubleSettlement (raw : string) : result error unit :=
  match decode_double raw with
  | None => Err ErrProof
  | Some (a, b) =>
    if String.eqb (v_ID a) "" || negb (String.eqb (v_ID a) (v_ID b)) then Err ErrReceiptIDs
    else if String.eqb (receiptBody a) (receiptBody b) then Err ErrSameBodies
    else
      let* _ := result_map_err ErrReceiptA (verifyReceiptView a) in
      let* _ := result_map_err ErrReceiptB (verifyReceiptView b) in
      if negb (String.eqb (v_NodePub a) (v_NodePub b)) then Err ErrNodeKeys else Ok tt
  end.

Definition verifyForgedReceipt (raw : string) : result error unit :=
  match decode_forged raw with
  | None => Err ErrProof
  | Some r =>
    if String.eqb (v_ID r) "" then Err ErrNoReceiptID
    else if negb (len (v_NodePub r) =? ed25519_PublicKeySize) then Err ErrNodeKeySize
    else if negb (len (v_Sig r) =? ed25519_SignatureSize) then Err ErrReceiptSigSize
    else if is_ok (verifyReceiptView r) then Err ErrValidSignature
    else Ok tt
  end.

Definition verifyProof (e : Evidence) : result error unit :=
  if String.eqb (Kind e) KindDoubleSettlement then verifyDoubleSettlement (Proof e)
  else if String.eqb (Kind e) KindForgedReceipt then verifyForgedReceipt (Proof e)
  else if decode_object (Proof e) then Ok tt else Err ErrProof.

Definition Evidence_Verify (e : Evidence) : result error unit :=
  if negb (IsSlashable (Kind e) || IsAdvisory (Kind e)) then Err (ErrKind (Kind e))
  else if String.eqb (NodeID e) "" then Err ErrNodeID
  else
    let* _ := verifyReporter e in
    verifyProof e.
End evidence.

(** ** Scores *)

Definition WBond : float64 := f_const 30 100.
Definition WUptime : float64 := f_const 30 100.
Definition WHist : float64 := f_const 40 100.
Definition BondFullDERO : float64 := f_of_Z 100.
Definition UnknownHistory : float64 := f_half.

Definition clip01 (v : float64) : float64 :=
  if f_lt v f0 then f0 else if f_gt v f1 then f1 else v.

Record ScoreInput := mkScoreInput {
  BondDERO : float64; Uptime : float64; HistoryTerm : float64; SlashedNode : bool }.

Definition Score (i : ScoreInput) : float64 :=
  if SlashedNode i then f0
  else
    let bondN := clip01 (f_div (BondDERO i) BondFullDERO) in
    clip01 (WBond * bondN + WUptime * clip01 (Uptime i) + WHist * clip01 (HistoryTerm i))%f64.

(** ** Advisory gossip *)

Record Advisory := mkAdvisory {
  a_NodeID : string;
  a_Uptime : float64;
  AvgLatencyMs : float64;
  Samples : Z;
  a_Reporter : string;
  a_Sig : string;
  a_At : time
}.

Section gossip.
Context `{Ed25519, FloatFmt}.

Definition advisory_body (a : Advisory) : string :=
  a_NodeID a +:+ "|" +:+ fmt_f 6 (a_Uptime a) +:+ "|" +:+ fmt_f 3 (AvgLatencyMs a) +:+ "|"
  +:+ fmt_d (Samples a) +:+ "|" +:+ fmt_d (Time_Unix (a_At a)).

Definition Advisory_Sign (a : Advisory) (priv : string) (now : time) : result error Advisory :=
  if negb (len priv =? ed25519_PrivateKeySize) then Err ErrPrivateKeySize
  else
    let a := mkAdvisory (a_NodeID a) (clip01 (a_Uptime a)) (AvgLatencyMs a) (Samples a)
               (ed25519_Public priv) (a_Sig a) (stamp (a_At a) now) in
    Ok (mkAdvisory (a_NodeID a) (a_Uptime a) (AvgLatencyMs a) (Samples a) (a_Reporter a)
          (ed25519_Sign priv (advisory_body a)) (a_At a)).

Definition Advisory_Verify (a : Advisory) : result error unit :=
  if String.eqb (a_NodeID a) "" then Err ErrNodeID
  else if f_lt (a_Uptime a) f0 || f_gt (a_Uptime a) f1 then Err ErrUptime
  else if f_lt (AvgLatencyMs a) f0 then Err ErrLatency
  else if Samples a <? 0 then Err ErrSamples
  else if negb (len (a_Reporter a) =? ed25519_PublicKeySize) then Err ErrReporterKeySize
  else if negb (len (a_Sig a) =? ed25519_SignatureSize) then Err ErrSigSize
  else if negb (ed25519_Verify (a_Reporter a) (advisory_body a) (a_Sig a)) then Err ErrAdvisorySig
  else Ok tt.

(** Encoding a value with a NaN or an infinity fails. *)
Definition Advisory_Marshal (encode : Advisory → string) (a : Advisory) : result error string :=
  let* _ := Advisory_Verify a in
  if f_isFinite (a_Uptime a) && f_isFinite (AvgLatencyMs a) then Ok (encode a) else Err ErrMarshal.

Definition ParseAdvisory (decode : string → option Advisory) (raw : string)
  : result error Advisory :=
  match decode raw with
  | None => Err ErrAdvisory
  | Some a => let* _ := Advisory_Verify a in Ok a
  end.
End gossip.

(** ** The store *)

Record nodeInfo := mkNodeInfo { bond : float64; uptime : float64; hasUp : bool }.
Definition no_info : nodeInfo := mkNodeInfo f0 f0 false.

(** The document of the file. *)
Record document := mkDocument {
  d_evidence : list Evidence;
  d_success : gmap string Z;
  d_fail : gmap string Z;
  d_info : gmap string nodeInfo
}.

(** [file] is what the file holds, [None] when there is none. *)
Record Store := mkStore {
  path : string;
  evidence : list Evidence;
  success : gmap string Z;
  fail : gmap string Z;
  info : gmap string nodeInfo;
  file : option document
}.

Definition Open (path : string) (file : option document) : Store :=
  match String.eqb path "", file with
  | false, Some d => mkStore path (d_evidence d) (d_success d) (d_fail d) (d_info d) file
  | _, _ => mkStore path [] ∅ ∅ ∅ file
  end.

Definition document_of (s : Store) : document :=
  mkDocument (evidence s) (success s) (fail s) (info s).

(** JSON has no NaN and no infinity. *)
Definition encodable (s : Store) : bool :=
  bool_decide (map_Forall (fun _ ni => f_isFinite (bond ni) && f_isFinite (uptime ni) = true)
                 (info s)).

Definition saveLocked (s : Store) (io : option string) : Store * result error unit :=
  if String.eqb (path s) "" then (s, Ok tt)
  else if negb (encodable s) then (s, Err ErrMarshal)
  else match io with
  | Some e => (s, Err (ErrWrite e))
  | None => (mkStore (path s) (evidence s) (success s) (fail s) (info s) (Some (document_of s)), Ok tt)
  end.

Section store.
Context `{Ed25519, ProofJSON, FloatFmt}.

Definition Store_Add (s : Store) (e : Evidence) (io : option string) : Store * result error unit :=
  match Evidence_Verify e with
  | Err v => (s, Err v)
  | Ok _ =>
    saveLocked (mkStore (path s) (evidence s ++ [e]) (success s) (fail s) (info s) (file s)) io
  end.

Definition bump (m : gmap string Z) (k : string) : gmap string Z :=
  <[k := wrap_i64 (map_count m k + 1)]> m.

Definition Store_RecordSession (s : Store) (nodeID : string) (ok : bool) (io : option string)
  : Store * result error unit :=
  if String.eqb nodeID "" then (s, Err ErrNodeID)
  else
    saveLocked (mkStore (path s) (evidence s)
      (if ok then bump (success s) nodeID else success s)
      (if ok then fail s else bump (fail s) nodeID) (info s) (file s)) io.

Definition Store_SetNodeInfo (s : Store) (nodeID : string) (b u : float64) (io : option string)
  : Store :=
  (saveLocked (mkStore (path s) (evidence s) (success s) (fail s)
    (<[nodeID := mkNodeInfo b u true]> (info s)) (file s)) io).1.

Definition EvidenceFor (s : Store) (nodeID : string) : list Evidence :=
  List.filter (fun e => String.eqb (NodeID e) nodeID) (evidence s).

Definition Store_Slashed (s : Store) (nodeID : string) : bool :=
  existsb (fun e => String.eqb (NodeID e) nodeID && IsSlashable (Kind e)) (evidence s).

Definition ratio (ok bad : Z) : float64 :=
  f_div (f_of_Z ok) (f_of_Z (wrap_i64 (ok + bad))).

Definition Store_History (s : Store) (nodeID : string) : float64 :=
  let ok := map_count (success s) nodeID in
  let bad := map_count (fail s) nodeID in
  if wrap_i64 (ok + bad) =? 0 then UnknownHistory else ratio ok bad.

Definition ReputationScore (s : Store) (nodeID : string) : float64 :=
  let ni := default no_info (info s !! nodeID) in
  let ok := map_count (success s) nodeID in
  let bad := map_count (fail s) nodeID in
  let hist := if wrap_i64 (ok + bad) >? 0 then ratio ok bad else UnknownHistory in
  let up := if hasUp ni then uptime ni else f_half in
  Score (mkScoreInput (bond ni) up hist (Store_Slashed s nodeID)).

(** [HistoryScore] adapts an optional scorer to the registry's interface. *)
Definition HistoryScore (s : option Store) (nodeID : string) : float64 :=
  match s with None => UnknownHistory | Some s => clip01 (ReputationScore s nodeID) end.

Definition Store_Summary (s : Store) (nodeID priv : string) (now : time) : result error Advisory :=
  let ok := map_count (success s) nodeID in
  let bad := map_count (fail s) nodeID in
  let ni := default no_info (info s !! nodeID) in
  let total := wrap_i64 (ok + bad) in
  let up := if hasUp ni then uptime ni
            else if total >? 0 then ratio ok bad else f_half in
  Advisory_Sign (mkAdvisory nodeID (clip01 up) f0 total "" "" (Time_Truncate now second)) priv now.

(** ** Executions *)

Inductive step : Store → Store → Prop :=
| step_add s e io : step s (Store_Add s e io).1
| step_record s n ok io : step s (Store_RecordSession s n ok io).1
| step_info s n b u io : step s (Store_SetNodeInfo s n b u io).
End store.

(** ** Lemmas *)

Lemma f0_not_nan : not_nan f0. Proof. done. Qed.
Lemma f1_not_nan : not_nan f1. Proof. done. Qed.

Definition unit_range (x : float64) : Prop := not_nan x ∧ f_le f0 x = true ∧ f_le x f1 = true.

Lemma clip01_unit x : not_nan x → unit_range (clip01 x).
Proof.
  intros Hx. unfold clip01, unit_range.
  destruct (f_lt x f0) eqn:E0; [done|].
  unfold f_gt. fold (f_lt f1 x). destruct (f_lt f1 x) eqn:E1; [done|].
  split_and!; [done|..]; by apply f_lt_false_le.
Qed.

(** A value in the unit range is finite. *)
Lemma unit_finite x : unit_range x → finite x.
Proof. by destruct x as [[]|[]| |[]]; intros (? & ? & ?). Qed.

Lemma f_div_not_nan x m e : not_nan x → not_nan (f_div x (S754_finite false m e)).
Proof.
  destruct x as [[]|[]| |[] n k]; try done; intros _; unfold f_div; cbn [SFdiv];
    destruct (SFdiv_core_binary _ _ _ _ _ _) as [[q x] l] eqn:E; apply round_aux_not_nan;
    unfold SFdiv_core_binary in E;
    match type of E with (let '(_, _) := Z.div_eucl ?a ?b in _) = _ =>
      pose proof (Z_div_mod a b) as Hd; destruct (Z.div_eucl a b) as [q' r] eqn:Eq;
      assert (0 ≤ a) by (match goal with |- 0 ≤ match ?t with _ => _ end => destruct t end;
        first [lia | apply Z.shiftl_nonneg; lia])
    end; injection E as <- _ _; nia.
Qed.

(** Values that are not NaN and not below zero; sums and products stay there. *)
Definition nonneg (x : float64) : Prop :=
  match x with
  | S754_nan | S754_infinity true | S754_finite true _ _ => False
  | _ => True
  end.

Lemma round_aux_nonneg m e l : 0 ≤ m → nonneg (binary_round_aux prec emax false m e l).
Proof.
  intros H. pose proof (round_aux_not_nan false m e l H) as Hn. revert Hn.
  unfold binary_round_aux. destruct (shr_fexp _ _ m e l) as [r1 e1].
  destruct (shr_fexp _ _ _ e1 loc_Exact) as [r2 e2].
  destruct (shr_m r2); cbn; [done| |done]. by destruct (_ <=? _).
Qed.

Lemma f_add_nonneg x y : nonneg x → nonneg y → nonneg (f_add x y).
Proof.
  destruct x as [[]|[]| |[] m e], y as [[]|[]| |[] n k]; try done; intros _ _.
  unfold f_add. cbn [SFadd]. unfold binary_normalize. cbn [cond_Zopp].
  match goal with |- context [Z.add ?a ?b] => change (Z.add a b) with (Z.pos
    (fst (shl_align m e (Z.min e k)) + fst (shl_align n k (Z.min e k)))) end.
  unfold binary_round. destruct (shl_align _ _ _). by apply round_aux_nonneg.
Qed.

Lemma f_mul_nonneg x y : nonneg x → nonneg y → finite x → finite y → nonneg (f_mul x y).
Proof.
  destruct x as [[]|[]| |[] m e], y as [[]|[]| |[] n k]; try done; intros _ _ _ _.
  by apply round_aux_nonneg.
Qed.

Lemma unit_nonneg x : unit_range x → nonneg x.
Proof. by destruct x as [[]|[]| |[]]; intros (? & ? & ?). Qed.

Lemma nonneg_not_nan x : nonneg x → not_nan x.
Proof. by destruct x as [[]|[]| |[]]. Qed.

Lemma score_unit i : not_nan (BondDERO i) → not_nan (Uptime i) → not_nan (HistoryTerm i) →
  unit_range (Score i).
Proof.
  intros Hb Hu Hh. unfold Score. destruct (SlashedNode i); [done|]. apply clip01_unit.
  assert (unit_range (clip01 (f_div (BondDERO i) BondFullDERO))) as H1.
  { apply clip01_unit. let v := eval vm_compute in BondFullDERO in change BondFullDERO with v.
    by apply f_div_not_nan. }
  pose proof (clip01_unit _ Hu) as H2. pose proof (clip01_unit _ Hh) as H3.
  apply nonneg_not_nan. repeat apply f_add_nonneg; apply f_mul_nonneg;
    auto using unit_nonneg, unit_finite; vm_compute; done.
Qed.

(** The sessions counted for a node, while there are fewer than 2^53, are
    exact as floats. *)
Definition counted (s : Store) (n : string) : Prop :=
  0 ≤ map_count (success s) n ∧ 0 ≤ map_count (fail s) n
  ∧ map_count (success s) n + map_count (fail s) n < 2 ^ 53.

Lemma ratio_not_nan s n : counted s n →
  wrap_i64 (map_count (success s) n + map_count (fail s) n) ≠ 0 →
  not_nan (ratio (map_count (success s) n) (map_count (fail s) n)).
Proof.
  unfold counted, ratio. set (a := map_count _ n). set (b := map_count _ n). intros (Ha & Hb & Hs).
  rewrite wrap_i64_id by (unwidth; lia). intros Hz.
  destruct (f_of_Z_finite (a + b)) as (m & e & ->); [lia|].
  apply f_div_not_nan, f_of_Z_not_nan.
Qed.

Lemma save_frame s io : let s' := (saveLocked s io).1 in
  evidence s' = evidence s ∧ success s' = success s ∧ fail s' = fail s ∧ info s' = info s.
Proof.
  unfold saveLocked. destruct (String.eqb _ _); [done|]. destruct (negb _); [done|]. by destruct io.
Qed.

Section proofs.
Context `{Ed25519, ProofJSON}.

Lemma sign_reporter e priv now e' : Evidence_Sign e priv now = Ok e' →
  verifyReporter e' = Ok tt ∧ Kind e' = Kind e ∧ NodeID e' = NodeID e ∧ Proof e' = Proof e.
Proof.
  unfold Evidence_Sign. destruct (Z.eqb_spec (len priv) ed25519_PrivateKeySize) as [Hl|]; [|done].
  cbn [negb]. intros He. injection He as <-. unfold verifyReporter. cbn [Reporter Sig Kind NodeID Proof].
  rewrite ed25519_public_size, ed25519_sig_size.
  change (bodyBytes {| Kind := Kind e; NodeID := NodeID e; Proof := Proof e;
    Reporter := ?r; Sig := ?s; At := ?t |})
    with (bodyBytes (mkEvidence (Kind e) (NodeID e) (Proof e) (ed25519_Public priv) (Sig e)
      (stamp (At e) now))).
  by rewrite ed25519_correct.
Qed.

(** What verified evidence proves. *)
Definition signed_receipt (r : receiptView) : Prop :=
  ed25519_Verify (v_NodePub r) (receiptBody r) (v_Sig r) = true.
Definition double_signed (raw : string) : Prop := ∃ a b, decode_double raw = Some (a, b)
  ∧ v_ID a = v_ID b ∧ v_NodePub a = v_NodePub b ∧ receiptBody a ≠ receiptBody b
  ∧ signed_receipt a ∧ signed_receipt b.
Definition not_signed (raw : string) : Prop := ∃ r, decode_forged raw = Some r ∧ ¬ signed_receipt r.

Lemma verify_receipt_ok r : verifyReceiptView r = Ok tt → signed_receipt r.
Proof.
  unfold verifyReceiptView, signed_receipt. destruct (negb (len _ =? _)); [done|].
  destruct (negb (len _ =? _)); [done|]. by destruct (ed25519_Verify _ _ _).
Qed.

Lemma verify_double_ok raw : verifyDoubleSettlement raw = Ok tt → double_signed raw.
Proof.
  unfold verifyDoubleSettlement. destruct (decode_double raw) as [[a b]|] eqn:E; [|done].
  destruct (_ || _) eqn:Ei; [done|]. apply orb_false_iff in Ei as [_ Ei%negb_false_iff%String.eqb_eq].
  destruct (String.eqb_spec (receiptBody a) (receiptBody b)) as [|Hb]; [done|].
  destruct (verifyReceiptView a) as [[]|] eqn:Ea; [|done].
  destruct (verifyReceiptView b) as [[]|] eqn:Eb; [|done]. cbn.
  destruct (String.eqb_spec (v_NodePub a) (v_NodePub b)) as [Hk|]; [|done]. intros _.
  exists a, b. split_and!; auto using verify_receipt_ok.
Qed.

Lemma verify_forged_ok raw : verifyForgedReceipt raw = Ok tt → not_signed raw.
Proof.
  unfold verifyForgedReceipt. destruct (decode_forged raw) as [r|] eqn:E; [|done].
  destruct (String.eqb _ _); [done|].
  destruct (negb (len (v_NodePub r) =? _)) eqn:E1; [done|].
  destruct (negb (len (v_Sig r) =? _)) eqn:E2; [done|].
  unfold verifyReceiptView. rewrite E1, E2.
  destruct (ed25519_Verify _ _ _) eqn:Ev; [done|]. intros _.
  exists r. unfold signed_receipt. by rewrite Ev.
Qed.

(** Genuine evidence: signed by its reporter, and holding what its kind claims. *)
Definition genuine (e : Evidence) : Prop :=
  NodeID e ≠ "" ∧ ed25519_Verify (Reporter e) (bodyBytes e) (Sig e) = true
  ∧ (Kind e = KindDoubleSettlement ∧ double_signed (Proof e)
     ∨ Kind e = KindForgedReceipt ∧ not_signed (Proof e)
     ∨ IsAdvisory (Kind e) = true ∧ decode_object (Proof e) = true).

Lemma reporter_ok e : verifyReporter e = Ok tt →
  ed25519_Verify (Reporter e) (bodyBytes e) (Sig e) = true.
Proof.
  unfold verifyReporter. destruct (negb (len _ =? _)); [done|].
  destruct (negb (len _ =? _)); [done|]. by destruct (ed25519_Verify _ _ _).
Qed.

Lemma verify_genuine e : Evidence_Verify e = Ok tt → genuine e.
Proof.
  unfold Evidence_Verify. destruct (negb _) eqn:Ek; [done|]. apply negb_false_iff in Ek.
  destruct (String.eqb_spec (NodeID e) "") as [|Hn]; [done|].
  destruct (verifyReporter e) as [[]|] eqn:Er; [|done]. cbn. unfold verifyProof. intros Hp.
  split; [done|]. split; [by apply reporter_ok|].
  unfold IsSlashable in Ek. destruct (String.eqb_spec (Kind e) KindDoubleSettlement) as [->|].
  { left. split; [done|]. by apply verify_double_ok. }
  destruct (String.eqb_spec (Kind e) KindForgedReceipt) as [->|].
  { right; left. split; [done|]. by apply verify_forged_ok. }
  right; right. split; [done|]. by destruct (decode_object _).
Qed.

Lemma step_evidence s s' : step s s' → evidence s' = evidence s
  ∨ ∃ e, evidence s' = evidence s ++ [e] ∧ Evidence_Verify e = Ok tt.
Proof.
  intros [? e io|? n ok io|? n b u io].
  - unfold Store_Add. destruct (Evidence_Verify e) as [[]|] eqn:E; [|by left].
    right. exists e. split; [|done]. by rewrite (proj1 (save_frame _ io)).
  - left. unfold Store_RecordSession. destruct (String.eqb _ _); [done|].
    by rewrite (proj1 (save_frame _ io)).
  - left. unfold Store_SetNodeInfo. by rewrite (proj1 (save_frame _ io)).
Qed.

Lemma slashed_step s s' n : step s s' → Store_Slashed s n = true → Store_Slashed s' n = true.
Proof.
  unfold Store_Slashed. intros [->|(e & -> & _)]%step_evidence Hs; [done|].
  by rewrite existsb_app, Hs.
Qed.

Lemma slashed_steps s s' n : rtc step s s' → Store_Slashed s n = true → Store_Slashed s' n = true.
Proof. induction 1; eauto using slashed_step. Qed.

Lemma genuine_steps s s' : rtc step s s' → Forall genuine (evidence s) → Forall genuine (evidence s').
Proof.
  induction 1 as [|s0 s1 s2 Hst _ IH]; [done|]. intros Hg. apply IH.
  destruct (step_evidence _ _ Hst) as [->|(e & -> & He)]; [done|].
  apply Forall_app. split; [done|]. by apply Forall_singleton, verify_genuine.
Qed.
End proofs.

(** ** Properties *)


(** Scores stay between zero and one. For a node whose recorded bond and uptime are numbers and
    that has fewer than 2^53 recorded sessions, the reputation score - and what the registry sees of
    it - is a number between 0 and 1, whatever the values: infinities, negative bonds and uptimes
    beyond 1 included. *)
Theorem reputation_in_unit `{Ed25519, ProofJSON} s n :
  not_nan (bond (default no_info (info s !! n))) →
  not_nan (uptime (default no_info (info s !! n))) → counted s n →
  unit_range (ReputationScore s n) ∧ unit_range (HistoryScore (Some s) n).
Proof.
  intros Hb Hu Hc.
  assert (unit_range (ReputationScore s n)) as Hr.
  { apply score_unit; cbn; [done| |].
    - by destruct (hasUp _).
    - destruct (_ >? 0) eqn:E; [|done]. apply ratio_not_nan; [done|]. intros E0. by rewrite E0 in E. }
  split; [done|]. apply clip01_unit, Hr.
Qed.

(** Evidence round trip. Evidence signed with a 64-byte key, of a known kind about a named node
    and with a proof that checks, is accepted by any store; when the write succeeds, a store reopened
    on the file holds the same evidence, sessions and observations, and judges every node the same. *)
Theorem evidence_survives_restart `{Ed25519, ProofJSON} s e priv now e' s' :
  Evidence_Sign e priv now = Ok e' → IsSlashable (Kind e) || IsAdvisory (Kind e) = true →
  NodeID e ≠ "" → verifyProof e = Ok tt → path s ≠ "" →
  Store_Add s e' None = (s', Ok tt) →
  evidence s' = evidence s ++ [e']
  ∧ Open (path s) (file s') = s'
  ∧ ∀ n, ReputationScore (Open (path s) (file s')) n = ReputationScore s' n.
Proof.
  intros Hs Hk Hn Hp Hpath. destruct (sign_reporter _ _ _ _ Hs) as (Hr & Ek & En & Ep).
  assert (Evidence_Verify e' = Ok tt) as Hv.
  { unfold Evidence_Verify. rewrite Ek, Hk, En. cbn [negb].
    rewrite (proj2 (String.eqb_neq _ _) Hn), Hr. cbn. unfold verifyProof in *. by rewrite Ek, Ep. }
  unfold Store_Add. rewrite Hv. unfold saveLocked. cbn [path].
  rewrite (proj2 (String.eqb_neq _ _) Hpath). destruct (negb _); [done|]. intros Hw. injection Hw as <-.
  cbn [evidence file]. unfold Open. rewrite (proj2 (String.eqb_neq _ _) Hpath). done.
Qed.

(** A summary is acceptable gossip. *)
Lemma summary_accepted `{Ed25519, FloatFmt} s n priv now a : Store_Summary s n priv now = Ok a →
  n ≠ "" → 0 ≤ Samples a → Advisory_Verify a = Ok tt.
Proof.
  unfold Store_Summary, Advisory_Sign. destruct (negb (len priv =? _)) eqn:Hl; [done|].
  set (up := if hasUp _ then _ else _). intros Ha Hn Hs. injection Ha as <-. cbn [Samples] in Hs.
  unfold Advisory_Verify. cbn [a_NodeID a_Uptime AvgLatencyMs Samples a_Reporter a_Sig].
  rewrite (proj2 (String.eqb_neq _ _) Hn), ed25519_public_size, ed25519_sig_size. cbn [negb].
  assert (∀ x, f_lt (clip01 x) f0 || f_gt (clip01 x) f1 = false) as ->.
  { intros x. unfold clip01. destruct (f_lt x f0) eqn:E1; [done|]. destruct (f_gt x f1) eqn:E2; [done|].
    by rewrite E1, E2. }
  change (f_lt f0 f0) with false. rewrite (proj2 (Z.ltb_ge _ _) Hs).
  apply negb_false_iff, Z.eqb_eq in Hl. cbv match.
  match goal with |- context [ed25519_Verify ?k ?b (ed25519_Sign ?p ?b')] => change b with b' end.
  by rewrite ed25519_correct.
Qed.

(** ** Witnesses *)

#[local] Existing Instance toy_ed25519.

(** A private key of 64 bytes, and a receipt signed with it. *)
Definition demo_priv (c : Ascii.ascii) : string := of_chars (replicate 64 c).
Definition demo_receipt (c : Ascii.ascii) (amount : Z) : receiptView :=
  let r sig := mkReceiptView "r1" "s1" "node-of-mine" "t1" 0 0 0 amount (toy_public (demo_priv c)) sig in
  r (ed25519_Sign (demo_priv c) (receiptBody (r ""))).

(** Proofs the decoder understands: two receipts of key [a], and an unsigned one. *)
Definition demo_json : ProofJSON := {|
  decode_double raw := if String.eqb raw "double"
    then Some (demo_receipt "a"%char 1, demo_receipt "a"%char 2) else None;
  decode_forged raw := if String.eqb raw "forged"
    then let r := demo_receipt "a"%char 1 in
         Some (mkReceiptView "r1" "s1" "victim" "t1" 9 9 9 9 (v_NodePub r) (v_Sig r)) else None;
  decode_object _ := true |}.
#[local] Existing Instance demo_json.

Definition demo_evidence (kind node proof : string) : Evidence :=
  match Evidence_Sign (mkEvidence kind node proof "" "" 0) (demo_priv "a"%char) hour with
  | Ok e => e
  | Err _ => mkEvidence "" "" "" "" "" 0
  end.
Definition demo_store : Store :=
  (Store_Add (Open "rep.json" None) (demo_evidence KindDoubleSettlement "n1" "double") None).1.


Definition demo_observed : Store :=
  Store_SetNodeInfo (Store_RecordSession (Open "" None) "n2" true None).1 "n2" f_inf (f_of_Z 3) None.

Lemma reputation_in_unit_witness : unit_range (ReputationScore demo_observed "n2")
  ∧ ReputationScore demo_observed "n2" = f1.
Proof.
  split; [|vm_compute; reflexivity].
  apply (reputation_in_unit demo_observed "n2"); [vm_compute; reflexivity | vm_compute; reflexivity |].
  unfold counted. vm_compute. split_and!; try reflexivity; discriminate.
Defined.

Lemma evidence_survives_restart_witness :
  Open "rep.json" (file demo_store) = demo_store ∧ length (evidence demo_store) = 1%nat.
Proof.
  split; [|vm_compute; reflexivity].
  refine (proj1 (proj2 (evidence_survives_restart (Open "rep.json" None)
    (mkEvidence KindDoubleSettlement "n1" "double" "" "" 0) (demo_priv "a"%char) hour
    (demo_evidence KindDoubleSettlement "n1" "double") demo_store _ eq_refl _ _ _ _)));
    first [vm_compute; reflexivity | discriminate].
Defined.

(** ** What the model shows *)

(** A proof is never tied to the node it accuses: receipts an accuser signs with a key of its own, or
    a receipt it makes up, slash any node. *)
Example anyone_can_slash :
  Evidence_Verify (demo_evidence KindDoubleSettlement "victim" "double") = Ok tt
  ∧ Evidence_Verify (demo_evidence KindForgedReceipt "victim" "forged") = Ok tt
  ∧ v_NodeID (demo_receipt "a"%char 1) ≠ "victim"
  ∧ let s := (Store_Add (Open "" None) (demo_evidence KindForgedReceipt "victim" "forged") None).1 in
    ReputationScore s "victim" = f0.
Proof. vm_compute. repeat split; discriminate. Qed.

(** An observation that is not a number cannot be encoded: recording it reports nothing, and from then
    on nothing is saved. *)
Example nan_bond_stops_saving :
  let s := Store_SetNodeInfo (Open "rep.json" None) "n1" S754_nan f1 None in
  let '(s', r) := Store_RecordSession s "n2" true None in
  r = Err ErrMarshal ∧ file s' = None.
Proof. vm_compute. done. Qed.
