(* ===== verification/ClientConfig.v ===== *)
(** * ClientConfig: the client's configuration (internal/config/client.go)

    The whole document, its validation, redaction, loading and saving.  The
    TOML library is the class [TOML]: decoding over a base document, and
    encoding.  A file is missing, unreadable or holds text; the outcome of a
    write is an argument. *)

From Stdlib Require Import ZArith Lia.
From S2P Require Import Prelude Float64.

Definition KillOff : string := "OFF".
Definition KillWhileConnected : string := "ON_WHILE_CONNECTED".
Definition KillAlwaysOn : string := "ALWAYS_ON".
Definition DNSVeilnet : string := "VEILNET".
Definition DNSCustom : string := "CUSTOM".
Definition DNSDoH : string := "DOH".
Definition DNSModeSystem : string := "SYSTEM".
Definition SelectFastest : string := "FASTEST".
Definition SelectLowestLoad : string := "LOWEST_LOAD".
Definition SelectLowestPrice : string := "LOWEST_PRICE".
Definition SelectPrivacy : string := "PRIVACY".
Definition SelectSpecificReg : string := "SPECIFIC_REGION".
Definition CoverOff : string := "OFF".
Definition CoverPad : string := "PAD".
Definition CoverConstant : string := "CONSTANT".
Definition WalletModeNone : string := "NONE".
Definition WalletModeRPC : string := "RPC".
Definition WalletModeXSWD : string := "XSWD".
Definition DefaultXSWDEndpoint : string := "ws://127.0.0.1:44326/xswd".

Record NetworkConfig := mkNetworkConfig {
  ProbeTimeoutSecs : Z; SelectPolicy : string; HandshakeTimeout : Z; Transport : string }.
Record CoverConfig := mkCoverConfig {
  cov_Mode : string; CellSizeBytes : Z; IntervalMs : Z; MaxOverhead : float64 }.
Record DeroConfig := mkDeroConfig {
  RPCEndpoint : string; RPCUser : string; RPCPassword : string; dero_Network : string }.
Record WalletConfig := mkWalletConfig {
  wal_Mode : string; wal_Endpoint : string; wal_Name : string; User : string; Password : string;
  XSWDEndpoint : string; AppName : string }.
Record DNSConfig := mkDNSConfig {
  dns_Mode : string; Servers : list string; DoHURL : string; IPv6Upstream : bool }.
Record MultihopConfig := mkMultihopConfig {
  Enabled : bool; EntryRegion : string; RotateMinutes : Z }.
Record PaymentsConfig := mkPaymentsConfig {
  MaxPerHourDero : float64; Confirmations : Z; Currency : string }.
Record LoggingConfig := mkLoggingConfig { Level : string; File : string }.

Record ClientConfig := mkClientConfig {
  Network : NetworkConfig;
  Dero : DeroConfig;
  Wallet : WalletConfig;
  DNS : DNSConfig;
  KillSwitch : string;
  AutoConnect : bool;
  Region : string;
  Multihop : MultihopConfig;
  Cover : CoverConfig;
  Payments : PaymentsConfig;
  Logging : LoggingConfig
}.

Definition DefaultClientConfig : ClientConfig := {|
  Network := mkNetworkConfig 5 SelectFastest 10 "";
  Dero := mkDeroConfig "http://127.0.0.1:10102" "" "" "mainnet";
  Wallet := mkWalletConfig WalletModeNone "http://127.0.0.1:10103" "" "" "" DefaultXSWDEndpoint "VeilNet";
  DNS := mkDNSConfig DNSVeilnet [] "" false;
  KillSwitch := KillWhileConnected;
  AutoConnect := false;
  Region := "";
  Multihop := mkMultihopConfig false "" 30;
  Cover := mkCoverConfig CoverOff 1024 20 f_half;
  Payments := mkPaymentsConfig f1 1 "DERO";
  Logging := mkLoggingConfig "info" ""
|}.

#[export] Instance float_eq_dec : EqDecision Floats.SpecFloat.spec_float.
Proof. solve_decision. Defined.
#[export] Instance NetworkConfig_eq_dec : EqDecision NetworkConfig.
Proof. solve_decision. Defined.
#[export] Instance CoverConfig_eq_dec : EqDecision CoverConfig.
Proof. solve_decision. Defined.
#[export] Instance DeroConfig_eq_dec : EqDecision DeroConfig.
Proof. solve_decision. Defined.
#[export] Instance WalletConfig_eq_dec : EqDecision WalletConfig.
Proof. solve_decision. Defined.
#[export] Instance DNSConfig_eq_dec : EqDecision DNSConfig.
Proof. solve_decision. Defined.
#[export] Instance MultihopConfig_eq_dec : EqDecision MultihopConfig.
Proof. solve_decision. Defined.
#[export] Instance PaymentsConfig_eq_dec : EqDecision PaymentsConfig.
Proof. solve_decision. Defined.
#[export] Instance LoggingConfig_eq_dec : EqDecision LoggingConfig.
Proof. solve_decision. Defined.
#[export] Instance ClientConfig_eq_dec : EqDecision ClientConfig.
Proof. solve_decision. Defined.

Inductive error :=
| ErrKillSwitch (m : string) | ErrDNSMode (m : string) | ErrPolicy (p : string)
| ErrWalletMode (m : string) | ErrCellSize | ErrInterval | ErrCoverMode (m : string) | ErrOverhead
| ErrRead (e : string) | ErrParse | ErrOpen (e : string) | ErrEncode (e : string) | ErrClose (e : string).

Definition member (s : string) (l : list string) : bool := existsb (String.eqb s) l.

Definition cover_valid (c : CoverConfig) : result error unit :=
  if member (cov_Mode c) [""; CoverOff; CoverPad] then Ok tt
  else if String.eqb (cov_Mode c) CoverConstant then
    if CellSizeBytes c <=? 0 then Err ErrCellSize
    else if IntervalMs c <=? 0 then Err ErrInterval
    else Ok tt
  else Err (ErrCoverMode (cov_Mode c)).

Definition Validate (c : ClientConfig) : result error unit :=
  if negb (member (KillSwitch c) [KillOff; KillWhileConnected; KillAlwaysOn])
  then Err (ErrKillSwitch (KillSwitch c))
  else if negb (member (dns_Mode (DNS c)) [DNSVeilnet; DNSCustom; DNSDoH; DNSModeSystem])
  then Err (ErrDNSMode (dns_Mode (DNS c)))
  else if negb (member (SelectPolicy (Network c)) [""; SelectFastest; SelectLowestLoad;
             SelectLowestPrice; SelectPrivacy; SelectSpecificReg])
  then Err (ErrPolicy (SelectPolicy (Network c)))
  else if negb (member (wal_Mode (Wallet c)) [""; WalletModeNone; WalletModeRPC; WalletModeXSWD])
  then Err (ErrWalletMode (wal_Mode (Wallet c)))
  else match cover_valid (Cover c) with
  | Err e => Err e
  | Ok _ => if f_lt (MaxOverhead (Cover c)) f0 then Err ErrOverhead else Ok tt
  end.

Definition maskSecret (s : string) : string := if String.eqb s "" then "" else "***".

Definition set_rpc_password (d : DeroConfig) (p : string) : DeroConfig :=
  mkDeroConfig (RPCEndpoint d) (RPCUser d) p (dero_Network d).
Definition set_wallet_password (w : WalletConfig) (p : string) : WalletConfig :=
  mkWalletConfig (wal_Mode w) (wal_Endpoint w) (wal_Name w) (User w) p (XSWDEndpoint w) (AppName w).
Definition set_wallet (c : ClientConfig) (w : WalletConfig) : ClientConfig :=
  mkClientConfig (Network c) (Dero c) w (DNS c) (KillSwitch c) (AutoConnect c) (Region c) (Multihop c)
    (Cover c) (Payments c) (Logging c).
Definition set_dero (c : ClientConfig) (d : DeroConfig) : ClientConfig :=
  mkClientConfig (Network c) d (Wallet c) (DNS c) (KillSwitch c) (AutoConnect c) (Region c) (Multihop c)
    (Cover c) (Payments c) (Logging c).

Definition Redacted (c : ClientConfig) : ClientConfig :=
  let c := set_dero c (set_rpc_password (Dero c) (maskSecret (RPCPassword (Dero c)))) in
  set_wallet c (set_wallet_password (Wallet c) (maskSecret (Password (Wallet c)))).

(** ** Files *)

Inductive file := Missing | Unreadable (e : string) | Text (s : string).

Class TOML : Type := {
  toml_Unmarshal : string → ClientConfig → ClientConfig * bool;
  toml_Encode : ClientConfig → string * option string
}.

Section files.
Context `{TOML}.

(** What the caller gets next to an error is the configuration read so far. *)
Definition LoadClient (f : file) : ClientConfig * result error unit :=
  let cfg := DefaultClientConfig in
  match f with
  | Missing => (cfg, Ok tt)
  | Unreadable e => (cfg, Err (ErrRead e))
  | Text data =>
    match toml_Unmarshal data cfg with
    | (cfg, false) => (cfg, Err ErrParse)
    | (cfg, true) => (cfg, Validate cfg)
    end
  end.

(** The file is truncated when it is opened, before the document is encoded. *)
Definition Save (c : ClientConfig) (f : file) (open_err close_err : option string)
  : file * result error unit :=
  match Validate c with
  | Err e => (f, Err e)
  | Ok _ =>
    match open_err with
    | Some e => (f, Err (ErrOpen e))
    | None =>
      match toml_Encode c, close_err with
      | (text, Some e), _ => (Text text, Err (ErrEncode e))
      | (text, None), Some e => (Text text, Err (ErrClose e))
      | (text, None), None => (Text text, Ok tt)
      end
    end
  end.
End files.

(** Reading what was written over the defaults gives it back. *)
Class TOMLLaws `{TOML} : Prop := {
  toml_roundtrip c s : toml_Encode c = (s, None) → toml_Unmarshal s DefaultClientConfig = (c, true)
}.

(** ** Well-formed configurations *)

Record wf (c : ClientConfig) : Prop := {
  wf_kill : KillSwitch c ∈ [KillOff; KillWhileConnected; KillAlwaysOn];
  wf_dns : dns_Mode (DNS c) ∈ [DNSVeilnet; DNSCustom; DNSDoH; DNSModeSystem];
  wf_policy : SelectPolicy (Network c) ∈ [""; SelectFastest; SelectLowestLoad; SelectLowestPrice;
                                          SelectPrivacy; SelectSpecificReg];
  wf_wallet : wal_Mode (Wallet c) ∈ [""; WalletModeNone; WalletModeRPC; WalletModeXSWD];
  wf_cover : cov_Mode (Cover c) ∈ [""; CoverOff; CoverPad]
    ∨ cov_Mode (Cover c) = CoverConstant ∧ 0 < CellSizeBytes (Cover c) ∧ 0 < IntervalMs (Cover c);
  wf_overhead : f_lt (MaxOverhead (Cover c)) f0 = false
}.

Lemma member_spec s l : member s l = true ↔ s ∈ l.
Proof.
  unfold member. rewrite existsb_exists. split.
  - intros (x & Hx%list_elem_of_In & ->%String.eqb_eq). done.
  - intros Hs%list_elem_of_In. exists s. split; [done|]. apply String.eqb_refl.
Qed.

Lemma cover_valid_ok c : cover_valid c = Ok tt ↔ cov_Mode c ∈ [""; CoverOff; CoverPad]
  ∨ cov_Mode c = CoverConstant ∧ 0 < CellSizeBytes c ∧ 0 < IntervalMs c.
Proof.
  unfold cover_valid. destruct (member _ _) eqn:Em.
  { apply member_spec in Em. naive_solver. }
  assert (cov_Mode c ∉ [""; CoverOff; CoverPad]) as Hn by (intros E%member_spec; congruence).
  destruct (String.eqb_spec (cov_Mode c) CoverConstant) as [E|E]; [|naive_solver].
  destruct (Z.leb_spec (CellSizeBytes c) 0); [naive_solver lia|].
  destruct (Z.leb_spec (IntervalMs c) 0); naive_solver lia.
Qed.

(** Validation accepts exactly the well-formed configurations. *)
Lemma validate_wf c : Validate c = Ok tt ↔ wf c.
Proof.
  unfold Validate. split.
  - repeat (case_match; try done). repeat match goal with H : negb _ = false |- _ =>
      apply negb_false_iff, member_spec in H end.
    repeat match goal with u : unit |- _ => destruct u end. intros _.
    by constructor; [| | | |apply cover_valid_ok|].
  - intros [H1%member_spec H2%member_spec H3%member_spec H4%member_spec H5%cover_valid_ok H6].
    by rewrite H1, H2, H3, H4, H5, H6.
Qed.

(** ** Witness data *)

(** The defaults with another kill switch and DNS mode. *)
Definition default_with (kill dns : string) : ClientConfig := {|
  Network := Network DefaultClientConfig; Dero := Dero DefaultClientConfig;
  Wallet := Wallet DefaultClientConfig;
  DNS := mkDNSConfig dns [] "" false; KillSwitch := kill; AutoConnect := false; Region := "";
  Multihop := Multihop DefaultClientConfig; Cover := Cover DefaultClientConfig;
  Payments := Payments DefaultClientConfig; Logging := Logging DefaultClientConfig |}.
(** A TOML that knows two documents. *)
#[local] Instance toy_toml : TOML := {
  toml_Unmarshal s base :=
    if String.eqb s "always" then (default_with KillAlwaysOn DNSVeilnet, true)
    else if String.eqb s "odd" then (default_with "SOMETIMES" DNSVeilnet, true)
    else (base, false);
  toml_Encode c := if decide (c = default_with KillAlwaysOn DNSVeilnet) then ("always", None)
                   else ("", Some "not supported")
}.
#[local] Instance toy_toml_laws : TOMLLaws.
Proof. split. intros c s. cbn. destruct (decide _) as [->|]; [|done]. by intros [= <-]. Defined.

(** ** Properties *)

(** whatever the configuration file holds - nothing, unreadable bytes,
    text that does not parse, a document with odd values - a configuration
    loaded without an error is well formed: its kill switch, DNS, selection,
    wallet and cover modes are known ones, and constant-rate cover has a cell
    size and an interval.  Without a file it is the default one, which turns
    the kill switch on, resolves through the tunnel, keeps IPv6 blocked and
    has no wallet. *)
Theorem loaded_config_wf `{TOML} f cfg : LoadClient f = (cfg, Ok tt) →
  wf cfg ∧ (f = Missing → KillSwitch cfg = KillWhileConnected ∧ dns_Mode (DNS cfg) = DNSVeilnet
    ∧ IPv6Upstream (DNS cfg) = false ∧ wal_Mode (Wallet cfg) = WalletModeNone).
Proof.
  destruct f as [|e|data]; cbn [LoadClient]; [| done |].
  - intros [= <-]. split; [|done]. by apply validate_wf; vm_compute.
  - destruct (toml_Unmarshal data DefaultClientConfig) as [c []]; [|done].
    intros [= <- E]. split; [|done]. by apply validate_wf.
Qed.

(** a configuration that is saved without an error is the one the next
    start loads, and one that does not validate never reaches the file. *)
Theorem save_load_roundtrip `{TOMLLaws} c f oe ce f' r : Save c f oe ce = (f', r) →
  (r = Ok tt → LoadClient f' = (c, Ok tt)) ∧ (¬ wf c → f' = f ∧ is_ok r = false).
Proof.
  unfold Save. destruct (Validate c) as [[]|e] eqn:Ev; cycle 1.
  { intros [= <- <-]. by split. }
  intros Hs. split; [|by intros []; apply validate_wf]. intros ->.
  destruct oe; [done|]. destruct (toml_Encode c) as [s [e|]] eqn:Ee; [done|].
  destruct ce; [done|]. injection Hs as <-. cbn. rewrite (toml_roundtrip _ _ Ee). by rewrite Ev.
Qed.

(** a redacted configuration says nothing of its secrets but whether they
    are set: two configurations that differ only in the two passwords, each
    set in both or in neither, are redacted alike; and redacting twice is
    redacting once. *)
Theorem redacted_hides_secrets c p q p' q' :
  (p = "" ↔ p' = "") → (q = "" ↔ q' = "") →
  let with_secrets p q :=
    set_wallet (set_dero c (set_rpc_password (Dero c) p)) (set_wallet_password (Wallet c) q) in
  Redacted (with_secrets p q) = Redacted (with_secrets p' q')
  ∧ Redacted (Redacted c) = Redacted c.
Proof.
  intros Hp Hq. cbn zeta. assert (∀ s s' : string, (s = "" ↔ s' = "") → maskSecret s = maskSecret s') as Hm.
  { intros s s' Hs. unfold maskSecret. destruct (String.eqb_spec s ""), (String.eqb_spec s' ""); naive_solver. }
  split.
  - unfold Redacted. cbn. by rewrite (Hm p p'), (Hm q q').
  - assert (∀ s, maskSecret (maskSecret s) = maskSecret s) as Hi.
    { intros s. unfold maskSecret. by destruct (String.eqb_spec s ""). }
    unfold Redacted. cbn. by rewrite !Hi.
Qed.

(** ** Witnesses *)

Lemma loaded_config_wf_witness :
  LoadClient (Text "odd") = (default_with "SOMETIMES" DNSVeilnet, Err (ErrKillSwitch "SOMETIMES"))
  ∧ wf (default_with KillAlwaysOn DNSVeilnet).
Proof. split; [reflexivity|]. by apply (loaded_config_wf (Text "always")). Defined.

Lemma save_load_roundtrip_witness :
  LoadClient (Text "always") = (default_with KillAlwaysOn DNSVeilnet, Ok tt).
Proof.
  exact (proj1 (save_load_roundtrip (default_with KillAlwaysOn DNSVeilnet) Missing None None
    (Text "always") (Ok tt) eq_refl) eq_refl).
Defined.

Lemma redacted_hides_secrets_witness :
  Redacted (set_wallet DefaultClientConfig (set_wallet_password (Wallet DefaultClientConfig) "hunter2"))
  = Redacted (set_wallet DefaultClientConfig (set_wallet_password (Wallet DefaultClientConfig) "swordfish")).
Proof.
  exact (proj1 (redacted_hides_secrets DefaultClientConfig "" "hunter2" "" "swordfish"
    ltac:(done) ltac:(done))).
Defined.

(** ** What modelling showed *)

(** NaN passes for a ratio: no comparison with it is true. *)
Example nan_overhead_accepted :
  cover_valid (mkCoverConfig CoverConstant 1024 20 Floats.SpecFloat.S754_nan) = Ok tt
  ∧ f_lt Floats.SpecFloat.S754_nan f0 = false.
Proof. by split. Qed.

(** Saving truncates the file first: when encoding then fails, what the file
    held is gone. *)
Example failed_save_loses_config :
  (Save (default_with KillOff DNSVeilnet) (Text "always") None None).1 = Text "".
Proof. by vm_compute. Qed.
