(* ===== verification/NodeDaemon.v ===== *)
(** * NodeDaemon: the node's command line and daemon (cmd/veilnet-node/main.go, nodes/config.go, store.go, abuse.go)

    The subcommands that change the files of a node, the start of the daemon
    from those files, and the daemon as steps of its parts: the management API,
    the sweeper and the heartbeat over [Controller].  TOML and JSON are classes;
    a file is missing, unreadable or holds its content; the flags given are
    arguments; a command answers the files and its exit code.  The status screen
    is [NodeStatus]'s. *)

From Stdlib Require Import ZArith Lia Ascii.
From S2P Require Import Prelude Float64 GoStrings Crypto NetIP GoText Timestamps.
From S2P Require Import Session.
From S2P Require Import ClientConfig.
From S2P Require Import WgConf.
From S2P Require Import Runner Firewall.
From S2P Require Import NodeStore NodeConfig.
From S2P Require Import Abuse.
From S2P Require Import Controller NodeFirewall NodeApi.

(** ** Development tokens (session/session.go) *)

Record AllowAnyExpiryCheckedValidator := mkAllowAny { DefaultTTL : duration }.

Definition devID `{Sha256} (raw : string) : string := "dev-" +:+ hex_EncodeToString (sha256_Sum256 raw).

Definition AllowAny_Validate `{Sha256} (v : AllowAnyExpiryCheckedValidator) (now : time) (raw : string)
  : result Session.error Session.Token :=
  if String.eqb raw "" then Err Session.ErrInvalid
  else match cut_last "|"%char (chars raw) with
  | Some (payload, exp) =>
    match parse_RFC3339Nano (of_chars exp) with
    | None => Err Session.ErrInvalid
    | Some exp =>
      if negb (Time_Before now exp) then Err Session.ErrExpired
      else if String.eqb (of_chars payload) "" then Err Session.ErrInvalid
      else Ok (Session.mkToken (devID raw) "" (of_chars payload) exp Session.ScopeExit raw)
    end
  | None =>
    let ttl := if DefaultTTL v <=? 0 then hour else DefaultTTL v in
    Ok (Session.mkToken (devID raw) "" raw (Time_Add now ttl) Session.ScopeExit raw)
  end.

#[export] Instance AllowAny_validator `{Sha256} : Session.TokenValidator AllowAnyExpiryCheckedValidator :=
  AllowAny_Validate.

Inductive validator := Deny (d : Session.DenyValidator) | AllowAny (v : AllowAnyExpiryCheckedValidator).
#[export] Instance node_validator `{Sha256} : Session.TokenValidator validator := fun v now raw =>
  match v with Deny d => Session.Validate d now raw | AllowAny a => Session.Validate a now raw end.

Definition buildValidator (c : Config) (dev : bool) : validator :=
  if dev || DevAllowAny c then AllowAny (mkAllowAny (wrap_i64 (MaxSessionMinutes c * minute)))
  else Deny (Session.mkDeny
    "no token validator configured (payments integration pending; run with --dev for local testing only)").

(** ** The files of a node *)

Class NodeTOML : Type := {
  node_toml_Decode : string → Config → result string Config;
  node_toml_Encode : Config → string * option string
}.
Class NodeTOMLLaws `{NodeTOML} : Prop := {
  node_toml_roundtrip c s : node_toml_Encode c = (s, None) → node_toml_Decode s DefaultConfig = Ok c
}.
Class PolicyJSON : Type := {
  policy_Unmarshal : string → result string AbusePolicy;
  policy_Marshal : AbusePolicy → string
}.
Class PolicyJSONLaws `{PolicyJSON} : Prop := {
  policy_roundtrip p : policy_Unmarshal (policy_Marshal p) = Ok p
}.

(** blocklist.json, as the lists it holds. *)
Inductive list_file := NoList | UnreadableList (e : string) | CorruptList (e : string)
| Lists (ips keys : list string).

(** The directory; [d_token] is the token file when it can be read. *)
Record node_dir := mkDir {
  d_config : ClientConfig.file; d_token : option string; d_policy : ClientConfig.file;
  d_blocklist : list_file; d_complaints : ComplaintLog }.
Definition set_config (d : node_dir) (f : ClientConfig.file) : node_dir :=
  mkDir f (d_token d) (d_policy d) (d_blocklist d) (d_complaints d).
Definition set_token (d : node_dir) (t : option string) : node_dir :=
  mkDir (d_config d) t (d_policy d) (d_blocklist d) (d_complaints d).
Definition set_policy (d : node_dir) (f : ClientConfig.file) : node_dir :=
  mkDir (d_config d) (d_token d) f (d_blocklist d) (d_complaints d).
Definition set_blocklist (d : node_dir) (l : list_file) : node_dir :=
  mkDir (d_config d) (d_token d) (d_policy d) l (d_complaints d).
Definition set_log (d : node_dir) (l : ComplaintLog) : node_dir :=
  mkDir (d_config d) (d_token d) (d_policy d) (d_blocklist d) l.

Inductive load_error := LoadRead (e : string) | LoadParse (e : string) | LoadInvalid (e : NodeConfig.error).

(** What writing a file meets: making the directory, opening or writing it. *)
Record write_io := mkWriteIO { w_mkdir : option string; w_write : option string }.

Section files.
Context `{IPv6, NodeTOML, PolicyJSON}.

Definition Load (f : ClientConfig.file) : result load_error Config :=
  match f with
  | Missing => Err (LoadRead "no such file or directory")
  | Unreadable e => Err (LoadRead e)
  | Text data =>
    match node_toml_Decode data DefaultConfig with
    | Err e => Err (LoadParse e)
    | Ok c => match Config_Validate c with Err e => Err (LoadInvalid e) | Ok _ => Ok c end
    end
  end.

(** The file is truncated before it is encoded into. *)
Definition Save (c : Config) (f : ClientConfig.file) (i : write_io) : ClientConfig.file * option string :=
  match w_mkdir i with
  | Some e => (f, Some e)
  | None => match w_write i with
            | Some e => (f, Some e)
            | None => let '(text, e) := node_toml_Encode c in (Text text, e)
            end
  end.

(** Any token of 32 bytes or more is kept; a file that cannot be read, for
    whatever reason, is replaced. *)
Definition EnsureMgmtToken (tok : option string) (rand : option (list Z)) (i : write_io)
  : option string * result string string :=
  let create :=
    match rand with
    | None => (tok, Err "nodes: random token")
    | Some raw =>
      let new := hex_EncodeToString raw in
      match w_mkdir i with
      | Some e => (tok, Err e)
      | None => match w_write i with Some e => (tok, Err e) | None => (Some new, Ok new) end
      end
    end in
  match tok with
  | Some t => if 32 <=? len t then (tok, Ok t) else create
  | None => create
  end.

Definition zero_policy : AbusePolicy := mkAbusePolicy false 0.
Definition LoadAbusePolicy (f : ClientConfig.file) : result string AbusePolicy :=
  match f with
  | Missing => Ok zero_policy
  | Unreadable e => Err ("nodes: read abuse policy: " +:+ e)
  | Text data => match policy_Unmarshal data with
                 | Err e => Err ("nodes: corrupt abuse policy: " +:+ e)
                 | Ok p => Ok p
                 end
  end.
Definition SaveAbusePolicy (p : AbusePolicy) (f : ClientConfig.file) (write : option string)
  : ClientConfig.file * option string :=
  match write with
  | Some e => (f, Some e)
  | None => (Text (policy_Marshal (AbusePolicy_normalize p)), None)
  end.

Definition OpenBlocklist (f : list_file) : result string Blocklist :=
  match f with
  | NoList => Ok (NewBlocklist None)
  | UnreadableList e => Err ("nodes: read blocklist: " +:+ e)
  | CorruptList e => Err ("nodes: corrupt blocklist: " +:+ e)
  | Lists ips keys => Ok (NewBlocklist (Some (ips, keys)))
  end.
(** The file behind a list that was saved. *)
Definition saved_list (f : list_file) (b : Blocklist) : list_file :=
  match bl_file b with Some (ips, keys) => Lists ips keys | None => f end.

Definition bracketed (l : list string) : string := "[" +:+ strings_Join l " " +:+ "]".
Definition Describe (b : Blocklist) : string :=
  "ips: " +:+ bracketed (sort_Strings (map_to_list (bl_ips b)).*1) +:+ String (ascii_of_nat 10) ""
  +:+ "pubkeys: " +:+ bracketed (sort_Strings (map_to_list (bl_pubkeys b)).*1).
End files.

(** ** The subcommands *)

Definition set_disabled (c : Config) : Config := set_disable c true.
Definition set_key (c : Config) (priv : string) : Config :=
  mkConfig (cfg_NodeID c) (NodeType c) (Region c) (Country c) (City c) (MaxClients c)
    (BandwidthDownMbps c) (BandwidthUpMbps c) (PricePerHourDero c) (AcceptNew c)
    (PublicEndpoint c) (DeroAddress c) (BondDero c) (HeartbeatIntervalSec c) (MgmtBind c)
    (AllowRemote c) (WGInterface c) (WGListenPort c) (WGAddress c) priv (CGNAT c)
    (AbuseContact c) (Jurisdiction c) (AllowedPorts c) (DeniedPorts c) (DefaultAllow c)
    (RateLimitKbps c) (RateBurstKB c) (MaxSessionMinutes c) (EmergencyDisable c) (DevAllowAny c).
Definition set_dev (c : Config) : Config :=
  mkConfig (cfg_NodeID c) (NodeType c) (Region c) (Country c) (City c) (MaxClients c)
    (BandwidthDownMbps c) (BandwidthUpMbps c) (PricePerHourDero c) (AcceptNew c)
    (PublicEndpoint c) (DeroAddress c) (BondDero c) (HeartbeatIntervalSec c) (MgmtBind c)
    (AllowRemote c) (WGInterface c) (WGListenPort c) (WGAddress c) (WGPrivateKey c) (CGNAT c)
    (AbuseContact c) (Jurisdiction c) (AllowedPorts c) (DeniedPorts c) (DefaultAllow c)
    (RateLimitKbps c) (RateBurstKB c) (MaxSessionMinutes c) (EmergencyDisable c) true.

Section commands.
Context `{IPv6, NodeTOML, PolicyJSON, Curve25519}.
Implicit Types d : node_dir.

(** [exists_]: [os.Stat] finds the file. *)
Definition exists_ (f : ClientConfig.file) : bool := match f with Missing => false | _ => true end.

Definition cmdInitConfig d (force : bool) (i : write_io) (rand : option (list Z)) (ti : write_io) : node_dir * Z :=
  if exists_ (d_config d) && negb force then (d, 1)
  else match Save DefaultConfig (d_config d) i with
  | (f, Some _) => (set_config d f, 1)
  | (f, None) =>
    let d := set_config d f in
    match EnsureMgmtToken (d_token d) rand ti with
    | (t, Err _) => (set_token d t, 1)
    | (t, Ok _) => (set_token d t, 0)
    end
  end.

(** The public key printed, when the command succeeds. *)
Definition cmdRotateKeys d (rand : option (list Z)) (i : write_io) : node_dir * Z * option string :=
  match Load (d_config d) with
  | Err _ => (d, 1, None)
  | Ok c =>
    match GenerateKeypair rand with
    | Err _ => (d, 1, None)
    | Ok (priv, pub) =>
      match Save (set_key c priv) (d_config d) i with
      | (f, Some _) => (set_config d f, 1, None)
      | (f, None) => (set_config d f, 0, Some pub)
      end
    end
  end.

Definition cmdBlocklist d (args : list string) (write : option string) : node_dir * Z :=
  match args with
  | [] => (d, 2)
  | action :: args =>
    match OpenBlocklist (d_blocklist d) with
    | Err _ => (d, 1)
    | Ok b =>
      let update (op : Blocklist → string → option string → Blocklist * result Abuse.error unit) :=
        match args with
        | [] => (d, 2)
        | v :: _ =>
          if String.eqb v "" then (d, 2)
          else match op b v write with
               | (b, Err _) => (d, 1)
               | (b, Ok _) => (set_blocklist d (saved_list (d_blocklist d) b), 0)
               end
        end in
      if String.eqb action "list" then (d, 0)
      else if String.eqb action "block-ip" then update Blocklist_BlockIP
      else if String.eqb action "unblock-ip" then update Blocklist_UnblockIP
      else if String.eqb action "block-key" then update Blocklist_BlockPubkey
      else if String.eqb action "unblock-key" then update Blocklist_UnblockPubkey
      else (d, 2)
    end
  end.

Record report_io := mkReportIO {
  ri_now : time; ri_append : option string; ri_count : option string; ri_save : write_io }.

Definition cmdReportAbuse d (reporter reason action ip : string) (i : report_io) : node_dir * Z :=
  if String.eqb reporter "" || String.eqb reason "" then (d, 2)
  else match ComplaintLog_Report (d_complaints d) reporter reason action ip (ri_now i) (ri_append i) with
  | (l, Err _) => (set_log d l, 1)
  | (l, Ok _) =>
    let d := set_log d l in
    match LoadAbusePolicy (d_policy d) with
    | Err _ => (d, 1)
    | Ok policy =>
      if negb (AutoDisable policy) then (d, 0)
      else match ComplaintLog_Count l (ri_count i) with
      | Err _ => (d, 1)
      | Ok n =>
        let threshold := if ComplaintThreshold policy <=? 0 then DefaultComplaintThreshold
                         else ComplaintThreshold policy in
        if n <? threshold then (d, 0)
        else match Load (d_config d) with
        | Err _ => (d, 1)
        | Ok c =>
          match Save (set_disabled c) (d_config d) (ri_save i) with
          | (f, Some _) => (set_config d f, 1)
          | (f, None) => (set_config d f, 0)
          end
        end
      end
    end
  end.
End commands.

(** ** The daemon *)

Inductive run_error :=
| RunConfig (e : load_error) | RunToken (e : string) | RunStore (e : string)
| RunController (e : Controller.error) | RunGuard (e : string).

(** The answers the start gets: the token's bytes and file, the database with
    its rows, the clock, and whether iptables is there. *)
Record run_io := mkRunIO {
  ru_rand : option (list Z); ru_token : write_io; ru_db : result string NodeStore.Store; ru_now : time;
  ru_os : System; ru_iptables : bool }.

Section daemon.
Context {G O : Type} `{WGManager G, Runner O, WGKeys, IPv6, GoArch, Unicode, ApiJSON, KeyError, NodeTOML, Sha256}.
Abbreviation Server := (NodeApi.Server G).
Implicit Types (d : node_dir) (s : Server).

Definition run_config (c : Config) (dev : bool) : Config := if dev then set_dev c else c.

(** [g] is the device the auto-selection settles on, [o] the system the
    firewall commands run on; their warnings are printed only. *)
Definition cmdRun d (dev abuseAuto : bool) (abuseThreshold : Z) (g : G) (o : O) (i : run_io)
  : node_dir * O * result run_error (Server * validator) :=
  match Load (d_config d) with
  | Err e => (d, o, Err (RunConfig e))
  | Ok c =>
    let c := run_config c dev in
    match EnsureMgmtToken (d_token d) (ru_rand i) (ru_token i) with
    | (t, Err e) => (set_token d t, o, Err (RunToken e))
    | (t, Ok tok) =>
      let d := set_token d t in
      match ru_db i with
      | Err e => (d, o, Err (RunStore e))
      | Ok db =>
        match NewController c g (Some db) true (ru_now i) with
        | Err e => (d, o, Err (RunController e))
        | Ok ctrl =>
          match OpenBlocklist (d_blocklist d) with
          | Err e => (d, o, Err (RunGuard e))
          | Ok b =>
            let guard := NewAbuseGuard (mkAbusePolicy abuseAuto abuseThreshold) None (Some b)
                           (Some (d_complaints d)) None in
            let ctrl := Controller_SetAbuseGuard ctrl (Some guard) in
            let o := (ApplyFirewall (ru_os i) (ru_iptables i) c o).1 in
            (d, o, Ok (NewServer ctrl tok, buildValidator c dev))
          end
        end
      end
    end
  end.

(** The loops of the daemon: a request, a sweep, a heartbeat (which changes
    nothing). *)
Inductive daemon_step (v : validator) : Server → Server → Prop :=
| dm_request s r i : (∀ raw, validate i raw = Session.Validate v (now i) raw) →
    daemon_step v s (Server_handle s r i).1
| dm_sweep s it now io : it ≡ₚ map_to_list (Session.byToken (ses (ctrl s))) →
    daemon_step v s (mkServer (Controller_SweepOnce (ctrl s) it now io).1 (token s)).

Definition StartHeartbeatLoop_interval (interval : duration) : duration :=
  if interval <=? 0 then 60 * second else interval.
Definition StartSweeper_interval (interval : duration) : duration :=
  if interval <=? 0 then 30 * second else interval.
Definition heartbeat_tick `{GoArch} (c : Controller G) (now : time) : Heartbeat := Controller_BuildHeartbeat c now.
End daemon.

(** ** What the daemon's steps keep *)

Section daemon_proofs.
Context {G O : Type} `{WGManager G, Runner O, WGKeys, HV : IPv6, GoArch, Unicode, ApiJSON, KeyError, NodeTOML, PolicyJSON,
  Curve25519, Sha256}.
Implicit Types (c : Controller G) (s : NodeApi.Server G) (d : node_dir).

(** The configuration and the blocklist are the ones of the start. *)
Definition kept c c' : Prop := cfg c' = cfg c ∧ g_blocklist <$> abuse c' = g_blocklist <$> abuse c.
Lemma kept_refl c : kept c c.
Proof. done. Qed.
Lemma steps_kept c1 c2 c3 : kept c1 c2 → kept c2 c3 → kept c1 c3.
Proof. intros [? ?] [? ?]. split; congruence. Qed.

Lemma precheck_kept c ep pub now : kept c (Controller_abusePrecheck c ep pub now).1
  ∧ ses (Controller_abusePrecheck c ep pub now).1 = ses c ∧ wg (Controller_abusePrecheck c ep pub now).1 = wg c.
Proof.
  unfold Controller_abusePrecheck, AbuseGuard_PreAuthorize. destruct (abuse c) as [g|] eqn:Eg; [|done].
  unfold kept. destruct (_ || _); [|destruct (RateLimiter_AllowAuthorize _ _ _) as [l ok]]; cbn; by rewrite Eg.
Qed.
Lemma allow_kept c host now : kept c (Controller_AllowMgmtRequest c host now).1
  ∧ ses (Controller_AllowMgmtRequest c host now).1 = ses c ∧ wg (Controller_AllowMgmtRequest c host now).1 = wg c.
Proof.
  unfold Controller_AllowMgmtRequest, AbuseGuard_AllowMgmt. destruct (abuse c) as [g|] eqn:Eg; [|done].
  unfold kept. destruct (RateLimiter_AllowMgmt _ _ _) as [l ok]. cbn. by rewrite Eg.
Qed.

Lemma authorize_kept c v pub ep now day io1 io2 : kept c (Controller_Authorize c v pub ep now day io1 io2).1.
Proof.
  unfold Controller_Authorize. destruct (EmergencyDisable (cfg c)); [done|].
  pose proof (precheck_kept c ep pub now) as (Hk & _). destruct (Controller_abusePrecheck c ep pub now) as [c1 [[]|e]]; [|done].
  eapply steps_kept; [exact Hk|]. cbn [fst].
  destruct (negb (AcceptNew (cfg c))); [done|]. destruct (_ <=? _); [done|]. destruct (_ && _); [done|].
  destruct (Ipam.IPAM_Allocate (ip c1)) as [a [assigned|e]]; [|done].
  destruct (Session.Manager_Authorize _ _ _ _ _ _) as [m [p|e]]; [|done].
  cbn [set_ses set_ip ses]. destruct (Session.heap m !! p) as [x|]; [|done].
  destruct (_ && _); [done|]. destruct (AddPeer _ _ _ _ _) as [g [e|]]; [done|].
  cbn [fst]. unfold record_client. by destruct (db _).
Qed.
Lemma revoke_kept c id now io : kept c (Controller_Revoke c id now io).1.
Proof.
  unfold Controller_Revoke. destruct (Session.Manager_Get _ _); [|done]. destruct (_ !! _); [|done].
  by destruct (Session.Manager_Revoke _ _ _) as [m [[]|e]].
Qed.
Lemma sweep_kept c it now io : kept c (Controller_SweepOnce c it now io).1.
Proof.
  unfold Controller_SweepOnce. destruct (Session.Manager_SweepOnce _ _ _) as [m out]. cbn [fst].
  assert (kept c (set_ses c m)) as Hk by done. revert Hk. generalize (set_ses c m).
  induction out as [|x out IH]; intros c1 Hk; cbn [foldl]; [done|]. apply IH. by destruct Hk.
Qed.

Lemma mux_kept c r i : kept c (mux c r i).1.
Proof.
  unfold mux. repeat (destruct (String.eqb _ _); [try done|]); try done.
  - unfold handleAuthorize. destruct (negb _); [done|]. destruct (decode_authorize _) as [req|]; [|done].
    set (pub := if String.eqb (ClientKey req) "" then _ else _).
    pose proof (authorize_kept c (validate i (req_Token req)) pub (Endpoint req) (NodeApi.now i) (NodeApi.day i) (io_row i)
      (io_counter i)) as Hk.
    by destruct (Controller_Authorize _ _ _ _ _ _ _ _) as [c1 [x|e]].
  - unfold handleRevoke. destruct (negb _); [done|]. destruct (decode_revoke _) as [req|]; [|done].
    set (id := if String.eqb (rev_TokenID req) "" then _ else _). destruct (String.eqb id ""); [done|].
    pose proof (revoke_kept c id (NodeApi.now i) (io_row i)) as Hk.
    by destruct (Controller_Revoke _ _ _ _) as [c1 [x|e]].
Qed.

Lemma daemon_kept v s s' : daemon_step v s s' → kept (ctrl s) (ctrl s') ∧ token s' = token s.
Proof.
  intros [x r i Hv|x it now io Hit]; cbn [ctrl token]; [|split; [apply sweep_kept|done]].
  unfold Server_handle. destruct (gate_cases (token x) (ctrl x) r i) as (c1 & Hc & Hg).
  destruct (authLoopback _ _ r i) as [c' rep]. cbn in *. split; [|done].
  assert (kept (ctrl x) c1) as Hk by (destruct Hc as [-> |[host ->]]; [done|apply allow_kept]).
  destruct Hg as [[Hm _]|[-> _]]; [|done]. eapply steps_kept; [exact Hk|].
  pose proof (mux_kept c1 r i) as Hx. by rewrite <- Hm in Hx.
Qed.
Lemma daemon_runs v s s' : rtc (daemon_step v) s s' → kept (ctrl s) (ctrl s').
Proof.
  induction 1 as [|s1 s2 s3 Hs _ IH]; [done|]. eapply steps_kept; [by eapply daemon_kept|exact IH].
Qed.

(** ** A validator that denies *)

(** No session, and the device untouched. *)
Definition empty_node (g : G) c : Prop := Session.byToken (ses c) = ∅ ∧ wg c = g.

Lemma denied_authorize g c e pub ep now day io1 io2 : empty_node g c →
  empty_node g (Controller_Authorize c (Err e) pub ep now day io1 io2).1
  ∧ is_ok (Controller_Authorize c (Err e) pub ep now day io1 io2).2 = false.
Proof.
  intros Hi. unfold Controller_Authorize. destruct (EmergencyDisable (cfg c)); [done|].
  pose proof (precheck_kept c ep pub now) as (_ & Hs & Hw).
  destruct (Controller_abusePrecheck c ep pub now) as [c1 [[]|x]]; cbn [fst] in *; unfold empty_node in *;
    rewrite <- Hs, <- Hw in Hi; [|done].
  destruct (negb (AcceptNew (cfg c))); [done|]. destruct (_ <=? _); [done|]. destruct (_ && _); [done|].
  by destruct (Ipam.IPAM_Allocate (ip c1)) as [a [assigned|x]].
Qed.
Lemma empty_revoke g c id now io : empty_node g c → (Controller_Revoke c id now io).1 = c.
Proof. intros [Hi _]. unfold Controller_Revoke, Session.Manager_Get. by rewrite Hi, lookup_empty. Qed.
Lemma empty_sweep g c it now io : empty_node g c → it ≡ₚ map_to_list (Session.byToken (ses c)) →
  empty_node g (Controller_SweepOnce c it now io).1.
Proof.
  intros [Hi Hw]. rewrite Hi, map_to_list_empty. intros ->%Permutation_nil_r.
  unfold Controller_SweepOnce, Session.Manager_SweepOnce. cbn. by split.
Qed.
Lemma empty_count g c now : empty_node g c → active_count c now = 0.
Proof.
  intros [Hi _]. unfold active_count, Session.Manager_ActiveCount, Session.Manager_Active. by rewrite Hi, map_to_list_empty.
Qed.

Lemma denied_mux g c r i : (∀ raw, is_ok (validate i raw) = false) → empty_node g c →
  empty_node g (mux c r i).1
  ∧ (URLPath r = "/session/authorize" → status_of (mux c r i).2 ≠ 200).
Proof.
  intros Hv Hi. unfold mux.
  destruct (String.eqb_spec (URLPath r) "/health") as [->|_]; [done|].
  destruct (String.eqb_spec (URLPath r) "/capacity") as [->|_].
  { split; [by unfold handleCapacity; destruct (Controller_Capacity _ _) as [[? ?] ?]|done]. }
  destruct (String.eqb_spec (URLPath r) "/stats") as [->|_]; [done|].
  destruct (String.eqb_spec (URLPath r) "/session/authorize") as [->|Hn].
  - unfold handleAuthorize. destruct (negb _); [done|]. destruct (decode_authorize _) as [req|]; [|done].
    set (pub := if String.eqb (ClientKey req) "" then _ else _).
    specialize (Hv (req_Token req)). destruct (validate i (req_Token req)) as [t|e]; [done|].
    pose proof (denied_authorize g c e pub (Endpoint req) (NodeApi.now i) (NodeApi.day i) (io_row i) (io_counter i) Hi)
      as [He Ho].
    destruct (Controller_Authorize _ _ _ _ _ _ _ _) as [c1 [x|y]]; [done|]. split; [exact He|]. intros _. cbn.
    unfold authorize_status. repeat case_match; done.
  - split; [|done]. destruct (String.eqb _ _); [|done].
    unfold handleRevoke. destruct (negb _); [done|]. destruct (decode_revoke _) as [req|]; [|done].
    set (id := if String.eqb (rev_TokenID req) "" then _ else _). destruct (String.eqb id ""); [done|].
    pose proof (empty_revoke g c id (NodeApi.now i) (io_row i) Hi) as Hr.
    destruct (Controller_Revoke _ _ _ _) as [c1 [x|e]]; cbn in *; by subst.
Qed.

Lemma denied_request g s r i : (∀ raw, is_ok (validate i raw) = false) → empty_node g (ctrl s) →
  empty_node g (ctrl (Server_handle s r i).1)
  ∧ (URLPath r = "/session/authorize" → status_of (Server_handle s r i).2 ≠ 200).
Proof.
  intros Hv Hi. unfold Server_handle. destruct (gate_cases (token s) (ctrl s) r i) as (c1 & Hc & Hg).
  assert (empty_node g c1) as Hi1.
  { destruct Hc as [-> |[host ->]]; [done|]. pose proof (allow_kept (ctrl s) host (NodeApi.now i)) as (_ & Hs & Hw).
    unfold empty_node. by rewrite Hs, Hw. }
  destruct (authLoopback _ _ r i) as [c' rep] eqn:Ea. cbn in *.
  destruct Hg as [[Hm _]|[-> Hst]].
  - pose proof (denied_mux g c1 r i Hv Hi1) as Hx. by rewrite <- Hm in Hx.
  - split; [done|]. intros _ He. rewrite He in Hst. cbn in Hst.
    repeat (apply elem_of_cons in Hst as [Hst|Hst]; [discriminate Hst|]). by apply elem_of_nil in Hst.
Qed.
End daemon_proofs.

(** ** Starting *)

Section start.
Context {G O : Type} `{WGManager G, Runner O, WGKeys, HV : IPv6, GoArch, Unicode, ApiJSON, KeyError, NodeTOML, PolicyJSON,
  Curve25519, Sha256}.
Implicit Types (s : NodeApi.Server G) (d : node_dir).

Lemma token_files t rand w t' r : EnsureMgmtToken t rand w = (t', r) →
  match r with Ok tok => t' = Some tok | Err _ => t' = t end.
Proof.
  unfold EnsureMgmtToken. destruct t as [t|]; [destruct (_ <=? _); [by intros [= <- <-]|]|];
    (destruct rand as [raw|]; [|by intros [= <- <-]]);
    (destruct (w_mkdir w); [by intros [= <- <-]|]); destruct (w_write w); by intros [= <- <-].
Qed.

Lemma started d dev auto thr (g : G) (o : O) i d' o' s v :
  cmdRun d dev auto thr g o i = (d', o', Ok (s, v)) → ∃ c b,
  Load (d_config d) = Ok c ∧ OpenBlocklist (d_blocklist d) = Ok b
  ∧ cfg (ctrl s) = run_config c dev ∧ v = buildValidator (run_config c dev) dev
  ∧ empty_node g (ctrl s) ∧ g_blocklist <$> abuse (ctrl s) = Some b
  ∧ d' = set_token d (Some (token s)).
Proof.
  unfold cmdRun. destruct (Load (d_config d)) as [c|]; [|done].
  destruct (EnsureMgmtToken _ _ _) as [t [tok|]] eqn:Et; [|done]. apply token_files in Et as ->.
  destruct (ru_db i) as [db|]; [|done]. destruct (NewController _ _ _ _ _) as [ct|] eqn:Ec; [|done].
  cbn [set_token d_blocklist d_complaints]. destruct (OpenBlocklist (d_blocklist d)) as [b|]; [|done].
  intros [= <- _ <- <-]. exists c, b. unfold NewController in Ec.
  destruct (Config_Validate _); [|done]. destruct (Ipam.NewIPAM _); [|done]. injection Ec as <-. done.
Qed.

(** The token of the first start is the token of every later one. *)
Lemma token_stays t rand w t' tok : (∀ raw, rand = Some raw → length raw = 32%nat) →
  EnsureMgmtToken t rand w = (t', Ok tok) →
  32 ≤ len tok ∧ ∀ rand' w', EnsureMgmtToken t' rand' w' = (t', Ok tok).
Proof.
  intros Hr He. assert (t' = Some tok ∧ 32 ≤ len tok) as [-> Hl].
  { pose proof (token_files _ _ _ _ _ He) as ->. split; [done|].
    unfold EnsureMgmtToken in He. destruct t as [t|]; [destruct (Z.leb_spec 32 (len t)); [by injection He as <-|]|];
      (destruct rand as [raw|]; [|done]); (destruct (w_mkdir w); [done|]); (destruct (w_write w); [done|]);
      injection He as <-; rewrite hex_encode_length, (Hr raw eq_refl); lia. }
  split; [done|]. intros rand' w'. unfold EnsureMgmtToken. by rewrite (proj2 (Z.leb_le _ _)).
Qed.

Lemma policy_saved `{!PolicyJSONLaws} p f f' : SaveAbusePolicy p f None = (f', None) →
  LoadAbusePolicy f' = Ok (AbusePolicy_normalize p).
Proof. intros [= <-]. cbn. by rewrite policy_roundtrip. Qed.

(** The key of the configuration reaches neither the device nor the firewall:
    a daemon started after a rotation differs in its configuration only. *)
Lemma rotated_key_reaches_nothing c priv (g : G) db pub now os present (o : O) :
  NewController (set_key c priv) g db pub now
  = match NewController c g db pub now with Ok x => Ok (Controller.set_cfg x (set_key c priv)) | Err e => Err e end
  ∧ ApplyFirewall os present (set_key c priv) o = ApplyFirewall os present c o.
Proof.
  split; [|done]. unfold NewController. change (Config_Validate (set_key c priv)) with (Config_Validate c).
  destruct (Config_Validate c); [|done]. change (CGNAT (set_key c priv)) with (CGNAT c).
  by destruct (Ipam.NewIPAM (CGNAT c)).
Qed.

Lemma save_loads `{!NodeTOMLLaws} c f i f' : Config_Validate c = Ok tt → Save c f i = (f', None) → Load f' = Ok c.
Proof.
  intros Hv. unfold Save. destruct (w_mkdir i); [done|]. destruct (w_write i); [done|].
  destruct (node_toml_Encode c) as [text e] eqn:Ee. intros [= <- ->]. unfold Load.
  by rewrite (node_toml_roundtrip _ _ Ee), Hv.
Qed.
Lemma load_valid f c : Load f = Ok c → Config_Validate c = Ok tt.
Proof.
  unfold Load. destruct f; try done. destruct (node_toml_Decode _ _) as [c'|]; [|done].
  destruct (Config_Validate c') as [[]|] eqn:Ev; [|done]. by intros [= <-].
Qed.

Lemma allow_any_now v now raw t : AllowAny_Validate v now raw = Ok t → Session.tok_Raw t = raw ∧ now ≤ Session.tok_ExpiresAt t.
Proof.
  unfold AllowAny_Validate. destruct (String.eqb raw ""); [done|]. destruct (cut_last _ _) as [[p e]|].
  - destruct (parse_RFC3339Nano _) as [x|]; [|done]. unfold Time_Before.
    destruct (Z.ltb_spec now x); [|done]. cbn [negb]. destruct (String.eqb _ _); [done|]. intros [= <-]. split; [done|cbn; lia].
  - intros [= <-]. split; [done|]. cbn. unfold Time_Add, hour, minute, second.
    destruct (Z.leb_spec (DefaultTTL v) 0); lia.
Qed.
#[export] Instance allow_any_laws : Session.TokenValidatorLaws AllowAnyExpiryCheckedValidator.
Proof. split; intros v now raw t Hv; apply allow_any_now in Hv; [by apply Hv|right; by apply Hv]. Qed.

(** The text of a time has digits and the marks of the layout only. *)
Lemma digits_without c l : is_digit c = false → forallb is_digit l = true → mem_char c l = false.
Proof.
  intros Hc Hl. apply mem_char_false. intros Hin. rewrite forallb_forall in Hl.
  apply list_elem_of_In in Hin. by rewrite (Hl _ Hin) in Hc.
Qed.
Lemma time_text_bar t : mem_char "|"%char (chars (format_RFC3339Nano t)) = false.
Proof.
  assert (∀ w n, mem_char "|"%char (pad w n) = false) as Hp by (intros w n; by apply digits_without, pad_digits).
  assert (∀ l r, mem_char "|"%char (l ++ r) = mem_char "|"%char l || mem_char "|"%char r) as Ha
    by (intros l r; unfold mem_char; by rewrite existsb_app).
  assert (∀ x l, mem_char "|"%char (x :: l) = chr "|"%char x || mem_char "|"%char l) as Hc by done.
  assert (mem_char "|"%char (strip_zeros (pad 9 (t mod second))) = false) as Hs.
  { destruct (strip_zeros_split (pad 9 (t mod second))) as [k Hk]. pose proof (Hp 9%nat (t mod second)) as Hz.
    rewrite Hk, Ha in Hz. by apply orb_false_iff in Hz as [Hz _]. }
  unfold format_RFC3339Nano, date_text, clock_text, frac_text. destruct (civil _) as [[y m] d].
  rewrite chars_of_chars. destruct (strip_zeros _) as [|c l]; repeat first [rewrite Ha|rewrite Hc|rewrite Hp]; [done|].
  rewrite Hc in Hs. by rewrite Hs.
Qed.

(** A token with its expiry: what was written is what is read. *)
Lemma dev_token_expiry v now payload t : 0 ≤ t < max_text_time → payload ≠ "" →
  let raw := payload +:+ "|" +:+ format_RFC3339Nano t in
  AllowAny_Validate v now raw
  = (if now <? t then Ok (Session.mkToken (devID raw) "" payload t Session.ScopeExit raw) else Err Session.ErrExpired).
Proof.
  intros Ht Hp raw. unfold AllowAny_Validate.
  assert (cut_last "|"%char (chars raw) = Some (chars payload, chars (format_RFC3339Nano t))) as ->.
  { unfold raw, cut_last. rewrite !chars_app. change (chars "|") with ["|"%char]. cbn [app].
    rewrite reverse_app, reverse_cons, <- app_assoc. cbn [app].
    rewrite cut_first_app; [by rewrite !reverse_involutive|].
    rewrite elem_of_reverse. apply mem_char_false, time_text_bar. }
  destruct (String.eqb_spec raw "") as [E|_].
  { apply (f_equal String.length) in E. unfold raw in E. rewrite !len_app in E. cbn in E. lia. }
  rewrite !of_chars_chars, RFC3339Nano_text by done. unfold Time_Before.
  destruct (now <? t); cbn [negb]; [|done]. by rewrite (proj2 (String.eqb_neq _ _) Hp).
Qed.
End start.

(** ** Properties *)

(** without the development flag a node admits nobody.  Started from any
    files whose configuration does not ask for development tokens, and after
    any requests, sweeps and heartbeats: there is no session and never was a
    peer on the device, and every authorize request, whatever it carries, is
    answered by an error. *)
Theorem production_node_admits_nobody {G O} `{WGManager G, Runner O, WGKeys, IPv6, GoArch, Unicode, ApiJSON, KeyError,
    NodeTOML, Sha256} d auto thr (g : G) (o : O) i d' o' (s s' : NodeApi.Server G) v :
  (∀ c, Load (d_config d) = Ok c → DevAllowAny c = false) →
  cmdRun d false auto thr g o i = (d', o', Ok (s, v)) → rtc (daemon_step v) s s' →
  (∀ now, active_count (ctrl s') now = 0) ∧ wg (ctrl s') = g
  ∧ ∀ r j, (∀ raw, validate j raw = Session.Validate v (NodeApi.now j) raw) → URLPath r = "/session/authorize" →
      status_of (Server_handle s' r j).2 ≠ 200.
Proof.
  intros Hdev Hrun Hs. apply started in Hrun as (c & b & Hl & _ & _ & -> & Hi & _).
  unfold buildValidator, run_config in *. rewrite (Hdev c Hl) in *. cbn [orb] in *.
  set (v := Deny _) in *.
  assert (∀ now raw, is_ok (Session.Validate v now raw) = false) as Hv by done.
  assert (empty_node g (ctrl s')) as Hi'.
  { induction Hs as [|s1 s2 s3 Hs _ IH]; [done|]. apply IH. destruct Hs as [x r j Hj|x it now io Hit]; cbn [ctrl].
    - apply denied_request; [|done]. intros raw. by rewrite Hj.
    - by apply empty_sweep. }
  split; [intros now; by eapply empty_count|]. split; [apply Hi'|].
  intros r j Hj. apply (denied_request g); [|done]. intros raw. by rewrite Hj.
Qed.

(** C29: the complaint that reaches the threshold stops the node, once it is
    restarted.  When the command that reports abuse succeeds, the complaint has
    been appended to the log; and either the automatic stop is off or the log is
    short of the threshold, and the configuration is as before; or the
    configuration on disk is the same one, disabled, and a daemon started from
    the files then refuses every authorization, at every later time, changing
    nothing. *)
Theorem tripped_threshold_stops_node {G O} `{WGManager G, Runner O, WGKeys, IPv6, GoArch, Unicode, ApiJSON, KeyError,
    NodeTOML, !NodeTOMLLaws, PolicyJSON, Sha256} d reporter reason action subject i d' :
  cmdReportAbuse d reporter reason action subject i = (d', 0) → ∃ p co,
  LoadAbusePolicy (d_policy d) = Ok p
  ∧ cl_lines (d_complaints d') = cl_lines (d_complaints d) ++ [co] ∧ co_Reporter co = reporter ∧ co_Reason co = reason
  ∧ if AutoDisable p
       && (ComplaintThreshold (AbusePolicy_normalize p) <=? Z.of_nat (length (cl_lines (d_complaints d))) + 1)
    then ∃ c, Load (d_config d) = Ok c ∧ Load (d_config d') = Ok (set_disabled c)
      ∧ ∀ dev auto thr (g : G) (o : O) j d2 o2 (s s' : NodeApi.Server G) v,
          cmdRun d' dev auto thr g o j = (d2, o2, Ok (s, v)) → rtc (daemon_step v) s s' →
          ∀ validated pub ep now day io1 io2,
            Controller_Authorize (ctrl s') validated pub ep now day io1 io2 = (ctrl s', Err ErrDisabled)
    else d_config d' = d_config d.
Proof.
  unfold cmdReportAbuse. destruct (_ || _) eqn:Ea; [done|]. unfold ComplaintLog_Report. rewrite Ea.
  destruct (ri_append i); [done|]. cbn [set_log d_policy].
  destruct (LoadAbusePolicy (d_policy d)) as [p|]; [|done]. set (co := mkComplaint _ _ _ _ _).
  destruct (AutoDisable p) eqn:Eau; cbn [negb andb].
  2: { intros [= <-]. by exists p, co; rewrite Eau. }
  unfold ComplaintLog_Count. destruct (ri_count i); [done|].
  cbn [cl_lines]. rewrite length_app, Nat2Z.inj_add. change (Z.of_nat (length [co])) with 1.
  set (n := Z.of_nat _ + 1).
  assert ((if ComplaintThreshold p <=? 0 then DefaultComplaintThreshold else ComplaintThreshold p)
    = ComplaintThreshold (AbusePolicy_normalize p)) as -> by done.
  destruct (Z.ltb_spec n (ComplaintThreshold (AbusePolicy_normalize p))).
  { intros [= <-]. exists p, co. rewrite Eau. cbn [andb]. by rewrite (proj2 (Z.leb_gt _ _)). }
  cbn [set_log d_config]. destruct (Load (d_config d)) as [c|] eqn:El; [|done].
  destruct (Save (set_disabled c) (d_config d) (ri_save i)) as [f [e|]] eqn:Es; [done|]. intros [= <-].
  exists p, co. rewrite Eau. cbn [andb]. rewrite (proj2 (Z.leb_le _ _)) by done.
  split_and!; try done. exists c. cbn [set_config d_config].
  assert (Load f = Ok (set_disabled c)) as Hf by (eapply save_loads; [|exact Es]; exact (load_valid _ _ El)).
  split_and!; [done|exact Hf|]. intros dev auto thr g o j d2 o2 s s' v Hrun Hsteps validated pub ep now day io1 io2.
  apply started in Hrun as (c' & b & Hl & _ & Hcfg & _). cbn [set_config d_config] in Hl. rewrite Hf in Hl.
  injection Hl as <-. apply daemon_runs in Hsteps as [Hk _].
  unfold Controller_Authorize. rewrite Hk, Hcfg. by destruct dev.
Qed.

(** an address blocked from the command line is refused by the daemon
    started after.  Once blocking an IPv4 address has succeeded, a daemon
    started from the files, at any later time unless it is disabled, answers an
    authorization from that address, with any port, with the blocked error, and
    nothing changes. *)
Theorem blocked_address_refused {G O} `{WGManager G, Runner O, WGKeys, IPv6, GoArch, Unicode, ApiJSON, KeyError,
    NodeTOML, Sha256} d a w d' dev auto thr (g : G) (o : O) j d2 o2 (s s' : NodeApi.Server G) v text :
  0 ≤ a < 2 ^ 32 → cmdBlocklist d ["block-ip"; ipv4_String a] w = (d', 0) →
  cmdRun d' dev auto thr g o j = (d2, o2, Ok (s, v)) → rtc (daemon_step v) s s' →
  text = ipv4_String a ∨ (∃ port, text = ipv4_String a +:+ ":" +:+ port
     ∧ mem_char ":"%char (chars port) = false ∧ mem_char "["%char (chars port) = false
     ∧ mem_char "]"%char (chars port) = false) →
  ∀ validated pub now day io1 io2, Controller_Authorize (ctrl s') validated pub text now day io1 io2
    = (ctrl s', Err (if EmergencyDisable (cfg (ctrl s')) then ErrDisabled else ErrAbuse ErrBlocked)).
Proof.
  intros Ha Hb Hrun Hsteps Ht validated pub now day io1 io2.
  unfold cmdBlocklist in Hb. destruct (OpenBlocklist (d_blocklist d)) as [b|]; [|done].
  change (String.eqb "block-ip" "list") with false in Hb. change (String.eqb "block-ip" "block-ip") with true in Hb.
  cbv iota in Hb. destruct (String.eqb (ipv4_String a) ""); [done|].
  destruct (Blocklist_BlockIP b (ipv4_String a) w) as [b' [[]|]] eqn:Eb; [|done]. injection Hb as <-.
  assert (w = None) as ->.
  { unfold Blocklist_BlockIP, Blocklist_save in Eb. destruct (String.eqb _ _); [done|]. by destruct w. }
  apply started in Hrun as (c & b2 & _ & Hopen & _ & _ & _ & Hg & _).
  assert (b2 = NewBlocklist (bl_file b')) as ->.
  { unfold Blocklist_BlockIP, Blocklist_save in Eb. destruct (String.eqb _ _); [done|]. injection Eb as <-.
    cbn in Hopen. by injection Hopen. }
  apply daemon_runs in Hsteps as [_ Hk]. rewrite Hg in Hk.
  destruct (abuse (ctrl s')) as [gu|] eqn:Eg; [|done]. cbn in Hk. injection Hk as Hk.
  unfold Controller_Authorize. destruct (EmergencyDisable (cfg (ctrl s'))); [done|].
  unfold Controller_abusePrecheck. rewrite Eg.
  rewrite (block_ip_enforced b a b' (g_limiter gu) (g_complaints gu) (g_policy gu) (g_wired gu) text pub now gu Ha Eb Ht)
    by (right; rewrite <- Hk; by destruct gu).
  cbn. f_equal. destruct (ctrl s'); cbn in *. by subst.
Qed.

(** rotating the identity changes the key and nothing else.  When the
    command succeeds, the file loads as the configuration there was with a fresh
    private key, and the public key printed is the one of that private key;
    otherwise the exit code is 1, and unless encoding failed half-way the
    configuration file is as before. *)
Theorem rotation_changes_key_only `{IPv6, NodeTOML, !NodeTOMLLaws, Curve25519} d rand i d' code out :
  (∀ sk, rand = Some sk → length sk = KeyLen ∧ Forall is_byte sk) →
  cmdRotateKeys d rand i = (d', code, out) →
  match out with
  | Some pub => code = 0 ∧ ∃ c priv, Load (d_config d) = Ok c ∧ Load (d_config d') = Ok (set_key c priv)
                ∧ PublicKeyFor priv = Ok pub ∧ d' = set_config d (d_config d')
  | None => code = 1 ∧ (d' = d ∨ ∃ c priv, (node_toml_Encode (set_key c priv)).2 ≠ None)
  end.
Proof.
  intros Hr. unfold cmdRotateKeys. destruct (Load (d_config d)) as [c|] eqn:El; [|intros [= <- <- <-]; auto].
  destruct (GenerateKeypair rand) as [[priv pub]|] eqn:Eg; [|intros [= <- <- <-]; auto].
  destruct (Save (set_key c priv) (d_config d) i) as [f [e|]] eqn:Es; intros [= <- <- <-].
  - split; [done|]. unfold Save in Es.
    destruct (w_mkdir i); [injection Es as <- _; left; by destruct d|].
    destruct (w_write i); [injection Es as <- _; left; by destruct d|]. right. exists c, priv.
    destruct (node_toml_Encode _) as [t [x|]]; [done|discriminate Es].
  - split; [done|]. exists c, priv. cbn [set_config d_config].
    split; [done|]. split; [eapply save_loads; [|exact Es]; exact (load_valid _ _ El)|]. split; [|done].
    destruct rand as [sk|]; [|done]. destruct (Hr sk eq_refl). by eapply generated_public.
Qed.

(** ** Witnesses and examples *)

#[local] Existing Instances no_ipv6 amd64 ascii_unicode NodeApi.api_keys NodeApi.api_key_error NodeApi.api_json
  NodeFirewall.toy_tables WgConf.toy_curve toy_sha256.
#[local] Instance config_eq_dec : EqDecision Config.
Proof. solve_decision. Defined.

(** A TOML of two settings: the kill flag and the key. *)
#[local] Instance brief_toml : NodeTOML := {
  node_toml_Decode s base :=
    match s with
    | EmptyString => Err "empty document"
    | String f k => Ok (set_key (set_disable base (Ascii.eqb f "D"%char)) k)
    end;
  node_toml_Encode c :=
    if decide (c = set_key (set_disable DefaultConfig (EmergencyDisable c)) (WGPrivateKey c))
    then (String (if EmergencyDisable c then "D"%char else "E"%char) (WGPrivateKey c), None)
    else ("", Some "unsupported")
}.
#[local] Instance brief_toml_laws : NodeTOMLLaws.
Proof.
  split. intros c s. cbn. destruct (decide _) as [Hc|]; [|done]. intros [= <-].
  destruct (EmergencyDisable c) eqn:Ee; cbn; by rewrite <- Hc.
Qed.
#[local] Instance brief_policy : PolicyJSON := {
  policy_Unmarshal s := if String.eqb s "strict" then Ok (mkAbusePolicy true 1) else Err "unknown policy";
  policy_Marshal p := "strict"
}.

Definition demo_files : node_dir :=
  mkDir (Text "E") (Some "0123456789abcdef0123456789abcdef") (Text "strict") NoList (mkComplaintLog []).
Definition calm_write : write_io := mkWriteIO None None.
Definition demo_run : run_io := mkRunIO None calm_write (Ok NodeStore.empty_store) 0 Linux true.
Definition demo_start (d : node_dir) (dev : bool) :=
  cmdRun (G := FakeWGManager) d dev false 5 (mkFake ∅) ([], []) demo_run.
Definition no_server : NodeApi.Server FakeWGManager := NodeApi.demo_api.
Definition server_of (d : node_dir) (dev : bool) : NodeApi.Server FakeWGManager :=
  match (demo_start d dev).2 with Ok (s, _) => s | Err _ => no_server end.
Definition validator_of (d : node_dir) (dev : bool) : validator :=
  match (demo_start d dev).2 with Ok (_, v) => v | Err _ => Deny (Session.mkDeny "") end.
Definition demo_call (v : validator) (at_ : time) : api_io := mkApiIO (Session.Validate v at_) at_ "day" None None.
Definition demo_authorize : http_request :=
  demo_request "127.0.0.1:5000" "Bearer 0123456789abcdef0123456789abcdef" "/session/authorize" "t1".

Lemma production_node_admits_nobody_witness :
  status_of (Server_handle (server_of demo_files false) demo_authorize (demo_call (validator_of demo_files false) 5)).2 ≠ 200
  ∧ status_of (Server_handle (server_of demo_files true) demo_authorize (demo_call (validator_of demo_files true) 5)).2 = 200.
Proof.
  assert (demo_start demo_files false = ((demo_start demo_files false).1.1, (demo_start demo_files false).1.2,
    Ok (server_of demo_files false, validator_of demo_files false))) as E by (vm_compute; reflexivity).
  assert (∀ c, Load (d_config demo_files) = Ok c → DevAllowAny c = false) as Hd.
  { intros c Hc. assert (Load (d_config demo_files) = Ok DefaultConfig) as Hl by (vm_compute; reflexivity).
    rewrite Hl in Hc. injection Hc as <-. reflexivity. }
  destruct (production_node_admits_nobody demo_files false 5 (mkFake ∅) ([], []) demo_run _ _ _ _ _ Hd E (rtc_refl _ _))
    as (_ & _ & Hn).
  split; [|vm_compute; reflexivity].
  apply Hn; [intros raw; reflexivity|reflexivity].
Defined.

Definition demo_report : report_io := mkReportIO 9 None None calm_write.
Definition tripped_files : node_dir := (cmdReportAbuse demo_files "ops@example" "spam" "logged" "" demo_report).1.
Lemma tripped_threshold_stops_node_witness :
  Load (d_config tripped_files) = Ok (set_disabled DefaultConfig)
  ∧ (Controller_Authorize (ctrl (server_of tripped_files true)) (Err Session.ErrInvalid) "k" "" 7 "day" None None).2
    = Err ErrDisabled.
Proof.
  assert (cmdReportAbuse demo_files "ops@example" "spam" "logged" "" demo_report = (tripped_files, 0)) as E
    by (vm_compute; reflexivity).
  assert (demo_start tripped_files true = ((demo_start tripped_files true).1.1, (demo_start tripped_files true).1.2,
    Ok (server_of tripped_files true, validator_of tripped_files true))) as Er by (vm_compute; reflexivity).
  destruct (tripped_threshold_stops_node (G := FakeWGManager) (O := list (list string) * list (list string))
    _ _ _ _ _ _ _ E) as (p & co & Hp & _ & _ & _ & Hx).
  assert (LoadAbusePolicy (d_policy demo_files) = Ok (mkAbusePolicy true 1)) as Hq by (vm_compute; reflexivity).
  rewrite Hq in Hp. injection Hp as <-.
  assert (AutoDisable (mkAbusePolicy true 1)
    && (ComplaintThreshold (AbusePolicy_normalize (mkAbusePolicy true 1))
        <=? Z.of_nat (length (cl_lines (d_complaints demo_files))) + 1) = true) as Ht by (vm_compute; reflexivity).
  rewrite Ht in Hx. destruct Hx as (c & Hc & Hl & Hrun).
  assert (Load (d_config demo_files) = Ok DefaultConfig) as Hd by (vm_compute; reflexivity).
  rewrite Hd in Hc. injection Hc as <-. split; [exact Hl|].
  rewrite (Hrun _ _ _ _ _ _ _ _ _ _ _ Er (rtc_refl _ _)). reflexivity.
Defined.

Definition blocking_files : node_dir := (cmdBlocklist demo_files ["block-ip"; ipv4_String demo_addr] None).1.
Lemma blocked_address_refused_witness :
  (Controller_Authorize (ctrl (server_of blocking_files true)) (Err Session.ErrInvalid) "k" "10.0.0.7:4444" 7 "day" None None).2
  = Err (ErrAbuse ErrBlocked).
Proof.
  assert (cmdBlocklist demo_files ["block-ip"; ipv4_String demo_addr] None = (blocking_files, 0)) as E
    by (vm_compute; reflexivity).
  assert (demo_start blocking_files true = ((demo_start blocking_files true).1.1, (demo_start blocking_files true).1.2,
    Ok (server_of blocking_files true, validator_of blocking_files true))) as Er by (vm_compute; reflexivity).
  assert (0 ≤ demo_addr < 2 ^ 32) as Ha by (vm_compute; split; congruence).
  rewrite (blocked_address_refused _ _ _ _ _ _ _ _ _ _ _ _ _ _ _ "10.0.0.7:4444" Ha E Er (rtc_refl _ _)).
  - vm_compute. reflexivity.
  - right. exists "4444". vm_compute. split_and!; reflexivity.
Defined.

Lemma rotation_changes_key_only_witness :
  let '(d, code, out) := cmdRotateKeys demo_files (Some (repeat 255 32)) calm_write in
  code = 0 ∧ ∃ c priv, Load (d_config d) = Ok (set_key c priv) ∧ PublicKeyFor priv = Ok (default "" out).
Proof.
  destruct (cmdRotateKeys demo_files (Some (repeat 255 32)) calm_write) as [[d code] out] eqn:E.
  assert ((cmdRotateKeys demo_files (Some (repeat 255 32)) calm_write).2 ≠ None) as Ho by (vm_compute; discriminate).
  rewrite E in Ho. cbn in Ho.
  assert (∀ sk, Some (repeat 255 32) = Some sk → length sk = KeyLen ∧ Forall is_byte sk) as Hs.
  { intros sk Hsk. assert (sk = repeat 255 32) as -> by congruence. split; [reflexivity|]. apply Forall_forall. intros z Hz.
    apply list_elem_of_In, repeat_spec in Hz as ->. split; [vm_compute; congruence|reflexivity]. }
  pose proof (rotation_changes_key_only _ _ _ _ _ _ Hs E) as Hx. destruct out as [pub|]; [|destruct (Ho eq_refl)].
  destruct Hx as (Hc & c & priv & _ & Hl & Hp & _). split; [exact Hc|]. exists c, priv. split; [exact Hl|exact Hp].
Defined.

(** A token file edited by hand ends in a newline: the daemon keeps it as it
    is, and no request can present it, since the header is trimmed. *)
Definition edited_files : node_dir :=
  set_token demo_files (Some ("0123456789abcdef0123456789abcdef" +:+ String (ascii_of_nat 10) "")).
Example newline_locks_the_api_out :
  (Server_handle (server_of edited_files true) demo_authorize (demo_call (validator_of edited_files true) 5)).2
  = HTTPError StatusUnauthorized "unauthorized".
Proof. vm_compute. reflexivity. Qed.
