(* ===== verification/Enforce.v ===== *)
(** * Enforce: leak protection of one connection
      (internal/app/enforce.go, cmd/veilnet-service/enforce.go)

    The plan the client derives for a connection, the interface [Enforcer] the
    client drives, and the service's enforcer, which applies a plan through
    the kill switch, the resolver manager and the route manager on one shared
    machine.  Each manager keeps a copy of the machine's state; every call
    hands it the current one and takes the resulting one back. *)

From Stdlib Require Import ZArith Lia Ascii.
From S2P Require Import Prelude Float64 GoStrings NetIP GoText Runner.
From S2P Require Import Firewall.
From S2P Require Import Routing.
From S2P Require Import Dns.
From S2P Require Import ClientConfig.

(** ** Plans (internal/app/enforce.go) *)

Record EnforcePlan := mkEnforcePlan {
  p_KillSwitch : string;
  p_EndpointIP : string;
  p_EndpointPort : Z;
  p_TunAddr : string;
  p_TunIface : string;
  p_DNSMode : string;
  p_DNSServers : list string;
  p_RouteIPv6 : bool
}.

Record EnforceStatus (X : Type) := mkEnforceStatus {
  Available : bool;
  Applied : bool;
  st_KillSwitch : string;
  st_DNSMode : string;
  st_IPv6 : string;
  KillSwitchBackend : string;
  DNSBackend : string;
  RoutingBackend : string;
  st_Error : option X
}.
Arguments mkEnforceStatus {X}. Arguments Available {X}. Arguments Applied {X}.
Arguments st_KillSwitch {X}. Arguments st_DNSMode {X}. Arguments st_IPv6 {X}.
Arguments KillSwitchBackend {X}. Arguments DNSBackend {X}. Arguments RoutingBackend {X}. Arguments st_Error {X}.

(** What the client asks of an enforcer; [enf_error] is its error type. *)
Class Enforcer (E : Type) : Type := {
  enf_error : Type;
  enf_Apply : E → EnforcePlan → E * result enf_error unit;
  enf_Clear : E → E * result enf_error unit;
  enf_FailClosed : E → string → E * result enf_error unit;
  enf_Status : E → EnforceStatus enf_error
}.

(** [net.LookupIP]: the addresses a name resolves to. *)
Class NameService : Type := { net_LookupIP : string → result string (list IP) }.

Inductive plan_error := ErrEndpoint (ep : string) | ErrPort (ep : string) | ErrResolve (host : string).

Definition tunnelIfaceName : string := "veilnet".
Definition veilnetResolver : string := "10.89.0.1".

Definition is_V4 (ip : IP) : bool := match ip with V4 _ => true | V6 _ => false end.

Definition resolveEndpoint `{IPv6, NameService} (endpoint : string) : result plan_error (string * Z) :=
  match net_SplitHostPort (strings_TrimSpace endpoint) with
  | None => Err (ErrEndpoint endpoint)
  | Some (host, portStr) =>
    match strconv_Atoi portStr with
    | None => Err (ErrPort endpoint)
    | Some port =>
      if (port <=? 0) || (port >? 65535) then Err (ErrPort endpoint)
      else match net_ParseIP host with
      | Some ip => Ok (IP_String ip, port)
      | None =>
        match net_LookupIP host with
        | Err _ | Ok [] => Err (ErrResolve host)
        | Ok (a :: addrs) => Ok (IP_String (default a (List.find is_V4 (a :: addrs))), port)
        end
      end
    end
  end.

(** The text before the first slash. *)
Definition stripMask (addr : string) : string :=
  match strings_Cut addr "/"%char with Some (ip, _) => ip | None => addr end.

Definition buildEnforcePlan `{IPv6, NameService} (cfg : ClientConfig) (endpoint tunAddrCIDR : string)
  : result plan_error EnforcePlan :=
  match resolveEndpoint endpoint with
  | Err e => Err e
  | Ok (ip, port) =>
    let servers := Servers (ClientConfig.DNS cfg) in
    let servers := if String.eqb (dns_Mode (ClientConfig.DNS cfg)) "VEILNET" || (length servers =? 0)%nat
                   then [veilnetResolver] else servers in
    Ok (mkEnforcePlan (KillSwitch cfg) ip port (stripMask tunAddrCIDR) tunnelIfaceName
          (dns_Mode (ClientConfig.DNS cfg)) servers (IPv6Upstream (ClientConfig.DNS cfg)))
  end.

(** ** The service's enforcer (cmd/veilnet-service/enforce.go) *)

Inductive error :=
| ErrKill (e : Firewall.error) | ErrDNS (e : Dns.error) | ErrIPv6 (e : string)
| ErrCleanup (problems : list error) | ErrNotActive.

Record osEnforcer (O : Type) := mkEnforcer {
  os : O;
  kill : Firewall.Manager O;
  route : Routing.Manager O;
  dnsMgr : option (Dns.Manager O);
  dnsDisk : gmap string (option Dns.snapshot);
  dnsPaths : list string;
  applied : bool;
  killMode : string;
  dnsMode : string;
  ipv6 : string;
  lastErr : option error
}.
Arguments mkEnforcer {_}. Arguments os {_}. Arguments kill {_}. Arguments route {_}.
Arguments dnsMgr {_}. Arguments dnsDisk {_}. Arguments dnsPaths {_}. Arguments applied {_}.
Arguments killMode {_}. Arguments dnsMode {_}. Arguments ipv6 {_}. Arguments lastErr {_}.

Section enforcer.
Context {O : Type} (fb : Firewall.Backend O) (db : Dns.Backend O) (rb : Routing.Backend O).
Implicit Types e : osEnforcer O.

(** The kill switch and the route manager are made when the service starts;
    making the route manager undoes what a crashed run left. *)
Definition newEnforcer (o : O) killDisk killPaths routeDisk routePaths dnsDisk dnsPaths : osEnforcer O :=
  let r := Routing.New rb o routeDisk routePaths in
  mkEnforcer (Routing.os r) (Firewall.New o killDisk killPaths false) r None dnsDisk dnsPaths
    false "" "" "unknown" None.

Definition with_kill e (k : Firewall.Manager O) : osEnforcer O :=
  mkEnforcer (Firewall.os k) k (route e) (dnsMgr e) (dnsDisk e) (dnsPaths e) (applied e) (killMode e)
    (dnsMode e) (ipv6 e) (lastErr e).
Definition with_route e (r : Routing.Manager O) : osEnforcer O :=
  mkEnforcer (Routing.os r) (kill e) r (dnsMgr e) (dnsDisk e) (dnsPaths e) (applied e) (killMode e)
    (dnsMode e) (ipv6 e) (lastErr e).
Definition with_dns e (d : Dns.Manager O) : osEnforcer O :=
  mkEnforcer (Dns.os d) (kill e) (route e) (Some d) (Dns.disk d) (dnsPaths e) (applied e) (killMode e)
    (dnsMode e) (ipv6 e) (lastErr e).
Definition with_state e (a : bool) (k d v : string) (err : option error) : osEnforcer O :=
  mkEnforcer (os e) (kill e) (route e) (dnsMgr e) (dnsDisk e) (dnsPaths e) a k d v err.
Definition fail e (err : error) : osEnforcer O :=
  with_state e (applied e) (killMode e) (dnsMode e) (ipv6 e) (Some err).

(** The managers on the machine as it is now. *)
Definition kill_now e : Firewall.Manager O := Firewall.set_os (kill e) (os e).
Definition route_now e : Routing.Manager O := Routing.set_os (route e) (os e).

Definition kill_disable e : osEnforcer O := with_kill e (Firewall.Manager_Disable fb (kill_now e)).
Definition ipv6_restore e : osEnforcer O * result error unit :=
  let '(r, x) := Routing.RestoreIPv6 rb (route_now e) in (with_route e r, result_map_err ErrIPv6 x).
Definition dns_restore e : osEnforcer O * result error unit :=
  match dnsMgr e with
  | Some d => let '(d, x) := Dns.Manager_Restore db (Dns.set_os d (os e)) in
              (with_dns e d, result_map_err ErrDNS x)
  | None => (e, Ok tt)
  end.

Definition problem (x : result error unit) : list error := match x with Err e => [e] | Ok _ => [] end.

Definition clearLocked e : osEnforcer O * result error unit :=
  let '(e, x6) := if String.eqb (ipv6 e) "blocked" then ipv6_restore e else (e, Ok tt) in
  let '(e, xd) := dns_restore e in
  let e := kill_disable e in
  match problem x6 ++ problem xd with
  | [] => (with_state e false "" "" "unknown" None, Ok tt)
  | l => (with_state e false "" "" "unknown" (Some (ErrCleanup l)), Err (ErrCleanup l))
  end.
Definition Clear e : osEnforcer O * result error unit := clearLocked e.

(** Whether the plan turns the kill switch on. *)
Definition kill_wanted (p : EnforcePlan) : bool :=
  negb (String.eqb (p_KillSwitch p) Firewall.OFF) && negb (String.eqb (p_KillSwitch p) "").

(** The first step; a new enforcer has nothing to undo after it fails. *)
Definition apply_kill e (p : EnforcePlan) (write_ok : bool) : osEnforcer O * result error unit :=
  if kill_wanted p then
    let '(k, x) := Firewall.Manager_Enable fb (kill_now e) (p_KillSwitch p) (p_EndpointIP p)
                     (p_EndpointPort p) (p_TunAddr p) write_ok in
    (with_kill e k, result_map_err ErrKill x)
  else (e, Ok tt).
Definition undo_kill e (p : EnforcePlan) : osEnforcer O := if kill_wanted p then kill_disable e else e.

Definition apply_dns e (p : EnforcePlan) (write_ok : bool) : osEnforcer O * result error unit :=
  let '(d, x) := Dns.Manager_Apply db (Dns.New (os e) (dnsDisk e) (dnsPaths e) (p_TunIface p))
                   (p_DNSMode p) (p_DNSServers p) write_ok in
  (with_dns e d, result_map_err ErrDNS x).

Definition apply_ipv6 e (p : EnforcePlan) : osEnforcer O * result error unit :=
  if p_RouteIPv6 p then
    (with_state e (applied e) (killMode e) (dnsMode e) "routed" (lastErr e), Ok tt)
  else
    let '(r, x) := Routing.BlockIPv6 rb (route_now e) (p_TunIface p) in
    match x with
    | Ok _ => (with_state (with_route e r) (applied e) (killMode e) (dnsMode e) "blocked" (lastErr e), Ok tt)
    | Err er => (with_route e r, Err (ErrIPv6 er))
    end.

(** A step that fails undoes the ones before it, the last first. *)
Definition Apply e (p : EnforcePlan) (kill_ok dns_ok : bool) : osEnforcer O * result error unit :=
  let e := if applied e then (clearLocked e).1 else e in
  match apply_kill e p kill_ok with
  | (e, Err er) => (fail e er, Err er)
  | (e, Ok _) =>
    match apply_dns e p dns_ok with
    | (e, Err er) => (fail (undo_kill e p) er, Err er)
    | (e, Ok _) =>
      match apply_ipv6 e p with
      | (e, Err er) => (fail (undo_kill (dns_restore e).1 p) er, Err er)
      | (e, Ok _) => (with_state e true (p_KillSwitch p) (p_DNSMode p) (ipv6 e) None, Ok tt)
      end
    end
  end.

Definition FailClosed e (reason : string) : osEnforcer O * result error unit :=
  if applied e then
    match Firewall.Manager_FailClosed fb (kill_now e) reason with
    | (k, Err er) => (fail (with_kill e k) (ErrKill er), Err (ErrKill er))
    | (k, Ok _) => (with_kill e k, Ok tt)
    end
  else (e, Err ErrNotActive).

Definition Status e : EnforceStatus error :=
  mkEnforceStatus true (applied e)
    (if negb (applied e) && String.eqb (killMode e) "" then Firewall.OFF else killMode e)
    (dnsMode e) (ipv6 e) (Firewall.Name fb)
    (match dnsMgr e with Some _ => Dns.Name db | None => "" end) (Routing.Name rb) (lastErr e).

(** Calls in any order, with any outcome of the files' writes. *)
Inductive step : osEnforcer O → osEnforcer O → Prop :=
| step_apply e p k d : step e (Apply e p k d).1
| step_clear e : step e (Clear e).1
| step_fail_closed e reason : step e (FailClosed e reason).1.
End enforcer.

(** ** What the three backends promise each other

    No operation of one protection touches what another one guards. *)

Record fw_frame {O X} (fb : Firewall.Backend O) (V : O → X) : Prop := {
  fw_policy o : V (Firewall.be_CurrentPolicy fb o).1 = V o;
  fw_enable o s : V (Firewall.be_Enable fb o s).1 = V o;
  fw_remove o l : V (Firewall.be_Remove fb o l).1 = V o;
  fw_block o : V (Firewall.be_SetBlock fb o).1 = V o;
  fw_restore o p : V (Firewall.be_Restore fb o p).1 = V o
}.
Record dns_frame {O X} (db : Dns.Backend O) (V : O → X) : Prop := {
  df_current o i : V (be_Current db o i).1 = V o;
  df_set o i l : V (be_Set db o i l).1 = V o;
  df_doh o l : V (be_RegisterDOH db o l).1 = V o;
  df_restore o i l : V (Dns.be_Restore db o i l).1 = V o
}.
Record v6_frame {O X} (rb : Routing.Backend O) (V : O → X) : Prop := {
  vf_block o i : V (be_BlockIPv6 rb o i).1 = V o;
  vf_restore o : V (be_RestoreIPv6 rb o).1 = V o
}.

(** [v6_open] says whether IPv6 leaves the machine. *)
Class EnforcementLaws {O : Type} (fb : Firewall.Backend O) (db : Dns.Backend O) (rb : Routing.Backend O)
  : Type := {
  el_kill :: KillSwitchLaws fb;
  el_dns :: DnsLaws db;
  v6_open : O → bool;
  v6_block o i o' : be_BlockIPv6 rb o i = (o', Ok tt) → v6_open o' = false;
  v6_restore o o' : be_RestoreIPv6 rb o = (o', Ok tt) → v6_open o' = true;
  fw_dns i : fw_frame fb (fun o => resolvers o i);
  fw_v6 : fw_frame fb v6_open;
  dns_present : dns_frame db (fun o => present o);
  dns_blocked : dns_frame db (fun o => blocked o);
  dns_v6 : dns_frame db v6_open;
  v6_present : v6_frame rb (fun o => present o);
  v6_blocked : v6_frame rb (fun o => blocked o);
  v6_dns i : v6_frame rb (fun o => resolvers o i)
}.

(** ** Lemmas: frames *)

Section frames.
Context {O X : Type} (V : O → X).

Lemma stale_frame fb (m : Firewall.Manager O) : fw_frame fb V →
  V (Firewall.os (removeStale fb m)) = V (Firewall.os m).
Proof. intros F. unfold removeStale. case_match; [done|]. apply (fw_remove _ _ F). Qed.

Lemma disable_frame fb (m : Firewall.Manager O) : fw_frame fb V →
  V (Firewall.os (Firewall.Manager_Disable fb m)) = V (Firewall.os m).
Proof.
  intros F. unfold Firewall.Manager_Disable. cbn.
  repeat case_match; rewrite ?(fw_restore _ _ F), ?(fw_remove _ _ F); done.
Qed.

Lemma enable_frame fb (m : Firewall.Manager O) md ip port tun ok : fw_frame fb V →
  V (Firewall.os (Firewall.Manager_Enable fb m md ip port tun ok).1) = V (Firewall.os m).
Proof.
  intros F. pose proof (stale_frame fb m F) as Fs. pose proof (disable_frame fb m F).
  unfold Firewall.Manager_Enable, writeSentinel. destruct (decide _); [done|].
  destruct (bad_endpoint _ _); [done|]. destruct (String.eqb _ _); [done|].
  set (m1 := removeStale fb m) in *.
  destruct (be_CurrentPolicy fb (Firewall.os m1)) as [o1 [p|e1]] eqn:E1;
    pose proof (fw_policy _ _ F (Firewall.os m1)) as F1; rewrite E1 in F1; cbn in F1; [|cbn; congruence].
  set (s := mkSpec _ _ _ _).
  destruct (be_Enable fb o1 s) as [o2 [[]|e2]] eqn:E2;
    pose proof (fw_enable _ _ F o1 s) as F2; rewrite E2 in F2; cbn in F2;
    [|cbn; rewrite (fw_remove _ _ F); congruence].
  destruct (be_SetBlock fb o2) as [o3 [[]|e3]] eqn:E3;
    pose proof (fw_block _ _ F o2) as F3; rewrite E3 in F3; cbn in F3;
    [|cbn; rewrite (fw_remove _ _ F); congruence].
  cbn. by rewrite F3, F2, F1.
Qed.

Lemma fail_closed_frame fb (m : Firewall.Manager O) reason : fw_frame fb V →
  V (Firewall.os (Firewall.Manager_FailClosed fb m reason).1) = V (Firewall.os m).
Proof.
  intros F. unfold Firewall.Manager_FailClosed. destruct (active m); [|done].
  pose proof (fw_block _ _ F (Firewall.os m)) as F1.
  by destruct (be_SetBlock fb (Firewall.os m)) as [o [x|x]].
Qed.

Lemma dns_restore_frame db (m : Dns.Manager O) : dns_frame db V →
  V (Dns.os (Dns.Manager_Restore db m).1) = V (Dns.os m).
Proof.
  intros F. unfold Dns.Manager_Restore. pose proof (df_restore _ _ F (Dns.os m) (Dns.iface m)) as F1.
  specialize (F1 (prior_servers m)). by destruct (Dns.be_Restore _ _ _ _).
Qed.

Lemma snapshot_frame db (m : Dns.Manager O) ok : dns_frame db V →
  V (Dns.os (ensureSnapshot db m ok)) = V (Dns.os m).
Proof.
  intros F. unfold ensureSnapshot. destruct (has_snapshot m); [done|].
  pose proof (df_current _ _ F (Dns.os m) (Dns.iface m)) as F1. by destruct (be_Current _ _ _).
Qed.

Lemma set_frame db (m : Dns.Manager O) o md l : dns_frame db V →
  V (Dns.os (let '(o, r) := be_Set db o (Dns.iface m) l in installed m md l o r).1) = V o.
Proof.
  intros F. pose proof (df_set _ _ F o (Dns.iface m) l) as F1.
  by destruct (be_Set db o (Dns.iface m) l) as [o' [[]|e]].
Qed.

Lemma dns_apply_frame db (m : Dns.Manager O) md l ok : dns_frame db V →
  V (Dns.os (Dns.Manager_Apply db m md l ok).1) = V (Dns.os m).
Proof.
  intros F. pose proof (snapshot_frame db m ok F) as Fs. unfold Dns.Manager_Apply.
  destruct (_ || _).
  { destruct (_ =? _)%nat; [done|]. by rewrite set_frame. }
  destruct (String.eqb md DOH).
  { destruct (_ =? _)%nat; [done|]. unfold apply_doh. destruct (List.find unknown l); [done|].
    pose proof (df_doh _ _ F (Dns.os (ensureSnapshot db m ok)) l) as F1.
    destruct (be_RegisterDOH db _ l) as [o [[]|e]]; cbn in F1; [|cbn; congruence].
    pose proof (set_frame db (Dns.set_os (ensureSnapshot db m ok) o) o DOH l F) as F2.
    etransitivity; [exact F2|]. by etransitivity; [exact F1|]. }
  destruct (String.eqb md SYSTEM); [|done].
  pose proof (dns_restore_frame db m F) as F1. destruct (Dns.Manager_Restore db m) as [m' [[]|e]]; exact F1.
Qed.

Lemma block6_frame rb (m : Routing.Manager O) i : v6_frame rb V →
  V (Routing.os (Routing.BlockIPv6 rb m i).1) = V (Routing.os m).
Proof.
  intros F. unfold Routing.BlockIPv6. pose proof (vf_block _ _ F (Routing.os m) i) as F1.
  by destruct (be_BlockIPv6 rb _ i) as [o [[]|e]].
Qed.

Lemma restore6_frame rb (m : Routing.Manager O) : v6_frame rb V →
  V (Routing.os (Routing.RestoreIPv6 rb m).1) = V (Routing.os m).
Proof.
  intros F. unfold Routing.RestoreIPv6, restore_IPv6. pose proof (vf_restore _ _ F (Routing.os m)) as F1.
  by destruct (be_RestoreIPv6 rb _) as [o x].
Qed.
End frames.

(** ** Lemmas: one connection *)

Section enforcement.
Context {O : Type} (fb : Firewall.Backend O) (db : Dns.Backend O) (rb : Routing.Backend O).
Context `{!EnforcementLaws fb db rb}.
Implicit Types e : osEnforcer O.

(** Nothing applied, and nothing left by a crashed run. *)
Record idle e : Prop := {
  id_applied : applied e = false;
  id_active : active (kill e) = false;
  id_sentinel : readSentinel (kill e) = zero_sentinel;
  id_kill_paths : sentinelPaths (kill e) ≠ [];
  id_dns_paths : dnsPaths e ≠ [];
  id_dns_disk : Forall (fun f => dnsDisk e !! f = None) (dnsPaths e)
}.

Definition spec_of e (p : EnforcePlan) : Spec :=
  mkSpec (p_EndpointIP p) (p_EndpointPort p) (p_TunAddr p) (lanAllowed (kill e)).
Abbreviation rules e p := (list_to_set (C := gset string) (RuleNames fb (spec_of e p))).

(** The resolvers [base] are in place or in a snapshot. *)
Definition dns_saved (base : list string) (i : string) e : Prop :=
  ∃ d, dnsMgr e = Some d ∧ saved db base (Dns.set_os d (os e)) ∧ Dns.iface d = i.

(** A plan in force since [e0]. *)
Record protected e0 (p : EnforcePlan) e : Prop := {
  pr_applied : applied e = true;
  pr_kill : engaged fb (kill_now e0) (kill_now e) (p_KillSwitch p) (spec_of e0 p);
  pr_dns : ∃ d, dnsMgr e = Some d ∧ saved db (resolvers (os e0) (p_TunIface p)) d
             ∧ has_snapshot d = true ∧ Dns.iface d = p_TunIface p
             ∧ Dns.mode d = p_DNSMode p ∧ Dns.servers d = p_DNSServers p;
  pr_v6 : if p_RouteIPv6 p then ipv6 e = "routed" ∧ v6_open (os e) = v6_open (os e0)
          else ipv6 e = "blocked" ∧ v6_open (os e) = false;
  pr_modes : killMode e = p_KillSwitch p ∧ dnsMode e = p_DNSMode p
}.

Lemma engaged_os m m1 md s o : engaged fb m m1 md s → present o = present (Firewall.os m1) →
  blocked o = blocked (Firewall.os m1) → engaged fb m (Firewall.set_os m1 o) md s.
Proof. intros [Ha Hm Hs Hb Hr Ho Hk] Hp Hbl. by split; cbn; rewrite ?Hp, ?Hbl. Qed.

Lemma kill_now_with e k : kill_now (with_kill e k) = k.
Proof. by destruct k. Qed.

(** Applying resolvers over no snapshot, in a mode that is not SYSTEM. *)
Lemma apply_dns_facts e p e1 r : dnsPaths e ≠ [] →
  Forall (fun f => dnsDisk e !! f = None) (dnsPaths e) → p_DNSMode p ≠ SYSTEM →
  apply_dns db e p true = (e1, r) →
  ∃ d, dnsMgr e1 = Some d ∧ os e1 = Dns.os d ∧ saved db (resolvers (os e) (p_TunIface p)) d
    ∧ Dns.iface d = p_TunIface p
    ∧ (r = Ok tt → has_snapshot d = true ∧ Dns.mode d = p_DNSMode p ∧ Dns.servers d = p_DNSServers p).
Proof.
  intros Hp Hd Hm. unfold apply_dns. set (m := Dns.New _ _ _ _).
  assert (saved db (resolvers (os e) (p_TunIface p)) m) as Hs by by apply saved_new.
  pose proof (saved_apply db _ _ _ (p_DNSServers p) Hm Hs) as Hs1.
  pose proof (fun d => apply_recorded db _ m (p_DNSMode p) (p_DNSServers p) d Hm Hs) as Ha.
  pose proof (Dns.manager_step_frame db _ _ (Dns.step_apply db m (p_DNSMode p) (p_DNSServers p) Hm)) as Hi.
  destruct (Dns.Manager_Apply db m _ _ _) as [d x]. intros [= <- <-]. exists d. split_and!; try done.
  destruct x as [[]|x]; [|done]. intros _. by apply Ha.
Qed.

Lemma result_ok {E F A} (f : E → F) (r : result E A) a : result_map_err f r = Ok a → r = Ok a.
Proof. by destruct r; [intros [= ->]|]. Qed.

(** The first step, when the kill switch comes on. *)
Lemma kill_step e0 p ok e1 r : idle e0 → kill_wanted p = true → apply_kill fb e0 p ok = (e1, r) →
  e1 = with_kill e0 (kill e1) ∧ (∀ i, resolvers (os e1) i = resolvers (os e0) i)
  ∧ v6_open (os e1) = v6_open (os e0)
  ∧ (r = Ok tt → ok = true →
     engaged fb (kill_now e0) (kill_now e1) (p_KillSwitch p) (spec_of e0 p))
  ∧ (is_ok r = false → present (os e0) ## rules e0 p →
     active (kill e1) = false ∧ present (os e1) = present (os e0) ∧ blocked (os e1) = blocked (os e0)).
Proof.
  intros Hid Hk. unfold apply_kill. rewrite Hk.
  pose proof (enable_ok fb (kill_now e0)) as Hok. pose proof (enable_err fb (kill_now e0)) as Herr.
  specialize (Herr) with (md := p_KillSwitch p) (ip := p_EndpointIP p) (port := p_EndpointPort p)
    (tun := p_TunAddr p) (ok := ok).
  pose proof (fun k => enable_kept_inactive fb (kill_now e0) k (p_KillSwitch p) (p_EndpointIP p)
    (p_EndpointPort p) (p_TunAddr p) ok) as Hin.
  pose proof (fun i => enable_frame (fun o => resolvers o i) fb (kill_now e0) (p_KillSwitch p)
    (p_EndpointIP p) (p_EndpointPort p) (p_TunAddr p) ok (fw_dns i)) as Fd.
  pose proof (enable_frame v6_open fb (kill_now e0) (p_KillSwitch p)
    (p_EndpointIP p) (p_EndpointPort p) (p_TunAddr p) ok fw_v6) as F6.
  assert (p_KillSwitch p ≠ Firewall.OFF) as Hoff.
  { unfold kill_wanted in Hk. by destruct (String.eqb_spec (p_KillSwitch p) Firewall.OFF). }
  destruct (Firewall.Manager_Enable fb (kill_now e0) _ _ _ _ _) as [k x] eqn:Ek.
  intros [= <- <-]. rewrite kill_now_with. split_and!; [done|exact Fd|exact F6| |].
  - intros ->%result_ok ->. by apply Hok; [done|apply Hid|apply Hid|].
  - destruct x as [|x]; [done|]. intros _ Hd.
    destruct (Herr k x (id_sentinel _ Hid) (id_active _ Hid) Hoff Hd eq_refl) as (_ & _ & Hp & Hb).
    split_and!; [|exact Hp|exact Hb]. by apply (Hin _ _ (id_active _ Hid) eq_refl).
Qed.

(** The second step leaves the kill switch as it was. *)
Lemma dns_step e p e1 r : apply_dns db e p true = (e1, r) →
  (∃ d, e1 = with_dns e d) ∧ present (os e1) = present (os e) ∧ blocked (os e1) = blocked (os e)
  ∧ v6_open (os e1) = v6_open (os e).
Proof.
  unfold apply_dns. set (m := Dns.New _ _ _ _).
  pose proof (dns_apply_frame _ db m (p_DNSMode p) (p_DNSServers p) true dns_present) as F1.
  pose proof (dns_apply_frame _ db m (p_DNSMode p) (p_DNSServers p) true dns_blocked) as F2.
  pose proof (dns_apply_frame _ db m (p_DNSMode p) (p_DNSServers p) true dns_v6) as F3.
  destruct (Dns.Manager_Apply db m _ _ _) as [d x]. intros [= <- <-]. by split; [exists d|].
Qed.

(** The third step leaves the kill switch and the resolvers as they were. *)
Lemma ipv6_step e p e1 r : apply_ipv6 rb e p = (e1, r) →
  kill e1 = kill e ∧ dnsMgr e1 = dnsMgr e ∧ dnsDisk e1 = dnsDisk e
  ∧ present (os e1) = present (os e) ∧ blocked (os e1) = blocked (os e)
  ∧ (∀ i, resolvers (os e1) i = resolvers (os e) i)
  ∧ (r = Ok tt → if p_RouteIPv6 p then ipv6 e1 = "routed" ∧ v6_open (os e1) = v6_open (os e)
                 else ipv6 e1 = "blocked" ∧ v6_open (os e1) = false).
Proof.
  unfold apply_ipv6. destruct (p_RouteIPv6 p); [by intros [= <- <-]|].
  pose proof (block6_frame _ rb (route_now e) (p_TunIface p) v6_present) as F1.
  pose proof (block6_frame _ rb (route_now e) (p_TunIface p) v6_blocked) as F2.
  pose proof (fun i => block6_frame _ rb (route_now e) (p_TunIface p) (v6_dns i)) as F3.
  pose proof (v6_block (route_now e).(Routing.os) (p_TunIface p)) as Hv.
  unfold Routing.BlockIPv6 in *. destruct (be_BlockIPv6 rb _ _) as [o [[]|x]];
    intros [= <- <-]; split_and!; try done. intros _. split; [done|]. by apply Hv.
Qed.

Lemma saved_recorded base d o : has_snapshot d = true → saved db base d →
  saved db base (Dns.set_os d o).
Proof. intros Hh Hs. by apply (saved_os db base d). Qed.

(** A successful apply puts the plan in force. *)
Lemma apply_protects e0 p e : idle e0 → kill_wanted p = true → p_DNSMode p ≠ SYSTEM →
  Apply fb db rb e0 p true true = (e, Ok tt) → protected e0 p e.
Proof.
  intros Hid Hk Hm. unfold Apply. rewrite (id_applied _ Hid).
  destruct (apply_kill fb e0 p true) as [e1 [[]|x]] eqn:E1; [|done].
  destruct (kill_step _ _ _ _ _ Hid Hk E1) as (W1 & D1 & V1 & K1 & _). specialize (K1 eq_refl eq_refl).
  destruct (apply_dns db e1 p true) as [e2 [[]|x]] eqn:E2; [|done].
  destruct (dns_step _ _ _ _ E2) as ([d2 W2] & P2 & B2 & V2).
  destruct (apply_dns_facts e1 p e2 (Ok tt)) as (d & Hd & Ho & Hs & Hi & Hr);
    [rewrite W1; apply Hid|rewrite W1; apply Hid|done|done|]. destruct (Hr eq_refl) as (Hh & Hmo & Hse).
  destruct (apply_ipv6 rb e2 p) as [e3 [[]|x]] eqn:E3; [|done].
  destruct (ipv6_step _ _ _ _ E3) as (Wk & Wd & _ & P3 & B3 & _ & V3). specialize (V3 eq_refl).
  intros [= <-]. split; cbn [applied with_state killMode dnsMode ipv6 dnsMgr os]; try done.
  - change (kill_now (with_state e3 _ _ _ _ _)) with (Firewall.set_os (kill e3) (os e3)).
    rewrite Wk. assert (kill e2 = kill e1) as -> by (by rewrite W2).
    apply (engaged_os _ _ _ _ (os e3)) in K1; [exact K1|cbn; congruence|cbn; congruence].
  - exists d. rewrite Wd. split_and!; try done. by rewrite <- (D1 (p_TunIface p)).
  - destruct (p_RouteIPv6 p); [|done]. destruct V3 as [? ->]. split; [done|]. by rewrite V2, V1.
Qed.

Lemma fail_closed_protects e0 p e reason : protected e0 p e →
  protected e0 p (FailClosed fb e reason).1.
Proof.
  intros [Pa Pk (d & Pd) Pv Pm]. unfold FailClosed. rewrite Pa.
  pose proof (fail_closed_engaged fb _ _ _ _ reason Pk) as Hk.
  pose proof (fail_closed_frame v6_open fb (kill_now e) reason fw_v6) as F6.
  destruct (Firewall.Manager_FailClosed fb (kill_now e) reason) as [k [x|x]]; cbn [fst] in *;
    (split; [done| |by exists d| |done]).
  1, 3: by destruct k.
  all: cbn; rewrite F6; done.
Qed.

(** Undoing the third step. *)
Lemma ipv6_restore_step e e1 r : ipv6_restore rb e = (e1, r) →
  kill e1 = kill e ∧ dnsMgr e1 = dnsMgr e
  ∧ present (os e1) = present (os e) ∧ blocked (os e1) = blocked (os e)
  ∧ (∀ i, resolvers (os e1) i = resolvers (os e) i) ∧ (r = Ok tt → v6_open (os e1) = true).
Proof.
  unfold ipv6_restore.
  pose proof (restore6_frame _ rb (route_now e) v6_present) as F1.
  pose proof (restore6_frame _ rb (route_now e) v6_blocked) as F2.
  pose proof (fun i => restore6_frame _ rb (route_now e) (v6_dns i)) as F3.
  unfold Routing.RestoreIPv6, restore_IPv6 in *. cbn [route_now Routing.os Routing.set_os] in *.
  destruct (be_RestoreIPv6 rb (os e)) as [o x] eqn:Ex. intros [= <- <-]. split_and!; try done.
  intros ->%result_ok. by apply v6_restore in Ex.
Qed.

(** Undoing the second step, when a snapshot holds [base]. *)
Lemma dns_restore_step e d base e1 r : dnsMgr e = Some d → has_snapshot d = true → saved db base d →
  dns_restore db e = (e1, r) →
  kill e1 = kill e ∧ present (os e1) = present (os e) ∧ blocked (os e1) = blocked (os e)
  ∧ v6_open (os e1) = v6_open (os e) ∧ (r = Ok tt → resolvers (os e1) (Dns.iface d) = base)
  ∧ ∃ d', dnsMgr e1 = Some d' ∧ has_snapshot d' = false.
Proof.
  intros Hd Hh Hs. unfold dns_restore. rewrite Hd. set (m := Dns.set_os d (os e)).
  pose proof (dns_restore_frame _ db m dns_present) as F1.
  pose proof (dns_restore_frame _ db m dns_blocked) as F2.
  pose proof (dns_restore_frame _ db m dns_v6) as F3.
  pose proof (saved_restore db base m Hh) as Hr. pose proof (restore_facts db m) as (Hn & _).
  destruct (Dns.Manager_Restore db m) as [d' x]. intros [= <- <-]. split_and!; try done; [|by exists d'].
  intros ->%result_ok. by apply (Hr eq_refl (saved_recorded _ _ _ Hh Hs)).
Qed.

(** Undoing the first step. *)
Lemma kill_disable_step e0 p e : present (os e0) ## rules e0 p →
  engaged fb (kill_now e0) (kill_now e) (p_KillSwitch p) (spec_of e0 p) →
  let e' := kill_disable fb e in
  active (kill e') = false ∧ readSentinel (kill e') = zero_sentinel
  ∧ present (os e') = present (os e0)
  ∧ ((∀ o s, snap (be := fb) s → (Firewall.be_Restore fb o s).2 = Ok tt) → blocked (os e') = blocked (os e0))
  ∧ (∀ i, resolvers (os e') i = resolvers (os e) i) ∧ v6_open (os e') = v6_open (os e)
  ∧ dnsMgr e' = dnsMgr e.
Proof.
  intros Hd Hen. destruct (disable_engaged fb _ _ _ _ Hen Hd) as (Ha & Hs & Hp & Hb & Hsn).
  cbn zeta. split_and!; [exact Ha|exact Hs|exact Hp| | | |done].
  - intros Hr. exact (Hb (Hr _ _ Hsn)).
  - intros i. exact (disable_frame _ fb (kill_now e) (fw_dns i)).
  - exact (disable_frame _ fb (kill_now e) fw_v6).
Qed.

(** What clearing a plan in force leaves, if no step reports a problem. *)
Lemma clear_restores e0 p e e' : present (os e0) ## rules e0 p → protected e0 p e →
  Clear fb db rb e = (e', Ok tt) →
  applied e' = false ∧ active (kill e') = false ∧ readSentinel (kill e') = zero_sentinel
  ∧ present (os e') = present (os e0)
  ∧ ((∀ o s, snap (be := fb) s → (Firewall.be_Restore fb o s).2 = Ok tt) → blocked (os e') = blocked (os e0))
  ∧ resolvers (os e') (p_TunIface p) = resolvers (os e0) (p_TunIface p)
  ∧ v6_open (os e') = (if p_RouteIPv6 p then v6_open (os e0) else true)
  ∧ ∃ d, dnsMgr e' = Some d ∧ has_snapshot d = false.
Proof.
  intros Hd [Pa Pk (d & Pd & Ps & Ph & Pi & _) Pv Pm]. unfold Clear, clearLocked.
  destruct (if String.eqb (ipv6 e) "blocked" then _ else _) as [e1 x6] eqn:E1.
  assert (kill e1 = kill e ∧ dnsMgr e1 = dnsMgr e ∧ present (os e1) = present (os e)
    ∧ blocked (os e1) = blocked (os e)
    ∧ (x6 = Ok tt → v6_open (os e1) = if p_RouteIPv6 p then v6_open (os e0) else true))
    as (K1 & D1 & P1 & B1 & V1).
  { destruct (p_RouteIPv6 p); destruct Pv as [Pv Po]; rewrite Pv in E1; cbn [String.eqb] in E1.
    - injection E1 as <- <-. by split_and!.
    - apply ipv6_restore_step in E1 as (? & ? & ? & ? & _ & ?). by split_and!. }
  rewrite <- D1 in Pd. destruct (dns_restore db e1) as [e2 xd] eqn:E2.
  destruct (dns_restore_step _ _ _ _ _ Pd Ph Ps E2) as (K2 & P2 & B2 & V2 & R2 & d2 & D2 & H2).
  assert (engaged fb (kill_now e0) (kill_now e2) (p_KillSwitch p) (spec_of e0 p)) as Hen.
  { unfold kill_now at 2. rewrite K2, K1. apply (engaged_os _ _ _ _ (os e2)) in Pk; [exact Pk|..];
      cbn; congruence. }
  destruct (kill_disable_step _ _ _ Hd Hen) as (A3 & S3 & P3 & B3 & R3 & V3 & D3).
  destruct x6 as [[]|]; [|by destruct xd]. destruct xd as [[]|]; [|done]. intros [= <-].
  cbn [os applied kill with_state dnsMgr]. split_and!; try done.
  - by rewrite R3, <- (R2 eq_refl), Pi.
  - by rewrite V3, V2, V1.
  - exists d2. by rewrite D3.
Qed.

(** No restore the plan may ask for fails. *)
Definition restores_work : Prop :=
  (∀ o s, snap (be := fb) s → (Firewall.be_Restore fb o s).2 = Ok tt)
  ∧ (∀ o i l, valid l → (Dns.be_Restore db o i l).2 = Ok tt).

(** What undoing the second step leaves when nothing was recorded yet. *)
Lemma dns_restore_frames e e1 r : dns_restore db e = (e1, r) →
  kill e1 = kill e ∧ present (os e1) = present (os e) ∧ blocked (os e1) = blocked (os e)
  ∧ v6_open (os e1) = v6_open (os e).
Proof.
  unfold dns_restore. destruct (dnsMgr e) as [d|]; [|by intros [= <- _]]. set (m := Dns.set_os d (os e)).
  pose proof (dns_restore_frame _ db m dns_present) as F1.
  pose proof (dns_restore_frame _ db m dns_blocked) as F2.
  pose proof (dns_restore_frame _ db m dns_v6) as F3.
  destruct (Dns.Manager_Restore db m) as [d' x]. by intros [= <- _].
Qed.

(** What a failed apply leaves of the kill switch and of the other two views,
    by the step that failed. *)
Definition rolled_back e0 (p : EnforcePlan) e (er : error) : Prop :=
  applied e = false ∧ active (kill e) = false
  ∧ present (os e) = present (os e0) ∧ blocked (os e) = blocked (os e0)
  ∧ match er with
    | ErrKill _ => v6_open (os e) = v6_open (os e0)
        ∧ resolvers (os e) (p_TunIface p) = resolvers (os e0) (p_TunIface p)
    | ErrDNS _ => v6_open (os e) = v6_open (os e0)
        ∧ ∃ d, dnsMgr e = Some d ∧ Dns.iface d = p_TunIface p
            ∧ saved db (resolvers (os e0) (p_TunIface p)) (Dns.set_os d (os e))
    | _ => resolvers (os e) (p_TunIface p) = resolvers (os e0) (p_TunIface p)
        ∧ ∃ d, dnsMgr e = Some d ∧ has_snapshot d = false
    end.

Lemma kill_failure e0 p e1 x : idle e0 → kill_wanted p = true → present (os e0) ## rules e0 p →
  apply_kill fb e0 p true = (e1, Err x) → rolled_back e0 p (fail e1 x) x.
Proof.
  intros Hid Hk Hd E1. destruct (kill_step _ _ _ _ _ Hid Hk E1) as (W1 & D1 & V1 & _ & N1).
  destruct (N1 eq_refl Hd) as (A1 & P1 & B1).
  assert (∃ y, x = ErrKill y) as [y ->].
  { unfold apply_kill in E1. rewrite Hk in E1. destruct (Firewall.Manager_Enable _ _ _ _ _ _ _) as [? [|]];
      cbn in E1; [done|]. injection E1 as _ <-. eauto. }
  split_and!; try done. cbn. rewrite W1. apply Hid.
Qed.

Lemma dns_failure e0 p e1 e2 x : present (os e0) ## rules e0 p → restores_work → applied e1 = false →
  engaged fb (kill_now e0) (kill_now e2) (p_KillSwitch p) (spec_of e0 p) →
  v6_open (os e2) = v6_open (os e0) →
  (∃ d, dnsMgr e2 = Some d ∧ os e2 = Dns.os d ∧ saved db (resolvers (os e0) (p_TunIface p)) d
     ∧ Dns.iface d = p_TunIface p) →
  apply_dns db e1 p true = (e2, Err x) → rolled_back e0 p (fail (kill_disable fb e2) x) x.
Proof.
  intros Hd [Rf _] Ha K2 V2 (d & Dd & Od & Sd & Id) E2.
  destruct (kill_disable_step _ _ _ Hd K2) as (A3 & _ & P3 & B3 & R3 & V3 & D3).
  unfold apply_dns in E2. destruct (Dns.Manager_Apply db _ _ _ _) as [d' [[]|y]]; [done|].
  injection E2 as E2 <-.
  split_and!; [cbn; by rewrite <- E2|done|done|by apply B3|by rewrite <- V2|].
  exists d. cbn [dnsMgr fail with_state os]. rewrite D3. split_and!; [done|done|].
  destruct (has_snapshot d) eqn:Hh; [by apply saved_recorded|].
  destruct Sd as [Sp Sd]. rewrite Hh in Sd. split; [done|].
  assert (has_snapshot (Dns.set_os d (os (kill_disable fb e2))) = false) as -> by done.
  cbn [Dns.os Dns.set_os Dns.iface]. by rewrite R3, Od.
Qed.

Lemma ipv6_failure e0 p e2 e3 d x : present (os e0) ## rules e0 p → restores_work → applied e2 = false →
  engaged fb (kill_now e0) (kill_now e2) (p_KillSwitch p) (spec_of e0 p) →
  dnsMgr e2 = Some d → saved db (resolvers (os e0) (p_TunIface p)) d → has_snapshot d = true →
  Dns.iface d = p_TunIface p → apply_ipv6 rb e2 p = (e3, Err x) →
  rolled_back e0 p (fail (kill_disable fb (dns_restore db e3).1) x) x.
Proof.
  intros Hd [Rf Rd] Ha K2 Dd Sd Hh Id E3.
  destruct (ipv6_step _ _ _ _ E3) as (W3 & D3 & _ & P3 & B3 & R3 & _). rewrite <- D3 in Dd.
  assert (applied e3 = false ∧ ∃ y, x = ErrIPv6 y) as [Ha3 [y ->]].
  { unfold apply_ipv6 in E3. destruct (p_RouteIPv6 p); [done|].
    destruct (Routing.BlockIPv6 _ _ _) as [r [[]|z]]; [done|]. injection E3 as <- <-. eauto. }
  assert (dns_restore db e3 = ((dns_restore db e3).1, Ok tt)) as E4.
  { unfold dns_restore. rewrite Dd. unfold Dns.Manager_Restore.
    destruct Sd as [_ Sd]. rewrite Hh in Sd. destruct Sd as [Sp Sv].
    specialize (Rd (os e3) (Dns.iface d) _ Sv). rewrite <- Sp in Rd. unfold prior_servers in *.
    cbn [Dns.os Dns.iface Dns.set_os Dns.disk snapshotPaths] in *.
    destruct (Dns.be_Restore db _ _ _) as [o r]. cbn in *. by subst r. }
  destruct (dns_restore_step _ _ _ _ _ Dd Hh Sd E4) as (W4 & P4 & B4 & V4 & R4 & d' & D4 & N4).
  set (e4 := (dns_restore db e3).1) in *.
  assert (engaged fb (kill_now e0) (kill_now e4) (p_KillSwitch p) (spec_of e0 p)) as K4.
  { unfold kill_now at 2. rewrite W4, W3.
    apply (engaged_os _ _ _ _ (os e4)) in K2; [exact K2|cbn; congruence|cbn; congruence]. }
  destruct (kill_disable_step _ _ _ Hd K4) as (A5 & _ & P5 & B5 & R5 & V5 & D5).
  assert (applied e4 = false) as Ha4.
  { unfold e4, dns_restore. rewrite Dd. by destruct (Dns.Manager_Restore _ _). }
  split_and!; [done|done|done|by apply B5| |].
  - cbn [os fail with_state]. by rewrite R5, <- (R4 eq_refl), Id.
  - exists d'. cbn [dnsMgr fail with_state]. by rewrite D5.
Qed.

Lemma failed_apply_facts e0 p e er : idle e0 → kill_wanted p = true → p_DNSMode p ≠ SYSTEM →
  present (os e0) ## rules e0 p → restores_work → Apply fb db rb e0 p true true = (e, Err er) →
  rolled_back e0 p e er.
Proof.
  intros Hid Hk Hm Hd Hw. unfold Apply. rewrite (id_applied _ Hid).
  destruct (apply_kill fb e0 p true) as [e1 [[]|x]] eqn:E1;
    [|intros [= <- <-]; by apply kill_failure].
  destruct (kill_step _ _ _ _ _ Hid Hk E1) as (W1 & D1 & V1 & K1 & _). specialize (K1 eq_refl eq_refl).
  assert (applied e1 = false) as Ha1 by (by rewrite W1; apply Hid).
  unfold undo_kill. rewrite Hk. destruct (apply_dns db e1 p true) as [e2 r2] eqn:E2.
  destruct (dns_step _ _ _ _ E2) as ([d2 W2] & P2 & B2 & V2).
  assert (engaged fb (kill_now e0) (kill_now e2) (p_KillSwitch p) (spec_of e0 p)) as K2.
  { apply (engaged_os _ _ _ _ (os e2)) in K1; [|cbn; congruence|cbn; congruence].
    unfold kill_now at 2. by assert (kill e2 = kill e1) as -> by (by rewrite W2). }
  destruct (apply_dns_facts e1 p e2 r2) as (d & Dd & Od & Sd & Id & Rec);
    [rewrite W1; apply Hid|rewrite W1; apply Hid|done|done|]. rewrite D1 in Sd.
  destruct r2 as [[]|x]; [|intros [= <- <-]; apply (dns_failure e0 p e1); [done..|congruence|by exists d|done]].
  destruct (apply_ipv6 rb e2 p) as [e3 [[]|x]] eqn:E3; [done|]. intros [= <- <-].
  apply (ipv6_failure e0 p e2 e3 d); try done; [by rewrite W2|by apply Rec].
Qed.
End enforcement.

(** ** Lemmas: the reported state *)

Section honesty.
Context {O : Type} (fb : Firewall.Backend O) (db : Dns.Backend O) (rb : Routing.Backend O).
Implicit Types e : osEnforcer O.

Definition wanted (m : string) : bool := negb (String.eqb m Firewall.OFF) && negb (String.eqb m "").

(** The managers are in the state the enforcer recorded. *)
Record honest e : Prop := {
  h_off : applied e = false → active (kill e) = false ∧ killMode e = "" ∧ dnsMode e = ""
            ∧ ipv6 e = "unknown" ∧ ipv6Off (route e) = false;
  h_on : applied e = true →
    Firewall.Manager_Mode (kill e) = (if wanted (killMode e) then killMode e else Firewall.OFF)
    ∧ (∃ d, dnsMgr e = Some d ∧ Dns.mode d = dnsMode e)
    ∧ (ipv6 e = "blocked" ∧ ipv6Off (route e) = true ∨ ipv6 e = "routed" ∧ ipv6Off (route e) = false)
}.

Lemma honest_clear e : honest e → honest (clearLocked fb db rb e).1
  ∧ applied (clearLocked fb db rb e).1 = false.
Proof.
  intros [Hoff Hon]. unfold clearLocked.
  destruct (if String.eqb (ipv6 e) "blocked" then _ else _) as [e1 x6] eqn:E1.
  assert (ipv6Off (route e1) = false) as H6.
  { unfold ipv6_restore, Routing.RestoreIPv6, restore_IPv6 in E1.
    destruct (String.eqb_spec (ipv6 e) "blocked") as [Hb|Hb].
    - destruct (be_RestoreIPv6 rb _). by injection E1 as <- _.
    - injection E1 as <- _. destruct (applied e); [|by apply Hoff].
      destruct (Hon eq_refl) as (_ & _ & [[? _]|[_ H]]); done. }
  destruct (dns_restore db e1) as [e2 xd] eqn:E2.
  assert (route e2 = route e1) as H2.
  { unfold dns_restore in E2. destruct (dnsMgr e1); [|by injection E2 as <- _].
    destruct (Dns.Manager_Restore _ _). by injection E2 as <- _. }
  destruct (problem x6 ++ problem xd); (split; [split|]); cbn; try done; intros _;
    rewrite H2; done.
Qed.

Lemma undo_kill_off e p : applied e = false → killMode e = "" → dnsMode e = "" → ipv6 e = "unknown" →
  ipv6Off (route e) = false → (kill_wanted p = false → active (kill e) = false) →
  ∀ x, honest (fail (undo_kill fb e p) x).
Proof.
  intros Ha Hk Hd Hi H6 Hw x. unfold undo_kill. destruct (kill_wanted p); split; cbn; try congruence.
  - by intros _.
  - intros _. by split_and!; try apply Hw.
Qed.

(** The last two steps, after a first step that turned the switch on if wanted. *)
Lemma honest_rest e p d : applied e = false → killMode e = "" → dnsMode e = "" → ipv6 e = "unknown" →
  ipv6Off (route e) = false → (kill_wanted p = false → active (kill e) = false) →
  Firewall.Manager_Mode (kill e) = (if kill_wanted p then p_KillSwitch p else Firewall.OFF) →
  honest (match apply_dns db e p d with
    | (e, Err er) => (fail (undo_kill fb e p) er, Err er)
    | (e, Ok _) =>
      match apply_ipv6 rb e p with
      | (e, Err er) => (fail (undo_kill fb (dns_restore db e).1 p) er, Err er)
      | (e, Ok _) => (with_state e true (p_KillSwitch p) (p_DNSMode p) (ipv6 e) None, Ok tt)
      end
    end).1.
Proof.
  intros Ha Hk Hd Hi H6 Hw Hm. unfold apply_dns.
  destruct (Dns.Manager_Apply db _ _ _ _) as [m [[]|x]] eqn:Ed; cbn [result_map_err];
    [|by apply undo_kill_off].
  apply apply_mode in Ed. unfold apply_ipv6. destruct (p_RouteIPv6 p).
  { split; cbn; [done|]. intros _. split_and!; [done|by exists m|by right]. }
  destruct (Routing.BlockIPv6 rb _ _) as [r [[]|x]] eqn:Er.
  - unfold Routing.BlockIPv6 in Er. destruct (be_BlockIPv6 rb _ _) as [o [[]|y]]; [|done].
    injection Er as <-. split; cbn; [done|]. intros _. split_and!; [done|by exists m|by left].
  - assert (ipv6Off r = false) as H6r.
    { unfold Routing.BlockIPv6 in Er. destruct (be_BlockIPv6 rb _ _) as [o [[]|y]]; [done|].
      by injection Er as <-. }
    unfold dns_restore. cbn [dnsMgr with_route with_dns]. destruct (Dns.Manager_Restore db _) as [m' y].
    by apply undo_kill_off.
Qed.

Lemma honest_apply e p k d : honest e → honest (Apply fb db rb e p k d).1.
Proof.
  intros He. unfold Apply. set (e0 := if applied e then _ else _).
  assert (honest e0 ∧ applied e0 = false) as [[Hoff _] Ha].
  { unfold e0. destruct (applied e) eqn:E; [by apply honest_clear|done]. }
  destruct (Hoff Ha) as (Hact & Hk & Hd & Hi & H6). clearbody e0. clear Hoff.
  unfold apply_kill. destruct (kill_wanted p) eqn:Hw.
  - destruct (Firewall.Manager_Enable fb _ _ _ _ _ _) as [m [[]|x]] eqn:Ek; cbn [result_map_err].
    2: { apply enable_kept_inactive in Ek; [|done]. by split; cbn; [intros _|congruence]. }
    apply enable_on in Ek as [Eact Emode]; [|intros E; unfold kill_wanted in Hw; by rewrite E in Hw].
    apply honest_rest; cbn; try done; [congruence|]. unfold Firewall.Manager_Mode. by rewrite Eact, Emode, Hw.
  - apply honest_rest; try done. unfold Firewall.Manager_Mode. by rewrite Hact, Hw.
Qed.

Lemma honest_step e e' : step fb db rb e e' → honest e → honest e'.
Proof.
  intros [e0 p k d|e0|e0 reason] He.
  - by apply honest_apply.
  - by apply honest_clear.
  - unfold FailClosed. destruct (applied e0) eqn:Ha; [|done]. destruct He as [_ Hon].
    destruct (Hon Ha) as (Hm & Hd & H6).
    assert (∀ x, Firewall.Manager_Mode (kill (with_kill e0 (Firewall.Manager_FailClosed fb (kill_now e0) x).1))
      = Firewall.Manager_Mode (kill e0)) as Hs.
    { intros x. unfold Firewall.Manager_FailClosed. cbn [active kill_now Firewall.set_os].
      destruct (active (kill e0)) eqn:E; [|by unfold Firewall.Manager_Mode; cbn; rewrite E].
      unfold Firewall.Manager_Mode. rewrite E. by destruct (be_SetBlock fb _) as [o [[]|y]]; cbn; rewrite E. }
    specialize (Hs reason). destruct (Firewall.Manager_FailClosed fb _ _) as [m [[]|y]]; cbn [fst] in *;
      (split; cbn in *; [congruence|]); intros _; by rewrite Hs.
Qed.

Lemma honest_steps e e' : rtc (step fb db rb) e e' → honest e → honest e'.
Proof. induction 1; [done|]. intros He. by eapply IHrtc, honest_step. Qed.
End honesty.

(** ** A machine with all three *)

Record machine := mkMachine {
  m_fw : netsh_state; m_dns : gmap string (list string); m_six : bool; m_has_six : bool }.

#[local] Instance machine_runner : Runner machine := { Run o name args :=
  if String.eqb name "netsh" then
    let '(f, r) := netsh_run (m_fw o) args in (mkMachine f (m_dns o) (m_six o) (m_has_six o), r)
  else if String.eqb name "ip" then
    if m_has_six o then
      (mkMachine (m_fw o) (m_dns o) (bool_decide (args = ip_blackhole "del")) true, Ok "")
    else (o, Err "IPv6 is disabled on this system")
  else
    let '(d, r) := @Run _ Dns.toy.runner (m_dns o) name args in
    (mkMachine (m_fw o) d (m_six o) (m_has_six o), r) }.
#[local] Existing Instance ascii_unicode.

Lemma machine_netsh_run o args o' r : Run o "netsh" args = (o', r) →
  Run (Runner := Firewall.netsh_runner) (m_fw o) "netsh" args = (m_fw o', r).
Proof.
  change (Run o "netsh" args) with (let '(f, r) := netsh_run (m_fw o) args in
    (mkMachine f (m_dns o) (m_six o) (m_has_six o), r)).
  change (Run (m_fw o) "netsh" args) with (netsh_run (m_fw o) args).
  destruct (netsh_run (m_fw o) args) as [f x]. by intros [= <- <-].
Qed.

#[local] Instance machine_netsh : NetshLaws machine.
Proof.
  refine {| ns_present o := t_rules (m_fw o); ns_blocked o := t_block (m_fw o) |}.
  - intros o args n o' r Hn Hr%machine_netsh_run. exact (@ns_add _ _ _ Firewall.netsh_laws _ _ _ _ _ Hn Hr).
  - intros o n o' r Hr%machine_netsh_run. exact (@ns_delete _ _ _ Firewall.netsh_laws _ _ _ _ Hr).
  - intros o q o' r Hq Hr%machine_netsh_run. exact (@Firewall.ns_set _ _ _ Firewall.netsh_laws _ _ _ _ Hq Hr).
  - intros o o' r Hr%machine_netsh_run. exact (@ns_show _ _ _ Firewall.netsh_laws _ _ _ Hr).
Defined.

#[local] Instance machine_networksetup : NetworksetupLaws machine.
Proof.
  refine {| ns_servers o i := Dns.toy.shown (m_dns o) i |}.
  - intros o i. destruct (@ns_get_law _ _ Dns.toy.laws (m_dns o) i) as (out & H & Ha).
    exists out. split; [|done]. cbn in *. destruct o. by injection H as <-.
  - done.
  - intros o i l o' out Hf Hd Hn. pose proof (@ns_set_law _ _ Dns.toy.laws (m_dns o) i l) as L.
    cbn in *. intros [= <- _]. by eapply L.
  - intros o i o' out. pose proof (@ns_empty_law _ _ Dns.toy.laws (m_dns o) i) as L.
    cbn in *. intros [= <- _]. by eapply L.
Defined.

Lemma netsh_keeps {X} (V : machine → X) o args :
  (∀ f o, V (mkMachine f (m_dns o) (m_six o) (m_has_six o)) = V o) → V (exec o "netsh" args).1 = V o.
Proof.
  intros HV. unfold exec. change (Run o "netsh" args) with (let '(f, r) := netsh_run (m_fw o) args in
    (mkMachine f (m_dns o) (m_six o) (m_has_six o), r)).
  destruct (netsh_run (m_fw o) args) as [f [x|x]]; apply HV.
Qed.

Lemma netsh_frame {X} (V : machine → X) :
  (∀ f o, V (mkMachine f (m_dns o) (m_six o) (m_has_six o)) = V o) →
  fw_frame Firewall.windowsBackend V.
Proof.
  intros HV. pose proof (fun o args => netsh_keeps V o args HV) as K. split.
  - intros o. specialize (K o show_profiles). unfold exec in K. cbn [Firewall.windowsBackend be_CurrentPolicy].
    destruct (Run o "netsh" show_profiles) as [o' [x|x]]; exact K.
  - intros o s. cbn [Firewall.windowsBackend be_Enable]. unfold windows_Enable.
    assert (∀ l o, V (exec_all o (map (fun r => ("netsh", add_rule r)) l)).1 = V o) as H.
    { clear o. induction l as [|r l IH]; intros o; cbn [map exec_all]; [done|].
      pose proof (K o (add_rule r)) as Kr. destruct (exec o "netsh" (add_rule r)) as [o' [[]|x]]; [|exact Kr].
      rewrite IH. exact Kr. }
    specialize (H (spec_rules s) o). by destruct (exec_all _ _) as [o' [[]|x]].
  - intros o l. cbn [Firewall.windowsBackend be_Remove]. unfold windows_Remove.
    match goal with |- V (foldl ?F _ _).1 = _ => assert (∀ l acc, V (foldl F acc l).1 = V acc.1) as H end;
      [|apply H].
    clear o l. induction l as [|n l IH]; intros [o first]; cbn [foldl]; [done|].
    pose proof (K o (delete_rule n)) as Kn. rewrite IH.
    by destruct (exec o "netsh" (delete_rule n)) as [o' [x|x]], first.
  - intros o. apply K.
  - intros o q. apply K.
Qed.

(** The resolver and route commands keep a view of the rest of the machine. *)
Lemma networksetup_frame {X} (V : machine → X) :
  (∀ d o, V (mkMachine (m_fw o) d (m_six o) (m_has_six o)) = V o) → dns_frame Dns.darwinBackend V.
Proof.
  intros HV. assert (∀ o args, V (Run o "networksetup" args).1 = V o) as K.
  { intros o args. change (Run o "networksetup" args) with
      (let '(d, r) := Run (Runner := Dns.toy.runner) (m_dns o) "networksetup" args in
       (mkMachine (m_fw o) d (m_six o) (m_has_six o), r)).
    destruct (Run (Runner := Dns.toy.runner) (m_dns o) "networksetup" args) as [d r]. apply HV. }
  split; [intros o i|intros o i l|done|intros o i l];
    cbn [Dns.darwinBackend be_Current be_Set Dns.be_Restore];
    unfold darwin_Current, darwin_Set, darwin_Restore, exec.
  - pose proof (K o (ns_get i)) as Ki. by destruct (Run o "networksetup" (ns_get i)) as [o' [x|x]].
  - pose proof (K o (Dns.ns_set i l)) as Ki. by destruct (Run o "networksetup" _) as [o' [x|x]].
  - specialize (K o (Dns.ns_set i match l with [] => ["Empty"] | _ => l end)).
    by destruct (Run o "networksetup" _) as [o' [x|x]].
Qed.

Lemma ip_frame {X} (V : machine → X) :
  (∀ b o, V (mkMachine (m_fw o) (m_dns o) b true) = V o) → v6_frame Routing.linuxBackend V.
Proof.
  intros HV. split; intros o; [intros i|]; cbn; unfold exec; cbn;
    destruct o as [f d b []]; cbn; try done; apply (HV _ (mkMachine f d b true)).
Qed.

#[local] Instance machine_laws :
  EnforcementLaws Firewall.windowsBackend (Dns.darwinBackend (O := machine)) Routing.linuxBackend.
Proof.
  refine {| v6_open := m_six |}.
  - intros o i o'. destruct o as [f d b []]; cbn; [by intros [= <-]|done].
  - intros o o'. destruct o as [f d b []]; cbn; [by intros [= <-]|done].
  - intros i. by apply netsh_frame.
  - by apply netsh_frame.
  - by apply networksetup_frame.
  - by apply networksetup_frame.
  - by apply networksetup_frame.
  - by apply ip_frame.
  - by apply ip_frame.
  - intros i. by apply ip_frame.
Defined.

Definition demo_machine (has_six : bool) : machine :=
  mkMachine (mkNetsh {["Corp VPN"]} false) {["veilnet" := ["192.168.1.1"]]} has_six has_six.
Definition demo_enforcer (has_six : bool) : osEnforcer machine :=
  newEnforcer Routing.linuxBackend (demo_machine has_six) ∅ ["killswitch.json"] ∅ ["routes.json"]
    ∅ ["dns.json"].
Definition demo_plan (mode : string) : EnforcePlan :=
  mkEnforcePlan mode "203.0.113.7" 51820 "10.89.0.2" "veilnet" "VEILNET" ["10.89.0.1"] false.
Definition demo_apply (has_six : bool) (mode : string) : osEnforcer machine * result error unit :=
  Apply Firewall.windowsBackend Dns.darwinBackend Routing.linuxBackend (demo_enforcer has_six)
    (demo_plan mode) true true.
Definition demo_clear (e : osEnforcer machine) : osEnforcer machine * result error unit :=
  Clear Firewall.windowsBackend Dns.darwinBackend Routing.linuxBackend e.
Definition demo_losses (e : osEnforcer machine) (l : list string) : osEnforcer machine :=
  foldl (fun e r => (FailClosed Firewall.windowsBackend e r).1) e l.

Lemma demo_idle b : idle (demo_enforcer b).
Proof. split; try done. by apply Forall_singleton. Qed.

Lemma demo_disjoint b mode : present (os (demo_enforcer b)) ##
  list_to_set (RuleNames Firewall.windowsBackend (spec_of (demo_enforcer b) (demo_plan mode))).
Proof. destruct b; apply (bool_decide_unpack _); by vm_compute. Qed.

(** ** Properties *)



(** the reported state is never better than the real one.  After any calls
    of Apply, Clear and FailClosed, with any backends and any failing writes:
    the kill switch is in the mode that is reported, and off when none is; the
    resolver manager is in the reported mode; IPv6 is reported blocked only
    while the block is in force; and when nothing is applied the kill switch
    is off and IPv6 is not blocked by this program. *)
Theorem status_honest {O} (fb : Firewall.Backend O) (db : Dns.Backend O) (rb : Routing.Backend O)
  o kd kp rd rp dd dp e :
  rtc (step fb db rb) (newEnforcer rb o kd kp rd rp dd dp) e →
  let st := Status fb db rb e in
  Firewall.Manager_Mode (kill e) = (if wanted (st_KillSwitch st) then st_KillSwitch st else Firewall.OFF)
  ∧ (st_IPv6 st = "blocked" ↔ ipv6Off (route e) = true)
  ∧ (if Applied st then ∃ d, dnsMgr e = Some d ∧ Dns.mode d = st_DNSMode st
     else st_KillSwitch st = Firewall.OFF ∧ st_DNSMode st = "" ∧ st_IPv6 st = "unknown").
Proof.
  intros Hs. assert (honest (newEnforcer rb o kd kp rd rp dd dp)) as H0.
  { split; [|done]. intros _. split_and!; try done. cbn. unfold Routing.New, recover. by repeat case_match. }
  destruct (honest_steps fb db rb _ _ Hs H0) as [Hoff Hon]. cbn. destruct (applied e) eqn:Ha; cbn.
  - destruct (Hon eq_refl) as (Hm & Hd & [[-> ->]|[-> ->]]); by split_and!.
  - destruct (Hoff eq_refl) as (Hact & -> & -> & -> & ->). unfold Firewall.Manager_Mode. rewrite Hact.
    by split_and!.
Qed.

(** ** Witnesses *)

Definition demo_held : osEnforcer machine :=
  demo_losses (demo_apply true "ALWAYS_ON").1 ["handshake stale"; "gone"].
Definition demo_off : osEnforcer machine := (demo_clear demo_held).1.


Lemma demo_restores : restores_work Firewall.windowsBackend (Dns.darwinBackend (O := machine))
  Routing.linuxBackend.
Proof. split; [done|]. by intros o i [|s l]. Qed.


Lemma status_honest_witness :
  Firewall.Manager_Mode (kill (demo_apply true "ALWAYS_ON").1) = "ALWAYS_ON"
  ∧ ipv6Off (route (demo_apply true "ALWAYS_ON").1) = true.
Proof.
  destruct (status_honest Firewall.windowsBackend Dns.darwinBackend Routing.linuxBackend
    (demo_machine true) ∅ ["killswitch.json"] ∅ ["routes.json"] ∅ ["dns.json"]
    (demo_apply true "ALWAYS_ON").1 (rtc_once _ _ (step_apply _ _ _ _ (demo_plan "ALWAYS_ON") true true)))
    as (Hm & H6 & _).
  split; [exact Hm|]. apply H6. by vm_compute.
Defined.

(** ** What modelling showed *)

(** A failed connection wipes the user's own resolvers.  Blocking IPv6 fails,
    the apply restores the resolvers and their snapshot is deleted; the client
    then clears the enforcement, as it does after every failed apply, and the
    second restore, with no snapshot to read, sets the list to empty. *)
Example failed_connect_wipes_resolvers :
  let failed := (demo_apply false "ALWAYS_ON").1 in
  Dns.toy.shown (m_dns (os failed)) "veilnet" = ["192.168.1.1"]
  ∧ (demo_clear failed).2 = Ok tt
  ∧ Dns.toy.shown (m_dns (os (demo_clear failed).1)) "veilnet" = [].
Proof. by vm_compute. Qed.

(** Clearing twice after a good connection has the same effect. *)
Example second_clear_wipes_resolvers :
  let off := (demo_clear (demo_apply true "ALWAYS_ON").1).1 in
  Dns.toy.shown (m_dns (os off)) "veilnet" = ["192.168.1.1"]
  ∧ Dns.toy.shown (m_dns (os (demo_clear off).1)) "veilnet" = [].
Proof. by vm_compute. Qed.

(** The service is killed while connected and started again; starting, it
    clears what a crashed run left.  The block goes, but no manager of
    resolvers exists and the IPv6 state is unknown, so the tunnel's resolvers
    and the IPv6 block stay. *)
Example restart_keeps_resolvers :
  let held := (demo_apply true "ALWAYS_ON").1 in
  let restarted := newEnforcer Routing.linuxBackend (os held) (Firewall.disk (kill held)) ["killswitch.json"]
    (Routing.disk (route held)) ["routes.json"] (dnsDisk held) ["dns.json"] in
  let cleared := demo_clear restarted in
  cleared.2 = Ok tt
  ∧ m_fw (os held) <> m_fw (demo_machine true) ∧ m_fw (os cleared.1) = m_fw (demo_machine true)
  ∧ Dns.toy.shown (m_dns (os cleared.1)) "veilnet" = ["10.89.0.1"]
  ∧ m_six (os cleared.1) = false.
Proof. vm_compute. split_and!; done. Qed.
