(* ===== verification/App.v ===== *)
(** * App: the client orchestrator (internal/app/app.go, select.go, enforce.go)

    Node listing and selection, connecting, disconnecting and the payment
    surface.  The tunnel engine, the enforcer, the client database and the
    node provider are interfaces here as in the code; a TCP probe, random
    bytes and clock readings are arguments. *)

From Stdlib Require Import ZArith Lia Ascii.
From S2P Require Import Prelude Float64 GoStrings NetIP GoText.
From S2P Require Import ClientConfig.
From S2P Require Import Enforce.

Definition StateDown : string := "DOWN".
Definition StateConnecting : string := "CONNECTING".
Definition StateUp : string := "UP".
Definition StateFailed : string := "FAILED".

Record Peer := mkPeer {
  PublicKey : string; peer_Endpoint : string; AllowedIPs : list string; Keepalive : Z }.
Record WGConfig := mkWGConfig {
  PrivateKey : string; Addresses : list string; wg_DNS : list string; Peers : list Peer }.

(** The tunnel engine. *)
Class Engine (G : Type) : Type := {
  eng_Start : G → WGConfig → G * result string unit;
  eng_Stop : G → G * result string unit;
  eng_State : G → string;
  eng_Bytes : G → Z * Z;
  eng_RotateEndpoint : G → string → G * result string unit
}.

Record NodeInfo := mkNodeInfo {
  NodeID : string;
  WGPubkey : string;
  n_Region : string;
  Country : string;
  City : string;
  Endpoint : string;
  PricePerHourDero : float64;
  CapacityMaxClients : Z;
  ProtocolVersion : Z;
  BondDero : float64;
  n_Status : string;
  Version : string;
  Load : float64;
  LatencyMs : Z;
  Trust : float64;
  FailCount : Z
}.

Definition set_latency (n : NodeInfo) (ms : Z) : NodeInfo :=
  mkNodeInfo (NodeID n) (WGPubkey n) (n_Region n) (Country n) (City n) (Endpoint n) (PricePerHourDero n)
    (CapacityMaxClients n) (ProtocolVersion n) (BondDero n) (n_Status n) (Version n) (Load n) ms
    (Trust n) (FailCount n).
Definition set_trust (n : NodeInfo) (t : float64) : NodeInfo :=
  mkNodeInfo (NodeID n) (WGPubkey n) (n_Region n) (Country n) (City n) (Endpoint n) (PricePerHourDero n)
    (CapacityMaxClients n) (ProtocolVersion n) (BondDero n) (n_Status n) (Version n) (Load n) (LatencyMs n)
    t (FailCount n).

Record Receipt := mkReceipt {
  r_ID : string; r_NodeID : string; r_SessionID : string; AmountDero : float64; TxID : string;
  r_At : time }.

(** What the client database answers; [None] stands for its error. *)
Class ClientStore (S : Type) : Type := {
  AvgLatency : S → string → Z → option (duration * Z);
  GetTrust : S → string → option float64;
  RecordLatency : S → string → duration → S;
  AddConnection : S → string → S * option Z;
  EndConnection : S → Z → Z → Z → S;
  SetSession : S → string → string → S;
  ClearSession : S → S;
  SaveReceipt : S → Receipt → S * result string unit;
  ListReceipts : S → Z → option (list Receipt)
}.

Record SessionInfo := mkSessionInfo {
  ses_Active : bool; SessionID : string; ses_NodeID : string; StartedAt : time }.
Definition no_session : SessionInfo := mkSessionInfo false "" "" 0.

Record Circuit := mkCircuit {
  c_Active : bool;
  EntryID : string;
  MiddleID : string;
  ExitID : string;
  Hops : list string;
  Countries : list string;
  Prices : list float64;
  GuardPinned : bool;
  GuardSince : time;
  BuiltAt : time;
  Rotations : Z
}.
Definition no_circuit : Circuit := mkCircuit false "" "" "" [] [] [] false 0 0 0.

Inductive event :=
| NODE_CONNECTED (id : string) | NODE_DISCONNECTED (id : string)
| TUNNEL_STARTED (endpoint : string) | TUNNEL_STOPPED (id : string)
| SESSION_AUTHORIZED (id : string) | PAYMENT_REQUESTED | PAYMENT_CONFIRMED (txid : string)
| DNS_CHANGED (mode : string) | ERROR | DERO_CONNECTED (what : string) | DERO_DISCONNECTED (what : string)
| CIRCUIT_ROTATED (hops : list string) (countries : list string) (rotations : Z) (pinned : bool).

Record App (G E S W : Type) := mkApp {
  cfg : ClientConfig;
  store : S;
  engine : option G;
  nodes : result string (list NodeInfo);
  node : option NodeInfo;
  connID : Z;
  sess : SessionInfo;
  circuit : Circuit;
  pendingApproval : bool;
  wallet : option W;
  enforcer : option E;
  published : list event
}.
Arguments mkApp {_ _ _ _}. Arguments cfg {_ _ _ _}. Arguments store {_ _ _ _}.
Arguments engine {_ _ _ _}. Arguments nodes {_ _ _ _}. Arguments node {_ _ _ _}.
Arguments connID {_ _ _ _}. Arguments sess {_ _ _ _}. Arguments circuit {_ _ _ _}.
Arguments pendingApproval {_ _ _ _}. Arguments wallet {_ _ _ _}. Arguments enforcer {_ _ _ _}.
Arguments published {_ _ _ _}.

Inductive error (X : Type) :=
| ErrConnected | ErrNotConnected | ErrNoEngine | ErrNodes (e : string) | ErrNotFound (id : string)
| ErrNoSuitable | ErrRandom | ErrStart (e : string) | ErrStop (e : string)
| ErrPlan (e : plan_error) | ErrEnforce (e : X) | ErrNoEnforcer | ErrConfig (e : ClientConfig.error)
| ErrReceipt (e : string).
Arguments ErrConnected {_}. Arguments ErrNotConnected {_}. Arguments ErrNoEngine {_}.
Arguments ErrNodes {_}. Arguments ErrNotFound {_}. Arguments ErrNoSuitable {_}. Arguments ErrRandom {_}.
Arguments ErrStart {_}. Arguments ErrStop {_}. Arguments ErrPlan {_}. Arguments ErrEnforce {_}.
Arguments ErrNoEnforcer {_}. Arguments ErrConfig {_}. Arguments ErrReceipt {_}.

(** ** Scores (select.go) *)

Definition clamp01 (f : float64) : float64 := if f_lt f f0 then f0 else if f_gt f f1 then f1 else f.

(** Latency, load, price and trust weights of a policy, in hundredths. *)
Definition weights (policy : string) : Z * Z * Z * Z :=
  if String.eqb policy SelectLowestLoad then (25, 50, 10, 15)
  else if String.eqb policy SelectLowestPrice then (25, 15, 50, 10)
  else if String.eqb policy SelectPrivacy then (15, 15, 5, 65)
  else if String.eqb policy SelectSpecificReg then (40, 20, 15, 25)
  else (55, 15, 10, 20).

Definition max_latency (all : list NodeInfo) : float64 :=
  foldl (fun m o => if (0 <? LatencyMs o) && f_gt (f_of_Z (LatencyMs o)) m then f_of_Z (LatencyMs o) else m)
    f1 all.
Definition max_price (all : list NodeInfo) : float64 :=
  foldl (fun m o => if f_gt (PricePerHourDero o) m then PricePerHourDero o else m) f1 all.

Definition score (policy : string) (n : NodeInfo) (all : list NodeInfo) : float64 :=
  let '(wLat, wLoad, wPrice, wTrust) := weights policy in
  let w x := f_const x 100 in
  let maxLat := max_latency all in
  let lat := if 0 <? LatencyMs n then f_of_Z (LatencyMs n) else maxLat in
  let latScore := if f_le maxLat f1 then f_half else f_sub f1 (f_div lat maxLat) in
  let loadScore := f_sub f1 (clamp01 (Load n)) in
  let priceScore := f_sub f1 (f_div (PricePerHourDero n) (max_price all)) in
  let hist := f_add (f_mul (clamp01 (Trust n)) (f_const 7 10))
                    (f_mul (clamp01 (f_div (BondDero n) (f_of_Z 100))) (f_const 3 10)) in
  f_add (f_add (f_add (f_mul (w wLat) latScore) (f_mul (w wLoad) loadScore))
           (f_mul (w wPrice) priceScore)) (f_mul (w wTrust) hist).

(** Nodes that may be picked at all. *)
Definition usable (n : NodeInfo) : bool :=
  (String.eqb (n_Status n) "" || String.eqb (n_Status n) "active") && (FailCount n <? 5).
Definition candidate (policy region : string) (n : NodeInfo) : bool :=
  usable n && negb (String.eqb policy SelectSpecificReg && negb (String.eqb region "")
                    && negb (String.eqb (n_Region n) region)).
Definition higher (x y : NodeInfo * float64) : bool := f_gt x.2 y.2.

(** ** The TCP probe *)

Definition portOf (endpoint : string) : string :=
  match net_SplitHostPort endpoint with
  | Some (_, port) => if String.eqb port "" then "51820" else port
  | None => "51820"
  end.
Definition net_JoinHostPort (host port : string) : string :=
  if existsb (chr ":"%char) (chars host) then "[" +:+ host +:+ "]:" +:+ port else host +:+ ":" +:+ port.

Definition probe_timeout (cfg : ClientConfig) : duration :=
  let t := wrap_i64 (ProbeTimeoutSecs (Network cfg) * second) in
  if (t <=? 0) || (t >? 30 * second) then 5 * second else t.
Definition probe_address (n : NodeInfo) : string :=
  let host := match net_SplitHostPort (Endpoint n) with Some (h, _) => h | None => Endpoint n end in
  net_JoinHostPort host (portOf (Endpoint n)).

Definition tunAddr : string := "10.89.0.2/32".
Definition tunnel_config (cfg : ClientConfig) (n : NodeInfo) (priv : string) : WGConfig :=
  let dns := Servers (DNS cfg) in
  let dns := if String.eqb (dns_Mode (DNS cfg)) DNSVeilnet || (length dns =? 0)%nat then ["10.89.0.1"] else dns in
  mkWGConfig priv [tunAddr] dns [mkPeer (WGPubkey n) (Endpoint n) ["0.0.0.0/0"] 25].

Definition genPrivateKey (rand : option (list Z)) : option string :=
  base64_Std_EncodeToString <$> rand.

(** 16 random bytes, or the clock when there are none. *)
Definition newSessionID (rand : option (list Z)) (unixNano : Z) : string :=
  match rand with Some b => base64_RawURL_EncodeToString b | None => fmt_d unixNano end.

(** The outside answers one connection asks for: the TCP dial of an address
    under a timeout, the random bytes of the key and of the session id, and the
    clock. *)
Record connect_io := mkConnectIO {
  io_dial : string → duration → option duration;
  io_key : option (list Z);
  io_session : option (list Z);
  io_nano : Z;
  io_now : time
}.

Definition ms_of (d : duration) : Z := Z.quot d 1000000.

(** ** Operations *)

Section app.
Context {G E S W : Type} `{Engine G, Enforcer E, ClientStore S, IPv6, NameService, SortSlice}.
Abbreviation App := (App G E S W).
Abbreviation err := (error (enf_error (E := E))).
Implicit Types a : App.

Definition New (c : ClientConfig) (s : S) (g : option G) (ns : result string (list NodeInfo)) : App :=
  mkApp c s g ns None 0 no_session no_circuit false None None [].

Definition set_cfg a (c : ClientConfig) : App :=
  mkApp c (store a) (engine a) (nodes a) (node a) (connID a) (sess a) (circuit a) (pendingApproval a)
    (wallet a) (enforcer a) (published a).
Definition set_store a (s : S) : App :=
  mkApp (cfg a) s (engine a) (nodes a) (node a) (connID a) (sess a) (circuit a) (pendingApproval a)
    (wallet a) (enforcer a) (published a).
Definition set_engine a (g : option G) : App :=
  mkApp (cfg a) (store a) g (nodes a) (node a) (connID a) (sess a) (circuit a) (pendingApproval a)
    (wallet a) (enforcer a) (published a).
Definition set_connection a (n : option NodeInfo) (id : Z) (x : SessionInfo) (c : Circuit) : App :=
  mkApp (cfg a) (store a) (engine a) (nodes a) n id x c (pendingApproval a) (wallet a) (enforcer a)
    (published a).
Definition set_pending a (b : bool) : App :=
  mkApp (cfg a) (store a) (engine a) (nodes a) (node a) (connID a) (sess a) (circuit a) b
    (wallet a) (enforcer a) (published a).
Definition set_enforcer a (e : option E) : App :=
  mkApp (cfg a) (store a) (engine a) (nodes a) (node a) (connID a) (sess a) (circuit a)
    (pendingApproval a) (wallet a) e (published a).
Definition set_nodes a (ns : result string (list NodeInfo)) : App :=
  mkApp (cfg a) (store a) (engine a) ns (node a) (connID a) (sess a) (circuit a) (pendingApproval a)
    (wallet a) (enforcer a) (published a).
Definition publish a (l : list event) : App :=
  mkApp (cfg a) (store a) (engine a) (nodes a) (node a) (connID a) (sess a) (circuit a)
    (pendingApproval a) (wallet a) (enforcer a) (published a ++ l).

(** The provider's nodes with the local observations. *)
Definition observed a (n : NodeInfo) : NodeInfo :=
  let n := match AvgLatency (store a) (NodeID n) 5 with
           | Some (avg, k) => if 0 <? k then set_latency n (ms_of avg) else set_latency n (-1)
           | None => set_latency n (-1)
           end in
  set_trust n (match GetTrust (store a) (NodeID n) with Some t => t | None => f_half end).
Definition ListNodes a : result err (list NodeInfo) :=
  match nodes a with
  | Err e => Err (ErrNodes e)
  | Ok l => Ok (map (observed a) l)
  end.

Definition findNode a (id : string) : result err NodeInfo :=
  match ListNodes a with
  | Err e => Err e
  | Ok l => match List.find (fun n => String.eqb (NodeID n) id) l with
            | Some n => Ok n
            | None => Err (ErrNotFound id)
            end
  end.

Definition Select a (policy region : string) : result err NodeInfo :=
  let policy := if String.eqb policy "" then SelectFastest else policy in
  match ListNodes a with
  | Err e => Err e
  | Ok l =>
    let cands := map (fun n => (n, score policy n l)) (List.filter (candidate policy region) l) in
    match sort_Slice higher cands with
    | [] => Err ErrNoSuitable
    | best :: _ => Ok best.1
    end
  end.
Definition AutoSelect a : result err NodeInfo := Select a (SelectPolicy (Network (cfg a))) (Region (cfg a)).

Definition ProbeLatency a (n : NodeInfo) (dial : string → duration → option duration)
  : App * option duration :=
  match dial (probe_address n) (probe_timeout (cfg a)) with
  | None => (a, None)
  | Some rtt => (set_store a (RecordLatency (store a) (NodeID n) rtt), Some rtt)
  end.

Definition applyEnforcement a (n : NodeInfo) : App * result err unit :=
  match enforcer a with
  | None => (a, Ok tt)
  | Some e =>
    match buildEnforcePlan (cfg a) (Endpoint n) tunAddr with
    | Err x => (a, Err (ErrPlan x))
    | Ok plan =>
      let '(e, r) := enf_Apply e plan in
      (set_enforcer a (Some e), result_map_err ErrEnforce r)
    end
  end.

Definition ClearEnforcement a : App * result err unit :=
  match enforcer a with
  | None => (a, Ok tt)
  | Some e => let '(e, r) := enf_Clear e in (set_enforcer a (Some e), result_map_err ErrEnforce r)
  end.

Definition FailClosed a (reason : string) : App * result err unit :=
  match enforcer a with
  | None => (a, Err ErrNoEnforcer)
  | Some e => let '(e, r) := enf_FailClosed e reason in
              (set_enforcer a (Some e), result_map_err ErrEnforce r)
  end.

Definition stop_engine a : App * result string unit :=
  match engine a with
  | None => (a, Ok tt)
  | Some g => let '(g, r) := eng_Stop g in (set_engine a (Some g), r)
  end.

Definition pick a (nodeID : string) : result err NodeInfo :=
  if String.eqb nodeID "" then AutoSelect a else findNode a nodeID.

(** What is recorded once the tunnel and its protection are up. *)
Definition record_connection a (n : NodeInfo) (i : connect_io) : App :=
  let '(s, id) := AddConnection (store a) (NodeID n) in
  let x := mkSessionInfo true (newSessionID (io_session i) (io_nano i)) (NodeID n) (io_now i) in
  let a := set_connection (set_store a s) (Some n) (default 0 id) x (circuit a) in
  let s := SetSession (store a) "current_node" (NodeID n) in
  let s := SetSession s "current_session" (SessionID x) in
  publish (set_store a s) [NODE_CONNECTED (NodeID n); TUNNEL_STARTED (Endpoint n);
                           SESSION_AUTHORIZED (SessionID x)].

Definition Connect a (nodeID : string) (i : connect_io) : App * result err unit :=
  match node a, engine a with
  | Some _, _ => (a, Err ErrConnected)
  | None, None => (a, Err ErrNoEngine)
  | None, Some g =>
    match pick a nodeID with
    | Err e => (a, Err e)
    | Ok n =>
      let '(a, lat) := ProbeLatency a n (io_dial i) in
      let n := match lat with Some rtt => set_latency n (ms_of rtt) | None => n end in
      match genPrivateKey (io_key i) with
      | None => (a, Err ErrRandom)
      | Some priv =>
        match eng_Start g (tunnel_config (cfg a) n priv) with
        | (g, Err e) => (publish (set_engine a (Some g)) [ERROR], Err (ErrStart e))
        | (g, Ok _) =>
          match applyEnforcement (set_engine a (Some g)) n with
          | (a, Err e) =>
            let a := (ClearEnforcement (stop_engine a).1).1 in
            (publish a [ERROR], Err e)
          | (a, Ok _) => (record_connection a n i, Ok tt)
          end
        end
      end
    end
  end.

Definition Disconnect a : App * result err unit :=
  match node a with
  | None => (a, Err ErrNotConnected)
  | Some n =>
    let '(rx, tx) := match engine a with Some g => eng_Bytes g | None => (0, 0) end in
    match stop_engine a with
    | (a, Err e) => (a, Err (ErrStop e))
    | (a, Ok _) =>
      let '(a, r) := ClearEnforcement a in
      let a := match r with Err _ => publish a [ERROR] | Ok _ => a end in
      let s := if connID a =? 0 then store a else EndConnection (store a) (connID a) rx tx in
      let a := set_connection (set_store a (ClearSession s)) None 0 no_session no_circuit in
      (publish a [TUNNEL_STOPPED (NodeID n); NODE_DISCONNECTED (NodeID n)], Ok tt)
    end
  end.

(** The engine state the badge is drawn from. *)
Definition EngineState a : string := match engine a with Some g => eng_State g | None => StateDown end.

(** [save] is the outcome of writing the file. *)
Definition UpdateConfig a (c : ClientConfig) (save : result ClientConfig.error unit) : App * result err unit :=
  match Validate c with
  | Err e => (a, Err (ErrConfig e))
  | Ok _ =>
    match save with
    | Err e => (a, Err (ErrConfig e))
    | Ok _ => (publish (set_cfg a c) [DNS_CHANGED (dns_Mode (DNS c))], Ok tt)
    end
  end.

(** *** Payments *)

Record PaymentInfo := mkPaymentInfo {
  pay_MaxPerHour : float64; SpentLastHour : float64; Receipts : Z; LastTxID : string;
  PendingApproval : bool }.

Definition Payment a (now : time) : PaymentInfo :=
  let m := MaxPerHourDero (Payments (cfg a)) in
  match ListReceipts (store a) 100 with
  | None => mkPaymentInfo m f0 0 "" (pendingApproval a)
  | Some l =>
    let recent := List.filter (fun r => Time_After (r_At r) (Time_Add now (- hour))) l in
    mkPaymentInfo m (foldl (fun s r => f_add s (AmountDero r)) f0 recent) (Z.of_nat (length l))
      (match l with r :: _ => TxID r | [] => "" end) (pendingApproval a)
  end.

Definition RequestPaymentApproval a : App := publish (set_pending a true) [PAYMENT_REQUESTED].

(** [id] is the clock's text. *)
Definition ConfirmPayment a (amount : float64) (txid id : string) (now : time) : App * result err unit :=
  let nodeID := match node a with Some n => NodeID n | None => "" end in
  let a := set_pending a false in
  match SaveReceipt (store a) (mkReceipt id nodeID (SessionID (sess a)) amount txid now) with
  | (s, Err e) => (set_store a s, Err (ErrReceipt e))
  | (s, Ok _) => (publish (set_store a s) [PAYMENT_CONFIRMED txid], Ok tt)
  end.

(** Calls that neither replace the engine nor the enforcer. *)
Inductive step : App → App → Prop :=
| step_connect a id i : step a (Connect a id i).1
| step_disconnect a : step a (Disconnect a).1
| step_fail_closed a reason : step a (FailClosed a reason).1
| step_config a c r : step a (UpdateConfig a c r).1
| step_approve a : step a (RequestPaymentApproval a)
| step_confirm a amount txid id now : step a (ConfirmPayment a amount txid id now).1
| step_probe a n dial : step a (ProbeLatency a n dial).1.
End app.

(** Connecting leaves the circuit alone. *)
Lemma connect_circuit {G E S W} `{Engine G, Enforcer E, ClientStore S, IPv6, NameService, SortSlice}
  (a : App G E S W) id i a' r : Connect a id i = (a', r) → circuit a' = circuit a.
Proof.
  assert (∀ (b b' : App G E S W) n x, applyEnforcement b n = (b', x) → circuit b' = circuit b) as Hen.
  { intros b b' n x. unfold applyEnforcement. destruct (enforcer b); [|by intros [= <- _]].
    destruct (buildEnforcePlan _ _ _); [|by intros [= <- _]].
    destruct (enf_Apply _ _). by intros [= <- _]. }
  assert (∀ b : App G E S W, circuit (ClearEnforcement (stop_engine b).1).1 = circuit b) as Hcl.
  { intros b. unfold ClearEnforcement, stop_engine. destruct (engine b) as [g|]; cbn;
      [destruct (eng_Stop g); cbn|]; (destruct (enforcer b) as [x|]; [by destruct (enf_Clear x)|done]). }
  unfold Connect. destruct (node a); [by intros [= <- _]|]. destruct (engine a); [|by intros [= <- _]].
  destruct (pick a id); [|by intros [= <- _]].
  assert (circuit (ProbeLatency a a0 (io_dial i)).1 = circuit a) as Hp
    by (unfold ProbeLatency; by destruct (io_dial i _ _)).
  destruct (ProbeLatency a a0 (io_dial i)) as [a1 lat]. cbn in Hp.
  destruct (genPrivateKey _); [|by intros [= <- _]].
  destruct (eng_Start _ _) as [g' [[]|y]]; [|by intros [= <- _]].
  destruct (applyEnforcement _ _) as [a2 [[]|y]] eqn:Ee; apply Hen in Ee; intros [= <- _].
  - unfold record_connection. destruct (AddConnection _ _). cbn. by rewrite Ee.
  - cbn. by rewrite Hcl, Ee.
Qed.

(** ** What the engine and the enforcer promise

    [running]: a device is up.  [in_force]: a plan is applied.  A failing stop
    never brings a device up, but it may leave none: the tunnel engine forgets
    a device whose closing failed. *)
Class EngineLaws (G : Type) `{Engine G} : Type := {
  running : G → bool;
  start_law g c g' r : eng_Start g c = (g', r) →
    running g' = match r with Ok _ => true | Err _ => running g end;
  stop_law g g' r : eng_Stop g = (g', r) →
    match r with Ok _ => running g' = false | Err _ => running g' = true → running g = true end;
  rotate_law g e : running (eng_RotateEndpoint g e).1 = running g
}.

(** Some engines keep the device when a stop fails. *)
Definition failed_stop_keeps (G : Type) `{EngineLaws G} : Prop :=
  ∀ (g g' : G) e, eng_Stop g = (g', Err e) → running g' = running g.

Class EnforcerLaws (E : Type) `{Enforcer E} : Type := {
  in_force : E → bool;
  apply_law e p : in_force (enf_Apply e p).1 = is_ok (enf_Apply e p).2;
  clear_law e : in_force (enf_Clear e).1 = false;
  fail_closed_law e reason : in_force (enf_FailClosed e reason).1 = in_force e;
  status_law e : Applied (enf_Status e) = in_force e
}.

(** The service's enforcer is one. *)
Section os_enforcer.
Context {O : Type} (fb : Firewall.Backend O) (db : Dns.Backend O) (rb : Routing.Backend O).

#[export] Instance os_enforcer : Enforcer (osEnforcer O) := {
  enf_error := Enforce.error;
  enf_Apply e p := Enforce.Apply fb db rb e p true true;
  enf_Clear := Enforce.Clear fb db rb;
  enf_FailClosed := Enforce.FailClosed fb;
  enf_Status := Enforce.Status fb db rb
}.

Lemma cleared e : applied (Enforce.Clear fb db rb e).1 = false.
Proof.
  unfold Enforce.Clear, clearLocked. destruct (if String.eqb _ _ then _ else _) as [e1 x].
  destruct (dns_restore db e1) as [e2 y]. by destruct (problem x ++ problem y).
Qed.

Lemma kill_step_applied e p ok : applied (apply_kill fb e p ok).1 = applied e.
Proof. unfold apply_kill. destruct (kill_wanted p); [|done]. by destruct (Firewall.Manager_Enable _ _ _ _ _ _ _). Qed.

Lemma dns_step_applied e p ok : applied (apply_dns db e p ok).1 = applied e.
Proof. unfold apply_dns. by destruct (Dns.Manager_Apply _ _ _ _ _). Qed.

Lemma ipv6_step_applied e p : applied (apply_ipv6 rb e p).1 = applied e.
Proof.
  unfold apply_ipv6. destruct (p_RouteIPv6 p); [done|].
  by destruct (Routing.BlockIPv6 _ _ _) as [r [x|x]].
Qed.

Lemma undo_applied e p : applied (undo_kill fb e p) = applied e.
Proof. unfold undo_kill. by destruct (kill_wanted p). Qed.

Lemma dns_restore_applied e : applied (dns_restore db e).1 = applied e.
Proof. unfold dns_restore. destruct (dnsMgr e); [|done]. by destruct (Dns.Manager_Restore _ _). Qed.

Lemma applied_exactly e p : applied (Enforce.Apply fb db rb e p true true).1
  = is_ok (Enforce.Apply fb db rb e p true true).2.
Proof.
  unfold Enforce.Apply. set (e0 := if applied e then _ else _).
  assert (applied e0 = false) as H0.
  { unfold e0. destruct (applied e) eqn:Ea; [apply (cleared e)|done]. }
  pose proof (kill_step_applied e0 p true) as H1. destruct (apply_kill fb e0 p true) as [e1 [[]|x]];
    cbn in *; [|congruence].
  pose proof (dns_step_applied e1 p true) as H2. destruct (apply_dns db e1 p true) as [e2 [[]|x]];
    cbn in *; [|rewrite undo_applied; congruence].
  pose proof (ipv6_step_applied e2 p) as H3. destruct (apply_ipv6 rb e2 p) as [e3 [[]|x]];
    cbn in *; [done|]. rewrite undo_applied, dns_restore_applied. congruence.
Qed.

#[export] Instance os_enforcer_laws : EnforcerLaws (osEnforcer O).
Proof.
  refine {| in_force := applied |}.
  - intros e p. apply applied_exactly.
  - intros e. apply cleared.
  - intros e reason. cbn. unfold Enforce.FailClosed. destruct (applied e) eqn:Ea; [|done].
    by destruct (Firewall.Manager_FailClosed _ _ _) as [k [x|x]].
  - done.
Defined.
End os_enforcer.

(** ** Lemmas *)

Section app_proofs.
Context {G E S W : Type} `{EngineLaws G, EnforcerLaws E, ClientStore S, IPv6, NameService, SortSlice}.
Abbreviation App := (App G E S W).
Implicit Types a : App.

(** Whether an enforcer, if there is one, has a plan in force. *)
Definition enforced a : bool := match enforcer a with Some e => in_force e | None => true end.
Definition unenforced a : bool := match enforcer a with Some e => negb (in_force e) | None => true end.
Definition tunnel_up a : bool := match engine a with Some g => running g | None => false end.

(** Connected means protected; not connected means nothing is enforced.  The
    device of a connected client can only be gone after a failed stop. *)
Definition sound_with (P : SessionInfo → NodeInfo → Prop) a : Prop :=
  match node a with
  | Some n => (failed_stop_keeps G → tunnel_up a = true) ∧ enforced a = true ∧ ses_Active (sess a) = true
              ∧ P (sess a) n
  | None => unenforced a = true ∧ sess a = no_session
  end.

(** The session is the current node's; a rotated circuit breaks that, but not
    the protection. *)
Definition names_node (x : SessionInfo) (n : NodeInfo) : Prop := ses_NodeID x = NodeID n.
Definition sound a : Prop := sound_with names_node a.
Definition protected a : Prop := sound_with (fun _ _ => True) a.

Lemma probe_frame a n dial : let a' := (ProbeLatency a n dial).1 in
  cfg a' = cfg a ∧ engine a' = engine a ∧ node a' = node a ∧ sess a' = sess a ∧ circuit a' = circuit a
  ∧ connID a' = connID a ∧ enforcer a' = enforcer a ∧ published a' = published a.
Proof. unfold ProbeLatency. by destruct (dial _ _). Qed.

(** Everything but the enforcer is left alone. *)
Definition same_but_enforcer a a' : Prop := a' = set_enforcer a (enforcer a').

Lemma set_enforcer_same a : set_enforcer a (enforcer a) = a.
Proof. by destruct a. Qed.

Lemma enforcement_frame a n a' r : applyEnforcement a n = (a', r) → same_but_enforcer a a'
  ∧ (r = Ok tt → enforced a' = true).
Proof.
  unfold applyEnforcement, same_but_enforcer, enforced. destruct (enforcer a) as [e|] eqn:Ee.
  - destruct (buildEnforcePlan _ _ _) as [p|x].
    + pose proof (apply_law e p) as L. destruct (enf_Apply e p) as [e' [[]|x]]; intros [= <- <-]; by split.
    + intros [= <- <-]. rewrite Ee. split; [|done]. by rewrite <- Ee, set_enforcer_same.
  - intros [= <- <-]. rewrite Ee. split; [|done]. by rewrite <- Ee, set_enforcer_same.
Qed.

Lemma clear_frame a a' r : ClearEnforcement a = (a', r) →
  same_but_enforcer a a' ∧ unenforced a' = true.
Proof.
  unfold ClearEnforcement, same_but_enforcer, unenforced. destruct (enforcer a) as [e|] eqn:Ee.
  - pose proof (clear_law e) as L. destruct (enf_Clear e) as [e' x]. intros [= <- _]. cbn in *. by rewrite L.
  - intros [= <- _]. rewrite Ee. split; [|done]. by rewrite <- Ee, set_enforcer_same.
Qed.

Lemma stop_frame a a' r : stop_engine a = (a', r) → a' = set_engine a (engine a')
  ∧ match r with
    | Ok _ => tunnel_up a' = false
    | Err _ => (tunnel_up a' = true → tunnel_up a = true)
               ∧ (failed_stop_keeps G → tunnel_up a' = tunnel_up a)
    end.
Proof.
  unfold stop_engine, tunnel_up. destruct (engine a) as [g|] eqn:Eg.
  - destruct (eng_Stop g) as [g' x] eqn:Ex. pose proof (stop_law _ _ _ Ex) as L.
    intros [= <- <-]. cbn. split; [done|]. destruct x as [|e]; [done|]. split; [done|].
    intros Hk. by apply (Hk _ _ e).
  - intros [= <- <-]. rewrite Eg. split; [by destruct a; cbn in *; subst|done].
Qed.

(** What a failed connection leaves of the client's state. *)
Record disconnected a a' : Prop := {
  di_node : node a' = node a; di_sess : sess a' = sess a; di_circuit : circuit a' = circuit a;
  di_conn : connID a' = connID a; di_cfg : cfg a' = cfg a;
  di_events : published a' = published a ∨ published a' = published a ++ [ERROR];
  di_enforcer : enforcer a' = enforcer a ∨ unenforced a' = true
}.

Lemma connect_ok a id i a' : Connect a id i = (a', Ok tt) →
  ∃ n, node a = None ∧ node a' = Some n ∧ tunnel_up a' = true ∧ enforced a' = true
  ∧ ses_Active (sess a') = true ∧ ses_NodeID (sess a') = NodeID n ∧ cfg a' = cfg a
  ∧ published a' = published a ++ [NODE_CONNECTED (NodeID n); TUNNEL_STARTED (Endpoint n);
                                   SESSION_AUTHORIZED (SessionID (sess a'))].
Proof.
  unfold Connect. destruct (node a) eqn:En; [done|]. destruct (engine a) as [g|]; [|done].
  destruct (pick a id) as [n|]; [|done].
  pose proof (probe_frame a n (io_dial i)) as (Hc & _ & _ & _ & _ & _ & _ & He).
  destruct (ProbeLatency a n (io_dial i)) as [a1 lat]. cbn in Hc, He.
  set (n1 := match lat with Some rtt => set_latency n (ms_of rtt) | None => n end).
  destruct (genPrivateKey (io_key i)); [|done].
  destruct (eng_Start g _) as [g' [[]|x]] eqn:Eg; [|done]. pose proof (start_law _ _ _ _ Eg) as Lg.
  destruct (applyEnforcement _ n1) as [a2 [[]|x]] eqn:Ee; [|done].
  apply enforcement_frame in Ee as [Hs Hf]. specialize (Hf eq_refl). intros [= <-].
  exists n1. unfold record_connection. destruct (AddConnection (store a2) (NodeID n1)) as [st2 cid].
  unfold same_but_enforcer in Hs. split_and!; try done; cbn.
  - unfold tunnel_up. cbn. by rewrite Hs.
  - by rewrite Hs.
  - rewrite Hs. cbn. by rewrite He.
Qed.

Lemma connect_err a id i a' x : Connect a id i = (a', Err x) → disconnected a a'
  ∧ match x with
    | ErrPlan _ | ErrEnforce _ => unenforced a' = true ∧ ∃ g, engine a' = Some (eng_Stop g).1
    | _ => enforcer a' = enforcer a
    end.
Proof.
  assert (disconnected a a) as Hr by (split; auto).
  unfold Connect. destruct (node a) eqn:En; [by intros [= <- <-]|].
  destruct (engine a) as [g|] eqn:Eg; [|by intros [= <- <-]].
  destruct (pick a id) as [n|y] eqn:Ep.
  2: { intros [= <- <-]. split; [done|]. unfold pick, AutoSelect, Select, findNode, ListNodes in Ep.
       by repeat (case_match; simplify_eq/=). }
  pose proof (probe_frame a n (io_dial i)) as (Hc & Hg & Hn & Hs & Hci & Hid & He & Hp).
  destruct (ProbeLatency a n (io_dial i)) as [a1 lat]. cbn in *.
  set (n1 := match lat with Some rtt => set_latency n (ms_of rtt) | None => n end).
  destruct (genPrivateKey (io_key i)); [|intros [= <- <-]; split; [split|]; auto].
  destruct (eng_Start g _) as [g' [[]|y]] eqn:Es; [|intros [= <- <-]; split; [split|]; cbn; auto;
    right; by rewrite Hp].
  destruct (applyEnforcement _ n1) as [a2 [[]|y]] eqn:Ee; [done|].
  assert (match y with ErrPlan _ | ErrEnforce _ => True | _ => False end) as Hy.
  { unfold applyEnforcement in Ee. destruct (enforcer _); [|done].
    destruct (buildEnforcePlan _ _ _); [|by injection Ee as _ <-].
    destruct (enf_Apply _ _) as [e' [[]|z]]; [done|]. by injection Ee as _ <-. }
  apply enforcement_frame in Ee as [Hse _]. unfold same_but_enforcer in Hse.
  destruct (stop_engine a2) as [a3 rs] eqn:E3. cbn [fst].
  assert (engine a3 = Some (eng_Stop g').1) as Hg3.
  { unfold stop_engine in E3. rewrite Hse in E3. cbn in E3. destruct (eng_Stop g') as [g3 z].
    by injection E3 as <- _. }
  apply stop_frame in E3 as [E3 _].
  destruct (ClearEnforcement a3) as [a4 rc] eqn:E4. apply clear_frame in E4 as [E4 Hu].
  unfold same_but_enforcer in E4. intros [= <- <-]. cbn [fst].
  assert (∀ P : App → Prop, P (set_enforcer (set_engine (set_enforcer (set_engine a1 (Some g'))
    (enforcer a2)) (engine a3)) (enforcer a4)) → P a4) as HP.
  { intros P HPx. by rewrite E4, E3, Hse. }
  split.
  - split; cbn; try (apply HP; done); [|by right]. right. apply HP. cbn. by rewrite Hp.
  - destruct y; try done; (split; [exact Hu|]; exists g'; apply HP; done).
Qed.

Lemma disconnect_facts a a' r : Disconnect a = (a', r) →
  match r with
  | Ok _ => (∃ n, node a = Some n) ∧ node a' = None ∧ sess a' = no_session ∧ circuit a' = no_circuit
      ∧ tunnel_up a' = false ∧ unenforced a' = true
  | Err _ => enforcer a' = enforcer a ∧ (tunnel_up a' = true → tunnel_up a = true)
      ∧ (failed_stop_keeps G → tunnel_up a' = tunnel_up a) ∧ node a' = node a ∧ sess a' = sess a
      ∧ circuit a' = circuit a ∧ published a' = published a ∧ store a' = store a
  end.
Proof.
  unfold Disconnect. destruct (node a) as [n|] eqn:En; [|by intros [= <- <-]; rewrite En].
  destruct (match engine a with Some g => eng_Bytes g | None => (0, 0) end) as [rx tx].
  destruct (stop_engine a) as [a1 [[]|e]] eqn:E1; apply stop_frame in E1 as (E1 & Ed); cycle 1.
  { intros [= <- <-]. destruct Ed as [Ed Ek]. split_and!; try done; by rewrite E1. }
  destruct (ClearEnforcement a1) as [a2 rc] eqn:E2. apply clear_frame in E2 as [E2 Hu].
  unfold same_but_enforcer in E2. intros [= <- <-].
  assert (tunnel_up a2 = false) as Ht by by rewrite E2.
  split_and!; try done; [by eexists|..]; by destruct rc.
Qed.

Lemma sound_with_step P a a' : (∀ x n, names_node x n → P x n) →
  step a a' → sound_with P a → sound_with P a'.
Proof.
  intros HP [a0 id i|a0|a0 reason|a0 c r|a0|a0 amount txid id now|a0 n dial] Hs.
  - destruct (Connect a0 id i) as [a1 [[]|x]] eqn:Ec; cbn.
    + apply connect_ok in Ec as (n & _ & Hn & Hu & He & Ha & Hi & _). unfold sound_with. rewrite Hn. by auto.
    + apply connect_err in Ec as Hx. destruct Hx as [[Dn Ds _ _ _ _ De] _].
      unfold sound_with in *. rewrite Dn, Ds. destruct (node a0) as [n|] eqn:En.
      { unfold Connect in Ec. rewrite En in Ec. by injection Ec as <- _. }
      destruct Hs as [Hu Hn]. split; [|done]. destruct De as [De|De]; [|done].
      unfold unenforced in *. by rewrite De.
  - destruct (Disconnect a0) as [a1 r] eqn:Ed. apply disconnect_facts in Ed. cbn. unfold sound_with in *.
    destruct r as [[]|x].
    + destruct Ed as (_ & -> & -> & _ & _ & Hu). done.
    + destruct Ed as (He & Hn1 & Hu & -> & -> & _). unfold enforced, unenforced in *. rewrite He.
      destruct (node a0); [|done]. destruct Hs as [Ht Hs]. split; [|done].
      intros Hk. rewrite (Hu Hk). by apply Ht.
  - unfold FailClosed. destruct (enforcer a0) as [e|] eqn:Ee; [|done].
    pose proof (fail_closed_law e reason) as L. destruct (enf_FailClosed e reason) as [e' x]. cbn in *.
    unfold sound_with, enforced, unenforced, tunnel_up in *. cbn. rewrite Ee in Hs. by rewrite L.
  - unfold UpdateConfig. destruct (Validate c); [|done]. by destruct r.
  - done.
  - unfold ConfirmPayment. by destruct (SaveReceipt _ _) as [st2 [[]|x]].
  - destruct (probe_frame a0 n dial) as (_ & Hg & Hn & Hx & _ & _ & He & _).
    unfold sound_with, enforced, unenforced, tunnel_up in *. by rewrite Hg, Hn, Hx, He.
Qed.

Lemma sound_step a a' : step a a' → sound a → sound a'.
Proof. by apply sound_with_step. Qed.

Lemma sound_steps a a' : rtc step a a' → sound a → sound a'.
Proof. induction 1; [done|]. intros Hs. by eapply IHrtc, sound_step. Qed.

(** The best candidate heads the sorted list. *)
#[export] Instance higher_strict_weak : StrictWeak higher (fun x => not_nan x.2).
Proof.
  split; unfold higher, f_gt.
  - intros x Hx. by apply (sw_irrefl (less := f_lt) (P := not_nan)).
  - intros x y z Hx Hy Hz H7 H8. by apply (sw_trans (less := f_lt) (P := not_nan) z.2 y.2 x.2).
  - intros x y z Hx Hy Hz H7 H8. by apply (sw_incomp (less := f_lt) (P := not_nan) z.2 y.2 x.2).
Qed.
End app_proofs.

(** ** Witness data *)

(** An engine that records whether it runs, and an enforcer over the machine
    of [Enforce]; a database that answers nothing. *)
#[local] Instance demo_engine : Engine bool := {
  eng_Start g c := if existsb (fun p => String.eqb (peer_Endpoint p) "") (Peers c)
                   then (g, Err "no endpoint") else (true, Ok tt);
  eng_Stop g := (false, Ok tt);
  eng_State g := if g then StateUp else StateDown;
  eng_Bytes g := (7, 9);
  eng_RotateEndpoint g e := (g, Ok tt)
}.
#[local] Instance demo_engine_laws : EngineLaws bool.
Proof.
  refine {| running := fun g => g |}.
  - intros g c g' r. cbn. destruct (existsb _ _); by intros [= <- <-].
  - intros g g' r. cbn. by intros [= <- <-].
  - done.
Defined.
Lemma demo_stop_keeps : failed_stop_keeps bool.
Proof. intros g g' e. done. Defined.
#[local] Instance demo_store : ClientStore (list string) := {
  AvgLatency s id k := if String.eqb id "n2" then Some (40 * 1000000, 3) else None;
  GetTrust s id := None;
  RecordLatency s id d := s;
  AddConnection s id := (s ++ [id], Some 1);
  EndConnection s id rx tx := s;
  SetSession s k v := s;
  ClearSession s := s;
  SaveReceipt s r := (s, Ok tt);
  ListReceipts s k := Some []
}.
#[local] Existing Instance stable_sort.
#[local] Instance demo_names : NameService := { net_LookupIP h := Err "no such host" }.
#[local] Existing Instance no_ipv6.
#[local] Instance demo_os_enforcer : Enforcer (osEnforcer machine) :=
  os_enforcer (@Firewall.windowsBackend _ Enforce.machine_runner ascii_unicode)
    (@Dns.darwinBackend _ Enforce.machine_runner) (@Routing.linuxBackend _ Enforce.machine_runner).
#[local] Instance demo_os_enforcer_laws : EnforcerLaws (osEnforcer machine) := os_enforcer_laws _ _ _.

Definition demo_node (id endpoint : string) (load : float64) : NodeInfo :=
  mkNodeInfo id ("key-" +:+ id) "eu" "DE" "" endpoint f0 10 1 f0 "active" "1" load 0 f0 0.
Definition demo_nodes : list NodeInfo :=
  [demo_node "n1" "203.0.113.7:51820" f_half; demo_node "n2" "198.51.100.9:51820" f_half;
   demo_node "n3" "192.0.2.1:51820" f1].
Definition demo_app (has_six : bool) : App bool (osEnforcer machine) (list string) unit :=
  set_enforcer (New DefaultClientConfig [] (Some false) (Ok demo_nodes)) (Some (demo_enforcer has_six)).
Definition demo_io : connect_io := mkConnectIO (fun _ _ => None) (Some (repeat 5 32)) None 42 1000.
Definition demo_connected (has_six : bool) := Connect (demo_app has_six) "n1" demo_io.

(** ** Properties *)

(** a connected client is protected.  From a new client whose enforcer, if
    it has one, has nothing in force, after any calls of Connect, Disconnect,
    FailClosed, UpdateConfig, probes and the payment surface, with any
    failures: while a node is current every enforcer has a plan in force and
    the session is that node's, and the tunnel device is up, unless a stop that
    failed has closed it; while none is, there is no session and no plan is
    left in force. *)
Theorem connected_means_protected {G E S W} `{EngineLaws G, EnforcerLaws E, ClientStore S, IPv6,
    NameService, SortSlice} c st g ns (e : option E) (a : App G E S W) :
  (∀ x, e = Some x → in_force x = false) → rtc step (set_enforcer (New c st g ns) e) a →
  match node a with
  | Some n => (failed_stop_keeps G → tunnel_up a = true) ∧ (∀ x, enforcer a = Some x → in_force x = true)
              ∧ ses_Active (sess a) = true ∧ ses_NodeID (sess a) = NodeID n
  | None => sess a = no_session ∧ ∀ x, enforcer a = Some x → in_force x = false
  end.
Proof.
  intros He Hs. assert (sound (set_enforcer (New (G := G) (W := W) c st g ns) e)) as Hz.
  { unfold sound, sound_with, unenforced. cbn. split; [|done]. destruct e as [x|]; [|done]. by rewrite (He x). }
  apply (sound_steps _ _ Hs) in Hz. unfold sound, sound_with, names_node, enforced, unenforced in Hz.
  destruct (node a); [destruct Hz as (Hu & Hf & Hx)|destruct Hz as [Hf Hx]];
    split_and!; try done; try apply Hx; intros x Hxe; rewrite Hxe in Hf; [done|by apply negb_true_iff].
Qed.

(** C16: a connection that fails leaves no trace.  The current node, the
    session, the circuit, the connection and the configuration are what they
    were and at most an error event is published; when the plan cannot be
    built or applied, the engine that had been started is stopped again and
    nothing is in force. *)
Theorem failed_connect_tears_down {G E S W} `{EngineLaws G, EnforcerLaws E, ClientStore S, IPv6,
    NameService, SortSlice} (a : App G E S W) id i a' x :
  Connect a id i = (a', Err x) → disconnected a a'
  ∧ match x with
    | ErrPlan _ | ErrEnforce _ => unenforced a' = true ∧ ∃ g, engine a' = Some (eng_Stop g).1
    | _ => enforcer a' = enforcer a
    end.
Proof. apply connect_err. Qed.

(** protection comes off only after the tunnel is down.  If the engine
    does not stop, disconnecting changes neither the enforcer, nor the current
    node, the session or the database and brings no device up; if it succeeds, the device is down,
    nothing is in force and node, session and circuit are cleared. *)
Theorem disconnect_order {G E S W} `{EngineLaws G, EnforcerLaws E, ClientStore S, IPv6,
    NameService, SortSlice} (a a' : App G E S W) r : Disconnect a = (a', r) →
  match r with
  | Ok _ => (∃ n, node a = Some n) ∧ node a' = None ∧ sess a' = no_session ∧ circuit a' = no_circuit
      ∧ tunnel_up a' = false ∧ unenforced a' = true
  | Err _ => enforcer a' = enforcer a ∧ (tunnel_up a' = true → tunnel_up a = true)
      ∧ (failed_stop_keeps G → tunnel_up a' = tunnel_up a) ∧ node a' = node a ∧ sess a' = sess a
      ∧ circuit a' = circuit a ∧ published a' = published a ∧ store a' = store a
  end.
Proof. apply disconnect_facts. Qed.

(** automatic selection picks the best usable node.  When the scores are
    numbers, selection fails exactly when no node passes the filter; otherwise
    it returns a listed node that is active, has fewer than five failures and
    lies in the region when the policy asks for one, and no candidate has a
    higher score. *)
Theorem select_highest {G E S W} `{Engine G, Enforcer E, ClientStore S, IPv6, NameService, SortSlice}
  (a : App G E S W) policy region l :
  ListNodes a = Ok l → policy ≠ "" → (∀ n, n ∈ l → not_nan (score policy n l)) →
  match Select a policy region with
  | Ok n => n ∈ l ∧ candidate policy region n = true
      ∧ ∀ m, m ∈ l → candidate policy region m = true → f_gt (score policy m l) (score policy n l) = false
  | Err _ => ∀ m, m ∈ l → candidate policy region m = false
  end.
Proof.
  intros Hl Hp Hn. unfold Select. rewrite (proj2 (String.eqb_neq policy "") Hp), Hl.
  set (cands := map _ _). pose proof (sort_Slice_perm higher cands) as Hperm.
  assert (∀ x, x ∈ cands ↔ x.1 ∈ l ∧ candidate policy region x.1 = true ∧ x.2 = score policy x.1 l) as Hc.
  { intros [n s]. unfold cands. rewrite list_elem_of_In, in_map_iff. cbn. split.
    - intros (m & [= <- <-] & [Hm Hx]%filter_In). by rewrite list_elem_of_In.
    - intros (Hm & Hx & ->). exists n. split; [done|]. apply filter_In. by rewrite <- list_elem_of_In. }
  assert (sorted_by higher (sort_Slice higher cands)) as Hs.
  { apply (sort_Slice_sorted higher (fun x => not_nan x.2)); [apply _|]. apply Forall_forall.
    intros x Hx%Hc. destruct Hx as (Hx & _ & ->). by apply Hn. }
  destruct (sort_Slice higher cands) as [|best rest] eqn:Eb.
  - intros m Hm. apply not_true_iff_false. intros Hx.
    assert ((m, score policy m l) ∈ cands) as Hin by by apply Hc.
    rewrite <- Hperm in Hin. by apply elem_of_nil in Hin.
  - assert (best ∈ cands) as Hb by (rewrite <- Hperm; by left). apply Hc in Hb as (Hb & Hbc & Hbs).
    split_and!; [done|done|]. intros m Hm Hmc.
    assert ((m, score policy m l) ∈ best :: rest) as Hin by (rewrite Hperm; by apply Hc).
    rewrite <- Hbs. apply elem_of_cons in Hin as [Hin|Hin].
    + rewrite <- Hin. cbn. apply (sw_irrefl (less := f_lt) (P := not_nan)). by apply Hn.
    + apply StronglySorted_inv in Hs as [_ Hf]. rewrite Forall_forall in Hf. by apply (Hf _ Hin).
Qed.

(** ** Witnesses *)

Lemma connected_means_protected_witness :
  (demo_connected true).2 = Ok tt
  ∧ tunnel_up (demo_connected true).1 = true
  ∧ ∃ e, enforcer (demo_connected true).1 = Some e ∧ in_force e = true.
Proof.
  pose proof (connected_means_protected DefaultClientConfig [] (Some false) (Ok demo_nodes)
    (Some (demo_enforcer true)) (demo_connected true).1 ltac:(by intros x [= <-])
    (rtc_once _ _ (step_connect (demo_app true) "n1" demo_io))) as Hc.
  assert (node (demo_connected true).1 = Some (set_latency (set_trust (demo_node "n1" "203.0.113.7:51820" f_half) f_half) (-1)))
    as Hn by (vm_compute; reflexivity).
  rewrite Hn in Hc. destruct Hc as (Hu & Hf & _).
  split; [vm_compute; reflexivity|]. split; [exact (Hu demo_stop_keeps)|].
  assert (is_Some_b (enforcer (demo_connected true).1) = true) as Hx by (vm_compute; reflexivity).
  destruct (enforcer (demo_connected true).1) as [e|] eqn:Ee; [exact (ex_intro _ e (conj eq_refl (Hf e eq_refl)))|].
  discriminate Hx.
Defined.

Lemma failed_connect_tears_down_witness :
  engine (demo_connected false).1 = Some false ∧ node (demo_connected false).1 = None.
Proof.
  assert (∃ x, demo_connected false = ((demo_connected false).1, Err (ErrEnforce x))) as [x Hx]
    by (eexists; vm_compute; reflexivity).
  destruct (failed_connect_tears_down (demo_app false) "n1" demo_io _ _ Hx) as [Hd [_ [g Hg]]].
  split; [exact Hg|]. rewrite (di_node _ _ Hd). reflexivity.
Defined.

Lemma disconnect_order_witness : (Disconnect (demo_connected true).1).2 = Ok tt
  ∧ tunnel_up (Disconnect (demo_connected true).1).1 = false
  ∧ node (Disconnect (demo_connected true).1).1 = None.
Proof.
  assert (Disconnect (demo_connected true).1 = ((Disconnect (demo_connected true).1).1, Ok tt)) as Ed
    by (vm_compute; reflexivity).
  destruct (disconnect_order (demo_connected true).1 _ _ Ed) as (_ & Hn & _ & _ & Hu & _).
  split; [vm_compute; reflexivity|]. split; [exact Hu|exact Hn].
Defined.

Lemma select_highest_witness :
  match Select (demo_app true) SelectFastest "" with Ok n => NodeID n = "n1" | Err _ => False end
  ∧ (∀ m, m ∈ map (observed (demo_app true)) demo_nodes → candidate SelectFastest "" m = true →
     f_gt (score SelectFastest m (map (observed (demo_app true)) demo_nodes))
       (score SelectFastest (observed (demo_app true) (demo_node "n1" "203.0.113.7:51820" f_half))
          (map (observed (demo_app true)) demo_nodes)) = false).
Proof.
  pose proof (select_highest (demo_app true) SelectFastest "" (map (observed (demo_app true)) demo_nodes)
    eq_refl ltac:(done)) as Hs.
  assert (Select (demo_app true) SelectFastest ""
    = Ok (observed (demo_app true) (demo_node "n1" "203.0.113.7:51820" f_half))) as E
    by (vm_compute; reflexivity).
  rewrite E in *. split; [reflexivity|]. apply Hs. apply Forall_forall.
  apply (bool_decide_unpack _). vm_compute. reflexivity.
Defined.
