(* ===== verification/AppStorage.v ===== *)
(** * AppStorage: the orchestrator over its database (internal/app/app.go, internal/storage/client.go)

    [Storage]'s tables behind the interface [App] is written against, and what
    a connection leaves in them. *)

From Stdlib Require Import ZArith Lia.
From S2P Require Import Prelude Float64 GoStrings NetIP.
From S2P Require Import Timestamps.
From S2P Require Import Storage.
From S2P Require Import ClientConfig.
From S2P Require Import Enforce.
From S2P Require Import App.

(** The clock and the outcomes the next call of the database meets; a call
    may run two statements. *)
Record answer := mkAnswer { an_now : time; an_io : option string; an_later : time; an_io' : option string }.
Definition calm (x : answer) : Prop := an_io x = None ∧ an_io' x = None.
Definition uneventful : answer := mkAnswer 0 None 0 None.

Record client_db := mkClientDB { db : Storage.Store; answers : list answer }.
Definition the_answer (d : client_db) : answer := hd uneventful (answers d).

(** A call that writes takes an answer. *)
Definition write {A} (f : Storage.Store → answer → Storage.Store * A) (d : client_db) : client_db * A :=
  let '(s, r) := f (db d) (the_answer d) in (mkClientDB s (tl (answers d)), r).

Definition ok_value {E A} (r : result E A) : option A := match r with Ok x => Some x | Err _ => None end.

Definition to_row (r : App.Receipt) : Storage.Receipt time :=
  Storage.mkReceipt (r_ID r) (r_NodeID r) (r_SessionID r) (AmountDero r) (TxID r) (r_At r).
Definition of_row (r : Storage.Receipt time) : App.Receipt :=
  mkReceipt (Storage.r_ID r) (Storage.r_NodeID r) (Storage.r_SessionID r) (Storage.AmountDero r) (Storage.TxID r)
    (Storage.At r).

#[export] Instance sqlite_store `{SortSlice, GoArch} : ClientStore client_db := {
  AvgLatency d id k := ok_value (Storage.AvgLatency (db d) id k (an_io (the_answer d)));
  GetTrust d id := fst <$> ok_value (Storage.GetTrust (db d) id (an_io (the_answer d)));
  RecordLatency d id rtt :=
    (write (fun s x => Storage.RecordLatency s id rtt (an_now x) (an_later x) (an_io x) (an_io' x)) d).1;
  AddConnection d id :=
    let '(d, r) := write (fun s x => Storage.AddConnection s id (an_now x) (an_io x)) d in (d, ok_value r);
  EndConnection d id rx tx := (write (fun s x => Storage.EndConnection s id rx tx (an_now x) (an_io x)) d).1;
  SetSession d k v := (write (fun s x => Storage.SetSession s k v (an_io x)) d).1;
  ClearSession d := (write (fun s x => Storage.ClearSession s (an_io x)) d).1;
  SaveReceipt d r := write (fun s x => Storage.SaveReceipt s (to_row r) (an_io x)) d;
  ListReceipts d k := map of_row <$> ok_value (Storage.ListReceipts (db d) k (an_io (the_answer d)))
}.

(** ** What the orchestrator does to its database, whatever it is *)

Section calls.
Context {G E S W : Type} `{EngineLaws G, EnforcerLaws E, ClientStore S, IPv6, NameService, SortSlice}.
Implicit Types a : App G E S W.

Definition probed (st : S) (id : string) (rtt : option duration) : S :=
  match rtt with Some rtt => RecordLatency st id rtt | None => st end.

Lemma connect_store a id i a' : Connect a id i = (a', Ok tt) →
  ∃ n rtt, node a' = Some n ∧ connID a' = default 0 (AddConnection (probed (store a) (NodeID n) rtt) (NodeID n)).2
  ∧ store a' = SetSession (SetSession (AddConnection (probed (store a) (NodeID n) rtt) (NodeID n)).1
                             "current_node" (NodeID n)) "current_session" (SessionID (sess a')).
Proof.
  unfold Connect. destruct (node a) eqn:En; [done|]. destruct (engine a) as [g|]; [|done].
  destruct (pick a id) as [n|]; [|done]. unfold ProbeLatency.
  set (rtt := io_dial i _ _).
  assert ((match rtt with None => (a, None) | Some rtt => (set_store a (RecordLatency (store a) (NodeID n) rtt), Some rtt) end)
    = (set_store a (probed (store a) (NodeID n) rtt), rtt)) as ->
    by (destruct rtt; [done | by destruct a]).
  set (a1 := set_store a _).
  set (n1 := match rtt with Some rtt => set_latency n (ms_of rtt) | None => n end).
  assert (NodeID n1 = NodeID n) as Hn1 by (unfold n1; by destruct rtt).
  destruct (genPrivateKey (io_key i)); [|done]. destruct (eng_Start g _) as [g' [[]|x]]; [|done].
  destruct (applyEnforcement _ n1) as [a2 [[]|x]] eqn:Ee; [|done].
  apply enforcement_frame in Ee as [Hs _]. unfold same_but_enforcer in Hs. intros [= <-].
  assert (store a2 = probed (store a) (NodeID n1) rtt) as Hst by (rewrite Hs, Hn1; done).
  exists n1, rtt. unfold record_connection. rewrite Hst.
  destruct (AddConnection (probed (store a) (NodeID n1) rtt) (NodeID n1)) as [st1 id1]. done.
Qed.

Lemma disconnect_store a a' : Disconnect a = (a', Ok tt) →
  let bytes := match engine a with Some g => eng_Bytes g | None => (0, 0) end in
  store a' = ClearSession (if connID a =? 0 then store a else EndConnection (store a) (connID a) bytes.1 bytes.2).
Proof.
  unfold Disconnect. destruct (node a) as [n|]; [|done].
  destruct (match engine a with Some g => eng_Bytes g | None => (0, 0) end) as [rx tx].
  destruct (stop_engine a) as [a1 [[]|e]] eqn:E1; [|done]. apply stop_frame in E1 as (E1 & _).
  destruct (ClearEnforcement a1) as [a2 rc] eqn:E2. apply clear_frame in E2 as [E2 _].
  unfold same_but_enforcer in E2. intros [= <-]. cbn.
  assert (store a2 = store a ∧ connID a2 = connID a) as [Hs Hi] by (rewrite E2, E1; done).
  destruct rc; cbn; by rewrite Hs, Hi.
Qed.
End calls.

(** ** The rows of a connection *)

Section rows.
Context `{SortSlice, GoArch}.
Implicit Types d : client_db.

Lemma calm_answer d : Forall calm (answers d) → calm (the_answer d) ∧ Forall calm (tl (answers d)).
Proof. intros Hc. unfold the_answer. by destruct Hc as [|x l Hx Hl]. Qed.

Lemma ready_statement s t : Storage.usable s →
  t ∈ ["saved_nodes"; "latency_history"; "local_trust"; "settings"; "session_state"; "connection_history"; "receipts"] →
  statement_error s t None = None.
Proof.
  intros Hu Ht. unfold Storage.usable in Hu. rewrite Forall_forall in Hu. cbn. by rewrite decide_True by auto.
Qed.

(** Tables that are there and no failure to come: every call goes through. *)
Record ready d : Prop := { rd_usable : Storage.usable (db d); rd_calm : Forall calm (answers d) }.

(** What none of the calls of a connection touches. *)
Record kept d d' : Prop := {
  kp_nodes : saved_nodes (db d') = saved_nodes (db d);
  kp_receipts : receipts (db d') = receipts (db d);
  kp_settings : settings (db d') = settings (db d);
  kp_trust : local_trust (db d') = local_trust (db d)
}.

Lemma probed_row d id rtt : ready d →
  let d' := probed d id rtt in
  ready d' ∧ kept d d' ∧ connection_history (db d') = connection_history (db d)
  ∧ conn_seq (db d') = conn_seq (db d).
Proof.
  intros [Hu Hc]. destruct rtt as [rtt|]; [|by repeat split].
  destruct (calm_answer d Hc) as [[Hi Hi'] Ht]. cbn. unfold write, Storage.RecordLatency.
  rewrite Hi, Hi', ready_statement by (done || set_solver). cbn. by repeat split.
Qed.

Lemma added_row d id : ready d →
  let x := AddConnection d id in
  ready x.1 ∧ kept d x.1 ∧ x.2 = Some (conn_seq (db d) + 1)
  ∧ ∃ t, connection_history (db x.1) = connection_history (db d) ++ [mkConn (conn_seq (db d) + 1) id t None 0 0].
Proof.
  intros [Hu Hc]. destruct (calm_answer d Hc) as [[Hi _] Ht]. cbn. unfold write, Storage.AddConnection.
  rewrite Hi, ready_statement by (done || set_solver). cbn. repeat split; try done. by eexists.
Qed.

Lemma session_row d k v : ready d →
  let d' := SetSession d k v in
  ready d' ∧ kept d d' ∧ connection_history (db d') = connection_history (db d)
  ∧ session_state (db d') = <[k := v]> (session_state (db d)).
Proof.
  intros [Hu Hc]. destruct (calm_answer d Hc) as [[Hi _] Ht]. cbn. unfold write, Storage.SetSession.
  rewrite Hi, ready_statement by (done || set_solver). cbn. by repeat split.
Qed.

Lemma ended_row d id rx tx : ready d →
  let d' := EndConnection d id rx tx in
  ready d' ∧ kept d d'
  ∧ ∃ t, connection_history (db d') = map (end_row id rx tx t) (connection_history (db d)).
Proof.
  intros [Hu Hc]. destruct (calm_answer d Hc) as [[Hi _] Ht]. cbn. unfold write, Storage.EndConnection.
  rewrite Hi, ready_statement by (done || set_solver). cbn. repeat split; try done. by eexists.
Qed.

Lemma cleared_rows d : ready d →
  let d' := ClearSession d in
  ready d' ∧ kept d d' ∧ connection_history (db d') = connection_history (db d) ∧ session_state (db d') = ∅.
Proof.
  intros [Hu Hc]. destruct (calm_answer d Hc) as [[Hi _] Ht]. cbn. unfold write, Storage.ClearSession.
  rewrite Hi, ready_statement by (done || set_solver). cbn. by repeat split.
Qed.

Lemma kept_trans d1 d2 d3 : kept d1 d2 → kept d2 d3 → kept d1 d3.
Proof. intros [] []. split; congruence. Qed.

(** Ending the newest row leaves the older ones. *)
Lemma end_newest s r rx tx t : ids_wf s → cn_id r = conn_seq s + 1 →
  map (end_row (cn_id r) rx tx t) (connection_history s ++ [r])
  = connection_history s ++ [mkConn (cn_id r) (cn_node r) (cn_started r) (Some t) rx tx].
Proof.
  intros [_ Hids] Hr. rewrite map_app. f_equal.
  - rewrite <- (map_id (connection_history s)) at 2. apply map_ext_in. intros x Hx%list_elem_of_In.
    rewrite Forall_forall in Hids. specialize (Hids x Hx). unfold end_row.
    by rewrite (proj2 (Z.eqb_neq _ _)) by lia.
  - cbn. unfold end_row. by rewrite Z.eqb_refl.
Qed.
End rows.

(** ** Properties *)

(** C35: the history has every connection, with its traffic.  On a database this
    program created and opened, while no statement fails, a successful Connect
    stores the node and the session for a restart to find, and the Disconnect
    that follows clears them and leaves exactly one more row of history: a new
    id, that node, closed, and the byte counts the engine reported at the end.
    Nodes, receipts, settings and trust are untouched. *)
Theorem history_records_sessions {G E W} `{EngineLaws G, EnforcerLaws E, IPv6, NameService, SortSlice, GoArch}
  (a a1 a2 : App G E client_db W) id i :
  let d := store a in
  rtc db_step empty_db (db d) → version (db d) = Some SchemaVersion → Forall calm (answers d) →
  Connect a id i = (a1, Ok tt) → Disconnect a1 = (a2, Ok tt) →
  let bytes := match engine a1 with Some g => eng_Bytes g | None => (0, 0) end in
  ∃ n t0 t1, node a1 = Some n
  ∧ GetSession (db (store a1)) "current_node" None = Ok (NodeID n)
  ∧ GetSession (db (store a1)) "current_session" None = Ok (SessionID (sess a1))
  ∧ session_state (db (store a2)) = ∅
  ∧ connection_history (db (store a2))
    = connection_history (db d) ++ [mkConn (connID a1) (NodeID n) t0 (Some t1) bytes.1 bytes.2]
  ∧ (∀ r, r ∈ connection_history (db d) → cn_id r ≠ connID a1)
  ∧ kept d (store a2).
Proof.
  intros d Hs Hv Hc Hcon Hdis bytes.
  assert (ready d) as Hr by (split; [apply complete_usable; [by apply db_steps_wf | done] | done]).
  pose proof (db_steps_ids _ Hs) as Hids.
  apply connect_store in Hcon as (n & rtt & Hn & Hid & Hst). apply disconnect_store in Hdis. cbv zeta in Hdis.
  fold bytes in Hdis. fold d in Hid, Hst.
  destruct (probed_row d (NodeID n) rtt Hr) as (R1 & K1 & C1 & Q1). set (d1 := probed d (NodeID n) rtt) in *.
  destruct (added_row d1 (NodeID n) R1) as (R2 & K2 & I2 & t0 & C2).
  set (d2 := (AddConnection d1 (NodeID n)).1) in *.
  destruct (session_row d2 "current_node" (NodeID n) R2) as (R3 & K3 & C3 & S3).
  set (d3 := SetSession d2 "current_node" (NodeID n)) in *.
  destruct (session_row d3 "current_session" (SessionID (sess a1)) R3) as (R4 & K4 & C4 & S4).
  rewrite <- Hst in R4, K4, C4, S4.
  rewrite I2, Q1 in Hid. cbn in Hid. rewrite Q1 in C2.
  assert (connID a1 =? 0 = false) as Hz by (apply Z.eqb_neq; destruct Hids; lia). rewrite Hz in Hdis.
  destruct (ended_row (store a1) (connID a1) bytes.1 bytes.2 R4) as (R5 & K5 & t1 & C5).
  set (d5 := EndConnection (store a1) _ _ _) in *.
  destruct (cleared_rows d5 R5) as (R6 & K6 & C6 & S6). rewrite <- Hdis in R6, K6, C6, S6.
  exists n, t0, t1. split; [done|].
  assert (∀ k, GetSession (db (store a1)) k None = Ok (default "" (session_state (db (store a1)) !! k))) as Hget.
  { intros k. unfold GetSession. rewrite ready_statement by (apply R4 || set_solver). done. }
  split; [rewrite Hget, S4, S3, lookup_insert_ne, lookup_insert_eq by done; done|].
  split; [by rewrite Hget, S4, lookup_insert_eq|]. split; [done|]. split; [|split].
  - rewrite C6, C5, C4, C3, C2, C1, Hid.
    exact (end_newest (db d) (mkConn (conn_seq (db d) + 1) (NodeID n) t0 None 0 0) _ _ _ Hids eq_refl).
  - intros r Hin Hx. destruct Hids as [_ Hids]. rewrite Forall_forall in Hids. specialize (Hids r Hin). lia.
  - do 5 (eapply kept_trans; [eassumption|]). done.
Qed.

(** ** Witnesses and examples *)

#[local] Existing Instances stable_sort amd64 no_ipv6 App.demo_engine App.demo_engine_laws App.demo_names
  App.demo_os_enforcer App.demo_os_enforcer_laws.

Definition demo_client : App bool (osEnforcer machine) client_db unit :=
  set_enforcer (New DefaultClientConfig (mkClientDB Storage.demo_db [mkAnswer noon None noon None])
    (Some false) (Ok demo_nodes)) (Some (demo_enforcer true)).
Definition demo_up := Connect demo_client "n1" demo_io.
Definition demo_down := Disconnect demo_up.1.

Lemma history_records_sessions_witness :
  ∃ t0 t1, connection_history (db (store demo_down.1)) = [mkConn 1 "n1" t0 (Some t1) 7 9].
Proof.
  assert (rtc db_step empty_db (db (store demo_client))) as Hs
    by (apply rtc_once; exact (step_open empty_db [])).
  assert (version (db (store demo_client)) = Some SchemaVersion) as Hv by (vm_compute; reflexivity).
  assert (Forall calm (answers (store demo_client))) as Hc by (repeat constructor).
  assert (Connect demo_client "n1" demo_io = (demo_up.1, Ok tt)) as Hcon by (vm_compute; reflexivity).
  assert (Disconnect demo_up.1 = (demo_down.1, Ok tt)) as Hdis by (vm_compute; reflexivity).
  destruct (history_records_sessions demo_client _ _ "n1" demo_io Hs Hv Hc Hcon Hdis)
    as (n & t0 & t1 & Hn & _ & _ & _ & Hh & _).
  exists t0, t1. rewrite Hh.
  assert (NodeID <$> node demo_up.1 = Some "n1") as Hid by (vm_compute; reflexivity).
  rewrite Hn in Hid. injection Hid as ->. vm_compute. reflexivity.
Defined.

(** Two payments half a second apart: the one shown as the last is the first. *)
Example last_payment_is_the_older :
  let a1 := (ConfirmPayment demo_client f_half "tx-1" "1" noon).1 in
  let a2 := (ConfirmPayment a1 f_half "tx-2" "2" (noon + 500000000)).1 in
  LastTxID (Payment a2 (noon + second)) = "tx-1".
Proof. vm_compute. reflexivity. Qed.
