(* ===== verification/Diag.v ===== *)
(** * Diag: what the client reports about itself (internal/app/diag.go, State in app.go)

    The privacy report with its nine checks, the state snapshot, and the
    number formats they print.  The engine's endpoint and handshake and the
    text of an enforcement error are interfaces. *)

From Stdlib Require Import ZArith Lia Ascii.
From S2P Require Import Prelude Float64 GoStrings NetIP GoText.
From S2P Require Import Timestamps.
From S2P Require Import ClientConfig.
From S2P Require Import Enforce.
From S2P Require Import App.

(** ** Numbers as text *)

Definition itoa64 (n : Z) : string :=
  if n =? 0 then "0"
  else let neg := n <? 0 in
       let n := if neg then wrap_i64 (- n) else n in
       let digits := if 0 <? n then fmt_d n else "" in
       if neg then "-" +:+ digits else digits.
Definition itoa (n : Z) : string := itoa64 n.

(** [q] rounded from [n / d], halves to the even side. *)
Definition round_half_even (n d : Z) : Z :=
  let q := n / d in
  match 2 * (n mod d) ?= d with
  | Lt => q
  | Gt => q + 1
  | Eq => if Z.even q then q else q + 1
  end.

(** [%.kf]. *)
Definition fmt_fixed (k : nat) (x : float64) : string :=
  let sign (s : bool) := if s then "-" else "" in
  match x with
  | SpecFloat.S754_nan => "NaN"
  | SpecFloat.S754_infinity s => (if s then "-" else "+") +:+ "Inf"
  | SpecFloat.S754_zero s => sign s +:+ "0." +:+ of_chars (pad k 0)
  | SpecFloat.S754_finite s m e =>
    let scaled := Z.pos m * 10 ^ Z.of_nat k in
    let n := if 0 <=? e then scaled * 2 ^ e else round_half_even scaled (2 ^ (- e)) in
    sign s +:+ fmt_d (n / 10 ^ Z.of_nat k) +:+ "." +:+ of_chars (pad k (n mod 10 ^ Z.of_nat k))
  end.

Definition trim_right (c : Ascii.ascii) (s : string) : string :=
  of_chars (reverse ((fix go l := match l with x :: l' => if chr x c then go l' else l | [] => [] end)
                       (reverse (chars s)))).
Definition formatDero (f : float64) : string :=
  if f_eq f f0 then "0" else trim_right "."%char (trim_right "0"%char (fmt_fixed 8 f)).

(** [d.Round(time.Second).String()]: halves away from zero. *)
Definition round_second (d : duration) : duration :=
  let r := Z.abs (Z.rem d second) in
  if d <? 0 then (if 2 * r <? second then d + r else Z.max min_int64 (d - second + r))
  else (if 2 * r <? second then d - r else Z.min max_int64 (d + second - r)).
Definition seconds_String (d : duration) : string :=
  let u := Z.abs d / second in
  (if d <? 0 then "-" else "")
  +:+ (if u <? 3600 then "" else fmt_d (u / 3600) +:+ "h")
  +:+ (if u <? 60 then "" else fmt_d (u / 60 mod 60) +:+ "m")
  +:+ fmt_d (u mod 60) +:+ "s".

Definition boolStr (b : bool) (t f : string) : string := if b then t else f.

(** ** Reports *)

Record Check := mkCheck { Name : string; OK : bool; Value : string; Detail : string }.
Record Diagnostics := mkDiagnostics {
  d_At : time; d_Tunnel : Check; d_ExitIP : Check; d_LocalIPCheck : Check; d_DNSRoute : Check; d_IPv6 : Check;
  d_KillSwitch : Check; d_Enforcement : Check; d_Node : Check; d_Multihop : Check }.

(** The rest of [EngineStatus]. *)
Class EngineReport (G : Type) : Type := { eng_Endpoint : G → string; eng_LastHandshake : G → time }.

Record ConnState := mkConnState {
  cs_EngineState : string; cs_Node : option NodeInfo; ConnectedAt : time; ElapsedSecs : Z;
  cs_RxBytes : Z; cs_TxBytes : Z; cs_Session : SessionInfo; cs_Payment : PaymentInfo;
  cs_Circuit : Circuit; Demo : bool }.

Section diag.
Context {G E S W : Type} `{Engine G, !EngineReport G, Enforcer E, ClientStore S, IPv6, NameService, SortSlice, GoArch}.
Context (err_text : enf_error (E := E) → string).
Implicit Types a : App G E S W.

Definition App_EnforceStatus a : EnforceStatus (enf_error (E := E)) :=
  match enforcer a with
  | None => mkEnforceStatus false false "" "" "" "" "" "" None
  | Some e => let st := enf_Status e in
              mkEnforceStatus true (Applied st) (st_KillSwitch st) (st_DNSMode st) (st_IPv6 st)
                (KillSwitchBackend st) (DNSBackend st) (RoutingBackend st) (st_Error st)
  end.

Definition is_up a : bool := String.eqb (EngineState a) StateUp.

Definition check_tunnel a (now : time) : Check :=
  mkCheck "tunnel" (is_up a) (EngineState a)
    (if is_up a then
       let endpoint := match engine a with Some g => eng_Endpoint g | None => "" end in
       let hs := match engine a with Some g => eng_LastHandshake g | None => 0 end in
       "engine UP on " +:+ endpoint
       +:+ (if Time_IsZero hs then "" else
              "; handshake " +:+ seconds_String (round_second (Time_Sub now hs)) +:+ " ago")
     else match node a with
          | Some _ => "tunnel not established; traffic must not flow"
          | None => "disconnected"
          end).

Definition check_exit a : Check :=
  match node a with
  | Some n =>
    let host := match net_SplitHostPort (Endpoint n) with Some (h, _) => h | None => Endpoint n end in
    mkCheck "exit_ip" (is_up a) host ("exit endpoint reported by node metadata (" +:+ NodeID n +:+ ")")
  | None => mkCheck "exit_ip" false "none" "not connected"
  end.
Definition check_local : Check :=
  mkCheck "local_ip_check" false "not probed" "local egress check runs on demand; exit IP above is node-reported".

Definition check_dns a : Check :=
  let servers := strings_Join (Servers (DNS (cfg a))) "," in
  let servers := if String.eqb servers "" then "10.89.0.1 (veilnet default)" else servers in
  let mode := dns_Mode (DNS (cfg a)) in
  mkCheck "dns_route" (negb (is_up a) || negb (String.eqb mode "SYSTEM")) mode ("resolvers: " +:+ servers).

Definition check_enforcement a : Check :=
  let enf := App_EnforceStatus a in
  let ok := Available enf && (Applied enf || negb (is_up a)) in
  let '(value, detail) :=
    if negb (Available enf) then
      ("not enforced here", "this client has no privileged service; kill switch and DNS are config-state only")
    else if Applied enf then
      ("applied", "kill switch via " +:+ KillSwitchBackend enf +:+ "; DNS via " +:+ DNSBackend enf
                  +:+ "; routes via " +:+ RoutingBackend enf)
    else ("idle", "nothing applied (not connected)") in
  match st_Error enf with
  | Some e => mkCheck "enforcement" false value (detail +:+ "; last error: " +:+ err_text e)
  | None => mkCheck "enforcement" ok value detail
  end.

Definition check_ipv6 a : Check :=
  let enf := App_EnforceStatus a in
  let '(value, detail) :=
    if IPv6Upstream (DNS (cfg a))
    then ("routed", "IPv6 upstream explicitly enabled; routed through tunnel")
    else ("blocked", "IPv6 blocked while connected (no silent leak)") in
  let '(value, detail) :=
    if Available enf && Applied enf && negb (String.eqb (st_IPv6 enf) "") && negb (String.eqb (st_IPv6 enf) "unknown")
    then (st_IPv6 enf, "applied by the privileged service (" +:+ RoutingBackend enf +:+ ")")
    else (value, detail) in
  mkCheck "ipv6" true value detail.

Definition ksWanted a : bool :=
  let mode := KillSwitch (cfg a) in
  String.eqb mode "ALWAYS_ON"
  || (String.eqb mode "ON_WHILE_CONNECTED" && (is_Some_b (node a) || is_up a)).
Definition ksEnforced a : bool :=
  let enf := App_EnforceStatus a in
  Available enf && Applied enf && negb (String.eqb (st_KillSwitch enf) "") && negb (String.eqb (st_KillSwitch enf) "OFF").
Definition check_killswitch a : Check :=
  let enf := App_EnforceStatus a in
  let detail :=
    if ksEnforced a then "enforcing via " +:+ KillSwitchBackend enf
    else if ksWanted a && Available enf then "requested but not applied"
    else if ksWanted a && negb (Available enf) then "config-state only: no privileged service wired"
    else boolStr (ksWanted a) "requested by config" "not requested" in
  mkCheck "killswitch" (String.eqb (KillSwitch (cfg a)) "OFF" || ksEnforced a || negb (ksWanted a))
    (KillSwitch (cfg a)) detail.

Definition check_node a : Check :=
  match node a with
  | Some n => mkCheck "node" true (NodeID n)
                (City n +:+ ", " +:+ Country n +:+ " (" +:+ n_Region n +:+ "); bond "
                 +:+ formatDero (BondDero n) +:+ " DERO; v" +:+ Version n)
  | None => mkCheck "node" false "none" "no node selected"
  end.

Definition check_multihop a : Check :=
  let c := circuit a in
  if c_Active c
  then mkCheck "multihop" true (EntryID c +:+ " -> " +:+ ExitID c)
         ("2-hop circuit; rotations: " +:+ itoa (Rotations c))
  else mkCheck "multihop" false "direct" "single-hop; enable multihop in settings for 2-hop circuits".

(** [at_] and [now] are the two clock readings. *)
Definition Diagnose a (at_ now : time) : Diagnostics :=
  mkDiagnostics at_ (check_tunnel a now) (check_exit a) check_local (check_dns a) (check_ipv6 a)
    (check_killswitch a) (check_enforcement a) (check_node a) (check_multihop a).

(** [int64(d.Seconds())]. *)
Definition seconds_of (d : duration) : Z :=
  f_to_int64 (f_add (f_of_Z (Z.quot d second)) (f_div (f_of_Z (Z.rem d second)) (f_of_Z second))).

(** [demo] is the flag the app was built with. *)
Definition State a (demo : bool) (now : time) : ConnState :=
  let '(rx, tx) := match engine a with Some g => eng_Bytes g | None => (0, 0) end in
  let '(n, since, elapsed) :=
    match node a with
    | Some n => (Some n, StartedAt (sess a),
                 if Time_IsZero (StartedAt (sess a)) then 0 else seconds_of (Time_Sub now (StartedAt (sess a))))
    | None => (None, 0, 0)
    end in
  mkConnState (EngineState a) n since elapsed rx tx (sess a) (Payment a now) (circuit a) demo.
End diag.

(** ** Lemmas *)

Example formats :
  formatDero (f_const 1 2) = "0.5" ∧ formatDero (f_of_Z 100) = "100" ∧ formatDero (f_const 1 3) = "0.33333333"
  ∧ fmt_fixed 4 (f_const 5 100) = "0.0500" ∧ itoa (-15) = "-15"
  ∧ seconds_String (round_second (3661 * second + 600000000)) = "1h1m2s".
Proof. vm_compute. split_and!; reflexivity. Qed.

(** Negating the least int64 gives it back, and no digit is written. *)
Example itoa_of_the_least : itoa64 min_int64 = "-".
Proof. vm_compute. reflexivity. Qed.

(** [itoa64] is decimal, but for the least int64. *)
Lemma itoa64_decimal n : is_int64 n → n ≠ min_int64 → itoa64 n = fmt_d n.
Proof.
  intros Hn Hm. unfold itoa64. destruct (Z.eqb_spec n 0) as [->|Hz]; [done|].
  destruct (Z.ltb_spec n 0) as [Hneg|Hpos].
  - rewrite wrap_i64_id by (unwidth; lia). rewrite (proj2 (Z.ltb_lt 0 (- n))) by lia.
    destruct n as [|p|p]; try lia. unfold fmt_d. cbn [Z.opp]. done.
  - rewrite (proj2 (Z.ltb_lt 0 n)) by lia. done.
Qed.

(** A new client, its enforcer idle, after any calls. *)
Lemma reachable_sound {G E S W} `{EngineLaws G, EnforcerLaws E, ClientStore S, IPv6, NameService, SortSlice}
  c st g ns (e : option E) (a : App G E S W) :
  (∀ x, e = Some x → in_force x = false) → rtc step (set_enforcer (New c st g ns) e) a → sound a.
Proof.
  intros He Hs. apply (sound_steps _ _ Hs). unfold sound, sound_with, unenforced. cbn. split; [|done].
  destruct e as [x|]; [|done]. by rewrite (He x).
Qed.

(** ** Properties *)

(** the report claims no protection that is not there.  On a client
    reached from a new one by any calls with any failures: the tunnel is
    reported good exactly when the engine says UP; while a node is current the
    report names it and, with an enforcer, says applied and is good unless the
    enforcer reports an error, while without one it says so, is not good, and
    neither is a kill switch that was asked for; when disconnected nothing
    counts as applied.  A kill switch is never reported good, unless it is off
    or not wanted, without a plan in force. *)
Theorem report_is_honest {G E S W} `{EngineLaws G, !EngineReport G, EnforcerLaws E, ClientStore S, IPv6, NameService,
    SortSlice} text c st g ns (e : option E) (a : App G E S W) at_ now :
  (∀ x, e = Some x → in_force x = false) → rtc step (set_enforcer (New c st g ns) e) a →
  let d := Diagnose text a at_ now in
  (OK (d_Tunnel d) = true ↔ EngineState a = StateUp)
  ∧ match node a, enforcer a with
    | Some n, Some x =>
      OK (d_Node d) = true ∧ Value (d_Node d) = NodeID n ∧ Value (d_Enforcement d) = "applied"
      ∧ (OK (d_Enforcement d) = true ↔ st_Error (enf_Status x) = None)
    | Some n, None =>
      OK (d_Node d) = true ∧ Value (d_Node d) = NodeID n ∧ Value (d_Enforcement d) = "not enforced here"
      ∧ OK (d_Enforcement d) = false
      ∧ (KillSwitch (cfg a) ∈ [KillWhileConnected; KillAlwaysOn] → OK (d_KillSwitch d) = false)
    | None, Some _ => OK (d_Node d) = false ∧ Value (d_Enforcement d) = "idle"
    | None, None => OK (d_Node d) = false ∧ Value (d_Enforcement d) = "not enforced here"
    end
  ∧ (OK (d_KillSwitch d) = true →
     KillSwitch (cfg a) = KillOff ∨ ksWanted a = false ∨ ∃ x, enforcer a = Some x ∧ in_force x = true).
Proof.
  intros He Hs d. pose proof (reachable_sound _ _ _ _ _ a He Hs) as Hz. clear He Hs.
  unfold sound, sound_with, enforced, unenforced in Hz. split; [|split].
  - unfold d. cbn. unfold is_up. apply String.eqb_eq.
  - unfold d. cbn. unfold check_node, check_enforcement, check_killswitch, ksEnforced, ksWanted, App_EnforceStatus.
    destruct (node a) as [n|]; destruct (enforcer a) as [x|]; cbn.
    + destruct Hz as (_ & Hf & _). pose proof (status_law x) as L. rewrite Hf in L. rewrite L. cbn.
      destruct (st_Error (enf_Status x)); cbn; split_and!; done.
    + split_and!; try done. intros Hk.
      apply elem_of_cons in Hk as [Hk|Hk%list_elem_of_singleton]; rewrite Hk; reflexivity.
    + destruct Hz as [Hf _]. apply negb_true_iff in Hf. pose proof (status_law x) as L. rewrite Hf in L. rewrite L. cbn.
      destruct (st_Error (enf_Status x)); done.
    + done.
  - unfold d. cbn. intros [[Hk%String.eqb_eq|Hk]%orb_true_iff|Hk]%orb_true_iff; [by left| |right; left; by apply negb_true_iff].
    right; right. unfold ksEnforced, App_EnforceStatus in Hk. destruct (enforcer a) as [x|]; [|done].
    cbn in Hk. exists x. split; [done|]. rewrite <- status_law. by destruct (Applied (enf_Status x)).
Qed.

(** ** Witnesses and examples *)

#[local] Existing Instances stable_sort amd64 no_ipv6 App.demo_engine App.demo_engine_laws App.demo_store App.demo_names
  App.demo_os_enforcer App.demo_os_enforcer_laws.
#[local] Instance demo_report : EngineReport bool := {| eng_Endpoint g := "203.0.113.7:51820"; eng_LastHandshake g := 0 |}.

Lemma report_is_honest_witness :
  let d := Diagnose (fun _ => "error") (demo_connected true).1 0 0 in
  Value (d_Node d) = "n1" ∧ Value (d_Enforcement d) = "applied".
Proof.
  pose proof (report_is_honest (fun _ => "error") DefaultClientConfig [] (Some false) (Ok demo_nodes)
    (Some (demo_enforcer true)) (demo_connected true).1 0 0 ltac:(by intros x [= <-])
    (rtc_once _ _ (step_connect (demo_app true) "n1" demo_io))) as (_ & Hc & _).
  assert (NodeID <$> node (demo_connected true).1 = Some "n1") as Hn by (vm_compute; reflexivity).
  assert (is_Some_b (enforcer (demo_connected true).1) = true) as Hx by (vm_compute; reflexivity).
  destruct (node (demo_connected true).1) as [n|]; [injection Hn as Hn|discriminate Hn].
  destruct (enforcer (demo_connected true).1) as [x|]; [|discriminate Hx].
  destruct Hc as (_ & Hv & Ha & _). split; [etrans; [exact Hv|exact Hn] | exact Ha].
Defined.

(** "ALWAYS_ON blocks direct egress even with the tunnel down": disconnecting
    lifts the block all the same, and the report says so. *)
Example always_on_ends_with_the_session :
  let a0 := set_cfg (demo_app true)
    (let c := DefaultClientConfig in mkClientConfig (Network c) (Dero c) (Wallet c) (DNS c) KillAlwaysOn
       (AutoConnect c) (Region c) (Multihop c) (Cover c) (Payments c) (Logging c)) in
  let a1 := (Connect a0 "n1" demo_io).1 in
  let a2 := (Disconnect a1).1 in
  let outbound_blocked (a : App bool (osEnforcer machine) (list string) unit) :=
    (fun e => Firewall.t_block (m_fw (os e))) <$> enforcer a in
  outbound_blocked a1 = Some true ∧ outbound_blocked a2 = Some false
  ∧ OK (check_killswitch a2) = false ∧ Detail (check_killswitch a2) = "requested but not applied".
Proof. vm_compute. split_and!; reflexivity. Qed.

(** A client without the service reports IPv6 blocked, and good, although
    nothing blocks it. *)
Example ipv6_reads_blocked_without_a_service :
  let a := (Connect (New (W := unit) (E := osEnforcer machine) DefaultClientConfig [] (Some false) (Ok demo_nodes))
              "n1" demo_io).1 in
  is_up a = true ∧ enforcer a = None ∧ check_ipv6 a = mkCheck "ipv6" true "blocked" "IPv6 blocked while connected (no silent leak)".
Proof. vm_compute. split_and!; reflexivity. Qed.
