(* ===== verification/EngineAdapter.v ===== *)
(** * EngineAdapter: the tunnel engine behind the client
      (cmd/veilnet-service/engine_adapter.go, internal/transport/transport.go)

    The registry of transports, and the adapter that lets the orchestrator of
    [App] drive the engine of [Tunnel].  What the devices answer to one call is
    a record; the calls of a run read a list of them. *)

From Stdlib Require Import ZArith Lia.
From S2P Require Import Prelude Float64 GoStrings NetIP GoText.
From S2P Require Import WgConf.
From S2P Require Import Tunnel.
From S2P Require Import Backend.
From S2P Require Import ClientConfig.
From S2P Require Import Enforce.
From S2P Require Import App.
From S2P Require Import Diag.

(** ** Transports (internal/transport/transport.go) *)

Definition DirectName : string := "direct".

(** [B] is what a bind is to the engine. *)
Record Transport (B : Type) := mkTransport {
  t_Name : string; Description : string; Obfuscating : bool; NewBind : string → B }.
Arguments mkTransport {B}. Arguments t_Name {B}. Arguments Description {B}.
Arguments Obfuscating {B}. Arguments NewBind {B}.

Section registry.
Context {B : Type} `{Unicode}.
Abbreviation registry := (gmap string (Transport B)).
Implicit Types r : registry.

Definition transport_key (name : string) : string := strings_ToLower (strings_TrimSpace name).

(** [None]: a panic. *)
Definition Register r (t : option (Transport B)) : option registry :=
  match t with
  | None => None
  | Some t =>
    let name := transport_key (t_Name t) in
    if String.eqb name "" then None
    else match r !! name with
         | Some _ => None
         | None => Some (<[name := t]> r)
         end
  end.

Definition Names r : list string := sort_Strings (map fst (map_to_list r)).

(** The transports there are, for the message. *)
Inductive transport_error := ErrNotAvailable (name : string) (have : list string).

Definition Get r (name : string) : result transport_error (Transport B) :=
  let key := transport_key name in
  let key := if String.eqb key "" then DirectName else key in
  match r !! key with
  | Some t => Ok t
  | None => Err (ErrNotAvailable name (Names r))
  end.
Definition Available r (name : string) : bool := is_ok (Get r name).

Definition directTransport (bind : B) : Transport B :=
  mkTransport DirectName "plain UDP to the entry node (no obfuscation, the default)" false (fun _ => bind).
Definition init (bind : B) : registry := {[DirectName := directTransport bind]}.
End registry.

(** ** The adapter *)

(** The devices' answers to one call. *)
Record answers := mkAnswers {
  a_now : time;
  a_avail : bool; a_detail : string;
  a_kernel : result kernel_error handle;
  a_user : result string handle;
  a_probe : probe_answer;
  a_close : option string;
  a_apply : option string;
  a_rebind : option string
}.

(** No device opens. *)
Definition no_devices : answers :=
  mkAnswers 0 false "" (Err NoKernelIface) (Err "no device") (Err "no device") None None None.

(** The engine, the bind factory it was built with (none: the default), and
    the answers to come. *)
Record tunnelAdapter (B : Type) := mkAdapter {
  e : Tunnel.engine; newBind : option B; script : list answers }.
Arguments mkAdapter {B}. Arguments e {B}. Arguments newBind {B}. Arguments script {B}.

Definition toTunnelPeers (peers : list App.Peer) : list Tunnel.Peer :=
  map (fun p => Tunnel.mkPeer (App.PublicKey p) (App.peer_Endpoint p) (App.AllowedIPs p) (App.Keepalive p)) peers.
Definition toTunnelConfig (cfg : App.WGConfig) : WireGuardConfig :=
  mkWireGuardConfig (App.PrivateKey cfg) (App.Addresses cfg) (App.wg_DNS cfg) (toTunnelPeers (App.Peers cfg)).

Definition saturate (v : Z) : Z := if v >? max_int64 then max_int64 else v.

Definition state_text (s : Tunnel.State) : string :=
  match s with DOWN => "DOWN" | CONNECTING => "CONNECTING" | UP => "UP" | FAILED => "FAILED" end.

(** The message of an engine's error. *)
Class EngineText : Type := { engine_text : Tunnel.error → string }.

Section adapter.
Context {B : Type} `{IPv6, Netip, EngineText}.
Abbreviation tunnelAdapter := (tunnelAdapter B).
Implicit Types a : tunnelAdapter.

Definition answer_now a : answers := hd no_devices (script a).
Definition with_engine a (g : Tunnel.engine) : tunnelAdapter := mkAdapter g (newBind a) (tl (script a)).

Definition adapter_Start a (cfg : App.WGConfig) : tunnelAdapter * result string unit :=
  let x := answer_now a in
  let '(g, r) := Tunnel.Start (e a) (toTunnelConfig cfg) (a_now x) (a_avail x) (a_detail x) (a_kernel x)
                   (a_user x) (a_probe x) in
  (with_engine a g, result_map_err engine_text r).
Definition adapter_Stop a : tunnelAdapter * result string unit :=
  let x := answer_now a in
  let '(g, r) := Tunnel.Stop (e a) (a_now x) (a_close x) in (with_engine a g, result_map_err engine_text r).
Definition adapter_ApplyConfiguration a (cfg : App.WGConfig) : tunnelAdapter * result string unit :=
  let '(g, r) := Tunnel.ApplyConfiguration (e a) (toTunnelConfig cfg) (a_apply (answer_now a)) in
  (with_engine a g, result_map_err engine_text r).
Definition adapter_RotateEndpoint a (endpoint : string) : tunnelAdapter * result string unit :=
  let x := answer_now a in
  let '(g, r) := Tunnel.RotateEndpoint (e a) endpoint (a_now x) (a_apply x) (a_rebind x) in
  (with_engine a g, result_map_err engine_text r).
(** A tick of the watchdog between two calls. *)
Definition adapter_tick a (lastTick : time) : tunnelAdapter :=
  let x := answer_now a in with_engine a (watchdog_tick (e a) lastTick (a_now x) (a_probe x)).

#[export] Instance tunnel_engine : App.Engine tunnelAdapter := {
  eng_Start := adapter_Start;
  eng_Stop := adapter_Stop;
  eng_State a := state_text (Tunnel.state (e a));
  eng_Bytes a := (saturate (Tunnel.rx (e a)), saturate (Tunnel.tx (e a)));
  eng_RotateEndpoint := adapter_RotateEndpoint
}.
#[export] Instance tunnel_report : EngineReport tunnelAdapter :=
  {| eng_Endpoint a := Tunnel.endpoint (e a); eng_LastHandshake a := Tunnel.lastHS (e a) |}.

(** The engine for the configured transport; only another than the direct one
    changes the bind, which is asked for with no endpoint. *)
Definition newEngine `{Unicode} (r : gmap string (Transport B)) (cfg : ClientConfig) (now : time) (s : list answers)
  : result transport_error tunnelAdapter :=
  match Get r (ClientConfig.Transport (Network cfg)) with
  | Err x => Err x
  | Ok tr =>
    let bind := if String.eqb (t_Name tr) DirectName then None else Some (NewBind tr "") in
    Ok (mkAdapter (Tunnel.New default_options now) bind s)
  end.
End adapter.

(** ** Lemmas *)

Section adapter_proofs.
Context {B : Type} `{IPv6, Netip, EngineText}.
Abbreviation tunnelAdapter := (tunnelAdapter B).
Implicit Types a : tunnelAdapter.

Definition has_device a : bool := is_Some_b (Tunnel.backend (e a)).

(** Starting: the device is there exactly when it succeeds or was there. *)
Lemma start_device g c now avail detail kern user p g' r :
  Tunnel.Start g c now avail detail kern user p = (g', r) →
  is_Some_b (Tunnel.backend g') = match r with Ok _ => true | Err _ => is_Some_b (Tunnel.backend g) end
  ∧ match r with
    | Ok _ => Tunnel.backend g = None ∧ Tunnel.cfg g' = c
              ∧ Tunnel.published g' = Tunnel.published g ++ [Tunnel.TUNNEL_STARTED (first_endpoint c (Tunnel.endpoint g))]
    | Err _ => True
    end.
Proof.
  unfold Tunnel.Start, start_begin. destruct (WgConf.Validate _); [|by intros [= <- <-]].
  destruct (Tunnel.backend g) eqn:Eb; [intros [= <- <-]; by rewrite Eb|].
  destruct (Tunnel.createBackend avail detail kern user) as [[b|v] k]; [|intros [= <- <-]; cbn; by rewrite Eb].
  intros [= <- <-]. unfold start_probe, start_attach. destruct p as [[[x y] hs]|]; [|done].
  by destruct (Time_IsZero hs).
Qed.

Lemma stop_device g now c g' r : Tunnel.Stop g now c = (g', r) → Tunnel.backend g' = None.
Proof.
  unfold Tunnel.Stop, stop_finish. intros [= <- _]. by destruct (Tunnel.backend g).
Qed.

(** Rotating: the device stays, and so do the peers' keys. *)
Lemma rotate_device g ep now x y g' r : Tunnel.RotateEndpoint g ep now x y = (g', r) →
  Tunnel.backend g' = Tunnel.backend g
  ∧ map Tunnel.PublicKey (Tunnel.Peers (Tunnel.cfg g')) = map Tunnel.PublicKey (Tunnel.Peers (Tunnel.cfg g))
  ∧ (r = Ok tt → Tunnel.endpoint g' = ep
       ∧ (Tunnel.Endpoint <$> head (Tunnel.Peers (Tunnel.cfg g'))) = Some ep).
Proof.
  unfold Tunnel.RotateEndpoint. destruct (String.eqb ep ""); [by intros [= <- <-]|].
  destruct (Tunnel.backend g) eqn:Eb; [|by intros [= <- <-]].
  destruct (Tunnel.Peers (Tunnel.cfg g)) as [|p l] eqn:Ep; [intros [= <- <-]; by rewrite Ep|].
  destruct x as [v|]; [intros [= <- <-]; cbn; by rewrite Eb|].
  destruct y as [v|]; [intros [= <- <-]; cbn; by rewrite Eb|].
  intros [= <- <-]. cbn. destruct (decide (Tunnel.state g = FAILED)); cbn; by rewrite Eb.
Qed.

Lemma tick_device g l now p : Tunnel.backend (watchdog_tick g l now p) = Tunnel.backend g.
Proof.
  unfold watchdog_tick. destruct (_ >? _).
  - destruct (Tunnel.backend g) as [b|] eqn:Eb.
    + destruct (step_frame (Wake g) b now p) as [Hb _]; [|exact Hb].
      destruct (wake_facts g) as [-> _]. exact Eb.
    + unfold Wake. rewrite Eb. unfold Tunnel.step. by rewrite Eb.
  - destruct (Tunnel.backend g) as [b|] eqn:Eb.
    + destruct (step_frame g b now p) as [Hb _]; [exact Eb | exact Hb].
    + unfold Tunnel.step. by rewrite Eb.
Qed.

(** What the orchestrator relies on holds of the tunnel. *)
#[export] Instance tunnel_engine_laws : EngineLaws tunnelAdapter.
Proof.
  refine {| running := has_device |}.
  - intros a c a' r. unfold eng_Start, tunnel_engine, adapter_Start.
    destruct (Tunnel.Start _ _ _ _ _ _ _ _) as [g x] eqn:Es. apply start_device in Es as [Es _].
    intros [= <- <-]. unfold has_device. cbn. rewrite Es. by destruct x.
  - intros a a' r. unfold eng_Stop, tunnel_engine, adapter_Stop.
    destruct (Tunnel.Stop _ _ _) as [g x] eqn:Es. apply stop_device in Es.
    intros [= <- <-]. unfold has_device. cbn. rewrite Es. by destruct x.
  - intros a ep. unfold eng_RotateEndpoint, tunnel_engine, adapter_RotateEndpoint.
    destruct (Tunnel.RotateEndpoint _ _ _ _ _) as [g x] eqn:Es. apply rotate_device in Es as [Es _].
    unfold has_device. cbn. by rewrite Es.
Defined.

Lemma tick_running a l : running (adapter_tick a l) = running a.
Proof. cbn. unfold has_device, adapter_tick. cbn. by rewrite tick_device. Qed.
End adapter_proofs.

Section registry_proofs.
Context {B : Type} `{Unicode}.
Implicit Types r : gmap string (Transport B).

(** Registries made by registering, from the one with the direct transport. *)
Inductive registered (bind : B) : gmap string (Transport B) → Prop :=
| reg_init : registered bind (init bind)
| reg_more r t r' : registered bind r → Register r (Some t) = Some r' → registered bind r'.

Lemma registered_names bind r : transport_key DirectName = DirectName → registered bind r →
  r !! DirectName = Some (directTransport bind) ∧ ∀ k t, r !! k = Some t → k = transport_key (t_Name t) ∧ k ≠ "".
Proof.
  intros Hd. induction 1 as [|r t r' _ [IHd IHn] Hr].
  - unfold init. split; [by rewrite lookup_singleton_eq|]. intros k t Hk.
    apply lookup_singleton_Some in Hk as [<- <-]. cbn. by rewrite Hd.
  - cbn in Hr. destruct (String.eqb_spec (transport_key (t_Name t)) "") as [|Hne]; [done|].
    destruct (r !! transport_key (t_Name t)) eqn:Et; [done|]. injection Hr as <-. split.
    + rewrite lookup_insert_ne; [done|]. intros He. by rewrite He, IHd in Et.
    + intros k u. destruct (decide (k = transport_key (t_Name t))) as [->|Hk].
      * rewrite lookup_insert_eq. by intros [= <-].
      * rewrite lookup_insert_ne by done. apply IHn.
Qed.
End registry_proofs.

(** ** Properties *)

(** a transport is never silently another one.  In any registry made by
    registering over the built-in one, a lookup answers the transport
    registered under the normalised name, the empty name meaning the direct
    one, whatever was registered since; a name nobody registered is an error
    that carries the name and what there is; and registering a taken name
    changes nothing but panics. *)
Theorem transport_never_falls_back {B} `{Unicode} (bind : B) r name :
  transport_key DirectName = DirectName → registered bind r →
  let key := if String.eqb (transport_key name) "" then DirectName else transport_key name in
  match Get r name with
  | Ok t => transport_key (t_Name t) = key ∧ r !! key = Some t
            ∧ (key = DirectName → Obfuscating t = false ∧ NewBind t "" = bind)
            ∧ ∀ u, transport_key (t_Name u) = key → Register r (Some u) = None
  | Err x => x = ErrNotAvailable name (Names r) ∧ ∀ t, transport_key (t_Name t) = key →
             Register r (Some t) = Some (<[key := t]> r)
  end.
Proof.
  intros Hd Hr key. destruct (registered_names bind r Hd Hr) as [Hdir Hn]. unfold Get. fold key.
  assert (key ≠ "") as Hk by (unfold key; by destruct (String.eqb_spec (transport_key name) "")).
  destruct (r !! key) as [t|] eqn:Et.
  - destruct (Hn _ _ Et) as [Hkey _]. split_and!; [done|done| |].
    + intros Hkd. rewrite Hkd, Hdir in Et. by injection Et as <-.
    + intros u Hu. unfold Register. rewrite Hu, (proj2 (String.eqb_neq _ _) Hk). by rewrite Et.
  - split; [done|]. intros t Ht. unfold Register. by rewrite Ht, (proj2 (String.eqb_neq _ _) Hk), Et.
Qed.

(** C15: connecting gives the tunnel one peer, the node.  Over the real engine,
    a connection that succeeds found it without a device and leaves it with
    one, running exactly this configuration: the private key made of the random
    bytes, the client's address, the tunnel's resolver or the configured ones,
    and the picked node as the only peer, by its key and endpoint, for all IPv4
    traffic, with a keepalive of 25 seconds. *)
Theorem connection_configures_tunnel {B E S W} `{IPv6, Netip, EngineText, Enforcer E, ClientStore S, NameService, SortSlice}
  (a a' : App (tunnelAdapter B) E S W) id i : Connect a id i = (a', Ok tt) →
  ∃ n g g' priv, node a' = Some n ∧ engine a = Some g ∧ engine a' = Some g'
  ∧ has_device g = false ∧ has_device g' = true ∧ genPrivateKey (io_key i) = Some priv
  ∧ Tunnel.cfg (e g') = mkWireGuardConfig priv ["10.89.0.2/32"]
      (if String.eqb (dns_Mode (ClientConfig.DNS (cfg a))) DNSVeilnet
          || (length (Servers (ClientConfig.DNS (cfg a))) =? 0)%nat
       then ["10.89.0.1"] else Servers (ClientConfig.DNS (cfg a)))
      [Tunnel.mkPeer (WGPubkey n) (Endpoint n) ["0.0.0.0/0"] 25].
Proof.
  unfold Connect. destruct (node a); [done|]. destruct (engine a) as [g|]; [|done].
  destruct (pick a id) as [n|]; [|done].
  assert (cfg (ProbeLatency a n (io_dial i)).1 = cfg a) as Hc by (unfold ProbeLatency; by destruct (io_dial i _ _)).
  destruct (ProbeLatency a n (io_dial i)) as [a1 lat]. cbn in Hc.
  set (n1 := match lat with Some rtt => set_latency n (ms_of rtt) | None => n end).
  assert (WGPubkey n1 = WGPubkey n ∧ Endpoint n1 = Endpoint n) as [Hk He] by (unfold n1; by destruct lat).
  destruct (genPrivateKey (io_key i)) as [priv|] eqn:Ek; [|done].
  destruct (eng_Start g _) as [g' [[]|x]] eqn:Es; [|done].
  destruct (applyEnforcement _ n1) as [a2 [[]|y]] eqn:Ee; [|done]. intros [= <-].
  assert (engine a2 = Some g') as Hg.
  { unfold applyEnforcement in Ee. destruct (enforcer _); [|by injection Ee as <-].
    destruct (buildEnforcePlan _ _ _); [|by injection Ee as <-]. destruct (enf_Apply _ _). by injection Ee as <-. }
  unfold eng_Start, tunnel_engine, adapter_Start in Es.
  destruct (Tunnel.Start _ _ _ _ _ _ _ _) as [h r] eqn:Et. apply start_device in Et as [Hd Ht].
  destruct r as [[]|]; [|done]. injection Es as <-. destruct Ht as (Hb & Hcfg & _).
  exists n1, g, (with_engine g h), priv. unfold record_connection. destruct (AddConnection _ _). cbn. rewrite Hg.
  split_and!; try done.
  - unfold has_device. by rewrite Hb.
  - rewrite Hcfg. unfold toTunnelConfig, tunnel_config. cbn. by rewrite Hc, Hk, He.
Qed.

(** ** Witnesses and examples *)

#[local] Existing Instances stable_sort no_ipv6 ascii_unicode WgConf.demo_netip App.demo_store App.demo_names
  App.demo_os_enforcer App.demo_os_enforcer_laws.
#[local] Instance plain_engine_text : EngineText := {| engine_text x := "tunnel error" |}.

Definition obfs : Transport string := mkTransport " OBFS4 " "test only" true (fun ep => "obfs4 to [" +:+ ep +:+ "]").
Definition two_transports : gmap string (Transport string) :=
  default ∅ (Register (init "udp") (Some obfs)).

Lemma transport_never_falls_back_witness :
  Get two_transports "Obfs4" = Ok obfs ∧ Get two_transports "meek" = Err (ErrNotAvailable "meek" ["direct"; "obfs4"])
  ∧ Register two_transports (Some (directTransport "other")) = None.
Proof.
  assert (transport_key DirectName = DirectName) as Hd by (vm_compute; reflexivity).
  assert (registered "udp" two_transports) as Hr
    by (apply (reg_more "udp" (init "udp") obfs); [apply reg_init | vm_compute; reflexivity]).
  pose proof (transport_never_falls_back "udp" two_transports "Obfs4" Hd Hr) as H1.
  pose proof (transport_never_falls_back "udp" two_transports "meek" Hd Hr) as H2.
  pose proof (transport_never_falls_back "udp" two_transports "" Hd Hr) as H3.
  assert (Get two_transports "Obfs4" = Ok obfs) as E1 by (vm_compute; reflexivity).
  assert (Get two_transports "meek" = Err (ErrNotAvailable "meek" ["direct"; "obfs4"])) as E2 by (vm_compute; reflexivity).
  assert (Get two_transports "" = Ok (directTransport "udp")) as E3 by (vm_compute; reflexivity).
  rewrite E3 in H3. split; [exact E1|]. split; [exact E2|]. apply H3. vm_compute. reflexivity.
Defined.

(** The bind of a transport is made before the endpoint is known, and never
    told it. *)
Example bind_sees_no_endpoint :
  let c := DefaultClientConfig in
  let net := Network c in
  let c' := mkClientConfig
    (mkNetworkConfig (ProbeTimeoutSecs net) (SelectPolicy net) (HandshakeTimeout net) "obfs4") (Dero c)
    (ClientConfig.Wallet c) (DNS c) (KillSwitch c) (AutoConnect c) (Region c) (Multihop c) (Cover c) (Payments c)
    (Logging c) in
  match newEngine two_transports c' 0 [] with
  | Ok a => newBind a = Some "obfs4 to []"
  | Err _ => False
  end.
Proof. vm_compute. reflexivity. Qed.

(** Devices that open and shake hands, the close of the second call failing. *)
Definition good_answers (t : time) (close : option string) : answers :=
  mkAnswers t false "" (Err NoKernelIface) (Ok 7%nat) (Ok (10, 20, t - second)) close None None.
Definition demo_adapter : tunnelAdapter string :=
  mkAdapter (Tunnel.New default_options 0) None
    [good_answers hour None; good_answers (2 * hour) (Some "device busy"); good_answers (3 * hour) None].
Definition keyed_node (id endpoint : string) (k : Z) : NodeInfo :=
  mkNodeInfo id (base64_Std_EncodeToString (repeat k 32)) "eu" "DE" "" endpoint f0 10 1 f0 "active" "1" f_half 0 f0 0.
Definition keyed_nodes : list NodeInfo :=
  [keyed_node "n1" "203.0.113.7:51820" 1; keyed_node "n2" "198.51.100.9:51820" 2; keyed_node "n3" "192.0.2.1:51820" 3].
Definition real_app : App (tunnelAdapter string) (osEnforcer Enforce.machine) (list string) unit :=
  set_enforcer (New DefaultClientConfig [] (Some demo_adapter) (Ok keyed_nodes)) (Some (demo_enforcer true)).
Definition real_connected := Connect real_app "n1" demo_io.

Lemma connection_configures_tunnel_witness :
  ∃ g', engine real_connected.1 = Some g' ∧ has_device g' = true
  ∧ map Tunnel.Endpoint (Tunnel.Peers (Tunnel.cfg (e g'))) = ["203.0.113.7:51820"].
Proof.
  assert (real_connected = (real_connected.1, Ok tt)) as E by (vm_compute; reflexivity).
  destruct (connection_configures_tunnel real_app _ "n1" demo_io E) as (n & g & g' & priv & Hn & _ & Hg' & _ & Hd & _ & Hp).
  exists g'. split; [exact Hg'|]. split; [exact Hd|]. rewrite Hp. cbn. f_equal.
  assert (Endpoint <$> node real_connected.1 = Some "203.0.113.7:51820") as He by (vm_compute; reflexivity).
  rewrite Hn in He. injection He as He. exact He.
Defined.

(** The device does not close cleanly: disconnecting reports an error and keeps
    node, session and enforcement, but the tunnel is gone.  The next try
    succeeds. *)
Example failed_close_keeps_session :
  let a1 := (Disconnect real_connected.1).1 in
  (Disconnect real_connected.1).2 = Err (ErrStop "tunnel error") ∧ is_Some_b (node a1) = true
  ∧ ses_Active (sess a1) = true ∧ tunnel_up a1 = false ∧ EngineState a1 = "DOWN"
  ∧ (Disconnect a1).2 = Ok tt ∧ node (Disconnect a1).1 = None.
Proof. vm_compute. split_and!; reflexivity. Qed.
