(* ===== verification/Sdk.v ===== *)
(** * Sdk: the client library for other programs (sdk/veilnet/client.go, adapter_app.go)

    Discovery, selection, quotes and the approval hook over any backend, and
    the backend that is the orchestrator of [App]. *)

From Stdlib Require Import ZArith Lia.
From S2P Require Import Prelude Float64 GoStrings NetIP.
From S2P Require Import ClientConfig.
From S2P Require Import Enforce.
From S2P Require Import App.
From S2P Require Import Diag.

Record Node := mkNode {
  NodeID : string; Region : string; Country : string; Endpoint : string; PricePerHourDERO : float64;
  LatencyMs : Z; BondDERO : float64; Trust : float64; Status : string }.

Record Quote := mkQuote { q_NodeID : string; Hours : float64; AmountDERO : float64 }.

Record ConnStatus := mkConnStatus {
  Connected : bool; EngineState : string; st_NodeID : string; st_Endpoint : string; ElapsedSecs : Z; Demo : bool }.
Record Report := mkReport {
  rp_Connected : bool; rp_EngineState : string; rp_NodeID : string; Checks : gmap string string }.

(** The three roles of a backend; only connecting and disconnecting change it. *)
Class Backend (B : Type) : Type := {
  be_ListNodes : B → result string (list Node);
  be_Connect : B → string → B * result string unit;
  be_Disconnect : B → B * result string unit;
  be_Observe : B → result string ConnStatus;
  be_Diagnose : B → result string Report
}.

Inductive error :=
| ErrNilBackend | ErrDiscover (e : string) | ErrNoSuitable | ErrUnknownNode (id : string) | ErrApprovalDenied
| ErrConnect (e : string) | ErrStatus (e : string) | ErrDiagnostics (e : string) | ErrDisconnect (e : string).

Record Config := mkConfig {
  cfg_Region : string; MaxPricePerHour : float64; QuoteHours : float64; Approve : option (Quote → bool) }.

Record Client (B : Type) := mkClient { cfg : Config; backend : B }.
Arguments mkClient {_}. Arguments cfg {_}. Arguments backend {_}.

Definition New {B} (c : Config) (b : option B) : result error (Client B) :=
  match b with
  | None => Err ErrNilBackend
  | Some b =>
    Ok (mkClient (mkConfig (cfg_Region c) (MaxPricePerHour c)
                    (if f_le (QuoteHours c) f0 then f1 else QuoteHours c) (Approve c)) b)
  end.

(** The latency that counts in the order: an unknown one is the longest. *)
Definition known_latency (n : Node) : Z := if LatencyMs n <? 0 then 2 ^ 62 - 1 else LatencyMs n.

Definition cheaper (x y : Node) : bool :=
  if negb (f_eq (PricePerHourDERO x) (PricePerHourDERO y)) then f_lt (PricePerHourDERO x) (PricePerHourDERO y)
  else if negb (known_latency x =? known_latency y) then known_latency x <? known_latency y
  else str_lt (NodeID x) (NodeID y).

Section client.
Context {B : Type} `{Backend B, SortSlice}.
Implicit Types c : Client B.

Definition with_backend c (b : B) : Client B := mkClient (cfg c) b.

Definition Discover c : result error (list Node) := result_map_err ErrDiscover (be_ListNodes (backend c)).

Definition suitable (g : Config) (n : Node) : bool :=
  (String.eqb (Status n) "" || String.eqb (Status n) "active")
  && (String.eqb (cfg_Region g) "" || String.eqb (Region n) (cfg_Region g))
  && negb (f_gt (MaxPricePerHour g) f0 && f_gt (PricePerHourDERO n) (MaxPricePerHour g)).
Definition filter c (nodes : list Node) : list Node := List.filter (suitable (cfg c)) nodes.

Definition Select c : result error Node :=
  match Discover c with
  | Err e => Err e
  | Ok nodes =>
    match filter c nodes with
    | [] => Err ErrNoSuitable
    | cands => match sort_Slice cheaper cands with
               | best :: _ => Ok best
               | [] => Err ErrNoSuitable
               end
    end
  end.

Definition Client_Quote c (n : Node) (hours : float64) : Quote :=
  let hours := if f_le hours f0 then QuoteHours (cfg c) else hours in
  mkQuote (NodeID n) hours (f_mul (PricePerHourDERO n) hours).

Definition choose c (nodeID : string) : result error Node :=
  if String.eqb nodeID "" then Select c
  else match Discover c with
       | Err e => Err e
       | Ok nodes => match List.find (fun n => String.eqb (NodeID n) nodeID) nodes with
                     | Some n => Ok n
                     | None => Err (ErrUnknownNode nodeID)
                     end
       end.

(** The quote is returned with an error too, once a node is known. *)
Definition Connect c (nodeID : string) : Client B * (option Quote * result error unit) :=
  match choose c nodeID with
  | Err e => (c, (None, Err e))
  | Ok n =>
    let q := Client_Quote c n f0 in
    if f_gt (AmountDERO q) f0 && negb (match Approve (cfg c) with Some hook => hook q | None => false end)
    then (c, (Some q, Err ErrApprovalDenied))
    else let '(b, r) := be_Connect (backend c) (NodeID n) in
         (with_backend c b, (Some q, result_map_err ErrConnect r))
  end.

Definition Client_Status c : result error ConnStatus := result_map_err ErrStatus (be_Observe (backend c)).
Definition Client_Diagnostics c : result error Report := result_map_err ErrDiagnostics (be_Diagnose (backend c)).
Definition Client_Disconnect c : Client B * result error unit :=
  let '(b, r) := be_Disconnect (backend c) in (with_backend c b, result_map_err ErrDisconnect r).
End client.

(** ** The orchestrator as a backend (adapter_app.go) *)

(** The outside answers of the calls to come: of a connection, and the clock. *)
Record AppBackend (G E S W : Type) := mkAppBackend {
  ab_app : App.App G E S W; ab_demo : bool; ab_io : list connect_io; ab_now : time }.
Arguments mkAppBackend {_ _ _ _}. Arguments ab_app {_ _ _ _}. Arguments ab_demo {_ _ _ _}.
Arguments ab_io {_ _ _ _}. Arguments ab_now {_ _ _ _}.

Definition no_io : connect_io := mkConnectIO (fun _ _ => None) None None 0 0.

Definition sdk_node (n : NodeInfo) : Node :=
  mkNode (App.NodeID n) (n_Region n) (App.Country n) (App.Endpoint n) (App.PricePerHourDero n) (App.LatencyMs n)
    (App.BondDero n) (App.Trust n) (n_Status n).

Definition checkStr (c : Check) : string := if OK c then "ok:" +:+ Value c else "fail:" +:+ Value c.

Section adapter.
Context {G E S W : Type} `{Engine G, !EngineReport G, Enforcer E, ClientStore S, IPv6, NameService, SortSlice, GoArch}.
Context (app_text : App.error (enf_error (E := E)) → string) (err_text : enf_error (E := E) → string).
Abbreviation AppBackend := (AppBackend G E S W).
Implicit Types b : AppBackend.

Definition app_ListNodes b : result string (list Node) :=
  match App.ListNodes (ab_app b) with Err e => Err (app_text e) | Ok l => Ok (map sdk_node l) end.

Definition app_Connect b (id : string) : AppBackend * result string unit :=
  let '(a, r) := App.Connect (ab_app b) id (hd no_io (ab_io b)) in
  (mkAppBackend a (ab_demo b) (tl (ab_io b)) (ab_now b), result_map_err app_text r).
Definition app_Disconnect b : AppBackend * result string unit :=
  let '(a, r) := App.Disconnect (ab_app b) in
  (mkAppBackend a (ab_demo b) (ab_io b) (ab_now b), result_map_err app_text r).

Definition app_Observe b : ConnStatus :=
  let st := State (ab_app b) (ab_demo b) (ab_now b) in
  mkConnStatus (String.eqb (cs_EngineState st) StateUp) (cs_EngineState st)
    (match cs_Node st with Some n => App.NodeID n | None => "" end)
    (match cs_Node st with Some n => App.Endpoint n | None => "" end) (Diag.ElapsedSecs st) (Diag.Demo st).

Definition app_Diagnose b : Report :=
  let d := Diagnose err_text (ab_app b) (ab_now b) (ab_now b) in
  let st := State (ab_app b) (ab_demo b) (ab_now b) in
  mkReport (String.eqb (cs_EngineState st) StateUp) (cs_EngineState st)
    (match cs_Node st with Some n => App.NodeID n | None => "" end)
    (list_to_map [("tunnel", checkStr (d_Tunnel d)); ("exit", checkStr (d_ExitIP d)); ("dns", checkStr (d_DNSRoute d));
                  ("ipv6", checkStr (d_IPv6 d)); ("kill", checkStr (d_KillSwitch d))]).

Definition app_backend : Backend AppBackend := {|
  be_ListNodes := app_ListNodes;
  be_Connect := app_Connect;
  be_Disconnect := app_Disconnect;
  be_Observe b := Ok (app_Observe b);
  be_Diagnose b := Ok (app_Diagnose b)
|}.
End adapter.

(** ** The order of selection *)

Definition priced (n : Node) : Prop := not_nan (PricePerHourDERO n).

Lemma cheaper_iff x y : priced x → priced y → cheaper x y = true ↔
  key_lt (order_key (PricePerHourDERO x)) (order_key (PricePerHourDERO y))
  ∨ order_key (PricePerHourDERO x) = order_key (PricePerHourDERO y)
    ∧ (known_latency x < known_latency y
       ∨ known_latency x = known_latency y ∧ str_lt (NodeID x) (NodeID y) = true).
Proof.
  unfold priced, cheaper. intros Hx Hy.
  assert (∀ k, ¬ key_lt k k) as Hirr by (intros [[? ?] ?]; unfold key_lt; lia).
  destruct (f_eq (PricePerHourDERO x) (PricePerHourDERO y)) eqn:Ep; cbn [negb].
  - apply f_eq_key in Ep; [|done..]. rewrite Ep.
    destruct (Z.eqb_spec (known_latency x) (known_latency y)) as [El|El]; cbn [negb].
    + rewrite El. split; [intros Hs; right; split; [done|by right]|].
      intros [Hk|[_ [Hk|[_ Hk]]]]; [by apply Hirr in Hk|lia|done].
    + rewrite Z.ltb_lt. split; [intros Hs; right; by auto|].
      intros [Hk|[_ [Hk|[Hk _]]]]; [by apply Hirr in Hk|done|done].
  - rewrite f_lt_key by done. split; [by left|]. intros [Hk|[Hk _]]; [done|].
    apply f_eq_key in Hk; [congruence|done..].
Qed.

Lemma cheaper_total x y : priced x → priced y → cheaper x y = false → cheaper y x = false →
  order_key (PricePerHourDERO x) = order_key (PricePerHourDERO y) ∧ known_latency x = known_latency y
  ∧ NodeID x = NodeID y.
Proof.
  intros Hx Hy. rewrite <- !not_true_iff_false, !cheaper_iff by done. unfold key_lt.
  destruct (order_key (PricePerHourDERO x)) as [[a1 a2] a3], (order_key (PricePerHourDERO y)) as [[b1 b2] b3].
  intros H1 H2. assert (a1 = b1 ∧ a2 = b2 ∧ a3 = b3) as (-> & -> & ->) by lia.
  assert (known_latency x = known_latency y) as El.
  { destruct (Z.lt_trichotomy (known_latency x) (known_latency y)) as [?|[?|?]]; [|done|]; naive_solver. }
  split_and!; [done|done|]. apply str_lt_total; apply not_true_iff_false; naive_solver.
Qed.

Lemma cheaper_trans x y z : priced x → priced y → priced z →
  cheaper x y = true → cheaper y z = true → cheaper x z = true.
Proof.
  intros Hx Hy Hz. rewrite !cheaper_iff by done. unfold key_lt.
  destruct (order_key (PricePerHourDERO x)) as [[? ?] ?], (order_key (PricePerHourDERO y)) as [[? ?] ?],
    (order_key (PricePerHourDERO z)) as [[? ?] ?].
  intros [H1|[H1 [H1'|[H1' H1'']]]] [H2|[H2 [H2'|[H2' H2'']]]]; simplify_eq; try (left; lia);
    right; (split; [congruence|]); try (left; lia).
  right. split; [lia|]. by apply (sw_trans (less := str_lt) (P := fun _ => True) _ (NodeID y)).
Qed.

#[export] Instance cheaper_strict_weak : StrictWeak cheaper priced.
Proof.
  split.
  - intros x Hx. apply not_true_iff_false. rewrite cheaper_iff by done. unfold key_lt.
    destruct (order_key _) as [[? ?] ?]. intros [H|[_ [H|[_ H]]]]; [lia|lia|].
    by rewrite (sw_irrefl (less := str_lt) (P := fun _ => True)) in H.
  - apply cheaper_trans.
  - intros x y z Hx Hy Hz H1 H2. destruct (cheaper x z) eqn:E; [|done].
    destruct (cheaper y x) eqn:E1; [by rewrite (cheaper_trans y x z) in H2|].
    destruct (cheaper_total x y Hx Hy H1 E1) as (Hk & Hl & Hid).
    rewrite <- not_true_iff_false, cheaper_iff in H2 by done. rewrite cheaper_iff, Hk, Hl, Hid in E by done. done.
Qed.

Section selection.
Context {B : Type} `{Backend B, SortSlice}.
Implicit Types c : Client B.

Lemma filtered c l n : n ∈ filter c l ↔ n ∈ l ∧ suitable (cfg c) n = true.
Proof. unfold filter. by rewrite !list_elem_of_In, filter_In. Qed.

Lemma select_cheapest_suitable c l : be_ListNodes (backend c) = Ok l → (∀ n, n ∈ l → suitable (cfg c) n = true → priced n) →
  match Select c with
  | Ok n => n ∈ l ∧ suitable (cfg c) n = true
            ∧ ∀ m, m ∈ l → suitable (cfg c) m = true → cheaper m n = false
  | Err e => e = ErrNoSuitable ∧ ∀ m, m ∈ l → suitable (cfg c) m = false
  end.
Proof.
  intros Hl Hp. unfold Select, Discover. rewrite Hl. cbn [result_map_err].
  pose proof (sort_Slice_perm cheaper (filter c l)) as Hperm.
  assert (sorted_by cheaper (sort_Slice cheaper (filter c l))) as Hs.
  { apply (sort_Slice_sorted cheaper priced); [apply _|]. apply Forall_forall. intros n [Hn Hx]%filtered. by apply Hp. }
  destruct (filter c l) as [|m0 rest] eqn:Ef.
  { split; [done|]. intros m Hm. apply not_true_iff_false. intros Hx.
    assert (m ∈ filter c l) as Hin by by apply filtered. rewrite Ef in Hin. by apply elem_of_nil in Hin. }
  rewrite <- Ef in *. destruct (sort_Slice cheaper (filter c l)) as [|best others] eqn:Eb.
  { apply Permutation_nil in Hperm. by rewrite Hperm in Ef. }
  assert (best ∈ filter c l) as Hb by (rewrite <- Hperm; by left). apply filtered in Hb as [Hb Hbs].
  split_and!; [done|done|]. intros m Hm Hms.
  assert (m ∈ best :: others) as Hin by (rewrite Hperm; by apply filtered).
  apply elem_of_cons in Hin as [->|Hin].
  - apply (sw_irrefl (less := cheaper) (P := priced)). by apply Hp.
  - apply StronglySorted_inv in Hs as [_ Hf]. rewrite Forall_forall in Hf. by apply Hf.
Qed.

Lemma chosen c id n : choose c id = Ok n → ∃ l, be_ListNodes (backend c) = Ok l ∧ n ∈ l
  ∧ (if String.eqb id "" then suitable (cfg c) n = true else NodeID n = id).
Proof.
  unfold choose, Select, Discover. destruct (be_ListNodes (backend c)) as [l|e]; cbn [result_map_err];
    [|by destruct (String.eqb id "")].
  intros Hc. exists l. split; [done|]. revert Hc. destruct (String.eqb id "").
  - pose proof (sort_Slice_perm cheaper (filter c l)) as Hperm.
    destruct (filter c l) as [|m0 rest] eqn:Ef; [done|]. rewrite <- Ef in *.
    destruct (sort_Slice cheaper (filter c l)) as [|best others]; [done|]. intros [= ->].
    apply filtered. rewrite <- Hperm. by left.
  - destruct (List.find _ l) as [m|] eqn:Em; [|done]. intros [= ->].
    apply List.find_some in Em as [Hin Hid]. apply list_elem_of_In in Hin. by apply String.eqb_eq in Hid.
Qed.
End selection.

(** ** Properties *)

(** selection answers the cheapest suitable node, whatever the order of
    the list.  When the prices of the suitable nodes are numbers: selection
    fails exactly when no listed node is active, in the region and under the
    cap; otherwise no suitable node is cheaper, or as cheap and faster, or the
    same with a smaller id; and a backend that lists the same nodes in another
    order, with distinct ids, gets the same answer. *)
Theorem selection_deterministic {B} `{Backend B, SortSlice} (c c' : Client B) l l' :
  be_ListNodes (backend c) = Ok l → be_ListNodes (backend c') = Ok l' → cfg c' = cfg c →
  l ≡ₚ l' → NoDup (map NodeID l) → (∀ n, n ∈ l → suitable (cfg c) n = true → priced n) →
  Select c' = Select c
  ∧ match Select c with
    | Ok n => n ∈ l ∧ suitable (cfg c) n = true ∧ ∀ m, m ∈ l → suitable (cfg c) m = true → cheaper m n = false
    | Err e => e = ErrNoSuitable ∧ ∀ m, m ∈ l → suitable (cfg c) m = false
    end.
Proof.
  intros Hl Hl' Hg Hperm Hd Hp. pose proof (select_cheapest_suitable c l Hl Hp) as H1.
  assert (∀ n, n ∈ l' → suitable (cfg c') n = true → priced n) as Hp' by (intros n Hn; rewrite Hg; apply Hp; by rewrite Hperm).
  pose proof (select_cheapest_suitable c' l' Hl' Hp') as H2. split; [|exact H1]. rewrite Hg in *.
  destruct (Select c) as [n|x], (Select c') as [n'|x'].
  - destruct H1 as (Hn & Hs & Hm), H2 as (Hn' & Hs' & Hm'). rewrite <- Hperm in Hn'. f_equal.
    destruct (cheaper_total n' n) as (_ & _ & Hid); [by apply Hp|by apply Hp|by apply Hm|apply Hm'; [by rewrite <- Hperm|done]|].
    apply list_elem_of_lookup in Hn as [i Hi], Hn' as [j Hj].
    assert (i = j) as ->; [|congruence].
    eapply (NoDup_lookup (map NodeID l)); [done|by apply list_lookup_fmap_Some_2; eauto|].
    apply list_lookup_fmap_Some. eauto.
  - destruct H1 as (Hn & Hs & _), H2 as [_ H2]. rewrite H2 in Hs; [done|]. by rewrite <- Hperm.
  - destruct H2 as (Hn & Hs & _), H1 as [_ H1]. rewrite H1 in Hs; [done|]. by rewrite Hperm.
  - destruct H1 as [-> _], H2 as [-> _]. done.
Qed.

(** nothing is connected at a price nobody approved.  Connecting names a
    listed node, the suitable one for an empty id and otherwise the one with
    that id, and quotes it; when the quoted amount is positive and the hook is
    missing or declines this very quote, the backend is not asked and the call
    answers that approval was denied; in every other case the backend is asked
    once, for this node. *)
Theorem connect_needs_approval {B} `{Backend B, SortSlice} (c c' : Client B) id q r :
  Connect c id = (c', (q, r)) →
  match q with
  | None => c' = c ∧ is_ok r = false
  | Some q =>
    ∃ l n, be_ListNodes (backend c) = Ok l ∧ n ∈ l ∧ q = Client_Quote c n f0
    ∧ (if String.eqb id "" then suitable (cfg c) n = true else NodeID n = id)
    ∧ if f_gt (AmountDERO q) f0 && negb (match Approve (cfg c) with Some hook => hook q | None => false end)
      then c' = c ∧ r = Err ErrApprovalDenied
      else backend c' = (be_Connect (backend c) (NodeID n)).1 ∧ cfg c' = cfg c
           ∧ r = result_map_err ErrConnect (be_Connect (backend c) (NodeID n)).2
  end.
Proof.
  unfold Connect. destruct (choose c id) as [n|e] eqn:Ec; [|by intros [= <- <- <-]].
  apply chosen in Ec as (l & Hl & Hin & Hid).
  destruct (_ && _) eqn:Ea; [|destruct (be_Connect (backend c) (NodeID n)) as [b x] eqn:Eb];
    intros [= <- <- <-]; exists l, n; split_and!; try done; rewrite Ea; [done|by rewrite ?Eb].
Qed.

(** ** Witnesses and examples *)

(** A backend that lists nodes and remembers whom it was asked to connect. *)
Record shelf := mkShelf { sh_nodes : list Node; sh_asked : list string }.
#[local] Instance shelf_backend : Backend shelf := {
  be_ListNodes s := Ok (sh_nodes s);
  be_Connect s id := (mkShelf (sh_nodes s) (sh_asked s ++ [id]), Ok tt);
  be_Disconnect s := (s, Ok tt);
  be_Observe s := Err "unknown";
  be_Diagnose s := Err "unknown"
}.
#[local] Existing Instance stable_sort.

Definition demo_sdk_node (id region : string) (price : float64) (ms : Z) : Node :=
  mkNode id region "DE" "" price ms f0 f_half "active".
Definition demo_nodes : list Node :=
  [demo_sdk_node "n1" "eu" f1 30; demo_sdk_node "n2" "eu" f_half (-1); demo_sdk_node "n3" "us" f0 5;
   demo_sdk_node "n4" "eu" f_half 80].
Definition nan_price : float64 := SpecFloat.S754_nan.
Definition demo_sdk (nodes : list Node) (hook : option (Quote → bool)) : Client shelf :=
  mkClient (mkConfig "eu" f1 f1 hook) (mkShelf nodes []).

Lemma selection_deterministic_witness :
  Select (demo_sdk (rev demo_nodes) None) = Select (demo_sdk demo_nodes None)
  ∧ Select (demo_sdk demo_nodes None) = Ok (demo_sdk_node "n4" "eu" f_half 80).
Proof.
  assert (∀ n, n ∈ demo_nodes → suitable (cfg (demo_sdk demo_nodes None)) n = true → priced n) as Hp.
  { intros n Hn _. unfold demo_nodes in Hn. repeat (apply elem_of_cons in Hn as [->|Hn]; [reflexivity|]).
    by apply elem_of_nil in Hn. }
  assert (NoDup (map NodeID demo_nodes)) as Hd by (apply (bool_decide_unpack _); vm_compute; reflexivity).
  destruct (selection_deterministic (H := shelf_backend) (demo_sdk demo_nodes None) (demo_sdk (rev demo_nodes) None) demo_nodes
    (rev demo_nodes) eq_refl eq_refl eq_refl (Permutation_rev _) Hd Hp) as [He _].
  split; [exact He|vm_compute; reflexivity].
Defined.

Lemma connect_needs_approval_witness :
  let c := demo_sdk demo_nodes (Some (fun q => String.eqb (q_NodeID q) "n1")) in
  backend (Connect c "n1").1 = mkShelf demo_nodes ["n1"] ∧ (Connect c "n2").1 = c.
Proof.
  set (c := demo_sdk _ _). split.
  - assert (Connect c "n1" = ((Connect c "n1").1, (Some (mkQuote "n1" f1 f1), Ok tt))) as E by (vm_compute; reflexivity).
    destruct (connect_needs_approval c _ "n1" _ _ E) as (l & n & _ & _ & _ & Hid & Hc).
    assert (f_gt f1 f0 && negb (match Approve (cfg c) with Some hook => hook (mkQuote "n1" f1 f1) | None => false end) = false)
      as Ea by (vm_compute; reflexivity). cbn [AmountDERO] in Hc. rewrite Ea in Hc. destruct Hc as [Hb _].
    cbn in Hid. rewrite Hid in Hb. exact Hb.
  - assert (Connect c "n2" = ((Connect c "n2").1, (Some (mkQuote "n2" f1 f_half), Err ErrApprovalDenied))) as E
      by (vm_compute; reflexivity).
    destruct (connect_needs_approval c _ "n2" _ _ E) as (l & n & _ & _ & _ & _ & Hc).
    assert (f_gt f_half f0 && negb (match Approve (cfg c) with Some hook => hook (mkQuote "n2" f1 f_half) | None => false end) = true)
      as Ea by (vm_compute; reflexivity). cbn [AmountDERO] in Hc. rewrite Ea in Hc. exact (proj1 Hc).
Defined.

(** A price that is no number passes the cap and needs no approval; a node
    named by its id needs neither the region nor the cap. *)
Example nan_price_needs_no_approval :
  (Connect (demo_sdk [demo_sdk_node "n9" "eu" nan_price 5] None) "").2.2 = Ok tt.
Proof. vm_compute. reflexivity. Qed.
Example named_node_skips_filters :
  let c := demo_sdk [demo_sdk_node "n8" "us" (f_of_Z 50) 5] (Some (fun _ => true)) in
  Select c = Err ErrNoSuitable ∧ (Connect c "n8").2.2 = Ok tt.
Proof. vm_compute. split; reflexivity. Qed.
