(* ===== verification/Mobile.v ===== *)
(** * Mobile: the library behind the phone applications (mobile/veilnet/mobile.go, api.go, permission.go)

    The exported calls over one process-wide state: the configuration, the
    client of [Sdk] with the backend it drives, and the tunnel handed over by
    the operating system.  The client and the state hold the same backend, so
    there is one.  JSON, and making the demo application, are interfaces. *)

From Stdlib Require Import ZArith Lia Ascii.
From S2P Require Import Prelude Float64 GoStrings NetIP GoText.
From S2P Require Import Enforce.
From S2P Require Import App.
From S2P Require Import Diag.
From S2P Require Import Sdk.

Definition Version : string := "0.1.0".

Record mobileConfig := mkMobileConfig {
  mc_Region : string; mc_MaxPricePerHour : float64; mc_QuoteHours : float64; AllowPaid : bool }.
Definition defaultConfig : mobileConfig := mkMobileConfig "" f0 f1 false.

(** ** The tunnel of the operating system (permission.go) *)

Definition ProviderAndroid : string := "android-vpnservice".
Definition ProviderApple : string := "apple-packettunnel".

Record permission := mkPermission { provider : string; granted : bool; fd : Z; reason : string }.
Definition no_permission : permission := mkPermission "" false (-1) "".

Record permissionInfo := mkInfo {
  pi_Provider : string; pi_Granted : bool; HasTunnel : bool; FD : Z; Steps : list string; pi_Reason : string }.

Definition androidSteps : list string :=
  ["Call VpnService.prepare(context); if it returns an Intent, start it and wait for RESULT_OK.";
   "Build the tunnel: VpnService.Builder().addAddress(...).addDnsServer(...).addRoute(" +:+ quoted "0.0.0.0"
     +:+ ", 0).establish().";
   "Pass the descriptor: SetTunnelFD(pfd.detachFd()).";
   "Then call Start(nodeId).";
   "On stop: call Stop(), then ClearTunnel(), then close the descriptor."].
Definition appleSteps : list string :=
  ["Ship a NEPacketTunnelProvider network extension with the packet-tunnel entitlement.";
   "Install/enable the NETunnelProviderManager profile; the user accepts the system prompt.";
   "Inside startTunnel(options:), call GrantTunnel(" +:+ quoted "apple-packettunnel" +:+ ").";
   "Then call Start(nodeId).";
   "On stopTunnel(with:), call Stop(), then ClearTunnel()."].
Definition stepsFor (provider : string) : list string :=
  if String.eqb provider ProviderApple then appleSteps else androidSteps.

Definition hasTunnel (p : permission) : bool :=
  if negb (granted p) then false
  else if String.eqb (provider p) ProviderApple then true
  else 0 <=? fd p.

Definition normalizeProvider `{Unicode} (p : string) : string :=
  let p := strings_ToLower (strings_TrimSpace p) in
  if existsb (String.eqb p) [""; ProviderAndroid; "android"; "vpnservice"] then ProviderAndroid
  else if existsb (String.eqb p) [ProviderApple; "apple"; "ios"; "macos"; "packettunnel"; "nepackettunnelprovider"]
  then ProviderApple
  else ProviderAndroid.

Definition itoa (v : Z) : string := itoa64 v.

(** ** Answers *)

Inductive data :=
| DNode (n : Node) | DQuote (q : option Quote) | DStatus (s : ConnStatus) | DReport (r : Report)
| DConfig (c : mobileConfig) | DState (s : string) | DPermission (i : permissionInfo).

Record envelope := mkEnvelope { OK : bool; Data : string; Error : string }.

(** [json.Marshal] of the data. *)
Class Marshal : Type := { json_Marshal : data → result string string }.

Definition fail (msg : string) : envelope := mkEnvelope false "" msg.
Definition ok `{Marshal} (d : data) : envelope :=
  match json_Marshal d with
  | Err e => fail ("encode: " +:+ e)
  | Ok raw => mkEnvelope true raw ""
  end.

(** ** Permission calls *)

Section permission_calls.
Context `{Marshal, Unicode}.
Implicit Types p : permission.

Definition RequestPermission p (prov : string) : permission * envelope :=
  let prov := normalizeProvider prov in
  let p := if String.eqb (provider p) "" then mkPermission prov (granted p) (fd p) (reason p) else p in
  (p, ok (DPermission (mkInfo prov (granted p) (hasTunnel p) (fd p) (stepsFor prov) (reason p)))).

Definition SetTunnelFD p (n : Z) : permission * envelope :=
  if n <? 0 then
    (p, fail ("invalid tunnel descriptor " +:+ itoa n
              +:+ ": VpnService.Builder.establish() failed or permission was refused"))
  else
    (mkPermission ProviderAndroid true n "",
     ok (DPermission (mkInfo ProviderAndroid true true n ["Tunnel descriptor accepted. Call Start(nodeId)."] ""))).

Definition GrantTunnel p (prov : string) : permission * envelope :=
  let prov := normalizeProvider prov in
  if String.eqb prov ProviderAndroid
  then (p, fail "android must hand over a descriptor: call SetTunnelFD(fd) instead")
  else (mkPermission prov true (-1) "",
        ok (DPermission (mkInfo prov true true (-1) ["Provider grant accepted. Call Start(nodeId)."] ""))).

Definition ClearTunnel p : permission * envelope :=
  let why := "tunnel handle released by the host" in
  (mkPermission (provider p) false (-1) why,
   ok (DPermission (mkInfo (provider p) false false (-1) (stepsFor (provider p)) why))).

Definition PermissionStatus p : envelope :=
  let prov := if String.eqb (provider p) "" then ProviderAndroid else provider p in
  ok (DPermission (mkInfo prov (granted p) (hasTunnel p) (fd p) (stepsFor prov) (reason p))).

Inductive permission_step : permission → permission → Prop :=
| pm_request p prov : permission_step p (RequestPermission p prov).1
| pm_fd p n : permission_step p (SetTunnelFD p n).1
| pm_grant p prov : permission_step p (GrantTunnel p prov).1
| pm_clear p : permission_step p (ClearTunnel p).1.
End permission_calls.

Definition errNoTunnelPermission : string :=
  "no OS VPN permission: call RequestPermission(provider), follow the steps, "
  +:+ "then SetTunnelFD(fd) on Android or GrantTunnel(" +:+ quoted "apple-packettunnel" +:+ ") on iOS".
Definition requireTunnel (p : permission) (demo : bool) : option string :=
  if demo then None else if hasTunnel p then None else Some errNoTunnelPermission.

(** ** The calls of the library *)

(** The application, with the client made over it, if one was: its
    configuration, since its backend is the application. *)
Record MobileState (B : Type) := mkMobile {
  live : option (B * option Sdk.Config); config : mobileConfig; perm : permission }.
Arguments mkMobile {_}. Arguments live {_}. Arguments config {_}. Arguments perm {_}.

Definition quote_hours (c : mobileConfig) : float64 := if f_le (mc_QuoteHours c) f0 then f1 else mc_QuoteHours c.

(** The hook made from the configuration. *)
Definition approve (c : mobileConfig) (q : Quote) : bool :=
  if f_le (AmountDERO q) f0 then true
  else if negb (AllowPaid c) then false
  else negb (f_gt (mc_MaxPricePerHour c) f0
             && f_gt (AmountDERO q) (f_mul (mc_MaxPricePerHour c) (quote_hours c))).
Definition sdk_config (c : mobileConfig) : Sdk.Config :=
  mkConfig (mc_Region c) (mc_MaxPricePerHour c) (quote_hours c) (Some (approve c)).

Section mobile.
Context {B : Type} `{Sdk.Backend B, SortSlice, Marshal, Unicode}.
(** [is_demo]: [App.IsDemo]; [NewDemo]: the outcome of making the demo app. *)
Context (is_demo : B → bool) (error_text : Sdk.error → string).
Implicit Types s : MobileState B.

Definition with_live s (b : B) (c : option Sdk.Config) : MobileState B := mkMobile (Some (b, c)) (config s) (perm s).
Definition with_backend s (b : B) : MobileState B := with_live s b (live s ≫= snd).

(** The client over an application. *)
Definition make_client s (b : B) : MobileState B * result string (Sdk.Client B) :=
  match Sdk.New (sdk_config (config s)) (Some b) with
  | Err e => (with_live s b None, Err (error_text e))
  | Ok c => (with_live s b (Some (Sdk.cfg c)), Ok c)
  end.

(** The client and its backend, made when there is none. *)
Definition ensureClient s (NewDemo : result string B) : MobileState B * result string (Sdk.Client B) :=
  match live s with
  | Some (b, Some c) => (s, Ok (mkClient c b))
  | Some (b, None) => make_client s b
  | None => match NewDemo with
            | Err e => (s, Err e)
            | Ok b => make_client s b
            end
  end.

(** [decoded]: the strict decoding of the text. *)
Definition Configure s (decoded : result string mobileConfig) : MobileState B * envelope :=
  match decoded with
  | Err e => (s, fail ("bad config: " +:+ e))
  | Ok c =>
    if f_lt (mc_QuoteHours c) f0 then (s, fail "quote_hours must be >= 0")
    else if f_lt (mc_MaxPricePerHour c) f0 then (s, fail "max_price_per_hour must be >= 0")
    else
      let c := if f_eq (mc_QuoteHours c) f0
               then mkMobileConfig (mc_Region c) (mc_MaxPricePerHour c) f1 (AllowPaid c) else c in
      (mkMobile ((fun x => (x.1, None)) <$> live s) c (perm s), ok (DConfig c))
  end.

(** The cheapest active node of a region, the first of equals. *)
Definition cheapest_in (region : string) (nodes : list Node) : option Node :=
  foldl (fun best n =>
    if negb (String.eqb (Sdk.Region n) region) then best
    else if negb (String.eqb (Sdk.Status n) "") && negb (String.eqb (Sdk.Status n) "active") then best
    else match best with
         | None => Some n
         | Some m => if f_lt (PricePerHourDERO n) (PricePerHourDERO m) then Some n else best
         end) None nodes.

Definition SelectNode s (NewDemo : result string B) (region : string) : MobileState B * envelope :=
  match ensureClient s NewDemo with
  | (s, Err e) => (s, fail e)
  | (s, Ok c) =>
    if String.eqb region "" then
      (s, match Sdk.Select c with Err e => fail (error_text e) | Ok n => ok (DNode n) end)
    else
      (s, match Discover c with
          | Err e => fail (error_text e)
          | Ok nodes => match cheapest_in region nodes with
                        | None => fail ("no suitable node in region " +:+ region)
                        | Some n => ok (DNode n)
                        end
          end)
  end.

Definition Start s (NewDemo : result string B) (nodeID : string) : MobileState B * envelope :=
  match ensureClient s NewDemo with
  | (s, Err e) => (s, fail e)
  | (s, Ok c) =>
    match requireTunnel (perm s) (is_demo (Sdk.backend c)) with
    | Some e => (s, fail e)
    | None =>
      let '(c, (q, r)) := Sdk.Connect c nodeID in
      (with_backend s (Sdk.backend c), match r with Err e => fail (error_text e) | Ok _ => ok (DQuote q) end)
    end
  end.

Definition Stop s (NewDemo : result string B) : MobileState B * envelope :=
  match ensureClient s NewDemo with
  | (s, Err e) => (s, fail e)
  | (s, Ok c) =>
    let '(c, r) := Client_Disconnect c in
    (with_backend s (Sdk.backend c), match r with Err e => fail (error_text e) | Ok _ => ok (DState "down") end)
  end.

Definition Mobile_Status s (NewDemo : result string B) : MobileState B * envelope :=
  match ensureClient s NewDemo with
  | (s, Err e) => (s, fail e)
  | (s, Ok c) => (s, match Client_Status c with Err e => fail (error_text e) | Ok st => ok (DStatus st) end)
  end.
Definition Mobile_Diagnostics s (NewDemo : result string B) : MobileState B * envelope :=
  match ensureClient s NewDemo with
  | (s, Err e) => (s, fail e)
  | (s, Ok c) => (s, match Client_Diagnostics c with Err e => fail (error_text e) | Ok d => ok (DReport d) end)
  end.

(** A call of the host. *)
Inductive mobile_step (demo : result string B) : MobileState B → MobileState B → Prop :=
| ms_configure s d : mobile_step demo s (Configure s d).1
| ms_select s region : mobile_step demo s (SelectNode s demo region).1
| ms_start s id : mobile_step demo s (Start s demo id).1
| ms_stop s : mobile_step demo s (Stop s demo).1
| ms_status s : mobile_step demo s (Mobile_Status s demo).1
| ms_diagnostics s : mobile_step demo s (Mobile_Diagnostics s demo).1
| ms_permission s p : permission_step (perm s) p → mobile_step demo s (mkMobile (live s) (config s) p).
End mobile.

(** ** The tunnel and the permission *)

Definition permission_ok (p : permission) : Prop :=
  (provider p = "" ∨ provider p = ProviderAndroid ∨ provider p = ProviderApple)
  ∧ (granted p = true → provider p = ProviderAndroid ∧ 0 ≤ fd p ∨ provider p = ProviderApple ∧ fd p = -1)
  ∧ (granted p = false → fd p = -1).

Lemma normalized_provider `{Unicode} p :
  normalizeProvider p = ProviderAndroid ∨ normalizeProvider p = ProviderApple.
Proof. unfold normalizeProvider. repeat case_match; auto. Qed.

Lemma permission_step_ok `{Marshal, Unicode} p p' : permission_ok p → permission_step p p' → permission_ok p'.
Proof.
  intros (Hp & Hg & Hn) Hs. destruct Hs as [p prov|p n|p prov|p]; cbn [fst].
  - unfold RequestPermission. cbn [fst]. destruct (String.eqb_spec (provider p) "") as [E|E]; [|done].
    split; [right; apply normalized_provider|split; [|exact Hn]].
    intros [[E' _]|[E' _]]%Hg; rewrite E in E'; discriminate.
  - unfold SetTunnelFD. destruct (Z.ltb_spec n 0); cbn [fst]; [done|].
    split; [cbn; auto|split; [cbn; auto|done]].
  - unfold GrantTunnel. destruct (String.eqb_spec (normalizeProvider prov) ProviderAndroid) as [E|E]; cbn [fst]; [done|].
    destruct (normalized_provider prov) as [?|E']; [done|].
    split; [cbn; auto|split; [cbn; auto|done]].
  - split; [exact Hp|split; [done|cbn; auto]].
Qed.

Lemma permission_reachable `{Marshal, Unicode} p : rtc permission_step no_permission p → permission_ok p.
Proof.
  intros Hr. remember no_permission as p0 eqn:E.
  assert (permission_ok p0) as Hok by (subst; split; [left; done|split; done]). clear E.
  induction Hr as [|p0 p1 p2 Hs _ IH]; [done|]. apply IH. by eapply permission_step_ok.
Qed.

(** ** The client follows the configuration *)

Section invariant.
Context {B : Type} `{Sdk.Backend B, SortSlice, Marshal, Unicode}.
Context (is_demo : B → bool) (error_text : Sdk.error → string).
Implicit Types s : MobileState B.

Definition client_follows s : Prop := ∀ b g, live s = Some (b, Some g) → g = sdk_config (config s).
Definition no_mobile : MobileState B := mkMobile None defaultConfig no_permission.

Lemma sdk_config_normal c (b : B) :
  Sdk.New (sdk_config c) (Some (b : B)) = Ok (mkClient (sdk_config c) b).
Proof.
  unfold Sdk.New; unfold sdk_config. cbn [cfg_Region MaxPricePerHour QuoteHours Approve]. do 3 f_equal.
  unfold quote_hours. destruct (f_le (mc_QuoteHours c) f0) eqn:E; [done|by rewrite E].
Qed.

(** The client over the application that there is, or over a new one. *)
Lemma ensured s demo : client_follows s →
  match ensureClient error_text s demo with
  | (s', Ok c) => (fst <$> live s = Some (Sdk.backend c) ∨ live s = None ∧ demo = Ok (Sdk.backend c))
                  ∧ s' = with_live s (Sdk.backend c) (Some (cfg c)) ∧ cfg c = sdk_config (config s)
  | (s', Err e) => s' = s ∧ live s = None ∧ demo = Err e
  end.
Proof.
  intros Hf. unfold ensureClient, make_client. destruct (live s) as [[b [g|]]|] eqn:El.
  - split_and!; [by left|destruct s; cbn in *; by rewrite El|exact (Hf b g El)].
  - rewrite sdk_config_normal. split_and!; [by left|done|done].
  - destruct demo as [b|e]; [|done]. rewrite sdk_config_normal. split_and!; [by right|done|done].
Qed.

Lemma follows_live s b (c : Sdk.Client B) : cfg c = sdk_config (config s) → client_follows (with_live s b (Some (cfg c))).
Proof. intros Hc b' g [= <- <-]. exact Hc. Qed.
Lemma follows_backend s b : client_follows s → client_follows (with_backend s b).
Proof.
  intros Hf b' g. unfold with_backend, with_live. cbn. destruct (live s) as [[b0 c]|] eqn:El; cbn; [|done].
  intros [= <- ->]. by apply (Hf b0).
Qed.

Lemma ensured_follows s demo : client_follows s → client_follows (ensureClient error_text s demo).1.
Proof.
  intros Hf. pose proof (ensured s demo Hf) as He. destruct (ensureClient error_text s demo) as [s' [c|e]]; cbn.
  - destruct He as (_ & -> & Hc). by apply follows_live.
  - by destruct He as (-> & _).
Qed.

Lemma mobile_step_follows demo s s' :
  client_follows s → mobile_step is_demo error_text demo s s' → client_follows s'.
Proof.
  intros Hf Hs. destruct Hs as [s d|s region|s id|s|s|s|s p Hp].
  1: { unfold Configure. repeat case_match; try done; intros b g; cbn; by destruct (live s). }
  6: { intros b g Hl. by apply (Hf b). }
  all: pose proof (ensured_follows s demo Hf) as He.
  1: unfold SelectNode. 2: unfold Start. 3: unfold Stop. 4: unfold Mobile_Status. 5: unfold Mobile_Diagnostics.
  all: destruct (ensureClient error_text s demo) as [s' [c|e]]; cbn [fst] in *; try done.
  - by destruct (String.eqb region "").
  - destruct (requireTunnel _ _); [done|]. destruct (Sdk.Connect c id) as [c' [q r]]. by apply follows_backend.
  - destruct (Client_Disconnect c) as [c' r]. by apply follows_backend.
Qed.

Lemma mobile_reachable demo s : rtc (mobile_step is_demo error_text demo) no_mobile s → client_follows s.
Proof.
  intros Hr. remember no_mobile as s0 eqn:E. assert (client_follows s0) as Hok by (subst; by intros b g). clear E.
  induction Hr as [|s0 s1 s2 Hs _ IH]; [done|]. apply IH. by eapply mobile_step_follows.
Qed.
End invariant.

(** What the host has agreed to pay for a quote. *)
Definition payable (c : mobileConfig) (amount : float64) : Prop :=
  f_gt amount f0 = false
  ∨ AllowPaid c = true
    ∧ (f_gt (mc_MaxPricePerHour c) f0 = true → f_gt amount (f_mul (mc_MaxPricePerHour c) (quote_hours c)) = false).

Lemma approved_payable c q :
  f_gt (AmountDERO q) f0 && negb (approve c q) = false → payable c (AmountDERO q).
Proof.
  unfold approve, payable. intros Ha. destruct (f_gt (AmountDERO q) f0) eqn:Eg; [|by left]. right.
  assert (f_le (AmountDERO q) f0 = false) as E by (by destruct (AmountDERO q) as [[]|[]| |[] ? ?]).
  rewrite E in Ha. destruct (AllowPaid c); [|done]. split; [done|]. intros Hm. rewrite Hm in Ha. cbn in Ha.
  by rewrite negb_involutive in Ha.
Qed.

(** ** Properties *)

(** the tunnel of the operating system is held exactly while it is
    granted.  In every state the permission calls reach: the provider is one
    of the two or none was named yet; a tunnel is held, for [Start], exactly
    when the permission is granted; the descriptor is valid exactly for a
    granted Android tunnel and is -1 otherwise; and clearing releases it. *)
Theorem tunnel_held_while_granted `{Marshal, Unicode} p :
  rtc permission_step no_permission p →
  (provider p = "" ∨ provider p = ProviderAndroid ∨ provider p = ProviderApple)
  ∧ hasTunnel p = granted p
  ∧ (0 ≤ fd p ↔ granted p = true ∧ provider p = ProviderAndroid)
  ∧ (fd p < 0 → fd p = -1)
  ∧ hasTunnel (ClearTunnel p).1 = false.
Proof.
  intros Hr. destruct (permission_reachable p Hr) as (Hp & Hg & Hn). split; [exact Hp|].
  unfold hasTunnel, ClearTunnel. cbn [fst granted negb]. destruct (granted p); cbn [negb].
  - destruct (Hg eq_refl) as [[E Hf]|[E Hf]]; rewrite E.
    + rewrite (proj2 (String.eqb_neq ProviderAndroid ProviderApple)) by done.
      split_and!; [by apply Z.leb_le|naive_solver|lia|done].
    + rewrite String.eqb_refl, Hf. split_and!; [done|split; [lia|by intros [_ ?]]|lia|done].
  - rewrite (Hn eq_refl). split_and!; [done|split; [lia|by intros [? _]]|lia|done].
Qed.

(** a phone connects only with a tunnel and only to a node the host pays
    for.  In every state the calls of the library reach: [Start] either fails
    and asks the application nothing, or asks it once to connect to a listed
    node, the one named or a suitable one for an empty id; and then either the
    application is the demo or the operating system's tunnel is held, and the
    amount quoted under the present configuration is not positive, or payment
    is allowed and the amount is within the cap for the quoted hours. *)
Theorem start_gated {B} `{Sdk.Backend B, SortSlice, Marshal, Unicode} (is_demo : B → bool) error_text demo
    (s s' : MobileState B) id env :
  rtc (mobile_step is_demo error_text demo) no_mobile s →
  Start is_demo error_text s demo id = (s', env) →
  match fst <$> live s' with
  | None => OK env = false
  | Some b' => ∃ b, (fst <$> live s = Some b ∨ live s = None ∧ demo = Ok b)
    ∧ (b' = b ∧ OK env = false
       ∨ (is_demo b = true ∨ hasTunnel (perm s) = true)
         ∧ ∃ l n, be_ListNodes b = Ok l ∧ n ∈ l ∧ b' = (be_Connect b (NodeID n)).1
           ∧ (if String.eqb id "" then suitable (sdk_config (config s)) n = true else NodeID n = id)
           ∧ payable (config s) (f_mul (PricePerHourDERO n) (quote_hours (config s))))
  end.
Proof.
  intros Hr. pose proof (ensured error_text s demo (mobile_reachable _ _ _ _ Hr)) as He. unfold Start.
  destruct (ensureClient error_text s demo) as [s1 [c|e]]; [|intros [= <- <-]; by destruct He as (-> & -> & _)].
  destruct He as (Hb & -> & Hc). cbn [perm with_live].
  destruct (requireTunnel (perm s) (is_demo (Sdk.backend c))) as [e|] eqn:Eq.
  { intros [= <- <-]. exists (Sdk.backend c). auto. }
  assert (is_demo (Sdk.backend c) = true ∨ hasTunnel (perm s) = true) as Hgate.
  { unfold requireTunnel in Eq. destruct (is_demo _); [by left|]. destruct (hasTunnel _); [by right|done]. }
  unfold Sdk.Connect. destruct (choose c id) as [n|e] eqn:Ec.
  2: { intros [= <- <-]. exists (Sdk.backend c). auto. }
  apply chosen in Ec as (l & Hl & Hin & Hid). rewrite Hc in *.
  destruct (_ && _) eqn:Ea.
  { intros [= <- <-]. exists (Sdk.backend c). auto. }
  apply approved_payable in Ea. destruct (be_Connect (Sdk.backend c) (NodeID n)) as [b r] eqn:Eb.
  intros [= <- _]. exists (Sdk.backend c). split; [exact Hb|]. right. split; [exact Hgate|].
  exists l, n. rewrite Eb. split_and!; [done..|].
  unfold Client_Quote in Ea. cbn in Ea. by rewrite Hc in Ea.
Qed.

(** ** Witnesses and examples *)

#[local] Existing Instance Sdk.shelf_backend.
#[local] Existing Instance stable_sort.
#[local] Existing Instance ascii_unicode.

(** An encoder that refuses what JSON cannot say. *)
#[local] Instance demo_marshal : Marshal := {
  json_Marshal d := match d with
                    | DQuote (Some q) => if f_eq (AmountDERO q) (AmountDERO q) then Ok "quote"
                                         else Err "json: unsupported value: NaN"
                    | _ => Ok "data"
                    end
}.
Definition demo_text (e : Sdk.error) : string := match e with ErrDisconnect e => e | _ => "refused" end.
Definition paying : mobileConfig := mkMobileConfig "eu" f1 f1 true.
Definition demo_phone (c : mobileConfig) : MobileState shelf := (Configure no_mobile (Ok c)).1.
Definition demo_shelf (nodes : list Node) : result string shelf := Ok (mkShelf nodes []).
Definition not_demo (s : shelf) : bool := false.
Definition granted_phone : MobileState shelf :=
  mkMobile None paying (SetTunnelFD no_permission 7).1.

Lemma tunnel_held_while_granted_witness :
  let p := (SetTunnelFD no_permission 7).1 in
  hasTunnel p = granted p ∧ granted p = true ∧ hasTunnel (ClearTunnel p).1 = false.
Proof.
  assert (rtc permission_step no_permission (SetTunnelFD no_permission 7).1) as Hr
    by (apply rtc_once, pm_fd).
  destruct (tunnel_held_while_granted _ Hr) as (_ & Hh & _ & _ & Hc). split; [exact Hh|split; [reflexivity|exact Hc]].
Defined.

Lemma start_gated_witness :
  let s' := (Start not_demo demo_text granted_phone (demo_shelf demo_nodes) "n1").1 in
  fst <$> live s' = Some (mkShelf demo_nodes ["n1"])
  ∧ payable paying (f_mul f1 f1).
Proof.
  set (r := Start not_demo demo_text granted_phone (demo_shelf demo_nodes) "n1").
  assert (rtc (mobile_step not_demo demo_text (demo_shelf demo_nodes)) no_mobile granted_phone) as Hr.
  { eapply rtc_l; [apply (ms_configure _ _ _ no_mobile (Ok paying))|].
    apply rtc_once. apply (ms_permission _ _ _ (demo_phone paying)), pm_fd. }
  assert (r = (r.1, r.2)) as E by (destruct r; reflexivity).
  pose proof (start_gated not_demo demo_text (demo_shelf demo_nodes) granted_phone r.1 "n1" r.2 Hr E) as Hs.
  assert (fst <$> live r.1 = Some (mkShelf demo_nodes ["n1"])) as El by (vm_compute; reflexivity).
  split; [exact El|]. rewrite El in Hs. destruct Hs as (b & [Hb|[_ Hb]] & Hs); [discriminate Hb|].
  injection Hb as <-. destruct Hs as [[Hx _]|[_ (l & n & Hl & Hin & _ & Hid & Hp)]];
    [apply (f_equal sh_asked) in Hx; discriminate Hx|].
  injection Hl as <-. cbn in Hid.
  assert (n = demo_sdk_node "n1" "eu" f1 30) as ->; [|exact Hp].
  repeat (apply elem_of_cons in Hin as [->|Hin]; [try reflexivity; discriminate Hid|]).
  exfalso. exact (not_elem_of_nil _ Hin).
Defined.

(** A price that is no number: the phone connects without having allowed any
    payment, and the answer is a failure to encode the quote. *)
Example nan_price_connects_and_fails :
  let nodes := [demo_sdk_node "n9" "eu" nan_price 5] in
  let '(s', env) := Start (fun _ => true) demo_text no_mobile (demo_shelf nodes) "" in
  fst <$> live s' = Some (mkShelf nodes ["n9"]) ∧ OK env = false ∧ AllowPaid (config s') = false.
Proof. vm_compute. split_and!; reflexivity. Qed.

(** A region named in the call: the cap of the configuration is not asked. *)
Example named_region_ignores_cap :
  let cheap := mkMobileConfig "eu" f_half f1 true in
  let nodes := demo_shelf [demo_sdk_node "n8" "eu" (f_of_Z 50) 5] in
  OK (SelectNode demo_text (demo_phone cheap) nodes "eu").2 = true
  ∧ OK (SelectNode demo_text (demo_phone cheap) nodes "").2 = false.
Proof. vm_compute. split; reflexivity. Qed.

(** Stopping while no tunnel is up answers a failure. *)
#[local] Existing Instances amd64 no_ipv6 App.demo_engine App.demo_store App.demo_names App.demo_os_enforcer
  Diag.demo_report.
Definition phone_app : Sdk.AppBackend bool (osEnforcer machine) (list string) unit :=
  mkAppBackend (demo_app true) true [] 0.
Example stop_while_down_fails :
  let text {X} (e : App.error X) := match e with App.ErrNotConnected => "not connected" | _ => "failed" end in
  (Stop (H := app_backend text (fun _ => "")) (fun e => match e with ErrDisconnect e => e | _ => "failed" end)
     no_mobile (Ok phone_app)).2 = fail "not connected".
Proof. vm_compute. reflexivity. Qed.
