(* ===== verification/Onboard.v ===== *)
(** * Onboard: first run, restarts and user-facing errors (internal/app/onboard.go)

    The error catalogue, the first run over the configuration file of
    [ClientConfig] and the database of [Storage], and the payment prompt.  The
    texts of configuration errors and the home directory are parameters. *)

From Stdlib Require Import ZArith Lia.
From S2P Require Import Prelude Float64 GoStrings NetIP GoText.
From S2P Require Import Timestamps.
From S2P Require Import Storage.
From S2P Require Import ClientConfig.
From S2P Require Import Runner.
From S2P Require Import Enforce.
From S2P Require Import App.
From S2P Require Import AppStorage.
From S2P Require Import Diag.

(** ** The error catalogue *)

Definition ErrCodeServiceDown := "service-down".
Definition ErrCodeNoNodes := "no-nodes".
Definition ErrCodeAuthRejected := "auth-rejected".
Definition ErrCodePaymentDeclined := "payment-declined".
Definition ErrCodeTunnelFailed := "tunnel-failed".
Definition ErrCodeDNSBlocked := "dns-blocked".
Definition ErrCodeConnectFailed := "connect-failed".

(** An error: a text, a text around another error, or one for the user. *)
Inductive go_error :=
| PlainError (text : string)
| WrapError (text : string) (err : go_error)
| OnboardError (code cause fix_ : string) (err : option go_error).

Fixpoint Error_text (e : go_error) : string :=
  match e with
  | PlainError t | WrapError t _ => t
  | OnboardError code cause fix_ err =>
    "veilnet [" +:+ code +:+ "]: " +:+ cause +:+ " Fix: " +:+ fix_
    +:+ match err with Some e => " (" +:+ Error_text e +:+ ")" | None => "" end
  end.
Definition Unwrap (e : go_error) : option go_error :=
  match e with PlainError _ => None | WrapError _ e => Some e | OnboardError _ _ _ e => e end.

(** [errors.As] for an *OnboardError. *)
Fixpoint as_onboard (e : go_error) : option go_error :=
  match e with
  | PlainError _ => None
  | WrapError _ e => as_onboard e
  | OnboardError _ _ _ _ => Some e
  end.

Definition install_hint (os : System) : string :=
  match os with
  | Windows => "sc create veilnet binPath= " +:+ quoted "veilnet-service.exe" +:+ " start= auto && sc start veilnet"
  | Darwin => "sudo cp packaging/launchd/net.veilnet.daemon.plist /Library/LaunchDaemons/ && sudo launchctl load /Library/LaunchDaemons/net.veilnet.daemon.plist"
  | _ => "sudo cp packaging/systemd/veilnet.service /etc/systemd/system/ && sudo systemctl enable --now veilnet"
  end.
Definition ServiceInstallHint (os : System) : string := install_hint os.

Definition containsAny (s : string) (subs : list string) : bool := existsb (strings_Contains s) subs.

(** The catalogue in the order it is searched: the words, the code, the cause
    and the fix. *)
Definition catalogue (os : System) : list (list string * (string * string * string)) :=
  [(["service unreachable"; "no tunnel engine"; "service not"; "service.token"; "no such file";
     "cannot find the file"; "pipe"; "connection refused"],
    (ErrCodeServiceDown, "the privileged service is not reachable, so no tunnel can be built",
     "start the service: " +:+ ServiceInstallHint os));
   (["no suitable nodes"; "no demo nodes"; "not found"; "no nodes"],
    (ErrCodeNoNodes, "no usable exit nodes answered discovery",
     "try --demo for local nodes, pick another region, or check the registry/devnet is up"));
   (["auth"; "token"; "unauthorized"; "rejected"; "forbidden"; "revoked"],
    (ErrCodeAuthRejected, "the node rejected the session authorization",
     "disconnect, restart the service to refresh credentials, then reconnect"));
   (["payment"; "approv"; "declin"; "insufficient"; "spend"; "balance"],
    (ErrCodePaymentDeclined, "payment was declined or still needs your explicit approval; nothing was spent",
     "open the Payment screen, review the amount, and approve explicitly; check wallet RPC and DERO balance"));
   (["dns"],
    (ErrCodeDNSBlocked, "name resolution is blocked by the DNS posture",
     "set DNS mode to VEILNET in Settings and re-check Diagnostics"));
   (["tunnel"; "wireguard"; "handshake"; "peer"; "endpoint"; "timeout"; "network"; "unreachable"],
    (ErrCodeTunnelFailed, "the encrypted tunnel to the node could not be established",
     "retry, auto-select the fastest node, or check your firewall allows UDP"))].
Definition general_failure : string * string * string :=
  (ErrCodeConnectFailed, "connection failed", "open Diagnostics, then run veilnet --setup for a fix hint").

Definition ClassifyConnectError `{Unicode} (os : System) (err : option go_error) : option go_error :=
  match err with
  | None => None
  | Some e =>
    match as_onboard e with
    | Some oe => Some oe
    | None =>
      let msg := strings_ToLower (Error_text e) in
      let '(code, cause, fix_) :=
        match List.find (fun entry => containsAny msg entry.1) (catalogue os) with
        | Some entry => entry.2
        | None => general_failure
        end in
      Some (OnboardError code cause fix_ (Some e))
    end
  end.

(** ** First run *)

Definition cleanExitSetting := "veilnet.clean_exit".

Record FirstRunReport := mkReport {
  IsFirstRun : bool; ConfigCreated : bool; ConfigPath : string; UncleanExit : bool;
  KillswitchSentinel : bool; WalletNote : string }.
Definition empty_report : FirstRunReport := mkReport false false "" false false "".

Definition walletConfigured (c : ClientConfig) : bool :=
  negb (String.eqb (wal_Name (ClientConfig.Wallet c)) "") || negb (String.eqb (Password (ClientConfig.Wallet c)) "").
Definition wallet_note : string :=
  "no wallet configured: demo and unpaid dev nodes work without one; "
  +:+ "paid nodes show an explicit approval dialog before anything is spent".

Definition set_network (c : ClientConfig) (n : string) : ClientConfig :=
  let d := Dero c in set_dero c (mkDeroConfig (RPCEndpoint d) (RPCUser d) (RPCPassword d) n).
Definition explicit_network (c : ClientConfig) : ClientConfig :=
  if String.eqb (dero_Network (Dero c)) "" then set_network c "mainnet" else c.

Inductive first_run_error :=
| ErrInvalidConfig (e : option go_error) | ErrHome (e : string) | ErrCreate (path : string) (e : ClientConfig.error).

(** What the run meets outside: the home directory's config path, the outcomes
    of writing the file, and of the two statements on the settings. *)
Record run_io := mkRunIO {
  ri_home : result string string; ri_open : option string; ri_close : option string;
  ri_get : option string; ri_set : option string }.

Section first_run.
Context `{TOML, Unicode} (os : System) (cfg_text : ClientConfig.error → string).

(** The setting that tells a crash from a shutdown. *)
Definition mark_dirty (store : option Store) (i : run_io) : option Store * bool :=
  match store with
  | None => (None, false)
  | Some s =>
    let unclean := match GetSetting s cleanExitSetting (ri_get i) with
                   | Ok prev => String.eqb prev "0" | Err _ => false end in
    (Some (SetSetting s cleanExitSetting "0" (ri_set i)).1, unclean)
  end.

(** [f] is the configuration file at [cfgPath], or at the default path. *)
Definition EnsureFirstRun (cfgPath : string) (f : file) (store : option Store) (i : run_io)
  : file * option Store * (FirstRunReport * ClientConfig * result first_run_error unit) :=
  match LoadClient f with
  | (c, Err e) =>
    (f, store, (empty_report, c,
       Err (ErrInvalidConfig (ClassifyConnectError os (Some (WrapError ("config invalid: " +:+ cfg_text e)
                                                        (PlainError (cfg_text e))))))))
  | (c, Ok _) =>
    match (if String.eqb cfgPath "" then ri_home i else Ok cfgPath) with
    | Err e => (f, store, (empty_report, c, Err (ErrHome e)))
    | Ok path =>
      let created :=
        match f with
        | Missing => let c := explicit_network c in
                     match Save c f (ri_open i) (ri_close i) with
                     | (f, Err e) => (f, c, true, Err (ErrCreate path e))
                     | (f, Ok _) => (f, c, true, Ok tt)
                     end
        | _ => (f, c, false, Ok tt)
        end in
      let '(f, c, first, r) := created in
      match r with
      | Err e => (f, store, (mkReport first false path false false "", c, Err e))
      | Ok _ =>
        let '(store, unclean) := mark_dirty store i in
        (f, store, (mkReport first first path unclean (String.eqb (KillSwitch c) KillAlwaysOn)
                      (if walletConfigured c then "" else wallet_note), c, Ok tt))
      end
    end
  end.

Definition MarkCleanShutdown (store : option Store) (io : option string) : option Store * result string unit :=
  match store with
  | None => (None, Ok tt)
  | Some s => let '(s, r) := SetSetting s cleanExitSetting "1" io in (Some s, r)
  end.
End first_run.

(** ** Payments *)

Section approval.
Context {G E S W : Type} `{Engine G, Enforcer E, ClientStore S, IPv6, NameService, SortSlice, Unicode}.
Context (os : System) (app_text : App.error (enf_error (E := E)) → string).

(** The configuration the app works with from then on. *)
Definition App_EnsureFirstRun (a : App.App G E S W) (r : FirstRunReport * ClientConfig * result first_run_error unit)
  : App.App G E S W * result first_run_error FirstRunReport :=
  let '(rep, c, r) := r in
  match r with Err e => (a, Err e) | Ok _ => (set_cfg a c, Ok rep) end.

Definition NeedsPaymentApproval (a : App.App G E S W) (nodeID : string) : result (option go_error) (bool * NodeInfo) :=
  match pick a nodeID with
  | Err e => Err (ClassifyConnectError os (Some (PlainError (app_text e))))
  | Ok n => Ok (f_gt (App.PricePerHourDero n) f0, n)
  end.
End approval.

Definition PaymentApprovalPrompt (n : NodeInfo) : string :=
  "Node " +:+ App.NodeID n +:+ " costs " +:+ fmt_fixed 4 (App.PricePerHourDero n)
  +:+ " DERO/hour. Approve explicitly to continue; VeilNet never spends without approval.".

(** ** Lemmas *)

Definition codes : list string :=
  [ErrCodeServiceDown; ErrCodeNoNodes; ErrCodeAuthRejected; ErrCodePaymentDeclined; ErrCodeTunnelFailed;
   ErrCodeDNSBlocked; ErrCodeConnectFailed].

Lemma catalogue_entry os entry : entry ∈ catalogue os →
  let '(code, cause, fix_) := entry.2 in code ∈ codes ∧ fix_ ≠ "".
Proof.
  unfold catalogue, codes. intros Hin.
  repeat (apply elem_of_cons in Hin as [->|Hin]; [cbn [fst snd]; split; [set_solver | discriminate] |]).
  by apply elem_of_nil in Hin.
Qed.

Lemma as_onboard_kind e oe : as_onboard e = Some oe → ∃ code cause fix_ err, oe = OnboardError code cause fix_ err.
Proof. induction e; cbn; [done|done|]. intros [= <-]. by eauto. Qed.

(** A failure is always answered with a code of the catalogue, something to do
    about it, and the failure itself; an answer that was given stays. *)
Lemma classified `{Unicode} os e : ∃ code cause fix_ err,
  ClassifyConnectError os (Some e) = Some (OnboardError code cause fix_ err)
  ∧ (as_onboard e = None → code ∈ codes ∧ fix_ ≠ "" ∧ err = Some e).
Proof.
  unfold ClassifyConnectError. destruct (as_onboard e) as [oe|] eqn:Ee.
  - destruct (as_onboard_kind _ _ Ee) as (code & cause & fix_ & err & ->). by exists code, cause, fix_, err.
  - destruct (List.find _ (catalogue os)) as [entry|] eqn:Ef.
    + apply find_some in Ef as [Hin _]. apply list_elem_of_In in Hin. pose proof (catalogue_entry _ _ Hin) as Hc.
      destruct entry.2 as [[code cause] fix_]. exists code, cause, fix_, (Some e). split; [done|]. intros _.
      destruct Hc. by split_and!.
    + exists ErrCodeConnectFailed, general_failure.1.2, general_failure.2, (Some e). split; [done|]. intros _.
      split_and!; [unfold codes; set_solver | discriminate | done].
Qed.

Section runs.
Context `{TOMLLaws, Unicode} (os : System) (cfg_text : ClientConfig.error → string).

(** Nothing fails. *)
Definition smooth (i : run_io) : Prop :=
  ri_open i = None ∧ ri_close i = None ∧ ri_get i = None ∧ ri_set i = None ∧ is_ok (ri_home i) = true.

Lemma settings_ready s : Storage.usable s → statement_error s "settings" None = None.
Proof. intros Hu. apply ready_statement; [done | set_solver]. Qed.

Lemma dirty s i : Storage.usable s → ri_get i = None → ri_set i = None →
  mark_dirty (Some s) i = (Some (set_settings s (<[cleanExitSetting := "0"]> (settings s))),
                           String.eqb (default "" (settings s !! cleanExitSetting)) "0").
Proof.
  intros Hu Hg Hs. unfold mark_dirty, GetSetting, SetSetting. by rewrite Hg, Hs, settings_ready.
Qed.

Lemma clean_mark s : Storage.usable s →
  MarkCleanShutdown (Some s) None = (Some (set_settings s (<[cleanExitSetting := "1"]> (settings s))), Ok tt).
Proof. intros Hu. unfold MarkCleanShutdown, SetSetting. by rewrite settings_ready. Qed.

(** A run that succeeds: what it answers and leaves behind. *)
Lemma run_facts cfgPath f s i f' s' rep c : Storage.usable s → smooth i →
  EnsureFirstRun os cfg_text cfgPath f (Some s) i = (f', Some s', (rep, c, Ok tt)) →
  s' = set_settings s (<[cleanExitSetting := "0"]> (settings s))
  ∧ UncleanExit rep = String.eqb (default "" (settings s !! cleanExitSetting)) "0"
  ∧ IsFirstRun rep = match f with Missing => true | _ => false end
  ∧ KillswitchSentinel rep = String.eqb (KillSwitch c) KillAlwaysOn
  ∧ LoadClient f' = (c, Ok tt)
  ∧ match f with Missing => c = explicit_network DefaultClientConfig | _ => f' = f end.
Proof.
  intros Hu (Ho & Hc & Hg & Hs & Hh). unfold EnsureFirstRun.
  destruct (LoadClient f) as [c0 [[]|e]] eqn:El; [|done].
  destruct (if String.eqb cfgPath "" then ri_home i else Ok cfgPath) as [path|]; [|done].
  destruct f as [|e|text]; rewrite dirty by done.
  - destruct (Save (explicit_network c0) Missing (ri_open i) (ri_close i)) as [f1 [[]|e]] eqn:Es; [|done].
    intros [= <- <- <- <-]. split_and!; try done.
    + unfold Save in Es. rewrite Ho, Hc in Es.
      destruct (Validate (explicit_network c0)) as [[]|] eqn:Ev; [|done].
      destruct (toml_Encode (explicit_network c0)) as [text [e|]] eqn:Et; [done|].
      injection Es as <-. cbn. by rewrite (toml_roundtrip _ _ Et), Ev.
    + cbn in El. by injection El as <-.
  - intros [= <- <- <- <-]. split_and!; done.
  - intros [= <- <- <- <-]. split_and!; done.
Qed.

(** It leaves a file that can be read, and the database it was given. *)
Lemma run_leaves path f s i f' s' rep c :
  EnsureFirstRun os cfg_text path f (Some s) i = (f', s', (rep, c, Ok tt)) → (∃ text, f' = Text text) ∧ is_Some s'.
Proof.
  unfold EnsureFirstRun. destruct (LoadClient f) as [c0 [[]|e]] eqn:El; [|done].
  destruct (if String.eqb path "" then ri_home i else Ok path); [|done].
  assert (∀ x u, mark_dirty (Some s) i = (x, u) → is_Some x) as Hm by (intros x u [= <- _]; by eexists).
  destruct (mark_dirty (Some s) i) as [x u] eqn:Em. specialize (Hm _ _ eq_refl).
  destruct f as [|e|text]; [|by cbn in El|intros [= <- <- _ _]; by eauto].
  unfold Save. destruct (Validate _); [|done]. destruct (ri_open i); [done|].
  destruct (toml_Encode _) as [t [e|]]; [done|]. destruct (ri_close i); [done|]. intros [= <- <- _ _]. by eauto.
Qed.
End runs.

(** ** Properties *)

(** a restart knows whether the last run ended cleanly, and the first run
    happens once.  After a successful run on a usable database, let anything
    happen to the database that keeps its tables and does not write the
    clean-exit setting, then start again on the file left behind, with nothing
    failing: the second run is not a first one, reads the same configuration
    and leaves the file alone, and it reports an unclean exit exactly when no
    clean shutdown was recorded in between. *)
Theorem restart_detects_crash `{TOMLLaws, Unicode} os cfg_text path (f f1 f2 : file) (s s1 s2 s3 s4 : Store)
  (i i' : run_io) rep1 rep2 c1 c2 (clean : bool) :
  Storage.usable s → smooth i → smooth i' →
  EnsureFirstRun os cfg_text path f (Some s) i = (f1, Some s1, (rep1, c1, Ok tt)) →
  Storage.usable s2 → settings s2 !! cleanExitSetting = settings s1 !! cleanExitSetting →
  Some s3 = (if clean then (MarkCleanShutdown (Some s2) None).1 else Some s2) →
  EnsureFirstRun os cfg_text path f1 (Some s3) i' = (f2, Some s4, (rep2, c2, Ok tt)) →
  IsFirstRun rep1 = match f with Missing => true | _ => false end
  ∧ IsFirstRun rep2 = false ∧ f2 = f1 ∧ c2 = c1
  ∧ UncleanExit rep2 = negb clean.
Proof.
  intros Hu Hi Hi' R1 Hu2 Hset R3 R2.
  destruct (run_facts _ _ _ _ _ _ _ _ _ _ Hu Hi R1) as (E1 & _ & F1 & _ & L1 & N1).
  assert (Storage.usable s3 ∧ default "" (settings s3 !! cleanExitSetting) = if clean then "1" else "0") as [Hu3 Hs3].
  { rewrite E1 in Hset. cbn in Hset. rewrite lookup_insert_eq in Hset. destruct clean.
    - rewrite clean_mark in R3 by done. injection R3 as ->. split; [done|]. cbn. by rewrite lookup_insert_eq.
    - injection R3 as ->. split; [done|]. by rewrite Hset. }
  destruct (run_facts _ _ _ _ _ _ _ _ _ _ Hu3 Hi' R2) as (_ & U2 & F2 & _ & L2 & N2).
  destruct (run_leaves _ _ _ _ _ _ _ _ _ _ R1) as [[text Ht] _].
  rewrite Ht in N2, F2. rewrite F2, U2, Hs3. split; [done|]. split; [done|]. split; [by rewrite Ht|].
  split; [|by destruct clean]. rewrite N2, <- Ht, L1 in L2. by injection L2 as <-.
Qed.

(** ** Witnesses and examples *)

(** A TOML that knows the default document only. *)
#[local] Instance default_toml : TOML := {
  toml_Unmarshal s base := if String.eqb s "default" then (DefaultClientConfig, true) else (base, false);
  toml_Encode c := if decide (c = DefaultClientConfig) then ("default", None) else ("", Some "not supported")
}.
#[local] Instance default_toml_laws : TOMLLaws.
Proof. split. intros c s. cbn. destruct (decide _) as [->|]; [|done]. by intros [= <-]. Defined.
#[local] Existing Instance ascii_unicode.

Definition calm_run : run_io := mkRunIO (Ok "/home/u/.veilnet/config.toml") None None None None.
Definition start (f : file) (s : Store) := EnsureFirstRun Linux (fun _ => "bad") "" f (Some s) calm_run.
Definition first_start := start Missing demo_db.
Definition store_of (x : file * option Store * (FirstRunReport * ClientConfig * result first_run_error unit)) : Store :=
  default empty_db x.1.2.

(** Started, killed, started again. *)
Lemma restart_detects_crash_witness :
  IsFirstRun first_start.2.1.1 = true
  ∧ UncleanExit (start (Text "default") (store_of first_start)).2.1.1 = true.
Proof.
  assert (Storage.usable demo_db) as Hu by (repeat constructor; apply bool_decide_unpack; vm_compute; exact I).
  assert (Storage.usable (store_of first_start)) as Hu2 by (repeat constructor; apply bool_decide_unpack; vm_compute; exact I).
  assert (smooth calm_run) as Hs by done.
  assert (first_start = (Text "default", Some (store_of first_start),
      (first_start.2.1.1, DefaultClientConfig, Ok tt))) as E1 by (vm_compute; reflexivity).
  set (second := start (Text "default") (store_of first_start)).
  assert (second = (Text "default", Some (store_of second), (second.2.1.1, DefaultClientConfig, Ok tt)))
    as E2 by (vm_compute; reflexivity).
  destruct (restart_detects_crash Linux (fun _ => "bad") "" Missing (Text "default") (Text "default") demo_db
    (store_of first_start) (store_of first_start) (store_of first_start) (store_of second) calm_run calm_run
    first_start.2.1.1 second.2.1.1 DefaultClientConfig DefaultClientConfig false
    Hu Hs Hs E1 Hu2 eq_refl eq_refl E2) as (Hf & _ & _ & _ & Hc).
  split; [exact Hf | exact Hc].
Defined.

(** A refused payment is told as a refused session: the words of the session
    are looked for first, and the payment's own text has one of them. *)
Example refused_payment_blames_the_node :
  ClassifyConnectError Linux (Some (PlainError "payments: user rejected approval"))
  = Some (OnboardError ErrCodeAuthRejected "the node rejected the session authorization"
            "disconnect, restart the service to refresh credentials, then reconnect"
            (Some (PlainError "payments: user rejected approval")))
  ∧ (match ClassifyConnectError Linux (Some (PlainError "payments: insufficient unlocked balance")) with
     | Some (OnboardError code _ _ _) => code = ErrCodePaymentDeclined | _ => False end).
Proof. vm_compute. split; reflexivity. Qed.

(** Four decimals: a node that costs a little is announced as free, and still
    needs the approval. *)
Example small_price_reads_as_zero :
  fmt_fixed 4 (f_const 4 100000) = "0.0000" ∧ f_gt (f_const 4 100000) f0 = true.
Proof. vm_compute. split; reflexivity. Qed.
