(* ===== verification/AppCircuit.v ===== *)
(** * AppCircuit: the client's circuits (internal/app/circuit.go)

    Recording, building, choosing and rotating the 1-3 hop path of a connected
    client, over the orchestrator of [App] and the route builder of [Route].
    The loops that choose a path take fuel. *)

From Stdlib Require Import ZArith Lia.
From S2P Require Import Prelude Float64 GoStrings NetIP.
From S2P Require Import Route.
From S2P Require Import Guards.
From S2P Require Import ClientConfig.
From S2P Require Import Enforce.
From S2P Require Import App.

Inductive circuit_error (X : Type) :=
| ErrNoSession | ErrHopNumber | ErrApp (e : App.error X) | ErrRoute (e : Route.error)
| ErrNoSecondHop | ErrNotSeparable | ErrNoFreshExit | ErrRotate (e : string).
Arguments ErrNoSession {_}. Arguments ErrHopNumber {_}. Arguments ErrApp {_}. Arguments ErrRoute {_}.
Arguments ErrNoSecondHop {_}. Arguments ErrNotSeparable {_}. Arguments ErrNoFreshExit {_}.
Arguments ErrRotate {_}.

(** Whether the pinned guard has reached its lifetime. *)
Definition Circuit_GuardDue (c : App.Circuit) (now : time) : bool :=
  if negb (GuardPinned c) || String.eqb (EntryID c) "" then false
  else if Time_IsZero (GuardSince c) then true
  else negb (Time_Before now (Time_Add (GuardSince c) DefaultGuardRotationInterval)).

Definition mhNode (n : App.NodeInfo) : Route.NodeInfo :=
  Route.mkNodeInfo (NodeID n) (WGPubkey n) (Endpoint n) (n_Region n) (Country n) (City n)
    (PricePerHourDero n) 0 (Load n) (f_of_Z (LatencyMs n)) f1 (Trust n) 0 false.

(** Replace the last element. *)
Definition set_last {A} (l : list A) (x : A) : list A := take (length l - 1) l ++ [x].

Definition routable_path `{Unicode} (path : list App.NodeInfo) (i : build_io) : result Route.error Route :=
  BuildRoute (map mhNode path) default_options i.

Section circuits.
Context {G E D W : Type} `{Engine G, Enforcer E, ClientStore D, IPv6, NameService, SortSlice, Unicode}.
Abbreviation App := (App G E D W).
Abbreviation err := (circuit_error (enf_error (E := E))).
Implicit Types a : App.

Definition set_circuit a (c : App.Circuit) : App := set_connection a (node a) (connID a) (sess a) c.
Definition rotated_event (c : App.Circuit) : event :=
  CIRCUIT_ROTATED (App.Hops c) (Countries c) (Rotations c) (GuardPinned c).

Definition setCircuit a (path : list App.NodeInfo) (now : time) : App :=
  let hops := map NodeID path in
  let old := circuit a in
  let since := match hops, App.Hops old with
               | h :: _, h0 :: _ => if c_Active old && String.eqb h0 h
                                    then (if Time_IsZero (GuardSince old) then now else GuardSince old)
                                    else now
               | _ :: _, [] => now
               | [], _ => 0
               end in
  let c := mkCircuit true (default "" (head hops))
             (match hops with [_; m; _] => m | _ => "" end) (default "" (last hops))
             hops (map Country path) (map PricePerHourDero path)
             (match hops with [] => false | _ => true end) since now (Rotations old) in
  publish (set_circuit a c) [rotated_event c].

(** The ids in order, up to the first that is not listed. *)
Fixpoint find_nodes a (ids : list string) : result err (list App.NodeInfo) :=
  match ids with
  | [] => Ok []
  | id :: ids =>
    match findNode a id with
    | Err e => Err (ErrApp e)
    | Ok n => match find_nodes a ids with Err e => Err e | Ok l => Ok (n :: l) end
    end
  end.

Definition BuildCircuitHops a (ids : list string) (i : build_io) (now : time) : App * result err unit :=
  match node a with
  | None => (a, Err ErrNoSession)
  | Some _ =>
    if (length ids =? 0)%nat || (3 <? length ids)%nat then (a, Err ErrHopNumber)
    else match find_nodes a ids with
    | Err e => (a, Err e)
    | Ok path =>
      match routable_path path i with
      | Err e => (a, Err (ErrRoute e))
      | Ok _ => (setCircuit a path now, Ok tt)
      end
    end
  end.
Definition BuildCircuit a (entryID exitID : string) := BuildCircuitHops a [entryID; exitID].
Definition BuildCircuit3 a (entryID middleID exitID : string) := BuildCircuitHops a [entryID; middleID; exitID].

(** ** Choosing nodes *)

Definition acceptable (exclude : list string) (wantRegion : string) (n : App.NodeInfo) : bool :=
  negb (existsb (String.eqb (NodeID n)) exclude) && usable n
  && (String.eqb wantRegion "" || String.eqb (n_Region n) wantRegion).

Definition best_of (policy : string) (all : list App.NodeInfo) (first : App.NodeInfo)
  (rest : list App.NodeInfo) : App.NodeInfo :=
  (foldl (fun '(best, s) n => let s' := score policy n all in
     if f_gt s' s then (n, s') else (best, s)) (first, score policy first all) rest).1.

(** The region is preferred in a first pass, and ignored in the second. *)
Definition bestExcept a (all : list App.NodeInfo) (exclude : list string) (wantRegion : string)
  : option App.NodeInfo :=
  let p := SelectPolicy (Network (cfg a)) in
  let policy := if String.eqb p "" then SelectFastest else p in
  match List.filter (acceptable exclude wantRegion) all with
  | n :: rest => Some (best_of policy all n rest)
  | [] =>
    match List.filter (acceptable exclude "") all with
    | n :: rest => Some (best_of policy all n rest)
    | [] => None
    end
  end.

(** Prepend picks until there are [n]; the region is asked of the first. *)
Fixpoint fill_path (fuel : nat) a (all : list App.NodeInfo) (n : Z) (want : string)
  (path : list App.NodeInfo) (exclude : list string) : option (list App.NodeInfo) :=
  match fuel with
  | O => None
  | S fuel =>
    if Z.of_nat (length path) <? n then
      match bestExcept a all exclude (if (length path =? 1)%nat then want else "") with
      | None => Some path
      | Some next => fill_path fuel a all n want (next :: path) (NodeID next :: exclude)
      end
    else Some path
  end.

(** Drop the second hop until the path can be routed. *)
Fixpoint separate_path (fuel : nat) (path : list App.NodeInfo) (i : build_io)
  : option (result err (list App.NodeInfo)) :=
  match fuel with
  | O => None
  | S fuel =>
    match routable_path path i with
    | Ok _ => Some (Ok path)
    | Err _ => if (length path <=? 1)%nat then Some (Err ErrNotSeparable)
               else separate_path fuel (take 1 path ++ drop 2 path) i
    end
  end.

Definition hop_number (n : Z) : Z := if n <=? 0 then 2 else if n >? 3 then 3 else n.

(** [None]: out of fuel. *)
Definition AutoCircuitHops (fuel : nat) a (n : Z) (i : build_io) (now : time)
  : option (App * result err unit) :=
  let n := hop_number n in
  let exitID := match node a with Some x => NodeID x | None => "" end in
  if String.eqb exitID "" then Some (a, Err ErrNoSession)
  else match findNode a exitID, ListNodes a with
  | Err e, _ => Some (a, Err (ErrApp e))
  | Ok _, Err e => Some (a, Err (ErrApp e))
  | Ok exit, Ok all =>
    match fill_path fuel a all n (EntryRegion (Multihop (cfg a))) [exit] [exitID] with
    | None => None
    | Some path =>
      if (length path <? 2)%nat && (1 <? n) then Some (a, Err ErrNoSecondHop)
      else match separate_path fuel path i with
      | None => None
      | Some (Err e) => Some (a, Err e)
      | Some (Ok path) => Some (setCircuit a path now, Ok tt)
      end
    end
  end.
Definition AutoCircuit (fuel : nat) a := AutoCircuitHops fuel a 2.

(** ** Rotation *)

Definition rotate_record (c : App.Circuit) (next : App.NodeInfo) (now : time) : App.Circuit :=
  let many := (1 <? length (App.Hops c))%nat in
  mkCircuit true
    (if many then EntryID c else NodeID next) (MiddleID c) (NodeID next)
    (if many then set_last (App.Hops c) (NodeID next) else [NodeID next])
    (if many then set_last (Countries c) (Country next) else [Country next])
    (if many then set_last (Prices c) (PricePerHourDero next) else [PricePerHourDero next])
    (if many then GuardPinned c else false) (GuardSince c)
    (if Time_IsZero (BuiltAt c) then now else BuiltAt c) (wrap_i64 (Rotations c + 1)).

Definition RotateCircuit a (i : build_io) (now : time) : App * result err unit :=
  let c := circuit a in
  match engine a, ListNodes a with
  | None, _ => (a, Err (ErrApp ErrNoEngine))
  | Some _, Err e => (a, Err (ErrApp e))
  | Some g, Ok all =>
    if match node a with None => (length (App.Hops c) =? 0)%nat | Some _ => false end
    then (a, Err ErrNoSession)
    else match bestExcept a all (App.Hops c) "" with
    | None => (a, Err ErrNoFreshExit)
    | Some next =>
      match find_nodes a (take (length (App.Hops c) - 1) (App.Hops c)) with
      | Err e => (a, Err e)
      | Ok kept =>
        match routable_path (kept ++ [next]) i with
        | Err e => (a, Err (ErrRoute e))
        | Ok _ =>
          match eng_RotateEndpoint g (Endpoint next) with
          | (g, Err e) => (set_engine a (Some g), Err (ErrRotate e))
          | (g, Ok _) =>
            let a := set_engine a (Some g) in
            let c := rotate_record c next now in
            let n := match node a with Some _ => Some next | None => None end in
            (publish (set_connection a n (connID a) (sess a) c) [rotated_event c], Ok tt)
          end
        end
      end
    end
  end.

Definition ResetGuard a : App :=
  let c := circuit a in
  set_circuit a (mkCircuit (c_Active c) (EntryID c) (MiddleID c) (ExitID c) (App.Hops c) (Countries c)
                   (Prices c) false 0 (BuiltAt c) (Rotations c)).

Definition MaybeAutoRotate a (i : build_io) (now : time) : App * result err bool :=
  let m := Multihop (cfg a) in
  let c := circuit a in
  if negb (Enabled m) || negb (c_Active c) || (RotateMinutes m <=? 0) then (a, Ok false)
  else if Time_Sub now (BuiltAt c) <? wrap_i64 (RotateMinutes m * minute) then (a, Ok false)
  else match RotateCircuit a i now with
  | (a, Err e) => (a, Err e)
  | (a, Ok _) => (a, Ok true)
  end.

(** The operations on a circuit, and disconnecting. *)
Inductive step : App → App → Prop :=
| step_build a ids i now : step a (BuildCircuitHops a ids i now).1
| step_auto fuel a n i now a' r : AutoCircuitHops fuel a n i now = Some (a', r) → step a a'
| step_rotate a i now : step a (RotateCircuit a i now).1
| step_auto_rotate a i now : step a (MaybeAutoRotate a i now).1
| step_reset a : step a (ResetGuard a)
| step_app a a' : App.step a a' → step a a'.
End circuits.

(** ** Well-formed circuits *)

Record wf_circuit (c : App.Circuit) : Prop := {
  wf_idle : c_Active c = false → App.Hops c = [];
  wf_length : c_Active c = true → (1 ≤ length (App.Hops c) ≤ 3)%nat;
  wf_nodup : NoDup (App.Hops c);
  wf_countries : length (Countries c) = length (App.Hops c);
  wf_prices : length (Prices c) = length (App.Hops c);
  wf_entry : EntryID c = default "" (head (App.Hops c));
  wf_exit : ExitID c = default "" (last (App.Hops c));
  wf_middle : MiddleID c = match App.Hops c with [_; m; _] => m | _ => "" end
}.

Section circuit_proofs.
Context {G E D W : Type} `{Engine G, Enforcer E, ClientStore D, IPv6, NameService, SortSlice, Unicode}.
Abbreviation App := (App G E D W).
Implicit Types a : App.

Lemma routable_path_ok path i r : routable_path path i = Ok r →
  (1 ≤ length path ≤ 3)%nat ∧ separated (map mhNode path) ∧ NoDup (map NodeID path).
Proof.
  intros [(Hl & _ & Hs & _) _]%build_route_ok. rewrite length_map in Hl. split; [exact Hl|].
  split; [done|]. destruct Hs as [Hs _]. by rewrite map_map in Hs.
Qed.

Lemma set_circuit_wf a path now : (1 ≤ length path ≤ 3)%nat → NoDup (map NodeID path) →
  wf_circuit (circuit (setCircuit a path now)).
Proof. intros Hl Hd. split; cbn; rewrite ?length_map; try done. Qed.

Lemma find_nodes_ids a ids path : find_nodes a ids = Ok path → map NodeID path = ids.
Proof.
  revert path. induction ids as [|id ids IH]; intros path; cbn [find_nodes]; [by intros [= <-]|].
  destruct (findNode a id) as [n|e] eqn:En; [|done].
  destruct (find_nodes a ids) as [l|e]; [|done]. intros [= <-]. cbn. rewrite (IH l eq_refl). f_equal.
  unfold findNode in En. destruct (ListNodes a); [|done].
  destruct (List.find _ _) as [m|] eqn:Em; [|done]. injection En as ->.
  apply List.find_some in Em as [_ Em]. by apply String.eqb_eq.
Qed.

(** The best of a list, when the scores are numbers. *)
Lemma best_of_spec policy all first rest : let best := best_of policy all first rest in
  best ∈ first :: rest ∧ ((∀ n, n ∈ first :: rest → not_nan (score policy n all)) →
    ∀ m, m ∈ first :: rest → f_gt (score policy m all) (score policy best all) = false).
Proof.
  unfold best_of. set (sc := fun n => score policy n all).
  assert (∀ l b, let b' := (foldl (fun '(best, s) n => if f_gt (sc n) s then (n, sc n) else (best, s))
      (b, sc b) l).1 in b' ∈ b :: l
    ∧ ((∀ n, n ∈ b :: l → not_nan (sc n)) → ∀ m, m ∈ b :: l → f_gt (sc m) (sc b') = false)) as Hf.
  { induction l as [|x l IH]; intros b; cbn [foldl].
    - split; [set_solver|]. intros Hn m ->%list_elem_of_singleton.
      apply (sw_irrefl (less := f_lt) (P := not_nan)). apply Hn. set_solver.
    - destruct (f_gt (sc x) (sc b)) eqn:Ex.
      + destruct (IH x) as [H7 H8]. split; [set_solver|]. intros Hn m Hm.
        assert (∀ y, y ∈ x :: l → f_gt (sc y) (sc (foldl (fun '(best, s) n => if f_gt (sc n) s
          then (n, sc n) else (best, s)) (x, sc x) l).1) = false) as Hx by (apply H8; set_solver).
        apply elem_of_cons in Hm as [->|Hm]; [|by apply Hx].
        unfold f_gt in *. apply (sw_incomp (less := f_lt) (P := not_nan) _ (sc x) _);
          [set_solver|set_solver|set_solver|by apply Hx; left|].
        apply (sw_asym f_lt not_nan); [set_solver|set_solver|done].
      + destruct (IH b) as [H7 H8]. split; [set_solver|]. intros Hn m Hm.
        assert (∀ y, y ∈ b :: l → f_gt (sc y) (sc (foldl (fun '(best, s) n => if f_gt (sc n) s
          then (n, sc n) else (best, s)) (b, sc b) l).1) = false) as Hb by (apply H8; set_solver).
        apply elem_of_cons in Hm as [->|Hm]; [apply Hb; by left|].
        apply elem_of_cons in Hm as [->|Hm]; [|apply Hb; by right].
        unfold f_gt in *. apply (sw_incomp (less := f_lt) (P := not_nan) _ (sc b) _);
          [set_solver|set_solver|set_solver|apply Hb; by left|done]. }
  apply (Hf rest first).
Qed.

Lemma best_except_some a all ex want n : bestExcept a all ex want = Some n →
  n ∈ all ∧ NodeID n ∉ ex ∧ usable n = true.
Proof.
  assert (∀ w, n ∈ List.filter (acceptable ex w) all → n ∈ all ∧ NodeID n ∉ ex ∧ usable n = true) as Hk.
  { intros w [Hin Hx]%list_elem_of_In%filter_In. unfold acceptable in Hx. zbool.
    split_and!; [by apply list_elem_of_In| |done]. intros Hin2.
    assert (existsb (String.eqb (NodeID n)) ex = true) as Hex; [|congruence].
    apply existsb_exists. exists (NodeID n). split; [by apply list_elem_of_In|apply String.eqb_refl]. }
  unfold bestExcept. set (p := if String.eqb _ "" then _ else _).
  destruct (List.filter (acceptable ex want) all) as [|m l] eqn:E1.
  - destruct (List.filter (acceptable ex "") all) as [|m l] eqn:E2; [done|]. intros [= <-].
    apply (Hk ""). rewrite E2. apply best_of_spec.
  - intros [= <-]. apply (Hk want). rewrite E1. apply best_of_spec.
Qed.

(** Filling ends once the path is long enough or no node is left. *)
Lemma fill_total a all n want path ex : ∃ p',
  (∀ fuel, (Z.to_nat (n - Z.of_nat (length path)) < fuel)%nat →
     fill_path fuel a all n want path ex = Some p')
  ∧ (∃ pre, p' = pre ++ path) ∧ Z.of_nat (length p') ≤ Z.max n (Z.of_nat (length path)).
Proof.
  remember (Z.to_nat (n - Z.of_nat (length path))) as k eqn:Ek. revert path ex Ek.
  induction k as [|k IH]; intros path ex Ek.
  - exists path. split_and!; [|by exists []|lia]. intros [|fuel] Hf; [lia|]. cbn [fill_path].
    by rewrite (proj2 (Z.ltb_ge _ _)) by lia.
  - destruct (bestExcept a all ex (if (length path =? 1)%nat then want else "")) as [next|] eqn:Eb.
    + destruct (IH (next :: path) (NodeID next :: ex)) as (p' & Hp & [pre ->] & Hl); [cbn; lia|].
      exists (pre ++ next :: path). split_and!; [|exists (pre ++ [next]); by rewrite <- app_assoc|cbn in *; lia].
      intros [|fuel] Hf; [lia|]. cbn [fill_path]. rewrite (proj2 (Z.ltb_lt _ _)) by lia. rewrite Eb.
      apply Hp. cbn. lia.
    + exists path. split_and!; [|by exists []|lia]. intros [|fuel] Hf; [lia|]. cbn [fill_path].
      by rewrite (proj2 (Z.ltb_lt _ _)), Eb by lia.
Qed.

(** Separating ends after at most as many drops as there are hops. *)
Lemma separate_total path i : ∃ r : result (circuit_error (enf_error (E := E))) (list App.NodeInfo),
  (∀ fuel, (length path ≤ fuel)%nat → (0 < fuel)%nat → separate_path fuel path i = Some r)
  ∧ (∀ p', r = Ok p' → (∃ rt, routable_path p' i = Ok rt) ∧ (length p' ≤ length path)%nat
       ∧ head p' = head path ∧ ((2 ≤ length p')%nat → last p' = last path)).
Proof.
  remember (length path) as k eqn:Ek. revert path Ek.
  induction k as [k IH] using lt_wf_ind. intros path Ek.
  destruct (routable_path path i) as [rt|e] eqn:Er.
  - exists (Ok path). split.
    + intros [|fuel] Hk Hf; [lia|]. cbn [separate_path]. by rewrite Er.
    + intros p' [= <-]. split_and!; [by exists rt|lia|done|done].
  - destruct (Nat.leb_spec (length path) 1) as [Hl|Hl].
    + exists (Err ErrNotSeparable). split; [|done]. intros [|fuel] Hk Hf; [lia|]. cbn [separate_path].
      by rewrite Er, (proj2 (Nat.leb_le _ _)).
    + destruct path as [|x [|y path]]; cbn [length] in *; [lia|lia|].
      destruct (IH (S (length path)) ltac:(lia) (x :: path) eq_refl) as (r & Hr & Hp). exists r. split.
      * intros [|fuel] Hk Hf; [lia|]. cbn [separate_path]. rewrite Er. cbn [length].
        rewrite (proj2 (Nat.leb_gt _ _)) by lia. cbn [take drop app]. apply Hr; lia.
      * intros p' Hp'. destruct (Hp p' Hp') as (H7 & H8 & H9 & H10). split_and!; [done|lia|done|].
        intros H11. rewrite (H10 H11). destruct path as [|z path]; [cbn in H8; lia|done].
Qed.

Lemma rotate_record_wf c next now : wf_circuit c → NoDup (set_last (App.Hops c) (NodeID next)) →
  wf_circuit (rotate_record c next now).
Proof.
  intros [Wi Wl Wd Wc Wp We Wx Wm] Hd.
  assert (length (App.Hops c) ≤ 3)%nat as Hl.
  { destruct (c_Active c); [by apply Wl|by rewrite Wi; [cbn; lia|]]. }
  unfold rotate_record. destruct (App.Hops c) as [|h1 [|h2 [|h3 [|h4 l]]]]; cbn in Hl; try lia;
    destruct (Countries c) as [|c1 [|c2 [|c3 [|]]]]; try done;
    destruct (Prices c) as [|p1 [|p2 [|p3 [|]]]]; try done; split; cbn in *; try done; try lia.
Qed.

(** What a rotation does when it succeeds. *)
Record rotated a a' (next : App.NodeInfo) (kept : list App.NodeInfo) (now : time) : Prop := {
  ro_fresh : NodeID next ∉ App.Hops (circuit a);
  ro_usable : usable next = true;
  ro_kept : map NodeID kept = take (length (App.Hops (circuit a)) - 1) (App.Hops (circuit a));
  ro_separated : separated (map mhNode (kept ++ [next]));
  ro_circuit : circuit a' = rotate_record (circuit a) next now;
  ro_engine : ∃ g, engine a = Some g ∧ engine a' = Some (eng_RotateEndpoint g (Endpoint next)).1;
  ro_node : node a' = match node a with Some _ => Some next | None => None end;
  ro_rest : enforcer a' = enforcer a ∧ sess a' = sess a ∧ connID a' = connID a ∧ cfg a' = cfg a
}.

Lemma rotate_ok a i now a' : RotateCircuit a i now = (a', Ok tt) → ∃ next kept, rotated a a' next kept now.
Proof.
  unfold RotateCircuit. destruct (engine a) as [g|] eqn:Eg; [|done].
  destruct (ListNodes a) as [all|]; [|done]. destruct (match node a with None => _ | _ => _ end); [done|].
  destruct (bestExcept a all _ "") as [next|] eqn:Eb; [|done]. apply best_except_some in Eb as (_ & Hf & Hu).
  destruct (find_nodes a _) as [kept|] eqn:Ek; [|done]. apply find_nodes_ids in Ek.
  destruct (routable_path (kept ++ [next]) i) as [rt|] eqn:Er; [|done].
  apply routable_path_ok in Er as (_ & Hs & _).
  destruct (eng_RotateEndpoint g (Endpoint next)) as [g' [[]|x]] eqn:Ex; [|done]. intros [= <-].
  exists next, kept. split; try done. exists g. split; [done|]. by rewrite Ex.
Qed.

Lemma rotate_err a i now a' x : RotateCircuit a i now = (a', Err x) →
  a' = set_engine a (engine a') ∧ ((∀ e, x ≠ ErrRotate e) → a' = a).
Proof.
  assert (∀ b : App, set_engine b (engine b) = b) as Hid by by intros [].
  unfold RotateCircuit. destruct (engine a) as [g|] eqn:Eg.
  2: { intros [= <- _]. by rewrite Hid. }
  destruct (ListNodes a); [|intros [= <- _]; by rewrite Hid].
  destruct (match node a with None => _ | _ => _ end); [intros [= <- _]; by rewrite Hid|].
  destruct (bestExcept a _ _ ""); [|intros [= <- _]; by rewrite Hid].
  destruct (find_nodes a _); [|intros [= <- _]; by rewrite Hid].
  destruct (routable_path _ i); [|intros [= <- _]; by rewrite Hid].
  destruct (eng_RotateEndpoint g _) as [g' [[]|y]]; [done|]. intros [= <- <-].
  split; [done|]. intros Hx. by destruct (Hx y).
Qed.

Lemma rotate_keeps_wf a i now : wf_circuit (circuit a) → wf_circuit (circuit (RotateCircuit a i now).1).
Proof.
  intros Hw. destruct (RotateCircuit a i now) as [a' [[]|x]] eqn:Er; cbn.
  - apply rotate_ok in Er as (next & kept & R). rewrite (ro_circuit _ _ _ _ _ R). apply rotate_record_wf; [done|].
    pose proof (ro_separated _ _ _ _ _ R) as [Hd _]. rewrite map_map, map_app in Hd.
    unfold set_last. rewrite <- (ro_kept _ _ _ _ _ R). exact Hd.
  - apply rotate_err in Er as [-> _]. done.
Qed.

(** Choosing a path: the fuel, what is kept, what it makes. *)
Lemma auto_circuit_facts a n i now : ∃ a' r, (∀ fuel, (3 ≤ fuel)%nat →
    AutoCircuitHops fuel a n i now = Some (a', r))
  ∧ match r with
    | Ok _ => ∃ path, a' = setCircuit a path now ∧ (∃ rt, routable_path path i = Ok rt)
        ∧ (Z.of_nat (length path) ≤ hop_number n)
        ∧ ((2 ≤ length path)%nat → ∃ x, node a = Some x ∧ NodeID <$> last path = Some (NodeID x))
    | Err _ => a' = a
    end.
Proof.
  assert (1 ≤ hop_number n ≤ 3) as Hn.
  { unfold hop_number. destruct (Z.leb_spec n 0); [lia|]. rewrite Z.gtb_ltb. destruct (Z.ltb_spec 3 n); lia. }
  unfold AutoCircuitHops. set (h := hop_number n) in *.
  set (exitID := match node a with Some x => NodeID x | None => "" end).
  destruct (String.eqb_spec exitID "") as [He|He]; [by exists a, (Err ErrNoSession)|].
  destruct (findNode a exitID) as [exit|e] eqn:Ef; [|by exists a, (Err (ErrApp e))].
  destruct (ListNodes a) as [all|e] eqn:El; [|by exists a, (Err (ErrApp e))].
  assert (NodeID exit = exitID) as Hx.
  { assert (find_nodes a [exitID] = Ok [exit]) as Hx%find_nodes_ids by (cbn; by rewrite Ef).
    by injection Hx. }
  destruct (fill_total a all h (EntryRegion (Multihop (cfg a))) [exit] [exitID])
    as (p1 & Hp1 & [pre ->] & Hl1). cbn [length] in Hp1, Hl1.
  destruct ((length (pre ++ [exit]) <? 2)%nat && (1 <? h)) eqn:Ec.
  { exists a, (Err ErrNoSecondHop). split; [|done]. intros fuel Hf. rewrite (Hp1 fuel) by lia. by rewrite Ec. }
  destruct (separate_total (pre ++ [exit]) i) as (r & Hr & Hp).
  assert (∀ fuel, (3 ≤ fuel)%nat → separate_path fuel (pre ++ [exit]) i = Some r) as Hr3
    by (intros; apply Hr; lia).
  destruct r as [p2|e].
  - exists (setCircuit a p2 now), (Ok tt). split.
    { intros fuel Hf. rewrite (Hp1 fuel) by lia. by rewrite Ec, (Hr3 fuel Hf). }
    destruct (Hp p2 eq_refl) as (Hrt & Hl2 & _ & Hlast). exists p2. split_and!; [done|done|lia|].
    intros Hge. rewrite (Hlast Hge), last_snoc. cbn. rewrite Hx. unfold exitID in *.
    destruct (node a) as [x|]; [by exists x|done].
  - exists a, (Err e). split; [|done]. intros fuel Hf. rewrite (Hp1 fuel) by lia.
    by rewrite Ec, (Hr3 fuel Hf).
Qed.

Lemma app_step_circuit a a' : App.step a a' →
  circuit a' = circuit a ∨ circuit a' = no_circuit.
Proof.
  intros [a0 id i|a0|a0 reason|a0 c r|a0|a0 amount txid id now|a0 n dial].
  - left. destruct (Connect a0 id i) as [a1 [[]|x]] eqn:Ec; cbn.
    + by eapply connect_circuit.
    + by eapply connect_circuit.
  - unfold Disconnect. destruct (node a0) as [n|]; [|by left].
    destruct (match engine a0 with Some g => eng_Bytes g | None => (0, 0) end) as [rx tx].
    assert (circuit (stop_engine a0).1 = circuit a0) as Hs.
    { unfold stop_engine. destruct (engine a0); [|done]. by destruct (eng_Stop g). }
    destruct (stop_engine a0) as [a1 [[]|e]]; [|by left].
    destruct (ClearEnforcement a1) as [a2 rc]. right. by destruct rc.
  - left. unfold FailClosed. destruct (enforcer a0); [|done]. by destruct (enf_FailClosed e reason).
  - left. unfold UpdateConfig. destruct (Validate c); [|done]. by destruct r.
  - by left.
  - left. unfold ConfirmPayment. by destruct (SaveReceipt _ _) as [st2 [[]|x]].
  - left. unfold ProbeLatency. by destruct (dial _ _).
Qed.
End circuit_proofs.


(** ** Every circuit is well formed *)

Section circuit_invariant.
Context {G E D W : Type} `{Engine G, Enforcer E, ClientStore D, IPv6, NameService, SortSlice, Unicode}.
Abbreviation App := (App G E D W).
Implicit Types a : App.

Lemma no_circuit_wf : wf_circuit no_circuit.
Proof. split; cbn; try done. constructor. Qed.

Lemma build_wf a ids i now : wf_circuit (circuit a) →
  wf_circuit (circuit (BuildCircuitHops a ids i now).1).
Proof.
  intros Hw. unfold BuildCircuitHops. destruct (node a); [|done]. destruct (_ || _); [done|].
  destruct (find_nodes a ids) as [path|]; [|done].
  destruct (routable_path path i) as [rt|] eqn:Er; [|done].
  apply routable_path_ok in Er as (Hl & _ & Hd). by apply set_circuit_wf.
Qed.

Lemma auto_wf fuel a n i now a' r : AutoCircuitHops fuel a n i now = Some (a', r) →
  wf_circuit (circuit a) → wf_circuit (circuit a').
Proof.
  unfold AutoCircuitHops. intros Hr Hw. revert Hr.
  destruct (String.eqb _ ""); [by intros [= <- _]|].
  destruct (findNode a _) as [exit|]; [|by intros [= <- _]].
  destruct (ListNodes a) as [all|]; [|by intros [= <- _]].
  destruct (fill_path _ _ _ _ _ _ _) as [path|]; [|done].
  destruct (_ && _); [by intros [= <- _]|].
  destruct (separate_path fuel path i) as [[p|e]|] eqn:Es; [|by intros [= <- _]|done].
  intros [= <- _].
  assert (∃ rt, routable_path p i = Ok rt) as [rt Hrt%routable_path_ok].
  { clear Hw. revert path Es. induction fuel as [|fuel IH]; intros path; [done|]. cbn [separate_path].
    destruct (routable_path path i) as [rt|] eqn:Er; [intros [= <-]; by exists rt|].
    destruct (_ <=? _)%nat; [done|]. apply IH. }
  destruct Hrt as (Hl & _ & Hd). by apply set_circuit_wf.
Qed.

Lemma reset_wf a : wf_circuit (circuit a) → wf_circuit (circuit (ResetGuard a)).
Proof. intros []. by split. Qed.

Lemma circuit_step a a' : step a a' → wf_circuit (circuit a) → wf_circuit (circuit a').
Proof.
  intros [a0 ids i now|fuel a0 n i now a1 r Hr|a0 i now|a0 i now|a0|a0 a1 Hs] Hw.
  - by apply build_wf.
  - by eapply auto_wf.
  - by apply rotate_keeps_wf.
  - unfold MaybeAutoRotate. destruct (_ || _); [done|]. destruct (_ <? _); [done|].
    pose proof (rotate_keeps_wf a0 i now Hw) as Hr.
    by destruct (RotateCircuit a0 i now) as [a1 [[]|x]].
  - by apply reset_wf.
  - destruct (app_step_circuit _ _ Hs) as [->| ->]; [done|apply no_circuit_wf].
Qed.

(** The entry changes only when the circuit has a single hop. *)
Lemma rotate_record_entry c next now : wf_circuit c → (2 ≤ length (App.Hops c))%nat →
  let c' := rotate_record c next now in
  head (App.Hops c') = head (App.Hops c) ∧ EntryID c' = EntryID c ∧ GuardPinned c' = GuardPinned c
  ∧ GuardSince c' = GuardSince c ∧ last (App.Hops c') = Some (NodeID next)
  ∧ length (App.Hops c') = length (App.Hops c).
Proof.
  intros Hw Hl. unfold rotate_record. rewrite (proj2 (Nat.ltb_lt _ _)) by lia.
  cbn -[set_last]. unfold set_last. rewrite last_snoc, length_app, length_take. cbn [length].
  split_and!; try done; [|lia]. by destruct (App.Hops c) as [|h [|h2 l]]; cbn in Hl; [lia|lia|].
Qed.
End circuit_invariant.

(** ** Witness data *)

(** An engine that records the endpoints it was sent to. *)
#[local] Instance endpoint_engine : Engine (list string) := {
  eng_Start g c := (g ++ map peer_Endpoint (Peers c), Ok tt);
  eng_Stop g := ([], Ok tt);
  eng_State g := if (length g =? 0)%nat then StateDown else StateUp;
  eng_Bytes g := (0, 0);
  eng_RotateEndpoint g e := if (length g =? 0)%nat then (g, Err "not running") else (g ++ [e], Ok tt)
}.
#[local] Existing Instances App.demo_store stable_sort App.demo_names App.demo_os_enforcer.
#[local] Existing Instances no_ipv6 ascii_unicode.

Definition circuit_app (c : ClientConfig) (ns : list App.NodeInfo)
  : App (list string) (osEnforcer machine) (list string) unit :=
  (Connect (set_enforcer (New c [] (Some []) (Ok ns)) (Some (demo_enforcer true))) "n1" App.demo_io).1.
Definition connected3 := circuit_app DefaultClientConfig App.demo_nodes.
Definition bio : build_io := mkBuildIO (Some (repeat 7 16)) 0 0.
Definition built2 := BuildCircuit connected3 "n2" "n1" bio 100.
Definition rotated2 := RotateCircuit built2.1 bio 200.

(** ** Properties *)

(** C30: every recorded circuit is a path.  From a new client, through any
    building, choosing and rotating of circuits mixed with connecting,
    disconnecting and the other calls, and with any failures: an active circuit
    has one to three distinct hops, countries and prices run parallel to them,
    the entry is the first hop, the exit the last, the middle is set exactly
    for three; an idle one has none. *)
Theorem circuits_well_formed {G E D W} `{Engine G, Enforcer E, ClientStore D, IPv6, NameService,
    SortSlice, Unicode} c st g ns (e : option E) (a : App.App G E D W) :
  rtc step (set_enforcer (New c st g ns) e) a → wf_circuit (circuit a).
Proof.
  intros Hs. assert (wf_circuit (circuit (set_enforcer (New (G := G) (W := W) c st g ns) e))) as Hw
    by apply no_circuit_wf.
  revert Hw. induction Hs as [|a1 a2 a3 Hs _ IH]; [done|]. intros Hw. by eapply IH, circuit_step.
Qed.

(** rotation swaps the exit and nothing upstream of it.  When a rotation
    succeeds, the new exit is usable and was no hop of the circuit, the path
    with it has no box or key twice, the engine was sent to its endpoint, it is
    the current node, and session, enforcer and configuration are untouched; with two or three
    hops the entry, the guard's pin and its age stay.  When it fails, nothing
    but the engine changed, and that only if the engine itself refused. *)
Theorem rotation_keeps_entry {G E D W} `{Engine G, Enforcer E, ClientStore D, IPv6, NameService,
    SortSlice, Unicode} (a a' : App.App G E D W) i now r :
  wf_circuit (circuit a) → RotateCircuit a i now = (a', r) →
  match r with
  | Ok _ => ∃ next kept, rotated a a' next kept now
      ∧ ((2 ≤ length (App.Hops (circuit a)))%nat →
         head (App.Hops (circuit a')) = head (App.Hops (circuit a))
         ∧ EntryID (circuit a') = EntryID (circuit a)
         ∧ GuardPinned (circuit a') = GuardPinned (circuit a)
         ∧ GuardSince (circuit a') = GuardSince (circuit a)
         ∧ last (App.Hops (circuit a')) = Some (NodeID next)
         ∧ length (App.Hops (circuit a')) = length (App.Hops (circuit a)))
  | Err x => a' = set_engine a (engine a') ∧ ((∀ e, x ≠ ErrRotate e) → a' = a)
  end.
Proof.
  intros Hw Hr. destruct r as [[]|x]; [|by eapply rotate_err].
  apply rotate_ok in Hr as (next & kept & R). exists next, kept. split; [done|]. intros Hl.
  rewrite (ro_circuit _ _ _ _ _ R). by apply rotate_record_entry.
Qed.

(** C40: automatic path building always ends.  Three units of fuel, and any
    larger number, give the same result; it is either an error that changes
    nothing, or the record of a path that can be routed, no longer than the one
    to three hops asked for, that ends in the current node when it has more
    than one hop. *)
Theorem auto_circuit_terminates {G E D W} `{Engine G, Enforcer E, ClientStore D, IPv6, NameService,
    SortSlice, Unicode} (a : App.App G E D W) n i now : ∃ a' r,
  (∀ fuel, (3 ≤ fuel)%nat → AutoCircuitHops fuel a n i now = Some (a', r))
  ∧ match r with
    | Ok _ => ∃ path, a' = setCircuit a path now ∧ (∃ rt, routable_path path i = Ok rt)
        ∧ Z.of_nat (length path) ≤ hop_number n
        ∧ ((2 ≤ length path)%nat → ∃ x, node a = Some x ∧ NodeID <$> last path = Some (NodeID x))
    | Err _ => a' = a
    end.
Proof. apply auto_circuit_facts. Qed.

(** ** Witnesses *)

Lemma built2_reached : rtc (step (G := list string)) (set_enforcer
  (New DefaultClientConfig [] (Some []) (Ok App.demo_nodes)) (Some (demo_enforcer true))) built2.1.
Proof.
  eapply rtc_l; [apply step_app, (step_connect _ "n1" App.demo_io)|].
  apply rtc_once, (step_build connected3 ["n2"; "n1"] bio 100).
Defined.

Lemma circuits_well_formed_witness :
  built2.2 = Ok tt ∧ EntryID (circuit built2.1) = "n2" ∧ ExitID (circuit built2.1) = "n1".
Proof.
  destruct (circuits_well_formed DefaultClientConfig [] (Some []) (Ok App.demo_nodes)
    (Some (demo_enforcer true)) built2.1 built2_reached) as [_ _ _ _ _ He Hx _].
  split; [vm_compute; reflexivity|].
  assert (App.Hops (circuit built2.1) = ["n2"; "n1"]) as Hh by (vm_compute; reflexivity).
  rewrite Hh in He, Hx. split; [exact He|exact Hx].
Defined.

Lemma rotation_keeps_entry_witness : rotated2.2 = Ok tt
  ∧ head (App.Hops (circuit rotated2.1)) = Some "n2" ∧ EntryID (circuit rotated2.1) = "n2".
Proof.
  assert (wf_circuit (circuit built2.1)) as Hw.
  { split; try (vm_compute; done); try (vm_compute; lia); apply (bool_decide_unpack _);
      vm_compute; reflexivity. }
  assert (RotateCircuit built2.1 bio 200 = (rotated2.1, Ok tt)) as Hr by (vm_compute; reflexivity).
  destruct (rotation_keeps_entry built2.1 rotated2.1 bio 200 (Ok tt) Hw Hr)
    as (next & kept & _ & He).
  assert (App.Hops (circuit built2.1) = ["n2"; "n1"]) as Hh by (vm_compute; reflexivity).
  rewrite Hh in He. destruct (He (le_n 2)) as (Hhd & Hen & _).
  split; [vm_compute; reflexivity|]. split; [exact Hhd|].
  rewrite Hen. vm_compute. reflexivity.
Defined.

(** ** What the code does beside its comments *)

Definition app_circuit (r : option (App.App (list string) (osEnforcer machine) (list string) unit
    * result (circuit_error (enf_error (E := osEnforcer machine))) unit)) : list string :=
  match r with Some (a, Ok _) => App.Hops (circuit a) | _ => [] end.
Definition in_region (r : string) (n : App.NodeInfo) : App.NodeInfo :=
  App.mkNodeInfo (NodeID n) (WGPubkey n) r (Country n) (City n) (Endpoint n) (PricePerHourDero n)
    (CapacityMaxClients n) (ProtocolVersion n) (BondDero n) (n_Status n) (Version n) (Load n)
    (LatencyMs n) (Trust n) (FailCount n).
Definition with_multihop (m : MultihopConfig) : ClientConfig :=
  let c := DefaultClientConfig in
  mkClientConfig (Network c) (Dero c) (Wallet c) (DNS c) (KillSwitch c) (AutoConnect c) (Region c) m
    (Cover c) (Payments c) (Logging c).

(** Picks are prepended, so of three hops the one asked for by region is the
    middle, not the entry. *)
Example entry_region_lands_in_the_middle :
  let n3 := in_region "is" (demo_node "n3" "192.0.2.1:51820" f1) in
  app_circuit (AutoCircuitHops 3 (circuit_app (with_multihop (mkMultihopConfig true "is" 30))
    [demo_node "n1" "203.0.113.7:51820" f_half; demo_node "n2" "198.51.100.9:51820" f_half; n3])
    3 bio 100) = ["n2"; "n3"; "n1"].
Proof. vm_compute. reflexivity. Qed.

(** When the only other node shares the exit's box, the exit is dropped and a
    one-hop circuit of the other node is recorded. *)
Example exit_dropped_when_unseparable :
  let a := circuit_app DefaultClientConfig
    [demo_node "n1" "203.0.113.7:51820" f_half; demo_node "n4" "203.0.113.7:51821" f_half] in
  app_circuit (AutoCircuit 3 a bio 100) = ["n4"] ∧ NodeID <$> node a = Some "n1".
Proof. split; vm_compute; reflexivity. Qed.

(** The interval is measured from [BuiltAt], which a rotation keeps: once it
    has passed, every call rotates. *)
Example rotates_on_every_call :
  let minutes := 31 * minute in
  let a := (BuildCircuit (circuit_app (with_multihop (mkMultihopConfig true "" 30)) App.demo_nodes)
              "n2" "n1" bio 100).1 in
  let r1 := MaybeAutoRotate a bio (100 + minutes) in
  let r2 := MaybeAutoRotate r1.1 bio (101 + minutes) in
  (r1.2, r2.2) = (Ok true, Ok true) ∧ Rotations (circuit r2.1) = 2.
Proof. split; vm_compute; reflexivity. Qed.

(** A rotation makes the new exit the current node; the session and the
    enforcer's plan stay the old node's. *)
Example rotation_leaves_enforcer_and_session :
  NodeID <$> node rotated2.1 = Some "n3" ∧ ses_NodeID (sess rotated2.1) = "n1"
  ∧ enforcer rotated2.1 = enforcer built2.1.
Proof. split_and!; vm_compute; reflexivity. Qed.

(** Building a circuit that ends elsewhere leaves the current node. *)
Example built_exit_is_not_current :
  let r := BuildCircuit connected3 "n1" "n2" bio 100 in
  r.2 = Ok tt ∧ ExitID (circuit r.1) = "n2" ∧ NodeID <$> node r.1 = Some "n1".
Proof. split_and!; vm_compute; reflexivity. Qed.
