(* ===== verification/Wallet.v ===== *)
(** * Wallet: the client's wallet connection (internal/app/wallet.go)

    Connecting, probing and dropping the wallet, over JSON-RPC ([Dero]) or the
    bridge ([Xswd]), and the one place where the client moves DERO. *)

From Stdlib Require Import ZArith Lia.
From S2P Require Import Prelude Float64 GoStrings NetIP GoText Crypto.
From S2P Require Import Dero.
From S2P Require Import Xswd.
From S2P Require Import ClientConfig.
From S2P Require Import Enforce.
From S2P Require Import App.

Record WalletStatus := mkWalletStatus {
  ws_Mode : string; ws_Connected : bool; ws_Endpoint : string; ws_Address : string;
  BalanceDero : float64; UnlockedDero : float64; ws_Network : string; ws_Error : string;
  CheckedAt : time }.
Definition no_status : WalletStatus := mkWalletStatus "" false "" "" f0 f0 "" "" 0.

Record WalletConnectSpec := mkSpec {
  sp_Mode : string; sp_Endpoint : string; sp_User : string; sp_Password : string;
  sp_AppName : string; Persist : bool }.

(** The live connection; [R] is the RPC client, [K] the bridge's socket. *)
Record walletConn (R K : Type) := mkConn {
  wc_mode : string; wc_endpoint : string; rpc : option R; xswd : option (XSWDClient K) }.
Arguments mkConn {_ _}. Arguments wc_mode {_ _}. Arguments wc_endpoint {_ _}.
Arguments rpc {_ _}. Arguments xswd {_ _}.

Inductive wallet_error (X : Type) :=
| WErrDestination | WErrAmount | WErrNoWallet | WErrNotPending | WErrCap | WErrRounds
| WErrTransport | WErrMode (mode : string) | WErrEndpoint | WErrScheme
| WErrRPC (e : Dero.error) | WErrXSWD (e : Xswd.error) | WErrApp (e : App.error X).
Arguments WErrDestination {_}. Arguments WErrAmount {_}. Arguments WErrNoWallet {_}.
Arguments WErrNotPending {_}. Arguments WErrCap {_}. Arguments WErrRounds {_}.
Arguments WErrTransport {_}. Arguments WErrMode {_}. Arguments WErrEndpoint {_}.
Arguments WErrScheme {_}. Arguments WErrRPC {_}. Arguments WErrXSWD {_}. Arguments WErrApp {_}.

(** The message of an error. *)
Class ErrorText (X : Type) : Type := { error_text : wallet_error X → string }.

(** [dero.NewWalletClientAuth]. *)
Class NewWallet (R : Type) : Type := { NewWalletClientAuth : string → string → string → R }.

Definition refused_text : string :=
  "The wallet refused the request. Nothing was spent. Approve VeilNet in your wallet and try again.".
Definition no_answer_text : string :=
  "The wallet did not answer. Check it is running and the endpoint is right: ".
Definition login_text : string := "The wallet needs a user and password (its --rpc-login value).".

Definition walletErrorText {X} `{ErrorText X, Unicode} (e : wallet_error X) : string :=
  match e with
  | WErrXSWD e' => if Xswd.is_denied e' then refused_text
                   else if Xswd.is_unavailable e' then no_answer_text +:+ error_text e
                   else if strings_Contains (strings_ToLower (error_text e)) "rpc-login" then login_text
                   else error_text e
  | WErrRPC e' => if Dero.IsUnavailable e' then no_answer_text +:+ error_text e
                  else if strings_Contains (strings_ToLower (error_text e)) "rpc-login" then login_text
                  else error_text e
  | _ => if strings_Contains (strings_ToLower (error_text e)) "rpc-login" then login_text else error_text e
  end.

Fixpoint firstNonEmpty (vals : list string) : string :=
  match vals with
  | [] => ""
  | v :: vals => if String.eqb v "" then firstNonEmpty vals else v
  end.
Definition modeEndpoint (w : WalletConfig) (mode : string) : string :=
  if String.eqb mode WalletModeXSWD
  then (if String.eqb (XSWDEndpoint w) "" then DefaultXSWDEndpoint else XSWDEndpoint w)
  else wal_Endpoint w.

(** Settings written to the configuration. *)
Definition persisted (c : ClientConfig) (spec : WalletConnectSpec) (mode : string) : ClientConfig :=
  let w := ClientConfig.Wallet c in
  let app := if String.eqb (sp_AppName spec) "" then ClientConfig.AppName w else sp_AppName spec in
  let w := if String.eqb mode WalletModeRPC then
      mkWalletConfig mode
        (if String.eqb (sp_Endpoint spec) "" then wal_Endpoint w else sp_Endpoint spec)
        (wal_Name w) (sp_User spec)
        (if String.eqb (sp_Password spec) "" || String.eqb (sp_Password spec) "***" then Password w
         else sp_Password spec)
        (XSWDEndpoint w) app
    else if String.eqb mode WalletModeXSWD then
      mkWalletConfig mode (wal_Endpoint w) (wal_Name w) (User w) (Password w)
        (if String.eqb (sp_Endpoint spec) "" then XSWDEndpoint w else sp_Endpoint spec) app
    else mkWalletConfig mode (wal_Endpoint w) (wal_Name w) (User w) (Password w) (XSWDEndpoint w) app in
  set_wallet c w.

(** The outside answers one call asks for: the socket an endpoint gives, the
    outcome of writing the configuration, the clock and its text. *)
Record wallet_io (K : Type) := mkWalletIO {
  wio_dial : string → string → option K;
  wio_save : result ClientConfig.error unit;
  wio_id : string;
  wio_now : time
}.
Arguments mkWalletIO {_}. Arguments wio_dial {_}. Arguments wio_save {_}. Arguments wio_id {_}.
Arguments wio_now {_}.

Section wallet.
Context {G E D R K : Type} `{Engine G, Enforcer E, ClientStore D, WalletClient R, NewWallet R, Socket K}
  `{Sha256, ResultJSON, URL, Unicode, ErrorText (enf_error (E := E)), GoArch}.
Abbreviation Conn := (walletConn R K).
Abbreviation App := (App G E D Conn).
Abbreviation werr := (wallet_error (enf_error (E := E))).

(** The orchestrator and its cached wallet state. *)
Record Client := mkClientApp { app : App; walletState : WalletStatus }.
Implicit Types (c : Client) (w : Conn).

Definition set_app_wallet (a : App) (w : option Conn) : App :=
  mkApp (cfg a) (store a) (engine a) (nodes a) (node a) (connID a) (sess a) (circuit a)
    (pendingApproval a) w (enforcer a) (published a).
Definition with_wallet c (w : option Conn) : Client := mkClientApp (set_app_wallet (app c) w) (walletState c).
Definition with_state c (s : WalletStatus) : Client := mkClientApp (app c) s.
Definition with_app c (a : App) : Client := mkClientApp a (walletState c).

Definition App_WalletStatus c : WalletStatus :=
  let s := walletState c in
  let network := dero_Network (ClientConfig.Dero (cfg (app c))) in
  match wallet (app c) with
  | None =>
    let mode := wal_Mode (ClientConfig.Wallet (cfg (app c))) in
    mkWalletStatus (if String.eqb mode "" then WalletModeNone else mode) false "" "" f0 f0 network
      (ws_Error s) (CheckedAt s)
  | Some w =>
    mkWalletStatus (wc_mode w)
      (match xswd w with
       | Some x => if String.eqb (wc_mode w) WalletModeXSWD then Xswd.Connected x else true
       | None => true
       end) (wc_endpoint w) (ws_Address s) (BalanceDero s) (UnlockedDero s) network (ws_Error s) (CheckedAt s)
  end.

(** Address and balance; a wallet may withhold the balance alone. *)
Definition probeWallet (w : Conn) (network : string) (now : time) : Conn * result werr WalletStatus :=
  let st addr bal err :=
    mkWalletStatus (wc_mode w) true (wc_endpoint w) addr (FromAtomic (wrap_i64 (bal_Balance bal)))
      (FromAtomic (wrap_i64 (UnlockedBalance bal))) network err now in
  match rpc w, xswd w with
  | Some r, _ =>
    let with_rpc r := mkConn (wc_mode w) (wc_endpoint w) (Some r) (xswd w) in
    match Dero.GetAddress r with
    | (r, Err e) => (with_rpc r, Err (WErrRPC e))
    | (r, Ok addr) =>
      match Dero.GetBalance r with
      | (r, Err e) => (with_rpc r, Err (WErrRPC e))
      | (r, Ok bal) => (with_rpc r, Ok (st addr bal ""))
      end
    end
  | None, Some x =>
    let with_xswd x := mkConn (wc_mode w) (wc_endpoint w) None (Some x) in
    match Xswd.GetAddress x Waits with
    | (x, Err e) => (with_xswd x, Err (WErrXSWD e))
    | (x, Ok addr) =>
      match Xswd.GetBalance x Waits with
      | (x, Err e) =>
        (with_xswd x,
         if Xswd.is_denied e
         then Ok (mkWalletStatus (wc_mode w) true (wc_endpoint w) addr f0 f0 network
                    "wallet did not share the balance (address only)" now)
         else Err (WErrXSWD e))
      | (x, Ok bal) => (with_xswd x, Ok (st addr bal ""))
      end
    end
  | None, None => (w, Err WErrTransport)
  end.

Definition app_network c : string := dero_Network (ClientConfig.Dero (cfg (app c))).

(** The new state of the client; [App_WalletStatus] of it is the answer. *)
Definition RefreshWallet c (now : time) : Client :=
  match wallet (app c) with
  | None => c
  | Some w =>
    let '(w, r) := probeWallet w (app_network c) now in
    let s := walletState c in
    with_state (with_wallet c (Some w))
      (match r with
       | Err e => mkWalletStatus (ws_Mode s) (ws_Connected s) (ws_Endpoint s) (ws_Address s) (BalanceDero s)
                    (UnlockedDero s) (ws_Network s) (walletErrorText e) now
       | Ok st => st
       end)
  end.

Definition closeWallet (w : option Conn) : result werr unit :=
  match w with
  | Some w => match xswd w with
              | Some x => result_map_err WErrXSWD (Xswd.Close x).2
              | None => Ok tt
              end
  | None => Ok tt
  end.

(** [App.Close]: the wallet is released, whatever closing it answers, and the
    database is closed; the engine and the protection are left as they are.
    [db]: the outcome of closing the database. *)
Definition App_Close c (db : result string unit) : Client * result string unit :=
  (with_wallet c None, db).

Definition DisconnectWallet c (now : time) : Client * result werr unit :=
  let old := wallet (app c) in
  let c := with_state (with_wallet c None) (mkWalletStatus WalletModeNone false "" "" f0 f0 "" "" now) in
  match old with
  | None => (c, Ok tt)
  | Some _ => (with_app c (publish (app c) [DERO_DISCONNECTED "wallet"]), closeWallet old)
  end.

Definition persistWallet c (spec : WalletConnectSpec) (mode : string) (save : result ClientConfig.error unit)
  : Client * result werr unit :=
  let '(a, r) := UpdateConfig (app c) (persisted (cfg (app c)) spec mode) save in
  (with_app c a, result_map_err WErrApp r).

Definition dialWalletRPC (endpoint user pass : string) : result werr Conn :=
  if String.eqb endpoint "" then Err WErrEndpoint
  else if negb (strings_HasPrefix endpoint "http://") && negb (strings_HasPrefix endpoint "https://")
  then Err WErrScheme
  else Ok (mkConn WalletModeRPC endpoint (Some (NewWalletClientAuth endpoint user pass)) None).

Definition dialWalletXSWD (endpoint appName : string) (dial : string → string → option K) : result werr Conn :=
  let xc := NewXSWDConfig endpoint appName in
  match Xswd.Connect NewXSWDClient xc dial Waits with
  | (_, Err e) => Err (WErrXSWD e)
  | (x, Ok _) => Ok (mkConn WalletModeXSWD (cfg_Endpoint xc) None (Some x))
  end.

(** What a failed connection leaves in the cached state. *)
Definition failed_status (mode endpoint : string) (e : werr) (now : time) : WalletStatus :=
  mkWalletStatus mode false endpoint "" f0 f0 "" (walletErrorText e) now.

Definition connect_mode (spec : WalletConnectSpec) : string :=
  let m := strings_ToUpper (strings_TrimSpace (sp_Mode spec)) in
  if String.eqb m "" then WalletModeNone else m.

(** Blank fields fall back to what is configured. *)
Definition filled (cur : WalletConfig) (spec : WalletConnectSpec) (mode : string) : WalletConnectSpec :=
  mkSpec (sp_Mode spec) (firstNonEmpty [sp_Endpoint spec; modeEndpoint cur mode])
    (firstNonEmpty [sp_User spec; User cur])
    (if String.eqb (sp_Password spec) "" || String.eqb (sp_Password spec) "***" then Password cur
     else sp_Password spec)
    (firstNonEmpty [sp_AppName spec; ClientConfig.AppName cur; "VeilNet"]) (Persist spec).

Definition dial_wallet (mode : string) (spec : WalletConnectSpec) (dial : string → string → option K)
  : result werr Conn :=
  if String.eqb mode WalletModeRPC then dialWalletRPC (sp_Endpoint spec) (sp_User spec) (sp_Password spec)
  else if String.eqb mode WalletModeXSWD then dialWalletXSWD (sp_Endpoint spec) (sp_AppName spec) dial
  else Err (WErrMode mode).

Definition ConnectWallet c (spec : WalletConnectSpec) (i : wallet_io K) : Client * result werr unit :=
  let now := wio_now i in
  let mode := connect_mode spec in
  if String.eqb mode WalletModeNone then
    match DisconnectWallet c now with
    | (c, Err e) => (c, Err e)
    | (c, Ok _) => if Persist spec then persistWallet c spec mode (wio_save i) else (c, Ok tt)
    end
  else
    let spec := filled (ClientConfig.Wallet (cfg (app c))) spec mode in
    match dial_wallet mode spec (wio_dial i) with
    | Err e => (with_state c (failed_status mode (sp_Endpoint spec) e now), Err e)
    | Ok w =>
      match probeWallet w (app_network c) now with
      | (_, Err e) => (with_state c (failed_status mode (sp_Endpoint spec) e now), Err e)
      | (w, Ok st) =>
        let c := with_state (with_wallet c (Some w)) st in
        let done c := (with_app c (publish (app c) [DERO_CONNECTED ("wallet:" +:+ mode)]), Ok tt) in
        if Persist spec then
          match persistWallet c spec mode (wio_save i) with
          | (c, Err e) => (c, Err e)
          | (c, Ok _) => done c
          end
        else done c
      end
    end.

(** Only a saved RPC wallet is reconnected at startup. *)
Definition AutoConnectWallet c (i : wallet_io K) : Client :=
  let w := ClientConfig.Wallet (cfg (app c)) in
  if negb (String.eqb (wal_Mode w) WalletModeRPC) || String.eqb (wal_Endpoint w) "" then c
  else (ConnectWallet c (mkSpec WalletModeRPC (wal_Endpoint w) (User w) (Password w) "" false) i).1.

(** ** Spending *)

Definition submit (w : Conn) (dest : string) (atomic : Z) (network : string) : Conn * result werr string :=
  match xswd w, rpc w with
  | Some x, _ =>
    let '(x, r) := Xswd.RequestTransfer x dest atomic Waits in
    (mkConn (wc_mode w) (wc_endpoint w) (rpc w) (Some x), result_map_err WErrXSWD r)
  | None, Some r =>
    match BuildTransfer (mkTransferRequest dest atomic) network with
    | Err e => (w, Err (WErrRPC e))
    | Ok u =>
      let '(r, x) := SubmitTransfer r u in
      (mkConn (wc_mode w) (wc_endpoint w) (Some r) None, result_map_err WErrRPC x)
    end
  | None, None => (w, Err WErrTransport)
  end.

(** The transfer's id and an error can both be there: when the receipt cannot
    be saved. *)
Definition PayApproved c (dest : string) (amountDero : float64) (i : wallet_io K)
  : Client * (string * result werr unit) :=
  let fail e := (c, ("", Err e)) in
  let maxPerHour := MaxPerHourDero (Payments (cfg (app c))) in
  if String.eqb dest "" then fail WErrDestination
  else if f_le amountDero f0 then fail WErrAmount
  else match wallet (app c) with
  | None => fail WErrNoWallet
  | Some w =>
    if negb (pendingApproval (app c)) then fail WErrNotPending
    else if f_gt maxPerHour f0 && f_gt amountDero maxPerHour then fail WErrCap
    else
      let atomic := ToAtomic amountDero in
      if atomic <=? 0 then fail WErrRounds
      else match submit w dest atomic (app_network c) with
      | (w, Err e) => (with_wallet c (Some w), ("", Err e))
      | (w, Ok txid) =>
        let c := with_wallet c (Some w) in
        match ConfirmPayment (app c) amountDero txid (wio_id i) (wio_now i) with
        | (a, Err e) => (with_app c a, (txid, Err (WErrApp e)))
        | (a, Ok _) => (RefreshWallet (with_app c a) (wio_now i), (txid, Ok tt))
        end
      end
  end.

(** Everything a client does with its wallet; a dial opens [fresh] sockets. *)
Inductive step (fresh : K → Prop) : Client → Client → Prop :=
| step_refresh c now : step fresh c (RefreshWallet c now)
| step_disconnect c now : step fresh c (DisconnectWallet c now).1
| step_connect c spec i : (∀ e o k, wio_dial i e o = Some k → fresh k) →
    step fresh c (ConnectWallet c spec i).1
| step_auto c i : (∀ e o k, wio_dial i e o = Some k → fresh k) → step fresh c (AutoConnectWallet c i)
| step_request c : step fresh c (with_app c (RequestPaymentApproval (app c)))
| step_pay c dest amount i : step fresh c (PayApproved c dest amount i).1
| step_close c db : step fresh c (App_Close c db).1.
End wallet.

(** ** What a wallet has been asked to send *)

Definition frame_transfer (f : frame) : option (string * Z) :=
  match f with Request _ _ (TransferParams dest amount _) => Some (dest, amount) | _ => None end.
Definition ledger_transfer (s : submission) : option (string * Z) :=
  match s with Transfer u => Some (ut_Destination u, ut_AmountAtomic u) | Invoke _ => None end.

Definition transfers {R K} `{WalletClient R, SocketLaws K} (w : walletConn R K) : list (string * Z) :=
  match xswd w, rpc w with
  | Some x, _ => match conn x with Some k => omap frame_transfer (ws_sent k) | None => [] end
  | None, Some r => omap ledger_transfer (ledger r)
  | None, None => []
  end.

Section wallet_proofs.
Context {G E D R K : Type} `{Engine G, Enforcer E, ClientStore D, HR : WalletClient R, !WalletLaws R,
  NewWallet R, HK : Socket K, !SocketLaws K}
  `{Sha256, ResultJSON, URL, Unicode, ErrorText (enf_error (E := E)), GoArch}.
Abbreviation Conn := (walletConn R K).
Abbreviation Client := (Client (G := G) (E := E) (D := D) (R := R) (K := K)).
Implicit Types (c : Client) (w : Conn).

Definition spent c : list (string * Z) :=
  match wallet (app c) with Some w => transfers w | None => [] end.

(** A call over the bridge other than a transfer asks for none. *)
Lemma bridge_call {A} (x x' : XSWDClient K) method params (zero : A) decode r :
  frame_transfer (Request 0 method params) = None →
  Call x method params zero decode Waits = (x', r) →
  match conn x', conn x with
  | Some k', Some k => omap frame_transfer (ws_sent k') = omap frame_transfer (ws_sent k)
  | None, None => True
  | _, _ => False
  end.
Proof.
  intros Hf Hc. destruct (conn x) as [k|] eqn:Hk.
  - destruct (call_called _ _ _ _ _ _ _ _ _ Hk Hc) as (k' & -> & _ & [[-> |[-> _]] _ _]); [|done].
    rewrite omap_app. cbn. cbn in Hf. rewrite Hf. by rewrite app_nil_r.
  - unfold Call in Hc. rewrite Hk in Hc. injection Hc as <- _. by rewrite Hk.
Qed.

Lemma probe_transfers w net now : transfers (probeWallet w net now).1 = transfers w.
Proof.
  destruct w as [m e [r|] x]; unfold probeWallet, transfers; cbn [rpc xswd wc_mode wc_endpoint].
  - pose proof (address_no_spend r) as Ha. destruct (Dero.GetAddress r) as [r1 [addr|er]]; cbn [fst] in *.
    + pose proof (balance_no_spend r1) as Hb. destruct (Dero.GetBalance r1) as [r2 [bal|er]]; cbn in *;
        destruct x; [done| |done|]; by rewrite Hb, Ha.
    + cbn. destruct x; [done|]. by rewrite Ha.
  - destruct x as [x|]; [|done].
    destruct (Xswd.GetAddress x Waits) as [x1 ra] eqn:Ea. pose proof (bridge_call x x1 "GetAddress" NoParams "" decode_address ra eq_refl Ea) as Ha.
    destruct ra as [addr|er]; cbn.
    + destruct (Xswd.GetBalance x1 Waits) as [x2 rb] eqn:Eb.
      pose proof (bridge_call x1 x2 "GetBalance" NoParams (mkBalance 0 0) decode_balance rb eq_refl Eb) as Hb.
      destruct rb as [bal|er]; cbn; destruct (conn x2), (conn x1), (conn x); try done; by rewrite Hb.
    + by destruct (conn x1), (conn x).
Qed.

(** One payment submits at most the transfer it was asked for. *)
Lemma submit_transfers w dest atomic net w' r : dest ≠ "" → atomic ≠ 0 →
  submit w dest atomic net = (w', r) →
  (transfers w' = transfers w ∨ transfers w' = transfers w ++ [(dest, atomic)])
  ∧ ∀ tx, r = Ok tx → transfers w' = transfers w ++ [(dest, atomic)].
Proof.
  intros Hd Hz. destruct w as [m e r0 x]; unfold submit, transfers; cbn [rpc xswd wc_mode wc_endpoint].
  destruct x as [x|].
  - unfold Xswd.RequestTransfer. rewrite (proj2 (String.eqb_neq _ _) Hd), (proj2 (Z.eqb_neq _ _) Hz).
    destruct (Call x "transfer" _ _ _ _) as [x' rx] eqn:Ex. intros [= <- <-]. cbn.
    destruct (conn x) as [k|] eqn:Hk.
    + destruct (call_called _ _ _ _ _ _ _ _ _ Hk Ex) as (k' & -> & _ & [Hs _ Ho]). split.
      * destruct Hs as [-> |[-> _]]; [right; by rewrite omap_app|by left].
      * intros tx Htx. destruct rx as [v|]; [|done]. destruct (Ho v eq_refl) as (_ & _ & _ & -> & _).
        by rewrite omap_app.
    + unfold Call in Ex. rewrite Hk in Ex. injection Ex as <- <-. rewrite Hk. split; [by left|done].
  - destruct r0 as [r0|]; [|intros [= <- <-]; split; [by left|done]].
    destruct (BuildTransfer _ _) as [u|er] eqn:Eu; [|intros [= <- <-]; split; [by left|done]].
    apply build_transfer_ok in Eu as (-> & _ & _). set (u := mkUnsignedTransfer _ _ _).
    pose proof (transfer_at_most r0 u) as Hm. pose proof (transfer_ok r0 u) as Ho.
    destruct (SubmitTransfer r0 u) as [r1 x]. cbn [fst snd] in *. intros [= <- <-]. cbn. split.
    + destruct Hm as [-> | ->]; [by left|right; by rewrite omap_app].
    + intros tx Htx. destruct x as [v|]; [|done]. rewrite (Ho v eq_refl). by rewrite omap_app.
Qed.

Lemma refresh_spent c now : spent (RefreshWallet c now) = spent c
  ∧ pendingApproval (app (RefreshWallet c now)) = pendingApproval (app c).
Proof.
  unfold RefreshWallet. destruct (wallet (app c)) as [w|] eqn:Ew; [|done].
  pose proof (probe_transfers w (app_network c) now) as Hp.
  destruct (probeWallet w _ now) as [w' r]. cbn in *. unfold spent. cbn. by rewrite Ew.
Qed.

Lemma confirm_wallet (a a' : App.App G E D Conn) amount txid id now r :
  ConfirmPayment a amount txid id now = (a', r) → wallet a' = wallet a ∧ pendingApproval a' = false.
Proof.
  unfold ConfirmPayment. by destruct (SaveReceipt _ _) as [st [[]|x]]; intros [= <- <-].
Qed.

(** What a payment does, by its answer. *)
Record paid c c' (dest : string) (amount : float64) (r : result (wallet_error (enf_error (E := E))) unit)
  : Prop := {
  pd_spent : spent c' = spent c ∨ spent c' = spent c ++ [(dest, ToAtomic amount)];
  pd_guard : spent c' ≠ spent c ∨ r = Ok tt → pendingApproval (app c) = true ∧ dest ≠ ""
    ∧ 0 < ToAtomic amount
    ∧ (let cap := MaxPerHourDero (Payments (cfg (app c))) in f_gt cap f0 = true → f_gt amount cap = false);
  pd_ok : r = Ok tt → spent c' = spent c ++ [(dest, ToAtomic amount)] ∧ pendingApproval (app c') = false
}.

Lemma pay_paid c dest amount i c' tx r : PayApproved c dest amount i = (c', (tx, r)) → paid c c' dest amount r.
Proof.
  assert (∀ e, c' = c → r = Err e → paid c c' dest amount r) as Hsame.
  { intros e -> ->. split; [by left|intros [?|?]; done|done]. }
  unfold PayApproved. destruct (String.eqb_spec dest "") as [Hd|Hd]; [intros [= <- _ <-]; by eapply Hsame|].
  destruct (f_le amount f0); [intros [= <- _ <-]; by eapply Hsame|].
  destruct (wallet (app c)) as [w|] eqn:Ew; [|intros [= <- _ <-]; by eapply Hsame].
  destruct (pendingApproval (app c)) eqn:Ep; [|intros [= <- _ <-]; by eapply Hsame]. cbn [negb].
  destruct (f_gt _ f0 && f_gt amount _) eqn:Ecap; [intros [= <- _ <-]; by eapply Hsame|].
  destruct (Z.leb_spec (ToAtomic amount) 0) as [Hz|Hz]; [intros [= <- _ <-]; by eapply Hsame|].
  destruct (submit w dest _ _) as [w' rs] eqn:Es.
  apply submit_transfers in Es as [Hm Ho]; [|done|lia].
  assert (let cap := MaxPerHourDero (Payments (cfg (app c))) in f_gt cap f0 = true → f_gt amount cap = false)
    as Hcap by (cbn; intros Hx; by rewrite Hx in Ecap).
  assert (spent c = transfers w) as Hc by (unfold spent; by rewrite Ew).
  destruct rs as [txid|e].
  - specialize (Ho txid eq_refl).
    destruct (ConfirmPayment _ amount txid _ _) as [a [[]|e]] eqn:Ea; apply confirm_wallet in Ea as [Hw Hp];
      cbn in Hw.
    + intros [= <- _ <-]. destruct (refresh_spent (with_app (with_wallet c (Some w')) a) (wio_now i)) as [Hs Hq].
      assert (spent (RefreshWallet (with_app (with_wallet c (Some w')) a) (wio_now i))
        = spent c ++ [(dest, ToAtomic amount)]) as Hfin
        by (rewrite Hs, Hc; unfold spent; cbn; rewrite Hw; exact Ho).
      split; [by right|done|]. intros _. split; [done|]. rewrite Hq. exact Hp.
    + intros [= <- _ <-]. split; [|done|done]. right. rewrite Hc. unfold spent. cbn. by rewrite Hw.
  - intros [= <- _ <-]. split; [|done|done]. by rewrite Hc.
Qed.

(** Connecting: the wallet stays, or is a new one that was asked for nothing. *)
Section connecting.
Hypothesis new_rpc : ∀ e u p, ledger (NewWalletClientAuth (R := R) e u p) = [].
Definition fresh_socket (k : K) : Prop := ws_sent k = [] ∧ ws_read k = [].

Lemma dial_transfers mode spec dial w : (∀ e o k, dial e o = Some k → fresh_socket k) →
  dial_wallet (E := E) mode spec dial = Ok w → transfers w = [].
Proof.
  intros Hd. unfold dial_wallet, dialWalletRPC, dialWalletXSWD. destruct (String.eqb mode _).
  { destruct (String.eqb _ ""); [done|]. destruct (_ && _); [done|]. intros [= <-].
    unfold transfers. cbn. by rewrite new_rpc. }
  destruct (String.eqb mode _); [|done].
  destruct (Xswd.Connect _ _ _ _) as [x [[]|e]] eqn:Ex; [|done]. intros [= <-].
  apply connect_cases in Ex; [|exact Hd]. destruct Ex as (_ & k & rep & Hk & Hs & _).
  unfold transfers. cbn. by rewrite Hk, Hs.
Qed.

Lemma persist_spent c spec mode save : spent (persistWallet c spec mode save).1 = spent c.
Proof.
  unfold persistWallet, UpdateConfig. destruct (Validate _); [|done]. by destruct save.
Qed.

Lemma connect_spent c spec i : (∀ e o k, wio_dial i e o = Some k → fresh_socket k) →
  spent (ConnectWallet c spec i).1 = spent c ∨ spent (ConnectWallet c spec i).1 = [].
Proof.
  intros Hd. unfold ConnectWallet. destruct (String.eqb _ _).
  { unfold DisconnectWallet. right. destruct (wallet (app c)) as [w|].
    - destruct (closeWallet _); [|done]. destruct (Persist spec); [|done]. by rewrite persist_spent.
    - destruct (Persist spec); [|done]. by rewrite persist_spent. }
  destruct (dial_wallet _ _ _) as [w|e] eqn:Ew; [|by left]. apply dial_transfers in Ew; [|done].
  pose proof (probe_transfers w (app_network c) (wio_now i)) as Hp.
  destruct (probeWallet w _ _) as [w' [st|e]]; [|by left]. cbn in Hp. right.
  assert (spent (with_state (with_wallet c (Some w')) st) = []) as Hz by (unfold spent; cbn; by rewrite Hp).
  destruct (Persist _); [|exact Hz].
  pose proof (persist_spent (with_state (with_wallet c (Some w')) st)
    (filled (ClientConfig.Wallet (cfg (app c))) spec (connect_mode spec)) (connect_mode spec) (wio_save i)) as Hq.
  destruct (persistWallet _ _ _ _) as [c2 [[]|e]]; cbn in *; by rewrite Hz in Hq.
Qed.
End connecting.
End wallet_proofs.

(** ** Witness data *)

#[local] Existing Instances App.demo_engine App.demo_store App.demo_os_enforcer.
#[local] Existing Instances Xswd.script_socket Xswd.script_laws Xswd.text_json Xswd.one_url.
#[local] Existing Instances toy_sha256 ascii_unicode amd64.
#[local] Instance plain_texts : ErrorText (enf_error (E := osEnforcer machine)) := {
  error_text e := match e with
                  | WErrRPC ErrCredentials => "dero: wallet requires rpc-login credentials"
                  | _ => "error"
                  end }.
(** A wallet daemon that shows its credentials as its address and answers from
    the second transfer on. *)
#[local] Instance daemon : NewWallet HTTPWalletClient := {
  NewWalletClientAuth e u p := mkHTTPWallet [] (Ok (mkBalance 900000 900000)) (Ok (e +:+ " " +:+ u +:+ " " +:+ p))
    (fun sent _ => match sent with [] => ReplyLost ErrDeroUnavailable | _ => Dero.Accepted "tx" end)
    (fun _ _ => Refused ErrDeroUnavailable) }.

Abbreviation DemoClient := (Client (G := bool) (E := osEnforcer machine) (D := list string)
  (R := HTTPWalletClient) (K := script)).
Definition demo_wallet_app : App.App bool (osEnforcer machine) (list string) (walletConn HTTPWalletClient script) :=
  New DefaultClientConfig [] (Some false) (Ok demo_nodes).
Definition demo_client : DemoClient := mkClientApp demo_wallet_app no_status.
Definition wallet_dials (l : list (option xswdReply)) : wallet_io script :=
  mkWalletIO (fun _ _ => Some (mkScript [] [] l)) (Ok tt) "id" 1000.
Definition connected_by (mode endpoint : string) (l : list (option xswdReply)) : DemoClient :=
  (ConnectWallet demo_client (mkSpec mode endpoint "veil" "s3cret" "" false) (wallet_dials l)).1.
Definition approved (c : DemoClient) : DemoClient := with_app c (RequestPaymentApproval (app c)).
Definition bridge_client : DemoClient := approved
  (connected_by "xswd" "" [yes ""; yes "dero1"; yes "{}"; yes "tx-9"; yes "dero1"; yes "{}"]).
Definition rpc_client : DemoClient := approved (connected_by "rpc" "http://127.0.0.1:10103" []).
Definition pay (c : DemoClient) (amount : float64) : DemoClient * (string * result _ unit) :=
  PayApproved c "dero1dest" amount (wallet_dials []).

(** ** Properties *)

(** C17: no DERO moves without approval.  A payment, over either transport and
    with any answers of the wallet, asks for at most one transfer, of this
    amount in atomic units to this destination; if it asks for one, an approval
    was pending, the destination is named, the amount is positive and within
    the configured cap.  When it succeeds, exactly that transfer was asked for
    and the approval is used up. *)
Theorem payment_needs_approval {G E D R K} `{Engine G, Enforcer E, ClientStore D, WalletClient R, !WalletLaws R,
    NewWallet R, Socket K, !SocketLaws K} `{Sha256, ResultJSON, URL, Unicode, ErrorText (enf_error (E := E)), GoArch}
  (c c' : Client (G := G) (E := E) (D := D) (R := R) (K := K)) dest amount i tx r :
  PayApproved c dest amount i = (c', (tx, r)) → paid c c' dest amount r.
Proof. apply pay_paid. Qed.

(** nothing but a payment spends.  With sockets and RPC clients that are
    new when they are opened: connecting, reconnecting at startup, refreshing,
    dropping the wallet, closing the application and asking for approval add no transfer to what the
    current wallet was asked for; a payment adds at most its own, and only with
    an approval pending. *)
Theorem only_payments_spend {G E D R K} `{Engine G, Enforcer E, ClientStore D, WalletClient R, !WalletLaws R,
    NewWallet R, Socket K, !SocketLaws K} `{Sha256, ResultJSON, URL, Unicode, ErrorText (enf_error (E := E)), GoArch}
  (c c' : Client (G := G) (E := E) (D := D) (R := R) (K := K)) :
  (∀ e u p, ledger (NewWalletClientAuth (R := R) e u p) = []) → step fresh_socket c c' →
  spent c' = spent c ∨ spent c' = []
  ∨ pendingApproval (app c) = true ∧ ∃ dest amount, spent c' = spent c ++ [(dest, ToAtomic amount)].
Proof.
  intros Hn [c0 now|c0 now|c0 spec i Hd|c0 i Hd|c0|c0 dest amount i|c0 db].
  - left. apply refresh_spent.
  - right. left. unfold DisconnectWallet. by destruct (wallet (app c0)).
  - destruct (connect_spent Hn c0 spec i Hd); auto.
  - unfold AutoConnectWallet. destruct (_ || _); [by left|].
    destruct (connect_spent Hn c0 (mkSpec WalletModeRPC (wal_Endpoint (ClientConfig.Wallet (cfg (app c0))))
      (User (ClientConfig.Wallet (cfg (app c0)))) (Password (ClientConfig.Wallet (cfg (app c0)))) "" false) i Hd); auto.
  - by left.
  - destruct (PayApproved c0 dest amount i) as [c1 [tx r]] eqn:Ep. apply pay_paid in Ep as [Hs Hg _]. cbn.
    destruct Hs as [Hs|Hs]; [by left|]. right. right. split; [|by exists dest, amount].
    apply Hg. left. rewrite Hs. intros Hx. apply (f_equal length) in Hx. rewrite length_app in Hx. cbn in Hx. lia.
  - by right; left.
Qed.

(** ** Witnesses *)

Definition paid_client : DemoClient := (pay bridge_client f1).1.

Lemma payment_needs_approval_witness :
  spent bridge_client = [] ∧ spent paid_client = [("dero1dest", 100000)]
  ∧ pendingApproval (app paid_client) = false.
Proof.
  assert (PayApproved bridge_client "dero1dest" f1 (wallet_dials []) = (paid_client, ("tx-9", Ok tt))) as Hp
    by (vm_compute; reflexivity).
  apply payment_needs_approval in Hp. destruct (pd_ok _ _ _ _ _ Hp eq_refl) as [Hs Hq].
  assert (spent bridge_client = []) as Hz by (vm_compute; reflexivity).
  assert (ToAtomic f1 = 100000) as Ha by (vm_compute; reflexivity). rewrite Hz, Ha in Hs.
  split; [exact Hz|]. split; [exact Hs|exact Hq].
Defined.

Definition bridged : DemoClient :=
  (ConnectWallet demo_client (mkSpec "xswd" "" "" "" "" false) (wallet_dials [yes ""; yes "a"; yes "b"])).1.

Lemma only_payments_spend_witness : spent bridged = [].
Proof.
  assert (∀ e u p, ledger (NewWalletClientAuth (R := HTTPWalletClient) e u p) = []) as Hn by (intros; reflexivity).
  assert (step fresh_socket demo_client bridged) as Hs
    by (apply step_connect; intros e o k [= <-]; split; reflexivity).
  assert (spent demo_client = [] ∧ pendingApproval (app demo_client) = false) as [Hz Hp] by (split; reflexivity).
  destruct (only_payments_spend demo_client bridged Hn Hs) as [Hq|[Hq|[Hq _]]].
  - rewrite Hz in Hq. exact Hq.
  - exact Hq.
  - rewrite Hp in Hq. discriminate Hq.
Defined.

(** ** What the model shows *)

(** An approval outlives a submission whose answer is lost: one approval, two
    transfers. *)
Example lost_reply_pays_twice :
  let r1 := pay rpc_client f1 in
  let r2 := pay r1.1 f1 in
  r1.2.2 = Err (WErrRPC ErrDeroUnavailable) ∧ r2.2 = ("tx", Ok tt)
  ∧ spent r2.1 = [("dero1dest", 100000); ("dero1dest", 100000)].
Proof. vm_compute. split_and!; reflexivity. Qed.

(** The hourly cap is compared with one payment at a time. *)
Example cap_is_per_payment :
  let r1 := pay bridge_client f1 in
  let c := approved r1.1 in
  MaxPerHourDero (Payments (cfg (app c))) = f1
  ∧ spent (PayApproved c "dero1other" f1 (wallet_dials [])).1 = [("dero1dest", 100000); ("dero1other", 100000)].
Proof. vm_compute. split; reflexivity. Qed.

(** The saved password is sent to whatever endpoint a request names when it
    leaves the password blank. *)
Example saved_password_goes_elsewhere :
  let c := (ConnectWallet demo_client (mkSpec "rpc" "http://127.0.0.1:10103" "veil" "s3cret" "" true)
              (wallet_dials [])).1 in
  ws_Address (App_WalletStatus (ConnectWallet c (mkSpec "rpc" "http://203.0.113.66" "" "" "" false)
    (wallet_dials [])).1) = "http://203.0.113.66 veil s3cret".
Proof. vm_compute. reflexivity. Qed.

(** A successful payment may have no transfer id at all. *)
Example paid_without_txid :
  let c := approved (connected_by "xswd" "" [yes ""; yes "dero1"; yes "{}"; yes ""]) in
  (pay c f1).2 = ("", Ok tt).
Proof. vm_compute. reflexivity. Qed.

Example denied_payment_says_so :
  let c := approved (connected_by "xswd" "" [yes ""; yes "dero1"; yes "{}"; no "User rejected"]) in
  (pay c f1).2 = ("", Err (WErrXSWD (ErrDenied "User rejected")))
  ∧ pendingApproval (app (pay c f1).1) = true
  ∧ walletErrorText (X := enf_error (E := osEnforcer machine)) (WErrXSWD (ErrDenied "User rejected")) = refused_text.
Proof. vm_compute. split_and!; reflexivity. Qed.
