(* ===== verification/Service.v ===== *)
(** * Service: the privileged daemon (cmd/veilnet-service/main.go)

    The operations the service answers over [Ipc], as one handler over the
    client of [Wallet] with its circuits, reports and configuration; the start
    of the service; and what holds of it whatever its clients send.  The JSON
    of the request bodies and of the replies, and the messages of errors, are
    interfaces. *)

From Stdlib Require Import ZArith Lia.
From S2P Require Import Prelude Float64 GoStrings NetIP GoText Crypto.
From S2P Require Import Tunnel.
From S2P Require Import EngineAdapter.
From S2P Require Import Dero.
From S2P Require Import Route.
From S2P Require Import Xswd.
From S2P Require Import Ipc.
From S2P Require Import ClientConfig.
From S2P Require Import Enforce.
From S2P Require Import App.
From S2P Require Import Diag.
From S2P Require Import AppCircuit.
From S2P Require Import Wallet.

(** ** Requests and replies *)

(** [json.Unmarshal] into the request of each operation. *)
Class Payloads : Type := {
  un_connect : string → result string string;
  un_config : string → result string ClientConfig;
  un_circuit : string → result string (string * string * bool);
  un_confirm : string → result string (float64 * string);
  un_refresh : string → bool;
  un_spec : string → result string WalletConnectSpec;
  un_pay : string → result string (string * float64)
}.

Inductive reply :=
| RState (s : ConnState) | RNodes (l : list App.NodeInfo) | RDiagnostics (d : Diagnostics)
| RPayment (p : PaymentInfo) | RConfig (c : ClientConfig) | RWallet (w : WalletStatus)
| RPaid (txid : string) (p : PaymentInfo).

Inductive service_error (X : Type) :=
| SErrApp (e : App.error X) | SErrCircuit (e : circuit_error X) | SErrWallet (e : wallet_error X)
| SErrPayload (e : string) | SErrUnknownOp (op : string).
Arguments SErrApp {_}. Arguments SErrCircuit {_}. Arguments SErrWallet {_}.
Arguments SErrPayload {_}. Arguments SErrUnknownOp {_}.

(** What one operation meets outside. *)
Record service_io (K : Type) := mkServiceIO {
  sio_connect : connect_io; sio_wallet : wallet_io K; sio_build : build_io;
  sio_save : result ClientConfig.error unit; sio_id : string; sio_at : time; sio_now : time }.
Arguments mkServiceIO {_}. Arguments sio_connect {_}. Arguments sio_wallet {_}. Arguments sio_build {_}.
Arguments sio_save {_}. Arguments sio_id {_}. Arguments sio_at {_}. Arguments sio_now {_}.

(** A blank or masked secret means the current one. *)
Definition keep_secret (new old : string) : string :=
  if String.eqb new "" || String.eqb new "***" then old else new.
Definition keep_secrets (c cur : ClientConfig) : ClientConfig :=
  let c := set_dero c (set_rpc_password (ClientConfig.Dero c)
                         (keep_secret (RPCPassword (ClientConfig.Dero c)) (RPCPassword (ClientConfig.Dero cur)))) in
  set_wallet c (set_wallet_password (ClientConfig.Wallet c)
                  (keep_secret (Password (ClientConfig.Wallet c)) (Password (ClientConfig.Wallet cur)))).

Section service.
Context {G E D R K : Type} `{Engine G, !EngineReport G, Enforcer E, ClientStore D, WalletClient R, NewWallet R, Socket K}
  `{Sha256, ResultJSON, URL, Unicode, ErrorText (enf_error (E := E)), GoArch, IPv6, NameService, SortSlice, Payloads}.
Context (err_text : enf_error (E := E) → string).
Abbreviation Client := (Client (G := G) (E := E) (D := D) (R := R) (K := K)).
Abbreviation serr := (service_error (enf_error (E := E))).
Implicit Types c : Client.

(** A body that may be missing. *)
Definition optional {A} (un : string → result string A) (zero : A) (payload : string) : result string A :=
  if String.eqb payload "" then Ok zero else un payload.

(** An operation of the orchestrator, then its reply. *)
Definition with_reply {X} (inj : X → serr) c (r : App G E D (walletConn R K) * result X unit)
  (rep : Client → reply) : Client * result serr reply :=
  let '(a, x) := r in
  let c := with_app c a in
  (c, match x with Err e => Err (inj e) | Ok _ => Ok (rep c) end).

Definition state_reply (i : service_io K) c : reply := RState (State (app c) false (sio_now i)).
Definition payment_reply (i : service_io K) c : reply := RPayment (Payment (app c) (sio_now i)).

(** Three units of fuel are enough for two hops ([auto_circuit_facts]): the
    last case is not reached. *)
Definition AutoCircuit_total (a : App G E D (walletConn R K)) (i : service_io K) :=
  match AutoCircuit 3 a (sio_build i) (sio_now i) with Some r => r | None => (a, Err ErrNotSeparable) end.

Definition op_connect c payload (i : service_io K) : Client * result serr reply :=
  match optional un_connect "" payload with
  | Err e => (c, Err (SErrPayload e))
  | Ok id => with_reply SErrApp c (Connect (app c) id (sio_connect i)) (state_reply i)
  end.

Definition op_set_config c payload (i : service_io K) : Client * result serr reply :=
  match un_config payload with
  | Err e => (c, Err (SErrPayload e))
  | Ok new => with_reply SErrApp c (UpdateConfig (app c) (keep_secrets new (cfg (app c))) (sio_save i))
                (fun c => RConfig (Redacted (cfg (app c))))
  end.

Definition op_circuit c payload (i : service_io K) : Client * result serr reply :=
  match optional un_circuit ("", "", false) payload with
  | Err e => (c, Err (SErrPayload e))
  | Ok (entryID, exitID, auto) =>
    if auto || (String.eqb entryID "" && String.eqb exitID "")
    then with_reply SErrCircuit c (AutoCircuit_total (app c) i) (state_reply i)
    else with_reply SErrCircuit c (BuildCircuit (app c) entryID exitID (sio_build i) (sio_now i)) (state_reply i)
  end.

Definition op_confirm c payload (i : service_io K) : Client * result serr reply :=
  match un_confirm payload with
  | Err e => (c, Err (SErrPayload e))
  | Ok (amount, txid) =>
    with_reply SErrApp c (ConfirmPayment (app c) amount txid (sio_id i) (sio_now i)) (payment_reply i)
  end.

Definition op_wallet_status c payload (i : service_io K) : Client * result serr reply :=
  let refresh := if String.eqb payload "" then false else un_refresh payload in
  let c := if refresh then RefreshWallet c (sio_now i) else c in (c, Ok (RWallet (App_WalletStatus c))).

Definition op_wallet_connect c payload (i : service_io K) : Client * result serr reply :=
  match un_spec payload with
  | Err e => (c, Err (SErrPayload e))
  | Ok spec =>
    let '(c, r) := ConnectWallet c spec (sio_wallet i) in
    (c, match r with Err e => Err (SErrWallet e) | Ok _ => Ok (RWallet (App_WalletStatus c)) end)
  end.

Definition op_wallet_disconnect c (i : service_io K) : Client * result serr reply :=
  let '(c, r) := DisconnectWallet c (sio_now i) in
  (c, match r with Err e => Err (SErrWallet e) | Ok _ => Ok (RWallet (App_WalletStatus c)) end).

Definition op_wallet_pay c payload (i : service_io K) : Client * result serr reply :=
  match un_pay payload with
  | Err e => (c, Err (SErrPayload e))
  | Ok (dest, amount) =>
    let '(c, (txid, r)) := PayApproved c dest amount (sio_wallet i) in
    (c, match r with Err e => Err (SErrWallet e) | Ok _ => Ok (RPaid txid (Payment (app c) (sio_now i))) end)
  end.

Definition dispatch c (op payload : string) (i : service_io K) : Client * result serr reply :=
  if String.eqb op OpStatus then (c, Ok (state_reply i c))
  else if String.eqb op OpListNodes then
    (c, match ListNodes (app c) with Err e => Err (SErrApp e) | Ok l => Ok (RNodes l) end)
  else if String.eqb op OpConnect then op_connect c payload i
  else if String.eqb op OpDisconnect then with_reply SErrApp c (Disconnect (app c)) (state_reply i)
  else if String.eqb op OpDiagnostics then
    (c, Ok (RDiagnostics (Diagnose err_text (app c) (sio_at i) (sio_now i))))
  else if String.eqb op OpPayment then (c, Ok (payment_reply i c))
  else if String.eqb op OpGetConfig then (c, Ok (RConfig (Redacted (cfg (app c)))))
  else if String.eqb op OpSetConfig then op_set_config c payload i
  else if String.eqb op OpCircuit then op_circuit c payload i
  else if String.eqb op OpRotate then
    with_reply SErrCircuit c (RotateCircuit (app c) (sio_build i) (sio_now i)) (state_reply i)
  else if String.eqb op OpApprovePayment then
    let c := with_app c (RequestPaymentApproval (app c)) in (c, Ok (payment_reply i c))
  else if String.eqb op OpConfirmPayment then op_confirm c payload i
  else if String.eqb op OpWalletStatus then op_wallet_status c payload i
  else if String.eqb op OpWalletConnect then op_wallet_connect c payload i
  else if String.eqb op OpWalletDisconnect then op_wallet_disconnect c i
  else if String.eqb op OpWalletPay then op_wallet_pay c payload i
  else (c, Err (SErrUnknownOp op)).

(** The handler of the server; [text] is the message of an error. *)
Definition handler (text : serr → string) (i : service_io K) c (op payload : string)
  : Client * result string (option reply) :=
  let '(c, r) := dispatch c op payload i in
  (c, match r with Err e => Err (text e) | Ok rep => Ok (Some rep) end).

(** ** Running *)

(** The start over a node provider: the orchestrator, its enforcer, and the
    clearing of what a crashed run may have left; a problem is only printed.
    The daemon's own provider has no nodes. *)
Definition start_with (ns : result string (list App.NodeInfo)) (config : ClientConfig) (st : D) (g : G) (e : E) : Client :=
  mkClientApp (ClearEnforcement (set_enforcer (New config st (Some g) ns) (Some e))).1 no_status.
Definition start : ClientConfig → D → G → E → Client := start_with (Ok []).

(** One connection served, whatever it sends, or something the machine does
    between two connections: a tick of the watchdog. *)
Inductive serves `{Frames} (marshal : reply → result string string) (text : serr → string) (s : Server)
  (tick : G → G → Prop) : Client → Client → Prop :=
| serve_connection c i input : serves marshal text s tick c (serveConn marshal s (handler text i) c input).1
| serve_tick c g g' : engine (app c) = Some g → tick g g' →
    serves marshal text s tick c (with_app c (set_engine (app c) (Some g'))).
End service.

(** ** What an operation of the orchestrator leaves alone *)

Section frames.
Context {G E D W : Type} `{Engine G, Enforcer E, ClientStore D, IPv6, NameService, SortSlice, Unicode}.
Implicit Types a : App G E D W.

(** The wallet and the approval. *)
Definition purse a : option W * bool := (wallet a, pendingApproval a).

Lemma enforcement_purse a n : purse (applyEnforcement a n).1 = purse a ∧ purse (ClearEnforcement a).1 = purse a
  ∧ purse (stop_engine a).1 = purse a.
Proof.
  unfold applyEnforcement, ClearEnforcement, stop_engine. split_and!.
  - destruct (enforcer a); [|done]. destruct (buildEnforcePlan _ _ _); [|done]. by destruct (enf_Apply _ _).
  - destruct (enforcer a); [|done]. by destruct (enf_Clear _).
  - destruct (engine a); [|done]. by destruct (eng_Stop _).
Qed.

Lemma connect_purse a id i : purse (Connect a id i).1 = purse a.
Proof.
  unfold Connect. destruct (node a); [done|]. destruct (engine a) as [g|]; [|done]. destruct (pick a id) as [n|]; [|done].
  assert (purse (ProbeLatency a n (io_dial i)).1 = purse a) as Hp by (unfold ProbeLatency; by destruct (io_dial i _ _)).
  destruct (ProbeLatency a n (io_dial i)) as [a1 lat]. cbn in Hp. destruct (genPrivateKey _); [|done].
  set (n1 := match lat with Some rtt => set_latency n (ms_of rtt) | None => n end).
  destruct (eng_Start g _) as [g' [[]|x]]; [|done].
  destruct (enforcement_purse (set_engine a1 (Some g')) n1) as (Ha & _).
  destruct (applyEnforcement _ n1) as [a2 [[]|y]]; cbn in Ha.
  - unfold record_connection. destruct (AddConnection _ _). unfold purse in *. cbn in *. congruence.
  - cbn. destruct (enforcement_purse (stop_engine a2).1 n1) as (_ & Hc & _).
    destruct (enforcement_purse a2 n1) as (_ & _ & Hs). unfold purse in *. cbn in *. congruence.
Qed.

Lemma disconnect_purse a : purse (Disconnect a).1 = purse a.
Proof.
  unfold Disconnect. destruct (node a) as [n|]; [|done].
  destruct (match engine a with Some g => eng_Bytes g | None => (0, 0) end) as [rx tx].
  pose proof (proj2 (proj2 (enforcement_purse a n))) as Hs. destruct (stop_engine a) as [a1 [[]|x]]; [|done].
  pose proof (proj1 (proj2 (enforcement_purse a1 n))) as Hc. destruct (ClearEnforcement a1) as [a2 [[]|x]];
    unfold purse in *; cbn in *; congruence.
Qed.

(** Only asking for approval sets it. *)
Lemma app_step_purse a a' : App.step a a' →
  wallet a' = wallet a ∧ (pendingApproval a' = true → pendingApproval a = true ∨ a' = RequestPaymentApproval a).
Proof.
  assert (∀ b, purse b = purse a → wallet b = wallet a ∧ (pendingApproval b = true →
    pendingApproval a = true ∨ b = RequestPaymentApproval a)) as Hp.
  { intros b [= Hw Hb]. split; [done|]. rewrite Hb. by left. }
  intros Hs. destruct Hs as [a id i|a|a reason|a c r|a|a amount txid id now|a n dial].
  - apply Hp, connect_purse.
  - apply Hp, disconnect_purse.
  - apply Hp. unfold FailClosed. destruct (enforcer a); [|done]. by destruct (enf_FailClosed _ _).
  - apply Hp. unfold UpdateConfig. destruct (Validate c); [|done]. by destruct r.
  - split; [done|]. by right.
  - unfold ConfirmPayment. destruct (SaveReceipt _ _) as [st2 [[]|x]]; by split.
  - apply Hp. unfold ProbeLatency. by destruct (dial _ _).
Qed.

Lemma rotate_frame a i now : let a' := (RotateCircuit a i now).1 in
  purse a' = purse a ∧ enforcer a' = enforcer a ∧ sess a' = sess a
  ∧ (engine a' = engine a ∨ ∃ g ep, engine a = Some g ∧ engine a' = Some (eng_RotateEndpoint g ep).1)
  ∧ (is_Some (node a') ↔ is_Some (node a)).
Proof.
  cbn zeta. unfold RotateCircuit. destruct (engine a) as [g|] eqn:Eg; [|by split_and!; auto].
  destruct (ListNodes a); [|by split_and!; auto]. destruct (match node a with None => _ | _ => _ end); [by split_and!; auto|].
  destruct (bestExcept _ _ _ _) as [next|]; [|by split_and!; auto]. destruct (find_nodes _ _); [|by split_and!; auto].
  destruct (routable_path _ _); [|by split_and!; auto].
  destruct (eng_RotateEndpoint g (Endpoint next)) as [g' [[]|x]] eqn:Ex; cbn; split_and!; try done.
  - right. exists g, (Endpoint next). by rewrite Ex.
  - destruct (node a); split; intros [? Hx]; done.
  - right. exists g, (Endpoint next). by rewrite Ex.
Qed.

Lemma auto_frame fuel a n i now a' r : AutoCircuitHops fuel a n i now = Some (a', r) →
  a' = a ∨ ∃ path, a' = setCircuit a path now.
Proof.
  unfold AutoCircuitHops. destruct (String.eqb _ ""); [intros [= <- _]; by left|].
  destruct (findNode a _); [|intros [= <- _]; by left]. destruct (ListNodes a); [|intros [= <- _]; by left].
  destruct (fill_path _ _ _ _ _ _ _); [|done]. destruct (_ && _); [intros [= <- _]; by left|].
  destruct (separate_path _ _ _) as [[p|e]|]; [|intros [= <- _]; by left|done].
  intros [= <- _]. right. by exists p.
Qed.

Lemma build_frame a ids i now : let a' := (BuildCircuitHops a ids i now).1 in
  a' = a ∨ ∃ path, a' = setCircuit a path now.
Proof.
  cbn zeta. unfold BuildCircuitHops. destruct (node a); [|by left]. destruct (_ || _); [by left|].
  destruct (find_nodes a ids) as [path|]; [|by left]. destruct (routable_path path i); [|by left].
  right. by exists path.
Qed.

Lemma circuit_step_purse a a' : AppCircuit.step a a' →
  wallet a' = wallet a ∧ (pendingApproval a' = true → pendingApproval a = true ∨ a' = RequestPaymentApproval a).
Proof.
  assert (∀ b, purse b = purse a → wallet b = wallet a ∧ (pendingApproval b = true →
    pendingApproval a = true ∨ b = RequestPaymentApproval a)) as Hp.
  { intros b [= Hw Hb]. split; [done|]. rewrite Hb. by left. }
  intros Hs. destruct Hs as [a ids i now|fuel a n i now a1 r Hr|a i now|a i now|a|a a1 Hs].
  - apply Hp. by destruct (build_frame a ids i now) as [->|[path ->]].
  - apply Hp. apply auto_frame in Hr as [->|[path ->]]; done.
  - apply Hp, rotate_frame.
  - apply Hp. unfold MaybeAutoRotate. destruct (_ || _); [done|]. destruct (_ <? _); [done|].
    pose proof (proj1 (rotate_frame a i now)) as Hr. by destruct (RotateCircuit a i now) as [a1 [[]|x]].
  - by apply Hp.
  - by apply app_step_purse.
Qed.
End frames.

(** Protection survives every operation on circuits. *)
Section protection.
Context {G E D W : Type} `{EngineLaws G, EnforcerLaws E, ClientStore D, IPv6, NameService, SortSlice, Unicode}.
Implicit Types a : App G E D W.

Lemma protected_frame a a' : enforcer a' = enforcer a → sess a' = sess a → tunnel_up a' = tunnel_up a →
  (is_Some (node a') ↔ is_Some (node a)) → protected a → protected a'.
Proof.
  unfold protected, sound_with, enforced, unenforced. intros -> -> -> Hn. destruct (node a) as [n|], (node a') as [n'|]; try done.
  - by destruct (proj2 Hn (mk_is_Some _ _ eq_refl)).
  - by destruct (proj1 Hn (mk_is_Some _ _ eq_refl)).
Qed.

Lemma protected_step a a' : AppCircuit.step a a' → protected a → protected a'.
Proof.
  assert (∀ a i now, protected a → protected (RotateCircuit a i now).1) as Hrot.
  { intros b i now. destruct (rotate_frame b i now) as (_ & He & Hs & Hg & Hn). apply protected_frame; try done.
    unfold tunnel_up. destruct Hg as [->|(g & ep & -> & ->)]; [done|]. apply rotate_law. }
  intros Hs. destruct Hs as [a ids i now|fuel a n i now a1 r Hr|a i now|a i now|a|a a1 Hs].
  - destruct (build_frame a ids i now) as [->|[path ->]]; [done|]. by apply protected_frame.
  - apply auto_frame in Hr as [->|[path ->]]; [done|]. by apply protected_frame.
  - apply Hrot.
  - unfold MaybeAutoRotate. destruct (_ || _); [done|]. destruct (_ <? _); [done|].
    intros Hp. specialize (Hrot a i now Hp). by destruct (RotateCircuit a i now) as [a1 [[]|x]].
  - by apply protected_frame.
  - apply sound_with_step; [done | exact Hs].
Qed.
End protection.

(** ** What an operation of the service does *)

Section acts.
Context {G E D R K : Type} `{Engine G, !EngineReport G, Enforcer E, ClientStore D, WalletClient R, NewWallet R, Socket K}
  `{Sha256, ResultJSON, URL, Unicode, ErrorText (enf_error (E := E)), GoArch, IPv6, NameService, SortSlice, Payloads}.
Context (err_text : enf_error (E := E) → string).
Abbreviation Client := (Client (G := G) (E := E) (D := D) (R := R) (K := K)).
Implicit Types c : Client.

(** What a payment or a wallet never touches. *)
Definition core (a : App G E D (walletConn R K)) :=
  (node a, sess a, engine a, enforcer a, circuit a, nodes a).

(** The core and the approval, which no operation of the wallet but a payment
    touches. *)
Definition held (a : App G E D (walletConn R K)) := (core a, pendingApproval a).

Lemma refresh_held c now : held (app (RefreshWallet c now)) = held (app c).
Proof. unfold RefreshWallet. destruct (wallet (app c)); [|done]. by destruct (probeWallet _ _ _). Qed.

Lemma disconnect_held c now : held (app (DisconnectWallet c now).1) = held (app c).
Proof. unfold DisconnectWallet. by destruct (wallet (app c)). Qed.

Lemma persist_held c spec mode save : held (app (persistWallet c spec mode save).1) = held (app c).
Proof. unfold persistWallet, UpdateConfig. destruct (Validate _); [|done]. by destruct save. Qed.

Lemma wallet_connect_held c spec i : held (app (ConnectWallet c spec i).1) = held (app c).
Proof.
  unfold ConnectWallet. destruct (String.eqb _ _).
  - pose proof (disconnect_held c (wio_now i)) as Hd. destruct (DisconnectWallet c _) as [c1 [[]|x]]; cbn in Hd; [|done].
    destruct (Persist spec); [|done]. by rewrite persist_held.
  - destruct (dial_wallet _ _ _) as [w|x]; [|done]. destruct (probeWallet w _ _) as [w' [st|x]]; [|done].
    destruct (Persist _); [|done].
    pose proof (persist_held (with_state (with_wallet c (Some w')) st)
      (filled (ClientConfig.Wallet (cfg (app c))) spec (connect_mode spec)) (connect_mode spec) (wio_save i)) as Hp.
    by destruct (persistWallet _ _ _ _) as [c1 [[]|x]].
Qed.

Lemma held_core a b : held b = held a → core b = core a.
Proof. by intros [= ? ? ? ? ? ? _]; unfold core; congruence. Qed.
Lemma held_pending a b : held b = held a → pendingApproval b = pendingApproval a.
Proof. by intros [= _ _ _ _ _ _ ?]. Qed.

Lemma pay_core c dest amount i : core (app (PayApproved c dest amount i).1) = core (app c).
Proof.
  unfold PayApproved. destruct (String.eqb dest ""); [done|]. destruct (f_le _ _); [done|].
  destruct (wallet (app c)); [|done]. destruct (negb _); [done|]. destruct (_ && _); [done|].
  destruct (_ <=? 0); [done|]. destruct (submit _ _ _ _) as [w' [txid|x]]; [|done].
  assert (∀ a : App G E D (walletConn R K), core (ConfirmPayment a amount txid (wio_id i) (wio_now i)).1 = core a) as Hc
    by (intros a; unfold ConfirmPayment; by destruct (SaveReceipt _ _) as [st2 [[]|x]]).
  specialize (Hc (app (with_wallet c (Some w')))).
  destruct (ConfirmPayment _ _ _ _ _) as [a [[]|x]]; cbn [fst] in *; [|done].
  etrans; [apply held_core, refresh_held | done].
Qed.

Lemma pay_pending c dest amount i :
  pendingApproval (app (PayApproved c dest amount i).1) = true → pendingApproval (app c) = true.
Proof.
  unfold PayApproved. destruct (String.eqb dest ""); [done|]. destruct (f_le _ _); [done|].
  destruct (wallet (app c)); [|done]. destruct (negb _); [done|]. destruct (_ && _); [done|].
  destruct (_ <=? 0); [done|]. destruct (submit _ _ _ _) as [w' [txid|x]]; [|done].
  destruct (ConfirmPayment _ _ _ _ _) as [a [[]|x]] eqn:Ec; apply confirm_wallet in Ec as [_ Hp]; cbn [fst].
  - rewrite (held_pending _ _ (refresh_held _ _)). cbn. by rewrite Hp.
  - cbn. by rewrite Hp.
Qed.

(** The orchestrator moves by one of its own steps, or the wallet does. *)
Inductive acts (i : service_io K) c (payload : string) : string → Client → Prop :=
| act_none op : acts i c payload op c
| act_app op a : AppCircuit.step (app c) a →
    op = OpApprovePayment ∨ (pendingApproval a = true → pendingApproval (app c) = true) →
    acts i c payload op (with_app c a)
| act_refresh : acts i c payload OpWalletStatus (RefreshWallet c (sio_now i))
| act_connect spec : un_spec payload = Ok spec →
    acts i c payload OpWalletConnect (ConnectWallet c spec (sio_wallet i)).1
| act_disconnect : acts i c payload OpWalletDisconnect (DisconnectWallet c (sio_now i)).1
| act_pay dest amount : un_pay payload = Ok (dest, amount) →
    acts i c payload OpWalletPay (PayApproved c dest amount (sio_wallet i)).1.

Lemma with_app_id c : with_app c (app c) = c.
Proof. by destruct c. Qed.

Lemma with_reply_act {X} i c payload op (inj : X → service_error (enf_error (E := E)))
  (r : App G E D (walletConn R K) * result X unit) rep :
  AppCircuit.step (app c) r.1 → (pendingApproval r.1 = true → pendingApproval (app c) = true) →
  acts i c payload op (with_reply inj c r rep).1.
Proof. destruct r as [a x]. intros. apply act_app; [done|by right]. Qed.

Lemma purse_pending (a b : App G E D (walletConn R K)) : purse b = purse a →
  pendingApproval b = true → pendingApproval a = true.
Proof. by intros [= _ ->]. Qed.

Lemma auto_total_act (a : App G E D (walletConn R K)) i : let r := AutoCircuit_total a i in
  AutoCircuit 3 a (sio_build i) (sio_now i) = Some r.
Proof.
  cbn zeta. unfold AutoCircuit_total. destruct (auto_circuit_facts a 2 (sio_build i) (sio_now i)) as (a' & r & Hf & _).
  unfold AutoCircuit. by rewrite (Hf 3%nat (le_n 3)).
Qed.

Lemma dispatch_acts c op payload i : acts i c payload op (dispatch err_text c op payload i).1.
Proof.
  unfold dispatch.
  destruct (String.eqb_spec op OpStatus); [apply act_none|].
  destruct (String.eqb_spec op OpListNodes); [apply act_none|].
  destruct (String.eqb_spec op OpConnect).
  { unfold op_connect. destruct (optional _ _ _) as [id|]; [|apply act_none].
    apply with_reply_act; [apply step_app, App.step_connect | apply purse_pending, connect_purse]. }
  destruct (String.eqb_spec op OpDisconnect).
  { apply with_reply_act; [apply step_app, App.step_disconnect | apply purse_pending, disconnect_purse]. }
  destruct (String.eqb_spec op OpDiagnostics); [apply act_none|].
  destruct (String.eqb_spec op OpPayment); [apply act_none|].
  destruct (String.eqb_spec op OpGetConfig); [apply act_none|].
  destruct (String.eqb_spec op OpSetConfig).
  { unfold op_set_config. destruct (un_config payload) as [new|]; [|apply act_none].
    apply with_reply_act; [apply step_app, App.step_config|].
    apply purse_pending. unfold UpdateConfig. destruct (Validate _); [|done]. by destruct (sio_save i). }
  destruct (String.eqb_spec op OpCircuit).
  { unfold op_circuit. destruct (optional _ _ _) as [[[entry exit] auto]|]; [|apply act_none].
    destruct (_ || _).
    - pose proof (auto_total_act (app c) i) as Ha. cbn zeta in Ha.
      destruct (AutoCircuit_total (app c) i) as [a r]. apply with_reply_act; [by eapply AppCircuit.step_auto|].
      apply purse_pending. by apply auto_frame in Ha as [->|[path ->]].
    - apply with_reply_act; [apply step_build|]. apply purse_pending. unfold BuildCircuit.
      by destruct (build_frame (app c) [entry; exit] (sio_build i) (sio_now i)) as [->|[path ->]]. }
  destruct (String.eqb_spec op OpRotate).
  { apply with_reply_act; [apply step_rotate | apply purse_pending, rotate_frame]. }
  destruct (String.eqb_spec op OpApprovePayment).
  { apply act_app; [apply step_app, App.step_approve | by left]. }
  destruct (String.eqb_spec op OpConfirmPayment).
  { unfold op_confirm. destruct (un_confirm payload) as [[amount txid]|]; [|apply act_none].
    apply with_reply_act; [apply step_app, App.step_confirm|].
    unfold ConfirmPayment. by destruct (SaveReceipt _ _) as [st2 [[]|x]]. }
  destruct (String.eqb_spec op OpWalletStatus) as [->|].
  { unfold op_wallet_status. cbn zeta. destruct (if String.eqb payload "" then false else _); [apply act_refresh|apply act_none]. }
  destruct (String.eqb_spec op OpWalletConnect) as [->|].
  { unfold op_wallet_connect. destruct (un_spec payload) as [spec|] eqn:Es; [|apply act_none].
    pose proof (act_connect i c payload spec Es) as Ha. by destruct (ConnectWallet c spec _) as [c1 [[]|x]]. }
  destruct (String.eqb_spec op OpWalletDisconnect) as [->|].
  { unfold op_wallet_disconnect. pose proof (act_disconnect i c payload) as Ha.
    by destruct (DisconnectWallet c _) as [c1 [[]|x]]. }
  destruct (String.eqb_spec op OpWalletPay) as [->|]; [|apply act_none].
  unfold op_wallet_pay. destruct (un_pay payload) as [[dest amount]|] eqn:Es; [|apply act_none].
  pose proof (act_pay i c payload dest amount Es) as Ha. by destruct (PayApproved c _ _ _) as [c1 [tx [[]|x]]].
Qed.
End acts.

(** ** Properties *)

Section service_invariant.
Context {G E D R K : Type} `{EngineLaws G, !EngineReport G, EnforcerLaws E, ClientStore D, HR : WalletClient R, !WalletLaws R,
  NewWallet R, HK : Socket K, !SocketLaws K}
  `{Sha256, ResultJSON, URL, Unicode, ErrorText (enf_error (E := E)), GoArch, IPv6, NameService, SortSlice, Payloads, Frames}.
Context (err_text : enf_error (E := E) → string) (marshal : reply → result string string)
  (text : service_error (enf_error (E := E)) → string) (s : Server) (tick : G → G → Prop).
Abbreviation Client := (Client (G := G) (E := E) (D := D) (R := R) (K := K)).
Implicit Types c : Client.

(** A connection leaves the service as it was, or as one operation leaves it. *)
Lemma serve_cases c i input c' out : serveConn marshal s (handler err_text text i) c input = (c', out) →
  c' = c ∨ ∃ req, input ≫= decode_request = Some req ∧ Token req = s_token s
             ∧ acts i c (Payload req) (Op req) c'.
Proof.
  unfold serveConn, respond. destruct (input ≫= decode_request) as [req|]; [|intros [= <- _]; by left].
  rewrite ConstantTimeCompare_eq. destruct (String.eqb_spec (Token req) (s_token s)) as [Ht|]; cbn [negb];
    [|intros [= <- _]; by left].
  unfold handler. pose proof (dispatch_acts err_text c (Op req) (Payload req) i) as Ha.
  destruct (dispatch err_text c (Op req) (Payload req) i) as [c1 [rep|x]]; cbn [fst] in Ha.
  - intros Hs. right. exists req. split_and!; [done|done|]. by destruct (marshal rep); injection Hs as <- _.
  - intros [= <- _]. right. by exists req.
Qed.

Lemma acts_keep (P : App.App G E D (walletConn R K) → Prop) i c payload op c' :
  (∀ a b, core b = core a → P a → P b) → (∀ a b, AppCircuit.step a b → P a → P b) →
  acts i c payload op c' → P (app c) → P (app c').
Proof.
  intros Hc Hs [op'|op' a Ha _| |spec _| |dest amount _]; [done|cbn; by apply Hs|..]; apply Hc.
  - apply held_core, refresh_held.
  - apply held_core, wallet_connect_held.
  - apply held_core, disconnect_held.
  - apply pay_core.
Qed.

Lemma core_protected (a b : App.App G E D (walletConn R K)) : core b = core a → protected a → protected b.
Proof.
  intros [= Hn Hs Hg He _ _]. unfold protected, sound_with, tunnel_up, enforced, unenforced. by rewrite Hn, Hs, Hg, He.
Qed.

Lemma serves_safe c c' : (∀ g g', tick g g' → running g' = running g) →
  serves err_text marshal text s tick c c' →
  protected (app c) ∧ wf_circuit (circuit (app c)) → protected (app c') ∧ wf_circuit (circuit (app c')).
Proof.
  intros Ht Hs [Hp Hw]. destruct Hs as [c i input|c g g' Hg Hgg].
  - destruct (serveConn marshal s (handler err_text text i) c input) as [c' out] eqn:Es.
    apply serve_cases in Es as [->|(req & _ & _ & Ha)]; [done|]. cbn [fst]. split.
    + eapply (acts_keep protected); [apply core_protected | apply protected_step | exact Ha | exact Hp].
    + eapply (acts_keep (fun a => wf_circuit (circuit a))); [|apply circuit_step | exact Ha | exact Hw].
      by intros a b [= _ _ _ _ -> _].
  - split; [|exact Hw]. cbn. revert Hp. apply protected_frame; try done. unfold tunnel_up. rewrite Hg. cbn. by apply Ht.
Qed.
Lemma runs_safe c c' : (∀ g g', tick g g' → running g' = running g) →
  rtc (serves err_text marshal text s tick) c c' →
  protected (app c) ∧ wf_circuit (circuit (app c)) → protected (app c') ∧ wf_circuit (circuit (app c')).
Proof. intros Ht Hs. induction Hs as [|c1 c2 c3 Hs _ IH]; [done|]. intros Hz. apply IH. by eapply serves_safe. Qed.

Lemma start_safe ns config (st : D) g (e : E) : let a := app (start_with (R := R) (K := K) ns config st g e) in
  protected a ∧ wf_circuit (circuit a).
Proof.
  unfold start_with, ClearEnforcement. cbn [enforcer set_enforcer app]. pose proof (clear_law e) as L.
  destruct (enf_Clear e) as [e' x]. cbn in *. split; [|apply no_circuit_wf].
  unfold protected, sound_with, unenforced. cbn. by rewrite L.
Qed.

Lemma protected_means (a : App.App G E D (walletConn R K)) : protected a →
  match node a with
  | Some _ => (failed_stop_keeps G → tunnel_up a = true)
              ∧ (∀ x, enforcer a = Some x → in_force x = true) ∧ ses_Active (sess a) = true
  | None => sess a = no_session ∧ ∀ x, enforcer a = Some x → in_force x = false
  end.
Proof.
  unfold protected, sound_with, enforced, unenforced.
  destruct (node a); [intros (Hu & Hf & Ha & _)|intros [Hf Hx]];
    split_and!; try done; intros x Hxe; rewrite Hxe in Hf; [done|by apply negb_true_iff].
Qed.
End service_invariant.


(** C18: DERO moves only when a client asks for a payment it has had approved.
    With sockets and RPC clients that are new when they are opened, one
    operation of the service leaves what the wallet was asked to send as it
    was, or drops or replaces the wallet by one that was asked for nothing, or
    is a wallet-pay with a pending approval and adds exactly the transfer its
    body names; and only approve-payment makes an approval pending. *)
Theorem service_spends_on_request {G E D R K} `{Engine G, !EngineReport G, Enforcer E, ClientStore D, HR : WalletClient R,
    !WalletLaws R, NewWallet R, HK : Socket K, !SocketLaws K}
  `{Sha256, ResultJSON, URL, Unicode, ErrorText (enf_error (E := E)), GoArch, IPv6, NameService, SortSlice, Payloads}
  err_text (c c' : Client (G := G) (E := E) (D := D) (R := R) (K := K)) op payload i r :
  (∀ e u p, ledger (NewWalletClientAuth (R := R) e u p) = []) →
  (∀ e o k, wio_dial (sio_wallet i) e o = Some k → fresh_socket k) →
  dispatch err_text c op payload i = (c', r) →
  (spent c' = spent c ∨ spent c' = []
   ∨ op = OpWalletPay ∧ pendingApproval (app c) = true
     ∧ ∃ dest amount, un_pay payload = Ok (dest, amount) ∧ spent c' = spent c ++ [(dest, ToAtomic amount)])
  ∧ (pendingApproval (app c') = true → pendingApproval (app c) = true ∨ op = OpApprovePayment).
Proof.
  intros Hn Hd Hr. pose proof (dispatch_acts err_text c op payload i) as Ha. rewrite Hr in Ha. cbn [fst] in Ha.
  destruct Ha as [op'|op' a Ha Hp| |spec Hsp| |dest amount Hun].
  - split; [by left|by left].
  - split.
    + left. unfold spent. cbn. by rewrite (proj1 (circuit_step_purse _ _ Ha)).
    + cbn. intros Hx. destruct Hp as [Hp|Hp]; [by right|left; by apply Hp].
  - destruct (refresh_spent c (sio_now i)) as [Hs _]. split; [by left|]. rewrite (held_pending _ _ (refresh_held _ _)). by left.
  - split.
    + destruct (connect_spent Hn c spec (sio_wallet i) Hd); auto.
    + rewrite (held_pending _ _ (wallet_connect_held _ _ _)). by left.
  - split; [|rewrite (held_pending _ _ (disconnect_held _ _)); by left].
    right. left. unfold DisconnectWallet. by destruct (wallet (app c)).
  - pose proof (pay_pending c dest amount (sio_wallet i)) as Hpp.
    destruct (PayApproved c dest amount (sio_wallet i)) as [c1 [tx rr]] eqn:Ep. cbn [fst] in *.
    pose proof (pay_paid _ _ _ _ _ _ _ Ep) as [Hs Hg Ho]. split; [|intros Hx; left; by apply Hpp].
    destruct Hs as [Hs|Hs]; [by left|]. right; right.
    assert (spent c1 ≠ spent c) as Hne.
    { rewrite Hs. intros Hx. apply (f_equal length) in Hx. rewrite length_app in Hx. cbn in Hx. lia. }
    split_and!; [done | by apply Hg; left | by exists dest, amount].
Qed.

Lemma masked s : maskSecret s = "" ∨ maskSecret s = "***".
Proof. unfold maskSecret. destruct (String.eqb s ""); auto. Qed.

Lemma keep_masked s : keep_secret (maskSecret s) s = s.
Proof. unfold keep_secret, maskSecret. by destruct (String.eqb_spec s "") as [->|]. Qed.

Lemma keep_redacted c : keep_secrets (Redacted c) c = c.
Proof.
  unfold keep_secrets, Redacted. destruct c as [n [re ru rp rn] [wm we wn wu wp wx wa] d k a r m co p l]. cbn.
  by rewrite !keep_masked.
Qed.

(** Only two operations answer with a configuration. *)
Lemma config_replies {G E D R K} `{Engine G, !EngineReport G, Enforcer E, ClientStore D, WalletClient R, NewWallet R,
    Socket K} `{Sha256, ResultJSON, URL, Unicode, ErrorText (enf_error (E := E)), GoArch, IPv6, NameService, SortSlice, Payloads}
  err_text (c c' : Client (G := G) (E := E) (D := D) (R := R) (K := K)) op payload i k :
  dispatch err_text c op payload i = (c', Ok (RConfig k)) →
  k = Redacted (cfg (app c'))
  ∧ (op = OpGetConfig ∧ c' = c
     ∨ op = OpSetConfig ∧ ∃ new, un_config payload = Ok new ∧ cfg (app c') = keep_secrets new (cfg (app c))).
Proof.
  assert (∀ X (inj : X → service_error (enf_error (E := E))) (a : App G E D (walletConn R K) * result X unit)
    (rep : Client (G := G) (E := E) (D := D) (R := R) (K := K) → reply),
    (∀ b x, rep b ≠ RConfig x) → with_reply inj c a rep ≠ (c', Ok (RConfig k))) as Hw.
  { intros X inj [a [[]|x]] rep Hr; cbn; [|done]. intros [= _ Hx]. by apply Hr in Hx. }
  unfold dispatch. intros Hd.
  destruct (String.eqb op OpStatus); [done|]. destruct (String.eqb op OpListNodes); [by destruct (ListNodes _)|].
  destruct (String.eqb op OpConnect).
  { unfold op_connect in Hd. destruct (optional _ _ _); [|done]. by apply Hw in Hd. }
  destruct (String.eqb op OpDisconnect); [by apply Hw in Hd|].
  destruct (String.eqb op OpDiagnostics); [done|]. destruct (String.eqb op OpPayment); [done|].
  destruct (String.eqb_spec op OpGetConfig) as [->|]; [injection Hd as <- <-; split; [done|by left]|].
  destruct (String.eqb_spec op OpSetConfig) as [->|].
  { unfold op_set_config in Hd. destruct (un_config payload) as [new|]; [|done].
    unfold UpdateConfig, with_reply in Hd. destruct (Validate _); [|done]. destruct (sio_save i); [|done].
    injection Hd as <- <-. split; [done|]. right. split; [done|]. by exists new. }
  destruct (String.eqb op OpCircuit).
  { unfold op_circuit in Hd. destruct (optional _ _ _) as [[[? ?] ?]|]; [|done]. destruct (_ || _); by apply Hw in Hd. }
  destruct (String.eqb op OpRotate); [by apply Hw in Hd|]. destruct (String.eqb op OpApprovePayment); [done|].
  destruct (String.eqb op OpConfirmPayment).
  { unfold op_confirm in Hd. destruct (un_confirm payload) as [[? ?]|]; [|done]. by apply Hw in Hd. }
  destruct (String.eqb op OpWalletStatus); [done|].
  destruct (String.eqb op OpWalletConnect).
  { unfold op_wallet_connect in Hd. destruct (un_spec payload); [|done]. by destruct (ConnectWallet c _ _) as [? [[]|?]]. }
  destruct (String.eqb op OpWalletDisconnect).
  { unfold op_wallet_disconnect in Hd. by destruct (DisconnectWallet c _) as [? [[]|?]]. }
  destruct (String.eqb op OpWalletPay); [|done]. unfold op_wallet_pay in Hd.
  destruct (un_pay payload) as [[? ?]|]; [|done]. by destruct (PayApproved c _ _ _) as [? [? [[]|?]]].
Qed.

(** the configuration leaves without its secrets and comes back with
    them.  A configuration the service answers with is the stored one with no
    password but the mask; reading it changes nothing; and storing the one it
    answered, unchanged, as a client that edits settings does, keeps the
    passwords: the stored configuration is the one there was. *)
Theorem config_keeps_secrets {G E D R K} `{Engine G, !EngineReport G, Enforcer E, ClientStore D, WalletClient R, NewWallet R,
    Socket K} `{Sha256, ResultJSON, URL, Unicode, ErrorText (enf_error (E := E)), GoArch, IPv6, NameService, SortSlice, Payloads}
  err_text (c c' : Client (G := G) (E := E) (D := D) (R := R) (K := K)) op payload i k :
  dispatch err_text c op payload i = (c', Ok (RConfig k)) →
  k = Redacted (cfg (app c'))
  ∧ RPCPassword (ClientConfig.Dero k) ∈ [""; "***"] ∧ Password (ClientConfig.Wallet k) ∈ [""; "***"]
  ∧ (op = OpGetConfig ∧ c' = c
     ∨ op = OpSetConfig ∧ (un_config payload = Ok (Redacted (cfg (app c))) → cfg (app c') = cfg (app c))).
Proof.
  intros (-> & Ho)%config_replies. split_and!; [done| | |].
  - cbn. destruct (masked (RPCPassword (ClientConfig.Dero (cfg (app c'))))) as [-> | ->]; set_solver.
  - cbn. destruct (masked (Password (ClientConfig.Wallet (cfg (app c'))))) as [-> | ->]; set_solver.
  - destruct Ho as [Ho|(-> & new & Hn & Hc)]; [by left|]. right. split; [done|].
    rewrite Hn, Hc. intros [= ->]. apply keep_redacted.
Qed.

(** ** The service as it is built has no nodes *)

Definition idle {G E D W} (a : App.App G E D W) : Prop :=
  node a = None ∧ nodes a = Ok [] ∧ circuit a = no_circuit.

Section no_nodes.
Context {G E D W : Type} `{Engine G, Enforcer E, ClientStore D, IPv6, NameService, SortSlice, Unicode}.
Implicit Types a : App.App G E D W.

Lemma no_pick a id : nodes a = Ok [] → ∃ x, pick a id = Err x.
Proof.
  intros Hn. unfold pick, AutoSelect, Select, findNode, ListNodes. rewrite Hn.
  destruct (String.eqb id ""); cbn; [|by eauto].
  pose proof (sort_Slice_perm higher ([] : list (NodeInfo * float64))) as Hp.
  symmetry in Hp. apply Permutation_nil in Hp. rewrite Hp. by eauto.
Qed.

Lemma idle_connect a id i : idle a → ∃ x, Connect a id i = (a, Err x).
Proof.
  intros (Hn & Hl & _). unfold Connect. rewrite Hn. destruct (engine a); [|by eauto].
  destruct (no_pick a id Hl) as [x ->]. by eauto.
Qed.

Lemma idle_step a a' : AppCircuit.step a a' → idle a → idle a'.
Proof.
  assert (∀ a i now, idle a → (RotateCircuit a i now).1 = a) as Hrot.
  { intros b i now (Hn & Hl & Hc). unfold RotateCircuit. destruct (engine b); [|done].
    unfold ListNodes. rewrite Hl. cbn. by rewrite Hn, Hc. }
  intros Hs Hi. destruct Hs as [a ids i now|fuel a n i now a1 r Hr|a i now|a i now|a|a a1 Hs].
  - unfold BuildCircuitHops. by rewrite (proj1 Hi).
  - unfold AutoCircuitHops in Hr. rewrite (proj1 Hi) in Hr. cbn in Hr. by injection Hr as <- _.
  - by rewrite Hrot.
  - unfold MaybeAutoRotate. destruct (_ || _); [done|]. destruct (_ <? _); [done|].
    pose proof (Hrot a i now Hi) as Hr. by destruct (RotateCircuit a i now) as [a1 [[]|x]]; cbn in *; subst.
  - destruct Hi as (Hn & Hl & Hc). unfold ResetGuard. rewrite Hc. by split_and!.
  - destruct Hs as [a id i|a|a reason|a c r|a|a amount txid id now|a n dial].
    + by destruct (idle_connect a id i Hi) as [x ->].
    + unfold Disconnect. by rewrite (proj1 Hi).
    + unfold FailClosed. destruct (enforcer a); [|done]. by destruct (enf_FailClosed _ _).
    + unfold UpdateConfig. destruct (Validate c); [|done]. by destruct r.
    + done.
    + unfold ConfirmPayment. by destruct (SaveReceipt _ _) as [st2 [[]|x]].
    + unfold ProbeLatency. by destruct (dial _ _).
Qed.
End no_nodes.

(** the daemon can never connect.  It starts with an empty node list and
    no operation of it fills one: whatever its clients send, no node is ever
    current, and every connect, by id or automatic, is answered by an error
    that changes nothing. *)
Theorem daemon_never_connects {G E D R K} `{EngineLaws G, !EngineReport G, EnforcerLaws E, ClientStore D, HR : WalletClient R,
    !WalletLaws R, NewWallet R, HK : Socket K, !SocketLaws K}
  `{Sha256, ResultJSON, URL, Unicode, ErrorText (enf_error (E := E)), GoArch, IPv6, NameService, SortSlice, Payloads, Frames}
  err_text marshal text s (tick : G → G → Prop) config (st : D) g (e : E)
  (c : Client (G := G) (E := E) (D := D) (R := R) (K := K)) :
  rtc (serves err_text marshal text s tick) (start config st g e) c →
  node (app c) = None ∧ ∀ id i, ∃ x, Connect (app c) id i = (app c, Err x).
Proof.
  intros Hs. assert (idle (app (start (R := R) (K := K) config st g e))) as Hz.
  { unfold start, start_with, ClearEnforcement, idle. cbn. by destruct (enf_Clear e). }
  assert (idle (app c)) as Hi.
  { revert Hz. induction Hs as [|c1 c2 c3 Hs _ IH]; [done|]. intros Hz. apply IH.
    destruct Hs as [c i input|c g1 g2 Hg _]; [|exact Hz].
    destruct (serveConn marshal s (handler err_text text i) c input) as [c' out] eqn:Es.
    apply serve_cases in Es as [->|(req & _ & _ & Ha)]; [done|]. cbn [fst].
    eapply (acts_keep idle); [|apply idle_step | exact Ha | exact Hz].
    intros a b [= Hn _ _ _ Hc Hl]. unfold idle. by rewrite Hn, Hl, Hc. }
  split; [apply Hi|]. intros id i. by apply idle_connect.
Qed.

(** ** Witnesses and examples *)

#[local] Existing Instances stable_sort amd64 no_ipv6 ascii_unicode toy_sha256 WgConf.demo_netip App.demo_store App.demo_names
  App.demo_os_enforcer App.demo_os_enforcer_laws EngineAdapter.plain_engine_text
  Xswd.script_socket Xswd.script_laws Xswd.text_json Xswd.one_url Wallet.plain_texts Wallet.daemon
  Ipc.bar_frames.

(** Bodies that are their own field; a wallet body is a destination. *)
#[local] Instance plain_payloads : Payloads := {
  un_connect s := Ok s;
  un_config s := if String.eqb s "redacted" then Ok (Redacted (set_wallet DefaultClientConfig
                      (set_wallet_password (ClientConfig.Wallet DefaultClientConfig) "hunter2")))
                 else Err "unexpected end of JSON input";
  un_circuit s := Ok ("", "", true);
  un_confirm s := Ok (f1, s);
  un_refresh s := String.eqb s "refresh";
  un_spec s := Ok (mkSpec "xswd" "" "" "" "" false);
  un_pay s := Ok (s, f1)
}.

Abbreviation DemoService := (Client (G := tunnelAdapter string) (E := osEnforcer machine) (D := list string)
  (R := HTTPWalletClient) (K := script)).
Definition demo_server : Server := NewServer "secret".
Definition demo_sio (l : list (option xswdReply)) : service_io script :=
  mkServiceIO demo_io (wallet_dials l) bio (Ok tt) "id" 1000 2000.
Definition demo_marshal (r : reply) : result string string := Ok "{}".
Definition demo_text (e : service_error (enf_error (E := osEnforcer machine))) : string := "error".
Definition serve (input : string) (l : list (option xswdReply)) (c : DemoService) : DemoService :=
  (serveConn demo_marshal demo_server (handler (fun _ => "error") demo_text (demo_sio l)) c (Some input)).1.
Definition demo_tick (g g' : tunnelAdapter string) : Prop := ∃ l, g' = adapter_tick g l.
Definition demo_start : DemoService :=
  start_with (Ok keyed_nodes) DefaultClientConfig [] demo_adapter (demo_enforcer true).
Abbreviation demo_serves := (serves (fun _ => "error") demo_marshal demo_text demo_server demo_tick).

Lemma served input l (c : DemoService) : demo_serves c (serve input l c).
Proof. apply serve_connection. Defined.

(** Connected, refused a stranger, and rotated. *)
Definition demo_connected : DemoService := serve "secret|connect|n1" [] demo_start.
Definition demo_rotated : DemoService :=
  serve "secret|rotate|" [] (serve "guess|disconnect|" [] (serve "secret|circuit|{}" [] demo_connected)).

Lemma demo_rotated_reached : rtc demo_serves demo_start demo_rotated.
Proof. do 4 (eapply rtc_r; [|apply served]). reflexivity. Defined.


(** The rotated tunnel sends to the new node under the old node's key, and the
    kill switch still names the old node's address. *)
Example rotated_tunnel_keeps_old_key :
  (match engine (app demo_rotated) with
   | Some g => map (fun p => (Tunnel.PublicKey p, Tunnel.Endpoint p)) (Tunnel.Peers (Tunnel.cfg (EngineAdapter.e g)))
   | None => [] end)
  = [(WGPubkey (keyed_node "n1" "" 1), "192.0.2.1:51820")]
  ∧ (WGPubkey <$> node (app demo_rotated)) = Some (WGPubkey (keyed_node "n3" "" 3))
  ∧ ses_NodeID (sess (app demo_rotated)) = "n1".
Proof. vm_compute. split_and!; reflexivity. Qed.

(** A wallet over the bridge, an approval, a payment. *)
Definition demo_wallet : DemoService :=
  serve "secret|approve-payment|" [] (serve "secret|wallet-connect|{}"
    [yes ""; yes "dero1"; yes "{}"; yes "tx-9"; yes "dero1"; yes "{}"] demo_start).
Definition demo_pay (c : DemoService) := dispatch (fun _ => "error") c OpWalletPay "dero1dest" (demo_sio []).

Lemma service_spends_on_request_witness :
  spent (demo_pay demo_wallet).1 = spent demo_wallet
  ∨ spent (demo_pay demo_wallet).1 = []
  ∨ pendingApproval (app demo_wallet) = true ∧ ∃ dest amount, un_pay "dero1dest" = Ok (dest, amount)
    ∧ spent (demo_pay demo_wallet).1 = spent demo_wallet ++ [(dest, ToAtomic amount)].
Proof.
  assert (∀ e u p, ledger (NewWalletClientAuth (R := HTTPWalletClient) e u p) = []) as Hn by (intros; reflexivity).
  assert (∀ e o k, wio_dial (sio_wallet (demo_sio [])) e o = Some k → fresh_socket k) as Hd
    by (intros e o k [= <-]; split; reflexivity).
  destruct (service_spends_on_request (fun _ => "error") demo_wallet (demo_pay demo_wallet).1 OpWalletPay "dero1dest"
    (demo_sio []) (demo_pay demo_wallet).2 Hn Hd (surjective_pairing _)) as [[Hs|[Hs|(_ & Hp & Hs)]] _].
  - left. exact Hs.
  - right. left. exact Hs.
  - right. right. exact (conj Hp Hs).
Defined.
Example service_payment : spent demo_wallet = [] ∧ spent (demo_pay demo_wallet).1 = [("dero1dest", 100000)]
  ∧ spent (demo_pay (demo_pay demo_wallet).1).1 = [("dero1dest", 100000)].
Proof. vm_compute. split_and!; reflexivity. Qed.

Definition with_password : ClientConfig :=
  set_wallet DefaultClientConfig (set_wallet_password (ClientConfig.Wallet DefaultClientConfig) "hunter2").
Definition secret_service : DemoService := start_with (Ok keyed_nodes) with_password [] demo_adapter (demo_enforcer true).

Lemma config_keeps_secrets_witness :
  let d := dispatch (fun _ => "error") secret_service OpSetConfig "redacted" (demo_sio []) in
  d.2 = Ok (RConfig (Redacted with_password)) ∧ cfg (app d.1) = with_password.
Proof.
  set (d := dispatch _ _ _ _ _). assert (d.2 = Ok (RConfig (Redacted with_password))) as E by (vm_compute; reflexivity).
  assert (dispatch (fun _ => "error") secret_service OpSetConfig "redacted" (demo_sio [])
    = (d.1, Ok (RConfig (Redacted with_password)))) as Ed by (rewrite <- E; apply surjective_pairing).
  destruct (config_keeps_secrets (fun _ => "error") secret_service d.1 OpSetConfig "redacted" (demo_sio [])
    (Redacted with_password) Ed) as (_ & _ & _ & [[Hx _]|[_ Hc]]); [discriminate Hx|].
  split; [exact E|]. exact (Hc eq_refl).
Defined.

Lemma daemon_never_connects_witness :
  node (app (serve "secret|connect|n1" [] (start DefaultClientConfig [] demo_adapter (demo_enforcer true)))) = None.
Proof.
  exact (proj1 (daemon_never_connects (fun _ => "error") demo_marshal demo_text demo_server demo_tick
    DefaultClientConfig [] demo_adapter (demo_enforcer true) _ (rtc_once _ _ (served _ _ _)))).
Defined.

(** Changing the resolver mode of a running connection changes the report, not
    the resolvers: the enforcer is not asked. *)
Definition system_dns : ClientConfig :=
  let d := ClientConfig.DNS DefaultClientConfig in
  let c := DefaultClientConfig in
  mkClientConfig (Network c) (ClientConfig.Dero c) (ClientConfig.Wallet c)
    (mkDNSConfig "SYSTEM" (Servers d) (DoHURL d) (IPv6Upstream d)) (KillSwitch c) (AutoConnect c) (Region c)
    (ClientConfig.Multihop c) (ClientConfig.Cover c) (ClientConfig.Payments c) (ClientConfig.Logging c).
Example dns_report_follows_config :
  let a := app (serve "secret|connect|n1" [] (start_with (Ok keyed_nodes) system_dns [] demo_adapter (demo_enforcer true))) in
  let b := (UpdateConfig a DefaultClientConfig (Ok tt)).1 in
  Diag.OK (d_DNSRoute (Diagnose (fun _ => "error") a 0 0)) = false
  ∧ Diag.OK (d_DNSRoute (Diagnose (fun _ => "error") b 0 0)) = true
  ∧ (dnsMode <$> enforcer b) = Some "SYSTEM".
Proof. vm_compute. split_and!; reflexivity. Qed.
