(* ===== verification/Ui.v ===== *)
(** * Ui: the page of the client and its JSON API (internal/ui/ui.go)

    The handlers of the loopback server as programs of calls on a provider, the
    routes in front of them, and the orchestrator as a provider.  A program is
    run on any provider; what holds of every call of a program holds of the
    request.  JSON bodies are an interface. *)

From Stdlib Require Import ZArith Lia.
From S2P Require Import Prelude Float64 GoStrings NetIP GoText Crypto.
From S2P Require Import Tunnel.
From S2P Require Import EngineAdapter.
From S2P Require Import Dero.
From S2P Require Import Xswd.
From S2P Require Import ClientConfig.
From S2P Require Import Enforce.
From S2P Require Import App.
From S2P Require Import Diag.
From S2P Require Import AppCircuit.
From S2P Require Import Wallet.
From S2P Require Import Service.

(** ** Provider *)

(** The calls of [Provider], of [WalletProvider] and [walletPayer], and of the
    interfaces asserted in the handlers, each with the type of its answer; an
    error is its text. *)
Inductive ask : Type → Type :=
| AState : ask ConnState
| AListNodes : ask (result string (list App.NodeInfo))
| AConnect (nodeID : string) : ask (result string unit)
| ADisconnect : ask (result string unit)
| ADiagnose : ask Diagnostics
| APayment : ask PaymentInfo
| AConfig : ask ClientConfig
| AUpdateConfig (cfg : ClientConfig) : ask (result string unit)
| ABuildCircuit (entryID exitID : string) : ask (result string unit)
| AAutoCircuit : ask (result string unit)
| ARotateCircuit : ask (result string unit)
| ARequestPaymentApproval : ask unit
| AConfirmPayment (amount : float64) (txid : string) : ask (result string unit)
| AWalletStatus : ask WalletStatus
| AConnectWallet (spec : WalletConnectSpec) : ask (result string WalletStatus)
| ADisconnectWallet : ask (result string unit)
| ARefreshWallet : ask WalletStatus
| APayApproved (dest : string) (amountDero : float64) : ask (result string string)
| AAutoCircuitHops (n : Z) : ask (result string unit)
| ABuildCircuit3 (entryID middleID exitID : string) : ask (result string unit)
| AResetGuard : ask unit.

(** The assertions a handler makes on its provider. *)
Inductive capability := CapWallet | CapPay | CapHops | CapThree | CapGuard.

(** [IO] is what one call meets outside. *)
Class Provider (P IO : Type) : Type := {
  capable : P → capability → bool;
  provide {A} : IO → ask A → P → P * A
}.

(** ** Programs *)

Inductive prog (R : Type) : Type :=
| Ret (r : R)
| Ask {A} (a : ask A) (k : A → prog R).
Arguments Ret {R} r.
Arguments Ask {R A} a k.

Declare Scope ui_scope.
Notation "'await' x ':=' a 'in' p" := (Ask a (fun x => p)) (at level 10, x name, a at level 100, p at level 200) : ui_scope.
Local Open Scope ui_scope.

Fixpoint run {P IO R} `{Provider P IO} (io : nat → IO) (p : prog R) (x : P) : P * R :=
  match p with
  | Ret r => (x, r)
  | Ask a k => let '(x, v) := provide (io 0%nat) a x in run (fun n => io (S n)) (k v) x
  end.

(** Every call a program can make, whatever it is answered. *)
Fixpoint asks {R} (Q : ∀ A, ask A → Prop) (p : prog R) : Prop :=
  match p with Ret _ => True | Ask a k => Q _ a ∧ ∀ v, asks Q (k v) end.

(** Every answer a program can give, whatever it is told. *)
Fixpoint gives {R} (Q : R → Prop) (p : prog R) : Prop :=
  match p with Ret r => Q r | Ask _ k => ∀ v, gives Q (k v) end.

(** ** Requests and answers *)

Record ui_request := mkUiRequest { u_Method : string; u_Path : string; u_Refresh : string; u_Body : string }.

Inductive ui_body :=
| JState (s : ConnState) | JNodes (l : list App.NodeInfo) | JDiagnostics (d : Diagnostics) | JPayment (p : PaymentInfo)
| JConfig (c : ClientConfig) | JCircuit (c : App.Circuit) | JWallet (w : WalletStatus)
| JPaid (txid : string) (p : PaymentInfo) | JError (text : string) | Static (path : string).
Record ui_response := mkUiResponse { Code : Z; rsp_Body : ui_body }.
Definition writeJSON (b : ui_body) : prog ui_response := Ret (mkUiResponse 200 b).
Definition writeErr (code : Z) (err : string) : prog ui_response := Ret (mkUiResponse code (JError err)).

Record circuit_request := mkCircuitRequest {
  rq_EntryID : string; rq_MiddleID : string; rq_ExitID : string; rq_Auto : bool; rq_Hops : Z }.

(** The bodies.  Two handlers drop the error of decoding and go on with what
    was read. *)
Class UiJSON : Type := {
  read_spec : string → result string WalletConnectSpec;
  read_pay : string → result string (string * float64);
  read_node_id : string → string;
  read_config : string → result string ClientConfig;
  read_circuit : string → circuit_request;
  read_confirm : string → result string (float64 * string)
}.

(** ** Handlers *)

Section handlers.
Context `{UiJSON} (cap : capability → bool).
Implicit Types r : ui_request.

Definition is_get r : bool := String.eqb (u_Method r) "GET".

Definition no_wallet : string := "wallet connect is not available from this client; start the VeilNet service".
Definition walletProvider (p : prog ui_response) : prog ui_response :=
  if cap CapWallet then p else writeErr 501 no_wallet.

Definition handleWallet r : prog ui_response :=
  walletProvider
    (if is_get r then
       if String.eqb (u_Refresh r) "1" then await st := ARefreshWallet in writeJSON (JWallet st)
       else await st := AWalletStatus in writeJSON (JWallet st)
     else match read_spec (u_Body r) with
          | Err e => writeErr 400 e
          | Ok spec =>
            await a := AConnectWallet spec in
            match a with Err e => writeErr 502 e | Ok st => writeJSON (JWallet st) end
          end).

Definition handleWalletDisconnect : prog ui_response :=
  walletProvider
    (await a := ADisconnectWallet in
     match a with
     | Err e => writeErr 500 e
     | Ok _ => await st := AWalletStatus in writeJSON (JWallet st)
     end).

Definition handleWalletPay r : prog ui_response :=
  if cap CapPay then
    match read_pay (u_Body r) with
    | Err e => writeErr 400 e
    | Ok (dest, amount) =>
      await a := APayApproved dest amount in
      match a with
      | Err e => writeErr 502 e
      | Ok txid => await p := APayment in writeJSON (JPaid txid p)
      end
    end
  else writeErr 501 "this client cannot send payments".

Definition reply_state : prog ui_response := await s := AState in writeJSON (JState s).
Definition or_state (a : result string unit) : prog ui_response :=
  match a with Err e => writeErr 500 e | Ok _ => reply_state end.
Definition reply_payment : prog ui_response := await p := APayment in writeJSON (JPayment p).
Definition reply_config : prog ui_response := await c := AConfig in writeJSON (JConfig (Redacted c)).
Definition reply_circuit : prog ui_response := await s := AState in writeJSON (JCircuit (cs_Circuit s)).

Definition handleState : prog ui_response := reply_state.
Definition handleNodes : prog ui_response :=
  await a := AListNodes in match a with Err e => writeErr 500 e | Ok l => writeJSON (JNodes l) end.
Definition handleConnect r : prog ui_response := Ask (AConnect (read_node_id (u_Body r))) or_state.
Definition handleDisconnect : prog ui_response := Ask ADisconnect or_state.
Definition handleDiagnostics : prog ui_response := await d := ADiagnose in writeJSON (JDiagnostics d).
Definition handlePayment : prog ui_response := reply_payment.

Definition handleConfig r : prog ui_response :=
  if is_get r then reply_config
  else match read_config (u_Body r) with
  | Err e => writeErr 400 e
  | Ok new =>
    await cur := AConfig in
    await a := AUpdateConfig (keep_secrets new cur) in
    match a with Err e => writeErr 400 e | Ok _ => reply_config end
  end.

Definition handleCircuit r : prog ui_response :=
  let req := read_circuit (u_Body r) in
  if rq_Auto req || (String.eqb (rq_EntryID req) "" && String.eqb (rq_ExitID req) "" && String.eqb (rq_MiddleID req) "")
  then if (rq_Hops req >? 1) && cap CapHops then Ask (AAutoCircuitHops (rq_Hops req)) or_state
       else Ask AAutoCircuit or_state
  else if negb (String.eqb (rq_MiddleID req) "")
  then if cap CapThree then Ask (ABuildCircuit3 (rq_EntryID req) (rq_MiddleID req) (rq_ExitID req)) or_state
       else Ask (ABuildCircuit (rq_EntryID req) (rq_ExitID req)) or_state
  else Ask (ABuildCircuit (rq_EntryID req) (rq_ExitID req)) or_state.

Definition handleGuard r : prog ui_response :=
  if is_get r then reply_circuit
  else if cap CapGuard then await _ := AResetGuard in reply_circuit
  else reply_circuit.

Definition handleRotate : prog ui_response := Ask ARotateCircuit or_state.
Definition handleApprove : prog ui_response := await _ := ARequestPaymentApproval in reply_payment.
Definition handleConfirm r : prog ui_response :=
  match read_confirm (u_Body r) with
  | Err e => writeErr 400 e
  | Ok (amount, txid) =>
    await a := AConfirmPayment amount txid in
    match a with Err e => writeErr 500 e | Ok _ => reply_payment end
  end.

(** The routes; every other path is the embedded page. *)
Definition Handler r : prog ui_response :=
  let at_ p := String.eqb (u_Path r) p in
  if at_ "/api/state" then handleState
  else if at_ "/api/nodes" then handleNodes
  else if at_ "/api/connect" then handleConnect r
  else if at_ "/api/disconnect" then handleDisconnect
  else if at_ "/api/diagnostics" then handleDiagnostics
  else if at_ "/api/payment" then handlePayment
  else if at_ "/api/config" then handleConfig r
  else if at_ "/api/circuit" then handleCircuit r
  else if at_ "/api/rotate" then handleRotate
  else if at_ "/api/guard" then handleGuard r
  else if at_ "/api/approve-payment" then handleApprove
  else if at_ "/api/confirm-payment" then handleConfirm r
  else if at_ "/api/wallet" then handleWallet r
  else if at_ "/api/wallet/disconnect" then handleWalletDisconnect
  else if at_ "/api/wallet/pay" then handleWalletPay r
  else writeJSON (Static (u_Path r)).
End handlers.

(** One request to the server over a provider. *)
Definition serve_ui {P IO} `{Provider P IO, UiJSON} (io : nat → IO) (r : ui_request) (x : P) : P * ui_response :=
  run io (Handler (capable x) r) x.

(** ** The orchestrator as a provider *)

Section local.
Context {G E D R K : Type} `{Engine G, !EngineReport G, Enforcer E, ClientStore D, WalletClient R, NewWallet R, Socket K}
  `{Sha256, ResultJSON, URL, Unicode, ErrorText (enf_error (E := E)), GoArch, IPv6, NameService, SortSlice}.
Context (err_text : enf_error (E := E) → string) (text : service_error (enf_error (E := E)) → string) (demo : bool).
Abbreviation Client := (Client (G := G) (E := E) (D := D) (R := R) (K := K)).
Implicit Types c : Client.

(** An operation of the orchestrator, its error as a text. *)
Definition told {X} (inj : X → service_error (enf_error (E := E))) c (r : App G E D (walletConn R K) * result X unit)
  : Client * result string unit :=
  (with_app c r.1, result_map_err (fun e => text (inj e)) r.2).

(** Three units of fuel are enough ([auto_circuit_facts]). *)
Definition AutoHops_total (a : App G E D (walletConn R K)) (n : Z) (i : service_io K) :=
  match AutoCircuitHops 3 a n (sio_build i) (sio_now i) with Some r => r | None => (a, Err ErrNotSeparable) end.

Definition app_provide {A} (i : service_io K) (a : ask A) c : Client * A :=
  match a in ask A return Client * A with
  | AState => (c, State (app c) demo (sio_now i))
  | AListNodes => (c, result_map_err (fun e => text (SErrApp e)) (ListNodes (app c)))
  | AConnect id => told SErrApp c (Connect (app c) id (sio_connect i))
  | ADisconnect => told SErrApp c (Disconnect (app c))
  | ADiagnose => (c, Diagnose err_text (app c) (sio_at i) (sio_now i))
  | APayment => (c, Payment (app c) (sio_now i))
  | AConfig => (c, cfg (app c))
  | AUpdateConfig new => told SErrApp c (UpdateConfig (app c) new (sio_save i))
  | ABuildCircuit entry exit => told SErrCircuit c (BuildCircuit (app c) entry exit (sio_build i) (sio_now i))
  | AAutoCircuit => told SErrCircuit c (AutoCircuit_total (app c) i)
  | ARotateCircuit => told SErrCircuit c (RotateCircuit (app c) (sio_build i) (sio_now i))
  | ARequestPaymentApproval => (with_app c (RequestPaymentApproval (app c)), tt)
  | AConfirmPayment amount txid => told SErrApp c (ConfirmPayment (app c) amount txid (sio_id i) (sio_now i))
  | AWalletStatus => (c, App_WalletStatus c)
  | AConnectWallet spec =>
    let '(c, r) := ConnectWallet c spec (sio_wallet i) in
    (c, match r with Err e => Err (text (SErrWallet e)) | Ok _ => Ok (App_WalletStatus c) end)
  | ADisconnectWallet =>
    let '(c, r) := DisconnectWallet c (sio_now i) in (c, result_map_err (fun e => text (SErrWallet e)) r)
  | ARefreshWallet => let c := RefreshWallet c (sio_now i) in (c, App_WalletStatus c)
  | APayApproved dest amount =>
    let '(c, (txid, r)) := PayApproved c dest amount (sio_wallet i) in
    (c, match r with Err e => Err (text (SErrWallet e)) | Ok _ => Ok txid end)
  | AAutoCircuitHops n => told SErrCircuit c (AutoHops_total (app c) n i)
  | ABuildCircuit3 entry middle exit => told SErrCircuit c (BuildCircuit3 (app c) entry middle exit (sio_build i) (sio_now i))
  | AResetGuard => (with_app c (ResetGuard (app c)), tt)
  end.

Definition app_provider : Provider Client (service_io K) := {|
  capable _ _ := true;
  provide A i a c := app_provide i a c |}.
End local.

(** ** Running a program *)

Lemma run_keeps {P IO R} `{Provider P IO} (Q : ∀ A, ask A → Prop) (rel : P → P → Prop) `{!Reflexive rel, !Transitive rel} :
  ∀ (p : prog R) io x, (∀ n A (a : ask A) y, Q A a → rel y (provide (io n) a y).1) → asks Q p → rel x (run io p x).1.
Proof.
  intros p. induction p as [r|A a k IH]; intros io x Hc Ha; [done|]. cbn. destruct Ha as [Hq Ha].
  pose proof (Hc 0%nat A a x Hq) as Hx. destruct (provide (io 0%nat) a x) as [x' v].
  etrans; [exact Hx|apply IH; [|done]]. intros n. apply Hc.
Qed.

Lemma asks_mono {R} (Q Q' : ∀ A, ask A → Prop) (p : prog R) : (∀ A a, Q A a → Q' A a) → asks Q p → asks Q' p.
Proof. intros Hq. induction p as [r|A a k IH]; [done|]. intros [Ha Hk]. split; [auto|]. intros v. by apply IH. Qed.

(** The calls a request can make. *)
Definition allowed `{UiJSON} (cap : capability → bool) (r : ui_request) {A} (a : ask A) : Prop :=
  match a with
  | APayApproved dest amount =>
    u_Path r = "/api/wallet/pay" ∧ read_pay (u_Body r) = Ok (dest, amount) ∧ cap CapPay = true
  | ARequestPaymentApproval => u_Path r = "/api/approve-payment"
  | AConfirmPayment _ _ => u_Path r = "/api/confirm-payment"
  | AConnectWallet spec => u_Path r = "/api/wallet" ∧ is_get r = false ∧ read_spec (u_Body r) = Ok spec ∧ cap CapWallet = true
  | ADisconnectWallet => u_Path r = "/api/wallet/disconnect" ∧ cap CapWallet = true
  | AWalletStatus | ARefreshWallet => cap CapWallet = true
  | AConnect _ => u_Path r = "/api/connect"
  | ADisconnect => u_Path r = "/api/disconnect"
  | AUpdateConfig _ => u_Path r = "/api/config" ∧ is_get r = false
  | AAutoCircuitHops _ => cap CapHops = true
  | ABuildCircuit3 _ _ _ => cap CapThree = true
  | AResetGuard => cap CapGuard = true
  | _ => True
  end.

Lemma asks_or_state (Q : ∀ A, ask A → Prop) (a : ask (result string unit)) : Q _ a → Q _ AState → asks Q (Ask a or_state).
Proof. intros. split; [done|]. by intros [[]|e]. Qed.

Ltac ask_calls :=
  repeat match goal with
  | |- asks _ (if ?b then _ else _) => let E := fresh "E" in destruct b eqn:E
  | |- asks _ (match ?b with _ => _ end) => let E := fresh "E" in destruct b eqn:E
  | |- asks _ (Ret _) => exact I
  | |- asks _ (writeJSON _) => exact I
  | |- asks _ (writeErr _ _) => exact I
  | |- asks _ (Ask _ or_state) => apply asks_or_state
  | |- asks _ reply_state => split; [|done]
  | |- asks _ (Ask _ _) => split; [|intros ?]
  end; try done.

Lemma handler_asks `{UiJSON} cap r : asks (@allowed _ cap r) (Handler cap r).
Proof.
  unfold Handler.
  repeat match goal with |- asks _ (if String.eqb (u_Path r) ?p then _ else _) => destruct (String.eqb_spec (u_Path r) p) end.
  all: unfold handleState, handleNodes, handleConnect, handleDisconnect, handleDiagnostics, handlePayment, handleConfig,
    handleCircuit, handleRotate, handleGuard, handleApprove, handleConfirm, handleWallet, handleWalletDisconnect, handleWalletPay,
    walletProvider, reply_payment, reply_config, reply_circuit; cbn zeta.
  all: ask_calls.
  all: by repeat match goal with E : (_ && _) = true |- _ => apply andb_true_iff in E as [? ?] end.
Qed.

Lemma run_gives {P IO R} `{Provider P IO} (Q : R → Prop) (p : prog R) io x : gives Q p → Q (run io p x).2.
Proof.
  revert io x. induction p as [r|A a k IH]; intros io x Hg; [done|]. cbn.
  destruct (provide (io 0%nat) a x) as [x' v]. by apply IH.
Qed.

Ltac give_answers :=
  repeat match goal with
  | |- gives _ (if ?b then _ else _) => destruct b
  | |- gives _ (match ?b with _ => _ end) => destruct b
  | |- gives _ reply_state => unfold reply_state
  | |- gives _ reply_config => unfold reply_config
  | |- gives _ (or_state _) => unfold or_state
  | |- gives _ (Ask _ _) => intros ?
  end.

(** An answer is a value under 200 or a text under an error code; and only the
    configuration route shows a configuration, with its secrets masked. *)
Definition proper (r : ui_request) (rsp : ui_response) : Prop :=
  (Code rsp = 200 ↔ ∀ e, rsp_Body rsp ≠ JError e) ∧ Code rsp ∈ [200; 400; 500; 501; 502]
  ∧ ∀ k, rsp_Body rsp = JConfig k → u_Path r = "/api/config" ∧ ∃ c, k = Redacted c.

Lemma proper_json r b : (∀ e, b ≠ JError e) → (∀ k, b ≠ JConfig k) → proper r (mkUiResponse 200 b).
Proof. intros He Hk. split_and!; cbn; [done|set_solver|by intros k Hx%Hk]. Qed.
Lemma proper_config r c : u_Path r = "/api/config" → proper r (mkUiResponse 200 (JConfig (Redacted c))).
Proof. intros Hp. split_and!; cbn; [done|set_solver|]. intros k [= <-]. split; [done|by exists c]. Qed.
Lemma proper_err r n e : n ∈ [400; 500; 501; 502] → proper r (mkUiResponse n (JError e)).
Proof.
  intros Hn. split_and!; cbn; [|set_solver|done]. split; [|by intros Hx; destruct (Hx e)].
  intros ->. exfalso. clear -Hn. set_solver.
Qed.

Lemma handler_gives `{UiJSON} cap r : gives (proper r) (Handler cap r).
Proof.
  unfold Handler.
  repeat match goal with |- gives _ (if String.eqb (u_Path r) ?p then _ else _) => destruct (String.eqb_spec (u_Path r) p) end.
  all: unfold handleState, handleNodes, handleConnect, handleDisconnect, handleDiagnostics, handlePayment, handleConfig,
    handleCircuit, handleRotate, handleGuard, handleApprove, handleConfirm, handleWallet, handleWalletDisconnect, handleWalletPay,
    walletProvider, reply_payment, reply_circuit; cbn zeta.
  all: give_answers.
  all: first [by apply proper_json | by apply proper_config | apply proper_err; set_solver].
Qed.

(** ** What the calls on the orchestrator do *)

Section local_calls.
Context {G E D R K : Type} `{Engine G, !EngineReport G, Enforcer E, ClientStore D, HR : WalletClient R, !WalletLaws R,
  NewWallet R, HK : Socket K, !SocketLaws K}
  `{Sha256, ResultJSON, URL, Unicode, ErrorText (enf_error (E := E)), GoArch, IPv6, NameService, SortSlice, UiJSON}.
Context (err_text : enf_error (E := E) → string) (text : service_error (enf_error (E := E)) → string) (demo : bool).
Abbreviation Client := (Client (G := G) (E := E) (D := D) (R := R) (K := K)).
Abbreviation provide_ := (app_provide err_text text demo).
Implicit Types c : Client.

Lemma auto_hops_total (a : App.App G E D (walletConn R K)) n i :
  AutoCircuitHops 3 a n (sio_build i) (sio_now i) = Some (AutoHops_total a n i).
Proof.
  unfold AutoHops_total. destruct (auto_circuit_facts a n (sio_build i) (sio_now i)) as (a' & r & Hf & _).
  by rewrite (Hf 3%nat (le_n 3)).
Qed.

(** A call is a step of the orchestrator or leaves its core alone. *)
Lemma provide_moves {A} i (a : ask A) c (Pr : App.App G E D (walletConn R K) → Prop) :
  (∀ x y, core y = core x → Pr x → Pr y) → (∀ x y, AppCircuit.step x y → Pr x → Pr y) →
  Pr (app c) → Pr (app (provide_ i a c).1).
Proof.
  intros Hc Hs Hp. assert (∀ y, AppCircuit.step (app c) y → Pr y) as Hst by eauto.
  assert (∀ c', core (app c') = core (app c) → Pr (app c')) as Hco by eauto.
  destruct a; cbn; try done.
  - apply Hst, step_app, App.step_connect.
  - apply Hst, step_app, App.step_disconnect.
  - apply Hst, step_app, App.step_config.
  - apply Hst, step_build.
  - pose proof (auto_total_act (app c) i) as Ha. cbn in Ha. destruct (AutoCircuit_total _ _). by eapply Hst, AppCircuit.step_auto.
  - apply Hst, step_rotate.
  - apply Hst, step_app, App.step_approve.
  - apply Hst, step_app, App.step_confirm.
  - pose proof (held_core _ _ (wallet_connect_held c spec (sio_wallet i))). destruct (ConnectWallet _ _ _). by apply Hco.
  - pose proof (held_core _ _ (disconnect_held c (sio_now i))). destruct (DisconnectWallet _ _). by apply Hco.
  - by apply Hco, held_core, refresh_held.
  - pose proof (pay_core c dest amountDero (sio_wallet i)). destruct (PayApproved _ _ _ _) as [? [? ?]]. by apply Hco.
  - pose proof (auto_hops_total (app c) n i) as Ha. destruct (AutoHops_total _ _ _). by eapply Hst, AppCircuit.step_auto.
  - apply Hst, step_build.
  - apply Hst, step_reset.
Qed.

(** Nothing more was sent, and no approval appeared. *)
Definition thrifty c c' : Prop :=
  (spent c' = spent c ∨ spent c' = []) ∧ (pendingApproval (app c') = true → pendingApproval (app c) = true).
#[export] Instance thrifty_refl : Reflexive thrifty.
Proof. split; [by left|done]. Qed.
#[export] Instance thrifty_trans : Transitive thrifty.
Proof. intros a b c [Hs1 Hp1] [Hs2 Hp2]. split; [destruct Hs2 as [->| ->]; auto|auto]. Qed.

Lemma purse_thrifty c a : purse a = purse (app c) → thrifty c (with_app c a).
Proof. intros [= Hw Hp]. split; [left; unfold spent; cbn; by rewrite Hw|cbn; by rewrite Hp]. Qed.

Definition spending {A} (a : ask A) : bool :=
  match a with APayApproved _ _ | ARequestPaymentApproval => true | _ => false end.

Lemma provide_thrifty {A} (i : service_io K) (a : ask A) c :
  (∀ e u p, ledger (NewWalletClientAuth (R := R) e u p) = []) →
  (∀ e o k, wio_dial (sio_wallet i) e o = Some k → fresh_socket k) →
  spending a = false → thrifty c (provide_ i a c).1.
Proof.
  intros Hn Hd Hs. destruct a; cbn; try done.
  - apply purse_thrifty, connect_purse.
  - apply purse_thrifty, disconnect_purse.
  - apply purse_thrifty. unfold UpdateConfig. destruct (Validate _); [|done]. by destruct (sio_save i).
  - apply purse_thrifty. unfold BuildCircuit. by destruct (build_frame (app c) [entryID; exitID] (sio_build i) (sio_now i)) as [->|[path ->]].
  - apply purse_thrifty. pose proof (auto_total_act (app c) i) as Ha. cbn in Ha.
    destruct (AutoCircuit_total _ _) as [x r]. by apply auto_frame in Ha as [->|[path ->]].
  - apply purse_thrifty, rotate_frame.
  - unfold thrifty, spent, told. cbn. destruct (ConfirmPayment _ _ _ _ _) as [a x] eqn:Ec.
    apply confirm_wallet in Ec as [Hw Hp]. cbn. rewrite Hw, Hp. by split; [left|].
  - pose proof (connect_spent Hn c spec (sio_wallet i) Hd) as Hx.
    pose proof (held_pending _ _ (wallet_connect_held c spec (sio_wallet i))) as Hp.
    destruct (ConnectWallet _ _ _) as [c1 r]. cbn in Hx, Hp. split; cbn; [done|by rewrite Hp].
  - pose proof (held_pending _ _ (disconnect_held c (sio_now i))) as Hp.
    assert (spent (DisconnectWallet c (sio_now i)).1 = spent c ∨ spent (DisconnectWallet c (sio_now i)).1 = []) as Hx
      by (unfold DisconnectWallet; destruct (wallet (app c)); auto).
    destruct (DisconnectWallet _ _) as [c1 r]. cbn in Hx, Hp. split; cbn; [done|by rewrite Hp].
  - destruct (refresh_spent c (sio_now i)) as [Hx Hp]. unfold thrifty. rewrite Hx, Hp. auto.
  - apply purse_thrifty. pose proof (auto_hops_total (app c) n i) as Ha.
    destruct (AutoHops_total _ _ _) as [x r]. by apply auto_frame in Ha as [->|[path ->]].
  - apply purse_thrifty. unfold BuildCircuit3. by destruct (build_frame (app c) [entryID; middleID; exitID] (sio_build i) (sio_now i)) as [->|[path ->]].
  - by apply purse_thrifty.
Qed.

(** What a page is served leaves alone, whatever it asks. *)
Lemma page_keeps (Pr : App.App G E D (walletConn R K) → Prop) io r c :
  (∀ x y, core y = core x → Pr x → Pr y) → (∀ x y, AppCircuit.step x y → Pr x → Pr y) →
  Pr (app c) → Pr (app (serve_ui (H := app_provider err_text text demo) io r c).1).
Proof.
  intros Hc Hs. set (rel := fun x y : Client => Pr (app x) → Pr (app y)).
  assert (Reflexive rel) by (intros x Hx; exact Hx). assert (Transitive rel) by (intros x y z; unfold rel; auto).
  unfold serve_ui. apply (run_keeps (H := app_provider err_text text demo) (fun _ _ => True) rel).
  - intros n A a x _. exact (provide_moves (io n) a x Pr Hc Hs).
  - eapply asks_mono; [|apply handler_asks]. done.
Qed.
End local_calls.

(** ** Properties *)


(** passwords reach no page and survive its edits.  Over the orchestrator:
    whatever the request and whatever it meets, a configuration in the answer is
    the stored one with no password but the mask; reading the configuration
    changes nothing; writing one leaves the stored one as it was or stores a
    valid one, with the passwords it had where the page sent a blank or the
    mask; and writing back the configuration as it was shown leaves it as it
    was. *)
Theorem page_keeps_passwords {G E D R K} `{Engine G, !EngineReport G, Enforcer E, ClientStore D, HR : WalletClient R,
    NewWallet R, HK : Socket K}
  `{Sha256, ResultJSON, URL, Unicode, ErrorText (enf_error (E := E)), GoArch, IPv6, NameService, SortSlice, UiJSON}
  err_text text demo (c c' : Client (G := G) (E := E) (D := D) (R := R) (K := K)) io r rsp :
  serve_ui (H := app_provider err_text text demo) io r c = (c', rsp) →
  (∀ k, rsp_Body rsp = JConfig k → k = Redacted (cfg (app c'))
     ∧ RPCPassword (ClientConfig.Dero k) ∈ [""; "***"] ∧ Password (ClientConfig.Wallet k) ∈ [""; "***"])
  ∧ (u_Path r = "/api/config" →
     if is_get r then c' = c ∧ rsp = mkUiResponse 200 (JConfig (Redacted (cfg (app c))))
     else (cfg (app c') = cfg (app c)
           ∨ ∃ new, read_config (u_Body r) = Ok new ∧ Validate (cfg (app c')) = Ok tt
               ∧ cfg (app c') = keep_secrets new (cfg (app c)))
          ∧ (read_config (u_Body r) = Ok (Redacted (cfg (app c))) → cfg (app c') = cfg (app c))).
Proof.
  assert (∀ k, RPCPassword (ClientConfig.Dero (Redacted k)) ∈ [""; "***"]
    ∧ Password (ClientConfig.Wallet (Redacted k)) ∈ [""; "***"]) as Hm.
  { intros k. cbn. split; [destruct (masked (RPCPassword (ClientConfig.Dero k))) as [-> | ->]
                          |destruct (masked (Password (ClientConfig.Wallet k))) as [-> | ->]]; set_solver. }
  intros Hr. destruct (decide (u_Path r = "/api/config")) as [Hp|Hp].
  2: { split; [|done]. intros k Hk. exfalso. apply Hp.
       pose proof (run_gives (H := app_provider err_text text demo) (proper r) _ io c (handler_gives (fun _ => true) r)) as Hg.
       unfold serve_ui in Hr. cbn [capable app_provider] in Hr. rewrite Hr in Hg. apply Hg in Hk. apply Hk. }
  revert Hr. unfold serve_ui, Handler. rewrite Hp. cbn [String.eqb Ascii.eqb Bool.eqb]. unfold handleConfig.
  destruct (is_get r); [intros [= <- <-]; split; [intros k [= <-]; by split|done]|].
  destruct (read_config (u_Body r)) as [new|e]; [|intros [= <- <-]; split; [done|intros _; split; [by left|done]]].
  cbn. unfold told, UpdateConfig. destruct (Validate (keep_secrets new (cfg (app c)))) as [[]|e] eqn:Ev; cbn.
  2: { intros [= <- <-]. split; [done|]. intros _. split; [by left|done]. }
  destruct (sio_save (io 1%nat)) as [[]|e]; cbn.
  - intros [= <- <-]. split; [intros k [= <-]; by split|]. intros _. split; [right; by exists new|].
    intros [= ->]. apply keep_redacted.
  - intros [= <- <-]. split; [done|]. intros _. split; [by left|done].
Qed.

(** ** Witnesses and examples *)

#[local] Existing Instances stable_sort amd64 no_ipv6 ascii_unicode toy_sha256 WgConf.demo_netip App.demo_store App.demo_names
  App.demo_os_enforcer App.demo_os_enforcer_laws EngineAdapter.plain_engine_text
  Xswd.script_socket Xswd.script_laws Xswd.text_json Xswd.one_url Wallet.plain_texts Wallet.daemon.

(** Bodies that are their own field. *)
#[local] Instance plain_bodies : UiJSON := {
  read_spec s := Ok (mkSpec "xswd" "" "" "" "" false);
  read_pay s := if String.eqb s "" then Err "EOF" else Ok (s, f1);
  read_node_id s := s;
  read_config s := if String.eqb s "shown" then Ok (Redacted with_password) else Err "EOF";
  read_circuit s := mkCircuitRequest "n2" s "n1" false 0;
  read_confirm s := Ok (f1, s)
}.

Definition page_calls (l : list (option xswdReply)) (n : nat) : service_io script := demo_sio l.
Definition page (l : list (option xswdReply)) (r : ui_request) (c : DemoService) : DemoService * ui_response :=
  serve_ui (H := app_provider (fun _ => "error") demo_text false) (page_calls l) r c.
Definition post (path body : string) : ui_request := mkUiRequest "POST" path "" body.
Definition get (path : string) : ui_request := mkUiRequest "GET" path "" "".

(** A wallet over the bridge, and an approval. *)
Definition page_wallet : DemoService :=
  (page [] (post "/api/approve-payment" "")
    (page [yes ""; yes "dero1"; yes "{}"; yes "tx-9"; yes "dero1"; yes "{}"] (post "/api/wallet" "{}") demo_start).1).1.
Definition page_paid := page [] (post "/api/wallet/pay" "dero1dest") page_wallet.


(** Any page a browser shows can send these: no header, no secret and no method
    is asked for. *)
Example two_requests_pay :
  spent page_wallet = [] ∧ spent (page [] (get "/api/approve-payment") page_wallet).1 = []
  ∧ spent (page [] (mkUiRequest "GET" "/api/wallet/pay" "" "dero1dest") page_wallet).1 = [("dero1dest", 100000)].
Proof. vm_compute. split_and!; reflexivity. Qed.

Lemma page_keeps_passwords_witness :
  let r := page [] (post "/api/config" "shown") secret_service in
  r.2 = mkUiResponse 200 (JConfig (Redacted with_password)) ∧ cfg (app r.1) = with_password.
Proof.
  set (r := page _ _ _). assert (r.2 = mkUiResponse 200 (JConfig (Redacted with_password))) as E by (vm_compute; reflexivity).
  destruct (page_keeps_passwords (fun _ => "error") demo_text false secret_service r.1 (page_calls [])
    (post "/api/config" "shown") r.2 (surjective_pairing _)) as (_ & Hc).
  split; [exact E|]. specialize (Hc eq_refl). cbn [is_get String.eqb] in Hc. exact (proj2 Hc eq_refl).
Defined.
