(* ===== verification/Codec.v ===== *)
(** * Codec: a concrete codec for the values that cross the service channel

    Every value of the replies and payloads as a text, and back: an instance
    behind the interfaces that stand for JSON, so that their laws are seen to
    hold of something.  A value is numbered and its number written in binary. *)

From Stdlib Require Import ZArith Lia Ascii.
From stdpp Require Import countable.
From S2P Require Import Prelude Float64 GoStrings.
From S2P Require Import ClientConfig.
From S2P Require Import App.
From S2P Require Import Diag.
From S2P Require Import Wallet.

(** ** Numbers as texts *)

Fixpoint bits (p : positive) : list ascii :=
  match p with xH => [] | xO p => "0"%char :: bits p | xI p => "1"%char :: bits p end.
Fixpoint of_bits (l : list ascii) : positive :=
  match l with [] => xH | c :: l => if Ascii.eqb c "1"%char then xI (of_bits l) else xO (of_bits l) end.
Definition to_text {A} `{Countable A} (x : A) : string := of_chars ("#"%char :: bits (encode x)).
Definition of_text {A} `{Countable A} (s : string) : result string A :=
  match chars s with
  | "#"%char :: l => match decode (of_bits l) with Some x => Ok x | None => Err "invalid character" end
  | _ => Err "unexpected end of JSON input"
  end.

Lemma of_bits_bits p : of_bits (bits p) = p.
Proof. induction p as [p IH|p IH|]; cbn; [by rewrite IH..|done]. Qed.

(** What is written is read back, is not blank, and holds none of the bytes that
    separate fields. *)
Lemma text_roundtrip {A} `{Countable A} (x : A) : of_text (to_text x) = Ok x.
Proof. unfold of_text, to_text. rewrite chars_of_chars. cbn. by rewrite of_bits_bits, decode_encode. Qed.
Lemma text_not_blank {A} `{Countable A} (x : A) : to_text x ≠ "".
Proof. done. Qed.
Lemma text_free {A} `{Countable A} (x : A) c : c ∉ ["#"; "0"; "1"]%char → c ∉ chars (to_text x).
Proof.
  intros Hc. unfold to_text. rewrite chars_of_chars.
  assert (∀ p, c ∉ bits p) as Hb.
  { induction p as [p IH|p IH|]; cbn; [..|by intros Hx%elem_of_nil]; intros [->|Hx]%elem_of_cons; try done; apply Hc; set_solver. }
  intros [->|Hx]%elem_of_cons; [apply Hc; set_solver|by apply Hb in Hx].
Qed.

(** ** The values *)

#[export] Instance spec_float_countable : Countable Floats.SpecFloat.spec_float.
Proof.
  refine (inj_countable' (fun f => match f with
    | Floats.SpecFloat.S754_zero s => inl (inl s) | Floats.SpecFloat.S754_infinity s => inl (inr s)
    | Floats.SpecFloat.S754_nan => inr (inl tt) | Floats.SpecFloat.S754_finite s m e => inr (inr (s, m, e)) end)
    (fun x => match x with
    | inl (inl s) => Floats.SpecFloat.S754_zero s | inl (inr s) => Floats.SpecFloat.S754_infinity s
    | inr (inl _) => Floats.SpecFloat.S754_nan | inr (inr (s, m, e)) => Floats.SpecFloat.S754_finite s m e end) _).
  by intros [].
Defined.
#[export] Instance float64_countable : Countable float64 := spec_float_countable.

(** A record as the tuple of its fields. *)
Ltac by_fields f g := refine (inj_countable' f g _); by intros [].

#[export] Instance NetworkConfig_countable : Countable NetworkConfig.
Proof.
  by_fields (fun c => (ProbeTimeoutSecs c, SelectPolicy c, HandshakeTimeout c, Transport c))
    (fun '(a, b, c, d) => mkNetworkConfig a b c d).
Defined.
#[export] Instance CoverConfig_countable : Countable CoverConfig.
Proof.
  by_fields (fun c => (cov_Mode c, CellSizeBytes c, IntervalMs c, MaxOverhead c)) (fun '(a, b, c, d) => mkCoverConfig a b c d).
Defined.
#[export] Instance DeroConfig_countable : Countable DeroConfig.
Proof.
  by_fields (fun c => (RPCEndpoint c, RPCUser c, RPCPassword c, dero_Network c)) (fun '(a, b, c, d) => mkDeroConfig a b c d).
Defined.
#[export] Instance WalletConfig_countable : Countable WalletConfig.
Proof.
  by_fields (fun c => (wal_Mode c, wal_Endpoint c, wal_Name c, User c, Password c, XSWDEndpoint c, AppName c))
    (fun '(a, b, c, d, e, f, g) => mkWalletConfig a b c d e f g).
Defined.
#[export] Instance DNSConfig_countable : Countable DNSConfig.
Proof. by_fields (fun c => (dns_Mode c, Servers c, DoHURL c, IPv6Upstream c)) (fun '(a, b, c, d) => mkDNSConfig a b c d). Defined.
#[export] Instance MultihopConfig_countable : Countable MultihopConfig.
Proof. by_fields (fun c => (Enabled c, EntryRegion c, RotateMinutes c)) (fun '(a, b, c) => mkMultihopConfig a b c). Defined.
#[export] Instance PaymentsConfig_countable : Countable PaymentsConfig.
Proof. by_fields (fun c => (MaxPerHourDero c, Confirmations c, Currency c)) (fun '(a, b, c) => mkPaymentsConfig a b c). Defined.
#[export] Instance LoggingConfig_countable : Countable LoggingConfig.
Proof. by_fields (fun c => (Level c, File c)) (fun '(a, b) => mkLoggingConfig a b). Defined.
#[export] Instance ClientConfig_countable : Countable ClientConfig.
Proof.
  by_fields (fun c => (Network c, Dero c, ClientConfig.Wallet c, DNS c, KillSwitch c, AutoConnect c, Region c, Multihop c, Cover c, Payments c,
      Logging c)) (fun '(a, b, c, d, e, f, g, h, i, j, k) => mkClientConfig a b c d e f g h i j k).
Defined.

#[export] Instance NodeInfo_eq_dec : EqDecision NodeInfo.
Proof. solve_decision. Defined.
#[export] Instance NodeInfo_countable : Countable NodeInfo.
Proof.
  by_fields (fun n => (NodeID n, WGPubkey n, n_Region n, Country n, City n, Endpoint n, PricePerHourDero n, CapacityMaxClients n,
      ProtocolVersion n, BondDero n, n_Status n, Version n, Load n, LatencyMs n, Trust n, FailCount n))
    (fun '(a, b, c, d, e, f, g, h, i, j, k, l, m, n, o, p) => mkNodeInfo a b c d e f g h i j k l m n o p).
Defined.
#[export] Instance SessionInfo_eq_dec : EqDecision SessionInfo.
Proof. solve_decision. Defined.
#[export] Instance SessionInfo_countable : Countable SessionInfo.
Proof. by_fields (fun x => (ses_Active x, SessionID x, ses_NodeID x, StartedAt x)) (fun '(a, b, c, d) => mkSessionInfo a b c d). Defined.
#[export] Instance Circuit_eq_dec : EqDecision Circuit.
Proof. solve_decision. Defined.
#[export] Instance Circuit_countable : Countable Circuit.
Proof.
  by_fields (fun c => (c_Active c, EntryID c, MiddleID c, ExitID c, Hops c, Countries c, Prices c, GuardPinned c, GuardSince c,
      BuiltAt c, Rotations c)) (fun '(a, b, c, d, e, f, g, h, i, j, k) => mkCircuit a b c d e f g h i j k).
Defined.
#[export] Instance PaymentInfo_eq_dec : EqDecision PaymentInfo.
Proof. solve_decision. Defined.
#[export] Instance PaymentInfo_countable : Countable PaymentInfo.
Proof.
  by_fields (fun p => (pay_MaxPerHour p, SpentLastHour p, Receipts p, LastTxID p, PendingApproval p))
    (fun '(a, b, c, d, e) => mkPaymentInfo a b c d e).
Defined.
#[export] Instance ConnState_eq_dec : EqDecision ConnState.
Proof. solve_decision. Defined.
#[export] Instance ConnState_countable : Countable ConnState.
Proof.
  by_fields (fun s => (cs_EngineState s, cs_Node s, ConnectedAt s, ElapsedSecs s, cs_RxBytes s, cs_TxBytes s, cs_Session s,
      cs_Payment s, cs_Circuit s, Demo s)) (fun '(a, b, c, d, e, f, g, h, i, j) => mkConnState a b c d e f g h i j).
Defined.
#[export] Instance Check_eq_dec : EqDecision Check.
Proof. solve_decision. Defined.
#[export] Instance Check_countable : Countable Check.
Proof. by_fields (fun c => (Name c, OK c, Value c, Detail c)) (fun '(a, b, c, d) => mkCheck a b c d). Defined.
#[export] Instance Diagnostics_eq_dec : EqDecision Diagnostics.
Proof. solve_decision. Defined.
#[export] Instance Diagnostics_countable : Countable Diagnostics.
Proof.
  by_fields (fun d => (d_At d, d_Tunnel d, d_ExitIP d, d_LocalIPCheck d, d_DNSRoute d, d_IPv6 d, d_KillSwitch d, d_Enforcement d,
      d_Node d, d_Multihop d)) (fun '(a, b, c, d, e, f, g, h, i, j) => mkDiagnostics a b c d e f g h i j).
Defined.
#[export] Instance WalletStatus_eq_dec : EqDecision WalletStatus.
Proof. solve_decision. Defined.
#[export] Instance WalletStatus_countable : Countable WalletStatus.
Proof.
  by_fields (fun w => (ws_Mode w, ws_Connected w, ws_Endpoint w, ws_Address w, BalanceDero w, UnlockedDero w, ws_Network w,
      ws_Error w, CheckedAt w)) (fun '(a, b, c, d, e, f, g, h, i) => mkWalletStatus a b c d e f g h i).
Defined.
#[export] Instance WalletConnectSpec_eq_dec : EqDecision WalletConnectSpec.
Proof. solve_decision. Defined.
#[export] Instance WalletConnectSpec_countable : Countable WalletConnectSpec.
Proof.
  by_fields (fun s => (sp_Mode s, sp_Endpoint s, sp_User s, sp_Password s, sp_AppName s, Persist s))
    (fun '(a, b, c, d, e, f) => mkSpec a b c d e f).
Defined.
