(* ===== verification/Rpc.v ===== *)
(** * Rpc: the JSON-RPC clients of the chain (internal/dero/client.go, mock.go)

    The typed calls of the daemon and of the wallet over the transport of
    [WalletAuth], and their canned doubles.  The wallet over the wire is an
    instance of the interface of [Dero] that the payments and the client are
    written against.  HTTP, JSON and the server are classes. *)

From Stdlib Require Import ZArith Lia.
From S2P Require Import Prelude Float64 GoStrings GoText.
From S2P Require Import WalletAuth.
From S2P Require Import Dero.
From S2P Require Codec.

(** ** Chain state *)

Record HeightInfo := mkHeightInfo { Height : Z; StableHeight : Z; TopoHeight : Z }.
Record ChainInfo := mkChainInfo {
  ci_Height : Z; ci_StableHeight : Z; ci_TopoHeight : Z; ci_Network : string; ci_Version : string; PeerCount : Z }.
Record TransferInfo := mkTransferInfo { TXID : string; ti_Height : Z; ti_TopoHeight : Z; Incoming : bool }.

Class DaemonClient (D : Type) : Type := {
  GetHeight : D → D * result error HeightInfo;
  GetInfo : D → D * result error ChainInfo;
  dc_Endpoint : D → string
}.

(** ** What is sent and read *)

Inductive rpc_params :=
| PEmpty | PTransfer (destination : string) (amount ringsize : Z)
| PInvoke (scid : string) (ringsize : Z) (sc_rpc : list SCArg) | PTxid (txid : string).

(** [json.Unmarshal] of a result into the fields that are read. *)
Class RPCResults : Type := {
  read_height : string → option HeightInfo;
  read_info : string → option ChainInfo;
  read_balance : string → option Balance;
  read_address : string → option string;
  read_txid : string → option string;
  read_transfer : string → option (Z * Z * bool)
}.

(** The errors of a call, as the callers tell them apart. *)
Definition to_error (e : call_error) : error :=
  match e with
  | ErrUnavailable => ErrDeroUnavailable
  | ErrRejected => ErrRPC "dero: wallet rejected credentials"
  | ErrLogin => ErrRPC "dero: wallet requires rpc-login credentials"
  | ErrDaemon m msg => ErrRPC ("dero: daemon " +:+ m +:+ ": " +:+ msg)
  | ErrWallet m msg => ErrRPC ("dero: wallet " +:+ m +:+ ": " +:+ msg)
  | ErrDecode m => ErrRPC ("dero: decode " +:+ m)
  end.

(** What a submission is on the wire; the network is not sent. *)
Abbreviation wire_call := (string * rpc_params)%type.
Definition entrypoint_arg (ep : string) : SCArg := mkSCArg "entrypoint" "S" (SCString ep).
Definition on_wire (s : submission) : wire_call :=
  match s with
  | Dero.Transfer u => ("transfer", PTransfer (ut_Destination u) (ut_AmountAtomic u) 32)
  | Invoke u => ("scinvoke", PInvoke (ui_SCID u) 2 (entrypoint_arg (ui_Entrypoint u) :: ui_Args u))
  end.
Definition spends (method : string) : bool := String.eqb method "transfer" || String.eqb method "scinvoke".

(** ASCII texts and numbers of 64 bits, which JSON carries as they are. *)
Definition ascii_text (s : string) : bool := forallb (fun c => byte_val c <? 128) (chars s).
Definition plain_arg (a : SCArg) : bool :=
  ascii_text (arg_Name a) && ascii_text (arg_DataType a)
  && match arg_Value a with SCString s => ascii_text s | SCUint64 n => (0 <=? n) && (n <? 2 ^ 64) end.
Definition plain_params (p : rpc_params) : bool :=
  match p with
  | PEmpty => true
  | PTransfer d n r => ascii_text d && (0 <=? n) && (n <? 2 ^ 64) && (0 <=? r) && (r <? 2 ^ 64)
  | PInvoke s r l => ascii_text s && (0 <=? r) && (r <? 2 ^ 64) && forallb plain_arg l
  | PTxid t => ascii_text t
  end.

(** The server at the other end: the calls it has carried out, what it reads
    from a body, and what it does.  It acts on a call it can read, at most once
    a request; a request it answers 401 is not acted on; a spending call that it
    answers with a result was carried out. *)
Class WalletServer (T : Type) `{Transport T, RPCJSON rpc_params} : Type := {
  spent : T → list wire_call;
  wanted : string → option wire_call;
  reads_method m p : ∃ p', wanted (rpc_encode m (Some p)) = Some (m, p');
  reads_plain m p : plain_params p = true → wanted (rpc_encode m (Some p)) = Some (m, p);
  acts t req : spent (http_Do t req).1 = spent t
    ∨ ∃ m p, wanted (rq_body req) = Some (m, p) ∧ spends m = true ∧ spent (http_Do t req).1 = spent t ++ [(m, p)];
  unauthorised t req resp : (http_Do t req).2 = Some resp → StatusCode resp = StatusUnauthorized →
    spent (http_Do t req).1 = spent t;
  answers t req resp m p raw : wanted (rq_body req) = Some (m, p) → spends m = true →
    (http_Do t req).2 = Some resp → StatusCode resp ≠ StatusUnauthorized →
    rpc_decode (resp_body resp) = Some (raw, None) → spent (http_Do t req).1 = spent t ++ [(m, p)]
}.

(** ** The daemon *)

Record RpcDaemon (T : Type) := mkRpcDaemon { rd_base : string; rd_wire : T }.
Arguments mkRpcDaemon {_}. Arguments rd_base {_}. Arguments rd_wire {_}.

Section daemon.
Context {T : Type} `{Transport T, RPCJSON rpc_params, RPCResults, URL}.
Implicit Types d : RpcDaemon T.

Definition NewDaemonClient (base : string) (t : T) : RpcDaemon T := mkRpcDaemon base t.
Definition daemon_call {A} d (method : string) (decode : string → option A) : RpcDaemon T * result error A :=
  let '(t, r) := HTTPDaemonClient_call (rd_wire d) (rd_base d) method decode in
  (mkRpcDaemon (rd_base d) t, result_map_err to_error r).
Definition HTTPDaemonClient_GetHeight d : RpcDaemon T * result error HeightInfo := daemon_call d "DERO.GetHeight" read_height.
Definition HTTPDaemonClient_GetInfo d : RpcDaemon T * result error ChainInfo := daemon_call d "DERO.GetInfo" read_info.
Definition HTTPDaemonClient_Endpoint d : string := rd_base d.

#[export] Instance rpc_daemon : DaemonClient (RpcDaemon T) := {
  GetHeight := HTTPDaemonClient_GetHeight; GetInfo := HTTPDaemonClient_GetInfo; dc_Endpoint := HTTPDaemonClient_Endpoint }.
End daemon.

(** ** The wallet *)

(** [rw_rand] is the random bytes of the calls to come.  [rw_ledger] is kept for
    the proofs: the submissions the server has carried out. *)
Record RpcWallet (T : Type) := mkRpcWallet {
  rw_base : string; rw_auth : creds; rw_wire : T; rw_rand : list (option (list Z)); rw_ledger : list submission }.
Arguments mkRpcWallet {_}. Arguments rw_base {_}. Arguments rw_auth {_}. Arguments rw_wire {_}.
Arguments rw_rand {_}. Arguments rw_ledger {_}.

Section wallet.
Context {T : Type} `{WalletServer T, RPCResults, URL, Md5, Unicode, StrconvQuote}.
Implicit Types c : RpcWallet T.

Definition NewWalletClientAuth (base user pass : string) (t : T) (rand : list (option (list Z))) : RpcWallet T :=
  mkRpcWallet base (mkCreds user pass) t rand [].
Definition NewWalletClient (base : string) (t : T) (rand : list (option (list Z))) : RpcWallet T :=
  NewWalletClientAuth base "" "" t rand.
Definition HTTPWalletClient_Endpoint c : string := rw_base c.

Definition wallet_call {A} c (method : string) (p : rpc_params) (decode : string → option A) : RpcWallet T * result error A :=
  let '(t, r) := HTTPWalletClient_call (rw_wire c) (rw_base c) (rw_auth c) method p decode (hd None (rw_rand c)) in
  (mkRpcWallet (rw_base c) (rw_auth c) t (tl (rw_rand c)) (rw_ledger c), result_map_err to_error r).

Definition HTTPWalletClient_GetBalance c : RpcWallet T * result error Balance := wallet_call c "GetBalance" PEmpty read_balance.
Definition HTTPWalletClient_GetAddress c : RpcWallet T * result error string := wallet_call c "GetAddress" PEmpty read_address.

(** A spending call, and its place in the ledger when the server acted. *)
Definition acted (t t' : T) : bool := (length (spent t) <? length (spent t'))%nat.
Definition submit_call c (s : submission) : RpcWallet T * result error string :=
  let '(c', r) := wallet_call c (on_wire s).1 (on_wire s).2 read_txid in
  (mkRpcWallet (rw_base c') (rw_auth c') (rw_wire c') (rw_rand c')
     (rw_ledger c' ++ if acted (rw_wire c) (rw_wire c') then [s] else []), r).

Definition HTTPWalletClient_SubmitTransfer c (u : UnsignedTransfer) : RpcWallet T * result error string :=
  if negb (String.eqb (ut_Network u) NetworkTestnet) && negb (String.eqb (ut_Network u) NetworkMainnet)
  then (c, Err ErrRefusedNetwork) else submit_call c (Dero.Transfer u).
Definition HTTPWalletClient_SubmitInvoke c (u : UnsignedInvoke) : RpcWallet T * result error string :=
  if negb (String.eqb (ui_Network u) NetworkTestnet) && negb (String.eqb (ui_Network u) NetworkMainnet)
  then (c, Err ErrRefusedNetwork) else submit_call c (Invoke u).

Definition HTTPWalletClient_GetTransferByTXID c (txid : string) : RpcWallet T * result error TransferInfo :=
  let '(c, r) := wallet_call c "GetTransferbyTXID" (PTxid txid) read_transfer in
  (c, match r with Ok (h, topo, inc) => Ok (mkTransferInfo txid h topo inc) | Err e => Err e end).

#[export] Instance rpc_wallet : WalletClient (RpcWallet T) := {
  GetBalance := HTTPWalletClient_GetBalance;
  GetAddress := HTTPWalletClient_GetAddress;
  BuildTransfer := build_transfer;
  SubmitTransfer := HTTPWalletClient_SubmitTransfer;
  BuildInvoke := build_invoke;
  SubmitInvoke := HTTPWalletClient_SubmitInvoke;
  ledger := rw_ledger
}.

(** Whatever is done with one client. *)
Inductive rpc_step : relation (RpcWallet T) :=
| rs_balance c : rpc_step c (HTTPWalletClient_GetBalance c).1
| rs_address c : rpc_step c (HTTPWalletClient_GetAddress c).1
| rs_transfer c u : plain_params (on_wire (Dero.Transfer u)).2 = true → rpc_step c (HTTPWalletClient_SubmitTransfer c u).1
| rs_invoke c u : plain_params (on_wire (Invoke u)).2 = true → rpc_step c (HTTPWalletClient_SubmitInvoke c u).1
| rs_lookup c txid : rpc_step c (HTTPWalletClient_GetTransferByTXID c txid).1.
End wallet.

(** ** The doubles *)

Record MockDaemonClient := mkMockDaemon { md_Height : HeightInfo; md_Info : ChainInfo; md_Fail : bool; md_endpoint : string }.
Definition NewMockDaemon : MockDaemonClient :=
  mkMockDaemon (mkHeightInfo 1000 998 1000) (mkChainInfo 1000 998 1000 "devmock" "mock" 0) false
    (Daemon (DefaultEndpoints NetworkDevMock)).
Definition MockDaemonClient_GetHeight (m : MockDaemonClient) : MockDaemonClient * result error HeightInfo :=
  (m, if md_Fail m then Err ErrDeroUnavailable else Ok (md_Height m)).
Definition MockDaemonClient_GetInfo (m : MockDaemonClient) : MockDaemonClient * result error ChainInfo :=
  (m, if md_Fail m then Err ErrDeroUnavailable else Ok (md_Info m)).
#[export] Instance mock_daemon : DaemonClient MockDaemonClient := {
  GetHeight := MockDaemonClient_GetHeight; GetInfo := MockDaemonClient_GetInfo; dc_Endpoint := md_endpoint }.

Definition HeightSafe : Z := 1000.
Definition MockWalletClient_GetTransferByTXID (m : MockWalletClient) (txid : string) : result error TransferInfo :=
  if Fail m then Err ErrDeroUnavailable else Ok (mkTransferInfo txid HeightSafe HeightSafe false).
Definition MockAdapter_Call `{StrconvQuote} (method : string) : error :=
  ErrRPC ("dero: RPC " +:+ strconv_Quote method +:+ " is not part of the VeilNet DERO surface (see docs/DERO_INTEGRATION.md)").

(** ** Lemmas *)

Section wallet_proofs.
Context {T : Type} `{WalletServer T, RPCResults, URL, Md5, Unicode, StrconvQuote}.
Implicit Types (c : RpcWallet T) (t : T).

(** One exchange over a body that asks for [(m, p)]. *)
Definition did (m : string) (p : rpc_params) (t t' : T) : Prop :=
  spent t' = spent t ∨ spends m = true ∧ spent t' = spent t ++ [(m, p)].

Lemma exchange_did t req m p : wanted (rq_body req) = Some (m, p) → did m p t (http_Do t req).1.
Proof.
  intros Hw. destruct (acts t req) as [Ha|(m' & p' & Hw' & Hs & Ha)]; [by left|].
  rewrite Hw in Hw'. injection Hw' as <- <-. by right.
Qed.

Lemma read_ok {A} fail m resp (decode : string → option A) v :
  read_answer fail m resp decode = Ok v → ∃ raw, rpc_decode (resp_body resp) = Some (raw, None).
Proof. unfold read_answer. destruct (rpc_decode _) as [[raw [e|]]|]; [done| |done]. by exists raw. Qed.

(** Also when the login has to be answered, a call is carried out at most once,
    and exactly once when it succeeds. *)
Lemma call_did {A} t base auth m p (decode : string → option A) rand t' r :
  HTTPWalletClient_call t base auth m p decode rand = (t', r) →
  ∃ p', (plain_params p = true → p' = p) ∧ did m p' t t'
  ∧ (is_ok r = true → spends m = true → spent t' = spent t ++ [(m, p')]).
Proof.
  destruct (reads_method m p) as [p' Hw]. intros Hc. exists p'.
  split; [intros Hp; rewrite (reads_plain m p Hp) in Hw; by injection Hw|]. revert Hc.
  unfold HTTPWalletClient_call, newReq. destruct (url_Parse _) as [u|]; [|intros [= <- <-]; by split; [left|]].
  set (req := mkRequest _ _ _). assert (wanted (rq_body req) = Some (m, p')) as Hr by exact Hw.
  assert (∀ t t1 req resp, wanted (rq_body req) = Some (m, p') → http_Do t req = (t1, Some resp) → did m p' t t1
    ∧ (is_ok (if StatusCode resp =? StatusUnauthorized then Err ErrLogin
              else read_answer (ErrWallet m) m resp decode) = true → spends m = true → spent t1 = spent t ++ [(m, p')])) as Hend.
  { intros s s1 rq resp Hq Hd. pose proof (exchange_did s rq m p' Hq) as Hx. rewrite Hd in Hx. split; [exact Hx|].
    destruct (Z.eqb_spec (StatusCode resp) StatusUnauthorized) as [|Hne]; [done|].
    destruct (read_answer _ _ _ _) eqn:Ea; [|done]. destruct (read_ok _ _ _ _ _ Ea) as [raw Hraw]. intros _ Hs.
    pose proof (answers s rq resp m p' raw Hq Hs) as Ha. rewrite Hd in Ha. by apply Ha. }
  destruct (http_Do t req) as [t1 [resp|]] eqn:Ed.
  2: { intros [= <- <-]. pose proof (exchange_did t req m p' Hr) as Hx. rewrite Ed in Hx. by split. }
  destruct ((StatusCode resp =? StatusUnauthorized) && negb (empty auth)) eqn:Ec.
  2: { intros [= <- <-]. exact (Hend t t1 req resp Hr Ed). }
  apply andb_true_iff in Ec as [Es%Z.eqb_eq _].
  pose proof (unauthorised t req resp) as Hu. rewrite Ed in Hu. specialize (Hu eq_refl Es). cbn in Hu.
  destruct (creds_applyRetryAuth auth req resp rand) as [retry|] eqn:Er; [|intros [= <- <-]; by split; [left|]].
  assert (wanted (rq_body retry) = Some (m, p')) as Hq.
  { revert Er. unfold creds_applyRetryAuth. destruct (_ || _); [done|]. destruct (String.eqb _ _); [done|]. by intros [= <-]. }
  destruct (http_Do t1 retry) as [t2 [resp2|]] eqn:Ed2.
  - intros [= <- <-]. unfold did. rewrite <- Hu. exact (Hend t1 t2 retry resp2 Hq Ed2).
  - intros [= <- <-]. pose proof (exchange_did t1 retry m p' Hq) as Hx. rewrite Ed2 in Hx. unfold did in *. rewrite <- Hu. by split.
Qed.

(** A call of a typed method. *)
Lemma wallet_call_did {A} c m p (decode : string → option A) c' r : wallet_call c m p decode = (c', r) →
  rw_ledger c' = rw_ledger c ∧ ∃ p', (plain_params p = true → p' = p) ∧ did m p' (rw_wire c) (rw_wire c')
  ∧ (is_ok r = true → spends m = true → spent (rw_wire c') = spent (rw_wire c) ++ [(m, p')]).
Proof.
  unfold wallet_call. destruct (HTTPWalletClient_call _ _ _ _ _ _ _) as [t r0] eqn:Ec. intros [= <- <-].
  split; [done|]. destruct (call_did _ _ _ _ _ _ _ _ _ Ec) as (p' & Hp & Hd & Hok). exists p'. cbn.
  split; [done|]. split; [done|]. by destruct r0.
Qed.

Lemma quiet_call {A} c m p (decode : string → option A) : spends m = false →
  spent (rw_wire (wallet_call c m p decode).1) = spent (rw_wire c) ∧ rw_ledger (wallet_call c m p decode).1 = rw_ledger c.
Proof.
  intros Hs. destruct (wallet_call c m p decode) as [c' r] eqn:Ec.
  destruct (wallet_call_did _ _ _ _ _ _ Ec) as (Hl & p' & _ & [Hd|[Hx _]] & _); [done|congruence].
Qed.

(** A submission: nothing happened, or the server carried out this call and it
    is in the ledger; the latter when it succeeded. *)
Lemma submit_did c s c' r : submit_call c s = (c', r) →
  let m := (on_wire s).1 in
  ∃ p', (plain_params (on_wire s).2 = true → p' = (on_wire s).2)
  ∧ (spent (rw_wire c') = spent (rw_wire c) ∧ rw_ledger c' = rw_ledger c ∧ is_ok r = false
     ∨ spent (rw_wire c') = spent (rw_wire c) ++ [(m, p')] ∧ rw_ledger c' = rw_ledger c ++ [s]).
Proof.
  unfold submit_call. destruct (wallet_call _ _ _ _) as [c1 r1] eqn:Ec. intros [= <- <-]. cbn [rw_wire rw_ledger]. cbv zeta.
  destruct (wallet_call_did _ _ _ _ _ _ Ec) as (Hl & p' & Hp & Hd & Hok). exists p'. split; [done|].
  assert (spends (on_wire s).1 = true) as Hs by by destruct s. unfold acted. rewrite Hl.
  destruct Hd as [Hd|[_ Hd]]; rewrite Hd, ?length_app.
  - left. rewrite Nat.ltb_irrefl, app_nil_r. split_and!; [done|done|]. destruct (is_ok r1) eqn:Er; [|done].
    specialize (Hok eq_refl Hs). rewrite Hd in Hok. apply (f_equal length) in Hok. rewrite length_app in Hok. cbn in Hok. lia.
  - right. by rewrite (proj2 (Nat.ltb_lt _ _)) by (cbn [length]; lia).
Qed.

(** What the interface promises holds of the wallet over the wire. *)
#[export] Instance rpc_wallet_laws : WalletLaws (RpcWallet T).
Proof.
  assert (∀ c s, rw_ledger (submit_call c s).1 = rw_ledger c ∨ rw_ledger (submit_call c s).1 = rw_ledger c ++ [s]) as Hmost.
  { intros c s. destruct (submit_call c s) as [c' r] eqn:Es. destruct (submit_did _ _ _ _ Es) as (p' & _ & [(_ & Hl & _)|[_ Hl]]); auto. }
  assert (∀ c s v, (submit_call c s).2 = Ok v → rw_ledger (submit_call c s).1 = rw_ledger c ++ [s]) as Hok.
  { intros c s v. destruct (submit_call c s) as [c' r] eqn:Es. cbn. intros ->.
    by destruct (submit_did _ _ _ _ Es) as (p' & _ & [(_ & _ & Hx)|[_ Hl]]). }
  split; cbn; eauto using build_transfer_inv, build_invoke_inv.
  - intros c. by apply quiet_call.
  - intros c. by apply quiet_call.
  - intros c u. unfold HTTPWalletClient_SubmitTransfer. destruct (_ && _); auto.
  - intros c u v. unfold HTTPWalletClient_SubmitTransfer. destruct (_ && _); [done|]. apply Hok.
  - intros c u. unfold HTTPWalletClient_SubmitInvoke. destruct (_ && _); auto.
  - intros c u v. unfold HTTPWalletClient_SubmitInvoke. destruct (_ && _); [done|]. apply Hok.
Qed.

(** The server has carried out the ledger and nothing else, on a real network. *)
Record faithful (before : list wire_call) c : Prop := {
  fa_spent : spent (rw_wire c) = before ++ map on_wire (rw_ledger c);
  fa_network : Forall (fun s => spendable_network (match s with Dero.Transfer u => ut_Network u | Invoke u => ui_Network u end) = true)
    (rw_ledger c)
}.

Lemma submit_faithful before c s : plain_params (on_wire s).2 = true →
  spendable_network (match s with Dero.Transfer u => ut_Network u | Invoke u => ui_Network u end) = true →
  faithful before c → faithful before (submit_call c s).1.
Proof.
  intros Hp Hn [Hs Hf]. destruct (submit_call c s) as [c' r] eqn:Es.
  destruct (submit_did _ _ _ _ Es) as (p' & Hp' & [(Ew & El & _)|[Ew El]]); specialize (Hp' Hp); subst p'; cbn; split.
  - by rewrite Ew, El.
  - by rewrite El.
  - rewrite Ew, El, Hs, map_app, <- app_assoc. by rewrite <- surjective_pairing.
  - rewrite El, Forall_app. by split; [|constructor].
Qed.

Lemma step_faithful before c c' : rpc_step c c' → faithful before c → faithful before c'.
Proof.
  assert (∀ A c m p (decode : string → option A), spends m = false → faithful before c → faithful before (wallet_call c m p decode).1)
    as Hquiet.
  { intros A c0 m p decode Hm [Hs Hf]. destruct (quiet_call c0 m p decode Hm) as [E1 E2]. split; [by rewrite E1, E2|by rewrite E2]. }
  intros Hs Hf. destruct Hs as [c|c|c u Hp|c u Hp|c txid].
  - by apply Hquiet.
  - by apply Hquiet.
  - unfold HTTPWalletClient_SubmitTransfer. destruct (_ && _) eqn:En; [done|]. apply submit_faithful; [done| |done].
    unfold spendable_network. by rewrite <- negb_false_iff, negb_orb.
  - unfold HTTPWalletClient_SubmitInvoke. destruct (_ && _) eqn:En; [done|]. apply submit_faithful; [done| |done].
    unfold spendable_network. by rewrite <- negb_false_iff, negb_orb.
  - unfold HTTPWalletClient_GetTransferByTXID. pose proof (Hquiet _ c "GetTransferbyTXID" (PTxid txid) read_transfer eq_refl Hf) as Hx.
    by destruct (wallet_call _ _ _ _).
Qed.
End wallet_proofs.

(** ** Properties *)

(** C20: over the wire, only submissions spend, and each at most once.  For a
    wallet client with or without a login, over any server that acts on a
    request at most once and not on one it answers 401, whatever the network
    loses: after any calls with plain texts, what the server has carried out is
    what it had before and then the client's ledger, one call for each
    submission, with its destination and amount or its contract call, all for
    the test or the main network.  And a submission that reported success is
    the last of them. *)
Theorem rpc_spends_its_ledger {T} `{WalletServer T, RPCResults, URL, Md5, Unicode, StrconvQuote}
  base user pass (t : T) rand c : rtc rpc_step (NewWalletClientAuth base user pass t rand) c →
  spent (rw_wire c) = spent t ++ map on_wire (ledger c)
  ∧ Forall (fun s => spendable_network (match s with Dero.Transfer u => ut_Network u | Invoke u => ui_Network u end) = true) (ledger c)
  ∧ (∀ u c' txid, plain_params (on_wire (Dero.Transfer u)).2 = true → SubmitTransfer c u = (c', Ok txid) →
       spent (rw_wire c') = spent t ++ map on_wire (ledger c) ++ [("transfer", PTransfer (ut_Destination u) (ut_AmountAtomic u) 32)]
       ∧ ut_Network u ∈ [NetworkTestnet; NetworkMainnet]).
Proof.
  intros Hr. assert (faithful (spent t) c) as [Hs Hf].
  { remember (NewWalletClientAuth _ _ _ _ _) as c0 eqn:E. assert (faithful (spent t) c0) as Hx by (subst; split; [by rewrite app_nil_r|constructor]).
    clear E. induction Hr as [|x y z Hxy _ IH]; [done|]. apply IH. by apply (step_faithful _ x). }
  split; [exact Hs|]. split; [exact Hf|]. intros u c' txid Hp Hsub. cbn in Hsub. unfold HTTPWalletClient_SubmitTransfer in Hsub.
  destruct (_ && _) eqn:En; [done|]. destruct (submit_did _ _ _ _ Hsub) as (p' & Hp' & [(_ & _ & Hx)|[Ew _]]); [done|].
  specialize (Hp' Hp). subst p'. rewrite Ew, Hs, <- app_assoc. split; [done|].
  destruct (String.eqb_spec (ut_Network u) NetworkTestnet) as [->|]; [by left|].
  destruct (String.eqb_spec (ut_Network u) NetworkMainnet) as [->|]; [by right; left|done].
Qed.

(** ** Witness data *)

#[local] Instance sc_value_eq_dec : EqDecision sc_value.
Proof. solve_decision. Defined.
#[local] Instance sc_value_countable : Countable sc_value.
Proof.
  refine (inj_countable' (fun v => match v with SCString s => inl s | SCUint64 n => inr n end)
    (fun v => match v with inl s => SCString s | inr n => SCUint64 n end) _). by intros [].
Defined.
#[local] Instance SCArg_eq_dec : EqDecision SCArg.
Proof. solve_decision. Defined.
#[local] Instance SCArg_countable : Countable SCArg.
Proof.
  refine (inj_countable' (fun a => (arg_Name a, arg_DataType a, arg_Value a)) (fun '(n, d, v) => mkSCArg n d v) _). by intros [].
Defined.
#[local] Instance rpc_params_eq_dec : EqDecision rpc_params.
Proof. solve_decision. Defined.
#[local] Instance rpc_params_countable : Countable rpc_params.
Proof.
  refine (inj_countable' (fun p => match p with
      | PEmpty => inl (inl tt) | PTransfer d n r => inl (inr (d, n, r)) | PInvoke s r l => inr (inl (s, r, l)) | PTxid t => inr (inr t) end)
    (fun p => match p with
      | inl (inl _) => PEmpty | inl (inr (d, n, r)) => PTransfer d n r | inr (inl (s, r, l)) => PInvoke s r l
      | inr (inr t) => PTxid t end) _). by intros [].
Defined.

(** A wallet that wants a login, whatever it is, and carries out what it reads. *)
#[local] Instance coded : RPCJSON rpc_params := {
  rpc_encode m p := Codec.to_text (m, p);
  rpc_decode s := if String.eqb s "" then None else Some (s, None) }.
#[local] Instance coded_results : RPCResults := {
  read_height _ := Some (mkHeightInfo 5 4 5); read_info _ := None; read_balance _ := Some (mkBalance 7 6);
  read_address s := Some s; read_txid s := Some s; read_transfer _ := None }.
Definition wanted_of (body : string) : option wire_call :=
  match Codec.of_text body with Ok (m, Some p) => Some (m, p) | _ => None end.
Definition carried_out (t : list wire_call) (req : http_request) : list wire_call :=
  if String.eqb (Authorization req) "" then t
  else match wanted_of (rq_body req) with Some (m, p) => if spends m then t ++ [(m, p)] else t | None => t end.
#[local] Instance login_server : Transport (list wire_call) := {
  http_Do t req := (carried_out t req,
    Some (if String.eqb (Authorization req) "" then mkResponse 401 "Basic realm=wallet" ""
          else match wanted_of (rq_body req) with Some _ => mkResponse 200 "" "tx1" | None => mkResponse 200 "" "" end)) }.
#[local] Instance login_server_laws : WalletServer (list wire_call).
Proof.
  assert (∀ m p, wanted_of (rpc_encode m (Some p)) = Some (m, p)) as Hw.
  { intros m p. unfold wanted_of, rpc_encode, coded. by rewrite Codec.text_roundtrip. }
  refine {| spent t := t; wanted := wanted_of |}.
  - intros m p. exists p. apply Hw.
  - intros m p _. apply Hw.
  - intros t req. cbn. unfold carried_out. destruct (String.eqb _ _); [by left|]. destruct (wanted_of _) as [[m p]|]; [|by left].
    destruct (spends m) eqn:Em; [|by left]. right. by exists m, p.
  - intros t req resp. cbn. unfold carried_out. destruct (String.eqb _ _); [done|]. by destruct (wanted_of _); intros [= <-].
  - intros t req resp m p raw Hq Hm. cbn. unfold carried_out. rewrite Hq, Hm. destruct (String.eqb _ _); [by intros [= <-]|done].
Defined.
#[local] Instance wire_url : URL := {
  url_Parse s := Some (mkURL "http" "127.0.0.1:10103" "/json_rpc" ""); URL_String u := Scheme u +:+ "://" +:+ Host u +:+ Path u }.
#[local] Instance wire_md5 : Md5 := { md5_Sum s := [] }.
#[local] Instance wire_quote : StrconvQuote := {| strconv_Quote := quoted; strconv_Quote_plain s _ := eq_refl |}.
#[local] Existing Instance ascii_unicode.

Definition logged_in : RpcWallet (list wire_call) := NewWalletClientAuth "http://127.0.0.1:10103" "veil" "s3cret" [] [].
Definition five : UnsignedTransfer := mkUnsignedTransfer "dero1abc" 5 NetworkMainnet.
Definition paid_five : RpcWallet (list wire_call) := (HTTPWalletClient_SubmitTransfer logged_in five).1.

(** ** Witnesses and examples *)

(** Two requests went out for the transfer; it was carried out once. *)
Lemma rpc_spends_its_ledger_witness : spent (rw_wire paid_five) = [("transfer", PTransfer "dero1abc" 5 32)].
Proof.
  assert (rtc rpc_step logged_in paid_five) as Hr by (apply rtc_once, (rs_transfer logged_in five); reflexivity).
  assert (ledger paid_five = [Dero.Transfer five]) as Hl by (vm_compute; reflexivity).
  destruct (rpc_spends_its_ledger "http://127.0.0.1:10103" "veil" "s3cret" [] [] paid_five Hr) as (Hs & _).
  rewrite Hs, Hl. reflexivity.
Defined.

Example transfer_reports_its_id : (HTTPWalletClient_SubmitTransfer logged_in five).2 = Ok "tx1"
  ∧ (HTTPWalletClient_SubmitTransfer (NewWalletClient "http://127.0.0.1:10103" [] []) five).2
    = Err (ErrRPC "dero: wallet requires rpc-login credentials")
  ∧ (HTTPWalletClient_SubmitTransfer logged_in (mkUnsignedTransfer "dero1abc" 5 NetworkDevMock)).2 = Err ErrRefusedNetwork.
Proof. vm_compute. split_and!; reflexivity. Qed.
