(* ===== verification/NodeStatus.v ===== *)
(** * NodeStatus: the node's subcommands and its status screen (cmd/veilnet-node/main.go)

    The dispatch on the subcommand, the client of the management API and the
    screen it fills; the API at the other end is [NodeApi].  HTTP is a class, and
    so are the JSON of a reply and the [%.4g] verb. *)

From Stdlib Require Import ZArith Lia Ascii.
From S2P Require Import Prelude Float64 GoStrings Crypto NetIP GoText.
From S2P Require Import Session.
From S2P Require Import ClientConfig.
From S2P Require Import NodeStore NodeConfig.
From S2P Require Import Abuse.
From S2P Require Import Controller NodeApi NodeDaemon.
From S2P Require Codec.

(** [nodes.Version], and the dash of the offline lines. *)
Definition NodeVersion : string := "0.1.0".
Definition dash : string := of_chars (map byte_of [226; 128; 148]).

(** ** Subcommands *)

Inductive subcommand := InitConfig | RunNode | NodeStatus | RotateKeys | ReportAbuse | BlocklistCmd.
(** Which one the arguments name; without one, usage and the exit code. *)
Definition main_dispatch (args : list string) : subcommand + Z :=
  match args with
  | _ :: c :: _ =>
    if String.eqb c "init-config" then inl InitConfig
    else if String.eqb c "run" then inl RunNode
    else if String.eqb c "status" then inl NodeStatus
    else if String.eqb c "rotate-keys" then inl RotateKeys
    else if String.eqb c "report-abuse" then inl ReportAbuse
    else if String.eqb c "blocklist" then inl BlocklistCmd
    else if String.eqb c "-h" || String.eqb c "--help" || String.eqb c "help" then inr 0
    else inr 2
  | _ => inr 2
  end.

(** ** Asking the API *)

(** A value of a JSON object: a number, or how another value prints. *)
Inductive any_value := ANumber (x : float64) | AOther (text : string).
Abbreviation any_map := (gmap string any_value).
Class StatusText : Type := {
  un_map : string → result string any_map;
  sprintf_g4 : float64 → string
}.
(** [http.Client.Do] on a GET with its Authorization: status and body. *)
Class HTTPGet (D : Type) : Type := { http_Get : D → url → string → D * result string (Z * string) }.

(** [MPanic]: the request could not be made, and is used all the same. *)
Inductive mgmt_result := MPanic | MErr (e : string) | MOk (m : any_map).

Section status.
Context {D : Type} `{HTTPGet D, StatusText, URL, IPv6, NodeTOML, GoArch}.
Implicit Types d : D.

Definition mgmtGet d (c : Config) (token path : string) : D * mgmt_result :=
  match url_Parse ("http://" +:+ MgmtBind c +:+ path) with
  | None => (d, MPanic)
  | Some u =>
    match http_Get d u ("Bearer " +:+ token) with
    | (d, Err e) => (d, MErr e)
    | (d, Ok (status, body)) =>
      (d, if negb (status =? 200) then MErr ("mgmt " +:+ path +:+ ": " +:+ strings_TrimSpace body)
          else match un_map body with Err e => MErr e | Ok m => MOk m end)
    end
  end.

(** ** The screen *)

Definition num (m : any_map) (k : string) : string :=
  match m !! k with
  | None => "-"
  | Some (ANumber n) => if f_eq n (f_of_Z (f_to_int64 n)) then fmt_d (f_to_int64 n) else sprintf_g4 n
  | Some (AOther t) => t
  end.

Definition screen (c : Config) (health stats : any_map) : list string :=
  ["ONLINE  veilnet-node " +:+ NodeVersion +:+ " (" +:+ num health "node_type" +:+ ")";
   "  region:      " +:+ Region c +:+ " / " +:+ Country c +:+ " / " +:+ City c;
   "  clients:     " +:+ num health "clients" +:+ "/" +:+ num health "max_clients";
   "  bandwidth:   down " +:+ fmt_d (BandwidthDownMbps c) +:+ " Mbps / up " +:+ fmt_d (BandwidthUpMbps c)
   +:+ " Mbps (rx " +:+ num stats "rx_bytes" +:+ " B / tx " +:+ num stats "tx_bytes" +:+ " B)";
   "  sessions:    today " +:+ num stats "sessions_today";
   "  uptime:      " +:+ num health "uptime_sec" +:+ " s";
   "  dero earned: " +:+ num stats "dero_earned";
   "  load:        " +:+ num stats "load"].

(** What the command prints, with its exit code, or that it panics. *)
Inductive status_result := SPanic | SExit (code : Z) (lines : list string).

Definition cmdStatus d (dir : node_dir) : D * status_result :=
  match Load (d_config dir) with
  | Err _ => (d, SExit 1 ["load config"])
  | Ok c =>
    match d_token dir with
    | None => (d, SExit 1 ["OFFLINE " +:+ dash +:+ " no mgmt token; is the node running? (veilnet-node run)"])
    | Some t =>
      let token := strings_TrimSpace t in
      match mgmtGet d c token "/health" with
      | (d, MPanic) => (d, SPanic)
      | (d, MErr e) => (d, SExit 1 ["OFFLINE " +:+ dash +:+ " " +:+ e; "region=" +:+ Region c +:+ " endpoint=" +:+ PublicEndpoint c])
      | (d, MOk health) =>
        match mgmtGet d c token "/stats" with
        | (d, MPanic) => (d, SPanic)
        | (d, MErr _) => (d, SExit 0 (screen c health ∅))
        | (d, MOk stats) => (d, SExit 0 (screen c health stats))
        end
      end
    end
  end.
End status.

(** ** The API at the other end

    A server on this machine, asked from [la_remote]; the answers it gets from
    outside, one exchange after the other. *)
Record local_api (G : Type) := mkLocalApi { la_server : Server G; la_remote : string; la_io : nat → api_io; la_count : nat }.
Arguments mkLocalApi {_}. Arguments la_server {_}. Arguments la_remote {_}. Arguments la_io {_}. Arguments la_count {_}.

(** The body of a reply, and what is read back from it. *)
Class ReplyBody `{StatusText} : Type := {
  reply_body : reply → string;
  read_health id st acc : ∃ m, un_map (reply_body (JSON (Health id st acc))) = Ok m
    ∧ m !! "node_type" = Some (AOther (st_NodeType st))
    ∧ m !! "clients" = Some (ANumber (f_of_Z (st_Clients st))) ∧ m !! "max_clients" = Some (ANumber (f_of_Z (st_MaxClients st)))
    ∧ m !! "uptime_sec" = Some (ANumber (f_of_Z (st_UptimeSec st)));
  read_stats st : ∃ m, un_map (reply_body (JSON (StatsOf st))) = Ok m
    ∧ m !! "rx_bytes" = Some (ANumber (f_of_Z (st_RxBytes st))) ∧ m !! "tx_bytes" = Some (ANumber (f_of_Z (st_TxBytes st)))
    ∧ m !! "sessions_today" = Some (ANumber (f_of_Z (st_SessionsToday st)))
    ∧ m !! "dero_earned" = Some (ANumber (st_DeroEarned st)) ∧ m !! "load" = Some (ANumber (st_Load st))
}.

Section local.
Context {G : Type} `{WGManager G, WGKeys, IPv6, GoArch, Unicode, ApiJSON, KeyError, StatusText, !ReplyBody}.

#[export] Instance local_get : HTTPGet (local_api G) := {
  http_Get d u auth :=
    let '(s, rep) := Server_handle (la_server d) (mkRequest (la_remote d) auth "GET" (Path u) "") (la_io d (la_count d)) in
    (mkLocalApi s (la_remote d) (la_io d) (S (la_count d)), Ok (status_of rep, reply_body rep)) }.

(** An integer that binary64 holds exactly. *)
Definition small (n : Z) : Prop := 0 ≤ n < 2 ^ 53.

(** ** Lemmas *)

Lemma plain_ascii l : forallb plain_char l = true → forallb (fun c => byte_val c <? 128) l = true.
Proof.
  rewrite !forallb_forall. intros Hp c Hc. specialize (Hp c Hc). unfold plain_char in Hp.
  apply andb_true_iff in Hp as [_ Hp%Z.ltb_lt]. apply Z.ltb_lt. lia.
Qed.
Lemma bearer_plain r t : Authorization r = "Bearer " +:+ t → forallb plain_char (chars t) = true → bearerTokenOf r = t.
Proof.
  intros Hr Ht. unfold bearerTokenOf. rewrite Hr. unfold strings_ToLower, is_ascii.
  rewrite chars_app, forallb_app, (plain_ascii _ Ht). change (forallb (fun c => byte_val c <? 128) (chars "Bearer ")) with true. cbn [andb].
  rewrite map_app. change (map lower_char (chars "Bearer ")) with (chars "bearer ").
  unfold strings_HasPrefix. assert (of_chars (chars "bearer " ++ map lower_char (chars t)) = "bearer " +:+ of_chars (map lower_char (chars t))) as ->
    by (apply chars_inj; by rewrite chars_app, !chars_of_chars).
  rewrite (prefix_app "bearer " "bearer ") by reflexivity.
  change (drop 7 (chars "Bearer " ++ chars t)) with (chars t). rewrite of_chars_chars. by apply trimmed_plain.
Qed.

(** The gate lets the machine's own requests with the token through. *)
Lemma own_request (s : Server G) t path host port ip i : token s = t → t ≠ "" → forallb plain_char (chars t) = true →
  forall remote, net_SplitHostPort remote = Some (host, port) → net_ParseIP host = Some ip → IP_IsLoopback ip = true →
  (Controller_AllowMgmtRequest (ctrl s) host (now i)).2 = true →
  let r := mkRequest remote ("Bearer " +:+ t) "GET" path "" in
  let c := (Controller_AllowMgmtRequest (ctrl s) host (now i)).1 in
  Server_handle s r i = (mkServer (mux c r i).1 (token s), (mux c r i).2).
Proof.
  intros Ht Hne Hp remote Hs Hip Hl Ha r c. unfold Server_handle, authLoopback. cbn [RemoteAddr r]. rewrite Hs.
  subst c. destruct (Controller_AllowMgmtRequest (ctrl s) host (now i)) as [c1 ok]. cbn in Ha. subst ok. rewrite Hip, Hl. cbn [negb andb fst].
  rewrite (bearer_plain r t eq_refl Hp). assert (CheckBearer (token s) t = true) as -> by (apply CheckBearer_eq; by subst).
  cbn [negb]. by destruct (mux c1 r i).
Qed.

(** What asking the own API answers: the payload of a route that changes
    nothing, or an error when the guard refuses. *)
Context `{URL, NodeTOML}.
Section asked.
Context (d : local_api G) (c : Config) (t path host port : string) (ip : IP) (u : url).
Hypotheses (Hne : t ≠ "") (Hp : forallb plain_char (chars t) = true) (Hsame : token (la_server d) = t)
  (Hu : url_Parse ("http://" +:+ MgmtBind c +:+ path) = Some u) (Hpath : Path u = path)
  (Hhost : net_SplitHostPort (la_remote d) = Some (host, port)) (Hip : net_ParseIP host = Some ip) (Hloop : IP_IsLoopback ip = true).
Let k := Controller_AllowMgmtRequest (ctrl (la_server d)) host (now (la_io d (la_count d))).

Lemma own_asked p m : k.2 = true → un_map (reply_body (JSON p)) = Ok m →
  mux k.1 (mkRequest (la_remote d) ("Bearer " +:+ t) "GET" path "") (la_io d (la_count d)) = (k.1, JSON p) →
  mgmtGet d c t path = (mkLocalApi (mkServer k.1 t) (la_remote d) (la_io d) (S (la_count d)), MOk m).
Proof.
  intros Hk Hm Hmux. unfold mgmtGet. rewrite Hu. cbn [http_Get local_get]. rewrite Hpath.
  rewrite (own_request (la_server d) t path host port ip _ Hsame Hne Hp _ Hhost Hip Hloop Hk). fold k. rewrite Hmux.
  cbn [fst snd status_of]. change (negb (200 =? 200)) with false. cbv iota. by rewrite Hm, Hsame.
Qed.
Lemma own_refused : k.2 = false → ∃ d' e, mgmtGet d c t path = (d', MErr e).
Proof.
  intros Hk. unfold mgmtGet. rewrite Hu. cbn [http_Get local_get]. unfold Server_handle, authLoopback. cbn [RemoteAddr].
  rewrite Hhost. subst k. destruct (Controller_AllowMgmtRequest _ _ _) as [k1 ok]. cbn in Hk. subst ok. cbn. by eexists _, _.
Qed.
End asked.
End local.

Lemma num_integer `{StatusText, GoArch} (m : any_map) k n : m !! k = Some (ANumber (f_of_Z n)) → 0 ≤ n < 2 ^ 53 → num m k = fmt_d n.
Proof.
  intros Hk Hn. unfold num. rewrite Hk, f_to_int64_of_Z by done.
  assert (f_eq (f_of_Z n) (f_of_Z n) = true) as ->; [|done].
  by apply (proj2 (f_eq_key _ _ (f_of_Z_not_nan n) (f_of_Z_not_nan n))).
Qed.

(** ** Properties *)


(** ** Witnesses and examples *)

#[local] Existing Instances no_ipv6 amd64 ascii_unicode NodeApi.api_keys NodeApi.api_key_error NodeApi.api_json
  NodeDaemon.brief_toml NodeFirewall.toy_tables toy_sha256 Codec.float64_countable.
#[local] Instance Stats_eq_dec : EqDecision Stats.
Proof. solve_decision. Defined.
#[local] Instance Stats_countable : Countable Stats.
Proof.
  refine (inj_countable' (fun x => (st_Clients x, st_MaxClients x, st_RxBytes x, st_TxBytes x, st_SessionsToday x, st_UptimeSec x,
      st_DeroEarned x, st_Load x, st_NodeType x, st_Region x)) (fun '(a, b, c, d, e, f, g, h, i, j) => mkStats a b c d e f g h i j) _).
  by intros [].
Defined.
Definition fields_of (st : Stats) : any_map :=
  <["node_type" := AOther (st_NodeType st)]> (<["clients" := ANumber (f_of_Z (st_Clients st))]>
  (<["max_clients" := ANumber (f_of_Z (st_MaxClients st))]> (<["uptime_sec" := ANumber (f_of_Z (st_UptimeSec st))]>
  (<["rx_bytes" := ANumber (f_of_Z (st_RxBytes st))]> (<["tx_bytes" := ANumber (f_of_Z (st_TxBytes st))]>
  (<["sessions_today" := ANumber (f_of_Z (st_SessionsToday st))]> (<["dero_earned" := ANumber (st_DeroEarned st)]>
  (<["load" := ANumber (st_Load st)]> ∅)))))))).
#[local] Instance coded_status : StatusText := {
  un_map s := match Codec.of_text s with Ok st => Ok (fields_of st) | Err e => Err e end; sprintf_g4 x := "0.5" }.
#[local] Instance coded_body : ReplyBody.
Proof.
  refine {| reply_body r := match r with JSON (Health _ st _) | JSON (StatsOf st) => Codec.to_text st | HTTPError _ m => m | _ => "" end |}.
  - intros id st acc. cbn [un_map coded_status]. rewrite Codec.text_roundtrip. eexists. split; [reflexivity|]. by split_and!.
  - intros st. cbn [un_map coded_status]. rewrite Codec.text_roundtrip. eexists. split; [reflexivity|]. by split_and!.
Defined.
#[local] Instance bind_url : URL := {
  url_Parse s := if String.eqb s "http://127.0.0.1:18081/health" then Some (mkURL "http" "127.0.0.1:18081" "/health" "")
                 else if String.eqb s "http://127.0.0.1:18081/stats" then Some (mkURL "http" "127.0.0.1:18081" "/stats" "")
                 else None;
  URL_String u := "" }.

Definition running : local_api FakeWGManager :=
  mkLocalApi (server_of demo_files true) "127.0.0.1:53000" (fun _ => demo_call (validator_of demo_files true) 5) 0.


(** A token that was replaced since the start reads as a node that is down. *)
Example replaced_token_reads_as_offline :
  match (cmdStatus running (set_token demo_files (Some "another"))).2 with SExit 1 l => nth 0 l "" | _ => "" end
  = "OFFLINE " +:+ dash +:+ " mgmt /health: unauthorized".
Proof. vm_compute. reflexivity. Qed.

(** A port that is a name is accepted in the configuration, and no request can
    be made for it: asking panics. *)
Example named_port_panics : let c := set_bind DefaultConfig "127.0.0.1:http" in
  Config_Validate c = Ok tt ∧ (mgmtGet running c "token" "/health").2 = MPanic.
Proof. vm_compute. split_and!; reflexivity. Qed.
