(* ===== verification/Remote.v ===== *)
(** * Remote: the page over the service (cmd/veilnet/main.go)

    The provider of the page that calls the service over [Ipc], and the
    program's choice of a provider.  The page over
    the service is related to the page over the orchestrator of [Ui]. *)

From Stdlib Require Import ZArith Lia.
From S2P Require Import Prelude Float64 GoStrings NetIP GoText Crypto.
From S2P Require Import Tunnel.
From S2P Require Import EngineAdapter.
From S2P Require Import Dero.
From S2P Require Import Xswd.
From S2P Require Import Ipc.
From S2P Require Import ClientConfig.
From S2P Require Import Runner.
From S2P Require Import Enforce.
From S2P Require Import App.
From S2P Require Import Diag.
From S2P Require Import AppCircuit.
From S2P Require Import Wallet.
From S2P Require Import Service.
From S2P Require Import Ui.
From S2P Require Import Codec.

(** ** The values callers pass and get *)

(** [json.Marshal] of the payloads, [json.Unmarshal] of the replies. *)
Class CallJSON : Type := {
  mk_connect : string → result string string;
  mk_config : ClientConfig → result string string;
  mk_circuit : string → string → result string string;
  mk_auto : result string string;
  mk_confirm : float64 → string → result string string;
  mk_refresh : result string string;
  mk_spec : WalletConnectSpec → result string string;
  mk_pay : string → float64 → result string string;
  read_state : string → result string ConnState;
  read_nodes : string → result string (list App.NodeInfo);
  read_diagnostics : string → result string Diagnostics;
  read_payment : string → result string PaymentInfo;
  read_reply_config : string → result string ClientConfig;
  read_wallet : string → result string WalletStatus;
  read_txid : string → result string string
}.

(** What a variable holds before anything is decoded into it. *)
Definition zero_payment : PaymentInfo := mkPaymentInfo f0 f0 0 "" false.
Definition zero_state : ConnState := mkConnState "" None 0 0 0 0 no_session zero_payment no_circuit false.
Definition zero_check : Check := mkCheck "" false "" "".
Definition zero_diagnostics : Diagnostics :=
  mkDiagnostics 0 zero_check zero_check zero_check zero_check zero_check zero_check zero_check zero_check zero_check.
Definition zero_config : ClientConfig :=
  mkClientConfig (mkNetworkConfig 0 "" 0 "") (mkDeroConfig "" "" "" "") (mkWalletConfig "" "" "" "" "" "" "")
    (mkDNSConfig "" [] "" false) "" false "" (mkMultihopConfig false "" 0) (mkCoverConfig "" 0 0 f0)
    (mkPaymentsConfig f0 0 "") (mkLoggingConfig "" "").

(** What one call meets: the dialling, a reply that never arrives, and what the
    operation meets at the service. *)
Record remote_io (K : Type) := mkRemoteIO {
  rio_dial : option string; rio_lost : bool; rio_service : service_io K }.
Arguments mkRemoteIO {_}. Arguments rio_dial {_}. Arguments rio_lost {_}. Arguments rio_service {_}.

(** A decoding that failed leaves the zero value. *)
Definition or_zero {E A} (zero : A) (r : result E A) : A := match r with Ok v => v | Err _ => zero end.

Section remote.
Context {G E D R K : Type} `{Engine G, !EngineReport G, Enforcer E, ClientStore D, WalletClient R, NewWallet R, Socket K}
  `{Sha256, ResultJSON, URL, Unicode, ErrorText (enf_error (E := E)), GoArch, IPv6, NameService, SortSlice, Payloads,
    Frames, CallJSON}.
Context (err_text : enf_error (E := E) → string) (text : service_error (enf_error (E := E)) → string)
  (marshal : reply → result string string) (call_text : call_error → string) (token : string) (s : Server).
Abbreviation Client := (Client (G := G) (E := E) (D := D) (R := R) (K := K)).
Implicit Types (c : Client) (i : remote_io K).

Definition exchange i c (input : option string) : Client * option string :=
  let '(c, out) := serveConn marshal s (handler err_text text (rio_service i)) c input in
  (c, if rio_lost i then None else out).
Definition call {A} i (un : string → result string A) (zero : A) (op : string)
  (payload : option (result string string)) c : Client * result call_error A :=
  Call (fun p => p) un token (rio_dial i) (exchange i) c op payload zero.
(** A call whose reply is not looked at. *)
Definition call_ i (op : string) (payload : option (result string string)) c : Client * result call_error unit :=
  call i (fun _ => Ok tt) tt op payload c.
(** A call whose reply must be of a type, and is dropped. *)
Definition call_for {A} i (un : string → result string A) (op : string) (payload : option (result string string)) c
  : Client * result call_error unit :=
  call i (fun t => match un t with Ok _ => Ok tt | Err e => Err e end) tt op payload c.
Definition told_call {A} (r : Client * result call_error A) : Client * result string A :=
  (r.1, result_map_err call_text r.2).

Definition remoteApp_State i c : Client * ConnState :=
  let '(c, r) := call i read_state zero_state OpStatus None c in (c, or_zero zero_state r).
Definition remoteApp_ListNodes i c := told_call (call i read_nodes [] OpListNodes None c).
Definition remoteApp_Connect i (nodeID : string) c :=
  told_call (call_for i read_state OpConnect (Some (mk_connect nodeID)) c).
Definition remoteApp_Disconnect i c := told_call (call_ i OpDisconnect None c).
Definition remoteApp_Diagnose i c : Client * Diagnostics :=
  let '(c, r) := call i read_diagnostics zero_diagnostics OpDiagnostics None c in (c, or_zero zero_diagnostics r).
Definition remoteApp_Payment i c : Client * PaymentInfo :=
  let '(c, r) := call i read_payment zero_payment OpPayment None c in (c, or_zero zero_payment r).
Definition remoteApp_Config i c : Client * ClientConfig :=
  let '(c, r) := call i read_reply_config zero_config OpGetConfig None c in (c, or_zero zero_config r).
Definition remoteApp_UpdateConfig i (new : ClientConfig) c :=
  told_call (call_for i read_reply_config OpSetConfig (Some (mk_config new)) c).
Definition remoteApp_BuildCircuit i (entryID exitID : string) c :=
  told_call (call_ i OpCircuit (Some (mk_circuit entryID exitID)) c).
Definition remoteApp_AutoCircuit i c := told_call (call_ i OpCircuit (Some mk_auto) c).
Definition remoteApp_RotateCircuit i c := told_call (call_ i OpRotate None c).
Definition remoteApp_RequestPaymentApproval i c : Client := (call_ i OpApprovePayment None c).1.
Definition remoteApp_ConfirmPayment i (amount : float64) (txid : string) c :=
  told_call (call_ i OpConfirmPayment (Some (mk_confirm amount txid)) c).
Definition remoteApp_WalletStatus i c : Client * WalletStatus :=
  let '(c, r) := call i read_wallet no_status OpWalletStatus None c in (c, or_zero no_status r).
Definition remoteApp_RefreshWallet i c : Client * WalletStatus :=
  let '(c, r) := call i read_wallet no_status OpWalletStatus (Some mk_refresh) c in (c, or_zero no_status r).
Definition remoteApp_ConnectWallet i (spec : WalletConnectSpec) c :=
  told_call (call i read_wallet no_status OpWalletConnect (Some (mk_spec spec)) c).
Definition remoteApp_DisconnectWallet i c := told_call (call_ i OpWalletDisconnect None c).
Definition remoteApp_PayApproved i (dest : string) (amountDero : float64) c :=
  told_call (call i read_txid "" OpWalletPay (Some (mk_pay dest amountDero)) c).

(** The three methods it does not have are never asked of it. *)
Definition remote_provide {A} i (a : ask A) c : Client * A :=
  match a in ask A return Client * A with
  | AState => remoteApp_State i c
  | AListNodes => remoteApp_ListNodes i c
  | AConnect id => remoteApp_Connect i id c
  | ADisconnect => remoteApp_Disconnect i c
  | ADiagnose => remoteApp_Diagnose i c
  | APayment => remoteApp_Payment i c
  | AConfig => remoteApp_Config i c
  | AUpdateConfig new => remoteApp_UpdateConfig i new c
  | ABuildCircuit entry exit => remoteApp_BuildCircuit i entry exit c
  | AAutoCircuit => remoteApp_AutoCircuit i c
  | ARotateCircuit => remoteApp_RotateCircuit i c
  | ARequestPaymentApproval => (remoteApp_RequestPaymentApproval i c, tt)
  | AConfirmPayment amount txid => remoteApp_ConfirmPayment i amount txid c
  | AWalletStatus => remoteApp_WalletStatus i c
  | AConnectWallet spec => remoteApp_ConnectWallet i spec c
  | ADisconnectWallet => remoteApp_DisconnectWallet i c
  | ARefreshWallet => remoteApp_RefreshWallet i c
  | APayApproved dest amount => remoteApp_PayApproved i dest amount c
  | AAutoCircuitHops _ => (c, Err "")
  | ABuildCircuit3 _ _ _ => (c, Err "")
  | AResetGuard => (c, tt)
  end.
Definition remote_capable (x : capability) : bool :=
  match x with CapWallet | CapPay => true | CapHops | CapThree | CapGuard => false end.
Definition remote_provider : Provider Client (remote_io K) := {|
  capable _ := remote_capable;
  provide A i a c := remote_provide i a c |}.
End remote.

(** ** Whatever the channel does *)

Section safety.
Context {G E D R K : Type} `{Engine G, !EngineReport G, Enforcer E, ClientStore D, WalletClient R, NewWallet R, Socket K}
  `{Sha256, ResultJSON, URL, Unicode, ErrorText (enf_error (E := E)), GoArch, IPv6, NameService, SortSlice, Payloads,
    Frames, CallJSON, UiJSON}.
Context (err_text : enf_error (E := E) → string) (text : service_error (enf_error (E := E)) → string)
  (marshal : reply → result string string) (call_text : call_error → string) (token : string) (s : Server)
  (tick : G → G → Prop).
Abbreviation Client := (Client (G := G) (E := E) (D := D) (R := R) (K := K)).
Abbreviation gui := (serve_ui (H := remote_provider err_text text marshal call_text token s)).
Implicit Types (c : Client) (i : remote_io K).

Lemma call_serves {A} i (un : string → result string A) zero op payload c :
  rtc (serves err_text marshal text s tick) c (call err_text text marshal token s i un zero op payload c).1.
Proof.
  unfold call, Call. destruct (rio_dial i); [done|]. destruct (match payload with None => _ | Some p => p end); [|done].
  destruct (encode_request _) as [t|]; [|done]. unfold exchange.
  pose proof (serve_connection err_text marshal text s tick c (rio_service i) (Some t)) as Hs.
  destruct (serveConn marshal s _ c (Some t)) as [c' out]. apply rtc_once in Hs. cbn in *.
  by destruct ((if rio_lost i then None else out) ≫= decode_response).
Qed.

Lemma provide_serves {A} i (a : ask A) c :
  rtc (serves err_text marshal text s tick) c (remote_provide err_text text marshal call_text token s i a c).1.
Proof.
  destruct a; cbn; try done; try apply call_serves.
  all: unfold remoteApp_State, remoteApp_Diagnose, remoteApp_Payment, remoteApp_Config, remoteApp_WalletStatus,
    remoteApp_RefreshWallet.
  all: match goal with |- context [call _ _ _ _ _ _ ?un ?z ?op ?p ?x] =>
    pose proof (call_serves i un z op p x) as Hc; destruct (call _ _ _ _ _ _ un z op p x); exact Hc end.
Qed.

(** A request of the page, or a tick of the watchdog at the service. *)
Inductive gui_step : Client → Client → Prop :=
| gui_request io r x : gui_step x (gui io r x).1
| gui_tick x g g' : engine (app x) = Some g → tick g g' → gui_step x (with_app x (set_engine (app x) (Some g'))).

Lemma gui_serves c c' : gui_step c c' → rtc (serves err_text marshal text s tick) c c'.
Proof.
  intros [io r x|x g g' Hg Ht]; [|by eapply rtc_once, serve_tick].
  unfold serve_ui. apply (run_keeps (H := remote_provider err_text text marshal call_text token s) (fun _ _ => True)
    (rtc (serves err_text marshal text s tick))).
  - intros n A a y _. apply provide_serves.
  - eapply asks_mono; [|apply handler_asks]. done.
Qed.
End safety.

(** ** Over a channel that works *)

Section refinement.
Context {G E D R K : Type} `{Engine G, !EngineReport G, Enforcer E, ClientStore D, WalletClient R, NewWallet R, Socket K}
  `{Sha256, ResultJSON, URL, Unicode, ErrorText (enf_error (E := E)), GoArch, IPv6, NameService, SortSlice, Payloads,
    FramesLaws, CallJSON, UiJSON}.
Context (err_text : enf_error (E := E) → string) (text : service_error (enf_error (E := E)) → string)
  (marshal : reply → result string string) (call_text : call_error → string) (token : string) (s : Server).
Abbreviation Client := (Client (G := G) (E := E) (D := D) (R := R) (K := K)).
Abbreviation remote_ := (remote_provider err_text text marshal call_text token s).
Abbreviation local_ := (app_provider err_text text false).
Abbreviation dispatch_ := (dispatch err_text).
Implicit Types (c : Client) (i : remote_io K).

(** The token is the server's, and the frames carry it, the names of the
    operations, the messages of errors and what [json.Marshal] makes. *)
Record healthy : Prop := {
  hl_token : token = s_token s;
  hl_text : frame_text token;
  hl_op op : op ∈ [OpStatus; OpConnect; OpDisconnect; OpListNodes; OpDiagnostics; OpGetConfig; OpSetConfig; OpPayment;
    OpCircuit; OpRotate; OpApprovePayment; OpConfirmPayment; OpWalletStatus; OpWalletConnect; OpWalletDisconnect;
    OpWalletPay] → frame_text op;
  hl_empty : frame_text "";
  hl_refusal : frame_text "unauthorized";
  hl_error e : frame_text (text e);
  hl_json o t : marshal o = Ok t → frame_json t;
  hl_fail o e : marshal o = Err e → frame_text e
}.
Definition delivered i : Prop := rio_dial i = None ∧ rio_lost i = false.

(** A value that arrives as it was sent. *)
Definition passes {A} (mk : result string string) (un : string → result string A) (v : A) : Prop :=
  ∃ raw, mk = Ok raw ∧ raw ≠ "" ∧ frame_json raw ∧ un raw = Ok v.
Definition reads (o : reply) (t : string) : Prop :=
  match o with
  | RState x => read_state t = Ok x
  | RNodes x => read_nodes t = Ok x
  | RDiagnostics x => read_diagnostics t = Ok x
  | RPayment x => read_payment t = Ok x
  | RConfig x => read_reply_config t = Ok x
  | RWallet x => read_wallet t = Ok x
  | RPaid txid _ => read_txid t = Ok txid
  end.
Definition written (o : reply) : Prop := ∃ t, marshal o = Ok t ∧ t ≠ "" ∧ reads o t.
(** From here on, what the service answers can be written and is read as it was
    (a NaN cannot). *)
Definition moved c c' : Prop := ∃ op payload (i : service_io K), c' = (dispatch_ c op payload i).1.
Definition answers_written c : Prop :=
  ∀ c1 op payload (i : service_io K) c2 o, rtc moved c c1 → dispatch_ c1 op payload i = (c2, Ok o) → written o.

Lemma answers_moved c op payload (i : service_io K) c' r :
  answers_written c → dispatch_ c op payload i = (c', r) → answers_written c'.
Proof.
  intros Ha Hd c1 op1 p1 i1 c2 o Hr. apply Ha. eapply rtc_l; [|exact Hr]. exists op, payload, i. by rewrite Hd.
Qed.

(** What one call does: the operation at the service, its reply decoded. *)
Lemma call_dispatches {A} i (un : string → result string A) zero op payload raw c c' r :
  healthy → delivered i → frame_text op → (raw = "" ∨ frame_json raw) →
  match payload with None => Ok "" | Some p => p end = Ok raw →
  dispatch_ c op raw (rio_service i) = (c', r) → (∀ o, r = Ok o → written o) →
  call err_text text marshal token s i un zero op payload c = (c', match r with
    | Err e => Err (ErrService op (or_unknown (text e)))
    | Ok o => match marshal o with Ok t => result_map_err ErrUnmarshal (un t) | Err _ => Err ErrReceive end
    end).
Proof.
  intros Hl [Hdial Hlost] Hop Hraw Hp Hd Hw. unfold call, Call. rewrite Hdial, Hp.
  assert (∀ y e, handler err_text text (rio_service i) c op raw = (y, Err e) → frame_text e) as He.
  { intros y e. unfold handler. destruct (dispatch_ _ _ _ _) as [y' [o|x]]; [done|]. intros [= _ <-]. apply (hl_error Hl). }
  destruct (request_answered marshal s (handler err_text text (rio_service i)) c (mkRequest token op raw) (hl_text Hl) Hop Hraw
    (hl_empty Hl) (hl_refusal Hl) He (hl_json Hl) (hl_fail Hl)) as (t & -> & t' & Ht & Hr).
  unfold exchange. rewrite Ht, Hlost. cbn [mbind option_bind]. rewrite Hr. unfold respond. cbn [Token Op Payload].
  rewrite ConstantTimeCompare_eq, (hl_token Hl), String.eqb_refl. cbn [negb]. unfold handler. rewrite Hd.
  destruct r as [o|e]; [|done]. destruct (Hw o eq_refl) as (raw' & -> & Hne & _). cbn. unfold decode_answer. cbn.
  by apply String.eqb_neq in Hne as ->.
Qed.

(** What a call carries arrives; the calls the service has no operation for are
    left out. *)
Definition carried {A} (a : ask A) : Prop :=
  match a with
  | AConnect id => passes (mk_connect id) un_connect id
  | AUpdateConfig new => passes (mk_config new) un_config new
  | ABuildCircuit entry exit =>
    passes (mk_circuit entry exit) un_circuit (entry, exit, false) ∧ String.eqb entry "" && String.eqb exit "" = false
  | AAutoCircuit => passes mk_auto un_circuit ("", "", true)
  | AConfirmPayment amount txid => passes (mk_confirm amount txid) un_confirm (amount, txid)
  | ARefreshWallet => passes mk_refresh (fun t => Ok (un_refresh t)) true
  | AConnectWallet spec => passes (mk_spec spec) un_spec spec
  | APayApproved dest amount => passes (mk_pay dest amount) un_pay (dest, amount)
  | AAutoCircuitHops _ | ABuildCircuit3 _ _ _ | AResetGuard => False
  | _ => True
  end.

(** The answers agree: a configuration up to its masked secrets, an error up to
    its text. *)
Definition same_result {X} (v w : result string X) : Prop :=
  match v, w with Ok x, Ok y => x = y | Err _, Err _ => True | _, _ => False end.
Definition agree {A} (a : ask A) : A → A → Prop :=
  match a in ask A return A → A → Prop with
  | AConfig => fun v w => v = Redacted w
  | AListNodes => same_result | AConnect _ => same_result | ADisconnect => same_result
  | AUpdateConfig _ => same_result | ABuildCircuit _ _ => same_result | AAutoCircuit => same_result
  | ARotateCircuit => same_result | AConfirmPayment _ _ => same_result | AConnectWallet _ => same_result
  | ADisconnectWallet => same_result | APayApproved _ _ => same_result | AAutoCircuitHops _ => same_result
  | ABuildCircuit3 _ _ _ => same_result
  | _ => eq
  end.

(** The service fills in the secrets once more. *)
Definition at_service c {A} (a : ask A) : ask A :=
  match a with AUpdateConfig new => AUpdateConfig (keep_secrets new (cfg (app c))) | a => a end.

Lemma call_alike {A} i (un : string → result string A) zero op payload raw c :
  healthy → delivered i → answers_written c → frame_text op → (raw = "" ∨ frame_json raw) →
  match payload with None => Ok "" | Some p => p end = Ok raw →
  let d := dispatch_ c op raw (rio_service i) in
  let x := call err_text text marshal token s i un zero op payload c in
  x.1 = d.1 ∧ answers_written x.1
  ∧ match d.2 with
    | Err e => x.2 = Err (ErrService op (or_unknown (text e)))
    | Ok o => ∃ t, reads o t ∧ x.2 = result_map_err ErrUnmarshal (un t)
    end.
Proof.
  intros Hl Hi Ha Hop Hraw Hp d x. assert (dispatch_ c op raw (rio_service i) = (d.1, d.2)) as Hd by apply surjective_pairing.
  assert (∀ o, d.2 = Ok o → written o) as Hw.
  { intros o Ho. rewrite Ho in Hd. by eapply (Ha c). }
  unfold x. rewrite (call_dispatches i un zero op payload raw c d.1 d.2 Hl Hi Hop Hraw Hp Hd Hw). cbn [fst snd].
  split; [done|]. split; [by eapply answers_moved|]. destruct d.2 as [o|e]; [|done].
  destruct (Hw o eq_refl) as (t & -> & _ & Ht). by exists t.
Qed.

(** Both sides of a call whose reply is dropped. *)
Lemma told_alike {X} i (un : string → result string unit) op payload raw c (inj : X → service_error (enf_error (E := E)))
  (f : App.App G E D (walletConn R K) * result X unit) rep :
  healthy → delivered i → answers_written c → frame_text op → (raw = "" ∨ frame_json raw) →
  match payload with None => Ok "" | Some p => p end = Ok raw →
  dispatch_ c op raw (rio_service i) = with_reply inj c f rep →
  (∀ o t, reads (rep o) t → un t = Ok tt) →
  let x := told_call call_text (call err_text text marshal token s i un tt op payload c) in let y := told text inj c f in
  x.1 = y.1 ∧ same_result x.2 y.2 ∧ answers_written x.1.
Proof.
  intros Hl Hi Ha Hop Hraw Hp Hd Hun x y.
  destruct (call_alike i un tt op payload raw c Hl Hi Ha Hop Hraw Hp) as (Hx & Haw & Hv).
  unfold x, y, told_call, told. rewrite Hd in Hx, Hv. unfold with_reply in Hx, Hv.
  destruct f as [a [[]|e]]; cbn [fst snd] in *; (split; [done|split; [|done]]).
  - destruct Hv as (t & Ht & ->). by rewrite (Hun _ _ Ht).
  - by rewrite Hv.
Qed.

Ltac in_operations := repeat first [apply list_elem_of_here | apply list_elem_of_further].
(** A call whose reply is read, and one whose reply is dropped. *)
Ltac value_call lemma :=
  let Hx := fresh "Hx" in let Haw := fresh "Haw" in let Hv := fresh "Hv" in
  destruct lemma as (Hx & Haw & Hv); [apply hl_op; [done|in_operations]|by auto|done|]; cbn in Hx, Haw, Hv.
Ltac step_call lemma :=
  eapply lemma; [apply hl_op; [done|in_operations]|by auto|done|try reflexivity|by intros o t Ht; cbn in Ht; rewrite ?Ht].

Lemma provide_alike {A} i (a : ask A) c :
  healthy → delivered i → answers_written c → carried a →
  let x := remote_provide err_text text marshal call_text token s i a c in
  let y := app_provide err_text text false (rio_service i) (at_service c a) c in
  x.1 = y.1 ∧ agree a x.2 y.2 ∧ answers_written x.1.
Proof.
  intros Hl Hi Ha Hc. destruct a; cbn [remote_provide app_provide at_service agree]; try done.
  - value_call (call_alike i read_state zero_state OpStatus None "" c Hl Hi Ha).
    unfold remoteApp_State. destruct Hv as (t & Ht & Hv). rewrite Ht in Hv. by destruct (call _ _ _ _ _ _ _ _ _ _ _); cbn in *; subst.
  - value_call (call_alike i read_nodes [] OpListNodes None "" c Hl Hi Ha).
    unfold remoteApp_ListNodes, told_call. split; [done|]. split; [|done]. cbn. revert Hv.
    destruct (ListNodes (app c)) as [l|e]; [intros (t & Ht & ->); by rewrite Ht|by intros ->].
  - destruct Hc as (raw & Hm & Hne & Hf & Hun).
    step_call (told_alike i (fun t => match read_state t with Ok _ => Ok tt | Err e => Err e end) OpConnect
      (Some (mk_connect nodeID)) raw c SErrApp (Connect (app c) nodeID (sio_connect (rio_service i)))
      (state_reply (rio_service i)) Hl Hi Ha).
    unfold dispatch, op_connect, optional. cbn. by apply String.eqb_neq in Hne as ->; rewrite Hun.
  - step_call (told_alike i (fun _ => Ok tt) OpDisconnect None "" c SErrApp (Disconnect (app c))
      (state_reply (rio_service i)) Hl Hi Ha).
  - value_call (call_alike i read_diagnostics zero_diagnostics OpDiagnostics None "" c Hl Hi Ha).
    unfold remoteApp_Diagnose. destruct Hv as (t & Ht & Hv). rewrite Ht in Hv. by destruct (call _ _ _ _ _ _ _ _ _ _ _); cbn in *; subst.
  - value_call (call_alike i read_payment zero_payment OpPayment None "" c Hl Hi Ha).
    unfold remoteApp_Payment. destruct Hv as (t & Ht & Hv). rewrite Ht in Hv. by destruct (call _ _ _ _ _ _ _ _ _ _ _); cbn in *; subst.
  - value_call (call_alike i read_reply_config zero_config OpGetConfig None "" c Hl Hi Ha).
    unfold remoteApp_Config. destruct Hv as (t & Ht & Hv). rewrite Ht in Hv. by destruct (call _ _ _ _ _ _ _ _ _ _ _); cbn in *; subst.
  - destruct Hc as (raw & Hm & Hne & Hf & Hun).
    step_call (told_alike i (fun t => match read_reply_config t with Ok _ => Ok tt | Err e => Err e end) OpSetConfig
      (Some (mk_config cfg)) raw c SErrApp
      (UpdateConfig (app c) (keep_secrets cfg (App.cfg (app c))) (sio_save (rio_service i)))
      (fun c => RConfig (Redacted (App.cfg (app c)))) Hl Hi Ha).
    unfold dispatch, op_set_config. cbn. by rewrite Hun.
  - destruct Hc as [(raw & Hm & Hne & Hf & Hun) Hz].
    step_call (told_alike i (fun _ => Ok tt) OpCircuit (Some (mk_circuit entryID exitID)) raw c SErrCircuit
      (BuildCircuit (app c) entryID exitID (sio_build (rio_service i)) (sio_now (rio_service i)))
      (state_reply (rio_service i)) Hl Hi Ha).
    unfold dispatch, op_circuit, optional. cbn. apply String.eqb_neq in Hne as ->. by rewrite Hun, Hz.
  - destruct Hc as (raw & Hm & Hne & Hf & Hun).
    step_call (told_alike i (fun _ => Ok tt) OpCircuit (Some mk_auto) raw c SErrCircuit
      (AutoCircuit_total (app c) (rio_service i)) (state_reply (rio_service i)) Hl Hi Ha).
    unfold dispatch, op_circuit, optional. cbn. apply String.eqb_neq in Hne as ->. by rewrite Hun.
  - step_call (told_alike i (fun _ => Ok tt) OpRotate None "" c SErrCircuit
      (RotateCircuit (app c) (sio_build (rio_service i)) (sio_now (rio_service i))) (state_reply (rio_service i)) Hl Hi Ha).
  - value_call (call_alike i (fun _ => Ok tt) tt OpApprovePayment None "" c Hl Hi Ha). done.
  - destruct Hc as (raw & Hm & Hne & Hf & Hun).
    step_call (told_alike i (fun _ => Ok tt) OpConfirmPayment (Some (mk_confirm amount txid)) raw c SErrApp
      (ConfirmPayment (app c) amount txid (sio_id (rio_service i)) (sio_now (rio_service i)))
      (payment_reply (rio_service i)) Hl Hi Ha).
    unfold dispatch, op_confirm. cbn. by rewrite Hun.
  - value_call (call_alike i read_wallet no_status OpWalletStatus None "" c Hl Hi Ha).
    unfold remoteApp_WalletStatus. destruct Hv as (t & Ht & Hv). rewrite Ht in Hv. by destruct (call _ _ _ _ _ _ _ _ _ _ _); cbn in *; subst.
  - destruct Hc as (raw & Hm & Hne & Hf & Hun).
    value_call (call_alike i read_wallet no_status OpWalletConnect (Some (mk_spec spec)) raw c Hl Hi Ha).
    revert Hx Hv. unfold dispatch, op_wallet_connect. cbn. rewrite Hun. unfold remoteApp_ConnectWallet, told_call.
    destruct (ConnectWallet c spec _) as [c1 [[]|e]]; cbn; intros Hx Hv; rewrite Hx in Haw |- *; split_and!; try done.
    + destruct Hv as (t & Ht & ->). by rewrite Ht.
    + by rewrite Hv.
  - value_call (call_alike i (fun _ => Ok tt) tt OpWalletDisconnect None "" c Hl Hi Ha).
    revert Hx Hv. unfold dispatch, op_wallet_disconnect. cbn. unfold remoteApp_DisconnectWallet, told_call, call_.
    destruct (DisconnectWallet c _) as [c1 [[]|e]]; cbn; intros Hx Hv; rewrite Hx in Haw |- *; split_and!; try done.
    + by destruct Hv as (t & _ & ->).
    + by rewrite Hv.
  - destruct Hc as (raw & Hm & Hne & Hf & Hun). injection Hun as Hun.
    value_call (call_alike i read_wallet no_status OpWalletStatus (Some mk_refresh) raw c Hl Hi Ha).
    revert Hx Hv. unfold dispatch, op_wallet_status. cbn. apply String.eqb_neq in Hne as ->. rewrite Hun. cbn.
    intros Hx (t & Ht & Hv). rewrite Ht in Hv. unfold remoteApp_RefreshWallet.
    by destruct (call _ _ _ _ _ _ _ _ _ _ _); cbn in *; subst.
  - destruct Hc as (raw & Hm & Hne & Hf & Hun).
    value_call (call_alike i read_txid "" OpWalletPay (Some (mk_pay dest amountDero)) raw c Hl Hi Ha).
    revert Hx Hv. unfold dispatch, op_wallet_pay. cbn. rewrite Hun. unfold remoteApp_PayApproved, told_call.
    destruct (PayApproved c dest amountDero _) as [c1 [tx [[]|e]]]; cbn; intros Hx Hv; rewrite Hx in Haw |- *; split_and!; try done.
    + destruct Hv as (t & Ht & ->). by rewrite Ht.
    + by rewrite Hv.
Qed.

(** *** Requests *)

(** The same program on both sides, as far as the answers agree. *)
Inductive sim c0 : prog ui_response → prog ui_response → Prop :=
| sim_ret r : sim c0 (Ret r) (Ret r)
| sim_err n e e' : n ≠ 200 → sim c0 (writeErr n e) (writeErr n e')
| sim_ask {A} (a : ask A) k k' : carried a → (∀ c, at_service c a = a) →
    (∀ v w, agree a v w → sim c0 (k v) (k' w)) → sim c0 (Ask a k) (Ask a k').

Definition same_response (v w : ui_response) : Prop := Code v = Code w ∧ (Code v = 200 → v = w).

Lemma run_sim c0 p q : sim c0 p q → healthy → ∀ io c, (∀ n, delivered (io n)) → answers_written c →
  let x := run (H := remote_) io p c in let y := run (H := local_) (fun n => rio_service (io n)) q c in
  x.1 = y.1 ∧ same_response x.2 y.2.
Proof.
  intros Hs Hl. induction Hs as [r|n e e' Hn|A a k k' Hc Hat _ IH]; intros io c Hio Ha; [done|done|].
  cbn. destruct (provide_alike (io 0%nat) a c Hl (Hio 0%nat) Ha Hc) as (Hx & Hag & Haw). rewrite Hat in Hx, Hag.
  destruct (remote_provide _ _ _ _ _ _ _ a c) as [c1 v], (app_provide _ _ _ _ a c) as [c2 w]. cbn in Hx, Hag, Haw. subst c2.
  by apply (IH v w Hag (fun n => io (S n))).
Qed.

(** The page asks for nothing the service has no operation for. *)
Definition service_has (r : ui_request) : Prop :=
  asks (fun _ a => match a with AAutoCircuitHops _ | ABuildCircuit3 _ _ _ | AResetGuard => False | _ => True end)
    (Handler (fun _ => true) r).
(** What the request carries arrives. *)
Definition carried_request c (r : ui_request) : Prop :=
  asks (fun _ a => match a with AUpdateConfig _ => True | _ => carried a end) (Handler remote_capable r)
  ∧ ∀ new, read_config (u_Body r) = Ok new →
      let c' := keep_secrets new (Redacted (cfg (app c))) in passes (mk_config c') un_config c'.

Lemma sim_or_state c0 (a : ask (result string unit)) : carried a → (∀ c, at_service c a = a) → agree a = same_result →
  sim c0 (Ask a or_state) (Ask a or_state).
Proof.
  intros Hc Hat Hag. constructor; [done|done|]. rewrite Hag. intros [[]|e] [[]|e'] Hv; try done.
  - constructor; [done|done|]. intros v w ->. constructor.
  - by apply sim_err.
Qed.

Lemma redacted_twice k : Redacted (Redacted k) = Redacted k.
Proof.
  assert (∀ x, maskSecret (maskSecret x) = maskSecret x) as Hm by (intros x; unfold maskSecret; by destruct (String.eqb x "")).
  unfold Redacted. cbn. by rewrite !Hm.
Qed.

Ltac sim_calls :=
  repeat match goal with
  | Hv : same_result ?v ?w |- _ => destruct v, w; cbn in Hv; try done; try subst
  | |- sim _ (writeErr _ _) (writeErr _ _) => by apply sim_err
  | |- sim _ (writeJSON _) (writeJSON _) => apply sim_ret
  | |- sim _ (Ask _ or_state) (Ask _ or_state) => apply sim_or_state; [|done|done]
  | |- sim _ (Ask _ _) (Ask _ _) => apply sim_ask; [|done|intros ?v ?w Hag; cbn in Hag; try subst]
  | |- sim _ (if ?b then _ else _) _ => let E := fresh "E" in destruct b eqn:E; try done
  | |- sim _ (match ?b with _ => _ end) _ => let E := fresh "E" in destruct b eqn:E; try done
  | |- sim _ _ (if ?b then _ else _) => let E := fresh "E" in destruct b eqn:E; try done
  end.

Lemma handler_sim c r : service_has r → carried_request c r →
  (u_Path r = "/api/config" → is_get r = true) → sim c (Handler remote_capable r) (Handler (fun _ => true) r).
Proof.
  unfold service_has, carried_request. intros Hh [Hc _] Hcfg. revert Hh Hc. unfold Handler.
  repeat match goal with |- context [if String.eqb (u_Path r) ?p then _ else _] => destruct (String.eqb_spec (u_Path r) p) end.
  all: unfold handleState, handleNodes, handleConnect, handleDisconnect, handleDiagnostics, handlePayment, handleConfig,
    handleCircuit, handleRotate, handleGuard, handleApprove, handleConfirm, handleWallet, handleWalletDisconnect, handleWalletPay,
    walletProvider, reply_payment, reply_config, reply_circuit, reply_state; cbn [remote_capable]; cbn zeta.
  all: try (rewrite (Hcfg ltac:(assumption))).
  all: rewrite ?andb_true_r, ?andb_false_r; intros Hh Hc; cbn in Hh, Hc.
  all: sim_calls.
  all: repeat match goal with E : _ = _ |- _ => progress (try rewrite E in Hh; try rewrite E in Hc); clear E end; cbn in Hh, Hc.
  all: first [exact I | by apply Hc | by destruct Hh | by rewrite redacted_twice; apply sim_ret | tauto].
Qed.

Lemma keep_twice new cur : keep_secrets (keep_secrets new (Redacted cur)) cur = keep_secrets new cur.
Proof.
  assert (∀ n o, keep_secret (keep_secret n (maskSecret o)) o = keep_secret n o) as Hk.
  { intros n o. unfold keep_secret, maskSecret. destruct (String.eqb n "" || String.eqb n "***") eqn:En; [|by rewrite En].
    by destruct (String.eqb_spec o "") as [->|]. }
  unfold keep_secrets, Redacted. cbn. by rewrite !Hk.
Qed.

Lemma config_alike io c r : healthy → (∀ n, delivered (io n)) → answers_written c → carried_request c r →
  u_Path r = "/api/config" → is_get r = false →
  let x := serve_ui (H := remote_) io r c in let y := serve_ui (H := local_) (fun n => rio_service (io n)) r c in
  x.1 = y.1 ∧ same_response x.2 y.2.
Proof.
  intros Hl Hio Ha [_ Hcfg] Hp Hg. unfold serve_ui, Handler. rewrite Hp. cbn [String.eqb Ascii.eqb Bool.eqb].
  unfold handleConfig. rewrite Hg. destruct (read_config (u_Body r)) as [new|e]; [|done]. specialize (Hcfg new eq_refl).
  destruct (provide_alike (io 0%nat) AConfig c Hl (Hio 0%nat) Ha I) as (Hx & Hag & Haw). cbn in Hx, Hag. cbn [run].
  cbn [provide remote_provider app_provider remote_provide app_provide].
  destruct (remoteApp_Config _ _ _ _ _ _ c) as [c1 v]. cbn in Hx, Hag, Haw. subst c1 v. cbn zeta in Hcfg.
  destruct (provide_alike (io 1%nat) (AUpdateConfig (keep_secrets new (Redacted (cfg (app c))))) c Hl (Hio 1%nat) Ha Hcfg)
    as (Hx & Hag & Haw'). cbn [at_service] in Hx, Hag. rewrite keep_twice in Hx, Hag.
  cbn [agree app_provide remote_provide] in Hx, Hag, Haw'.
  destruct (remoteApp_UpdateConfig _ _ _ _ _ _ _ _ c) as [c1 v], (told text SErrApp c _) as [c2 w]. cbn in Hx, Hag, Haw'. subst c2.
  destruct v as [[]|e], w as [[]|e']; try done. unfold reply_config. cbn [run provide remote_provider app_provider].
  destruct (provide_alike (io 2%nat) AConfig c1 Hl (Hio 2%nat) Haw' I) as (Hx & Hag' & _). cbn in Hx, Hag'.
  cbn [remote_provide app_provide]. destruct (remoteApp_Config _ _ _ _ _ _ c1) as [c3 v]. cbn in Hx, Hag'. subst c3 v.
  by rewrite redacted_twice.
Qed.
End refinement.

(** ** Properties *)

(** whatever the page asks and the channel does, the service protects.  From
    the start of the service over any engine and enforcer that keep their laws,
    after any requests of the page, with calls that are not delivered, replies
    that are lost, wrong tokens and frames that do not decode, and the watchdog
    running in between: while a node is current every plan is in force, the
    session is active and the device is up unless a failing stop closed it;
    while none is, nothing is in force and there is no session; and the recorded
    circuit is a path. *)
Theorem page_over_service_protects {G E D R K} `{EngineLaws G, !EngineReport G, EnforcerLaws E, ClientStore D,
    HR : WalletClient R, !WalletLaws R, NewWallet R, HK : Socket K, !SocketLaws K}
  `{Sha256, ResultJSON, URL, Unicode, ErrorText (enf_error (E := E)), GoArch, IPv6, NameService, SortSlice, Payloads, Frames,
    CallJSON, UiJSON}
  err_text marshal text call_text token s (tick : G → G → Prop) ns config (st : D) g (e : E)
  (c : Client (G := G) (E := E) (D := D) (R := R) (K := K)) :
  (∀ g g', tick g g' → running g' = running g) →
  rtc (gui_step err_text text marshal call_text token s tick) (start_with ns config st g e) c →
  match node (app c) with
  | Some _ => (failed_stop_keeps G → tunnel_up (app c) = true)
              ∧ (∀ x, enforcer (app c) = Some x → in_force x = true) ∧ ses_Active (sess (app c)) = true
  | None => sess (app c) = no_session ∧ ∀ x, enforcer (app c) = Some x → in_force x = false
  end ∧ wf_circuit (circuit (app c)).
Proof.
  intros Ht Hs. assert (rtc (serves err_text marshal text s tick) (start_with ns config st g e) c) as Hr.
  { clear Ht. induction Hs as [|c1 c2 c3 Hs _ IH]; [done|]. etrans; [by eapply gui_serves|exact IH]. }
  destruct (runs_safe _ _ _ _ _ _ _ Ht Hr (start_safe ns config st g e)) as [Hp Hw].
  split; [by apply protected_means|exact Hw].
Qed.

(** C19: the page over the service is the page over the orchestrator.  When the
    client has the server's token, the calls of a request are delivered, what the
    request carries and what the service answers pass through JSON as they are,
    and the request asks for nothing the service has no operation for: the
    service ends in the state the orchestrator of [Ui] ends in when the page is
    served from it directly, and the page gets the same answer, except that an
    error, under the same code, has another text. *)
Theorem page_over_service_agrees {G E D R K} `{Engine G, !EngineReport G, Enforcer E, ClientStore D, WalletClient R, NewWallet R,
    Socket K}
  `{Sha256, ResultJSON, URL, Unicode, ErrorText (enf_error (E := E)), GoArch, IPv6, NameService, SortSlice, Payloads,
    FramesLaws, CallJSON, UiJSON}
  err_text text marshal call_text token s (c c' : Client (G := G) (E := E) (D := D) (R := R) (K := K)) io r rsp :
  healthy text marshal token s → (∀ n, delivered (io n)) → answers_written err_text marshal c →
  service_has r → carried_request c r →
  serve_ui (H := remote_provider err_text text marshal call_text token s) io r c = (c', rsp) →
  ∃ rsp', serve_ui (H := app_provider err_text text false) (fun n => rio_service (io n)) r c = (c', rsp')
    ∧ Code rsp = Code rsp' ∧ (Code rsp = 200 → rsp = rsp').
Proof.
  intros Hl Hio Ha Hh Hc Hr.
  assert (∀ x y, x.1 = y.1 ∧ same_response x.2 y.2 → x = (c', rsp) →
    ∃ rsp', y = (c', rsp') ∧ Code rsp = Code rsp' ∧ (Code rsp = 200 → rsp = rsp')) as Hdone.
  { intros [x1 x2] [y1 y2] [Hx1 Hx2] [= -> ->]. cbn in *. subst. by exists y2. }
  eapply Hdone; [|exact Hr]. destruct (is_get r) eqn:Eg.
  - unfold serve_ui. eapply run_sim; [by apply handler_sim|done|done|done].
  - destruct (decide (u_Path r = "/api/config")) as [Hp|Hp]; [by apply config_alike|].
    unfold serve_ui. eapply run_sim; [|done..]. apply handler_sim; done.
Qed.

(** ** Witnesses and examples *)

#[local] Existing Instances stable_sort amd64 no_ipv6 ascii_unicode toy_sha256 WgConf.demo_netip App.demo_store App.demo_names
  App.demo_os_enforcer App.demo_os_enforcer_laws EngineAdapter.plain_engine_text
  Xswd.script_socket Xswd.script_laws Xswd.text_json Xswd.one_url Wallet.plain_texts Wallet.daemon
  Ipc.bar_frames Ipc.bar_laws Ui.plain_bodies.

(** Every value as the text of [Codec]. *)
#[local] Instance codec_payloads : Payloads := {
  un_connect := of_text; un_config := of_text; un_circuit := of_text; un_confirm := of_text;
  un_refresh s := is_ok (of_text (A := bool) s); un_spec := of_text; un_pay := of_text
}.
#[local] Instance codec_calls : CallJSON := {
  mk_connect id := Ok (to_text id); mk_config c := Ok (to_text c);
  mk_circuit entry exit := Ok (to_text (entry, exit, false)); mk_auto := Ok (to_text ("", "", true));
  mk_confirm amount txid := Ok (to_text (amount, txid)); mk_refresh := Ok (to_text true);
  mk_spec s := Ok (to_text s); mk_pay dest amount := Ok (to_text (dest, amount));
  read_state := of_text; read_nodes := of_text; read_diagnostics := of_text; read_payment := of_text;
  read_reply_config := of_text; read_wallet := of_text; read_txid := of_text
}.
Definition codec_marshal (r : reply) : result string string :=
  Ok match r with
     | RState x => to_text x | RNodes x => to_text x | RDiagnostics x => to_text x | RPayment x => to_text x
     | RConfig x => to_text x | RWallet x => to_text x | RPaid txid _ => to_text txid
     end.

Lemma to_text_field {A} `{Countable A} (x : A) : field_ok (to_text x).
Proof. apply text_free. by vm_compute; intros Hx; repeat (apply elem_of_cons in Hx as [Hx|Hx]; [done|]); apply elem_of_nil in Hx. Qed.
Lemma codec_passes {A} `{Countable A} (x : A) : passes (Ok (to_text x)) of_text x.
Proof. exists (to_text x). split_and!; [done|apply text_not_blank|apply to_text_field|apply text_roundtrip]. Qed.
Lemma codec_written (o : reply) : written codec_marshal o.
Proof. destruct o; eexists; (split; [reflexivity|]); (split; [apply text_not_blank|apply text_roundtrip]). Qed.

Definition demo_call_text (e : call_error) : string := "call failed".
Definition over_service (i : nat → remote_io script) (r : ui_request) (c : DemoService) : DemoService * ui_response :=
  serve_ui (H := remote_provider (fun _ => "error") demo_text codec_marshal demo_call_text "secret" demo_server) i r c.
Definition delivered_calls (n : nat) : remote_io script := mkRemoteIO None false (demo_sio []).

Lemma demo_healthy : healthy demo_text codec_marshal "secret" demo_server.
Proof.
  assert (∀ s, mem_char sep (chars s) = false → field_ok s) as Hf by (intros s Hs; by apply mem_char_false).
  split; [done|by apply Hf| |by apply Hf|by apply Hf|by intros e; apply Hf| |done].
  - intros op Ho. apply Hf. repeat (apply elem_of_cons in Ho as [->|Ho]; [reflexivity|]). by apply elem_of_nil in Ho.
  - intros o t. unfold codec_marshal. intros [= <-]. destruct o; apply to_text_field.
Qed.

Lemma page_over_service_agrees_witness :
  let x := over_service delivered_calls (post "/api/connect" "n1") demo_start in
  NodeID <$> node (app x.1) = Some "n1" ∧ Code x.2 = 200.
Proof.
  assert (service_has (post "/api/connect" "n1")) as Hh by (cbn; split; [exact I|intros [[]|e]; cbn; auto]).
  assert (carried_request demo_start (post "/api/connect" "n1")) as Hc.
  { split; [|discriminate]. cbn. split; [apply codec_passes|intros [[]|e]; cbn; auto]. }
  assert (answers_written (fun _ => "error") codec_marshal demo_start) as Ha by (intros c1 op p i c2 o _ _; apply codec_written).
  assert (∀ n, delivered (delivered_calls n)) as Hd by done.
  destruct (over_service delivered_calls (post "/api/connect" "n1") demo_start) as [x1 x2] eqn:E.
  destruct (page_over_service_agrees (fun _ => "error") demo_text codec_marshal demo_call_text "secret" demo_server demo_start
    x1 delivered_calls (post "/api/connect" "n1") x2 demo_healthy Hd Ha Hh Hc E) as (rsp & Hl & Hcode & _).
  assert (let p := page [] (post "/api/connect" "n1") demo_start in NodeID <$> node (app p.1) = Some "n1" ∧ Code p.2 = 200)
    as Hn by (vm_compute; split; reflexivity).
  change (page [] (post "/api/connect" "n1") demo_start = (x1, rsp)) in Hl. rewrite Hl in Hn.
  cbn [fst snd]. rewrite Hcode. exact Hn.
Defined.

(** The reply to the connect is lost, and so are the calls after it: the page is
    told of a failure, and the machine is protected all the same. *)
Definition lossy_calls (n : nat) : remote_io script := mkRemoteIO None true (demo_sio []).
Definition over_lossy (r : ui_request) (c : DemoService) : DemoService * ui_response :=
  serve_ui (H := remote_provider (fun _ => "error") demo_text demo_marshal demo_call_text "secret" demo_server) lossy_calls r c.
Definition lossy_connect := over_lossy (post "/api/connect" "n1") demo_start.
Abbreviation demo_gui := (gui_step (fun _ => "error") demo_text demo_marshal demo_call_text "secret" demo_server demo_tick).

Lemma page_over_service_protects_witness :
  NodeID <$> node (app lossy_connect.1) = Some "n1" ∧ Code lossy_connect.2 = 500
  ∧ ∃ x, enforcer (app lossy_connect.1) = Some x ∧ in_force x = true.
Proof.
  assert (∀ g g', demo_tick g g' → running g' = running g) as Ht by (intros g g' [l ->]; apply tick_running).
  assert (rtc demo_gui demo_start lossy_connect.1) as Hr by (apply rtc_once; exact (gui_request (fun _ => "error") demo_text demo_marshal demo_call_text "secret" demo_server
      demo_tick lossy_calls (post "/api/connect" "n1") demo_start)).
  pose proof (page_over_service_protects (fun _ => "error") demo_marshal demo_text demo_call_text "secret" demo_server demo_tick
    (Ok keyed_nodes) DefaultClientConfig [] demo_adapter (demo_enforcer true) lossy_connect.1 Ht Hr) as [Hc _].
  assert (NodeID <$> node (app lossy_connect.1) = Some "n1") as Hn by (vm_compute; reflexivity).
  assert (Code lossy_connect.2 = 500) as Hcode by (vm_compute; reflexivity).
  assert (is_Some_b (enforcer (app lossy_connect.1)) = true) as Hx by (vm_compute; reflexivity).
  split; [exact Hn|]. split; [exact Hcode|].
  destruct (node (app lossy_connect.1)) as [n|]; [|discriminate Hn]. destruct Hc as (_ & Hf & _).
  destruct (enforcer (app lossy_connect.1)) as [x|]; [|discriminate Hx]. exists x. split; [reflexivity | apply Hf; reflexivity].
Defined.

(** A circuit of three hops asked for over the service becomes one of two, and
    nobody is told. *)
Definition three_hops : ui_request := post "/api/circuit" "n3".
Example middle_hop_is_dropped :
  App.Hops (circuit (app (page [] three_hops (page [] (post "/api/connect" "n1") demo_start).1).1)) = ["n2"; "n3"; "n1"]
  ∧ App.Hops (circuit (app (over_lossy three_hops lossy_connect.1).1)) = ["n2"; "n1"].
Proof. vm_compute. split; reflexivity. Qed.

(** Without the service the page reads a state that is no state: neither up nor
    down. *)
Example silence_reads_as_blank :
  over_service (fun _ => mkRemoteIO (Some "connection refused") false (demo_sio [])) (get "/api/state") demo_start
  = (demo_start, mkUiResponse 200 (JState zero_state)).
Proof. reflexivity. Qed.
