(* ===== verification/Cli.v ===== *)
(** * Cli: the command line of the client (cmd/veilnet/main.go, setup.go)

    What the arguments mean, a run of the program over its database, its
    configuration file and the service, and the setup report.  Parsing flags,
    printing and serving the page are outside; the page's calls are [Ui]'s. *)

From Stdlib Require Import ZArith Lia.
From S2P Require Import Prelude Float64 GoStrings NetIP GoText Crypto.
From S2P Require Import Tunnel.
From S2P Require Import EngineAdapter.
From S2P Require Import Dero.
From S2P Require Import Xswd.
From S2P Require Import Ipc.
From S2P Require Import Storage.
From S2P Require Import ClientConfig.
From S2P Require Import Runner.
From S2P Require Import Enforce.
From S2P Require Import App.
From S2P Require Import AppStorage.
From S2P Require Import Diag.
From S2P Require Import Onboard.
From S2P Require Import AppCircuit.
From S2P Require Import Wallet.
From S2P Require Import Service.
From S2P Require Import Ui.
From S2P Require Import Remote.

(** ** Arguments *)

Definition connect_auto : string := "--connect=__auto__".

(** A bare [--connect] gets its value. *)
Fixpoint rewrite_connect (args : list string) : list string :=
  match args with
  | [] => []
  | a :: rest =>
    (if String.eqb a "--connect" && match rest with [] => true | b :: _ => strings_HasPrefix b "-" end
     then connect_auto else a) :: rewrite_connect rest
  end.

(** The flags as [flag.Parse] sets them. *)
Record flags := mkFlags {
  fl_demo : bool; fl_connect : string; fl_status : bool; fl_disc : bool; fl_setup : bool; fl_listen : string;
  fl_noBrowser : bool }.

(** The node asked for, and whether a connection was asked for at all. *)
Definition wanted (fl : flags) : string * bool :=
  if String.eqb (fl_connect fl) "" then ("", false)
  else (if String.eqb (fl_connect fl) "__auto__" then "" else fl_connect fl, true).

Inductive mode := RunSetup | RunDemo | RunProd.
Definition main_mode (fl : flags) : mode := if fl_setup fl then RunSetup else if fl_demo fl then RunDemo else RunProd.

(** ** A run *)

(** What a run meets: opening the database, the home directory and the token
    file, the answers of the first run, the two statements that mark a clean
    end, and the calls. *)
Record prod_io (K : Type) := mkProdIO {
  pr_open : result string Storage.Store; pr_home : result string string; pr_token : token_file;
  pr_first : Onboard.run_io; pr_mark : option string; pr_defer : option string; pr_call : remote_io K }.
Arguments mkProdIO {_}. Arguments pr_open {_}. Arguments pr_home {_}. Arguments pr_token {_}.
Arguments pr_first {_}. Arguments pr_mark {_}. Arguments pr_defer {_}. Arguments pr_call {_}.

Inductive prod_error :=
| POpen (e : string) | PFirst (e : first_run_error) | PCall (e : option go_error).

(** How the program goes on: it ends with a message and code 1, it prints a
    state, with the price warning, and ends, or it serves the page until it is
    killed, over the service or alone. *)
Inductive ending := Fatal (e : prod_error) | Printed (st : ConnState) (approval : bool) | PageOverService | PageAlone.

(** What is left: the service, the configuration file, the database if it was
    opened, what the notices were about. *)
Record prod_result (C : Type) := mkProdResult {
  left_service : C; left_file : file; left_db : option Storage.Store; notices : option FirstRunReport;
  left_cfg : ClientConfig; ended : ending }.
Arguments mkProdResult {_}. Arguments left_service {_}. Arguments left_file {_}. Arguments left_db {_}.
Arguments notices {_}. Arguments left_cfg {_}. Arguments ended {_}.

(** The page alone: no engine and no nodes. *)
Definition view_only {G E D W : Type} (c : ClientConfig) (s : D) : App.App G E D W := New c s None (Ok []).

Definition costs (st : ConnState) : bool :=
  match cs_Node st with Some n => f_gt (App.PricePerHourDero n) f0 | None => false end.

Section run.
Context {G E D R K : Type} `{Engine G, !EngineReport G, Enforcer E, ClientStore D, WalletClient R, NewWallet R, Socket K}
  `{Sha256, ResultJSON, URL, Unicode, ErrorText (enf_error (E := E)), GoArch, IPv6, NameService, SortSlice, Payloads,
    Frames, CallJSON, TOML}.
Context (err_text : enf_error (E := E) → string) (text : service_error (enf_error (E := E)) → string)
  (marshal : reply → result string string) (call_text : call_error → string) (token_text : token_error → string)
  (cfg_text : ClientConfig.error → string) (os : System) (s : Server).
Abbreviation Client := (Client (G := G) (E := E) (D := D) (R := R) (K := K)).
Implicit Types (c : Client) (i : prod_io K).

Definition dialService i : result token_error string := LoadToken (pr_home i) "" (pr_token i).
Definition classified_text (t : string) : ending := Fatal (PCall (ClassifyConnectError os (Some (PlainError t)))).

(** One call, and the state it answers. *)
Definition headless i (op : string) (payload : option (result string string)) (tok : string) c
  : Client * result call_error ConnState :=
  call err_text text marshal tok s (pr_call i) read_state zero_state op payload c.

(** The deferred mark; [os.Exit] runs none. *)
Definition mark (io : option string) (st : option Storage.Store) : option Storage.Store := (MarkCleanShutdown st io).1.

Definition runProd (status disc : bool) (connID : string) (wantConn : bool) i (f : file) c : prod_result Client :=
  match pr_open i with
  | Err e => mkProdResult c f None None DefaultClientConfig (Fatal (POpen e))
  | Ok st =>
    match EnsureFirstRun os cfg_text "" f (Some st) (pr_first i) with
    | (f, st, (rep, cf, Err e)) => mkProdResult c f st None cf (Fatal (PFirst e))
    | (f, st, (rep, cf, Ok _)) =>
      let over c st e := mkProdResult c f st (Some rep) cf e in
      if status || disc || wantConn then
        match dialService i with
        | Err e => over c st (classified_text (token_text e))
        | Ok tok =>
          if status then
            match headless i OpStatus None tok c with
            | (c, Err e) => over c st (classified_text (call_text e))
            | (c, Ok v) => over c (mark (pr_defer i) st) (Printed v false)
            end
          else if disc then
            match headless i OpDisconnect None tok c with
            | (c, Err e) => over c st (classified_text (call_text e))
            | (c, Ok v) => over c (mark (pr_defer i) (mark (pr_mark i) st)) (Printed v false)
            end
          else
            match headless i OpConnect (Some (mk_connect connID)) tok c with
            | (c, Err e) => over c st (classified_text (call_text e))
            | (c, Ok v) => over c (mark (pr_defer i) st) (Printed v (costs v))
            end
        end
      else
        match dialService i with
        | Err _ => over c st PageAlone
        | Ok tok =>
          match headless i OpStatus None tok c with
          | (c, Err _) => over c st PageAlone
          | (c, Ok _) => over c st PageOverService
          end
        end
    end
  end.
End run.

(** ** Lemmas *)

Section runs.
Context {G E D R K : Type} `{Engine G, !EngineReport G, Enforcer E, ClientStore D, WalletClient R, NewWallet R, Socket K}
  `{Sha256, ResultJSON, URL, Unicode, ErrorText (enf_error (E := E)), GoArch, IPv6, NameService, SortSlice, Payloads,
    Frames, CallJSON, TOMLLaws}.
Context (err_text : enf_error (E := E) → string) (text : service_error (enf_error (E := E)) → string)
  (marshal : reply → result string string) (call_text : call_error → string) (token_text : token_error → string)
  (cfg_text : ClientConfig.error → string) (os : System) (s : Server).
Abbreviation Client := (Client (G := G) (E := E) (D := D) (R := R) (K := K)).
Abbreviation runProd_ := (runProd err_text text marshal call_text token_text cfg_text os s).
Implicit Types (c : Client) (i : prod_io K).

Definition printed (x : ending) : bool := match x with Printed _ _ => true | _ => false end.

(** A run that got past its first steps: what those left, and what the end of
    the run did to the database. *)
Lemma run_shape status disc id want i f c x rep :
  runProd_ status disc id want i f c = x → notices x = Some rep → pr_mark i = None → pr_defer i = None →
  ∃ st st1 f1 cf, pr_open i = Ok st ∧ EnsureFirstRun os cfg_text "" f (Some st) (pr_first i) = (f1, st1, (rep, cf, Ok tt))
  ∧ left_file x = f1 ∧ left_cfg x = cf
  ∧ (left_db x = if printed (ended x) then mark None (if disc && negb status then mark None st1 else st1) else st1).
Proof.
  intros <- Hn Hm Hd. unfold runProd in *. destruct (pr_open i) as [st|e]; [|done].
  destruct (EnsureFirstRun os cfg_text "" f (Some st) (pr_first i)) as [[f1 st1] [[rep1 cf] [[]|e]]] eqn:Ef; [|done].
  exists st, st1, f1, cf. rewrite Ef. revert Hn. rewrite Hm, Hd.
  destruct (status || disc || want); destruct (dialService i) as [tok|e]; try by intros [= <-]; split_and!.
  - destruct status; [|destruct disc]; (destruct (headless _ _ _ _ _ _ _ _ c) as [c1 [v|e]]; by intros [= <-]; rewrite ?andb_false_r; split_and!).
  - destruct (headless _ _ _ _ _ _ _ _ c) as [c1 [v|e]]; by intros [= <-]; split_and!.
Qed.

(** Whatever the run, the service moves by what it serves. *)
Lemma run_serves (tick : G → G → Prop) status disc id want i f c :
  rtc (serves err_text marshal text s tick) c (left_service (runProd_ status disc id want i f c)).
Proof.
  unfold runProd. destruct (pr_open i) as [st|e]; [|done].
  destruct (EnsureFirstRun _ _ _ _ _ _) as [[f1 st1] [[rep1 cf] [[]|e]]]; [|done].
  assert (∀ op p tok, rtc (serves err_text marshal text s tick) c (headless err_text text marshal s i op p tok c).1) as Hc
    by (intros; apply call_serves).
  destruct (status || disc || want); destruct (dialService i) as [tok|e]; try done.
  - destruct status; [|destruct disc].
    1: specialize (Hc OpStatus None tok). 2: specialize (Hc OpDisconnect None tok). 3: specialize (Hc OpConnect (Some (mk_connect id)) tok).
    all: destruct (headless _ _ _ _ _ _ _ _ c) as [c1 [v|e]]; exact Hc.
  - specialize (Hc OpStatus None tok). destruct (headless _ _ _ _ _ _ _ _ c) as [c1 [v|e]]; exact Hc.
Qed.
End runs.

(** ** Properties *)

(** C24: the next run tells how this one ended, or takes it for a crash.  On a
    usable database, with nothing failing in the first steps of either run and
    the marks being written: the next run of the program reports an unclean exit
    exactly when this run did not end by printing a state (that is, also when a
    command failed because the service was down, and whenever the page was
    served), it is not a first run, and it reads the configuration this run had
    from the file this run left. *)
Theorem next_run_reports_end {G E D R K} `{Engine G, !EngineReport G, Enforcer E, ClientStore D, WalletClient R, NewWallet R,
    Socket K}
  `{Sha256, ResultJSON, URL, Unicode, ErrorText (enf_error (E := E)), GoArch, IPv6, NameService, SortSlice, Payloads,
    Frames, CallJSON, TOMLLaws}
  err_text text marshal call_text token_text cfg_text os s status disc id want (i j : prod_io K) f
  (c c' : Client (G := G) (E := E) (D := D) (R := R) (K := K)) st x y rep rep' status' disc' id' want' :
  pr_open i = Ok st → Storage.usable st → smooth (pr_first i) → pr_mark i = None → pr_defer i = None →
  runProd err_text text marshal call_text token_text cfg_text os s status disc id want i f c = x → notices x = Some rep →
  Ok <$> left_db x = Some (pr_open j) → smooth (pr_first j) → pr_mark j = None → pr_defer j = None →
  runProd err_text text marshal call_text token_text cfg_text os s status' disc' id' want' j (left_file x) c' = y →
  notices y = Some rep' →
  UncleanExit rep' = negb (printed (ended x)) ∧ IsFirstRun rep' = false ∧ left_cfg y = left_cfg x
  ∧ left_file y = left_file x.
Proof.
  intros Hst Hu Hs Hm Hd Hx Hn Hj Hs' Hm' Hd' Hy Hn'.
  destruct (run_shape _ _ _ _ _ _ _ _ _ _ _ _ _ _ _ _ _ Hx Hn Hm Hd) as (st' & st1 & f1 & cf & Ho & E1 & Hf & Hcf & Hdb).
  rewrite Hst in Ho. injection Ho as <-.
  destruct (run_shape _ _ _ _ _ _ _ _ _ _ _ _ _ _ _ _ _ Hy Hn' Hm' Hd') as (st2 & st3 & f3 & cf' & Ho & E2 & Hf2 & Hcf2 & _).
  destruct (run_leaves _ _ _ _ _ _ _ _ _ _ E1) as [[t Ht] [s1 ->]]. destruct (run_leaves _ _ _ _ _ _ _ _ _ _ E2) as [_ [s3 ->]].
  destruct (run_facts _ _ _ _ _ _ _ _ _ _ Hu Hs E1) as (-> & _ & _ & _ & L1 & _).
  rewrite Hdb, Ho in Hj. assert (Storage.usable st2 ∧ default "" (settings st2 !! cleanExitSetting) = if printed (ended x) then "1" else "0")
    as [Hu2 Hset].
  { unfold mark in Hj. destruct (printed (ended x)); [destruct (disc && negb status)|]; rewrite ?clean_mark in Hj by done;
      cbn [fst] in Hj; rewrite ?clean_mark in Hj by done; injection Hj as <-; (split; [done|]); cbn; by rewrite lookup_insert_eq. }
  rewrite Hf, Ht in E2. destruct (run_facts _ _ _ _ _ _ _ _ _ _ Hu2 Hs' E2) as (_ & -> & -> & _ & L2 & ->).
  rewrite Hset. split; [by destruct (printed (ended x))|]. split; [done|].
  rewrite Hf2, Hcf2, Hf, Hcf, Ht in *. split; [|done]. rewrite L1 in L2. by injection L2.
Qed.

(** The page alone has nothing to connect with. *)
Definition engineless {G E D W} (a : App.App G E D W) : Prop := engine a = None ∧ node a = None.

Section alone.
Context {G E D W : Type} `{Engine G, Enforcer E, ClientStore D, IPv6, NameService, SortSlice, Unicode}.
Implicit Types a : App.App G E D W.

Lemma engineless_step a a' : AppCircuit.step a a' → engineless a → engineless a'.
Proof.
  assert (∀ (b : App.App G E D W) i now, engineless b → (RotateCircuit b i now).1 = b) as Hrot.
  { intros b i now [He _]. unfold RotateCircuit. by rewrite He. }
  intros Hs Hi. destruct Hs as [a ids i now|fuel a n i now a1 r Hr|a i now|a i now|a|a a1 Hs].
  - destruct (build_frame a ids i now) as [->|[path ->]]; [done|exact Hi].
  - apply auto_frame in Hr as [->|[path ->]]; [done|exact Hi].
  - by rewrite Hrot.
  - unfold MaybeAutoRotate. destruct (_ || _); [done|]. destruct (_ <? _); [done|].
    pose proof (Hrot a i now Hi) as Hx. by destruct (RotateCircuit a i now) as [a1 [[]|x]]; cbn in Hx; subst.
  - exact Hi.
  - destruct Hi as [He Hn]. destruct Hs as [a id i|a|a reason|a c r|a|a amount txid id now|a n dial].
    + unfold Connect. by rewrite He, Hn.
    + unfold Disconnect. by rewrite Hn.
    + unfold FailClosed. destruct (enforcer a); [|done]. by destruct (enf_FailClosed _ _).
    + unfold UpdateConfig. destruct (Validate c); [|done]. by destruct r.
    + done.
    + unfold ConfirmPayment. by destruct (SaveReceipt _ _) as [st2 [[]|x]].
    + unfold ProbeLatency. by destruct (dial _ _).
Qed.
End alone.

(** A request of the page to the orchestrator itself. *)
Inductive page_step {G E D R K} `{Engine G, !EngineReport G, Enforcer E, ClientStore D, WalletClient R, NewWallet R, Socket K}
  `{Sha256, ResultJSON, URL, Unicode, ErrorText (enf_error (E := E)), GoArch, IPv6, NameService, SortSlice, UiJSON}
  (err_text : enf_error (E := E) → string) (text : service_error (enf_error (E := E)) → string) (demo : bool)
  : relation (Client (G := G) (E := E) (D := D) (R := R) (K := K)) :=
| page_request io r c : page_step err_text text demo c (serve_ui (H := app_provider err_text text demo) io r c).1.

(** without the service the page connects to nothing.  Served alone, whatever
    is asked of it, any number of times: no node is ever current, and every
    request to connect is answered by an error that changes nothing. *)
Theorem page_alone_never_connects {G E D R K} `{Engine G, !EngineReport G, Enforcer E, ClientStore D,
    HR : WalletClient R, !WalletLaws R, NewWallet R, HK : Socket K, !SocketLaws K}
  `{Sha256, ResultJSON, URL, Unicode, ErrorText (enf_error (E := E)), GoArch, IPv6, NameService, SortSlice, UiJSON}
  err_text text demo cf st (c : Client (G := G) (E := E) (D := D) (R := R) (K := K)) :
  rtc (page_step err_text text demo) (mkClientApp (view_only cf st) no_status) c →
  node (app c) = None
  ∧ ∀ io r, u_Path r = "/api/connect" →
      let x := serve_ui (H := app_provider err_text text demo) io r c in x.1 = c ∧ Code x.2 = 500.
Proof.
  intros Hs. assert (engineless (app c)) as [He Hn].
  { assert (engineless (app (mkClientApp (R := R) (K := K) (view_only (G := G) (E := E) cf st) no_status))) as Hz by done.
    revert Hz. induction Hs as [|c1 c2 c3 Hs _ IH]; [done|]. intros Hz. apply IH. destruct Hs as [io r x].
    apply page_keeps; [|apply engineless_step|exact Hz]. intros a b [= Hnb _ Heb _ _ _] [Ha1 Ha2].
    split; congruence. }
  split; [done|]. intros io r Hp. unfold serve_ui, Handler. rewrite Hp. cbn [String.eqb Ascii.eqb Bool.eqb].
  unfold handleConnect. cbn. unfold Connect. rewrite Hn, He. cbn. split; [by destruct c|done].
Qed.

(** ** Witnesses and examples *)

Example bare_connect : rewrite_connect ["veilnet"; "--demo"; "--connect"; "--status"] = ["veilnet"; "--demo"; connect_auto; "--status"]
  ∧ rewrite_connect ["veilnet"; "--connect"] = ["veilnet"; connect_auto]
  ∧ rewrite_connect ["veilnet"; "--connect"; "n1"] = ["veilnet"; "--connect"; "n1"].
Proof. split_and!; reflexivity. Qed.

#[local] Existing Instances stable_sort amd64 no_ipv6 ascii_unicode toy_sha256 WgConf.demo_netip App.demo_store App.demo_names
  App.demo_os_enforcer App.demo_os_enforcer_laws EngineAdapter.plain_engine_text
  Xswd.script_socket Xswd.script_laws Xswd.text_json Xswd.one_url Wallet.plain_texts Wallet.daemon
  Ipc.bar_frames Ipc.bar_laws Ui.plain_bodies Remote.codec_payloads Remote.codec_calls
  Onboard.default_toml Onboard.default_toml_laws.

Definition cli_io (tok : token_file) (db : Storage.Store) : prod_io script :=
  mkProdIO (Ok db) (Ok "/home/u") tok calm_run None None (mkRemoteIO None false (demo_sio [])).
Definition cli (status : bool) (tok : token_file) (db : Storage.Store) (f : file) (c : DemoService) :=
  runProd (fun _ => "error") demo_text demo_marshal demo_call_text (fun _ => "open service.token: no such file") (fun _ => "bad")
    Linux demo_server status false "" false (cli_io tok db) f c.
Definition status_run := cli true NoFile demo_db (Text "default") demo_start.
Definition status_db : Storage.Store := default empty_db (left_db status_run).
Definition second_run := cli true NoFile status_db (Text "default") demo_start.

(** Asking for the status while the service is down counts as a crash. *)
Lemma next_run_reports_end_witness :
  (∃ e, ended status_run = Fatal e) ∧ (UncleanExit <$> notices second_run) = Some true.
Proof.
  assert (Storage.usable demo_db) as Hu by (repeat constructor; apply bool_decide_unpack; vm_compute; exact I).
  assert (smooth calm_run) as Hs by done.
  assert (printed (ended status_run) = false) as Hp by (vm_compute; reflexivity).
  assert (is_Some_b (notices status_run) = true) as Hn by (vm_compute; reflexivity).
  assert (is_Some_b (notices second_run) = true) as Hn' by (vm_compute; reflexivity).
  assert (∃ e, ended status_run = Fatal e) as He by (eexists; vm_compute; reflexivity).
  assert (left_file status_run = Text "default") as Hf by (vm_compute; reflexivity).
  destruct (notices status_run) as [rep|] eqn:En; [|discriminate Hn].
  destruct (notices second_run) as [rep'|] eqn:En'; [|discriminate Hn'].
  assert (Ok <$> left_db status_run = Some (pr_open (cli_io NoFile status_db))) as Hj by (vm_compute; reflexivity).
  destruct (next_run_reports_end (fun _ => "error") demo_text demo_marshal demo_call_text
    (fun _ => "open service.token: no such file") (fun _ => "bad") Linux demo_server true false "" false
    (cli_io NoFile demo_db) (cli_io NoFile status_db) (Text "default") demo_start demo_start demo_db status_run
    (cli true NoFile status_db (left_file status_run) demo_start) rep rep'
    true false "" false eq_refl Hu Hs eq_refl eq_refl eq_refl En Hj Hs eq_refl eq_refl eq_refl) as (Hx & _).
  { rewrite Hf. exact En'. }
  split; [exact He|]. cbn [fmap option_fmap option_map]. rewrite Hx, Hp. reflexivity.
Defined.

Definition alone : Client (G := tunnelAdapter string) (E := osEnforcer machine) (D := client_db)
  (R := HTTPWalletClient) (K := script) := mkClientApp (view_only DefaultClientConfig (mkClientDB demo_db [])) no_status.
Lemma page_alone_never_connects_witness :
  Code (serve_ui (H := app_provider (fun _ => "error") demo_text false) (page_calls []) (post "/api/connect" "n1") alone).2 = 500.
Proof.
  destruct (page_alone_never_connects (fun _ => "error") demo_text false DefaultClientConfig (mkClientDB demo_db []) alone
    (rtc_refl _ _)) as [_ Hc].
  exact (proj2 (Hc (page_calls []) (post "/api/connect" "n1") eq_refl)).
Defined.
