(* ===== verification/Setup.v ===== *)
(** * Setup: the environment report of the client (cmd/veilnet/setup.go)

    Every line the report prints, from what it looked at, and the count of
    issues; the notices of the first run.  The prerequisite script is never run
    by the program. *)

From Stdlib Require Import ZArith Lia Ascii.
From S2P Require Import Prelude Float64 GoStrings NetIP GoText Crypto.
From S2P Require Import Tunnel.
From S2P Require Import EngineAdapter.
From S2P Require Import Ipc.
From S2P Require Import ClientConfig.
From S2P Require Import Runner.
From S2P Require Import Enforce.
From S2P Require Import App.
From S2P Require Import Diag.
From S2P Require Import Onboard.

(** A line and whether it is fine. *)
Record line := mkLine { l_ok : bool; l_text : string }.
Definition ok_ (t : string) : line := mkLine true t.
Definition fix_ (t : string) : line := mkLine false t.
Definition printed_line (l : line) : string := "[" +:+ (if l_ok l then "ok" else "FIX") +:+ "] " +:+ l_text l.

(** What the report looks at.  [se_call] is the call with the token found. *)
Record setup_env := mkSetup {
  se_os : System; se_goos : string; se_arch : string; se_admin : bool; se_cfgPath : result string string; se_file : file;
  se_tokPath : result string string; se_token : token_file; se_call : string → result call_error ConnState;
  se_exe_wintun : option string; se_sys_wintun : option string; se_module : bool; se_wg : option string;
  se_dbPath : result string string; se_db : bool; se_get : string → result string string }.

(** The other systems report like Linux. *)
Definition isAdmin (os : System) (admin : bool) : bool * string :=
  (admin, match os with
          | Windows => if admin then "net session ok" else "net session denied"
          | _ => if admin then "euid 0" else "not root"
          end).

Definition fmt_whole (x : float64) : string := trim_right "."%char (fmt_fixed 0 x).
Definition shortErr (s : string) : string := if len s >? 120 then of_chars (take 120 (chars s)) +:+ "..." else s.

Section report.
Context {B : Type} `{Unicode, TOML, StrconvQuote}.
Context (transports : gmap string (EngineAdapter.Transport B)) (tr_text : transport_error → string)
  (cfg_text : ClientConfig.error → string) (token_text : token_error → string) (call_text : call_error → string).
Implicit Types e : setup_env.

(** The configuration is looked for again, in the same home. *)
Definition loaded e : ClientConfig * result string unit :=
  match se_cfgPath e with
  | Err m => (DefaultClientConfig, Err m)
  | Ok _ => let '(c, r) := LoadClient (se_file e) in (c, result_map_err cfg_text r)
  end.
Definition path_of e : string := match se_cfgPath e with Ok p => p | Err _ => "" end.

Definition admin_line e : line :=
  let '(admin, how) := isAdmin (se_os e) (se_admin e) in
  if admin then ok_ ("admin: yes (" +:+ how +:+ ")")
  else fix_ ("admin: no (" +:+ how +:+ ") -- service install needs elevation, the GUI itself never does").

Definition config_lines e : list line :=
  (match se_cfgPath e with
   | Err m => [fix_ ("config path: " +:+ m +:+ " -- set HOME so ~/.veilnet is writable")]
   | Ok _ => [] end)
  ++ match loaded e with
     | (_, Err m) => [fix_ ("config " +:+ path_of e +:+ ": invalid (" +:+ m +:+ ") -- fix the named field or delete the file for fresh defaults")]
     | (c, Ok _) =>
       (if String.eqb (path_of e) "" then []
        else match se_file e with
             | Missing => [ok_ ("config: no file yet -- first run auto-creates " +:+ path_of e +:+ " with safe defaults")]
             | _ => [ok_ ("config: " +:+ path_of e +:+ " valid (policy=" +:+ SelectPolicy (Network c) +:+ " dns=" +:+ dns_Mode (DNS c)
                     +:+ " killswitch=" +:+ KillSwitch c +:+ " network=" +:+ dero_Network (Dero c) +:+ ")")]
             end)
       ++ (let n := dero_Network (Dero c) in
           if negb (String.eqb n "mainnet") && negb (String.eqb n "")
           then [fix_ ("dero network=" +:+ strconv_Quote n +:+ " -- devnet/testnet is explicit-only; switch back unless testing")]
           else [])
     end.

Definition transport_line (name : string) : line :=
  match Get transports name with
  | Err x => fix_ ("transport: " +:+ tr_text x)
  | Ok t => if Obfuscating t then ok_ ("transport: " +:+ t_Name t +:+ " -- " +:+ Description t)
            else ok_ ("transport: " +:+ t_Name t +:+ " -- " +:+ Description t +:+ " (no censorship resistance claimed)")
  end.
Definition cover_line (c : CoverConfig) : line :=
  if String.eqb (cov_Mode c) "" || String.eqb (cov_Mode c) CoverOff
  then ok_ "cover traffic: OFF -- sizes and timing are not disguised (default)"
  else if String.eqb (cov_Mode c) CoverPad then ok_ "cover traffic: PAD -- packet sizes bucketed; timing is NOT hidden"
  else if String.eqb (cov_Mode c) CoverConstant
  then ok_ ("cover traffic: CONSTANT " +:+ fmt_d (CellSizeBytes c) +:+ "B every " +:+ fmt_d (IntervalMs c) +:+ "ms (max overhead "
            +:+ fmt_whole (f_mul (MaxOverhead c) (f_of_Z 100)) +:+ "%) -- size and timing hidden while the link keeps up")
  else fix_ ("cover traffic: unknown mode " +:+ strconv_Quote (cov_Mode c) +:+ " -- use OFF, PAD or CONSTANT").

Definition token_line e : line :=
  match se_tokPath e with
  | Err m => fix_ ("service token: " +:+ m +:+ " -- start the service once to mint it")
  | Ok p => match se_token e with
            | NoFile => fix_ ("service token: missing at " +:+ p +:+ " -- " +:+ ServiceInstallHint (se_os e))
            | _ => ok_ ("service token: present at " +:+ p)
            end
  end.

Definition fix_of (e : option go_error) : string := match e with Some (OnboardError _ _ f _) => f | _ => "" end.
Definition service_line e : line :=
  match LoadToken (se_tokPath e) "" (se_token e) with
  | Err x => fix_ ("service: unreachable -- " +:+ fix_of (ClassifyConnectError (se_os e) (Some (PlainError (token_text x)))))
  | Ok tok =>
    match se_call e tok with
    | Err x => fix_ ("service: token rejected (" +:+ call_text x +:+ ") -- restart the service to refresh credentials, then retry")
    | Ok st => ok_ ("service: reachable (engine=" +:+ cs_EngineState st +:+ ")")
    end
  end.

Definition reportTunBackend e : line :=
  match se_os e with
  | Windows =>
    match se_exe_wintun e, se_sys_wintun e, se_wg e with
    | Some c, _, _ | None, Some c, _ => ok_ ("tunnel: wintun driver ready at " +:+ c +:+ " (userspace, no WireGuard install needed)")
    | None, None, Some p => ok_ ("tunnel: wireguard-tools at " +:+ p +:+ " (kernel/driver path available)")
    | None, None, None => fix_ "tunnel: no wintun.dll beside veilnet.exe and no WireGuard install -- reinstall from a release zip (ships wintun.dll) or run scripts\setup.ps1 -Install"
    end
  | Linux =>
    if se_module e then ok_ "tunnel: kernel WireGuard module present (fast path)"
    else match se_wg e with
         | Some p => ok_ ("tunnel: wireguard-tools at " +:+ p +:+ " (kernel interface path)")
         | None => ok_ "tunnel: embedded userspace backend (wireguard-go); install wireguard-tools for the kernel fast path"
         end
  | _ => match se_wg e with
         | Some p => ok_ ("tunnel: wireguard-tools at " +:+ p +:+ "; userspace utun backend ready")
         | None => ok_ "tunnel: userspace utun backend ready (install wireguard-tools via brew for diagnostics)"
         end
  end.

Definition db_line e : line :=
  match se_dbPath e with
  | Err m => fix_ ("state db: " +:+ m +:+ " -- set HOME so ~/.veilnet is writable")
  | Ok p => if se_db e then ok_ ("state db: present at " +:+ p +:+ " (settings, history, receipts persist)")
            else ok_ ("state db: fresh -- created on first run at " +:+ p)
  end.
Definition dero_lines e (c : ClientConfig) : list line :=
  let ep := RPCEndpoint (Dero c) in
  [match se_get e ep with
   | Err m => fix_ ("dero " +:+ ep +:+ ": unreachable (" +:+ shortErr m +:+ ") -- start the daemon or fix dero.rpc_endpoint in "
                    +:+ path_of e +:+ "; wallet stays optional")
   | Ok status => ok_ ("dero " +:+ ep +:+ ": reachable (http " +:+ status +:+ "); control plane only, never user traffic")
   end;
   if String.eqb (wal_Name (Wallet c)) "" && String.eqb (Password (Wallet c)) ""
   then ok_ "wallet: not configured -- demo and unpaid dev nodes work; paid nodes ask for explicit approval"
   else ok_ "wallet: configured (account set) -- payments still need explicit approval every time"].

Definition runSetup e : list line :=
  let '(c, r) := loaded e in
  [ok_ ("OS: " +:+ se_goos e +:+ "/" +:+ se_arch e); admin_line e] ++ config_lines e
  ++ (if is_ok r then [transport_line (ClientConfig.Transport (Network c)); cover_line (Cover c)] else [])
  ++ [token_line e; service_line e; reportTunBackend e; db_line e]
  ++ (if is_ok r then dero_lines e c else []).

Definition issues (l : list line) : Z := Z.of_nat (length (List.filter (fun x => negb (l_ok x)) l)).
Definition verdict (l : list line) : string :=
  if issues l =? 0 then "ready: no issues found"
  else fmt_d (issues l) +:+ " issue(s) need attention (see FIX lines above)".
End report.

(** ** Notices *)

Definition firstRunNotice (r : FirstRunReport) : list string :=
  (if IsFirstRun r then ["first run: created default config at " +:+ ConfigPath r
                          +:+ " (FASTEST, VEILNET DNS, killswitch ON_WHILE_CONNECTED)"] else [])
  ++ (if UncleanExit r then ["notice: last run did not exit cleanly; reconnect to resume protection"] else [])
  ++ (if KillswitchSentinel r then ["notice: killswitch ALWAYS_ON is configured and respected even while disconnected"] else [])
  ++ (if String.eqb (WalletNote r) "" then [] else ["wallet: " +:+ WalletNote r]).

(** Only the name and the price are looked at. *)
Definition paidNotice (st : ConnState) : list string :=
  match cs_Node st with
  | Some n => if f_gt (App.PricePerHourDero n) f0 then ["approval: " +:+ PaymentApprovalPrompt n] else []
  | None => []
  end.

(** ** Lemmas *)

Definition fine (l : list line) : Prop := Forall (fun x => l_ok x = true) l.
Lemma issues_none l : issues l = 0 ↔ fine l.
Proof.
  unfold issues, fine. induction l as [|x l IH]; [by split; [constructor|]|]. cbn. rewrite Forall_cons.
  destruct (l_ok x); cbn; [rewrite IH; naive_solver|]. split; [lia|]. by intros [? _].
Qed.

Section ready.
Context {B : Type} `{Unicode, TOML, StrconvQuote}.
Context (transports : gmap string (EngineAdapter.Transport B)) (tr_text : transport_error → string)
  (cfg_text : ClientConfig.error → string) (token_text : token_error → string) (call_text : call_error → string).
Implicit Types e : setup_env.

Lemma fine_app l k : fine (l ++ k) ↔ fine l ∧ fine k.
Proof. apply Forall_app. Qed.
Lemma fine_cons x l : fine (x :: l) ↔ l_ok x = true ∧ fine l.
Proof. unfold fine. by rewrite Forall_cons. Qed.
Lemma fine_nil : fine [] ↔ True.
Proof. split; [done|constructor]. Qed.

(** Reading the configuration checks its cover mode: the last line of
    [cover_line] is never printed. *)
Lemma cover_fine f c : LoadClient f = (c, Ok tt) → l_ok (cover_line (Cover c)) = true.
Proof.
  intros Hl. assert (Validate c = Ok tt) as Hv.
  { revert Hl. unfold LoadClient. destruct f as [|e|t]; [by intros [= <-]|done|].
    destruct (toml_Unmarshal _ _) as [c' []]; [|done]. by intros [= <- ?]. }
  apply validate_wf in Hv. unfold cover_line. destruct (wf_cover c Hv) as [Hm|(Hm & _)].
  - apply elem_of_cons in Hm as [->|Hm]; [done|]. apply elem_of_cons in Hm as [->|Hm]; [done|].
    apply elem_of_cons in Hm as [->|Hm]; [done|]. by apply elem_of_nil in Hm.
  - by rewrite Hm.
Qed.

(** What each line is about. *)
Lemma lines_fine e c :
  (l_ok (admin_line e) = true ↔ se_admin e = true)
  ∧ (l_ok (transport_line transports tr_text (ClientConfig.Transport (Network c))) = true
     ↔ EngineAdapter.Available transports (ClientConfig.Transport (Network c)) = true)
  ∧ (l_ok (token_line e) = true ∧ l_ok (service_line token_text call_text e) = true
     ↔ ∃ tok st, LoadToken (se_tokPath e) "" (se_token e) = Ok tok ∧ se_call e tok = Ok st)
  ∧ (l_ok (reportTunBackend e) = true
     ↔ (se_os e = Windows → is_Some (se_exe_wintun e) ∨ is_Some (se_sys_wintun e) ∨ is_Some (se_wg e)))
  ∧ (l_ok (db_line e) = true ↔ is_ok (se_dbPath e) = true)
  ∧ (fine (dero_lines e c) ↔ is_ok (se_get e (RPCEndpoint (Dero c))) = true).
Proof.
  split_and!.
  - unfold admin_line, isAdmin. by destruct (se_os e), (se_admin e).
  - unfold transport_line, EngineAdapter.Available. destruct (Get _ _) as [t|]; [|done]. by destruct (Obfuscating t).
  - unfold token_line, service_line, LoadToken. cbn [String.eqb]. destruct (se_tokPath e) as [p|m]; [|naive_solver].
    destruct (se_token e) as [|m|t]; [naive_solver..|]. destruct (negb (len t =? 64)); [naive_solver|].
    destruct (se_call e t) as [st|x] eqn:Ec; [by split; [eauto|]|]. split; [naive_solver|]. intros (tok & st & [= <-] & Hx). congruence.
  - unfold reportTunBackend. destruct (se_os e); [|by destruct (se_module e), (se_wg e)|by destruct (se_wg e)..].
    destruct (se_exe_wintun e), (se_sys_wintun e), (se_wg e); cbn; split; try done; try (intros _ _; by eauto).
    intros Hx. by destruct (Hx eq_refl) as [[? ?]|[[? ?]|[? ?]]].
  - unfold db_line. destruct (se_dbPath e); [|done]. by destruct (se_db e).
  - unfold dero_lines. rewrite !fine_cons, fine_nil. destruct (se_get e _), (_ && _); cbn; naive_solver.
Qed.
End ready.

(** ** Properties *)

(** C25: "ready" means that everything was found, and an issue that something was
    not.  The report counts no issue exactly when: the process is privileged;
    the configuration can be found, read and is valid, and names the main
    network or none; its transport is registered; the token can be read and the
    service answers with it; there is a way to make a tunnel on Windows; the
    database has a place; and the DERO daemon of the configuration answers. *)
Theorem setup_ready_exact {B} `{Unicode, TOML, StrconvQuote} (transports : gmap string (EngineAdapter.Transport B))
  tr_text cfg_text token_text call_text e :
  issues (runSetup transports tr_text cfg_text token_text call_text e) = 0
  ↔ se_admin e = true
    ∧ (∃ p c, se_cfgPath e = Ok p ∧ LoadClient (se_file e) = (c, Ok tt) ∧ dero_Network (Dero c) ∈ ["mainnet"; ""]
        ∧ EngineAdapter.Available transports (ClientConfig.Transport (Network c)) = true ∧ is_ok (se_get e (RPCEndpoint (Dero c))) = true)
    ∧ (∃ tok st, LoadToken (se_tokPath e) "" (se_token e) = Ok tok ∧ se_call e tok = Ok st)
    ∧ (se_os e = Windows → is_Some (se_exe_wintun e) ∨ is_Some (se_sys_wintun e) ∨ is_Some (se_wg e))
    ∧ is_ok (se_dbPath e) = true.
Proof.
  rewrite issues_none. unfold runSetup, config_lines, loaded, path_of. destruct (se_cfgPath e) as [p|m].
  2: { rewrite fine_app. split; [|by intros (_ & (p & _ & Hx & _) & _)]. rewrite fine_app. cbn [app].
       rewrite !fine_cons. naive_solver. }
  destruct (LoadClient (se_file e)) as [c [[]|x]] eqn:El; cbn [result_map_err is_ok].
  2: { rewrite !fine_app. split; [|by intros (_ & (p' & c' & _ & Hx & _) & _)]. cbn [app]. rewrite !fine_cons. naive_solver. }
  destruct (lines_fine transports tr_text token_text call_text e c) as (Ha & Ht & Hs & Hb & Hd & Hr). pose proof (cover_fine _ _ El) as Hcov.
  rewrite !fine_app, Hr, !fine_cons, Ha, Ht, !fine_nil, Hb, Hd.
  assert (fine (if negb (String.eqb (dero_Network (Dero c)) "mainnet") && negb (String.eqb (dero_Network (Dero c)) "")
            then [fix_ ("dero network=" +:+ strconv_Quote (dero_Network (Dero c)) +:+ " -- devnet/testnet is explicit-only; switch back unless testing")]
            else []) ↔ dero_Network (Dero c) ∈ ["mainnet"; ""]) as Hn.
  { rewrite !elem_of_cons, elem_of_nil. destruct (String.eqb_spec (dero_Network (Dero c)) "mainnet"), (String.eqb_spec (dero_Network (Dero c)) "");
      cbn; rewrite ?fine_cons, ?fine_nil; cbn; naive_solver. }
  rewrite Hn. match goal with |- context [fine (if String.eqb p "" then _ else ?l)] =>
    assert (fine (if String.eqb p "" then [] else l)) as Hcf
      by (destruct (String.eqb p ""); [constructor|by destruct (se_file e); repeat constructor]) end.
  split.
  - intros ((_ & Hadm & _) & (_ & _ & Hnet) & (Htr & _ & _) & (Htok & Hser & Htun & Hdb & _) & Hget).
    split_and!; [done|by exists p, c|by apply Hs|done..].
  - intros (Hadm & (p' & c' & [= <-] & [= <-] & Hnet & Htr & Hget) & Hts & Htun & Hdb). apply Hs in Hts as [Htok Hser].
    by split_and!.
Qed.

(** ** Witnesses and examples *)

#[local] Existing Instances ascii_unicode Onboard.default_toml.
#[local] Instance plain_quote : StrconvQuote := {| strconv_Quote := quoted; strconv_Quote_plain s _ := eq_refl |}.

Definition demo_env (admin : bool) (reply : result call_error ConnState) : setup_env :=
  mkSetup Linux "linux" "amd64" admin (Ok "/home/u/.veilnet/config.toml") Missing (Ok "/home/u/.veilnet/service.token")
    (Content (of_chars (repeat "a"%char 64))) (fun _ => reply) None None true None (Ok "/home/u/.veilnet/client.db") false
    (fun _ => Ok "200 OK").
Definition an_answer : ConnState := mkConnState "DOWN" None 0 0 0 0 no_session (mkPaymentInfo f0 f0 0 "" false) no_circuit false.
Definition demo_report (e : setup_env) : list line :=
  runSetup (init "udp") (fun _ => "transport: not available") (fun _ => "bad") (fun _ => "no token") (fun _ => "connection refused") e.

Example all_is_well : issues (demo_report (demo_env true (Ok an_answer))) = 0
  ∧ verdict (demo_report (demo_env true (Ok an_answer))) = "ready: no issues found"
  ∧ verdict (demo_report (demo_env false (Ok an_answer))) = "1 issue(s) need attention (see FIX lines above)".
Proof. vm_compute. split_and!; reflexivity. Qed.

(** A service that is down reads as one that refused the token: dialling it only
    reads the token file. *)
Example down_reads_as_rejected :
  map l_text (List.filter (fun l => negb (l_ok l)) (demo_report (demo_env true (Err (ErrDial "connection refused")))))
  = ["service: token rejected (connection refused) -- restart the service to refresh credentials, then retry"].
Proof. vm_compute. reflexivity. Qed.
