(* ===== verification/Demo.v ===== *)
(** * Demo: the demo application (internal/app/demo.go, cmd/veilnet/main.go)

    The in-process engine with the handshakes it waits for, the application
    with its three seeded nodes, and a run of the program in demo mode.  A
    goroutine that sleeps and then takes the lock is an entry of [sleepers], the
    time it wakes at; running it is a step of its own, so that any delay and any
    order of the sleepers is covered.  Serving the page and printing are outside. *)

From Stdlib Require Import ZArith Lia.
From S2P Require Import Prelude Float64 GoStrings NetIP GoText.
From S2P Require Controller.
From S2P Require Import Storage.
From S2P Require Import ClientConfig.
From S2P Require Import Runner.
From S2P Require Import Enforce.
From S2P Require Import App.
From S2P Require Import AppStorage.
From S2P Require Import Diag.
From S2P Require Import Onboard.

(** ** The engine *)

Definition millisecond : duration := 1000000.

Record FakeEngine := mkFake {
  fe_state : string; fe_since : time; fe_endpoint : string; fe_hs : time; fe_rx : Z; fe_tx : Z;
  sleepers : list time }.

Definition NewFakeEngine (now : time) : FakeEngine := mkFake StateDown now "" 0 0 0 [].
Definition errNoPeer : string := "no peers in configuration".

Definition FakeEngine_Start (f : FakeEngine) (cfg : WGConfig) (now : time) : FakeEngine * result string unit :=
  match Peers cfg with
  | [] => (f, Err errNoPeer)
  | p :: _ => (mkFake StateConnecting now (peer_Endpoint p) (fe_hs f) (fe_rx f) (fe_tx f)
                 (sleepers f ++ [now + 400 * millisecond]), Ok tt)
  end.
Definition FakeEngine_Stop (f : FakeEngine) (now : time) : FakeEngine * result string unit :=
  (mkFake StateDown now (fe_endpoint f) (fe_hs f) (fe_rx f) (fe_tx f) (sleepers f), Ok tt).

(** The end of a handshake: what a sleeper does when it gets the lock. *)
Definition wake (f : FakeEngine) (now : time) : FakeEngine :=
  if String.eqb (fe_state f) StateConnecting
  then mkFake StateUp (fe_since f) (fe_endpoint f) now (fe_rx f) (fe_tx f) (sleepers f)
  else f.

Record EngineStatus := mkEngineStatus { es_State : string; es_Since : time; es_Endpoint : string; es_LastHandshake : time }.
Definition FakeEngine_Status (f : FakeEngine) : EngineStatus :=
  mkEngineStatus (fe_state f) (fe_since f) (fe_endpoint f) (fe_hs f).

Definition FakeEngine_ApplyConfiguration (f : FakeEngine) (cfg : WGConfig) : FakeEngine * result string unit :=
  match Peers cfg with
  | [] => (f, Err errNoPeer)
  | p :: _ => (mkFake (fe_state f) (fe_since f) (peer_Endpoint p) (fe_hs f) (fe_rx f) (fe_tx f) (sleepers f), Ok tt)
  end.
Definition FakeEngine_RotateEndpoint (f : FakeEngine) (endpoint : string) (now : time)
  : FakeEngine * result string unit :=
  (mkFake StateConnecting (fe_since f) endpoint (fe_hs f) (fe_rx f) (fe_tx f)
     (sleepers f ++ [now + 300 * millisecond]), Ok tt).

Section counters.
Context `{GoArch}.
Definition bytes_in (secs : float64) (rate : Z) : Z :=
  f_to_int64 (f_mul (f_mul secs (f_of_Z rate)) (f_of_Z 1024)).
(** The counters are computed from the time since the handshake while UP, and
    kept from then on. *)
Definition FakeEngine_Statistics (f : FakeEngine) (now : time) : FakeEngine * (Z * Z) :=
  let f := if String.eqb (fe_state f) StateUp then
             let secs := Controller.Seconds (Time_Sub now (fe_hs f)) in
             let secs := if f_lt secs f0 then f0 else secs in
             mkFake (fe_state f) (fe_since f) (fe_endpoint f) (fe_hs f) (bytes_in secs 128) (bytes_in secs 32)
               (sleepers f)
           else f in
  (f, (fe_rx f, fe_tx f)).
End counters.

(** The engine at a time, as the orchestrator calls it. *)
Record demo_engine := mkDemoEngine { fe : FakeEngine; clock : time }.
Implicit Types g : demo_engine.
Definition with_fake g (f : FakeEngine) : demo_engine := mkDemoEngine f (clock g).

#[export] Instance fake_engine `{GoArch} : Engine demo_engine := {
  eng_Start g cfg := let '(f, r) := FakeEngine_Start (fe g) cfg (clock g) in (with_fake g f, r);
  eng_Stop g := let '(f, r) := FakeEngine_Stop (fe g) (clock g) in (with_fake g f, r);
  eng_State g := es_State (FakeEngine_Status (fe g));
  eng_Bytes g := (FakeEngine_Statistics (fe g) (clock g)).2;
  eng_RotateEndpoint g e := let '(f, r) := FakeEngine_RotateEndpoint (fe g) e (clock g) in (with_fake g f, r)
}.
#[export] Instance fake_report : EngineReport demo_engine :=
  {| eng_Endpoint g := es_Endpoint (FakeEngine_Status (fe g)); eng_LastHandshake g := es_LastHandshake (FakeEngine_Status (fe g)) |}.

(** Time passes, and the sleepers run, each once and not before its time. *)
Definition elapse g (d : duration) : demo_engine := mkDemoEngine (fe g) (clock g + d).
Definition awake g (left_ : list time) : demo_engine :=
  let f := fe g in
  with_fake g (wake (mkFake (fe_state f) (fe_since f) (fe_endpoint f) (fe_hs f) (fe_rx f) (fe_tx f) left_) (clock g)).

Inductive engine_step `{GoArch} : relation demo_engine :=
| es_start g cfg : engine_step g (eng_Start g cfg).1
| es_stop g : engine_step g (eng_Stop g).1
| es_apply g cfg : engine_step g (with_fake g (FakeEngine_ApplyConfiguration (fe g) cfg).1)
| es_rotate g e : engine_step g (eng_RotateEndpoint g e).1
| es_statistics g : engine_step g (with_fake g (FakeEngine_Statistics (fe g) (clock g)).1)
| es_elapse g d : 0 ≤ d → engine_step g (elapse g d)
| es_wake g l t k : sleepers (fe g) = l ++ t :: k → t ≤ clock g → engine_step g (awake g (l ++ k)).

(** Left alone for as long as a handshake takes: every sleeper ran, in any
    order. *)
Inductive settles : relation demo_engine :=
| settled g : sleepers (fe g) = [] → settles g g
| settles_wake g l t k h : sleepers (fe g) = l ++ t :: k → settles (awake g (l ++ k)) h → settles g h.

(** ** The application *)

Definition seeded (id key region country city endpoint : string) (price : float64) (capacity bond : Z) (load : float64)
  : NodeInfo :=
  mkNodeInfo id key region country city endpoint price capacity 1 (f_of_Z bond) "active" "demo-1" load 0 f0 0.
Definition demoNodes : list NodeInfo :=
  [seeded "demo-eu-01" "DEMOdemodEModemoDemoDEMOdemoDEMOdemoDEMOdemo00=" "eu-west" "DE" "Frankfurt" "127.0.0.1:51821"
     (f_const 5 100) 100 50 (f_const 3 10);
   seeded "demo-us-01" "DEMOdemodEModemoDemoDEMOdemoDEMOdemoDEMOdemo11=" "us-east" "US" "New York" "127.0.0.2:51822"
     (f_const 3 100) 200 100 (f_const 6 10);
   seeded "demo-ap-01" "DEMOdemodEModemoDemoDEMOdemoDEMOdemoDEMOdemo22=" "ap-south" "SG" "Singapore" "127.0.0.3:51823"
     (f_const 8 100) 50 25 (f_const 15 100)].

Definition demo_config : ClientConfig :=
  let c := DefaultClientConfig in
  mkClientConfig (Network c) (Dero c) (ClientConfig.Wallet c) (DNS c) (KillSwitch c) (AutoConnect c) "eu-west" (Multihop c)
    (Cover c) (ClientConfig.Payments c) (Logging c).

(** The two statements for a node; their errors are dropped. *)
Definition seed_row (n : NodeInfo) (now : time) : Storage.Node time :=
  Storage.mkNode (NodeID n) (WGPubkey n) (n_Region n) (Country n) (City n) (Endpoint n) (PricePerHourDero n)
    (CapacityMaxClients n) (ProtocolVersion n) (BondDero n) (n_Status n) (Version n) now 0.
Definition seed (d : client_db) (n : NodeInfo) : client_db :=
  let d := (write (fun s x => Storage.SaveNode s (seed_row n (an_now x)) (an_io x)) d).1 in
  (write (fun s x => Storage.SetTrust s (NodeID n) (f_const 8 10) 10 (an_now x) (an_io x)) d).1.

(** On a database in memory. *)
Definition NewDemo {E W : Type} (open : list (option string)) (l : list answer) (now : time)
  : result open_error (App.App demo_engine E client_db W) :=
  match Storage.Open empty_db open with
  | (_, Err e) => Err e
  | (s, Ok _) =>
    let d := foldl seed (mkClientDB s l) demoNodes in
    Ok (New demo_config d (Some (mkDemoEngine (NewFakeEngine now) now)) (Ok demoNodes))
  end.

(** ** A run in demo mode *)

(** [Disconnect] and [State] read the counters, and the engine keeps them. *)
Definition polled {E W : Type} `{GoArch} (a : App.App demo_engine E client_db W) : App.App demo_engine E client_db W :=
  match engine a with
  | Some g => set_engine a (Some (with_fake g (FakeEngine_Statistics (fe g) (clock g)).1))
  | None => a
  end.

(** One line of the live loop. *)
Definition live_line (st : ConnState) : string :=
  "state=" +:+ cs_EngineState st +:+ " node=" +:+ match cs_Node st with Some n => NodeID n | None => "-" end
  +:+ " elapsed=" +:+ fmt_d (ElapsedSecs st) +:+ "s rx=" +:+ fmt_d (cs_RxBytes st) +:+ " tx=" +:+ fmt_d (cs_TxBytes st).

Record demo_io := mkDemoIO {
  dm_open : list (option string); dm_answers : list answer; dm_now : time; dm_first : Onboard.run_io;
  dm_connect : connect_io }.

Inductive demo_error := DOpen (e : open_error) | DFirst (e : first_run_error) | DApproval (e : option go_error)
| DConnect (e : option go_error).
Definition not_connected_text : string :=
  "{" +:+ quoted "ok" +:+ ":false," +:+ quoted "error" +:+ ":" +:+ quoted "demo is not connected" +:+ "}".

(** How it goes on: a message and code 1, one line of text and the end, the
    live loop or the page until the program is killed. *)
Inductive demo_ending := DFatal (e : demo_error) | DPrinted (st : ConnState) | DText (t : string) | DLive | DPage.

Section run.
Context {E W : Type} `{GoArch, Enforcer E, IPv6, NameService, SortSlice, Unicode, TOML}.
Context (os : System) (cfg_text : ClientConfig.error → string) (app_text : App.error (enf_error (E := E)) → string).
Abbreviation DemoApp := (App.App demo_engine E client_db W).
Implicit Types a : DemoApp.

(** The file is the one of the default path. *)
Definition demo_first_run a (f : file) (i : Onboard.run_io) : file * DemoApp * result first_run_error FirstRunReport :=
  let '(f, st, res) := EnsureFirstRun os cfg_text "" f (Some (db (store a))) i in
  let a := set_store a (mkClientDB (default (db (store a)) st) (answers (store a))) in
  let '(a, r) := App_EnsureFirstRun a res in (f, a, r).

Definition no_demo_nodes : demo_error := DConnect (ClassifyConnectError os (Some (PlainError "no demo nodes"))).

(** The node named, or the first. *)
Definition demo_target a (connID : string) : result demo_error string :=
  if String.eqb connID "" then
    match ListNodes a with Ok (n :: _) => Ok (NodeID n) | _ => Err no_demo_nodes end
  else Ok connID.

Definition demo_connect a (connID : string) (i : connect_io) : DemoApp * option string * demo_ending :=
  match demo_target a connID with
  | Err e => (a, None, DFatal e)
  | Ok id =>
    match NeedsPaymentApproval os app_text a id with
    | Err e => (a, None, DFatal (DApproval e))
    | Ok (needs, n) =>
      let prompt := if needs then Some (PaymentApprovalPrompt n) else None in
      match Connect a id i with
      | (a, Err e) => (a, prompt, DFatal (DConnect (ClassifyConnectError os (Some (PlainError (app_text e))))))
      | (a, Ok _) => (a, prompt, DLive)
      end
    end
  end.

Definition runDemo (status disc : bool) (connID : string) (wantConn : bool) (i : demo_io) (f : file)
  : file * option DemoApp * option string * demo_ending :=
  match NewDemo (dm_open i) (dm_answers i) (dm_now i) with
  | Err e => (f, None, None, DFatal (DOpen e))
  | Ok a =>
    match demo_first_run a f (dm_first i) with
    | (f, a, Err e) => (f, Some a, None, DFatal (DFirst e))
    | (f, a, Ok _) =>
      if status then (f, Some (polled a), None, DPrinted (State a true (dm_now i)))
      else if disc then (f, Some a, None, DText not_connected_text)
      else if wantConn then
        let '(a, prompt, e) := demo_connect a connID (dm_connect i) in (f, Some a, prompt, e)
      else (f, Some a, None, DPage)
    end
  end.
End run.

(** ** Lemmas *)

Definition handshake_time : duration := 400 * millisecond.

(** A connecting engine has somebody to wake it, and nobody sleeps for longer
    than a handshake. *)
Record engine_wf (g : demo_engine) : Prop := {
  ew_state : fe_state (fe g) ∈ [StateDown; StateConnecting; StateUp];
  ew_woken : fe_state (fe g) = StateConnecting → sleepers (fe g) ≠ [];
  ew_soon : Forall (fun t => t ≤ clock g + handshake_time) (sleepers (fe g))
}.

Lemma soon_later g d l : 0 ≤ d → Forall (fun t => t ≤ clock g + handshake_time) l →
  Forall (fun t => t ≤ clock g + d + handshake_time) l.
Proof. intros Hd Hf. eapply Forall_impl; [exact Hf|]. cbn. intros t Ht. lia. Qed.

(** What waking does to the state, and that it does nothing else but tell the
    time. *)
Lemma awake_facts g l : fe_state (fe (awake g l)) = (if String.eqb (fe_state (fe g)) StateConnecting then StateUp else fe_state (fe g))
  ∧ sleepers (fe (awake g l)) = l ∧ fe_endpoint (fe (awake g l)) = fe_endpoint (fe g) ∧ clock (awake g l) = clock g.
Proof. unfold awake, wake. cbn. by destruct (String.eqb _ _). Qed.

Section engine_proofs.
Context `{GoArch}.

Lemma engine_step_wf g h : engine_step g h → engine_wf g → engine_wf h.
Proof.
  assert (Hnew : ∀ g x, 0 ≤ x ≤ handshake_time → engine_wf g →
    Forall (fun t => t ≤ clock g + handshake_time) (sleepers (fe g) ++ [clock g + x])).
  { intros g0 x Hx [_ _ Hs]. rewrite Forall_app. split; [done|]. repeat constructor. lia. }
  intros Hs Hwf. destruct Hs as [g cfg|g|g cfg|g e|g|g d Hd|g l t k Hl Ht]; cbn.
  - unfold FakeEngine_Start. destruct (Peers cfg) as [|p ps]; [by destruct g|]. cbn.
    split; cbn; [set_solver|intros _; by destruct (sleepers (fe g))|apply Hnew; [done|exact Hwf]].
  - destruct Hwf as [_ _ Hs]. split; cbn; [set_solver|done|done].
  - destruct Hwf as [Ha Hb Hs]. unfold FakeEngine_ApplyConfiguration. by destruct (Peers cfg); split.
  - split; cbn; [set_solver|intros _; by destruct (sleepers (fe g))|apply Hnew; [done|exact Hwf]].
  - destruct Hwf as [Ha Hb Hs]. unfold FakeEngine_Statistics. by destruct (String.eqb _ _); split.
  - destruct Hwf as [Ha Hb Hs]. split; cbn; [done|done|by apply soon_later].
  - destruct Hwf as [Ha Hb Hs]. destruct (awake_facts g (l ++ k)) as (E1 & E2 & _ & E4).
    split; rewrite ?E1, ?E2, ?E4.
    + destruct (String.eqb _ _); [set_solver|done].
    + destruct (String.eqb_spec (fe_state (fe g)) StateConnecting) as [|Hn]; [done|]. intros ?. by destruct Hn.
    + rewrite Hl in Hs. apply Forall_app in Hs as [Hs1 Hs2]. apply Forall_cons in Hs2 as [_ Hs2]. by apply Forall_app.
Qed.

Lemma engine_steps_wf g h : rtc engine_step g h → engine_wf g → engine_wf h.
Proof. induction 1 as [|x y z Hxy _ IH]; [done|]. intros Hx. apply IH. by apply (engine_step_wf x). Qed.
Lemma new_wf now : engine_wf (mkDemoEngine (NewFakeEngine now) now).
Proof. split; cbn; [set_solver|done|constructor]. Qed.

(** Settling is a run of the engine, and its end is known. *)
Lemma settles_end g h : settles g h → Forall (fun t => t ≤ clock g) (sleepers (fe g)) →
  rtc engine_step g h ∧ sleepers (fe h) = [] ∧ fe_endpoint (fe h) = fe_endpoint (fe g)
  ∧ fe_state (fe h) = (if String.eqb (fe_state (fe g)) StateConnecting && match sleepers (fe g) with [] => false | _ => true end
                       then StateUp else fe_state (fe g)).
Proof.
  induction 1 as [g Hg|g l t k h Hg _ IH]; intros Hs.
  - rewrite Hg. by rewrite andb_false_r.
  - destruct (awake_facts g (l ++ k)) as (E1 & E2 & E3 & E4). rewrite Hg in Hs.
    apply Forall_app in Hs as [Hs1 Hs2]. apply Forall_cons in Hs2 as [Ht Hs2].
    destruct IH as (I1 & I2 & I3 & I4); [by rewrite E2, E4; apply Forall_app|].
    split; [by eapply rtc_l; [by apply es_wake with (t := t)|]|]. split; [done|]. split; [by rewrite I3|].
    rewrite I4, E1, Hg. destruct (String.eqb (fe_state (fe g)) StateConnecting) eqn:Ec; cbn.
    + by destruct l.
    + by rewrite Ec.
Qed.
End engine_proofs.

Lemma settles_exists g : ∃ h, settles g h.
Proof.
  remember (sleepers (fe g)) as l eqn:E. revert g E. induction l as [|t l IH]; intros g E.
  - exists g. by constructor.
  - destruct (awake_facts g ([] ++ l)) as (_ & E2 & _). destruct (IH (awake g ([] ++ l))) as [h Hh]; [done|].
    exists h. by apply (settles_wake g [] t l h).
Qed.

(** Left alone for a handshake: up, unless it was stopped. *)
Lemma left_alone `{GoArch} g h : engine_wf g → settles (elapse g handshake_time) h →
  rtc engine_step g h ∧ sleepers (fe h) = [] ∧ fe_endpoint (fe h) = fe_endpoint (fe g)
  ∧ fe_state (fe h) = if String.eqb (fe_state (fe g)) StateDown then StateDown else StateUp.
Proof.
  intros [Ha Hb Hs] Hh. destruct (settles_end _ _ Hh) as (H1 & H2 & H3 & H4); [by cbn; cbn in Hs|].
  split; [by eapply rtc_l; [by apply (es_elapse g handshake_time)|]|]. split; [done|]. split; [done|].
  rewrite H4. cbn. repeat (apply elem_of_cons in Ha as [Ha|Ha]; [rewrite Ha in *; try done|]); [|by apply elem_of_nil in Ha].
  cbn. specialize (Hb eq_refl). by destruct (sleepers (fe g)).
Qed.

Section app_proofs.
Context {E W : Type} `{GoArch, Enforcer E, IPv6, NameService, SortSlice}.
Abbreviation DemoApp := (App.App demo_engine E client_db W).
Implicit Types a : DemoApp.

(** A listed node is the provider's, but for the latency and the trust. *)
Definition as_seen (n : NodeInfo) (ms : Z) (t : float64) : NodeInfo := set_latency (App.set_trust n t) ms.
Lemma observed_as_seen a n : ∃ ms t, observed a n = as_seen n ms t.
Proof.
  unfold observed. destruct (AvgLatency (store a) (NodeID n) 5) as [[avg k]|]; [destruct (0 <? k)|]; cbn [NodeID set_latency]; by eexists _, _.
Qed.

Lemma find_seen a l id n : List.find (fun n => String.eqb (NodeID n) id) l = Some n →
  ∃ ms t, List.find (fun n => String.eqb (NodeID n) id) (map (observed a) l) = Some (as_seen n ms t).
Proof.
  induction l as [|m l IH]; [done|]. cbn [List.find map]. destruct (observed_as_seen a m) as (ms & t & ->).
  change (NodeID (as_seen m ms t)) with (NodeID m).
  destruct (String.eqb (NodeID m) id); [|done]. intros [= <-]. by exists ms, t.
Qed.

Lemma demo_candidate a n region : n ∈ demoNodes → candidate SelectFastest region (observed a n) = true.
Proof.
  destruct (observed_as_seen a n) as (ms & t & ->). unfold demoNodes. intros Hn.
  repeat (apply elem_of_cons in Hn as [->|Hn]; [reflexivity|]). by apply elem_of_nil in Hn.
Qed.

Lemma demo_pick a id : nodes a = Ok demoNodes → (id = "" → SelectPolicy (Network (cfg a)) = SelectFastest) →
  id ∈ "" :: map NodeID demoNodes →
  ∃ n ms t, pick a id = Ok (as_seen n ms t) ∧ n ∈ demoNodes ∧ (id = "" ∨ id = NodeID n).
Proof.
  intros Hl Hp Hid.
  assert (∀ n, n ∈ demoNodes → pick a id = Ok (observed a n) → id = "" ∨ id = NodeID n →
            ∃ n ms t, pick a id = Ok (as_seen n ms t) ∧ n ∈ demoNodes ∧ (id = "" ∨ id = NodeID n)) as Hdone.
  { intros n Hn Hpk Hi. destruct (observed_as_seen a n) as (ms & t & Ho). exists n, ms, t. by rewrite <- Ho. }
  unfold pick in *. apply elem_of_cons in Hid as [->|Hid].
  - specialize (Hp eq_refl). unfold AutoSelect, Select, ListNodes in *. rewrite Hl, Hp in *. cbn [String.eqb SelectFastest] in *.
    set (l := map _ (List.filter _ _)) in *.
    assert (∀ x, x ∈ l → ∃ n, n ∈ demoNodes ∧ x.1 = observed a n) as Hin.
    { intros x Hx. apply list_elem_of_In, in_map_iff in Hx as (y & <- & Hy). apply filter_In in Hy as [Hy _].
      apply in_map_iff in Hy as (n & <- & Hn). exists n. by rewrite list_elem_of_In. }
    assert (l ≠ []) as Hne.
    { intros Hx. unfold l in Hx. apply map_eq_nil in Hx. assert (observed a (hd (seeded "" "" "" "" "" "" f0 0 0 f0) demoNodes)
        ∈ @nil NodeInfo) as Hf; [|by apply elem_of_nil in Hf].
      rewrite <- Hx. apply list_elem_of_In, filter_In. split; [by left|]. apply demo_candidate. by left. }
    pose proof (sort_Slice_perm higher l) as Hperm. destruct (sort_Slice higher l) as [|best r] eqn:Es.
    { by apply Permutation_nil_l in Hperm. }
    destruct (Hin best) as (n & Hn & Hb); [rewrite <- Hperm; by left|]. rewrite Hb in *. apply (Hdone n Hn); auto.
  - assert (String.eqb id "" = false) as ->
      by (repeat (apply elem_of_cons in Hid as [->|Hid]; [reflexivity|]); by apply elem_of_nil in Hid).
    assert (∃ n, List.find (fun n => String.eqb (NodeID n) id) demoNodes = Some n ∧ n ∈ demoNodes ∧ id = NodeID n) as (n & Hf & Hn & Hi).
    { repeat (apply elem_of_cons in Hid as [->|Hid]; [eexists; (split; [reflexivity|]); (split; [|reflexivity]); unfold demoNodes; rewrite !elem_of_cons; auto|]). by apply elem_of_nil in Hid. }
    destruct (find_seen a demoNodes id n Hf) as (ms & t & Ho). exists n, ms, t. split; [|by auto].
    unfold findNode, ListNodes. by rewrite Hl, Ho.
Qed.

(** Connecting starts the engine, and nothing can refuse. *)
Lemma demo_connected a id i n ms t g key :
  pick a id = Ok (as_seen n ms t) → node a = None → engine a = Some g → enforcer a = None → io_key i = Some key →
  ∃ a1 ms', Connect a id i = (a1, Ok tt) ∧ node a1 = Some (as_seen n ms' t) ∧ enforcer a1 = None ∧ App.wallet a1 = App.wallet a
  ∧ cfg a1 = cfg a
  ∧ engine a1 = Some (with_fake g (mkFake StateConnecting (clock g) (Endpoint n) (fe_hs (fe g)) (fe_rx (fe g)) (fe_tx (fe g))
                        (sleepers (fe g) ++ [clock g + handshake_time]))).
Proof.
  intros Hp Hn Hg He Hk. unfold Connect. rewrite Hn, Hg, Hp. unfold ProbeLatency, genPrivateKey.
  rewrite Hk. cbn [fmap option_fmap option_map].
  set (g1 := with_fake g _). destruct (io_dial i _ _) as [rtt|].
  - exists (record_connection (set_engine (set_store a (RecordLatency (store a) (NodeID (as_seen n ms t)) rtt)) (Some g1))
      (set_latency (as_seen n ms t) (ms_of rtt)) i), (ms_of rtt).
    unfold applyEnforcement. cbn. rewrite He. unfold record_connection. destruct (AddConnection _ _) as [s c]. by cbn; split_and!.
  - exists (record_connection (set_engine a (Some g1)) (as_seen n ms t) i), ms.
    unfold applyEnforcement. cbn. rewrite He. unfold record_connection. destruct (AddConnection _ _) as [s c]. by cbn; split_and!.
Qed.

(** Disconnecting stops it, and nothing can refuse. *)
Lemma demo_disconnected a n g : node a = Some n → engine a = Some g → enforcer a = None →
  ∃ a1, Disconnect a = (a1, Ok tt) ∧ node a1 = None
  ∧ engine a1 = Some (with_fake g (FakeEngine_Stop (fe g) (clock g)).1).
Proof.
  intros Hn Hg He. unfold Disconnect, stop_engine. rewrite Hn, Hg. destruct (eng_Bytes g) as [rx tx]. cbn.
  unfold ClearEnforcement. cbn. rewrite He. eexists. split; [reflexivity|]. by cbn.
Qed.

(** A new demo application. *)
Lemma new_demo open l now a : NewDemo (E := E) (W := W) open l now = Ok a →
  nodes a = Ok demoNodes ∧ cfg a = demo_config ∧ node a = None ∧ enforcer a = None ∧ App.wallet a = None
  ∧ engine a = Some (mkDemoEngine (NewFakeEngine now) now).
Proof.
  unfold NewDemo. destruct (Storage.Open _ _) as [s [[]|e]]; [|done]. cbv zeta.
  generalize (foldl seed (mkClientDB s l) demoNodes). intros d [= <-]. split_and!; reflexivity.
Qed.

Lemma demo_targeted `{Unicode} os a id : nodes a = Ok demoNodes → id ∈ "" :: map NodeID demoNodes →
  let id' := if String.eqb id "" then "demo-eu-01" else id in
  demo_target os a id = Ok id' ∧ id' ≠ "" ∧ id' ∈ "" :: map NodeID demoNodes.
Proof.
  intros Hl Hid. unfold demo_target. destruct (String.eqb_spec id "") as [->|Hne]; [|done].
  unfold ListNodes. rewrite Hl. cbn [map demoNodes]. destruct (observed_as_seen a (hd (seeded "" "" "" "" "" "" f0 0 0 f0) demoNodes))
    as (ms & t & Ho). cbn [hd demoNodes] in Ho. rewrite Ho. split_and!; [done|done|]. right. left.
Qed.

Lemma demo_priced n ms t : n ∈ demoNodes → f_gt (App.PricePerHourDero (as_seen n ms t)) f0 = true.
Proof. unfold demoNodes. intros Hn. repeat (apply elem_of_cons in Hn as [->|Hn]; [reflexivity|]). by apply elem_of_nil in Hn. Qed.
End app_proofs.

(** ** Properties *)

(** C34: the demo engine always settles.  Whatever calls it got and whichever of
    its sleeping goroutines ran, in any order: when it is then left alone for as
    long as a handshake takes, the rest of them can run, in any order they end
    in one state, DOWN if it was DOWN and UP otherwise, and none is left.  So
    no call makes the engine hang in CONNECTING, and a stopped engine is not
    brought up by a handshake it had begun. *)
Theorem demo_engine_settles `{GoArch} now g : rtc engine_step (mkDemoEngine (NewFakeEngine now) now) g →
  (∃ h, settles (elapse g handshake_time) h)
  ∧ ∀ h, settles (elapse g handshake_time) h →
    rtc engine_step g h ∧ sleepers (fe h) = [] ∧ fe_endpoint (fe h) = fe_endpoint (fe g)
    ∧ fe_state (fe h) = if String.eqb (fe_state (fe g)) StateDown then StateDown else StateUp.
Proof.
  intros Hr. apply engine_steps_wf in Hr; [|apply new_wf]. split; [apply settles_exists|].
  intros h Hh. by apply left_alone.
Qed.

(** demo mode connects.  A run of the program with --demo --connect, for no
    node or one of the three, that has got its database and its configuration
    and random bytes: it shows the price of the node for approval, goes on in
    the live loop, connected to that node (the first, for none) without
    protection and without a wallet; and once the handshake is over, the badge
    says UP, a disconnect succeeds, and the engine stays DOWN whatever sleeps
    in it. *)
Theorem demo_mode_connects {E W} `{GoArch, Enforcer E, IPv6, NameService, SortSlice, Unicode, TOML}
  os cfg_text app_text id i key f f' (oa : option (App.App demo_engine E client_db W)) prompt e :
  runDemo os cfg_text app_text false false id true i f = (f', oa, prompt, e) →
  match e with DFatal (DOpen _) | DFatal (DFirst _) => False | _ => True end →
  id ∈ "" :: map NodeID demoNodes → io_key (dm_connect i) = Some key →
  ∃ a n ms ms' t g, e = DLive ∧ oa = Some a ∧ n ∈ demoNodes ∧ NodeID n = (if String.eqb id "" then "demo-eu-01" else id)
  ∧ prompt = Some (PaymentApprovalPrompt (as_seen n ms t)) ∧ node a = Some (as_seen n ms' t)
  ∧ enforcer a = None ∧ App.wallet a = None ∧ engine a = Some g ∧ fe_endpoint (fe g) = Endpoint n
  ∧ (∃ h, settles (elapse g handshake_time) h)
  ∧ ∀ h, settles (elapse g handshake_time) h →
    EngineState (set_engine a (Some h)) = StateUp
    ∧ ∃ a', Disconnect (set_engine a (Some h)) = (a', Ok tt) ∧ node a' = None
      ∧ ∀ h', engine a' = Some h' → ∀ k, settles (elapse h' handshake_time) k → fe_state (fe k) = StateDown.
Proof.
  unfold runDemo. destruct (NewDemo _ _ _) as [a0|x] eqn:Enew; [|by intros [= <- <- <- <-] ?].
  destruct (new_demo _ _ _ _ Enew) as (Hl & _ & Hn & He & Hw & Hg).
  destruct (demo_first_run _ _ a0 f (dm_first i)) as [[f1 a1] [rep|x]] eqn:Ef; [|by intros [= <- <- <- <-] ?].
  assert (nodes a1 = Ok demoNodes ∧ node a1 = None ∧ enforcer a1 = None ∧ App.wallet a1 = None
          ∧ engine a1 = Some (mkDemoEngine (NewFakeEngine (dm_now i)) (dm_now i))) as (Hl1 & Hn1 & He1 & Hw1 & Hg1).
  { revert Ef. unfold demo_first_run. destruct (EnsureFirstRun _ _ _ _ _ _) as [[f2 st] [[rp c] [u|x]]]; [|done].
    cbn. by intros [= _ <- _]. }
  intros Hrun _ Hid Hk. destruct (demo_targeted os a1 id Hl1 Hid) as (Ht & Hne & Hid'). unfold demo_connect in Hrun.
  rewrite Ht in Hrun. set (id' := if String.eqb id "" then _ else _) in *.
  destruct (demo_pick a1 id' Hl1 (fun x => match Hne x with end) Hid') as (n & ms & t & Hpick & Hin & [Hx|Hnid]); [done|].
  unfold NeedsPaymentApproval in Hrun. rewrite Hpick, demo_priced in Hrun by done.
  destruct (demo_connected _ _ _ _ _ _ _ _ Hpick Hn1 Hg1 He1 Hk) as (a2 & ms' & Hc & Hn2 & He2 & Hw2 & _ & Hg2).
  rewrite Hc in Hrun. injection Hrun as <- <- <- <-.
  eexists a2, n, ms, ms', t, _. split; [done|]. split; [done|]. split; [done|]. split; [done|]. split; [done|].
  split; [done|]. split; [done|]. split; [congruence|]. split; [exact Hg2|]. split; [done|]. split; [apply settles_exists|].
  assert (engine_wf (with_fake (mkDemoEngine (NewFakeEngine (dm_now i)) (dm_now i)) (mkFake StateConnecting (dm_now i)
    (Endpoint n) 0 0 0 [dm_now i + handshake_time]))) as Hwf.
  { split; cbn; [right; left|done|]. repeat constructor. lia. }
  intros h Hh. destruct (left_alone _ _ Hwf Hh) as (Hr & _ & _ & Hst).
  split; [exact Hst|].
  destruct (demo_disconnected (set_engine a2 (Some h)) _ h Hn2 eq_refl He2) as (a3 & Hd & Hn3 & Hg3).
  exists a3. split; [done|]. split; [done|]. rewrite Hg3. intros h' [= <-] k Hk'.
  apply left_alone in Hk' as (_ & _ & _ & ->); [done|].
  eapply engine_step_wf; [apply (es_stop h)|]. by apply (engine_steps_wf _ _ Hr).
Qed.

(** ** Witnesses and examples *)

#[local] Existing Instances stable_sort amd64 no_ipv6 ascii_unicode App.demo_names App.demo_os_enforcer Onboard.default_toml.

Definition one_peer : WGConfig := mkWGConfig "" [] [] [mkPeer "" "127.0.0.1:51821" [] 0].
Definition new_engine : demo_engine := mkDemoEngine (NewFakeEngine 0) 0.

Lemma demo_engine_settles_witness : ∃ h, settles (elapse (eng_Start new_engine one_peer).1 handshake_time) h ∧ fe_state (fe h) = StateUp.
Proof.
  assert (rtc engine_step new_engine (eng_Start new_engine one_peer).1) as Hr by (apply rtc_once, (es_start new_engine one_peer)).
  destruct (demo_engine_settles 0 (eng_Start new_engine one_peer).1 Hr) as [[h Hh] Hall].
  exists h. split; [exact Hh|]. by destruct (Hall h Hh) as (_ & _ & _ & ->).
Defined.

(** A handshake begun before a stop ends the one begun after it: this engine is
    UP 50 ms after its second start. *)
Example stale_handshake_counts :
  let g := elapse (eng_Stop (elapse (eng_Start new_engine one_peer).1 (100 * millisecond))).1 (250 * millisecond) in
  let g := elapse (eng_Start g one_peer).1 (50 * millisecond) in
  sleepers (fe g) = [400 * millisecond; 750 * millisecond] ∧ clock g = 400 * millisecond
  ∧ fe_state (fe (awake g [750 * millisecond])) = StateUp.
Proof. vm_compute. split_and!; reflexivity. Qed.

(** Rotating a stopped engine starts it. *)
Example rotating_starts : eng_State new_engine = StateDown ∧ (eng_RotateEndpoint new_engine "127.0.0.2:51822").2 = Ok tt
  ∧ eng_State (awake (elapse (eng_RotateEndpoint new_engine "127.0.0.2:51822").1 (300 * millisecond)) []) = StateUp.
Proof. vm_compute. split_and!; reflexivity. Qed.

(** The counters of two and a half seconds. *)
Example counters : (FakeEngine_Statistics (mkFake StateUp 0 "" 0 0 0 []) (2500 * millisecond)).2 = (327680, 81920).
Proof. vm_compute. reflexivity. Qed.

Definition demo_first : Onboard.run_io := mkRunIO (Ok "/home/u/.veilnet/config.toml") None None None None.
Definition demo_answers : demo_io := mkDemoIO [] [] noon demo_first App.demo_io.
Definition demo_run (status : bool) (id : string) (f : file) :=
  runDemo (E := osEnforcer machine) (W := unit) Linux (fun _ => "bad") (fun _ => "failed") status false id (negb status) demo_answers f.

Lemma demo_mode_connects_witness : ∃ a n, (demo_run false "demo-us-01" (Text "default")).1.1.2 = Some a
  ∧ option_map NodeID (node a) = Some (NodeID n) ∧ NodeID n = "demo-us-01".
Proof.
  assert ((demo_run false "demo-us-01" (Text "default")).2 = DLive) as He by (vm_compute; reflexivity).
  destruct (demo_run false "demo-us-01" (Text "default")) as [[[f' oa] prompt] e] eqn:Er. cbn in He. subst e.
  destruct (demo_mode_connects Linux (fun _ => "bad") (fun _ => "failed") "demo-us-01" demo_answers _ _ _ _ _ _ Er I
    ltac:(right; right; left) eq_refl) as (a & n & ms & ms' & t & g & _ & Ha & _ & Hn & _ & Hnode & _).
  exists a, n. split; [exact Ha|]. split; [by rewrite Hnode|exact Hn].
Defined.

(** Demo mode runs on the production configuration: it creates that file when it
    is missing, and its own region is overwritten by what the file says. *)
Example demo_writes_the_real_file : (demo_run true "" Missing).1.1.1 = Text "default"
  ∧ option_map (fun a => Region (cfg a)) (demo_run true "" Missing).1.1.2 = Some "" ∧ Region demo_config = "eu-west".
Proof. vm_compute. split_and!; reflexivity. Qed.

(** The nodes are in the database with their trust, and a status is a snapshot
    that says it is one of the demo. *)
Example demo_status :
  match demo_run true "" (Text "default") with
  | (_, Some a, _, DPrinted st) =>
    Demo st = true ∧ cs_EngineState st = StateDown
    ∧ map NodeID (match ListNodes a with Ok l => l | Err _ => [] end) = ["demo-eu-01"; "demo-us-01"; "demo-ap-01"]
    ∧ Storage.GetTrust (db (store a)) "demo-ap-01" None = Ok (f_const 8 10, 10)
  | _ => False
  end.
Proof. vm_compute. split_and!; reflexivity. Qed.
